(* ===== verification/_CoqProject ===== *)
-Q . S2P
Prelude.v
Prog.v
State.v
Spinlock.v
Riscv.v
Printf.v
Switch.v
Dispatch.v
Rand.v
Loteria.v
Stride.v
CStr.v
Kalloc.v
Vm.v
PageTable.v
UserMem.v
Proc.v
Sleeplock.v
Sleep.v
Virtio.v
Bio.v
Cache.v
Log.v
LogSpec.v
Fs.v
FsSpec.v
FileData.v
DirSpec.v
VirtioSpec.v
Console.v
Pipe.v
PipeSpec.v
File.v
Args.v
Exec.v
Sysfile.v
Syscall.v
Trap.v
Main.v
ConsoleSpec.v
ReadCall.v
User.v
Ulib.v
Uprintf.v
Grep.v
Umalloc.v
Sh.v
ShParse.v
ShRun.v
Programs.v
Grind.v
Usertests.v
UsertestsProc.v
UsertestsDrive.v
Mkfs.v
MkfsSpec.v
MkfsImage.v
BootSpec.v
