(* ===== verification/Prelude.v ===== *)
(** * A verification library for xv6 with lottery and stride scheduling

    The program is the xv6 teaching system for RISC-V: a kernel (src/kernel)
    with two process schedulers added to kernel/proc.c, a lottery over four
    priority classes and stride scheduling; the programs that run on it and
    their library (src/user); and mkfs (src/mkfs), which writes the disk it
    boots from.  This library models the whole of the kernel's C code, the user
    library, the shell and the other programs, their tests, and mkfs, and proves
    what makes the parts correct.

    ** How the code is modelled

    [Prelude]: C integers as [Z] with their wrap-around, C strings and byte
    arrays, little-endian encodings, the lemmas on lists and integers that
    everything uses, the hint databases.

    [Prog]: a kernel function is a program in the monad [Prog kstate], written
    [M].  A run ends in [Ok] (it returns), [Panic] (the kernel's panic),
    [Blocked] (it still waits when the environment has nothing more to do) or
    [Fault] (undefined behaviour: an index out of range, a null pointer, a read
    past a page).  The world of a run has the kernel's state and the
    environment: the list of the state changes that the rest of the machine
    makes at the points where this thread lets it run, which are swtch, a spin
    on a lock and a poll of a device.  Theorems quantify over the environment,
    or over those that respect a relation ([rely], [guar]).  Loops over arrays
    are structural; [wait_loop] is a loop each turn of which waits, bounded by
    the length of the environment, which is enough because a turn uses up at
    least one step ([loop_bound_enough]); other loops have a fuel that their
    definitions justify in a comment, and running out of it would be a [Fault],
    so that a theorem that a function returns [Ok] shows that the fuel is
    enough.

    [State]: one record [kstate] for the whole kernel: the harts with their
    registers, the locks, and [kdata], the static variables of every file of
    kernel/ with RAM as a map from page addresses to 4096 bytes.  Structures are
    records with the names of the C fields; a pointer into a static table is an
    index, a pointer to a page its address.

    Then one file per part of the kernel, one definition per C function, named
    as in the source:
    - [Spinlock] (spinlock.c), [Riscv] (riscv.h), [Sleeplock] (sleeplock.c);
    - [Printf] (printf.c), [Console] (console.c, uart.c), [CStr] (string.c);
    - [Switch] (sched, yield, sleep, wakeup, kill of proc.c, and swtch.S),
      [Dispatch], [Loteria] and [Stride] (the schedulers of proc.c),
      [Proc] (the rest of proc.c);
    - [Kalloc] (kalloc.c and access to RAM), [Vm] (vm.c);
    - [Virtio] (virtio_disk.c), [Bio] (bio.c), [Log] (log.c), [Fs] (fs.c),
      [Pipe] (pipe.c), [File] (file.c), [Exec] (exec.c);
    - [Args] (the arguments of syscall.c, sysproc.c), [Sysfile] (sysfile.c),
      [Syscall] (the dispatch of syscall.c);
    - [Trap] (trap.c, plic.c), [Main] (start.c, main.c).

    The parts meet at interfaces: [State.LinkSyms] (where the linker put the
    kernel, with [LinkSymsOk], what it guarantees), [Bio.Disk] (the disk driver,
    with [DiskSpec], what the cache relies on), [Proc.FileSys] (what processes
    use of the file system) and [File.StackBytes] (the uninitialised bytes that
    filestat copies out), [VirtioSpec.BlockDevice] (what the virtio protocol
    promises of a device).  [Main] closes them: the disk is the virtio driver,
    the file system is the file system.  [VirtioSpec.virtio_spec] shows that the
    driver, with its interrupt handler and the scheduler running while it
    sleeps, and any device that obeys the protocol, is a [DiskSpec]: the
    theorems on the log and the files are theorems on the real driver.

    A user program sees the kernel through its system calls only.  [User] has
    the list of them and the monad [U] of such programs: a program returns, ends
    by exit or by a fault, or makes a call and goes on with what it returns.
    [User.Sys] is what the calls do to a state, and [interp] runs a program
    against it; a theorem about a program is for every such kernel that obeys
    the law the theorem names ([Ulib.stream_law], what read does to a stream of
    bytes; [Ulib.pipe_machine] is a kernel that obeys it).  What a program does
    with processes and descriptors is read off the same program by [ShRun.plan],
    which branches at fork.  malloc is one of the calls for the programs that
    only use its result; [Umalloc] models it on a heap of bytes.  For the tests,
    which use addresses they should not, loads, stores and system calls with an
    address as argument are among the calls too.  Then:
    - [Ulib] (ulib.c), [Uprintf] (printf.c), [Umalloc] (umalloc.c);
    - [Sh] (sh.c), with [ShParse] and [ShRun] for its theorems;
    - [Grep] (grep.c), [Programs] (cat, echo, forktest, init, kill, ln, ls, mkdir,
      rm, stressfs, testP, testS, wc and zombie), [Grind] (grind.c);
    - [Usertests], [UsertestsProc] and [UsertestsDrive] (usertests.c);
    - [Mkfs] (mkfs.c), over the formats of [Fs], with [MkfsSpec] and [MkfsImage].

    ** What the theorems show

    - Schedulers.  [Loteria]: over the period of the generator the classes are
      drawn in exact proportion to their tickets ([Rand] has the mathematics),
      a round dispatches the next runnable process of the class drawn, nobody
      starves.  [Stride]: a round dispatches a process of least pass, the
      processor is shared in proportion to the tickets to within one round,
      nobody of positive stride starves, and a process of stride 0 that runs
      once runs for ever.
    - Switching and locks.  [Switch]: no wakeup is lost, wakeup wakes exactly
      the sleepers of its channel, kill, and the checks of sched.  [Spinlock],
      [Sleeplock]: mutual exclusion whatever the others do, critical sections,
      nesting of interrupt disabling.  [Sleep]: what a sleeper finds when the
      scheduler, having run other code, comes back to it; the theorems on the
      disk driver and on the console use it.
    - Memory.  [Kalloc]: the allocator refines a stack of pages.  [PageTable]:
      page tables are address spaces, walk and mappages do what they should to
      them.  [UserMem]: uvmunmap, uvmcopy, copyin and copyout in terms of the
      bytes a process sees at its virtual addresses, errors included.
    - Disk.  [VirtioSpec]: a request goes through the rings to the device and
      comes back by the interrupt, the block is transferred, and the driver is
      ready for the next one.  [Bio]: the cache refines an LRU cache of 30
      slots.  [Cache]: a logic of the contents of blocks, pins and locked buffers, derived from the
      code of the cache and [DiskSpec].  [LogSpec]: with it, every function of
      the log is specified, and a commit is shown atomic under a crash after
      any of its disk writes, and recovery under any number of crashes; log_write
      absorbs repeated writes.  A write of a block is atomic, and writes reach
      the disk in the order of the requests: the list [dwrites] of [State] is
      the history of the platter.
    - Files.  [FsSpec]: an inode written is read back, path names are parsed to
      the end.  [FileData]: balloc hands out free blocks, and what writei writes
      from a kernel buffer, through bmap and the block allocator, readi reads
      back, within a bound on the log that filewrite's chunks respect
      ([File.filewrite_fits]); this for a disk whose bitmap is one block, as the
      one mkfs lays out, and with the room and the free blocks it needs.
      [DirSpec]: the table of inodes is the map of the references held, a
      directory the list of its entries, and namex resolves a path in the tree.
      [PipeSpec]: a pipe is a bounded queue in any interleaving, and
      a writer appends its bytes.
    - Text.  [Printf]: printf writes the rendering of its format, numbers read
      back, and where the buffer of printint is too small.  [CStr]: memmove,
      safestrcpy, strncmp.
    - Console.  [ConsoleSpec]: an abstract line editor, with erase, kill, end of
      file and a full buffer; consoleread returns the line that the editor makes
      of the characters that arrive at the serial port while the reader sleeps.
      [ReadCall]: the whole system call, from syscall with the registers in the
      trap frame through sys_read, argfd and fileread to consoleread, and the
      count back in a0.
    - Processes.  [Proc]: forkprio stops the machine when memory runs out.
    - The shell.  [ShParse]: on every line the parser returns or prints a message
      and exits; it returns on the lines of the grammar only, and then the command
      of the line, with its strings terminated.  [ShRun]: what the child of the
      shell runs for a line, with which descriptors, is what the line means.
    - Programs.  [Umalloc]: malloc returns a block apart from the others, free
      gives it back, and the bytes of the other blocks stay.  [Grep]: the lines
      written are those in the language of the pattern, however the input is
      divided into reads.  [Programs]: wc counts; cat and echo.  [Uprintf]: what
      printf writes.  [Grind]: its generator is that of Park and Miller.
      [UsertestsDrive]: usertests exits with 0 exactly if every test's process
      does and no page is lost.
    - The disk image.  [MkfsSpec]: every block that mkfs hands out is of one
      file.  [MkfsImage]: the image has the files, in the form that the
      theorems of [FileData] and [LogSpec] start with.  [BootSpec]: a kernel
      that boots on the image finds each file by its name and reads its bytes.

    ** Bounds of the model

    Kernel code is interrupted only where it waits: an interrupt handler that
    runs between two statements of a kernel thread is not modelled, nor are
    weaker memory orders than sequential consistency.  [tp] holds the index of
    the hart.  The theorem on the disk driver is for one request at a time, with
    any number of early wakeups.  In the theorem on the console the characters
    arrive while the reader sleeps, and ^P, which lists the processes, is not
    typed.  The environment of a theorem is what its hypotheses say; the
    cache logic covers the code of one process between two waits.

    The loops of the user programs over their input have a fuel that is an
    argument, and their theorems show which is enough; those of the parser have
    one from the length of the line, those of malloc from the end of the heap,
    that of iappend from the number of bytes.  The memory of a program is that
    of its buffers; only [Umalloc] and the tests have addresses.  An endless loop
    of a test ends in [Crash] when its fuel is used up: the process waits to be
    killed.  What the tests find on this kernel is not proved: they are programs
    whose calls the machine answers.  The host that mkfs runs on is
    little-endian, and its writes to the image succeed.

    ** Not modelled

    The assembly files entry.S, kernelvec.S and trampoline.S: register saving
    and the switch of page tables at the edge of user mode; the machine code of
    the programs, and the stubs that usys.pl generates for their calls; the
    accessors of riscv.h that nothing calls, and sfence_vma, which has no effect without a TLB; the devices, which are part
    of the environment (and a parameter of [VirtioSpec]). *)

From stdpp Require Export base tactics numbers list list_numbers gmap strings.
From Stdlib Require Export ZArith Lia.

#[global] Open Scope Z_scope.
#[global] Open Scope list_scope.

(** ** C integers

    A C integer of width [w] is a [Z] kept in range by the wrap functions;
    [char] is unsigned, as the RISC-V ABI has it. *)

Definition wrap_u (w x : Z) : Z := x `mod` 2 ^ w.
Definition wrap_s (w x : Z) : Z := (x + 2 ^ (w - 1)) `mod` 2 ^ w - 2 ^ (w - 1).

Abbreviation u8 := (wrap_u 8).
Abbreviation u16 := (wrap_u 16).
Abbreviation u32 := (wrap_u 32).
Abbreviation u64 := (wrap_u 64).
Abbreviation s16 := (wrap_s 16).
Abbreviation s32 := (wrap_s 32).
Abbreviation s64 := (wrap_s 64).

Create HintDb xv6.
Create Rewrite HintDb len.

Lemma wrap_u_range w x : 0 <= w -> 0 <= wrap_u w x < 2 ^ w.
Proof. intros Hw. apply Z.mod_pos_bound, Z.pow_pos_nonneg; lia. Qed.

Lemma wrap_u_small w x : 0 <= x < 2 ^ w -> wrap_u w x = x.
Proof. apply Z.mod_small. Qed.

Lemma wrap_s_range w x : 0 < w -> - 2 ^ (w - 1) <= wrap_s w x < 2 ^ (w - 1).
Proof.
  intros Hw. unfold wrap_s.
  assert (2 ^ w = 2 * 2 ^ (w - 1)) as E.
  { rewrite <- Z.pow_succ_r by lia. f_equal. lia. }
  pose proof (Z.mod_pos_bound (x + 2 ^ (w - 1)) (2 ^ w) ltac:(apply Z.pow_pos_nonneg; lia)).
  lia.
Qed.

Lemma wrap_s_small w x : 0 < w -> - 2 ^ (w - 1) <= x < 2 ^ (w - 1) -> wrap_s w x = x.
Proof.
  intros Hw Hx. unfold wrap_s.
  assert (2 ^ w = 2 * 2 ^ (w - 1)) as E.
  { rewrite <- Z.pow_succ_r by lia. f_equal. lia. }
  rewrite Z.mod_small by lia. lia.
Qed.

Lemma s32_small x : - 2147483648 <= x < 2147483648 -> s32 x = x.
Proof. intros H. apply wrap_s_small; [lia|]. exact H. Qed.

Lemma u32_small x : 0 <= x < 4294967296 -> u32 x = x.
Proof. intros H. apply wrap_u_small. exact H. Qed.

Lemma u64_small x : 0 <= x < 18446744073709551616 -> u64 x = x.
Proof. intros H. apply wrap_u_small. exact H. Qed.

Lemma s32_range x : - 2147483648 <= s32 x < 2147483648.
Proof. exact (wrap_s_range 32 x ltac:(lia)). Qed.

Lemma u32_range x : 0 <= u32 x < 4294967296.
Proof. exact (wrap_u_range 32 x ltac:(lia)). Qed.

Lemma u64_range x : 0 <= u64 x < 18446744073709551616.
Proof. exact (wrap_u_range 64 x ltac:(lia)). Qed.

#[export] Hint Resolve s32_range u32_range u64_range : xv6.

(** C booleans: the value of a comparison, and the truth of an integer. *)
Definition b2z (b : bool) : Z := if b then 1 else 0.
Definition z2b (z : Z) : bool := negb (z =? 0).

Lemma z2b_b2z b : z2b (b2z b) = b.
Proof. by destruct b. Qed.

Lemma z2b_nonzero z : z ≠ 0 -> z2b z = true.
Proof. intros H. unfold z2b. apply negb_true_iff. by apply Z.eqb_neq. Qed.

(** A null-terminated array of characters from a Rocq string. *)
Definition bytes_of (s : string) : list Z :=
  (fun c => Z.of_N (Ascii.N_of_ascii c)) <$> String.list_ascii_of_string s.

(** The character constant of a one-character string. *)
Definition chr (s : string) : Z := default 0 (head (bytes_of s)).

(** ** Lists indexed by C integers *)

Definition zlookup {A} (l : list A) (i : Z) : option A :=
  if 0 <=? i then l !! Z.to_nat i else None.

Lemma zlookup_Some {A} (l : list A) i x :
  zlookup l i = Some x <-> 0 <= i /\ l !! Z.to_nat i = Some x.
Proof.
  unfold zlookup. destruct (Z.leb_spec 0 i); split; intros H'; [done|by destruct H'|done|].
  destruct H'; lia.
Qed.

Lemma zlookup_of_nat {A} (l : list A) (i : nat) : zlookup l (Z.of_nat i) = l !! i.
Proof. unfold zlookup. destruct (Z.leb_spec 0 (Z.of_nat i)); [|lia]. by rewrite Nat2Z.id. Qed.

Lemma list_alter_alter {A} (f g : A -> A) (l : list A) i :
  alter f i (alter g i l) = alter (fun x => f (g x)) i l.
Proof.
  apply list_eq. intros j. destruct (decide (i = j)) as [->|].
  - rewrite !list_lookup_alter_eq. by destruct (_ !! j).
  - by rewrite !list_lookup_alter_ne.
Qed.

(** ** Bytes of a region

    [read_at off n l] are the [n] bytes of [l] from [off]; [write_at off bs l]
    overwrites [length bs] bytes of [l] from [off]. *)

Section region.
Context {A : Type}.
Implicit Types (l bs : list A) (off n : nat).

Definition read_at off n l : list A := take n (drop off l).
Definition write_at off bs l : list A := take off l ++ bs ++ drop (off + length bs) l.

Lemma length_read_at off n l : (off + n <= length l)%nat -> length (read_at off n l) = n.
Proof. intros H. unfold read_at. rewrite length_take, length_drop. lia. Qed.

Lemma length_write_at off bs l :
  (off + length bs <= length l)%nat -> length (write_at off bs l) = length l.
Proof.
  intros H. unfold write_at. rewrite !length_app, length_take, length_drop. lia.
Qed.

Lemma lookup_read_at off n l i :
  (i < n)%nat -> read_at off n l !! i = l !! (off + i)%nat.
Proof. intros H. unfold read_at. rewrite lookup_take_lt by lia. apply lookup_drop. Qed.

Lemma lookup_write_at_in off bs l i :
  (off + length bs <= length l)%nat -> (off <= i < off + length bs)%nat ->
  write_at off bs l !! i = bs !! (i - off)%nat.
Proof.
  intros Hb Hi. unfold write_at.
  rewrite lookup_app_r by (rewrite length_take; lia).
  rewrite length_take, Nat.min_l by lia. rewrite lookup_app_l by lia. done.
Qed.

Lemma lookup_write_at_out off bs l i :
  (off + length bs <= length l)%nat -> ~ (off <= i < off + length bs)%nat ->
  write_at off bs l !! i = l !! i.
Proof.
  intros Hb Hi. unfold write_at. destruct (decide (i < off)%nat).
  - rewrite lookup_app_l by (rewrite length_take; lia). by rewrite lookup_take_lt by lia.
  - rewrite lookup_app_r by (rewrite length_take; lia).
    rewrite length_take, Nat.min_l by lia. rewrite lookup_app_r by lia.
    rewrite lookup_drop. f_equal. lia.
Qed.

Lemma read_write_same off bs l :
  (off + length bs <= length l)%nat -> read_at off (length bs) (write_at off bs l) = bs.
Proof.
  intros H. unfold read_at, write_at.
  rewrite drop_app_length' by (rewrite length_take; lia). by rewrite take_app_length.
Qed.

Lemma read_write_other off bs l off' n :
  (off + length bs <= length l)%nat -> (off' + n <= length l)%nat ->
  (off' + n <= off \/ off + length bs <= off')%nat ->
  read_at off' n (write_at off bs l) = read_at off' n l.
Proof.
  intros Hb Hl Hd. apply list_eq. intros i. destruct (decide (i < n)%nat).
  - rewrite !lookup_read_at by lia. apply lookup_write_at_out; lia.
  - rewrite !lookup_ge_None_2; [done| |]; rewrite length_read_at; rewrite ?length_write_at; lia.
Qed.

Lemma list_filter_ext {B} (P Q : B -> Prop) `{HP : !forall x, Decision (P x), HQ : !forall x, Decision (Q x)} (l : list B) :
  (forall x, x ∈ l -> P x <-> Q x) -> filter P l = filter Q l.
Proof.
  induction l as [|x l IH]; intros Hx; [done|]. rewrite !filter_cons, IH by (intros y Hy; apply Hx; by right).
  by rewrite (decide_ext (P x) (Q x)) by (apply Hx; by left).
Qed.

Lemma write_at_nil off l : write_at off [] l = l.
Proof. unfold write_at. cbn. rewrite Nat.add_0_r. apply take_drop. Qed.

Lemma write_at_app off bs1 bs2 l : (off + length bs1 + length bs2 <= length l)%nat ->
  write_at off (bs1 ++ bs2) l = write_at (off + length bs1) bs2 (write_at off bs1 l).
Proof.
  intros H. apply list_eq. intros i. destruct (decide (off <= i < off + length (bs1 ++ bs2))%nat) as [Hi|Hi].
  - rewrite lookup_write_at_in by (rewrite ?length_app in *; lia). rewrite length_app in Hi.
    destruct (decide (i < off + length bs1)%nat).
    + rewrite lookup_app_l by lia. rewrite lookup_write_at_out by (rewrite ?length_write_at; lia).
      by rewrite lookup_write_at_in by lia.
    + rewrite lookup_app_r by lia. rewrite lookup_write_at_in by (rewrite ?length_write_at; lia). f_equal. lia.
  - rewrite length_app in Hi. rewrite !lookup_write_at_out by (rewrite ?length_write_at, ?length_app; lia). done.
Qed.

Lemma write_at_insert off c l : (off < length l)%nat -> write_at off [c] l = <[off := c]> l.
Proof.
  intros H. apply list_eq. intros i. destruct (decide (i = off)) as [->|Hne].
  - rewrite lookup_write_at_in, list_lookup_insert_eq by (cbn; lia). by rewrite Nat.sub_diag.
  - rewrite lookup_write_at_out, list_lookup_insert_ne by (cbn; lia). done.
Qed.

Lemma write_at_0_all bs l : length bs = length l -> write_at 0 bs l = bs.
Proof.
  intros H. unfold write_at. simpl. rewrite drop_ge by lia. apply app_nil_r.
Qed.
End region.

#[export] Hint Rewrite @length_insert @length_app @length_take @length_drop @length_replicate
  @length_fmap @length_seq @length_alter : len.

Ltac len := autorewrite with len; try lia.

(** ** Little-endian encoding of integers *)

Fixpoint le_split (n : nat) (x : Z) : list Z :=
  match n with
  | O => []
  | S n => x `mod` 256 :: le_split n (x / 256)
  end.

Fixpoint le_combine (bs : list Z) : Z :=
  match bs with
  | [] => 0
  | b :: bs => b + 256 * le_combine bs
  end.

Lemma length_le_split n x : length (le_split n x) = n.
Proof. revert x; induction n; simpl; auto. Qed.

#[export] Hint Rewrite length_le_split : len.

Lemma le_combine_split n x : le_combine (le_split n x) = x `mod` 2 ^ (8 * Z.of_nat n).
Proof.
  revert x; induction n as [|n IH]; intros x; simpl le_split; simpl le_combine.
  - by rewrite Z.mod_1_r.
  - rewrite IH. replace (8 * Z.of_nat (S n)) with (8 + 8 * Z.of_nat n) by lia.
    rewrite Z.pow_add_r by lia. change (2 ^ 8) with 256.
    rewrite Z.rem_mul_r by lia. lia.
Qed.

Lemma le_combine_split_small n x :
  0 <= x < 2 ^ (8 * Z.of_nat n) -> le_combine (le_split n x) = x.
Proof. intros H. rewrite le_combine_split. by apply Z.mod_small. Qed.

Definition is_byte (b : Z) : Prop := 0 <= b < 256.

Lemma le_split_bytes n x : Forall is_byte (le_split n x).
Proof.
  revert x; induction n as [|n IH]; intros x; simpl; constructor; [|apply IH].
  apply Z.mod_pos_bound. lia.
Qed.

Lemma le_split_combine bs : Forall is_byte bs -> le_split (length bs) (le_combine bs) = bs.
Proof.
  induction 1 as [|b bs Hb Hbs IH]; simpl; [done|].
  unfold is_byte in Hb. f_equal.
  - rewrite Z.mul_comm, Z.mod_add by lia. apply Z.mod_small. lia.
  - rewrite Z.mul_comm, Z.div_add by lia. rewrite Z.div_small by lia. done.
Qed.

Lemma le_combine_range bs :
  Forall is_byte bs -> 0 <= le_combine bs < 2 ^ (8 * Z.of_nat (length bs)).
Proof.
  intros H. rewrite <- (le_split_combine bs H) at 1 2. rewrite le_combine_split.
  apply Z.mod_pos_bound. apply Z.pow_pos_nonneg; lia.
Qed.

(** ** Constants of the headers that the kernel, the programs and mkfs share *)

(** param.h *)
Definition NOFILE : nat := 16.
Definition ROOTDEV : Z := 1.
Definition MAXOPBLOCKS : Z := 10.
Definition LOGSIZE : Z := MAXOPBLOCKS * 3.
Definition FSSIZE : Z := 2000.

(** fs.h *)
Definition ROOTINO : Z := 1.
Definition BSIZE : Z := 1024.
Definition FSMAGIC : Z := 0x10203040.
Definition NDIRECT : Z := 12.
Definition NINDIRECT : Z := BSIZE / 4.
Definition MAXFILE : Z := NDIRECT + NINDIRECT.
Definition DIRSIZ : Z := 14.
Definition BPB : Z := BSIZE * 8.

(** stat.h, fcntl.h, file.h *)
Definition T_DIR : Z := 1.
Definition T_FILE : Z := 2.
Definition T_DEVICE : Z := 3.
Definition O_RDONLY : Z := 0x000.
Definition O_WRONLY : Z := 0x001.
Definition O_RDWR : Z := 0x002.
Definition O_CREATE : Z := 0x200.
Definition O_TRUNC : Z := 0x400.
Definition CONSOLE : nat := 1.

(** ** Proof automation *)

(** Turn boolean tests of the code, in the hypotheses and in the goal, into
    the propositions they decide. *)
Ltac propify :=
  repeat match goal with
  | H : (_ =? _) = true |- _ => apply Z.eqb_eq in H
  | H : (_ =? _) = false |- _ => apply Z.eqb_neq in H
  | H : (_ <? _) = true |- _ => apply Z.ltb_lt in H
  | H : (_ <? _) = false |- _ => apply Z.ltb_ge in H
  | H : (_ <=? _) = true |- _ => apply Z.leb_le in H
  | H : (_ <=? _) = false |- _ => apply Z.leb_gt in H
  | H : (_ && _)%bool = true |- _ => apply andb_true_iff in H as [? ?]
  | H : (_ || _)%bool = false |- _ => apply orb_false_iff in H as [? ?]
  | H : negb _ = true |- _ => apply negb_true_iff in H
  | H : negb _ = false |- _ => apply negb_false_iff in H
  | H : bool_decide _ = true |- _ => apply bool_decide_eq_true in H
  | H : bool_decide _ = false |- _ => apply bool_decide_eq_false in H
  end.

(** Case on the first [if] or [match] scrutinee of the goal. *)
Ltac case_code :=
  match goal with
  | |- context [if ?b then _ else _] => destruct b eqn:?
  | |- context [match ?x with _ => _ end] => destruct x eqn:?
  end.
