(* ===== verification/Prog.v ===== *)
(** * Kernel threads as programs

    The monad in which the kernel's functions are written.  A program runs in a
    [world]: the state it works on, and the [env]ironment, the list of what the
    rest of the machine does each time this thread lets it run (other kernel
    threads and processes after a [swtch], other harts while this one spins on
    a lock, a device it polls).  A run either returns ([Ok]), stops the machine
    with the kernel's [panic] ([Panic]), is still waiting when the environment
    list ends ([Blocked], with the world it waits in), or does something C
    leaves undefined ([Fault]: a null dereference, an index out of range).

    Two program logics come with it: [wp], total correctness, and [guar], a
    rely-guarantee rule for relations every step of a program and of its
    environment respects (frames and invariants are the two uses). *)

From S2P Require Import Prelude.

Record world (S : Type) := mkWorld { ks : S; env : list (S -> S) }.
Arguments mkWorld {S} _ _.
Arguments ks {S} _.
Arguments env {S} _.

Inductive result (S A : Type) :=
| Ok (a : A) (w : world S)
| Panic (msg : string)
| Blocked (w : world S)
| Fault (why : string).
Arguments Ok {S A} _ _.
Arguments Panic {S A} _.
Arguments Blocked {S A} _.
Arguments Fault {S A} _.

Definition Prog (S A : Type) : Type := world S -> result S A.

#[export] Instance Prog_ret {S} : MRet (Prog S) := fun A a w => Ok a w.
#[export] Instance Prog_bind {S} : MBind (Prog S) := fun A B k m w =>
  match m w with
  | Ok a w' => k a w'
  | Panic msg => Panic msg
  | Blocked w' => Blocked w'
  | Fault why => Fault why
  end.

Section prog.
Context {S : Type}.
Implicit Types (w : world S) (s : S).

Definition set_ks (s : S) (w : world S) : world S := {| w with ks := s |}.

Definition gets {A} (f : S -> A) : Prog S A := fun w => Ok (f (ks w)) w.
Definition modify (f : S -> S) : Prog S unit := fun w => Ok tt (set_ks (f (ks w)) w).
Definition panic {A} (msg : string) : Prog S A := fun _ => Panic msg.
Definition fault {A} (why : string) : Prog S A := fun _ => Fault why.

(** The value of an optional result, the absence of which C leaves undefined. *)
Definition the {A} (why : string) (o : option A) : Prog S A :=
  match o with Some a => mret a | None => fault why end.

(** The rest of the machine runs once. *)
Definition env_step : Prog S unit := fun w =>
  match env w with
  | [] => Blocked w
  | f :: e => Ok tt (mkWorld (f (ks w)) e)
  end.

(** Busy-wait until a condition on the state holds; the rest of the machine
    runs between two tests. *)
Fixpoint poll_env (cond : S -> bool) (e : list (S -> S)) (s : S) : result S unit :=
  if cond s then Ok tt (mkWorld s e)
  else match e with
       | [] => Blocked (mkWorld s [])
       | f :: e => poll_env cond e (f s)
       end.
Definition poll (cond : S -> bool) : Prog S unit := fun w => poll_env cond (env w) (ks w).

(** [for(;;);] *)
Definition hang {A} : Prog S A := fun w => Blocked w.

Definition when (b : bool) (m : Prog S unit) : Prog S unit := if b then m else mret tt.

(** [for(x in l) body] *)
Fixpoint for_each {B} (l : list B) (body : B -> Prog S unit) : Prog S unit :=
  match l with
  | [] => mret tt
  | x :: l => body x;; for_each l body
  end.

(** [for(x in l) body], where the body may leave the loop with a value. *)
Fixpoint for_find {A B} (l : list B) (body : B -> Prog S (option A)) : Prog S (option A) :=
  match l with
  | [] => mret None
  | x :: l => r ← body x; match r with Some a => mret (Some a) | None => for_find l body end
  end.

(** [for(x in l) acc = body(acc)] *)
Fixpoint for_fold {A B} (l : list B) (body : A -> B -> Prog S A) (acc : A) : Prog S A :=
  match l with
  | [] => mret acc
  | x :: l => acc' ← body acc x; for_fold l body acc'
  end.

(** [for(;;) body], bounded by [n] iterations; the body leaves with a value. *)
Fixpoint loop {A} (n : nat) (body : Prog S (option A)) : Prog S A :=
  match n with
  | O => fault "loop bound"
  | Datatypes.S n => r ← body; match r with Some a => mret a | None => loop n body end
  end.

(** A loop each iteration of which waits for the environment at least once
    before it repeats: the bound is never the reason it stops. *)
Definition wait_loop {A} (body : Prog S (option A)) : Prog S A :=
  fun w => loop (Datatypes.S (length (env w))) body w.

(** ** Total correctness *)

Definition wp {A} (m : Prog S A) (Q : A -> world S -> Prop) (w : world S) : Prop :=
  match m w with Ok a w' => Q a w' | _ => False end.

Lemma wp_bind {A B} (m : Prog S A) (k : A -> Prog S B) Q w :
  wp (m ≫= k) Q w <-> wp m (fun a w' => wp (k a) Q w') w.
Proof. unfold wp, mbind, Prog_bind. by destruct (m w). Qed.

Lemma wp_mono {A} (m : Prog S A) (Q Q' : A -> world S -> Prop) w :
  wp m Q w -> (forall a w', Q a w' -> Q' a w') -> wp m Q' w.
Proof. unfold wp. destruct (m w); auto. Qed.

Lemma wp_Ok {A} (m : Prog S A) Q w :
  wp m Q w <-> exists a w', m w = Ok a w' /\ Q a w'.
Proof.
  unfold wp. destruct (m w) as [a w'| | |]; split; try (intros (?&?&?&?); congruence); try done.
  intros H. by exists a, w'.
Qed.

Lemma bind_Ok {A B} (m : Prog S A) (k : A -> Prog S B) w a w' :
  m w = Ok a w' -> (m ≫= k) w = k a w'.
Proof. intros H. unfold mbind, Prog_bind. by rewrite H. Qed.

Lemma bind_Ok_inv {A B} (m : Prog S A) (k : A -> Prog S B) w b w' :
  (m ≫= k) w = Ok b w' -> exists a w1, m w = Ok a w1 /\ k a w1 = Ok b w'.
Proof. unfold mbind, Prog_bind. destruct (m w) as [a w1| | |]; try done. intros H. by exists a, w1. Qed.

Lemma bind_ext {A B} (m : Prog S A) (k k' : A -> Prog S B) w :
  (forall a w', m w = Ok a w' -> k a w' = k' a w') -> (m ≫= k) w = (m ≫= k') w.
Proof. unfold mbind, Prog_bind. destruct (m w); auto. Qed.

Lemma poll_true cond s e : cond s = true -> poll cond (mkWorld s e) = Ok tt (mkWorld s e).
Proof. intros H. unfold poll. destruct e; cbn [ks env poll_env]; by rewrite H. Qed.

(** The three monad laws. *)
Lemma bind_ret_l {A B} (a : A) (k : A -> Prog S B) w : (mret a ≫= k) w = k a w.
Proof. done. Qed.

Lemma bind_ret_r {A} (m : Prog S A) w : (m ≫= mret) w = m w.
Proof. unfold mbind, Prog_bind. by destruct (m w). Qed.

Lemma bind_assoc {A B C} (m : Prog S A) (k : A -> Prog S B) (h : B -> Prog S C) w :
  ((m ≫= k) ≫= h) w = (m ≫= (fun a => k a ≫= h)) w.
Proof. unfold mbind, Prog_bind. by destruct (m w). Qed.

Lemma for_find_app {A B} (l1 l2 : list B) (body : B -> Prog S (option A)) w :
  for_find (l1 ++ l2) body w =
  (for_find l1 body ≫= fun r => match r with
                                | Some a => mret (Some a)
                                | None => for_find l2 body
                                end) w.
Proof.
  revert w; induction l1 as [|x l1 IH]; intros w; simpl; [done|].
  unfold mbind, Prog_bind. by destruct (body x w) as [[a|] w'| | |].
Qed.

(** ** Rely-guarantee *)

Definition rely (R : S -> S -> Prop) (w : world S) : Prop :=
  Forall (fun f => forall s, R s (f s)) (env w).

Lemma rely_suffix R w w' : rely R w -> env w' `suffix_of` env w -> rely R w'.
Proof. unfold rely. intros H [e E]. rewrite E in H. by apply Forall_app in H as [_ ?]. Qed.

(** [m] respects [R] if the environment does, and only consumes steps of the
    environment. *)
Definition guar (R : S -> S -> Prop) {A} (m : Prog S A) : Prop :=
  forall w, rely R w ->
  match m w with
  | Ok _ w' => R (ks w) (ks w') /\ env w' `suffix_of` env w
  | Blocked w' => R (ks w) (ks w')
  | _ => True
  end.

Section rules.
Context (R : S -> S -> Prop) `{!PreOrder R}.

Lemma guar_ret {A} (a : A) : guar R (mret a).
Proof. intros w Hw. simpl. split; [reflexivity|done]. Qed.

Lemma guar_bind {A B} (m : Prog S A) (k : A -> Prog S B) :
  guar R m -> (forall a, guar R (k a)) -> guar R (m ≫= k).
Proof.
  intros Hm Hk w Hw. specialize (Hm w Hw). unfold mbind, Prog_bind.
  destruct (m w) as [a w'| |w'|]; try done. destruct Hm as [H1 He].
  specialize (Hk a w' (rely_suffix R w w' Hw He)). destruct (k a w') as [b w2| |w2|]; try done.
  - destruct Hk as [H2 ?]. split; by etrans.
  - by etrans.
Qed.

Lemma guar_gets {A} (f : S -> A) : guar R (gets f).
Proof. intros w Hw. split; [reflexivity|done]. Qed.

Lemma guar_modify (f : S -> S) : (forall s, R s (f s)) -> guar R (modify f).
Proof. intros Hf w Hw. split; [apply Hf|done]. Qed.

Lemma guar_panic {A} msg : guar R (panic (A := A) msg).
Proof. intros w Hw. done. Qed.

Lemma guar_fault {A} why : guar R (fault (A := A) why).
Proof. intros w Hw. done. Qed.

Lemma guar_the {A} why (o : option A) : guar R (the why o).
Proof. destruct o; [apply guar_ret|apply guar_fault]. Qed.

Lemma guar_env_step : guar R env_step.
Proof.
  intros w Hw. unfold env_step. unfold rely in *.
  destruct (env w) as [|f e] eqn:E; [reflexivity|].
  inversion Hw; subst. cbn [ks env]. split; [done|]. by apply suffix_cons_r.
Qed.

Lemma guar_poll cond : guar R (poll cond).
Proof.
  intros [s e] Hw. unfold poll, rely in *. cbn [ks env] in *. revert s.
  induction e as [|f e IH]; intros s; cbn [poll_env].
  - destruct (cond s); simpl; [split|]; reflexivity.
  - inversion Hw as [|? ? Hf He]; subst.
    destruct (cond s); [split; reflexivity|].
    specialize (IH He (f s)). destruct (poll_env cond e (f s)) as [u w'| |w'|]; try done.
    + destruct IH as [? ?]. split; [etrans; [apply Hf|done]|by apply suffix_cons_r].
    + etrans; [apply Hf|done].
Qed.

Lemma guar_hang {A} : guar R (hang (A := A)).
Proof. intros w Hw. simpl. reflexivity. Qed.

Lemma guar_when b m : guar R m -> guar R (when b m).
Proof. intros H. destruct b; [done|apply guar_ret]. Qed.

Lemma guar_for_each {B} (l : list B) body :
  (forall x, guar R (body x)) -> guar R (for_each l body).
Proof.
  intros H. induction l as [|x l IH]; simpl; [apply guar_ret|].
  apply guar_bind; auto.
Qed.

Lemma guar_for_find {A B} (l : list B) (body : B -> Prog S (option A)) :
  (forall x, guar R (body x)) -> guar R (for_find l body).
Proof.
  intros H. induction l as [|x l IH]; simpl; [apply guar_ret|].
  apply guar_bind; [auto|]. intros [a|]; [apply guar_ret|done].
Qed.

Lemma guar_for_fold {A B} (l : list B) (body : A -> B -> Prog S A) acc :
  (forall a x, guar R (body a x)) -> guar R (for_fold l body acc).
Proof.
  intros H. revert acc. induction l as [|x l IH]; intros acc; simpl; [apply guar_ret|].
  apply guar_bind; auto.
Qed.

Lemma guar_loop {A} n (body : Prog S (option A)) : guar R body -> guar R (loop n body).
Proof.
  intros H. induction n as [|n IH]; simpl; [apply guar_fault|].
  apply guar_bind; [done|]. intros [a|]; [apply guar_ret|done].
Qed.

Lemma guar_wait_loop {A} (body : Prog S (option A)) :
  guar R body -> guar R (wait_loop body).
Proof. intros H w Hw. exact (guar_loop _ body H w Hw). Qed.
End rules.

(** A loop with no environment to wait for and a body that returns is one
    iteration. *)
Lemma wait_loop_once {A} (body : Prog S (option A)) w a w' :
  body w = Ok (Some a) w' -> wait_loop body w = Ok a w'.
Proof. intros H. unfold wait_loop. simpl. by rewrite (bind_Ok _ _ _ _ _ H). Qed.

(** If an iteration that repeats has consumed at least one step of the
    environment, the bound of [wait_loop] is never reached. *)
Lemma loop_bound_enough {A} (body : Prog S (option A)) n w :
  (forall w1 w2, body w1 = Ok None w2 -> (length (env w2) < length (env w1))%nat) ->
  (forall w1 why, body w1 = Fault why -> why ≠ "loop bound"%string) ->
  (length (env w) < n)%nat -> loop n body w ≠ Fault "loop bound".
Proof.
  intros Hdec Hf. revert w. induction n as [|n IH]; intros w Hn; [lia|]. simpl.
  unfold mbind, Prog_bind. destruct (body w) as [[a|] w'| | |] eqn:E; try done.
  - apply IH. apply Hdec in E. lia.
  - intros [= ->]. by eapply Hf.
Qed.
End prog.

(** The environment respects the equality of a projection of the state. *)
Definition same {S T} (proj : S -> T) (s s' : S) : Prop := proj s' = proj s.

#[export] Instance same_preorder {S T} (proj : S -> T) : PreOrder (same proj).
Proof. split; [done|]. intros s1 s2 s3 H1 H2. unfold same in *. congruence. Qed.

(** The step from [s] to [s'] keeps the invariant [I]. *)
Definition keeps {S} (I : S -> Prop) (s s' : S) : Prop := I s -> I s'.

#[export] Instance keeps_preorder {S} (I : S -> Prop) : PreOrder (keeps I).
Proof. split; [by intros s H|]. intros s1 s2 s3 H1 H2 H. by apply H2, H1. Qed.

Create HintDb guar.
#[export] Hint Resolve guar_ret guar_gets guar_panic guar_fault guar_the guar_env_step guar_poll guar_hang : guar.

(** Walk through the text of a program, proving [guar] for each command with
    the [guar] hints and leaving what they do not solve. *)
Ltac guar_step :=
  match goal with
  | |- forall _, _ => intro
  | |- guar _ (mbind _ _) => apply guar_bind; [typeclasses eauto| |]
  | |- guar _ (when _ _) => apply guar_when; [typeclasses eauto|]
  | |- guar _ (for_each _ _) => apply guar_for_each; [typeclasses eauto|]
  | |- guar _ (for_find _ _) => apply guar_for_find; [typeclasses eauto|]
  | |- guar _ (for_fold _ _ _) => apply guar_for_fold; [typeclasses eauto|]
  | |- guar _ (loop _ _) => apply guar_loop; [typeclasses eauto|]
  | |- guar _ (wait_loop _) => apply guar_wait_loop; [typeclasses eauto|]
  | |- guar _ (if ?b then _ else _) => destruct b
  | |- guar _ (match ?x with _ => _ end) => destruct x
  | |- guar _ _ => solve [eauto with guar typeclass_instances]
  end.
Ltac guar_auto := repeat guar_step.

(** ** Evaluating programs

    [run] evaluates the commands a program starts with that need nothing of the
    state; [step H] evaluates the first command with the equation [H] gives. *)

Section eval.
Context {S : Type}.
Implicit Types (w : world S).

Lemma bind_gets {A B} (f : S -> A) (k : A -> Prog S B) w : (gets f ≫= k) w = k (f (ks w)) w.
Proof. done. Qed.

Lemma bind_modify {B} (f : S -> S) (k : unit -> Prog S B) w :
  (modify f ≫= k) w = k tt (mkWorld (f (ks w)) (env w)).
Proof. by destruct w. Qed.

Lemma bind_panic {A B} msg (k : A -> Prog S B) w : (panic msg ≫= k) w = Panic msg.
Proof. done. Qed.

Lemma bind_fault {A B} why (k : A -> Prog S B) w : (fault why ≫= k) w = Fault why.
Proof. done. Qed.

Lemma bind_the {A B} why (a : A) (k : A -> Prog S B) w : (the why (Some a) ≫= k) w = k a w.
Proof. done. Qed.

Lemma when_true (m : Prog S unit) : when true m = m.
Proof. done. Qed.

Lemma when_false (m : Prog S unit) : when false m = mret tt.
Proof. done. Qed.

Lemma bind_if {A B} (b : bool) (m1 m2 : Prog S A) (k : A -> Prog S B) w :
  ((if b then m1 else m2) ≫= k) w = if b then (m1 ≫= k) w else (m2 ≫= k) w.
Proof. by destruct b. Qed.

Lemma run_ret {A} (a : A) w : (mret a : Prog S A) w = Ok a w.
Proof. done. Qed.

Lemma run_gets {A} (f : S -> A) w : gets f w = Ok (f (ks w)) w.
Proof. done. Qed.

Lemma run_modify (f : S -> S) w : modify f w = Ok tt (mkWorld (f (ks w)) (env w)).
Proof. by destruct w. Qed.

Lemma run_panic {A} msg w : panic (A := A) msg w = Panic msg.
Proof. done. Qed.

Lemma run_fault {A} why w : fault (A := A) why w = Fault why.
Proof. done. Qed.
End eval.

Create Rewrite HintDb run.
#[export] Hint Rewrite @bind_ret_l @bind_assoc @bind_gets @bind_modify @bind_panic @bind_fault @bind_the
  @when_true @when_false @run_ret @run_gets @run_modify @run_panic @run_fault : run.

Ltac run := autorewrite with run; cbn [ks env].
Tactic Notation "step" uconstr(H) := erewrite bind_Ok by (eapply H; eauto with xv6); cbn [ks env].
