(* ===== verification/State.v ===== *)
(** * The data of the kernel

    The C structures of the kernel's headers (proc.h, spinlock.h, sleeplock.h,
    file.h, buf.h, fs.h, param.h, memlayout.h) and its global variables, as one
    record [kstate].  A pointer into one of the kernel's static tables is the
    index of its entry ([None] is the null pointer), a pointer to a page of
    physical memory is its address ([0] is the null pointer).  Every field has
    a setter [set_<field>]. *)

From S2P Require Import Prelude Prog.

(** ** param.h *)

Definition NPROC : nat := 64.
Definition NCPU : nat := 8.
Definition NFILE : nat := 100.
Definition NINODE : nat := 50.
Definition NDEV : Z := 10.
Definition MAXARG : nat := 32.
Definition NBUF : nat := 30.
Definition MAXPATH : Z := 128.
Definition USERSTACK : Z := 1.

(** ** riscv.h: pages and page-table entries *)

Definition PGSIZE : Z := 4096.
Definition PGSHIFT : Z := 12.
Definition PGROUNDUP (sz : Z) : Z := Z.land (u64 (sz + PGSIZE - 1)) (u64 (Z.lnot (PGSIZE - 1))).
Definition PGROUNDDOWN (a : Z) : Z := Z.land a (u64 (Z.lnot (PGSIZE - 1))).

Definition PTE_V : Z := 1.
Definition PTE_R : Z := 2.
Definition PTE_W : Z := 4.
Definition PTE_X : Z := 8.
Definition PTE_U : Z := 16.
Definition PA2PTE (pa : Z) : Z := u64 (Z.shiftl (Z.shiftr pa 12) 10).
Definition PTE2PA (pte : Z) : Z := u64 (Z.shiftl (Z.shiftr pte 10) 12).
Definition PTE_FLAGS (pte : Z) : Z := Z.land pte 0x3FF.
Definition PXMASK : Z := 0x1FF.
Definition PXSHIFT (level : Z) : Z := PGSHIFT + 9 * level.
Definition PX (level va : Z) : Z := Z.land (Z.shiftr va (PXSHIFT level)) PXMASK.
Definition MAXVA : Z := Z.shiftl 1 (9 + 9 + 9 + 12 - 1).

Definition SSTATUS_SPP : Z := Z.shiftl 1 8.
Definition SSTATUS_SPIE : Z := Z.shiftl 1 5.
Definition SSTATUS_SIE : Z := Z.shiftl 1 1.
Definition SATP_SV39 : Z := Z.shiftl 8 60.
Definition MAKE_SATP (pagetable : Z) : Z := Z.lor SATP_SV39 (Z.shiftr pagetable 12).

(** ** memlayout.h *)

Definition UART0 : Z := 0x10000000.
Definition UART0_IRQ : Z := 10.
Definition VIRTIO0 : Z := 0x10001000.
Definition VIRTIO0_IRQ : Z := 1.
Definition PLIC : Z := 0x0c000000.
Definition KERNBASE : Z := 0x80000000.
Definition PHYSTOP : Z := KERNBASE + 128 * 1024 * 1024.
Definition TRAMPOLINE : Z := MAXVA - PGSIZE.
Definition KSTACK (p : Z) : Z := TRAMPOLINE - (p + 1) * 2 * PGSIZE.
Definition TRAPFRAME : Z := TRAMPOLINE - PGSIZE.

(** ** Addresses the linker assigns (kernel.ld, the assembly files) *)

Class LinkSyms := {
  sym_end : Z;          (* end: first address after the kernel *)
  sym_etext : Z;        (* etext: end of the kernel's code *)
  sym_trampoline : Z;   (* trampoline, uservec, userret: trampoline.S *)
  sym_uservec : Z;
  sym_userret : Z;
  sym_kernelvec : Z;    (* kernelvec: kernelvec.S *)
  sym_forkret : Z;      (* address of forkret() *)
  sym_usertrap : Z;     (* address of usertrap() *)
  sym_main : Z          (* address of main() *)
}.

(** The kernel image lies in RAM, below the pages the allocator hands out. *)
Class LinkSymsOk (L : LinkSyms) : Prop := {
  end_in_ram : KERNBASE <= sym_end < PHYSTOP;
  trampoline_in_ram : KERNBASE <= sym_trampoline < sym_end;
  trampoline_aligned : sym_trampoline `mod` PGSIZE = 0
}.

(** The values in the kernel.sym of the repository. *)
Definition kernel_syms : LinkSyms :=
  {| sym_end := 0x80023ac0; sym_etext := 0x80007000; sym_trampoline := 0x80006000;
     sym_uservec := 0x80006000; sym_userret := 0x8000609c; sym_kernelvec := 0x80005550;
     sym_forkret := 0x80001baa; sym_usertrap := 0x8000287e;
     sym_main := 0x80000e62 |}.

Lemma kernel_syms_ok : LinkSymsOk kernel_syms.
Proof. by split. Qed.

(** ** Spinlocks (spinlock.h), named by the object they protect *)

Inductive lockid :=
| LProc (i : nat)       (* proc[i].lock *)
| LPid                  (* pid_lock *)
| LWait                 (* wait_lock *)
| LKmem                 (* kmem.lock *)
| LTicks                (* tickslock *)
| LCons                 (* cons.lock *)
| LUartTx               (* uart_tx_lock *)
| LPr                   (* pr.lock *)
| LBcache               (* bcache.lock *)
| LBuf (i : nat)        (* the spinlock inside buf i's sleeplock *)
| LItable               (* itable.lock *)
| LInode (i : nat)      (* the spinlock inside inode i's sleeplock *)
| LFtable               (* ftable.lock *)
| LLog                  (* log.lock *)
| LPipe (pi : Z)        (* pi->lock *)
| LVdisk.               (* disk.vdisk_lock *)

#[export] Instance lockid_eq_dec : EqDecision lockid.
Proof. solve_decision. Defined.

Definition lockid_code (l : lockid) : nat * Z :=
  match l with
  | LProc i => (0%nat, Z.of_nat i) | LPid => (1%nat, 0) | LWait => (2%nat, 0)
  | LKmem => (3%nat, 0) | LTicks => (4%nat, 0) | LCons => (5%nat, 0)
  | LUartTx => (6%nat, 0) | LPr => (7%nat, 0) | LBcache => (8%nat, 0)
  | LBuf i => (9%nat, Z.of_nat i) | LItable => (10%nat, 0)
  | LInode i => (11%nat, Z.of_nat i) | LFtable => (12%nat, 0) | LLog => (13%nat, 0)
  | LPipe pi => (14%nat, pi) | LVdisk => (15%nat, 0)
  end.

Definition lockid_decode (c : nat * Z) : lockid :=
  match c.1 with
  | 0%nat => LProc (Z.to_nat c.2) | 1%nat => LPid | 2%nat => LWait | 3%nat => LKmem
  | 4%nat => LTicks | 5%nat => LCons | 6%nat => LUartTx | 7%nat => LPr | 8%nat => LBcache
  | 9%nat => LBuf (Z.to_nat c.2) | 10%nat => LItable | 11%nat => LInode (Z.to_nat c.2)
  | 12%nat => LFtable | 13%nat => LLog | 14%nat => LPipe c.2 | _ => LVdisk
  end.

#[export] Instance lockid_countable : Countable lockid.
Proof.
  refine (inj_countable' lockid_code lockid_decode _).
  by intros []; cbv [lockid_decode lockid_code fst snd]; rewrite ?Nat2Z.id.
Defined.

Record spinlock := {
  lk_locked : Z;
  lk_name : string;
  lk_cpu : option nat
}.

Definition set_lk_locked (v : Z) (r : spinlock) : spinlock := {| r with lk_locked := v |}.
Definition set_lk_name (v : string) (r : spinlock) : spinlock := {| r with lk_name := v |}.
Definition set_lk_cpu (v : option nat) (r : spinlock) : spinlock := {| r with lk_cpu := v |}.

(** A lock in static storage before [initlock]. *)
Definition lock0 : spinlock := {| lk_locked := 0; lk_name := ""; lk_cpu := None |}.

(** ** Sleep channels: the addresses the kernel sleeps on *)

Inductive channel :=
| CNull
| CProc (i : nat)       (* a process, in wait() *)
| CTicks                (* &ticks *)
| CConsR                (* &cons.r *)
| CUartTxR              (* &uart_tx_r *)
| CBufLock (i : nat)    (* buf i's sleeplock *)
| CInodeLock (i : nat)  (* inode i's sleeplock *)
| CLog                  (* &log *)
| CPipeRead (pi : Z)    (* &pi->nread *)
| CPipeWrite (pi : Z)   (* &pi->nwrite *)
| CBuf (i : nat)        (* a buf, in virtio_disk_rw() *)
| CDiskFree.            (* &disk.free[0] *)

#[export] Instance channel_eq_dec : EqDecision channel.
Proof. solve_decision. Defined.

(** ** proc.h *)

Record context := {
  ctx_ra : Z;
  ctx_sp : Z;
  ctx_s : list Z    (* s0 .. s11 *)
}.

Definition set_ctx_ra (v : Z) (r : context) : context := {| r with ctx_ra := v |}.
Definition set_ctx_sp (v : Z) (r : context) : context := {| r with ctx_sp := v |}.
Definition set_ctx_s (v : list Z) (r : context) : context := {| r with ctx_s := v |}.

Definition context0 : context := {| ctx_ra := 0; ctx_sp := 0; ctx_s := replicate 12 0 |}.

Record cpu := {
  c_proc : option nat;
  c_context : context;
  c_noff : Z;
  c_intena : Z
}.

Definition set_c_proc (v : option nat) (r : cpu) : cpu := {| r with c_proc := v |}.
Definition set_c_context (v : context) (r : cpu) : cpu := {| r with c_context := v |}.
Definition set_c_noff (v : Z) (r : cpu) : cpu := {| r with c_noff := v |}.
Definition set_c_intena (v : Z) (r : cpu) : cpu := {| r with c_intena := v |}.

Definition cpu0 : cpu :=
  {| c_proc := None; c_context := context0; c_noff := 0; c_intena := 0 |}.

(** The supervisor registers of a hart that the kernel reads and writes. *)
Record csrs := {
  r_sstatus : Z;
  r_stvec : Z;
  r_sepc : Z;
  r_scause : Z;
  r_stval : Z;
  r_satp : Z;
  r_stimecmp : Z;
  r_time : Z;
  r_sie : Z;
  r_mstatus : Z;
  r_mepc : Z;
  r_medeleg : Z;
  r_mideleg : Z;
  r_mie : Z;
  r_menvcfg : Z;
  r_mcounteren : Z;
  r_pmpaddr0 : Z;
  r_pmpcfg0 : Z;
  r_mhartid : Z
}.

Definition set_r_sstatus (v : Z) (r : csrs) : csrs := {| r with r_sstatus := v |}.
Definition set_r_stvec (v : Z) (r : csrs) : csrs := {| r with r_stvec := v |}.
Definition set_r_sepc (v : Z) (r : csrs) : csrs := {| r with r_sepc := v |}.
Definition set_r_scause (v : Z) (r : csrs) : csrs := {| r with r_scause := v |}.
Definition set_r_stval (v : Z) (r : csrs) : csrs := {| r with r_stval := v |}.
Definition set_r_satp (v : Z) (r : csrs) : csrs := {| r with r_satp := v |}.
Definition set_r_stimecmp (v : Z) (r : csrs) : csrs := {| r with r_stimecmp := v |}.
Definition set_r_time (v : Z) (r : csrs) : csrs := {| r with r_time := v |}.
Definition set_r_sie (v : Z) (r : csrs) : csrs := {| r with r_sie := v |}.
Definition set_r_mstatus (v : Z) (r : csrs) : csrs := {| r with r_mstatus := v |}.
Definition set_r_mepc (v : Z) (r : csrs) : csrs := {| r with r_mepc := v |}.
Definition set_r_medeleg (v : Z) (r : csrs) : csrs := {| r with r_medeleg := v |}.
Definition set_r_mideleg (v : Z) (r : csrs) : csrs := {| r with r_mideleg := v |}.
Definition set_r_mie (v : Z) (r : csrs) : csrs := {| r with r_mie := v |}.
Definition set_r_menvcfg (v : Z) (r : csrs) : csrs := {| r with r_menvcfg := v |}.
Definition set_r_mcounteren (v : Z) (r : csrs) : csrs := {| r with r_mcounteren := v |}.
Definition set_r_pmpaddr0 (v : Z) (r : csrs) : csrs := {| r with r_pmpaddr0 := v |}.
Definition set_r_pmpcfg0 (v : Z) (r : csrs) : csrs := {| r with r_pmpcfg0 := v |}.
Definition set_r_mhartid (v : Z) (r : csrs) : csrs := {| r with r_mhartid := v |}.

Definition csrs0 : csrs :=
  {| r_sstatus := 0; r_stvec := 0; r_sepc := 0; r_scause := 0; r_stval := 0; r_satp := 0;
     r_stimecmp := 0; r_time := 0; r_sie := 0; r_mstatus := 0; r_mepc := 0; r_medeleg := 0;
     r_mideleg := 0; r_mie := 0; r_menvcfg := 0; r_mcounteren := 0; r_pmpaddr0 := 0; r_pmpcfg0 := 0;
     r_mhartid := 0 |}.

Inductive procstate := UNUSED | USED | SLEEPING | RUNNABLE | RUNNING | ZOMBIE.

#[export] Instance procstate_eq_dec : EqDecision procstate.
Proof. solve_decision. Defined.

Record proc := {
  p_state : procstate;
  p_chan : channel;
  p_killed : Z;
  p_xstate : Z;
  p_pid : Z;
  p_classe : Z;
  p_prioridade : Z;
  p_stride : Z;
  p_pass : Z;
  p_tickets : Z;
  p_parent : option nat;
  p_kstack : Z;
  p_sz : Z;
  p_pagetable : Z;
  p_trapframe : Z;
  p_context : context;
  p_ofile : list (option nat);
  p_cwd : option nat;
  p_name : list Z
}.

Definition set_p_state (v : procstate) (r : proc) : proc := {| r with p_state := v |}.
Definition set_p_chan (v : channel) (r : proc) : proc := {| r with p_chan := v |}.
Definition set_p_killed (v : Z) (r : proc) : proc := {| r with p_killed := v |}.
Definition set_p_xstate (v : Z) (r : proc) : proc := {| r with p_xstate := v |}.
Definition set_p_pid (v : Z) (r : proc) : proc := {| r with p_pid := v |}.
Definition set_p_classe (v : Z) (r : proc) : proc := {| r with p_classe := v |}.
Definition set_p_prioridade (v : Z) (r : proc) : proc := {| r with p_prioridade := v |}.
Definition set_p_stride (v : Z) (r : proc) : proc := {| r with p_stride := v |}.
Definition set_p_pass (v : Z) (r : proc) : proc := {| r with p_pass := v |}.
Definition set_p_tickets (v : Z) (r : proc) : proc := {| r with p_tickets := v |}.
Definition set_p_parent (v : option nat) (r : proc) : proc := {| r with p_parent := v |}.
Definition set_p_kstack (v : Z) (r : proc) : proc := {| r with p_kstack := v |}.
Definition set_p_sz (v : Z) (r : proc) : proc := {| r with p_sz := v |}.
Definition set_p_pagetable (v : Z) (r : proc) : proc := {| r with p_pagetable := v |}.
Definition set_p_trapframe (v : Z) (r : proc) : proc := {| r with p_trapframe := v |}.
Definition set_p_context (v : context) (r : proc) : proc := {| r with p_context := v |}.
Definition set_p_ofile (v : list (option nat)) (r : proc) : proc := {| r with p_ofile := v |}.
Definition set_p_cwd (v : option nat) (r : proc) : proc := {| r with p_cwd := v |}.
Definition set_p_name (v : list Z) (r : proc) : proc := {| r with p_name := v |}.

(** An entry of the process table in static storage. *)
Definition proc0 : proc :=
  {| p_state := UNUSED; p_chan := CNull; p_killed := 0; p_xstate := 0; p_pid := 0;
     p_classe := 0; p_prioridade := 0; p_stride := 0; p_pass := 0; p_tickets := 0;
     p_parent := None; p_kstack := 0; p_sz := 0; p_pagetable := 0; p_trapframe := 0;
     p_context := context0; p_ofile := replicate NOFILE None; p_cwd := None;
     p_name := replicate 16 0 |}.

(** ** sleeplock.h *)

Record sleeplock := {
  sl_locked : Z;
  sl_name : string;
  sl_pid : Z
}.

Definition set_sl_locked (v : Z) (r : sleeplock) : sleeplock := {| r with sl_locked := v |}.
Definition set_sl_name (v : string) (r : sleeplock) : sleeplock := {| r with sl_name := v |}.
Definition set_sl_pid (v : Z) (r : sleeplock) : sleeplock := {| r with sl_pid := v |}.

Definition sleeplock0 : sleeplock := {| sl_locked := 0; sl_name := ""; sl_pid := 0 |}.

(** ** fs.h, buf.h, file.h *)

Record superblock := {
  sb_magic : Z;
  sb_size : Z;
  sb_nblocks : Z;
  sb_ninodes : Z;
  sb_nlog : Z;
  sb_logstart : Z;
  sb_inodestart : Z;
  sb_bmapstart : Z
}.

Definition set_sb_magic (v : Z) (r : superblock) : superblock := {| r with sb_magic := v |}.
Definition set_sb_size (v : Z) (r : superblock) : superblock := {| r with sb_size := v |}.
Definition set_sb_nblocks (v : Z) (r : superblock) : superblock := {| r with sb_nblocks := v |}.
Definition set_sb_ninodes (v : Z) (r : superblock) : superblock := {| r with sb_ninodes := v |}.
Definition set_sb_nlog (v : Z) (r : superblock) : superblock := {| r with sb_nlog := v |}.
Definition set_sb_logstart (v : Z) (r : superblock) : superblock := {| r with sb_logstart := v |}.
Definition set_sb_inodestart (v : Z) (r : superblock) : superblock := {| r with sb_inodestart := v |}.
Definition set_sb_bmapstart (v : Z) (r : superblock) : superblock := {| r with sb_bmapstart := v |}.

Definition superblock0 : superblock :=
  {| sb_magic := 0; sb_size := 0; sb_nblocks := 0; sb_ninodes := 0; sb_nlog := 0;
     sb_logstart := 0; sb_inodestart := 0; sb_bmapstart := 0 |}.

Record buf := {
  b_valid : Z;
  b_disk : Z;
  b_dev : Z;
  b_blockno : Z;
  b_lock : sleeplock;
  b_refcnt : Z;
  b_prev : nat;
  b_next : nat;
  b_data : list Z
}.

Definition set_b_valid (v : Z) (r : buf) : buf := {| r with b_valid := v |}.
Definition set_b_disk (v : Z) (r : buf) : buf := {| r with b_disk := v |}.
Definition set_b_dev (v : Z) (r : buf) : buf := {| r with b_dev := v |}.
Definition set_b_blockno (v : Z) (r : buf) : buf := {| r with b_blockno := v |}.
Definition set_b_lock (v : sleeplock) (r : buf) : buf := {| r with b_lock := v |}.
Definition set_b_refcnt (v : Z) (r : buf) : buf := {| r with b_refcnt := v |}.
Definition set_b_prev (v : nat) (r : buf) : buf := {| r with b_prev := v |}.
Definition set_b_next (v : nat) (r : buf) : buf := {| r with b_next := v |}.
Definition set_b_data (v : list Z) (r : buf) : buf := {| r with b_data := v |}.

Definition buf0 : buf :=
  {| b_valid := 0; b_disk := 0; b_dev := 0; b_blockno := 0; b_lock := sleeplock0;
     b_refcnt := 0; b_prev := 0; b_next := 0; b_data := replicate (Z.to_nat BSIZE) 0 |}.

Inductive filetype := FD_NONE | FD_PIPE | FD_INODE | FD_DEVICE.

#[export] Instance filetype_eq_dec : EqDecision filetype.
Proof. solve_decision. Defined.

Record file := {
  f_type : filetype;
  f_ref : Z;
  f_readable : Z;
  f_writable : Z;
  f_pipe : Z;
  f_ip : option nat;
  f_off : Z;
  f_major : Z
}.

Definition set_f_type (v : filetype) (r : file) : file := {| r with f_type := v |}.
Definition set_f_ref (v : Z) (r : file) : file := {| r with f_ref := v |}.
Definition set_f_readable (v : Z) (r : file) : file := {| r with f_readable := v |}.
Definition set_f_writable (v : Z) (r : file) : file := {| r with f_writable := v |}.
Definition set_f_pipe (v : Z) (r : file) : file := {| r with f_pipe := v |}.
Definition set_f_ip (v : option nat) (r : file) : file := {| r with f_ip := v |}.
Definition set_f_off (v : Z) (r : file) : file := {| r with f_off := v |}.
Definition set_f_major (v : Z) (r : file) : file := {| r with f_major := v |}.

Definition file0 : file :=
  {| f_type := FD_NONE; f_ref := 0; f_readable := 0; f_writable := 0; f_pipe := 0;
     f_ip := None; f_off := 0; f_major := 0 |}.

Record inode := {
  i_dev : Z;
  i_inum : Z;
  i_ref : Z;
  i_lock : sleeplock;
  i_valid : Z;
  i_type : Z;
  i_major : Z;
  i_minor : Z;
  i_nlink : Z;
  i_size : Z;
  i_addrs : list Z
}.

Definition set_i_dev (v : Z) (r : inode) : inode := {| r with i_dev := v |}.
Definition set_i_inum (v : Z) (r : inode) : inode := {| r with i_inum := v |}.
Definition set_i_ref (v : Z) (r : inode) : inode := {| r with i_ref := v |}.
Definition set_i_lock (v : sleeplock) (r : inode) : inode := {| r with i_lock := v |}.
Definition set_i_valid (v : Z) (r : inode) : inode := {| r with i_valid := v |}.
Definition set_i_type (v : Z) (r : inode) : inode := {| r with i_type := v |}.
Definition set_i_major (v : Z) (r : inode) : inode := {| r with i_major := v |}.
Definition set_i_minor (v : Z) (r : inode) : inode := {| r with i_minor := v |}.
Definition set_i_nlink (v : Z) (r : inode) : inode := {| r with i_nlink := v |}.
Definition set_i_size (v : Z) (r : inode) : inode := {| r with i_size := v |}.
Definition set_i_addrs (v : list Z) (r : inode) : inode := {| r with i_addrs := v |}.

Definition inode0 : inode :=
  {| i_dev := 0; i_inum := 0; i_ref := 0; i_lock := sleeplock0; i_valid := 0; i_type := 0;
     i_major := 0; i_minor := 0; i_nlink := 0; i_size := 0;
     i_addrs := replicate (Z.to_nat (NDIRECT + 1)) 0 |}.

(** ** pipe.c, log.c, console.c, uart.c *)

Record pipe := {
  pi_data : list Z;
  pi_nread : Z;
  pi_nwrite : Z;
  pi_readopen : Z;
  pi_writeopen : Z
}.

Definition set_pi_data (v : list Z) (r : pipe) : pipe := {| r with pi_data := v |}.
Definition set_pi_nread (v : Z) (r : pipe) : pipe := {| r with pi_nread := v |}.
Definition set_pi_nwrite (v : Z) (r : pipe) : pipe := {| r with pi_nwrite := v |}.
Definition set_pi_readopen (v : Z) (r : pipe) : pipe := {| r with pi_readopen := v |}.
Definition set_pi_writeopen (v : Z) (r : pipe) : pipe := {| r with pi_writeopen := v |}.

Record logstate := {
  log_start : Z;
  log_size : Z;
  log_outstanding : Z;
  log_committing : Z;
  log_dev : Z;
  lh_n : Z;
  lh_block : list Z
}.

Definition set_log_start (v : Z) (r : logstate) : logstate := {| r with log_start := v |}.
Definition set_log_size (v : Z) (r : logstate) : logstate := {| r with log_size := v |}.
Definition set_log_outstanding (v : Z) (r : logstate) : logstate := {| r with log_outstanding := v |}.
Definition set_log_committing (v : Z) (r : logstate) : logstate := {| r with log_committing := v |}.
Definition set_log_dev (v : Z) (r : logstate) : logstate := {| r with log_dev := v |}.
Definition set_lh_n (v : Z) (r : logstate) : logstate := {| r with lh_n := v |}.
Definition set_lh_block (v : list Z) (r : logstate) : logstate := {| r with lh_block := v |}.

Definition log0 : logstate :=
  {| log_start := 0; log_size := 0; log_outstanding := 0; log_committing := 0; log_dev := 0;
     lh_n := 0; lh_block := replicate (Z.to_nat LOGSIZE) 0 |}.

Record console := {
  cons_buf : list Z;
  cons_r : Z;
  cons_w : Z;
  cons_e : Z
}.

Definition set_cons_buf (v : list Z) (r : console) : console := {| r with cons_buf := v |}.
Definition set_cons_r (v : Z) (r : console) : console := {| r with cons_r := v |}.
Definition set_cons_w (v : Z) (r : console) : console := {| r with cons_w := v |}.
Definition set_cons_e (v : Z) (r : console) : console := {| r with cons_e := v |}.

Definition console0 : console :=
  {| cons_buf := replicate 128 0; cons_r := 0; cons_w := 0; cons_e := 0 |}.

(** The transmit buffer of uart.c and the device registers it uses: the value
    the line status register reads, the bytes written to the transmit holding
    register (latest first), the bytes waiting in the receive register, and the
    writes to the control registers (latest first). *)
Record uart := {
  uart_tx_buf : list Z;
  uart_tx_w : Z;
  uart_tx_r : Z;
  uart_lsr : Z;
  uart_out : list Z;
  uart_in : list Z;
  uart_ctl : list (Z * Z)
}.

Definition set_uart_tx_buf (v : list Z) (r : uart) : uart := {| r with uart_tx_buf := v |}.
Definition set_uart_tx_w (v : Z) (r : uart) : uart := {| r with uart_tx_w := v |}.
Definition set_uart_tx_r (v : Z) (r : uart) : uart := {| r with uart_tx_r := v |}.
Definition set_uart_lsr (v : Z) (r : uart) : uart := {| r with uart_lsr := v |}.
Definition set_uart_out (v : list Z) (r : uart) : uart := {| r with uart_out := v |}.
Definition set_uart_in (v : list Z) (r : uart) : uart := {| r with uart_in := v |}.
Definition set_uart_ctl (v : list (Z * Z)) (r : uart) : uart := {| r with uart_ctl := v |}.

Definition uart0 : uart :=
  {| uart_tx_buf := replicate 32 0; uart_tx_w := 0; uart_tx_r := 0; uart_lsr := 32;
     uart_out := []; uart_in := []; uart_ctl := [] |}.

(** ** virtio_disk.c and virtio.h

    The addresses a descriptor can hold are those of the driver's objects. *)

Definition NUM : nat := 8.

Inductive dma_addr :=
| ANull
| AOp (i : nat)         (* &disk.ops[i] *)
| AData (b : nat)       (* b->data *)
| AStatus (i : nat).    (* &disk.info[i].status *)

Record virtq_desc := {
  d_addr : dma_addr;
  d_len : Z;
  d_flags : Z;
  d_next : Z
}.

Definition set_d_addr (v : dma_addr) (r : virtq_desc) : virtq_desc := {| r with d_addr := v |}.
Definition set_d_len (v : Z) (r : virtq_desc) : virtq_desc := {| r with d_len := v |}.
Definition set_d_flags (v : Z) (r : virtq_desc) : virtq_desc := {| r with d_flags := v |}.
Definition set_d_next (v : Z) (r : virtq_desc) : virtq_desc := {| r with d_next := v |}.

Definition desc0 : virtq_desc := {| d_addr := ANull; d_len := 0; d_flags := 0; d_next := 0 |}.

Record virtio_blk_req := {
  op_type : Z;
  op_reserved : Z;
  op_sector : Z
}.

Definition set_op_type (v : Z) (r : virtio_blk_req) : virtio_blk_req := {| r with op_type := v |}.
Definition set_op_reserved (v : Z) (r : virtio_blk_req) : virtio_blk_req := {| r with op_reserved := v |}.
Definition set_op_sector (v : Z) (r : virtio_blk_req) : virtio_blk_req := {| r with op_sector := v |}.

Definition blk_req0 : virtio_blk_req := {| op_type := 0; op_reserved := 0; op_sector := 0 |}.

(** [struct disk] with the three rings it points to. *)
Record vdisk := {
  vd_desc : list virtq_desc;
  vd_avail_idx : Z;
  vd_avail_ring : list Z;
  vd_dev_idx : Z;                  (* used->idx, which the device increments *)
  vd_used_ring : list Z;           (* the ids of used->ring *)
  vd_free : list Z;
  vd_used_idx : Z;
  vd_info_b : list (option nat);
  vd_info_status : list Z;
  vd_ops : list virtio_blk_req;
  vd_pages : Z * Z * Z             (* the pages of desc, avail and used *)
}.

Definition set_vd_desc (v : list virtq_desc) (r : vdisk) : vdisk := {| r with vd_desc := v |}.
Definition set_vd_avail_idx (v : Z) (r : vdisk) : vdisk := {| r with vd_avail_idx := v |}.
Definition set_vd_avail_ring (v : list Z) (r : vdisk) : vdisk := {| r with vd_avail_ring := v |}.
Definition set_vd_dev_idx (v : Z) (r : vdisk) : vdisk := {| r with vd_dev_idx := v |}.
Definition set_vd_used_ring (v : list Z) (r : vdisk) : vdisk := {| r with vd_used_ring := v |}.
Definition set_vd_free (v : list Z) (r : vdisk) : vdisk := {| r with vd_free := v |}.
Definition set_vd_used_idx (v : Z) (r : vdisk) : vdisk := {| r with vd_used_idx := v |}.
Definition set_vd_info_b (v : list (option nat)) (r : vdisk) : vdisk := {| r with vd_info_b := v |}.
Definition set_vd_info_status (v : list Z) (r : vdisk) : vdisk := {| r with vd_info_status := v |}.
Definition set_vd_ops (v : list virtio_blk_req) (r : vdisk) : vdisk := {| r with vd_ops := v |}.
Definition set_vd_pages (v : Z * Z * Z) (r : vdisk) : vdisk := {| r with vd_pages := v |}.

Definition vdisk0 : vdisk :=
  {| vd_desc := replicate NUM desc0; vd_avail_idx := 0; vd_avail_ring := replicate NUM 0; vd_dev_idx := 0;
     vd_used_ring := replicate NUM 0; vd_free := replicate NUM 0; vd_used_idx := 0;
     vd_info_b := replicate NUM None; vd_info_status := replicate NUM 0; vd_ops := replicate NUM blk_req0;
     vd_pages := (0, 0, 0) |}.

(** What an entry of devsw can hold. *)
Inductive device := DevConsole.

(** ** The kernel's variables *)

Record kdata := {
  procs : list proc;               (* proc[NPROC] *)
  initproc : option nat;
  nextpid : Z;
  seed : Z;                        (* proc.c: the state of rand_lottery *)
  last_index : list Z;             (* proc.c: last_index[4] *)
  scheduler_mode : Z;
  forkret_first : Z;               (* forkret's static variable first *)
  mem : gmap Z (list Z);           (* RAM: the bytes of each page, by address *)
  freelist : Z;                    (* kmem.freelist *)
  kernel_pagetable : Z;
  ticks : Z;
  pr_locking : Z;
  panicked : Z;                    (* printf.c *)
  uartS : uart;
  consS : console;
  ftable : list file;              (* ftable.file[NFILE] *)
  itable : list inode;             (* itable.inode[NINODE] *)
  bufs : list buf;                 (* bcache.buf[NBUF], then bcache.head *)
  logS : logstate;
  sb : superblock;
  pipes : gmap Z pipe;             (* the pipes, by the page they live in *)
  devsw : list (option device);    (* file.c: devsw[NDEV] *)
  vdiskS : vdisk;                  (* virtio_disk.c: disk *)
  virtio_regs : gmap Z Z;          (* the registers at VIRTIO0 *)
  plic_regs : gmap Z Z;            (* the registers of the PLIC, by address *)
  started : Z;                     (* main.c *)
  platter : gmap Z (list Z);       (* the blocks of the disk *)
  dwrites : list (Z * list Z)      (* the blocks the disk has written, latest first *)
}.

Definition set_procs (v : list proc) (r : kdata) : kdata := {| r with procs := v |}.
Definition set_initproc (v : option nat) (r : kdata) : kdata := {| r with initproc := v |}.
Definition set_nextpid (v : Z) (r : kdata) : kdata := {| r with nextpid := v |}.
Definition set_seed (v : Z) (r : kdata) : kdata := {| r with seed := v |}.
Definition set_last_index (v : list Z) (r : kdata) : kdata := {| r with last_index := v |}.
Definition set_scheduler_mode (v : Z) (r : kdata) : kdata := {| r with scheduler_mode := v |}.
Definition set_forkret_first (v : Z) (r : kdata) : kdata := {| r with forkret_first := v |}.
Definition set_mem (v : gmap Z (list Z)) (r : kdata) : kdata := {| r with mem := v |}.
Definition set_freelist (v : Z) (r : kdata) : kdata := {| r with freelist := v |}.
Definition set_kernel_pagetable (v : Z) (r : kdata) : kdata := {| r with kernel_pagetable := v |}.
Definition set_ticks (v : Z) (r : kdata) : kdata := {| r with ticks := v |}.
Definition set_pr_locking (v : Z) (r : kdata) : kdata := {| r with pr_locking := v |}.
Definition set_panicked (v : Z) (r : kdata) : kdata := {| r with panicked := v |}.
Definition set_uartS (v : uart) (r : kdata) : kdata := {| r with uartS := v |}.
Definition set_consS (v : console) (r : kdata) : kdata := {| r with consS := v |}.
Definition set_ftable (v : list file) (r : kdata) : kdata := {| r with ftable := v |}.
Definition set_itable (v : list inode) (r : kdata) : kdata := {| r with itable := v |}.
Definition set_bufs (v : list buf) (r : kdata) : kdata := {| r with bufs := v |}.
Definition set_logS (v : logstate) (r : kdata) : kdata := {| r with logS := v |}.
Definition set_sb (v : superblock) (r : kdata) : kdata := {| r with sb := v |}.
Definition set_pipes (v : gmap Z pipe) (r : kdata) : kdata := {| r with pipes := v |}.
Definition set_devsw (v : list (option device)) (r : kdata) : kdata := {| r with devsw := v |}.
Definition set_vdiskS (v : vdisk) (r : kdata) : kdata := {| r with vdiskS := v |}.
Definition set_virtio_regs (v : gmap Z Z) (r : kdata) : kdata := {| r with virtio_regs := v |}.
Definition set_plic_regs (v : gmap Z Z) (r : kdata) : kdata := {| r with plic_regs := v |}.
Definition set_started (v : Z) (r : kdata) : kdata := {| r with started := v |}.
Definition set_platter (v : gmap Z (list Z)) (r : kdata) : kdata := {| r with platter := v |}.
Definition set_dwrites (v : list (Z * list Z)) (r : kdata) : kdata := {| r with dwrites := v |}.

Record kstate := {
  tp : nat;                        (* this hart's number *)
  cpus : list cpu;                 (* cpus[NCPU] *)
  harts : list csrs;               (* the registers of each hart *)
  locks : gmap lockid spinlock;
  kd : kdata
}.

Definition set_tp (v : nat) (r : kstate) : kstate := {| r with tp := v |}.
Definition set_cpus (v : list cpu) (r : kstate) : kstate := {| r with cpus := v |}.
Definition set_harts (v : list csrs) (r : kstate) : kstate := {| r with harts := v |}.
Definition set_locks (v : gmap lockid spinlock) (r : kstate) : kstate := {| r with locks := v |}.
Definition set_kd (v : kdata) (r : kstate) : kstate := {| r with kd := v |}.

(** The kernel at power-on: everything in static storage is zero but what has
    an initialiser. *)
Definition kdata0 : kdata :=
  {| procs := replicate NPROC proc0; initproc := None; nextpid := 1; seed := 123456;
     last_index := [0; 0; 0; 0]; scheduler_mode := 1; forkret_first := 1; mem := ∅;
     freelist := 0; kernel_pagetable := 0; ticks := 0; pr_locking := 0; panicked := 0; uartS := uart0;
     consS := console0; ftable := replicate NFILE file0; itable := replicate NINODE inode0;
     bufs := replicate (S NBUF) buf0; logS := log0; sb := superblock0; pipes := ∅;
     devsw := replicate (Z.to_nat NDEV) None; vdiskS := vdisk0; virtio_regs := ∅; plic_regs := ∅;
     started := 0; platter := ∅; dwrites := [] |}.

Definition kstate0 : kstate :=
  {| tp := 0; cpus := replicate NCPU cpu0; harts := replicate NCPU csrs0; locks := ∅;
     kd := kdata0 |}.

(** ** Programs on the kernel's state *)

Abbreviation M := (Prog kstate).

Definition mapd (f : kdata -> kdata) (s : kstate) : kstate := set_kd (f (kd s)) s.

(** Read and change one of the kernel's variables. *)
Definition getd {A} (f : kdata -> A) : M A := gets (fun s => f (kd s)).
Definition modd (f : kdata -> kdata) : M unit := modify (mapd f).

(** [*p] and [p->field = v] for a pointer into the process table. *)
Definition get_proc (p : nat) : M proc :=
  ps ← getd procs; the "proc table" (ps !! p).
Definition upd_proc (p : nat) (f : proc -> proc) : M unit :=
  _ ← get_proc p; modd (fun d => set_procs (alter f p (procs d)) d).

(** Dereference a pointer that must not be null. *)
Definition nonnull {A} (o : option A) : M A := the "null pointer" o.
