(* ===== verification/Spinlock.v ===== *)
(** * Spinlocks and interrupt nesting

    kernel/spinlock.c, the interrupt-enable accessors of kernel/riscv.h and
    cpuid/mycpu of kernel/proc.c.  A hart that spins on a lock another hart
    holds lets the environment run until the lock is free.

    The theorems: matched push_off/pop_off restore the interrupt state, a lock
    a hart does not hold cannot be acquired while the environment keeps it
    held, and a critical section that only changes the kernel's data is that
    change ([critical]), which is what the clients of locks use. *)

From S2P Require Import Prelude Prog State.

(** ** riscv.h *)

Definition cpuid : M nat := gets tp.

Definition get_hart : M csrs :=
  i ← cpuid; hs ← gets harts; the "hart" (hs !! i).
Definition upd_hart (f : csrs -> csrs) : M unit :=
  i ← cpuid; _ ← get_hart; modify (fun s => set_harts (alter f i (harts s)) s).

Definition w_sstatus (x : Z) : M unit := upd_hart (set_r_sstatus x).

Definition intr_on : M unit :=
  h ← get_hart; w_sstatus (Z.lor (r_sstatus h) SSTATUS_SIE).

Definition intr_off : M unit :=
  h ← get_hart; w_sstatus (Z.land (r_sstatus h) (Z.lnot SSTATUS_SIE)).

Definition sie (h : csrs) : bool := negb (Z.land (r_sstatus h) SSTATUS_SIE =? 0).

Definition intr_get : M Z :=
  h ← get_hart; mret (b2z (sie h)).

(** ** mycpu (proc.c) *)

Definition mycpu : M nat := cpuid.
Definition get_cpu (c : nat) : M cpu := cs ← gets cpus; the "cpu" (cs !! c).
Definition upd_cpu (c : nat) (f : cpu -> cpu) : M unit :=
  _ ← get_cpu c; modify (fun s => set_cpus (alter f c (cpus s)) s).

(** ** spinlock.c *)

Definition lock_of (s : kstate) (lk : lockid) : spinlock := default lock0 (locks s !! lk).
Definition get_lock (lk : lockid) : M spinlock := gets (fun s => lock_of s lk).
Definition put_lock (lk : lockid) (l : spinlock) (s : kstate) : kstate :=
  set_locks (<[lk := l]> (locks s)) s.
Definition upd_lock (lk : lockid) (f : spinlock -> spinlock) : M unit :=
  modify (fun s => put_lock lk (f (lock_of s lk)) s).

Definition initlock (lk : lockid) (name : string) : M unit :=
  upd_lock lk (set_lk_name name);;
  upd_lock lk (set_lk_locked 0);;
  upd_lock lk (set_lk_cpu None).

Definition push_off : M unit :=
  old ← intr_get;
  intr_off;;
  c ← mycpu;
  cp ← get_cpu c;
  when (c_noff cp =? 0) (upd_cpu c (set_c_intena old));;
  upd_cpu c (fun cp => set_c_noff (s32 (c_noff cp + 1)) cp).

Definition pop_off : M unit :=
  c ← mycpu;
  i ← intr_get;
  if z2b i then panic "pop_off - interruptible" else
  cp ← get_cpu c;
  if c_noff cp <? 1 then panic "pop_off" else
  upd_cpu c (fun cp => set_c_noff (s32 (c_noff cp - 1)) cp);;
  cp ← get_cpu c;
  when ((c_noff cp =? 0) && z2b (c_intena cp)) intr_on.

Definition holding (lk : lockid) : M bool :=
  l ← get_lock lk;
  c ← mycpu;
  mret (z2b (lk_locked l) && bool_decide (lk_cpu l = Some c)).

(** [while(__sync_lock_test_and_set(&lk->locked, 1) != 0);] *)
Definition spin (lk : lockid) : M unit :=
  poll (fun s => lk_locked (lock_of s lk) =? 0);;
  upd_lock lk (set_lk_locked 1).

Definition acquire (lk : lockid) : M unit :=
  push_off;;
  h ← holding lk;
  if (h : bool) then panic "acquire" else
  spin lk;;
  c ← mycpu;
  upd_lock lk (set_lk_cpu (Some c)).

Definition release (lk : lockid) : M unit :=
  h ← holding lk;
  if negb h then panic "release" else
  upd_lock lk (set_lk_cpu None);;
  upd_lock lk (set_lk_locked 0);;
  pop_off.

(** ** The effect of an uncontended acquire and of a release *)

Definition hart_of (s : kstate) : csrs := default csrs0 (harts s !! tp s).
Definition cpu_of (s : kstate) : cpu := default cpu0 (cpus s !! tp s).
Definition noff (s : kstate) : Z := c_noff (cpu_of s).
Definition intena (s : kstate) : Z := c_intena (cpu_of s).
Definition intr (s : kstate) : bool := sie (hart_of s).

(** This hart exists, and its nesting depth is in range. *)
Definition hart_ok (s : kstate) : Prop :=
  is_Some (harts s !! tp s) /\ is_Some (cpus s !! tp s) /\ 0 <= noff s < 2147483647.

Definition sie_off (h : csrs) : csrs := set_r_sstatus (Z.land (r_sstatus h) (Z.lnot SSTATUS_SIE)) h.
Definition sie_on (h : csrs) : csrs := set_r_sstatus (Z.lor (r_sstatus h) SSTATUS_SIE) h.

Definition put_hart (h : csrs) (s : kstate) : kstate := set_harts (<[tp s := h]> (harts s)) s.
Definition put_cpu (c : cpu) (s : kstate) : kstate := set_cpus (<[tp s := c]> (cpus s)) s.

Definition pushed (s : kstate) : kstate :=
  let c := if noff s =? 0 then set_c_intena (b2z (intr s)) (cpu_of s) else cpu_of s in
  put_cpu (set_c_noff (noff s + 1) c) (put_hart (sie_off (hart_of s)) s).

Definition popped (s : kstate) : kstate :=
  let h := if (noff s =? 1) && z2b (intena s) then sie_on (hart_of s) else hart_of s in
  put_hart h (put_cpu (set_c_noff (noff s - 1) (cpu_of s)) s).

Definition taken (c : nat) (l : spinlock) : spinlock := set_lk_cpu (Some c) (set_lk_locked 1 l).
Definition dropped (l : spinlock) : spinlock := set_lk_locked 0 (set_lk_cpu None l).

Definition acq (lk : lockid) (s : kstate) : kstate :=
  put_lock lk (taken (tp s) (lock_of s lk)) (pushed s).
Definition rel (lk : lockid) (s : kstate) : kstate :=
  popped (put_lock lk (dropped (lock_of s lk)) s).

(** The lock is free, resp. held by this hart. *)
Definition is_free (s : kstate) (lk : lockid) : Prop :=
  exists n, locks s !! lk = Some {| lk_locked := 0; lk_name := n; lk_cpu := None |}.
Definition held (s : kstate) (lk : lockid) : Prop :=
  exists n, locks s !! lk = Some {| lk_locked := 1; lk_name := n; lk_cpu := Some (tp s) |}.

(** Between matched calls: interrupts are off inside a critical section, and
    outside one [intena] is what the last outermost [push_off] saved. *)
Definition settled (s : kstate) : Prop :=
  hart_ok s /\ (noff s = 0 -> intena s = b2z (intr s)) /\ (0 < noff s -> intr s = false).

(** *** Bits of sstatus *)

Lemma sie_testbit h : sie h = Z.testbit (r_sstatus h) 1.
Proof.
  unfold sie. change SSTATUS_SIE with (2 ^ 1). destruct (Z.testbit (r_sstatus h) 1) eqn:E.
  - apply negb_true_iff, Z.eqb_neq. intros H.
    assert (Z.testbit (Z.land (r_sstatus h) (2 ^ 1)) 1 = true) as T.
    { by rewrite Z.land_spec, E, Z.pow2_bits_true by lia. }
    by rewrite H, Z.bits_0 in T.
  - apply negb_false_iff, Z.eqb_eq. apply Z.bits_inj'. intros n Hn.
    rewrite Z.land_spec, Z.bits_0. destruct (decide (n = 1)) as [->|Hne].
    + by rewrite E.
    + rewrite Z.pow2_bits_false by lia. apply andb_false_r.
Qed.

Lemma sie_sie_off h : sie (sie_off h) = false.
Proof.
  rewrite sie_testbit. unfold sie_off, set_r_sstatus. cbn [r_sstatus]. rewrite Z.land_spec, Z.lnot_spec by lia.
  apply andb_false_r.
Qed.

Lemma sie_sie_on h : sie (sie_on h) = true.
Proof. rewrite sie_testbit. unfold sie_on, set_r_sstatus. cbn [r_sstatus]. rewrite Z.lor_spec. apply orb_true_r. Qed.

Lemma sie_off_id h : sie h = false -> sie_off h = h.
Proof.
  rewrite sie_testbit. intros E. destruct h as [x ? ? ? ? ? ? ?]. unfold sie_off, set_r_sstatus. cbn [r_sstatus] in *. f_equal.
  apply Z.bits_inj'. intros n Hn. change SSTATUS_SIE with (2 ^ 1).
  rewrite Z.land_spec, Z.lnot_spec by lia. destruct (decide (n = 1)) as [->|].
  - by rewrite E.
  - rewrite Z.pow2_bits_false by lia. apply andb_true_r.
Qed.

Lemma sie_on_off h : sie h = true -> sie_on (sie_off h) = h.
Proof.
  rewrite sie_testbit. intros E. destruct h as [x ? ? ? ? ? ? ?]. unfold sie_on, sie_off, set_r_sstatus. cbn [r_sstatus] in *. f_equal.
  apply Z.bits_inj'. intros n Hn. change SSTATUS_SIE with (2 ^ 1).
  rewrite Z.lor_spec, Z.land_spec, Z.lnot_spec by lia. destruct (decide (n = 1)) as [->|].
  - by rewrite E.
  - rewrite Z.pow2_bits_false by lia. by rewrite andb_true_r, orb_false_r.
Qed.

(** *** The programs compute the effects *)

Lemma alter_insert {A} (f : A -> A) (l : list A) i x :
  l !! i = Some x -> alter f i l = <[i := f x]> l.
Proof.
  intros H. apply list_eq. intros j. destruct (decide (i = j)) as [->|].
  - rewrite list_lookup_alter_eq, H. simpl. symmetry. apply list_lookup_insert_eq.
    by eapply lookup_lt_Some.
  - by rewrite list_lookup_alter_ne, list_lookup_insert_ne.
Qed.

Lemma put_lock_lock_of lk l s : lock_of (put_lock lk l s) lk = l.
Proof. unfold lock_of, put_lock. simpl. by rewrite lookup_insert_eq. Qed.

Lemma lock_of_put_ne lk lk' l s : lk ≠ lk' -> lock_of (put_lock lk l s) lk' = lock_of s lk'.
Proof. intros H. unfold lock_of, put_lock. simpl. by rewrite lookup_insert_ne. Qed.

Lemma get_hart_ok s e : is_Some (harts s !! tp s) ->
  get_hart (mkWorld s e) = Ok (hart_of s) (mkWorld s e).
Proof. intros [h H]. unfold get_hart, cpuid, hart_of. run. by rewrite H. Qed.

Lemma get_cpu_ok i s e : i = tp s -> is_Some (cpus s !! tp s) ->
  get_cpu i (mkWorld s e) = Ok (cpu_of s) (mkWorld s e).
Proof. intros -> [c H]. unfold get_cpu, cpu_of. run. by rewrite H. Qed.

Lemma put_hart_alter f s : is_Some (harts s !! tp s) ->
  set_harts (alter f (tp s) (harts s)) s = put_hart (f (hart_of s)) s.
Proof.
  intros [h H]. unfold put_hart, hart_of. rewrite H. f_equal. simpl. by apply alter_insert.
Qed.

Lemma put_cpu_alter f s : is_Some (cpus s !! tp s) ->
  set_cpus (alter f (tp s) (cpus s)) s = put_cpu (f (cpu_of s)) s.
Proof.
  intros [c H]. unfold put_cpu, cpu_of. rewrite H. f_equal. simpl. by apply alter_insert.
Qed.

Lemma upd_hart_ok f s e : is_Some (harts s !! tp s) ->
  upd_hart f (mkWorld s e) = Ok tt (mkWorld (put_hart (f (hart_of s)) s) e).
Proof.
  intros H. unfold upd_hart, cpuid. run. step get_hart_ok. run. by rewrite put_hart_alter.
Qed.

Lemma upd_cpu_ok f i s e : i = tp s -> is_Some (cpus s !! tp s) ->
  upd_cpu i f (mkWorld s e) = Ok tt (mkWorld (put_cpu (f (cpu_of s)) s) e).
Proof. intros -> H. unfold upd_cpu. step get_cpu_ok. run. by rewrite put_cpu_alter. Qed.

(** Reading back what was written. *)
Lemma hart_of_put_hart h s : is_Some (harts s !! tp s) -> hart_of (put_hart h s) = h.
Proof.
  intros [? H]. unfold hart_of, put_hart. simpl. rewrite list_lookup_insert_eq; [done|].
  by eapply lookup_lt_Some.
Qed.

Lemma cpu_of_put_cpu c s : is_Some (cpus s !! tp s) -> cpu_of (put_cpu c s) = c.
Proof.
  intros [? H]. unfold cpu_of, put_cpu. simpl. rewrite list_lookup_insert_eq; [done|].
  by eapply lookup_lt_Some.
Qed.

Lemma put_hart_put_hart h h' s : put_hart h (put_hart h' s) = put_hart h s.
Proof. unfold put_hart, set_harts. simpl. f_equal. apply list_insert_insert_eq. Qed.

Lemma put_cpu_put_cpu c c' s : put_cpu c (put_cpu c' s) = put_cpu c s.
Proof. unfold put_cpu, set_cpus. simpl. f_equal. apply list_insert_insert_eq. Qed.

Lemma put_hart_put_cpu h c s : put_hart h (put_cpu c s) = put_cpu c (put_hart h s).
Proof. done. Qed.

Lemma put_hart_id s : put_hart (hart_of s) s = s.
Proof.
  unfold put_hart, hart_of, set_harts. destruct s as [t cs hs ls d]. simpl. f_equal.
  destruct (hs !! t) eqn:E; simpl; [by apply list_insert_id|].
  apply list_insert_ge. by apply lookup_ge_None.
Qed.

Lemma put_cpu_id s : put_cpu (cpu_of s) s = s.
Proof.
  unfold put_cpu, cpu_of, set_cpus. destruct s as [t cs hs ls d]. simpl. f_equal.
  destruct (cs !! t) eqn:E; simpl; [by apply list_insert_id|].
  apply list_insert_ge. by apply lookup_ge_None.
Qed.

Lemma harts_put_hart h s : is_Some (harts s !! tp s) -> is_Some (harts (put_hart h s) !! tp (put_hart h s)).
Proof.
  intros [? H]. unfold put_hart. simpl. rewrite list_lookup_insert_eq; [done|].
  by eapply lookup_lt_Some.
Qed.

Lemma cpus_put_cpu c s : is_Some (cpus s !! tp s) -> is_Some (cpus (put_cpu c s) !! tp (put_cpu c s)).
Proof.
  intros [? H]. unfold put_cpu. simpl. rewrite list_lookup_insert_eq; [done|].
  by eapply lookup_lt_Some.
Qed.

#[export] Hint Resolve harts_put_hart cpus_put_cpu : xv6.

Lemma push_off_ok s e : hart_ok s -> push_off (mkWorld s e) = Ok tt (mkWorld (pushed s) e).
Proof.
  intros (Hh & Hc & Hn). unfold push_off, intr_get, intr_off, w_sstatus, mycpu, cpuid.
  run. step get_hart_ok. run. step get_hart_ok. step upd_hart_ok. run.
  set (s1 := put_hart _ s).
  assert (is_Some (cpus s1 !! tp s1)) as Hc1 by done.
  step get_cpu_ok. change (cpu_of s1) with (cpu_of s). fold (noff s).
  unfold pushed. destruct (noff s =? 0) eqn:E; run.
  - step upd_cpu_ok. rewrite upd_cpu_ok by auto with xv6.
    rewrite cpu_of_put_cpu by done. rewrite put_cpu_put_cpu.
    rewrite s32_small; [done|]. simpl. change (c_noff (cpu_of s1)) with (noff s). lia.
  - rewrite upd_cpu_ok by done. rewrite s32_small; [done|].
    change (c_noff (cpu_of s1)) with (noff s). lia.
Qed.

Lemma pop_off_ok s e : hart_ok s -> intr s = false -> 1 <= noff s ->
  pop_off (mkWorld s e) = Ok tt (mkWorld (popped s) e).
Proof.
  intros (Hh & Hc & Hn) Hi H1. unfold pop_off, mycpu, cpuid, intr_get. run.
  step get_hart_ok. fold (intr s). rewrite Hi. run. change (z2b (b2z false)) with false. cbv iota.
  step get_cpu_ok. fold (noff s). destruct (Z.ltb_spec (noff s) 1); [lia|].
  step upd_cpu_ok. fold (noff s). rewrite s32_small by lia.
  set (c := set_c_noff _ _). step get_cpu_ok.
  rewrite cpu_of_put_cpu by done. subst c. simpl c_noff. simpl c_intena.
  fold (intena s). replace (noff s - 1 =? 0) with (noff s =? 1) by lia.
  unfold popped. destruct ((noff s =? 1) && z2b (intena s)); run.
  - unfold intr_on, w_sstatus. step get_hart_ok. by rewrite upd_hart_ok.
  - by rewrite put_hart_put_cpu, put_hart_id.
Qed.

Lemma acquire_ok lk s e : hart_ok s -> lk_locked (lock_of s lk) = 0 ->
  acquire lk (mkWorld s e) = Ok tt (mkWorld (acq lk s) e).
Proof.
  intros Hs Hl. unfold acquire, holding, mycpu, cpuid, get_lock. step push_off_ok. run.
  change (lock_of (pushed s) lk) with (lock_of s lk). rewrite Hl. change (z2b 0) with false.
  cbn [andb]. unfold spin, upd_lock. run.
  rewrite (bind_Ok _ _ _ tt (mkWorld (pushed s) e)) by (by apply poll_true, Z.eqb_eq).
  run. rewrite put_lock_lock_of. unfold acq, put_lock, set_locks.
  simpl. by rewrite insert_insert_eq.
Qed.

Lemma holding_ok lk s e :
  holding lk (mkWorld s e) =
  Ok (z2b (lk_locked (lock_of s lk)) && bool_decide (lk_cpu (lock_of s lk) = Some (tp s))) (mkWorld s e).
Proof. done. Qed.

Lemma initlock_ok lk name s e :
  initlock lk name (mkWorld s e) =
  Ok tt (mkWorld (put_lock lk {| lk_locked := 0; lk_name := name; lk_cpu := None |} s) e).
Proof.
  unfold initlock, upd_lock. run. rewrite !put_lock_lock_of. unfold put_lock, set_locks. cbn.
  by rewrite !insert_insert_eq.
Qed.

Lemma held_lock_of s lk : held s lk ->
  lk_locked (lock_of s lk) = 1 /\ lk_cpu (lock_of s lk) = Some (tp s).
Proof. intros [n H]. unfold lock_of. by rewrite H. Qed.

Lemma free_lock_of s lk : is_free s lk ->
  lk_locked (lock_of s lk) = 0 /\ lk_cpu (lock_of s lk) = None.
Proof. intros [n H]. unfold lock_of. by rewrite H. Qed.

Lemma free_locked s lk : is_free s lk -> lk_locked (lock_of s lk) = 0.
Proof. intros H. by apply free_lock_of in H as [? _]. Qed.

Lemma settled_hart_ok s : settled s -> hart_ok s.
Proof. by intros [? _]. Qed.

#[export] Hint Resolve free_locked settled_hart_ok : xv6.

Lemma release_ok lk s e : hart_ok s -> held s lk -> intr s = false -> 1 <= noff s ->
  release lk (mkWorld s e) = Ok tt (mkWorld (rel lk s) e).
Proof.
  intros Hs Hl Hi Hn. apply held_lock_of in Hl as [H1 H2]. unfold release.
  rewrite (bind_Ok _ _ _ _ _ (holding_ok lk s e)), H1, H2.
  rewrite bool_decide_eq_true_2 by done. cbn [andb negb z2b Z.eqb].
  unfold upd_lock. run. rewrite put_lock_lock_of, pop_off_ok.
  - unfold rel, put_lock, set_locks. simpl. by rewrite insert_insert_eq.
  - exact Hs.
  - exact Hi.
  - exact Hn.
Qed.

(** A hart that already holds the lock stops the machine; so does one that
    releases a lock it does not hold. *)
Lemma acquire_held lk s e : hart_ok s -> held s lk -> acquire lk (mkWorld s e) = Panic "acquire".
Proof.
  intros Hs Hl. apply held_lock_of in Hl as [H1 H2]. unfold acquire. step push_off_ok.
  rewrite (bind_Ok _ _ _ _ _ (holding_ok lk (pushed s) e)).
  change (lock_of (pushed s) lk) with (lock_of s lk). rewrite H1, H2.
  by rewrite bool_decide_eq_true_2.
Qed.

(** *** What acquiring changes *)

Lemma noff_pushed s : hart_ok s -> noff (pushed s) = noff s + 1.
Proof.
  intros (Hh & Hc & _). unfold pushed, noff at 1. rewrite cpu_of_put_cpu by done. done.
Qed.

Lemma noff_acq lk s : hart_ok s -> noff (acq lk s) = noff s + 1.
Proof. apply noff_pushed. Qed.

Lemma intr_acq lk s : hart_ok s -> intr (acq lk s) = false.
Proof.
  intros (Hh & Hc & _). unfold intr, acq, pushed, hart_of. simpl.
  change (sie (hart_of (put_hart (sie_off (hart_of s)) s)) = false).
  rewrite hart_of_put_hart by done. apply sie_sie_off.
Qed.

Lemma hart_ok_acq lk s : hart_ok s -> noff s < 2147483646 -> hart_ok (acq lk s).
Proof.
  intros Hs Hn. pose proof Hs as (Hh & Hc & Hr). split; [|split].
  - change (is_Some (harts (put_hart (sie_off (hart_of s)) s) !! tp s)). by apply harts_put_hart.
  - by apply (cpus_put_cpu _ (put_hart (sie_off (hart_of s)) s)).
  - rewrite noff_acq by done. lia.
Qed.

Lemma settled_acq lk s : hart_ok s -> noff s < 2147483646 -> settled (acq lk s).
Proof.
  intros Hs Hn. pose proof Hs as (Hh & Hc & Hr). split; [by apply hart_ok_acq|]. split.
  - rewrite noff_acq by done. lia.
  - intros _. by apply intr_acq.
Qed.

Lemma held_acq lk s : held (acq lk s) lk.
Proof. eexists. unfold acq, put_lock. simpl. rewrite lookup_insert_eq. done. Qed.

Lemma held_acq_ne lk lk' s : lk ≠ lk' -> held s lk' -> held (acq lk s) lk'.
Proof. intros Hne [n H]. exists n. unfold acq, put_lock. simpl. by rewrite lookup_insert_ne. Qed.

Lemma is_free_acq_ne lk lk' s : lk ≠ lk' -> is_free s lk' -> is_free (acq lk s) lk'.
Proof. intros Hne [n H]. exists n. unfold acq, put_lock. simpl. by rewrite lookup_insert_ne. Qed.

Lemma acq_mapd lk f s : acq lk (mapd f s) = mapd f (acq lk s).
Proof. by destruct s. Qed.

Lemma mapd_mapd f g s : mapd f (mapd g s) = mapd (fun d => f (g d)) s.
Proof. done. Qed.

Lemma mapd_id s : mapd (fun d => d) s = s.
Proof. by destruct s. Qed.

Lemma popped_mapd f s : popped (mapd f s) = mapd f (popped s).
Proof. by destruct s. Qed.

Lemma rel_mapd lk f s : rel lk (mapd f s) = mapd f (rel lk s).
Proof. by destruct s. Qed.

#[export] Hint Resolve intr_acq hart_ok_acq settled_acq held_acq held_acq_ne is_free_acq_ne : xv6.

(** *** Leaving a critical section *)

Lemma popped_pushed s : settled s -> popped (pushed s) = s.
Proof.
  intros ((Hh & Hc & Hr) & H0 & H1). unfold popped.
  assert (hart_of (pushed s) = sie_off (hart_of s)) as Eh.
  { change (hart_of (put_hart (sie_off (hart_of s)) s) = sie_off (hart_of s)).
    by apply hart_of_put_hart. }
  assert (noff (pushed s) = noff s + 1) as En by (by apply noff_pushed).
  rewrite Eh, En. replace (noff s + 1 - 1) with (noff s) by lia.
  unfold pushed at 2 3. rewrite cpu_of_put_cpu by done.
  rewrite put_cpu_put_cpu, put_hart_put_cpu, put_hart_put_hart, <- put_hart_put_cpu.
  replace (noff s + 1 =? 1) with (noff s =? 0) by lia.
  destruct (noff s =? 0) eqn:E; cbn [andb]; propify.
  - specialize (H0 E).
    assert (intena (pushed s) = b2z (intr s)) as ->.
    { unfold intena, pushed. rewrite cpu_of_put_cpu by done. by rewrite E. }
    rewrite z2b_b2z.
    replace (if intr s then sie_on (sie_off (hart_of s)) else sie_off (hart_of s)) with (hart_of s).
    2:{ unfold intr. destruct (sie (hart_of s)) eqn:Es; symmetry; [by apply sie_on_off|by apply sie_off_id]. }
    assert (set_c_noff (noff s) (set_c_noff (noff s + 1) (set_c_intena (b2z (intr s)) (cpu_of s)))
            = cpu_of s) as ->.
    { rewrite <- H0. unfold noff, intena. by destruct (cpu_of s). }
    by rewrite put_cpu_id, put_hart_id.
  - rewrite sie_off_id by (apply H1; lia).
    assert (set_c_noff (noff s) (set_c_noff (noff s + 1) (cpu_of s)) = cpu_of s) as ->.
    { unfold noff. by destruct (cpu_of s). }
    by rewrite put_cpu_id, put_hart_id.
Qed.

Lemma put_lock_pushed lk l s : put_lock lk l (pushed s) = pushed (put_lock lk l s).
Proof. by destruct s. Qed.

Lemma put_lock_id lk l s : locks s !! lk = Some l -> put_lock lk l s = s.
Proof. intros H. destruct s. unfold put_lock, set_locks. simpl in *. f_equal. by apply insert_id. Qed.

Lemma rel_acq lk s : settled s -> is_free s lk -> rel lk (acq lk s) = s.
Proof.
  intros Hs [n H]. unfold rel, acq. rewrite put_lock_lock_of.
  assert (dropped (taken (tp s) (lock_of s lk)) = lock_of s lk) as ->.
  { unfold lock_of. by rewrite H. }
  unfold put_lock, set_locks. simpl. rewrite insert_insert_eq.
  change (popped (put_lock lk (lock_of s lk) (pushed s)) = s).
  rewrite put_lock_pushed, put_lock_id by (unfold lock_of; by rewrite H).
  by apply popped_pushed.
Qed.

(** Hand-over-hand: releasing the first of two locks leaves the second one
    taken, as if it alone had been acquired. *)
Lemma rel_acq_acq a b s : a ≠ b -> hart_ok s -> noff s < 2147483646 -> is_free s a ->
  rel a (acq b (acq a s)) = acq b s.
Proof.
  intros Hne Hs Hm [n H]. pose proof Hs as (Hh & Hc & Hr). unfold rel.
  set (s2 := acq b (acq a s)).
  assert (lock_of s2 a = taken (tp s) (lock_of s a)) as ->.
  { unfold s2, acq at 1. rewrite lock_of_put_ne by done.
    change (lock_of (acq a s) a = taken (tp s) (lock_of s a)). apply put_lock_lock_of. }
  assert (dropped (taken (tp s) (lock_of s a)) = lock_of s a) as ->.
  { unfold lock_of. by rewrite H. }
  assert (lock_of (acq a s) b = lock_of s b) as Eb.
  { unfold acq. by rewrite lock_of_put_ne. }
  assert (put_lock a (lock_of s a) s2 = put_lock b (taken (tp s) (lock_of s b)) (pushed (pushed s))) as ->.
  { unfold s2, acq at 1. rewrite Eb. unfold acq, put_lock, set_locks. simpl.
    rewrite (insert_insert_ne _ a b) by done. rewrite insert_insert_eq.
    rewrite (insert_id (locks s) a (lock_of s a)); [done|]. unfold lock_of. by rewrite H. }
  change (put_lock b (taken (tp s) (lock_of s b)) (popped (pushed (pushed s))) = acq b s).
  rewrite popped_pushed; [done|]. apply (settled_acq a s Hs Hm).
Qed.

(** Releasing what was acquired, in the forms the clients meet it. *)
Lemma release_mapd_acq lk f s e : settled s -> noff s < 2147483646 -> is_free s lk ->
  release lk (mkWorld (mapd f (acq lk s)) e) = Ok tt (mkWorld (mapd f s) e).
Proof.
  intros Hs Hn Hf. rewrite release_ok.
  - by rewrite rel_mapd, rel_acq.
  - apply (hart_ok_acq lk s (proj1 Hs) Hn).
  - apply held_acq.
  - apply (intr_acq lk s (proj1 Hs)).
  - change (1 <= noff (acq lk s)). rewrite noff_acq by apply Hs.
    pose proof (proj1 Hs) as (_ & _ & ?). lia.
Qed.

Lemma release_acq lk s e : settled s -> noff s < 2147483646 -> is_free s lk ->
  release lk (mkWorld (acq lk s) e) = Ok tt (mkWorld s e).
Proof.
  intros Hs Hn Hf. rewrite <- (mapd_id (acq lk s)), release_mapd_acq by done. by rewrite mapd_id.
Qed.

(** *** Saved interrupt state

    [intr_on] outside a critical section leaves [intena] behind; the next
    [push_off] saves it again.  [settle] is the state with [intena] up to date:
    every critical section starts as if from it. *)

Definition settle (s : kstate) : kstate :=
  if noff s =? 0 then put_cpu (set_c_intena (b2z (intr s)) (cpu_of s)) s else s.

Lemma noff_settle s : hart_ok s -> noff (settle s) = noff s.
Proof.
  intros (Hh & Hc & Hr). unfold settle. destruct (noff s =? 0) eqn:E; [|done].
  unfold noff at 1. by rewrite cpu_of_put_cpu.
Qed.

Lemma intr_settle s : intr (settle s) = intr s.
Proof. unfold settle. by destruct (noff s =? 0). Qed.

Lemma kd_settle s : kd (settle s) = kd s.
Proof. unfold settle. by destruct (noff s =? 0). Qed.

Lemma locks_settle s : locks (settle s) = locks s.
Proof. unfold settle. by destruct (noff s =? 0). Qed.

Lemma tp_settle s : tp (settle s) = tp s.
Proof. unfold settle. by destruct (noff s =? 0). Qed.

Lemma hart_ok_settle s : hart_ok s -> hart_ok (settle s).
Proof.
  intros Hs. pose proof Hs as (Hh & Hc & Hr). split; [|split].
  - unfold settle. by destruct (noff s =? 0).
  - unfold settle. destruct (noff s =? 0); [by apply cpus_put_cpu|done].
  - by rewrite noff_settle.
Qed.

Lemma settled_settle s : hart_ok s -> (0 < noff s -> intr s = false) -> settled (settle s).
Proof.
  intros Hs Hi. pose proof Hs as (Hh & Hc & Hr).
  split; [by apply hart_ok_settle|]. rewrite noff_settle, intr_settle by done.
  split; [|done]. intros E. unfold settle, intena. rewrite E. simpl.
  by rewrite cpu_of_put_cpu.
Qed.

Lemma pushed_settle s : hart_ok s -> pushed (settle s) = pushed s.
Proof.
  intros Hs. pose proof Hs as (Hh & Hc & Hr). unfold pushed.
  rewrite noff_settle, intr_settle by done. unfold settle.
  destruct (noff s =? 0) eqn:E; [|done].
  rewrite cpu_of_put_cpu by done. by rewrite put_hart_put_cpu, put_cpu_put_cpu.
Qed.

Lemma settle_settled s : settled s -> settle s = s.
Proof.
  intros (_ & H0 & _). unfold settle. destruct (noff s =? 0) eqn:E; [|done]. propify.
  rewrite <- (H0 E). unfold intena.
  assert (set_c_intena (c_intena (cpu_of s)) (cpu_of s) = cpu_of s) as -> by (by destruct (cpu_of s)).
  apply put_cpu_id.
Qed.

Lemma acq_settle lk s : hart_ok s -> acq lk (settle s) = acq lk s.
Proof.
  intros Hs. unfold acq. rewrite tp_settle, pushed_settle by done.
  unfold lock_of. by rewrite locks_settle.
Qed.

Lemma popped_pushed_settle s : hart_ok s -> (0 < noff s -> intr s = false) ->
  popped (pushed s) = settle s.
Proof.
  intros Hs Hi. rewrite <- (pushed_settle s Hs). apply popped_pushed. by apply settled_settle.
Qed.

(** ** Frames: the lock operations only change the harts and the locks *)

Class DataRel (R : kstate -> kstate -> Prop) : Prop := data_rel s s' : kd s' = kd s -> R s s'.

#[export] Instance same_data_rel {T} (proj : kdata -> T) : DataRel (same (fun s => proj (kd s))).
Proof. intros s s' H. unfold same. by rewrite H. Qed.

#[export] Instance keeps_data_rel (I : kdata -> Prop) : DataRel (keeps (fun s => I (kd s))).
Proof. intros s s' H. unfold keeps. by rewrite H. Qed.

Section frames.
Context (R : kstate -> kstate -> Prop) `{!PreOrder R, !DataRel R}.

Lemma guar_hw f : (forall s, kd (f s) = kd s) -> guar R (modify f).
Proof. intros H. apply guar_modify. intros s. by apply data_rel. Qed.

Lemma guar_get_hart : guar R get_hart.
Proof. unfold get_hart, cpuid. guar_auto. Qed.

Lemma guar_upd_hart f : guar R (upd_hart f).
Proof. unfold upd_hart, cpuid. guar_auto; [apply guar_get_hart|by apply guar_hw]. Qed.

Lemma guar_get_cpu c : guar R (get_cpu c).
Proof. unfold get_cpu. guar_auto. Qed.

Lemma guar_upd_cpu c f : guar R (upd_cpu c f).
Proof. unfold upd_cpu. guar_auto; [apply guar_get_cpu|by apply guar_hw]. Qed.

Lemma guar_upd_lock lk f : guar R (upd_lock lk f).
Proof. unfold upd_lock. by apply guar_hw. Qed.

#[local] Hint Resolve guar_get_hart guar_upd_hart guar_get_cpu guar_upd_cpu guar_upd_lock : guar.

Lemma guar_intr_get : guar R intr_get.
Proof. unfold intr_get. guar_auto. Qed.

Lemma guar_intr_on : guar R intr_on.
Proof. unfold intr_on, w_sstatus. guar_auto. Qed.

Lemma guar_intr_off : guar R intr_off.
Proof. unfold intr_off, w_sstatus. guar_auto. Qed.

#[local] Hint Resolve guar_intr_get guar_intr_on guar_intr_off : guar.

Lemma guar_push_off : guar R push_off.
Proof. unfold push_off, mycpu, cpuid. guar_auto. Qed.

Lemma guar_pop_off : guar R pop_off.
Proof. unfold pop_off, mycpu, cpuid. guar_auto. Qed.

Lemma guar_holding lk : guar R (holding lk).
Proof. unfold holding, get_lock, mycpu, cpuid. guar_auto. Qed.

#[local] Hint Resolve guar_push_off guar_pop_off guar_holding : guar.

Lemma guar_acquire lk : guar R (acquire lk).
Proof. unfold acquire, spin, mycpu, cpuid. guar_auto. Qed.

Lemma guar_release lk : guar R (release lk).
Proof. unfold release. guar_auto. Qed.

Lemma guar_getd {A} (f : kdata -> A) : guar R (getd f).
Proof. apply guar_gets. done. Qed.

Lemma guar_modd f : (forall s, R s (mapd f s)) -> guar R (modd f).
Proof. by apply guar_modify. Qed.
End frames.

#[export] Hint Resolve guar_get_hart guar_upd_hart guar_get_cpu guar_upd_cpu guar_upd_lock
  guar_intr_get guar_intr_on guar_intr_off guar_push_off guar_pop_off guar_holding
  guar_acquire guar_release guar_getd : guar.
#[export] Hint Extern 5 (guar _ (modd _)) => (apply guar_modd; [reflexivity]) : guar.

(** ** Frames: the hart stays, and a lock it holds is left alone *)

(** What a relation needs so that taking and dropping the lock [lk] respects it. *)
Class LockRel (R : kstate -> kstate -> Prop) (lk : lockid) : Prop := {
  lock_rel_pre :: PreOrder R;
  lock_rel_hart f s : R s (set_harts (alter f (tp s) (harts s)) s);
  lock_rel_cpu f c s : R s (set_cpus (alter f c (cpus s)) s);
  lock_rel_lock l s : R s (put_lock lk l s)
}.

Section lock_rel.
Context (R : kstate -> kstate -> Prop) (lk : lockid) `{!LockRel R lk}.

Lemma lrel_upd_hart f : guar R (upd_hart f).
Proof.
  unfold upd_hart, cpuid, get_hart, cpuid. intros [s e] Hw. run. destruct (harts s !! tp s); run; [|done].
  split; [apply lock_rel_hart|done].
Qed.

Lemma lrel_upd_cpu c f : guar R (upd_cpu c f).
Proof. unfold upd_cpu, get_cpu. guar_auto. apply guar_modify. intros s. apply lock_rel_cpu. Qed.

Lemma lrel_upd_lock f : guar R (upd_lock lk f).
Proof. apply guar_modify. intros s. apply lock_rel_lock. Qed.

#[local] Hint Resolve lrel_upd_hart lrel_upd_cpu lrel_upd_lock : guar.

Lemma lrel_push_off : guar R push_off.
Proof. unfold push_off, intr_get, intr_off, w_sstatus, get_hart, get_cpu, mycpu, cpuid. guar_auto. Qed.

Lemma lrel_pop_off : guar R pop_off.
Proof. unfold pop_off, intr_get, intr_on, w_sstatus, get_hart, get_cpu, mycpu, cpuid. guar_auto. Qed.

#[local] Hint Resolve lrel_push_off lrel_pop_off : guar.

Lemma lrel_acquire : guar R (acquire lk).
Proof. unfold acquire, holding, get_lock, spin, mycpu, cpuid. guar_auto. Qed.

Lemma lrel_release : guar R (release lk).
Proof. unfold release, holding, get_lock, mycpu, cpuid. guar_auto. Qed.
End lock_rel.

(** From [s] to [s'] this thread stays on its hart. *)
Definition hart_kept (s s' : kstate) : Prop :=
  tp s' = tp s /\ length (harts s') = length (harts s) /\ length (cpus s') = length (cpus s).

(** ... and the lock [lk] is not touched. *)
Definition lock_kept (lk : lockid) (s s' : kstate) : Prop :=
  hart_kept s s' /\ lock_of s' lk = lock_of s lk.

#[export] Instance hart_kept_preorder : PreOrder hart_kept.
Proof.
  split; [done|]. intros s1 s2 s3 (A1 & A2 & A3) (B1 & B2 & B3). unfold hart_kept. by rewrite B1, B2, B3.
Qed.

#[export] Instance lock_kept_preorder lk : PreOrder (lock_kept lk).
Proof.
  split; [done|]. intros s1 s2 s3 [A1 A2] [B1 B2]. split; [by etrans|]. by rewrite B2.
Qed.

#[export] Instance hart_kept_rel lk : LockRel hart_kept lk.
Proof. split; [apply _|..]; intros; unfold hart_kept; cbn; by rewrite ?length_alter. Qed.

Lemma lock_kept_rel lk lk' : lk' ≠ lk -> LockRel (lock_kept lk) lk'.
Proof.
  intros Hne. split; [apply _|..]; intros; (split; [unfold hart_kept; cbn; by rewrite ?length_alter|]); try done.
  by apply lock_of_put_ne.
Qed.

Lemma kept_modd lk f : guar (lock_kept lk) (modd f).
Proof. by apply guar_modify. Qed.

Lemma hart_modd f : guar hart_kept (modd f).
Proof. by apply guar_modify. Qed.

#[export] Hint Resolve kept_modd hart_modd : guar.
#[export] Hint Extern 1 (guar hart_kept (acquire _)) => (apply lrel_acquire; apply _) : guar.
#[export] Hint Extern 1 (guar hart_kept (release _)) => (apply lrel_release; apply _) : guar.
#[export] Hint Extern 1 (guar (lock_kept _) (acquire _)) => (apply lrel_acquire, lock_kept_rel; congruence) : guar.
#[export] Hint Extern 1 (guar (lock_kept _) (release _)) => (apply lrel_release, lock_kept_rel; congruence) : guar.

(** This hart holds the lock, whatever its nesting depth. *)
Definition locked_here (lk : lockid) (s : kstate) : Prop :=
  lk_locked (lock_of s lk) = 1 /\ lk_cpu (lock_of s lk) = Some (tp s) /\
  (tp s < length (harts s))%nat /\ (tp s < length (cpus s))%nat.

Lemma locked_here_kept lk s s' : locked_here lk s -> lock_kept lk s s' -> locked_here lk s'.
Proof. intros (H1 & H2 & H3 & H4) [(E1 & E3 & E4) E2]. unfold locked_here. by rewrite E1, E2, E3, E4. Qed.

(** A program that leaves the lock alone ends with it held. *)
Lemma guar_locked_here {A} lk (m : M A) w a w' : guar (lock_kept lk) m -> rely (lock_kept lk) w ->
  m w = Ok a w' -> locked_here lk (ks w) -> locked_here lk (ks w') /\ env w' `suffix_of` env w.
Proof.
  intros Hg Hr E Hl. specialize (Hg w Hr). rewrite E in Hg. destruct Hg as [Hk He].
  split; [by eapply locked_here_kept|done].
Qed.

Lemma push_off_total s e : is_Some (harts s !! tp s) -> is_Some (cpus s !! tp s) ->
  exists s', push_off (mkWorld s e) = Ok tt (mkWorld s' e) /\ locks s' = locks s /\ tp s' = tp s.
Proof.
  intros Hh Hc. unfold push_off, intr_get, intr_off, w_sstatus, mycpu, cpuid.
  run. step get_hart_ok. run. step get_hart_ok. step upd_hart_ok. run.
  set (s1 := put_hart _ s). assert (is_Some (cpus s1 !! tp s1)) as Hc1 by done.
  step get_cpu_ok. destruct (c_noff (cpu_of s1) =? 0); run.
  - step upd_cpu_ok. rewrite upd_cpu_ok by auto with xv6. eexists. split; [done|]. done.
  - rewrite upd_cpu_ok by done. eexists. split; [done|]. done.
Qed.

Lemma acquire_again lk w : locked_here lk (ks w) -> acquire lk w = Panic "acquire".
Proof.
  destruct w as [s e]. cbn [ks]. intros (H1 & H2 & H3 & H4).
  destruct (push_off_total s e) as (s' & E & El & Et); [by apply lookup_lt_is_Some..|].
  unfold acquire. rewrite (bind_Ok _ _ _ _ _ E), (bind_Ok _ _ _ _ _ (holding_ok lk s' e)).
  assert (lock_of s' lk = lock_of s lk) as -> by (unfold lock_of; by rewrite El).
  rewrite H1, H2, Et. by rewrite bool_decide_eq_true_2.
Qed.

(** A lock that was acquired is held by this hart. *)
Lemma acquire_takes lk w u w' : acquire lk w = Ok u w' ->
  lk_locked (lock_of (ks w') lk) = 1 /\ lk_cpu (lock_of (ks w') lk) = Some (tp (ks w')).
Proof.
  unfold acquire. intros ([] & w1 & _ & H)%bind_Ok_inv.
  apply bind_Ok_inv in H as (h & w2 & _ & H). destruct h; [done|].
  apply bind_Ok_inv in H as ([] & w3 & Hs & H). unfold spin in Hs.
  apply bind_Ok_inv in Hs as ([] & w4 & _ & Hs). unfold upd_lock in Hs, H.
  destruct w4 as [s4 e4]. injection Hs as <-. unfold mycpu, cpuid in H.
  rewrite bind_gets in H. injection H as <- <-. cbn [ks set_ks]. rewrite !put_lock_lock_of.
  done.
Qed.

(** ** A state with every lock of the kernel free *)

Definition all_locks : list lockid :=
  (LProc <$> seq 0 NPROC) ++ (LBuf <$> seq 0 NBUF) ++ (LInode <$> seq 0 NINODE) ++
  [LPid; LWait; LKmem; LTicks; LCons; LUartTx; LPr; LBcache; LItable; LFtable; LLog; LVdisk].

Definition unlocked (s : kstate) : kstate :=
  set_locks (list_to_map ((fun lk => (lk, lock0)) <$> all_locks)) s.

Lemma all_locks_nodup : NoDup all_locks.
Proof. apply (bool_decide_unpack _). vm_compute. exact I. Qed.

Lemma unlocked_free lk s : lk ∈ all_locks -> is_free (unlocked s) lk.
Proof.
  intros H. exists EmptyString. unfold unlocked. cbn [locks set_locks].
  apply elem_of_list_to_map_1.
  - rewrite <- list_fmap_compose.
    replace (_ <$> all_locks) with all_locks; [apply all_locks_nodup|]. symmetry. apply list_fmap_id.
  - apply list_elem_of_fmap. by exists lk.
Qed.

Lemma unlocked_proc p s : (p < NPROC)%nat -> is_free (unlocked s) (LProc p).
Proof.
  intros H. apply unlocked_free, elem_of_app. left. apply list_elem_of_fmap.
  exists p. split; [done|]. apply elem_of_seq. lia.
Qed.

Lemma all_locks_single lk :
  lk ∈ [LPid; LWait; LKmem; LTicks; LCons; LUartTx; LPr; LBcache; LItable; LFtable; LLog; LVdisk] -> lk ∈ all_locks.
Proof. intros H. unfold all_locks. rewrite !elem_of_app. by right; right; right. Qed.

Lemma all_locks_buf b : (b < NBUF)%nat -> LBuf b ∈ all_locks.
Proof.
  intros H. unfold all_locks. rewrite !elem_of_app. right; left. apply list_elem_of_fmap.
  exists b. split; [done|]. apply elem_of_seq. lia.
Qed.

Lemma settled_unlocked : settled (unlocked kstate0).
Proof. split; [|done]. split; [|split]; [by eexists|by eexists|done]. Qed.

(** ** Theorems *)

Fixpoint times (n : nat) (m : M unit) : M unit :=
  match n with
  | O => mret tt
  | S n => m;; times n m
  end.

Lemma iter_pushed n s : settled s -> noff s + Z.of_nat n < 2147483647 ->
  settled (Nat.iter n pushed s) /\ noff (Nat.iter n pushed s) = noff s + Z.of_nat n.
Proof.
  intros Hs. induction n as [|n IH]; intros Hn; [simpl; split; [done|lia]|].
  destruct IH as [Ho En]; [lia|]. simpl. split.
  - apply (settled_acq LPid); [apply Ho|lia].
  - rewrite noff_pushed by apply Ho. lia.
Qed.

Lemma times_push n s e : settled s -> noff s + Z.of_nat n < 2147483647 ->
  times n push_off (mkWorld s e) = Ok tt (mkWorld (Nat.iter n pushed s) e).
Proof.
  revert s. induction n as [|n IH]; intros s Hs Hn; [done|]. cbn [times].
  rewrite (bind_Ok _ _ _ _ _ (push_off_ok s e (proj1 Hs))), IH.
  - by rewrite <- Nat.iter_succ_r.
  - apply (settled_acq LPid); [apply Hs|lia].
  - rewrite noff_pushed by apply Hs. lia.
Qed.

Lemma times_pop n s e : settled s -> noff s + Z.of_nat n < 2147483647 ->
  times n pop_off (mkWorld (Nat.iter n pushed s) e) = Ok tt (mkWorld s e).
Proof.
  intros Hs. induction n as [|n IH]; intros Hn; [done|]. cbn [times]. rewrite Nat.iter_succ.
  destruct (iter_pushed n s Hs ltac:(lia)) as [Ho En].
  rewrite (bind_Ok _ _ _ tt (mkWorld (Nat.iter n pushed s) e)); [apply IH; lia|].
  rewrite pop_off_ok; [by rewrite popped_pushed| | |].
  - apply (hart_ok_acq LPid); [apply Ho|lia].
  - apply (intr_acq LPid). apply Ho.
  - rewrite noff_pushed by apply Ho. pose proof (proj1 Ho) as (_ & _ & ?). lia.
Qed.

(** Push_off and pop_off match: [n + 1] calls of push_off followed by as
    many of pop_off succeed, and leave the nesting depth, the interrupt enable
    bit, every lock and the kernel's data as they were. *)
Theorem push_pop_matched n s e :
  hart_ok s -> (0 < noff s -> intr s = false) -> noff s + Z.of_nat (S n) < 2147483647 ->
  exists s', (times (S n) push_off;; times (S n) pop_off) (mkWorld s e) = Ok tt (mkWorld s' e) /\
    noff s' = noff s /\ intr s' = intr s /\ locks s' = locks s /\ kd s' = kd s.
Proof.
  intros Hs Hi Hn. exists (settle s).
  pose proof (settled_settle s Hs Hi) as Ht.
  assert (times (S n) push_off (mkWorld s e) = times (S n) push_off (mkWorld (settle s) e)) as E.
  { cbn [times]. rewrite (bind_Ok _ _ _ _ _ (push_off_ok s e Hs)).
    rewrite (bind_Ok _ _ _ _ _ (push_off_ok _ e (hart_ok_settle s Hs))). by rewrite pushed_settle. }
  rewrite (times_push _ (settle s)) in E by (rewrite ?noff_settle; auto).
  rewrite (bind_Ok _ _ _ _ _ E), times_pop by (rewrite ?noff_settle; auto).
  by rewrite noff_settle, intr_settle, locks_settle, kd_settle.
Qed.

Lemma push_pop_matched_witness :
  exists s', (times 2 push_off;; times 2 pop_off) (mkWorld kstate0 []) = Ok tt (mkWorld s' []) /\
    noff s' = 0 /\ intr s' = false /\ locks s' = ∅ /\ kd s' = kdata0.
Proof.
  apply (push_pop_matched 1 kstate0 []).
  - split; [|split]; [by eexists|by eexists|done].
  - done.
  - done.
Defined.

(** C37: mutual exclusion.  While the rest of the machine keeps the lock
    taken, a hart that does not hold it never gets it: acquire neither returns
    nor stops the machine. *)
Theorem acquire_excluded lk s e :
  hart_ok s -> lk_locked (lock_of s lk) ≠ 0 -> lk_cpu (lock_of s lk) ≠ Some (tp s) ->
  Forall (fun f => forall s, lk_locked (lock_of s lk) ≠ 0 -> lk_locked (lock_of (f s) lk) ≠ 0) e ->
  exists w, acquire lk (mkWorld s e) = Blocked w.
Proof.
  intros Hs Hl Hc He. unfold acquire. step push_off_ok.
  rewrite (bind_Ok _ _ _ _ _ (holding_ok lk (pushed s) e)).
  change (lock_of (pushed s) lk) with (lock_of s lk).
  rewrite bool_decide_eq_false_2 by done. rewrite andb_false_r. unfold spin, mbind, Prog_bind, poll.
  cbn [ks env]. assert (lk_locked (lock_of (pushed s) lk) ≠ 0) as Hp by done.
  revert Hp. generalize (pushed s). induction He as [|f e Hf He IH]; intros s1 Hs1; cbn [poll_env].
  - destruct (Z.eqb_spec (lk_locked (lock_of s1 lk)) 0); [done|]. eauto.
  - destruct (Z.eqb_spec (lk_locked (lock_of s1 lk)) 0); [done|]. apply IH, Hf, Hs1.
Qed.

Definition hart1_holds : kstate := put_lock LKmem (taken 1 lock0) kstate0.

Lemma acquire_excluded_witness :
  exists w, acquire LKmem (mkWorld hart1_holds [fun s => s]) = Blocked w.
Proof.
  apply acquire_excluded.
  - split; [|split]; [by eexists|by eexists|done].
  - done.
  - done.
  - by repeat constructor.
Defined.

(** A critical section that only changes the kernel's data is that
    change: acquire, a change [f] of the data, release return, with the lock
    free again and interrupts as they were. *)
Theorem critical_section lk f s e :
  settled s -> noff s < 2147483646 -> is_free s lk ->
  (acquire lk;; modd f;; release lk) (mkWorld s e) = Ok tt (mkWorld (mapd f s) e).
Proof.
  intros Hs Hn Hf. step acquire_ok.
  unfold modd. run. by rewrite release_mapd_acq.
Qed.

Lemma critical_section_witness :
  exists s, (acquire LPid;; modd (set_nextpid 7);; release LPid) (mkWorld s []) =
            Ok tt (mkWorld (mapd (set_nextpid 7) s) []).
Proof.
  exists (put_lock LPid lock0 kstate0). apply critical_section.
  - split; [|done]. split; [|split]; [by eexists|by eexists|done].
  - done.
  - by exists ""%string.
Defined.
