(* ===== verification/Riscv.v ===== *)
(** * Control registers

    The accessors of kernel/riscv.h: reads [read_<reg>] and writes [w_<reg>] of
    the registers of this hart ([w_sstatus] and the interrupt flag are in
    [Spinlock]). *)

From S2P Require Import Prelude Prog State Spinlock.

Definition read_mhartid : M Z := h ← get_hart; mret (r_mhartid h).
Definition read_mstatus : M Z := h ← get_hart; mret (r_mstatus h).
Definition read_sstatus : M Z := h ← get_hart; mret (r_sstatus h).
Definition read_sie : M Z := h ← get_hart; mret (r_sie h).
Definition read_mie : M Z := h ← get_hart; mret (r_mie h).
Definition read_sepc : M Z := h ← get_hart; mret (r_sepc h).
Definition read_stimecmp : M Z := h ← get_hart; mret (r_stimecmp h).
Definition read_menvcfg : M Z := h ← get_hart; mret (r_menvcfg h).
Definition read_satp : M Z := h ← get_hart; mret (r_satp h).
Definition read_scause : M Z := h ← get_hart; mret (r_scause h).
Definition read_stval : M Z := h ← get_hart; mret (r_stval h).
Definition read_mcounteren : M Z := h ← get_hart; mret (r_mcounteren h).
Definition read_time : M Z := h ← get_hart; mret (r_time h).

Definition w_mstatus (x : Z) : M unit := upd_hart (set_r_mstatus x).
Definition w_mepc (x : Z) : M unit := upd_hart (set_r_mepc x).
Definition w_sie (x : Z) : M unit := upd_hart (set_r_sie x).
Definition w_mie (x : Z) : M unit := upd_hart (set_r_mie x).
Definition w_sepc (x : Z) : M unit := upd_hart (set_r_sepc x).
Definition w_medeleg (x : Z) : M unit := upd_hart (set_r_medeleg x).
Definition w_mideleg (x : Z) : M unit := upd_hart (set_r_mideleg x).
Definition w_stvec (x : Z) : M unit := upd_hart (set_r_stvec x).
Definition w_stimecmp (x : Z) : M unit := upd_hart (set_r_stimecmp x).
Definition w_menvcfg (x : Z) : M unit := upd_hart (set_r_menvcfg x).
Definition w_pmpcfg0 (x : Z) : M unit := upd_hart (set_r_pmpcfg0 x).
Definition w_pmpaddr0 (x : Z) : M unit := upd_hart (set_r_pmpaddr0 x).
Definition w_satp (x : Z) : M unit := upd_hart (set_r_satp x).
Definition w_mcounteren (x : Z) : M unit := upd_hart (set_r_mcounteren x).

(** The hart's number, which cpuid returns. *)
Definition r_tp : M Z := c ← gets tp; mret (Z.of_nat c).
Definition w_tp (x : Z) : M unit := modify (set_tp (Z.to_nat x)).

Definition MSTATUS_MPP_MASK : Z := Z.shiftl 3 11.
Definition MSTATUS_MPP_S : Z := Z.shiftl 1 11.
Definition SIE_SEIE : Z := Z.shiftl 1 9.
Definition SIE_STIE : Z := Z.shiftl 1 5.
Definition SIE_SSIE : Z := Z.shiftl 1 1.
Definition MIE_STIE : Z := Z.shiftl 1 5.
