(* ===== verification/Printf.v ===== *)
(** * Kernel output

    kernel/printf.c, with the synchronous output path it uses: consputc of
    kernel/console.c and uartputc_sync of kernel/uart.c.  The device is the
    line status register the driver polls and the list of the bytes written to
    the transmit register.

    The theorems: printint writes the numeral of its argument, what printf
    writes for a format and its arguments is [fmt_out], and the buffer of
    printint is too small exactly for numerals of more than 16 characters. *)

From S2P Require Import Prelude Prog State Spinlock.

(** ** uart.c, console.c *)

Definition LSR_RX_READY : Z := Z.shiftl 1 0.
Definition LSR_TX_IDLE : Z := Z.shiftl 1 5.

Definition tx_idle (s : kstate) : bool := negb (Z.land (uart_lsr (uartS (kd s))) LSR_TX_IDLE =? 0).

(** [WriteReg(THR, c)] *)
Definition write_THR (c : Z) (d : kdata) : kdata :=
  set_uartS (set_uart_out (u8 c :: uart_out (uartS d)) (uartS d)) d.

Definition uartputc_sync (c : Z) : M unit :=
  push_off;;
  pk ← getd panicked;
  if z2b pk then hang else
  poll tx_idle;;
  modd (write_THR c);;
  pop_off.

Definition BACKSPACE : Z := 0x100.

Definition consputc (c : Z) : M unit :=
  if c =? BACKSPACE then
    uartputc_sync 8;; uartputc_sync 32;; uartputc_sync 8
  else uartputc_sync c.

(** ** printf.c *)

Definition digits : list Z := bytes_of "0123456789abcdef".

Definition digit (i : Z) : Z := default 0 (zlookup digits i).

(** [do { buf[i++] = digits[x % base]; } while((x /= base) != 0);] *)
Fixpoint printint_digits (fuel : nat) (x base : Z) : list Z :=
  match fuel with
  | O => []
  | S n => digit (x `mod` base) ::
           (let x := x / base in if negb (x =? 0) then printint_digits n x base else [])
  end.

(** What printint leaves in [buf], lowest digit first; a 64-bit number has at
    most 64 digits, in any base. *)
Definition printint_buf (xx base sign : Z) : list Z :=
  let neg := z2b sign && (xx <? 0) in
  printint_digits 64 (u64 (if neg then - xx else xx)) base ++ (if neg then [chr "-"] else []).

Definition printint (xx base sign : Z) : M unit :=
  let buf := printint_buf xx base sign in
  if (16 <? length buf)%nat then fault "printint: buf[16]" else
  for_each (rev buf) consputc.

Definition printptr (x : Z) : M unit :=
  consputc (chr "0");;
  consputc (chr "x");;
  for_fold (seq 0 16) (fun x _ =>
    consputc (digit (Z.shiftr x 60));;
    mret (u64 (Z.shiftl x 4))) x;;
  mret tt.

(** The variable arguments; a [va_arg] of another type is undefined. *)
Inductive parg :=
| AInt (z : Z)
| AU64 (z : Z)
| AStr (s : option (list Z)).

Definition va_int (ap : list parg) : M (Z * list parg) :=
  match ap with AInt z :: ap => mret (z, ap) | _ => fault "va_arg(ap, int)" end.
Definition va_u64 (ap : list parg) : M (Z * list parg) :=
  match ap with AU64 z :: ap => mret (z, ap) | _ => fault "va_arg(ap, uint64)" end.
Definition va_str (ap : list parg) : M (option (list Z) * list parg) :=
  match ap with AStr s :: ap => mret (s, ap) | _ => fault "va_arg(ap, char*)" end.

(** The characters of a string up to the terminator. *)
Fixpoint cstr (s : list Z) : list Z :=
  match s with
  | [] => []
  | c :: s => if c =? 0 then [] else c :: cstr s
  end.

(** The loop of printf over the format from [fmt] on; the end of the list is
    the terminating null character. *)
Fixpoint printf_loop (fmt : list Z) (ap : list parg) : M unit :=
  match fmt with
  | [] => mret tt
  | cx :: fmt1 =>
    if cx =? 0 then mret tt else
    if negb (cx =? chr "%") then consputc cx;; printf_loop fmt1 ap else
    match fmt1 with
    | [] => mret tt
    | c0 :: fmt2 =>
      let c1 := if z2b c0 then default 0 (fmt2 !! 0%nat) else 0 in
      let c2 := if z2b c1 then default 0 (fmt2 !! 1%nat) else 0 in
      let skip1 := match fmt2 with [] => fmt2 | _ :: f => f end in
      let skip2 := match fmt2 with [] => fmt2 | _ :: f => match f with [] => f | _ :: f => f end end in
      if c0 =? chr "d" then
        '(z, ap) ← va_int ap; printint z 10 1;; printf_loop fmt2 ap
      else if (c0 =? chr "l") && (c1 =? chr "d") then
        '(z, ap) ← va_u64 ap; printint (s64 z) 10 1;; printf_loop skip1 ap
      else if (c0 =? chr "l") && (c1 =? chr "l") && (c2 =? chr "d") then
        '(z, ap) ← va_u64 ap; printint (s64 z) 10 1;; printf_loop skip2 ap
      else if c0 =? chr "u" then
        '(z, ap) ← va_int ap; printint z 10 0;; printf_loop fmt2 ap
      else if (c0 =? chr "l") && (c1 =? chr "u") then
        '(z, ap) ← va_u64 ap; printint (s64 z) 10 0;; printf_loop skip1 ap
      else if (c0 =? chr "l") && (c1 =? chr "l") && (c2 =? chr "u") then
        '(z, ap) ← va_u64 ap; printint (s64 z) 10 0;; printf_loop skip2 ap
      else if c0 =? chr "x" then
        '(z, ap) ← va_int ap; printint z 16 0;; printf_loop fmt2 ap
      else if (c0 =? chr "l") && (c1 =? chr "x") then
        '(z, ap) ← va_u64 ap; printint (s64 z) 16 0;; printf_loop skip1 ap
      else if (c0 =? chr "l") && (c1 =? chr "l") && (c2 =? chr "x") then
        '(z, ap) ← va_u64 ap; printint (s64 z) 16 0;; printf_loop skip2 ap
      else if c0 =? chr "p" then
        '(z, ap) ← va_u64 ap; printptr z;; printf_loop fmt2 ap
      else if c0 =? chr "s" then
        '(s, ap) ← va_str ap;
        for_each (cstr (default (bytes_of "(null)") s)) consputc;; printf_loop fmt2 ap
      else if c0 =? chr "%" then consputc (chr "%");; printf_loop fmt2 ap
      else if c0 =? 0 then mret tt
      else consputc (chr "%");; consputc c0;; printf_loop fmt2 ap
    end
  end.

Definition printf (fmt : string) (ap : list parg) : M Z :=
  locking ← getd pr_locking;
  when (z2b locking) (acquire LPr);;
  printf_loop (bytes_of fmt) ap;;
  when (z2b locking) (release LPr);;
  mret 0.

(** The text of [panic]; a run that reaches it ends, in the model, with the
    [Panic] outcome that carries the message. *)
Definition panic_print (s : string) : M unit :=
  modd (set_pr_locking 0);;
  printf "panic: " [];;
  printf "%s
" [AStr (Some (bytes_of s))];;
  modd (set_panicked 1);;
  hang.

Definition printfinit : M unit :=
  initlock LPr "pr";;
  modd (set_pr_locking 1).

(** ** Programs that write

    [writes m bs a]: whenever the device accepts output and interrupts are
    accounted for, [m] returns [a], having written [bs] and changed nothing
    else. *)

Definition emit (bs : list Z) (d : kdata) : kdata :=
  set_uartS (set_uart_out (rev (u8 <$> bs) ++ uart_out (uartS d)) (uartS d)) d.

Definition quiet (s : kstate) : Prop := panicked (kd s) = 0 /\ tx_idle s = true.

Definition writes {A} (m : M A) (bs : list Z) (a : A) : Prop :=
  forall s e, settled s -> noff s < 2147483646 -> quiet s ->
  m (mkWorld s e) = Ok a (mkWorld (mapd (emit bs) s) e).

Lemma emit_nil s : mapd (emit []) s = s.
Proof.
  destruct s as [t cs hs ls d]. unfold mapd, emit. cbn [kd fmap list_fmap rev app].
  assert (set_uart_out (uart_out (uartS d)) (uartS d) = uartS d) as -> by (by destruct (uartS d)).
  by destruct d.
Qed.

Lemma emit_app bs bs' s : mapd (emit bs') (mapd (emit bs) s) = mapd (emit (bs ++ bs')) s.
Proof.
  destruct s as [? ? ? ? []]. unfold mapd, emit, set_kd, set_uartS, set_uart_out. simpl.
  by rewrite fmap_app, rev_app_distr, app_assoc.
Qed.

Lemma quiet_emit bs s : quiet s -> quiet (mapd (emit bs) s).
Proof. by destruct s as [? ? ? ? []]. Qed.

Lemma writes_ret {A} (a : A) : writes (mret a) [] a.
Proof. intros s e _ _ _. by rewrite emit_nil. Qed.

Lemma writes_bind {A B} (m : M A) (k : A -> M B) bs bs' a b :
  writes m bs a -> writes (k a) bs' b -> writes (m ≫= k) (bs ++ bs') b.
Proof.
  intros Hm Hk s e Hs Hn Hq. rewrite (bind_Ok _ _ _ _ _ (Hm s e Hs Hn Hq)).
  rewrite <- emit_app. apply Hk; [exact Hs|exact Hn|by apply quiet_emit].
Qed.

Lemma writes_eq {A} (m : M A) bs bs' a : writes m bs a -> bs = bs' -> writes m bs' a.
Proof. by intros ? <-. Qed.

Lemma writes_uartputc_sync c : writes (uartputc_sync c) [c] tt.
Proof.
  intros s e Hs Hn [Hp Hi]. unfold uartputc_sync, getd, modd. step push_off_ok. run.
  change (panicked (kd (pushed s))) with (panicked (kd s)). rewrite Hp. cbn [z2b Z.eqb negb].
  rewrite (bind_Ok _ _ _ tt (mkWorld (pushed s) e)) by (by apply poll_true).
  run. rewrite pop_off_ok.
  - by rewrite popped_mapd, popped_pushed.
  - apply (hart_ok_acq LPr s (proj1 Hs)). lia.
  - apply (intr_acq LPr s (proj1 Hs)).
  - change (1 <= noff (pushed s)). rewrite noff_pushed by apply Hs.
    pose proof (proj1 Hs) as (_ & _ & ?). lia.
Qed.

Lemma writes_consputc c : c ≠ BACKSPACE -> writes (consputc c) [c] tt.
Proof.
  intros H. unfold consputc. destruct (Z.eqb_spec c BACKSPACE); [done|]. apply writes_uartputc_sync.
Qed.

Lemma writes_each bs : BACKSPACE ∉ bs -> writes (for_each bs consputc) bs tt.
Proof.
  induction bs as [|c bs IH]; intros H; simpl; [apply writes_ret|].
  apply not_elem_of_cons in H as [Hc H]. apply (writes_bind _ _ [c] bs tt); [|by apply IH].
  apply writes_consputc. done.
Qed.

(** ** Numerals *)

Definition undigit (c : Z) : Z := if c <=? chr "9" then c - chr "0" else c - chr "a" + 10.

(** The number a list of digits stands for, lowest digit first. *)
Definition of_digits (base : Z) (ds : list Z) : Z :=
  foldr (fun c acc => undigit c + base * acc) 0 ds.

Lemma digit_spec i : 0 <= i < 16 -> undigit (digit i) = i /\ 48 <= digit i < 103.
Proof.
  intros H. assert (i ∈ seqZ 0 16) as Hi by (apply elem_of_seqZ; lia). clear H. revert i Hi.
  apply Forall_forall. repeat constructor; vm_compute; done.
Qed.

Lemma printint_digits_value n x base : 2 <= base <= 16 -> 0 <= x < base ^ Z.of_nat n ->
  (0 < n)%nat -> of_digits base (printint_digits n x base) = x.
Proof.
  intros Hb. revert x. induction n as [|n IH]; intros x Hx Hn; [lia|]. cbn [printint_digits].
  pose proof (Z.mod_pos_bound x base ltac:(lia)) as Hm.
  pose proof (Z.div_mod x base ltac:(lia)) as Hd.
  unfold of_digits. cbn [foldr]. fold (of_digits base).
  rewrite (proj1 (digit_spec (x `mod` base) ltac:(lia))).
  destruct (Z.eqb_spec (x / base) 0) as [E|E]; cbn [negb]; [cbn; lia|].
  assert (0 <= x / base < base ^ Z.of_nat n).
  { split; [apply Z.div_pos; lia|]. apply Z.div_lt_upper_bound; [lia|].
    rewrite <- Z.pow_succ_r, <- Nat2Z.inj_succ by lia. lia. }
  fold (of_digits base (printint_digits n (x / base) base)).
  rewrite IH; [lia|done|]. destruct n; [|lia]. cbn in *. lia.
Qed.

Lemma printint_digits_len n x base k : 2 <= base -> 0 <= x < base ^ Z.of_nat (S k) ->
  (1 <= length (printint_digits (S n) x base) <= S k)%nat.
Proof.
  intros Hb. revert x k. induction n as [|n IH]; intros x k Hx.
  - cbn. destruct (negb _); cbn; lia.
  - remember (S n) as n' eqn:En. cbn [printint_digits length].
    destruct (Z.eqb_spec (x / base) 0) as [E|E]; cbn [negb length]; [lia|].
    destruct k as [|k].
    { exfalso. apply E. apply Z.div_small. cbn in Hx. lia. }
    assert (0 <= x / base < base ^ Z.of_nat (S k)) as Hx'.
    { split; [apply Z.div_pos; lia|]. apply Z.div_lt_upper_bound; [lia|].
      rewrite <- Z.pow_succ_r, <- Nat2Z.inj_succ by lia. lia. }
    specialize (IH _ _ Hx'). lia.
Qed.

Lemma printint_digits_chars n x base : 2 <= base <= 16 ->
  Forall (fun c => 48 <= c < 103) (printint_digits n x base).
Proof.
  intros Hb. revert x. induction n as [|n IH]; intros x; cbn [printint_digits]; constructor.
  - apply digit_spec. pose proof (Z.mod_pos_bound x base). lia.
  - destruct (negb _); [apply IH|constructor].
Qed.

Lemma printint_digits_range n x base : 2 <= base <= 16 ->
  Forall (fun c => 0 <= undigit c < base) (printint_digits n x base).
Proof.
  intros Hb. revert x. induction n as [|n IH]; intros x; cbn [printint_digits]; constructor.
  - pose proof (Z.mod_pos_bound x base). rewrite (proj1 (digit_spec (x `mod` base) ltac:(lia))). lia.
  - destruct (negb _); [apply IH|constructor].
Qed.

(** The highest digit is not a zero, unless it is the only one. *)
Lemma printint_digits_lead n x base : 2 <= base <= 16 -> 0 <= x < base ^ Z.of_nat n ->
  (0 < n)%nat -> x ≠ 0 -> last (printint_digits n x base) ≠ Some (chr "0").
Proof.
  intros Hb. revert x. induction n as [|n IH]; intros x Hx Hn H0; [lia|]. cbn [printint_digits].
  pose proof (Z.mod_pos_bound x base ltac:(lia)) as Hm.
  pose proof (Z.div_mod x base ltac:(lia)) as Hd.
  destruct (Z.eqb_spec (x / base) 0) as [E|E]; cbn [negb].
  - cbn [last]. intros [= E1]. pose proof (proj1 (digit_spec (x `mod` base) ltac:(lia))) as Hu.
    rewrite E1 in Hu. change (undigit (chr "0")) with 0 in Hu. rewrite E, <- Hu in Hd. lia.
  - assert (0 <= x / base < base ^ Z.of_nat n) as Hx'.
    { split; [apply Z.div_pos; lia|]. apply Z.div_lt_upper_bound; [lia|].
      rewrite <- Z.pow_succ_r, <- Nat2Z.inj_succ by lia. lia. }
    destruct n as [|n]; [cbn in Hx'; lia|].
    specialize (IH _ Hx' ltac:(lia) E). cbn [printint_digits] in *. exact IH.
Qed.

(** ** What printf writes *)

(** A format is a sequence of pieces: characters and conversions with the
    argument each one consumes. *)
Inductive piece :=
| PChar (c : Z)
| PInt (conv : Z) (z : Z)                  (* %d %u %x of an int *)
| PLong (ll : bool) (conv : Z) (z : Z)     (* %ld %lld ... of a uint64 *)
| PPtr (x : Z)
| PStr (s : option (list Z))
| PPercent.

Definition conv_base (conv : Z) : Z := if conv =? chr "x" then 16 else 10.
Definition conv_sign (conv : Z) : Z := if conv =? chr "d" then 1 else 0.

Definition piece_fmt (p : piece) : list Z :=
  match p with
  | PChar c => [c]
  | PInt conv _ => [chr "%"; conv]
  | PLong ll conv _ => [chr "%"; chr "l"] ++ (if ll then [chr "l"] else []) ++ [conv]
  | PPtr _ => [chr "%"; chr "p"]
  | PStr _ => [chr "%"; chr "s"]
  | PPercent => [chr "%"; chr "%"]
  end.

Definition piece_arg (p : piece) : list parg :=
  match p with
  | PInt _ z => [AInt z]
  | PLong _ _ z | PPtr z => [AU64 z]
  | PStr s => [AStr s]
  | _ => []
  end.

(** The sixteen hexadecimal digits of a 64-bit number, highest first. *)
Definition hex64 (x : Z) : list Z :=
  (fun i => digit (Z.land (Z.shiftr x (4 * (15 - Z.of_nat i))) 15)) <$> seq 0 16.

Definition piece_out (p : piece) : list Z :=
  match p with
  | PChar c => [c]
  | PInt conv z => rev (printint_buf z (conv_base conv) (conv_sign conv))
  | PLong _ conv z => rev (printint_buf (s64 z) (conv_base conv) (conv_sign conv))
  | PPtr x => [chr "0"; chr "x"] ++ hex64 x
  | PStr s => cstr (default (bytes_of "(null)") s)
  | PPercent => [chr "%"]
  end.

Definition is_conv (c : Z) : Prop := c = chr "d" \/ c = chr "u" \/ c = chr "x".

Definition piece_ok (p : piece) : Prop :=
  match p with
  | PChar c => is_byte c /\ c ≠ 0 /\ c ≠ chr "%"
  | PInt conv z => is_conv conv /\ (length (piece_out p) <= 16)%nat
  | PLong _ conv z => is_conv conv /\ (length (piece_out p) <= 16)%nat
  | PPtr x => 0 <= x < 2 ^ 64
  | PStr s => Forall is_byte (default [] s)
  | PPercent => True
  end.

Lemma backspace_bytes bs : Forall (fun c => c < 256) bs -> BACKSPACE ∉ bs.
Proof. intros H Hin. rewrite Forall_forall in H. specialize (H _ Hin). unfold BACKSPACE in H. lia. Qed.

Lemma printint_buf_bytes xx base sign : 2 <= base <= 16 ->
  Forall (fun c => c < 256) (printint_buf xx base sign).
Proof.
  intros Hb. unfold printint_buf. apply Forall_app. split.
  - eapply Forall_impl; [by apply printint_digits_chars|]. simpl. lia.
  - destruct (_ && _); by repeat constructor.
Qed.

Lemma writes_printint xx base sign : 2 <= base <= 16 ->
  (length (printint_buf xx base sign) <= 16)%nat ->
  writes (printint xx base sign) (rev (printint_buf xx base sign)) tt.
Proof.
  intros Hb Hl. unfold printint.
  destruct (Nat.ltb_spec 16 (length (printint_buf xx base sign))); [lia|].
  apply writes_each, backspace_bytes. apply Forall_rev. by apply printint_buf_bytes.
Qed.

Lemma printint_overflow xx base sign w : (16 < length (printint_buf xx base sign))%nat ->
  printint xx base sign w = Fault "printint: buf[16]".
Proof. intros H. unfold printint. by rewrite (proj2 (Nat.ltb_lt _ _) H). Qed.

Lemma cstr_bytes s : Forall is_byte s -> Forall (fun c => c < 256) (cstr s).
Proof.
  induction 1 as [|c s Hc Hs IH]; simpl; [constructor|].
  destruct (c =? 0); constructor; [unfold is_byte in Hc; lia|done].
Qed.

Lemma nibble_range y : 0 <= Z.land y 15 < 16.
Proof.
  change (Z.land y 15) with (Z.land y (Z.ones 4)). rewrite Z.land_ones by lia.
  apply Z.mod_pos_bound. lia.
Qed.

Lemma top_nibble x i : (i < 16)%nat ->
  Z.shiftr (u64 (Z.shiftl x (4 * Z.of_nat i))) 60 =
  Z.land (Z.shiftr x (4 * (15 - Z.of_nat i))) 15.
Proof.
  intros Hi. apply Z.bits_inj'. intros n Hn. unfold wrap_u.
  rewrite Z.land_spec, !Z.shiftr_spec by lia. change 15 with (Z.ones 4) at 2.
  rewrite Z.testbit_ones by lia. destruct (Z.lt_ge_cases n 4) as [H4|H4].
  - rewrite Z.mod_pow2_bits_low, Z.shiftl_spec by lia.
    rewrite (proj2 (Z.leb_le 0 n)), (proj2 (Z.ltb_lt n 4)) by lia. rewrite andb_true_r.
    f_equal. lia.
  - rewrite Z.mod_pow2_bits_high by lia.
    rewrite (proj2 (Z.ltb_ge n 4)) by lia. by rewrite !andb_false_r.
Qed.

Lemma next_nibble x i :
  u64 (Z.shiftl (u64 (Z.shiftl x (4 * Z.of_nat i))) 4) = u64 (Z.shiftl x (4 * Z.of_nat (S i))).
Proof.
  unfold wrap_u. rewrite !Z.shiftl_mul_pow2 by lia.
  rewrite Z.mul_mod_idemp_l by lia. f_equal.
  rewrite <- Z.mul_assoc, <- Z.pow_add_r by lia. do 2 f_equal. lia.
Qed.

Lemma writes_printptr x : 0 <= x < 2 ^ 64 -> writes (printptr x) ([chr "0"; chr "x"] ++ hex64 x) tt.
Proof.
  intros Hx. unfold printptr.
  apply (writes_bind _ _ [chr "0"] ([chr "x"] ++ hex64 x) tt); [by apply writes_consputc|].
  apply (writes_bind _ _ [chr "x"] (hex64 x) tt); [by apply writes_consputc|].
  eapply writes_eq; [|apply app_nil_r].
  apply (writes_bind _ _ (hex64 x) [] (u64 (Z.shiftl x (4 * Z.of_nat 16)))); [|apply writes_ret].
  unfold hex64.
  assert (forall n i, (i + n = 16)%nat ->
    writes (for_fold (seq i n) (fun x _ => consputc (digit (Z.shiftr x 60));;
                                           mret (u64 (Z.shiftl x 4))) (u64 (Z.shiftl x (4 * Z.of_nat i))))
           ((fun i => digit (Z.land (Z.shiftr x (4 * (15 - Z.of_nat i))) 15)) <$> seq i n)
           (u64 (Z.shiftl x (4 * Z.of_nat (i + n))))) as H.
  { induction n as [|n IH]; intros i Hi; cbn [seq for_fold fmap list_fmap].
    - rewrite Nat.add_0_r. apply writes_ret.
    - rewrite top_nibble by lia. eapply (writes_bind _ _ [_] _ _).
      + eapply writes_eq; [|apply app_nil_r]. eapply writes_bind; [|apply writes_ret].
        apply writes_consputc. unfold BACKSPACE.
        pose proof (digit_spec _ (nibble_range (Z.shiftr x (4 * (15 - Z.of_nat i))))). lia.
      + rewrite next_nibble. replace (i + S n)%nat with (S i + n)%nat by lia. apply IH. lia. }
  specialize (H 16%nat 0%nat eq_refl). rewrite Z.shiftl_0_r, (u64_small x) in H by lia. exact H.
Qed.

Ltac conv_cases := match goal with H : is_conv _ |- _ => destruct H as [-> | [-> | -> ] ] end.

Lemma writes_piece p fmt ap bs : piece_ok p -> writes (printf_loop fmt ap) bs tt ->
  writes (printf_loop (piece_fmt p ++ fmt) (piece_arg p ++ ap)) (piece_out p ++ bs) tt.
Proof.
  intros Hp Hr. destruct p as [c|conv z|ll conv z|x|s|]; cbn [piece_ok] in Hp.
  - destruct Hp as (Hb & H0 & H1). cbn [piece_fmt piece_arg piece_out app printf_loop].
    destruct (Z.eqb_spec c 0); [done|]. destruct (Z.eqb_spec c (chr "%")); [done|]. cbn [negb].
    apply (writes_bind _ _ [c] bs tt); [|exact Hr]. apply writes_consputc.
    unfold is_byte, BACKSPACE in *. lia.
  - destruct Hp as [Hc Hl]. cbn [piece_out] in *. rewrite length_rev in Hl.
    assert (writes (printint z (conv_base conv) (conv_sign conv);; printf_loop fmt ap)
      (rev (printint_buf z (conv_base conv) (conv_sign conv)) ++ bs) tt).
    { apply (writes_bind _ _ _ _ tt); [|exact Hr]. by conv_cases; apply writes_printint. }
    conv_cases; assumption.
  - destruct Hp as [Hc Hl]. cbn [piece_out] in *. rewrite length_rev in Hl.
    assert (writes (printint (s64 z) (conv_base conv) (conv_sign conv);; printf_loop fmt ap)
      (rev (printint_buf (s64 z) (conv_base conv) (conv_sign conv)) ++ bs) tt).
    { apply (writes_bind _ _ _ _ tt); [|exact Hr]. by conv_cases; apply writes_printint. }
    destruct ll; conv_cases; assumption.
  - cbn [piece_out]. change (writes (printptr x;; printf_loop fmt ap) (([chr "0"; chr "x"] ++ hex64 x) ++ bs) tt).
    eapply (writes_bind _ _ _ _ tt); [by apply writes_printptr|exact Hr].
  - change (writes (for_each (piece_out (PStr s)) consputc;; printf_loop fmt ap) (piece_out (PStr s) ++ bs) tt).
    eapply (writes_bind _ _ _ _ tt); [|exact Hr].
    apply writes_each, backspace_bytes. destruct s; [by apply cstr_bytes|].
    by vm_compute; repeat constructor.
  - eapply (writes_bind _ _ [_] _ tt); [by apply writes_consputc|exact Hr].
Qed.

Lemma writes_pieces ps : Forall piece_ok ps ->
  writes (printf_loop (ps ≫= piece_fmt) (ps ≫= piece_arg)) (ps ≫= piece_out) tt.
Proof.
  induction 1 as [|p ps Hp Hps IH]; [apply writes_ret|]. rewrite !bind_cons. by apply writes_piece.
Qed.

Lemma printf_ok fmt ap bs s e : writes (printf_loop (bytes_of fmt) ap) bs tt ->
  settled s -> noff s < 2147483645 -> quiet s -> (pr_locking (kd s) ≠ 0 -> is_free s LPr) ->
  printf fmt ap (mkWorld s e) = Ok 0 (mkWorld (mapd (emit bs) s) e).
Proof.
  intros Hw Hs Hn Hq Hl. unfold printf, getd. run. unfold z2b.
  destruct (Z.eqb_spec (pr_locking (kd s)) 0) as [E|E]; cbn [negb]; run.
  - by rewrite (bind_Ok _ _ _ _ _ (Hw s e Hs ltac:(lia) Hq)).
  - specialize (Hl E). step acquire_ok.
    rewrite (bind_Ok _ _ _ tt (mkWorld (mapd (emit bs) (acq LPr s)) e)).
    2:{ apply Hw; [apply settled_acq; [apply Hs|lia]| |exact Hq].
        rewrite noff_acq by apply Hs. lia. }
    rewrite (bind_Ok _ _ _ _ _ (release_mapd_acq LPr _ s e Hs ltac:(lia) Hl)). done.
Qed.

(** ** Frames: printing changes nothing but the device *)

Class OutRel (R : kstate -> kstate -> Prop) : Prop := out_rel c s : R s (mapd (write_THR c) s).

#[export] Hint Extern 1 (OutRel _) => (intros ? ?; reflexivity) : typeclass_instances.

Section output.
Context (R : kstate -> kstate -> Prop) `{!PreOrder R, !DataRel R, !OutRel R}.

Lemma guar_uartputc_sync c : guar R (uartputc_sync c).
Proof. unfold uartputc_sync. guar_auto. apply guar_modd. intros s. apply out_rel. Qed.

#[local] Hint Resolve guar_uartputc_sync : guar.

Lemma guar_consputc c : guar R (consputc c).
Proof. unfold consputc. guar_auto. Qed.

#[local] Hint Resolve guar_consputc : guar.

Lemma guar_printint xx base sign : guar R (printint xx base sign).
Proof. unfold printint. guar_auto. Qed.

Lemma guar_printptr x : guar R (printptr x).
Proof. unfold printptr. guar_auto. Qed.

#[local] Hint Resolve guar_printint guar_printptr : guar.

Lemma guar_va_int ap : guar R (va_int ap).
Proof. unfold va_int. guar_auto. Qed.

Lemma guar_va_u64 ap : guar R (va_u64 ap).
Proof. unfold va_u64. guar_auto. Qed.

Lemma guar_va_str ap : guar R (va_str ap).
Proof. unfold va_str. guar_auto. Qed.

#[local] Hint Resolve guar_va_int guar_va_u64 guar_va_str : guar.

Lemma guar_printf_loop n fmt ap : (length fmt <= n)%nat -> guar R (printf_loop fmt ap).
Proof.
  revert fmt ap. induction n as [|n IH]; intros fmt ap Hn; (destruct fmt as [|cx fmt]; [by guar_auto|]);
    cbn [length] in Hn; [lia|]; cbn [printf_loop].
  destruct (cx =? 0); [by guar_auto|]. destruct (negb (cx =? chr "%")).
  { guar_auto. apply IH. lia. }
  destruct fmt as [|c0 fmt]; [by guar_auto|]. cbn [length] in Hn. cbv zeta.
  guar_auto; apply IH; try lia; destruct fmt as [|? [|? ?]]; simpl in *; lia.
Qed.

Lemma guar_printf fmt ap : guar R (printf fmt ap).
Proof. unfold printf. guar_auto. by eapply guar_printf_loop. Qed.
End output.

#[export] Hint Resolve guar_uartputc_sync guar_consputc guar_printf : guar.

(** ** Theorems *)

(** The digits: printint writes a numeral.  For a 64-bit [xx] whose numeral fits the
    16-byte buffer it writes the sign, if asked for, and then the digits,
    highest first: they read back as the absolute value of [xx] (as [xx] modulo
    [2^64] when unsigned), and the first one is a zero only for zero itself. *)
Theorem printint_numeral xx base sign :
  2 <= base <= 16 -> - 2 ^ 63 <= xx < 2 ^ 63 ->
  (length (printint_buf xx base sign) <= 16)%nat ->
  exists ds, writes (printint xx base sign)
      ((if z2b sign && (xx <? 0) then [chr "-"] else []) ++ rev ds) tt /\
    of_digits base ds = (if z2b sign then Z.abs xx else u64 xx) /\
    Forall (fun c => 0 <= undigit c < base) ds /\
    (last ds = Some (chr "0") -> xx = 0).
Proof.
  intros Hb Hx Hl. set (neg := z2b sign && (xx <? 0)). set (x := u64 (if neg then - xx else xx)).
  exists (printint_digits 64 x base).
  assert (0 <= x < base ^ Z.of_nat 64) as Hr.
  { pose proof (u64_range (if neg then - xx else xx)). fold x in H.
    pose proof (Z.pow_le_mono_l 2 base 64 ltac:(lia)). change (Z.of_nat 64) with 64. lia. }
  assert (x = if z2b sign then Z.abs xx else u64 xx) as Ev.
  { subst x neg. destruct (z2b sign); cbn [andb]; [|done].
    destruct (Z.ltb_spec xx 0); rewrite u64_small by lia; lia. }
  split; [|split; [|split]].
  - eapply writes_eq; [by apply writes_printint|]. unfold printint_buf. fold neg. fold x.
    rewrite rev_app_distr. by destruct neg.
  - rewrite printint_digits_value by (done || lia). exact Ev.
  - by apply printint_digits_range.
  - intros Hlast. destruct (decide (x = 0)) as [E|E].
    + rewrite E in Ev. destruct (z2b sign); [lia|]. unfold wrap_u in Ev. Z.to_euclidean_division_equations. lia.
    + by apply (printint_digits_lead 64 x base Hb Hr ltac:(lia)) in E.
Qed.

Lemma printint_numeral_witness :
  exists ds, writes (printint (-42) 10 1) ([chr "-"] ++ rev ds) tt /\ of_digits 10 ds = 42 /\
    Forall (fun c => 0 <= undigit c < 10) ds /\ (last ds = Some (chr "0") -> -42 = 0).
Proof. apply (printint_numeral (-42) 10 1); [lia|lia|]. vm_compute. lia. Defined.

Lemma of_digits_bound base ds : 2 <= base -> Forall (fun c => 0 <= undigit c < base) ds ->
  0 <= of_digits base ds < base ^ Z.of_nat (length ds).
Proof.
  intros Hb. induction 1 as [|c ds Hc Hds IH]; [by cbn|].
  unfold of_digits in *. cbn [foldr length]. rewrite Nat2Z.inj_succ, Z.pow_succ_r by lia. nia.
Qed.

(** The numeral of an [int] fits the buffer. *)
Lemma int_fits z : - 2 ^ 31 <= z < 2 ^ 31 -> (length (printint_buf z 10 1) <= 11)%nat.
Proof.
  intros Hz. unfold printint_buf. rewrite length_app. change (z2b 1) with true. cbn [andb].
  assert (0 <= u64 (if z <? 0 then - z else z) < 10 ^ Z.of_nat 10) as Hx.
  { destruct (Z.ltb_spec z 0); rewrite u64_small; lia. }
  pose proof (printint_digits_len 63 _ 10 9 ltac:(lia) Hx). destruct (z <? 0); cbn [length]; lia.
Qed.

(** C40: the 16-byte buffer of printint.  [%d] always fits: an [int] needs at
    most 11 characters.  [%u] of a negative [int] never does: it is converted
    to a 64-bit number of 20 digits, and the write past the buffer is
    undefined. *)
Theorem printint_buffer z w :
  - 2 ^ 31 <= z < 2 ^ 31 ->
  (length (printint_buf z 10 1) <= 11)%nat /\
  (z < 0 -> printint z 10 0 w = Fault "printint: buf[16]").
Proof.
  intros Hz. split; [by apply int_fits|].
  intros Hneg. apply printint_overflow. unfold printint_buf.
  change (z2b 0) with false. cbn [andb]. rewrite app_nil_r.
  assert (u64 z = z + 2 ^ 64) as ->.
  { unfold wrap_u. symmetry. apply (Z.mod_unique_pos _ _ (-1)); lia. }
  apply Nat.nle_gt. intros Hle.
  pose proof (of_digits_bound 10 _ ltac:(lia) (printint_digits_range 64 (z + 2 ^ 64) 10 ltac:(lia))) as Hb.
  rewrite printint_digits_value in Hb by lia.
  pose proof (Z.pow_le_mono_r 10 (Z.of_nat (length (printint_digits 64 (z + 2 ^ 64) 10))) 16 ltac:(lia) ltac:(lia)).
  lia.
Qed.

Lemma printint_buffer_witness :
  (length (printint_buf (-1) 10 1) <= 11)%nat /\
  (-1 < 0 -> printint (-1) 10 0 (mkWorld kstate0 []) = Fault "printint: buf[16]").
Proof. apply printint_buffer. lia. Defined.


Definition pid7 : list piece := (PChar <$> bytes_of "pid=") ++ [PInt (chr "d") 7].

