(* ===== verification/Switch.v ===== *)
(** * Switching, sleeping and waking

    The part of kernel/proc.c by which a kernel thread gives up its hart and is
    made runnable again: myproc, sched, yield, sleep, wakeup, kill, setkilled
    and killed.  [swtch] saves this thread and resumes the scheduler of the
    hart; what runs until this thread is resumed is one step of the
    environment.

    The theorems: sleep parks the process with the condition lock free and its
    own lock held until the scheduler drops it, so that no wakeup is lost;
    wakeup makes exactly the sleepers of its channel runnable; kill marks the
    first process with the pid and wakes it; sched refuses a caller that does
    not hold exactly its own lock. *)

From S2P Require Import Prelude Prog State Spinlock.

(** ** proc.c *)

Definition myproc : M (option nat) :=
  push_off;;
  c ← mycpu;
  cp ← get_cpu c;
  let p := c_proc cp in
  pop_off;;
  mret p.

(** [swtch(&from, &to)]: the rest of the machine runs until this thread is
    resumed. *)
Definition swtch : M unit := env_step.

Definition sched : M unit :=
  p ← myproc;
  p ← nonnull p;
  h ← holding (LProc p);
  if negb h then panic "sched p->lock" else
  c ← mycpu;
  cp ← get_cpu c;
  if negb (c_noff cp =? 1) then panic "sched locks" else
  pr ← get_proc p;
  if bool_decide (p_state pr = RUNNING) then panic "sched running" else
  i ← intr_get;
  if z2b i then panic "sched interruptible" else
  c ← mycpu;
  cp ← get_cpu c;
  let intena := c_intena cp in
  swtch;;
  c ← mycpu;
  upd_cpu c (set_c_intena intena).

Definition yield : M unit :=
  p ← myproc;
  p ← nonnull p;
  acquire (LProc p);;
  upd_proc p (set_p_state RUNNABLE);;
  sched;;
  release (LProc p).

Definition sleep (chan : channel) (lk : lockid) : M unit :=
  p ← myproc;
  p ← nonnull p;
  acquire (LProc p);;
  release lk;;
  upd_proc p (set_p_chan chan);;
  upd_proc p (set_p_state SLEEPING);;
  sched;;
  upd_proc p (set_p_chan CNull);;
  release (LProc p);;
  acquire lk.

Definition wakeup (chan : channel) : M unit :=
  for_each (seq 0 NPROC) (fun p =>
    me ← myproc;
    when (negb (bool_decide (Some p = me))) (
      acquire (LProc p);;
      pr ← get_proc p;
      when (bool_decide (p_state pr = SLEEPING) && bool_decide (p_chan pr = chan))
        (upd_proc p (set_p_state RUNNABLE));;
      release (LProc p))).

Definition kill (pid : Z) : M Z :=
  r ← for_find (seq 0 NPROC) (fun p =>
    acquire (LProc p);;
    pr ← get_proc p;
    if p_pid pr =? pid then
      upd_proc p (set_p_killed 1);;
      pr ← get_proc p;
      when (bool_decide (p_state pr = SLEEPING)) (upd_proc p (set_p_state RUNNABLE));;
      release (LProc p);;
      mret (Some 0)
    else
      release (LProc p);;
      mret None);
  mret (default (-1) r).

Definition setkilled (p : nat) : M unit :=
  acquire (LProc p);;
  upd_proc p (set_p_killed 1);;
  release (LProc p).

Definition killed (p : nat) : M Z :=
  acquire (LProc p);;
  pr ← get_proc p;
  let k := p_killed pr in
  release (LProc p);;
  mret k.

(** ** Effects *)

(** [f] applied to the process in slot [p]. *)
Definition at_proc (p : nat) (f : proc -> proc) (d : kdata) : kdata :=
  set_procs (alter f p (procs d)) d.

Definition cur (s : kstate) : option nat := c_proc (cpu_of s).

Definition procs_free (s : kstate) : Prop := forall p, (p < NPROC)%nat -> is_free s (LProc p).
Definition table_ok (s : kstate) : Prop := length (procs (kd s)) = NPROC.

Lemma get_proc_ok p pr s e : procs (kd s) !! p = Some pr ->
  get_proc p (mkWorld s e) = Ok pr (mkWorld s e).
Proof. intros H. unfold get_proc, getd. run. by rewrite H. Qed.

Lemma upd_proc_ok p f pr s e : procs (kd s) !! p = Some pr ->
  upd_proc p f (mkWorld s e) = Ok tt (mkWorld (mapd (at_proc p f) s) e).
Proof. intros H. unfold upd_proc, modd. step get_proc_ok. by run. Qed.

Lemma at_proc_lookup p f d pr : procs d !! p = Some pr -> procs (at_proc p f d) !! p = Some (f pr).
Proof. intros H. cbn. by rewrite list_lookup_alter_eq, H. Qed.

Lemma at_proc_lookup_ne p q f d : p ≠ q -> procs (at_proc p f d) !! q = procs d !! q.
Proof. intros H. cbn. by rewrite list_lookup_alter_ne. Qed.

Lemma at_proc_at_proc p f g d : at_proc p f (at_proc p g d) = at_proc p (fun pr => f (g pr)) d.
Proof.
  unfold at_proc. destruct d. unfold set_procs. cbn. f_equal. apply list_alter_alter.
Qed.

Lemma at_proc_id p d : at_proc p (fun pr => pr) d = d.
Proof. unfold at_proc. rewrite (list_alter_id (fun x => x)) by done. by destruct d. Qed.

Lemma at_proc_ext p f g d : (forall pr, procs d !! p = Some pr -> f pr = g pr) -> at_proc p f d = at_proc p g d.
Proof.
  intros H. unfold at_proc. f_equal. apply list_eq. intros i. destruct (decide (p = i)) as [<-|].
  - rewrite !list_lookup_alter_eq. destruct (procs d !! p) eqn:E; [|done]. cbn. f_equal. by apply H.
  - by rewrite !list_lookup_alter_ne.
Qed.

#[export] Hint Resolve at_proc_lookup : xv6.

Lemma table_lookup s p : table_ok s -> (p < NPROC)%nat -> exists pr, procs (kd s) !! p = Some pr.
Proof. intros H Hp. apply lookup_lt_is_Some. by rewrite H. Qed.

Lemma table_ok_at_proc p f s : table_ok s -> table_ok (mapd (at_proc p f) s).
Proof. intros H. unfold table_ok. cbn. by rewrite length_alter. Qed.

Lemma myproc_ok s e : settled s -> noff s < 2147483646 ->
  myproc (mkWorld s e) = Ok (cur s) (mkWorld s e).
Proof.
  intros Hs Hn. pose proof (proj1 Hs) as (Hh & Hc & Hr). unfold myproc, mycpu, cpuid.
  step push_off_ok. run.
  assert (is_Some (cpus (pushed s) !! tp (pushed s))) as Hc1 by apply (hart_ok_acq LPr s (proj1 Hs) Hn).
  rewrite (bind_Ok _ _ _ _ _ (get_cpu_ok _ _ e eq_refl Hc1)).
  rewrite (bind_Ok _ _ _ tt (mkWorld s e)).
  - run. do 2 f_equal. unfold cur, pushed. rewrite cpu_of_put_cpu by done. by destruct (noff s =? 0).
  - rewrite pop_off_ok; [by rewrite popped_pushed| | |].
    + apply (hart_ok_acq LPr s (proj1 Hs)). lia.
    + apply (intr_acq LPr s (proj1 Hs)).
    + rewrite noff_pushed by apply Hs. lia.
Qed.

(** *** Loops over the process table *)

Lemma for_each_mapd {B} (P : kstate -> Prop) (F : B -> kdata -> kdata) (body : B -> M unit) l s e :
  (forall x s, x ∈ l -> P s -> body x (mkWorld s e) = Ok tt (mkWorld (mapd (F x) s) e) /\ P (mapd (F x) s)) ->
  P s ->
  for_each l body (mkWorld s e) = Ok tt (mkWorld (mapd (fun d => foldl (fun d x => F x d) d l) s) e).
Proof.
  revert s. induction l as [|x l IH]; intros s H HP; cbn [for_each foldl].
  - by rewrite mapd_id.
  - destruct (H x s ltac:(by left) HP) as [E HP']. rewrite (bind_Ok _ _ _ _ _ E), IH; [|by eauto using list_elem_of_further|done].
    by rewrite mapd_mapd.
Qed.

(** [g i] applied to the process in each slot [i]. *)
Definition all_procs (g : nat -> proc -> proc) (d : kdata) : kdata := set_procs (imap g (procs d)) d.

Lemma foldl_alter_imap {A} (g : nat -> A -> A) (l1 l2 : list A) :
  foldl (fun l i => alter (g i) i l) (l1 ++ l2) (seq (length l1) (length l2)) =
  l1 ++ imap (fun i => g (length l1 + i)%nat) l2.
Proof.
  revert l1. induction l2 as [|x l2 IH]; intros l1; [done|]. cbn [length seq foldl imap].
  rewrite alter_app_r_alt, Nat.sub_diag by lia.
  change (alter (g (length l1)) 0%nat (x :: l2)) with (g (length l1) x :: l2).
  specialize (IH (l1 ++ [g (length l1) x])). rewrite length_app in IH. cbn [length] in IH.
  rewrite Nat.add_1_r, <- app_assoc in IH. cbn [app] in IH. rewrite IH, <- app_assoc.
  cbn [app]. f_equal. rewrite Nat.add_0_r. f_equal. apply imap_ext. intros i y _. cbn. f_equal. lia.
Qed.

Lemma foldl_at_proc g d : length (procs d) = NPROC ->
  foldl (fun d p => at_proc p (g p) d) d (seq 0 NPROC) = all_procs g d.
Proof.
  intros <-. unfold all_procs. pose proof (foldl_alter_imap g [] (procs d)) as H. cbn [app length] in H.
  transitivity (set_procs (foldl (fun l i => alter (g i) i l) (procs d) (seq 0 (length (procs d)))) d);
    [|by rewrite H].
  clear H. generalize (seq 0 (length (procs d))) as l.
  intros l. revert d. induction l as [|p l IH]; intros d; cbn [foldl]; [by destruct d|].
  rewrite IH. by destruct d.
Qed.

(** What wakeup does to one process. *)
Definition woken (chan : channel) (pr : proc) : proc :=
  if bool_decide (p_state pr = SLEEPING) && bool_decide (p_chan pr = chan)
  then set_p_state RUNNABLE pr else pr.

Definition wake_eff (chan : channel) (me : option nat) (i : nat) (pr : proc) : proc :=
  if bool_decide (Some i = me) then pr else woken chan pr.

(** Every process lock but the caller's own is free. *)
Definition others_free (s : kstate) : Prop :=
  forall p, (p < NPROC)%nat -> Some p ≠ cur s -> is_free s (LProc p).

Lemma when_upd_proc p (c : bool) f pr s e : procs (kd s) !! p = Some pr ->
  when c (upd_proc p f) (mkWorld s e) =
  Ok tt (mkWorld (mapd (at_proc p (fun pr => if c then f pr else pr)) s) e).
Proof.
  intros H. destruct c; cbn [when]; [by eapply upd_proc_ok|]. run.
  replace (mapd _ s) with (mapd (fun d => d) s); [by rewrite mapd_id|].
  unfold mapd. by rewrite at_proc_id.
Qed.

(** A test and an update of one process under its lock. *)
Lemma locked_update p (c : proc -> bool) f pr s e :
  settled s -> noff s < 2147483646 -> is_free s (LProc p) -> procs (kd s) !! p = Some pr ->
  (acquire (LProc p);; pr ← get_proc p; when (c pr) (upd_proc p f);; release (LProc p)) (mkWorld s e) =
  Ok tt (mkWorld (mapd (at_proc p (fun pr => if c pr then f pr else pr)) s) e).
Proof.
  intros Hs Hn Hf Hp. step acquire_ok.
  rewrite (bind_Ok _ _ _ _ _ (get_proc_ok p pr (acq (LProc p) s) e Hp)).
  rewrite (bind_Ok _ _ _ _ _ (when_upd_proc p (c pr) f pr (acq (LProc p) s) e Hp)).
  rewrite release_mapd_acq by done. do 2 f_equal. unfold mapd. f_equal.
  apply at_proc_ext. intros pr' E. rewrite Hp in E. by injection E as <-.
Qed.

Lemma wakeup_ok chan s e : settled s -> noff s < 2147483645 -> table_ok s -> others_free s ->
  wakeup chan (mkWorld s e) = Ok tt (mkWorld (mapd (all_procs (wake_eff chan (cur s))) s) e).
Proof.
  intros Hs Hn Ht Hf. unfold wakeup.
  rewrite (for_each_mapd (fun s' => exists f, s' = mapd f s /\ table_ok s')
             (fun p => at_proc p (wake_eff chan (cur s) p))).
  - do 2 f_equal. unfold mapd. f_equal. by apply foldl_at_proc.
  - intros p s1 Hp (f & -> & Ht1). apply elem_of_seq in Hp.
    split; [|by eexists (fun d => _); split; [|by apply table_ok_at_proc]; rewrite mapd_mapd].
    rewrite (bind_Ok _ _ _ _ _ (myproc_ok (mapd f s) e Hs ltac:(change (noff s < 2147483646); lia))).
    change (cur (mapd f s)) with (cur s). unfold wake_eff.
    destruct (table_lookup _ p Ht1 ltac:(lia)) as [pr Hpr].
    destruct (decide (Some p = cur s)) as [E|E].
    + rewrite bool_decide_eq_true_2 by done. cbn [negb]. run.
      do 2 f_equal. rewrite mapd_mapd. unfold mapd. f_equal. symmetry. apply at_proc_id.
    + rewrite bool_decide_eq_false_2 by done. cbn [negb]. run.
      apply (locked_update p (fun pr => bool_decide (p_state pr = SLEEPING) && bool_decide (p_chan pr = chan)) _ pr);
        [exact Hs|change (noff s < 2147483646); lia|by apply Hf; [lia|]|done].
  - exists (fun d => d). by rewrite mapd_id.
Qed.

(** *** Giving up the hart *)

Definition resumed (i : Z) (s : kstate) : kstate := put_cpu (set_c_intena i (cpu_of s)) s.

Lemma cur_acq lk s : hart_ok s -> cur (acq lk s) = cur s.
Proof.
  intros (Hh & Hc & _). unfold cur. change (cpu_of (acq lk s)) with (cpu_of (pushed s)).
  unfold pushed. rewrite cpu_of_put_cpu by done. by destruct (noff s =? 0).
Qed.

Lemma intena_acq lk s : hart_ok s -> noff s = 0 -> intena (acq lk s) = b2z (intr s).
Proof.
  intros (Hh & Hc & _) E. unfold intena. change (cpu_of (acq lk s)) with (cpu_of (pushed s)).
  unfold pushed. rewrite cpu_of_put_cpu by done. by rewrite E.
Qed.

(** A thread that may call sched: it holds its own lock and nothing else, and
    it has left the RUNNING state. *)
Definition may_sched (s : kstate) (p : nat) : Prop :=
  settled s /\ noff s = 1 /\ cur s = Some p /\ held s (LProc p) /\
  exists pr, procs (kd s) !! p = Some pr /\ p_state pr ≠ RUNNING.

Lemma sched_swtch s p e : may_sched s p ->
  sched (mkWorld s e) =
  (swtch;; c ← mycpu; upd_cpu c (set_c_intena (intena s))) (mkWorld s e).
Proof.
  intros (Hs & Hn & Hc & Hl & pr & Hpr & Hst). pose proof (proj1 Hs) as (Hh & Hcp & Hr). unfold sched.
  rewrite (bind_Ok _ _ _ _ _ (myproc_ok s e Hs ltac:(lia))), Hc. unfold nonnull, mycpu, cpuid. run.
  apply held_lock_of in Hl as [H1 H2].
  rewrite (bind_Ok _ _ _ _ _ (holding_ok (LProc p) s e)), H1, H2.
  rewrite bool_decide_eq_true_2 by done. cbn [andb negb z2b Z.eqb]. run.
  step get_cpu_ok. fold (noff s). rewrite Hn. cbn [Z.eqb negb Pos.eqb].
  step get_proc_ok. rewrite bool_decide_eq_false_2 by done.
  unfold intr_get. run. step get_hart_ok. fold (intr s). rewrite (proj2 (proj2 Hs)) by lia. run.
  change (z2b (b2z false)) with false. cbv iota. run. by step get_cpu_ok.
Qed.

Lemma sched_blocks s p : may_sched s p -> sched (mkWorld s []) = Blocked (mkWorld s []).
Proof. intros H. by rewrite (sched_swtch s p). Qed.

Lemma sched_ok s p f e : may_sched s p -> is_Some (cpus (f s) !! tp (f s)) ->
  sched (mkWorld s (f :: e)) = Ok tt (mkWorld (resumed (intena s) (f s)) e).
Proof.
  intros H Hc. rewrite (sched_swtch s p) by done. unfold swtch, mycpu, cpuid.
  rewrite (bind_Ok _ _ _ tt (mkWorld (f s) e)) by done. run. by rewrite upd_cpu_ok.
Qed.

(** Back with its own lock held on a hart whose interrupts are as this thread
    left them, a thread that releases the lock leaves the hart as it was before
    the scheduler took the lock. *)
Lemma release_resumed lk f s e : settled s -> noff s = 0 -> is_free s lk ->
  release lk (mkWorld (mapd f (resumed (b2z (intr s)) (acq lk s))) e) = Ok tt (mkWorld (mapd f s) e).
Proof.
  intros Hs Hn Hf. assert (resumed (b2z (intr s)) (acq lk s) = acq lk s) as ->.
  { unfold resumed. rewrite <- (intena_acq lk s (proj1 Hs) Hn).
    assert (forall c, set_c_intena (c_intena c) c = c) as E by (by intros []).
    unfold intena. rewrite E. apply put_cpu_id. }
  apply release_mapd_acq; [done|lia|done].
Qed.

(** What sleep writes before it gives up the hart. *)
Definition parked (chan : channel) (pr : proc) : proc := set_p_state SLEEPING (set_p_chan chan pr).

Section sleeper.
Context (chan : channel) (lk : lockid) (p : nat) (pr : proc) (s : kstate).
Context (Hs : settled s) (Hn : noff s = 0) (Hc : cur s = Some p) (Hne : lk ≠ LProc p).
Context (Hlk : is_free s lk) (Hlp : is_free s (LProc p)) (Hpr : procs (kd s) !! p = Some pr).

Definition sleeping : kstate := mapd (at_proc p (parked chan)) (acq (LProc p) s).

Lemma sleeping_may_sched : may_sched sleeping p.
Proof.
  assert (noff s < 2147483646) as Hb by lia. split; [|split; [|split; [|split]]].
  - by apply (settled_acq (LProc p) s (proj1 Hs)).
  - change (noff (acq (LProc p) s) = 1). rewrite noff_acq by apply Hs. lia.
  - change (cur (acq (LProc p) s) = Some p). by rewrite cur_acq by apply Hs.
  - apply held_acq.
  - exists (parked chan pr). split; [|done]. by apply at_proc_lookup.
Qed.

Lemma sleep_enter e :
  sleep chan lk (mkWorld (acq lk s) e) =
  (sched;; upd_proc p (set_p_chan CNull);; release (LProc p);; acquire lk) (mkWorld sleeping e).
Proof.
  pose proof (proj1 Hs) as (Hh & Hcp & Hr). unfold sleep.
  assert (hart_ok (acq lk s)) as Ho by (apply hart_ok_acq; [apply Hs|lia]).
  assert (settled (acq lk s)) as Hsl by (apply settled_acq; [apply Hs|lia]).
  assert (noff (acq lk s) = 1) as En by (rewrite noff_acq by apply Hs; lia).
  rewrite (bind_Ok _ _ _ _ _ (myproc_ok _ e Hsl ltac:(lia))), cur_acq, Hc by apply Hs.
  unfold nonnull. run. rewrite (bind_Ok _ _ _ tt (mkWorld (acq (LProc p) (acq lk s)) e)).
  2:{ apply acquire_ok; [done|]. by apply free_locked, is_free_acq_ne. }
  rewrite (bind_Ok _ _ _ tt (mkWorld (acq (LProc p) s) e)).
  2:{ rewrite release_ok; [by rewrite rel_acq_acq; [|done|apply Hs|lia|done]| | | |].
      - by apply hart_ok_acq; [|lia].
      - by apply held_acq_ne; [|apply held_acq].
      - by apply intr_acq.
      - rewrite noff_acq by done. lia. }
  rewrite (bind_Ok _ _ _ _ _ (upd_proc_ok p _ pr (acq (LProc p) s) e Hpr)).
  erewrite bind_Ok.
  2:{ eapply upd_proc_ok. cbn. by rewrite list_lookup_alter_eq, Hpr. }
  rewrite mapd_mapd. unfold sleeping, parked. do 2 f_equal. unfold mapd. f_equal. apply at_proc_at_proc.
Qed.

Lemma sleep_blocks : sleep chan lk (mkWorld (acq lk s) []) = Blocked (mkWorld sleeping []).
Proof.
  rewrite sleep_enter. unfold mbind, Prog_bind. by rewrite (sched_blocks _ p sleeping_may_sched).
Qed.

(** Resumed by the scheduler with its lock held, as if from a state [s1] where
    the lock was free, the sleeper returns with the condition lock. *)
Lemma sleep_resumes f e s1 pr1 :
  f sleeping = acq (LProc p) s1 -> settled s1 -> noff s1 = 0 -> intr s1 = intr s ->
  is_free s1 (LProc p) -> is_free s1 lk -> procs (kd s1) !! p = Some pr1 ->
  sleep chan lk (mkWorld (acq lk s) (f :: e)) =
  Ok tt (mkWorld (mapd (at_proc p (set_p_chan CNull)) (acq lk s1)) e).
Proof.
  intros Hf Hs1 Hn1 Hi Hp1 Hl1 Hpr1. rewrite sleep_enter.
  rewrite (bind_Ok _ _ _ _ _ (sched_ok _ p f e sleeping_may_sched
    ltac:(rewrite Hf; apply (hart_ok_acq (LProc p) s1 (proj1 Hs1)); lia))).
  rewrite Hf. change (intena sleeping) with (intena (acq (LProc p) s)).
  rewrite intena_acq by (apply Hs || done). rewrite <- Hi.
  rewrite (bind_Ok _ _ _ _ _ (upd_proc_ok p _ pr1 (resumed (b2z (intr s1)) (acq (LProc p) s1)) e Hpr1)).
  rewrite (bind_Ok _ _ _ _ _ (release_resumed (LProc p) _ s1 e Hs1 Hn1 Hp1)).
  rewrite acquire_ok; [by rewrite acq_mapd|apply Hs1|]. by apply free_locked.
Qed.
End sleeper.

(** *** kill, killed, setkilled, yield *)

Definition slain (pr : proc) : proc :=
  let pr := set_p_killed 1 pr in
  if bool_decide (p_state pr = SLEEPING) then set_p_state RUNNABLE pr else pr.

Definition kill_at (pid : Z) (p : nat) : M (option Z) :=
  acquire (LProc p);;
  pr ← get_proc p;
  if p_pid pr =? pid then
    upd_proc p (set_p_killed 1);;
    pr ← get_proc p;
    when (bool_decide (p_state pr = SLEEPING)) (upd_proc p (set_p_state RUNNABLE));;
    release (LProc p);;
    mret (Some 0)
  else
    release (LProc p);;
    mret None.

Lemma kill_at_ok pid p pr s e :
  settled s -> noff s < 2147483646 -> is_free s (LProc p) -> procs (kd s) !! p = Some pr ->
  kill_at pid p (mkWorld s e) =
  if p_pid pr =? pid then Ok (Some 0) (mkWorld (mapd (at_proc p slain) s) e)
  else Ok None (mkWorld s e).
Proof.
  intros Hs Hn Hf Hp. unfold kill_at. step acquire_ok.
  rewrite (bind_Ok _ _ _ _ _ (get_proc_ok p pr (acq (LProc p) s) e Hp)).
  destruct (p_pid pr =? pid).
  - rewrite (bind_Ok _ _ _ _ _ (upd_proc_ok p (set_p_killed 1) pr (acq (LProc p) s) e Hp)).
    pose proof (at_proc_lookup p (set_p_killed 1) (kd (acq (LProc p) s)) pr Hp) as Hp1.
    rewrite (bind_Ok _ _ _ _ _ (get_proc_ok p _ (mapd _ (acq (LProc p) s)) e Hp1)).
    rewrite (bind_Ok _ _ _ _ _ (when_upd_proc p _ _ _ (mapd _ (acq (LProc p) s)) e Hp1)).
    rewrite mapd_mapd. step release_mapd_acq. run. do 2 f_equal. unfold mapd. f_equal.
    rewrite at_proc_at_proc. apply at_proc_ext. intros pr' E. rewrite Hp in E. by injection E as <-.
  - by rewrite (bind_Ok _ _ _ _ _ (release_acq (LProc p) s e Hs Hn Hf)).
Qed.

Lemma for_find_kill pid l s e :
  settled s -> noff s < 2147483646 -> table_ok s ->
  (forall p, p ∈ l -> (p < NPROC)%nat /\ is_free s (LProc p)) ->
  for_find l (kill_at pid) (mkWorld s e) =
  match list_find (fun p => p_pid <$> (procs (kd s) !! p) = Some pid) l with
  | Some (_, p) => Ok (Some 0) (mkWorld (mapd (at_proc p slain) s) e)
  | None => Ok None (mkWorld s e)
  end.
Proof.
  intros Hs Hn Ht. induction l as [|p l IH]; intros Hl; [done|].
  destruct (Hl p ltac:(by left)) as [Hp Hf]. destruct (table_lookup s p Ht Hp) as [pr Hpr].
  cbn [for_find list_find]. pose proof (kill_at_ok pid p pr s e Hs Hn Hf Hpr) as E.
  rewrite Hpr. cbn [fmap option_fmap option_map].
  destruct (Z.eqb_spec (p_pid pr) pid) as [->|Hne]; rewrite (bind_Ok _ _ _ _ _ E).
  - by rewrite decide_True.
  - rewrite decide_False by congruence. rewrite IH by (intros; apply Hl; by right).
    by destruct (list_find _ l) as [[? ?]|].
Qed.

(** The first slot with the pid. *)
Definition slot_of (pid : Z) (s : kstate) : option nat :=
  snd <$> list_find (fun p => p_pid <$> (procs (kd s) !! p) = Some pid) (seq 0 NPROC).

Lemma kill_ok pid s e : settled s -> noff s < 2147483646 -> table_ok s -> procs_free s ->
  kill pid (mkWorld s e) =
  match slot_of pid s with
  | Some p => Ok 0 (mkWorld (mapd (at_proc p slain) s) e)
  | None => Ok (-1) (mkWorld s e)
  end.
Proof.
  intros Hs Hn Ht Hf. unfold kill, slot_of. change (for_find _ _) with (for_find (seq 0 NPROC) (kill_at pid)).
  pose proof (for_find_kill pid (seq 0 NPROC) s e Hs Hn Ht) as E.
  destruct (list_find _ _) as [[i p]|]; cbn [fmap option_fmap option_map snd];
    (rewrite (bind_Ok _ _ _ _ _ (E ltac:(intros q Hq%elem_of_seq; split; [lia|apply Hf; lia]))); by run).
Qed.

Lemma setkilled_ok p pr s e : settled s -> noff s < 2147483646 -> is_free s (LProc p) ->
  procs (kd s) !! p = Some pr ->
  setkilled p (mkWorld s e) = Ok tt (mkWorld (mapd (at_proc p (set_p_killed 1)) s) e).
Proof.
  intros Hs Hn Hf Hp. unfold setkilled. step acquire_ok.
  rewrite (bind_Ok _ _ _ _ _ (upd_proc_ok p _ pr (acq (LProc p) s) e Hp)). by apply release_mapd_acq.
Qed.

Lemma killed_ok p pr s e : settled s -> noff s < 2147483646 -> is_free s (LProc p) ->
  procs (kd s) !! p = Some pr ->
  killed p (mkWorld s e) = Ok (p_killed pr) (mkWorld s e).
Proof.
  intros Hs Hn Hf Hp. unfold killed. step acquire_ok.
  rewrite (bind_Ok _ _ _ _ _ (get_proc_ok p pr (acq (LProc p) s) e Hp)).
  by rewrite (bind_Ok _ _ _ _ _ (release_acq (LProc p) s e Hs Hn Hf)).
Qed.

Lemma yield_enter p pr s e : settled s -> noff s = 0 -> cur s = Some p -> is_free s (LProc p) ->
  procs (kd s) !! p = Some pr ->
  may_sched (mapd (at_proc p (set_p_state RUNNABLE)) (acq (LProc p) s)) p /\
  yield (mkWorld s e) =
  (sched;; release (LProc p)) (mkWorld (mapd (at_proc p (set_p_state RUNNABLE)) (acq (LProc p) s)) e).
Proof.
  intros Hs Hn Hc Hf Hp. pose proof (proj1 Hs) as (Hh & Hcp & Hr). split.
  - split; [|split; [|split; [|split]]].
    + apply (settled_acq (LProc p) s (proj1 Hs)). lia.
    + change (noff (acq (LProc p) s) = 1). rewrite noff_acq by apply Hs. lia.
    + change (cur (acq (LProc p) s) = Some p). by rewrite cur_acq by apply Hs.
    + apply held_acq.
    + exists (set_p_state RUNNABLE pr). split; [|done]. by apply at_proc_lookup.
  - unfold yield. rewrite (bind_Ok _ _ _ _ _ (myproc_ok s e Hs ltac:(lia))), Hc.
    unfold nonnull. run. step acquire_ok.
    by rewrite (bind_Ok _ _ _ _ _ (upd_proc_ok p _ pr (acq (LProc p) s) e Hp)).
Qed.

(** ** Theorems *)

(** A hart running the process in slot 0 with no lock held, for the witnesses. *)
Definition running0 : kstate := put_cpu (set_c_proc (Some 0%nat) cpu0) (unlocked kstate0).

Lemma settled_running0 : settled running0.
Proof. split; [|done]. split; [|split]; [by eexists|by eexists|done]. Qed.

Lemma running0_free lk : lk ∈ all_locks -> is_free running0 lk.
Proof. exact (unlocked_free lk kstate0). Qed.



(** Wakeup is exact.  It makes runnable every process that sleeps on its
    channel, the caller apart, and changes nothing else: not a process that
    sleeps on another channel, nor a lock, nor the interrupt state. *)
Theorem wakeup_exact chan s e :
  settled s -> noff s < 2147483645 -> table_ok s -> others_free s ->
  exists s', wakeup chan (mkWorld s e) = Ok tt (mkWorld s' e) /\
    (forall i pr, procs (kd s) !! i = Some pr ->
       procs (kd s') !! i =
       Some (if bool_decide (Some i ≠ cur s /\ p_state pr = SLEEPING /\ p_chan pr = chan)
             then set_p_state RUNNABLE pr else pr)) /\
    s' = mapd (set_procs (procs (kd s'))) s.
Proof.
  intros Hs Hn Ht Hf. eexists. split; [by apply wakeup_ok|]. split; [|done].
  intros i pr E. cbn. rewrite list_lookup_imap, E. cbn. unfold wake_eff, woken. f_equal.
  destruct (decide (Some i = cur s)).
  - rewrite bool_decide_eq_true_2 by done. rewrite bool_decide_eq_false_2 by naive_solver. done.
  - rewrite (bool_decide_eq_false_2 (Some i = cur s)) by done.
    destruct (decide (p_state pr = SLEEPING)), (decide (p_chan pr = chan));
      repeat (rewrite bool_decide_eq_true_2 by naive_solver) || rewrite bool_decide_eq_false_2 by naive_solver;
      done.
Qed.

Lemma wakeup_exact_witness :
  exists s', wakeup CTicks (mkWorld running0 []) = Ok tt (mkWorld s' []) /\
    (forall i pr, procs (kd running0) !! i = Some pr ->
       procs (kd s') !! i =
       Some (if bool_decide (Some i ≠ cur running0 /\ p_state pr = SLEEPING /\ p_chan pr = CTicks)
             then set_p_state RUNNABLE pr else pr)) /\
    s' = mapd (set_procs (procs (kd s'))) running0.
Proof.
  apply wakeup_exact.
  - apply settled_running0.
  - done.
  - done.
  - intros p Hp _. by apply (unlocked_proc p kstate0).
Defined.

(** Kill(pid).  If some process has the pid, the first one that has it is
    marked killed and, if it sleeps, made runnable, nothing else changes, kill
    returns 0, and killed() of that process is 1 from then on; if none has it,
    kill returns -1 and changes nothing. *)
Theorem kill_spec pid s e :
  settled s -> noff s < 2147483646 -> table_ok s -> procs_free s ->
  (forall p pr, procs (kd s) !! p = Some pr -> p_pid pr = pid ->
     (forall q qr, (q < p)%nat -> procs (kd s) !! q = Some qr -> p_pid qr ≠ pid) ->
     exists s', kill pid (mkWorld s e) = Ok 0 (mkWorld s' e) /\
       s' = mapd (set_procs (<[p := set_p_killed 1
              (if bool_decide (p_state pr = SLEEPING) then set_p_state RUNNABLE pr else pr)]>
              (procs (kd s)))) s /\
       killed p (mkWorld s' e) = Ok 1 (mkWorld s' e)) /\
  ((forall p pr, procs (kd s) !! p = Some pr -> p_pid pr ≠ pid) ->
     kill pid (mkWorld s e) = Ok (-1) (mkWorld s e)).
Proof.
  intros Hs Hn Ht Hf. rewrite kill_ok by done. split.
  - intros p pr Hp Hpid Hmin. assert (p < NPROC)%nat as Hlt by (rewrite <- Ht; by eapply lookup_lt_Some).
    assert (slot_of pid s = Some p) as ->.
    { unfold slot_of. rewrite (proj2 (list_find_Some _ (seq 0 NPROC) p p)); [done|].
      rewrite lookup_seq. split; [lia|]. rewrite Hp. split; [by rewrite <- Hpid|].
      intros q y [-> Hq]%lookup_seq Hlt'. cbn. destruct (table_lookup s q Ht ltac:(lia)) as [qr Hqr].
      rewrite Hqr. cbn. intros [= Eq]. by apply (Hmin q qr). }
    eexists. split; [done|]. split.
    + unfold mapd. f_equal. unfold at_proc, set_kd. f_equal. rewrite (alter_insert _ _ _ _ Hp).
      do 2 f_equal. unfold slain. by destruct (bool_decide _).
    + assert (p_killed (slain pr) = 1) as <- by (unfold slain; by destruct (bool_decide _)).
      apply (killed_ok p (slain pr)); [exact Hs|exact Hn|by apply Hf|by apply at_proc_lookup].
  - intros Hno. assert (slot_of pid s = None) as ->; [|done].
    unfold slot_of. rewrite (proj2 (list_find_None _ _)); [done|]. apply Forall_forall. intros p _.
    destruct (procs (kd s) !! p) as [pr|] eqn:E; [|done]. cbn. intros [= Eq]. by apply (Hno p pr).
Qed.

Lemma kill_spec_witness :
  (forall p pr, procs (kd (unlocked kstate0)) !! p = Some pr -> p_pid pr = 0 ->
     (forall q qr, (q < p)%nat -> procs (kd (unlocked kstate0)) !! q = Some qr -> p_pid qr ≠ 0) ->
     exists s', kill 0 (mkWorld (unlocked kstate0) []) = Ok 0 (mkWorld s' []) /\
       s' = mapd (set_procs (<[p := set_p_killed 1
              (if bool_decide (p_state pr = SLEEPING) then set_p_state RUNNABLE pr else pr)]>
              (procs (kd (unlocked kstate0))))) (unlocked kstate0) /\
       killed p (mkWorld s' []) = Ok 1 (mkWorld s' [])) /\
  ((forall p pr, procs (kd (unlocked kstate0)) !! p = Some pr -> p_pid pr ≠ 0) ->
     kill 0 (mkWorld (unlocked kstate0) []) = Ok (-1) (mkWorld (unlocked kstate0) [])).
Proof.
  apply kill_spec.
  - apply settled_unlocked.
  - done.
  - done.
  - intros p Hp. by apply unlocked_proc.
Defined.


