(* ===== verification/Dispatch.v ===== *)
(** * Dispatching a process

    What the two schedulers of kernel/proc.c share: the state of a hart between
    two rounds of a scheduler, and the switch to a process and back.  The
    process gives the hart back with its lock held, in the state
    [acq (LProc p) s'] for the state [s'] it took the lock in. *)

From S2P Require Import Prelude Prog State Spinlock Printf Switch.

(** ** The interrupt enable at the start of a round *)

Definition inton (s : kstate) : kstate := put_hart (sie_on (hart_of s)) s.

Lemma intr_on_ok s e : is_Some (harts s !! tp s) ->
  intr_on (mkWorld s e) = Ok tt (mkWorld (inton s) e).
Proof. intros H. unfold intr_on, w_sstatus. step get_hart_ok. by rewrite upd_hart_ok. Qed.

Lemma sie_on_id h : sie h = true -> sie_on h = h.
Proof.
  rewrite sie_testbit. intros E. destruct h as [x ? ? ? ? ? ? ?]. unfold sie_on, set_r_sstatus.
  cbn [r_sstatus] in *. f_equal. apply Z.bits_inj'. intros n Hn. change SSTATUS_SIE with (2 ^ 1).
  rewrite Z.lor_spec. destruct (decide (n = 1)) as [->|].
  - by rewrite E.
  - rewrite Z.pow2_bits_false by lia. apply orb_false_r.
Qed.

Lemma inton_id s : intr s = true -> inton s = s.
Proof. intros H. unfold inton. rewrite sie_on_id by done. apply put_hart_id. Qed.

Lemma acquire_settle lk s e : hart_ok s -> lk_locked (lock_of s lk) = 0 ->
  acquire lk (mkWorld s e) = acquire lk (mkWorld (settle s) e).
Proof.
  intros Hs Hl. rewrite !acquire_ok; [by rewrite acq_settle|by apply hart_ok_settle| |done..].
  unfold lock_of. by rewrite locks_settle.
Qed.

(** ** The current process of this hart *)

Definition set_cur (v : option nat) (s : kstate) : kstate := put_cpu (set_c_proc v (cpu_of s)) s.

Lemma cur_set_cur v s : is_Some (cpus s !! tp s) -> cur (set_cur v s) = v.
Proof. intros H. unfold cur, set_cur. by rewrite cpu_of_put_cpu. Qed.

Lemma set_cur_id s : set_cur (cur s) s = s.
Proof.
  unfold set_cur, cur. assert (forall c, set_c_proc (c_proc c) c = c) as -> by (by intros []).
  apply put_cpu_id.
Qed.

Lemma set_cur_set_cur v w s : is_Some (cpus s !! tp s) -> set_cur v (set_cur w s) = set_cur v s.
Proof. intros H. unfold set_cur. rewrite cpu_of_put_cpu by done. apply put_cpu_put_cpu. Qed.

Lemma set_cur_mapd v f s : set_cur v (mapd f s) = mapd f (set_cur v s).
Proof. done. Qed.

Lemma noff_set_cur v s : hart_ok s -> noff (set_cur v s) = noff s.
Proof. intros (_ & H & _). unfold noff, set_cur. by rewrite cpu_of_put_cpu. Qed.

Lemma hart_ok_set_cur v s : hart_ok s -> hart_ok (set_cur v s).
Proof.
  intros H. pose proof H as (Hh & Hc & Hr). split; [done|]. split; [by apply cpus_put_cpu|].
  by rewrite noff_set_cur.
Qed.

Lemma settled_set_cur v s : settled s -> settled (set_cur v s).
Proof.
  intros (H & H0 & H1). pose proof H as (Hh & Hc & Hr). split; [by apply hart_ok_set_cur|].
  rewrite noff_set_cur by done. unfold intena, set_cur. by rewrite cpu_of_put_cpu.
Qed.

Lemma acq_set_cur lk v s : hart_ok s -> acq lk (set_cur v s) = set_cur v (acq lk s).
Proof.
  intros H. pose proof H as (Hh & Hc & Hr). unfold acq.
  change (set_cur v (put_lock lk (taken (tp s) (lock_of s lk)) (pushed s)))
    with (put_lock lk (taken (tp s) (lock_of s lk)) (set_cur v (pushed s))).
  change (tp (set_cur v s)) with (tp s). change (lock_of (set_cur v s) lk) with (lock_of s lk).
  f_equal. unfold pushed, set_cur. rewrite !cpu_of_put_cpu by done.
  change (noff (put_cpu (set_c_proc v (cpu_of s)) s)) with (noff (set_cur v s)).
  rewrite noff_set_cur by done. rewrite put_cpu_put_cpu, put_hart_put_cpu, put_cpu_put_cpu.
  change (hart_of (put_cpu (set_c_proc v (cpu_of s)) s)) with (hart_of s).
  f_equal. change (intr (put_cpu (set_c_proc v (cpu_of s)) s)) with (intr s).
  destruct (cpu_of s); by destruct (noff s =? 0).
Qed.

Lemma upd_cur_ok c v s e : c = tp s -> is_Some (cpus s !! tp s) ->
  upd_cpu c (set_c_proc v) (mkWorld s e) = Ok tt (mkWorld (set_cur v s) e).
Proof. intros -> H. by rewrite upd_cpu_ok. Qed.

(** ** Between two rounds *)

(** The hart of a scheduler between two rounds: interrupts on, no lock held, no
    current process, and every process lock free. *)
Definition idle (s : kstate) : Prop :=
  settled s /\ noff s = 0 /\ intr s = true /\ cur s = None /\ table_ok s /\ procs_free s.

(** The hart running process [p], as the process finds it: its lock is held
    for it. *)
Definition on_cpu (p : nat) (s : kstate) : kstate :=
  mapd (at_proc p (set_p_state RUNNING)) (acq (LProc p) (set_cur (Some p) s)).

Lemma dispatch_ok c p pr s f e s' : hart_ok s -> noff s < 2147483646 -> c = tp s ->
  procs (kd s) !! p = Some pr ->
  f (on_cpu p s) = acq (LProc p) s' -> hart_ok s' -> noff s' < 2147483646 -> tp s' = c ->
  (upd_proc p (set_p_state RUNNING);; upd_cpu c (set_c_proc (Some p));;
   swtch;; upd_cpu c (set_c_proc None)) (mkWorld (acq (LProc p) s) (f :: e)) =
  Ok tt (mkWorld (acq (LProc p) (set_cur None s')) e).
Proof.
  intros Hs Hn -> Hp Hf Hs' Hn' Ht.
  rewrite (bind_Ok _ _ _ _ _ (upd_proc_ok p _ pr (acq (LProc p) s) (f :: e) Hp)).
  rewrite (bind_Ok _ _ _ tt (mkWorld (on_cpu p s) (f :: e))).
  - unfold swtch. rewrite (bind_Ok _ _ _ tt (mkWorld (acq (LProc p) s') e)) by (by rewrite <- Hf).
    rewrite upd_cur_ok; [by rewrite acq_set_cur|done|]. by apply (hart_ok_acq (LProc p) s').
  - rewrite upd_cur_ok; [|done|by apply (hart_ok_acq (LProc p) s)].
    unfold on_cpu. by rewrite acq_set_cur, set_cur_mapd.
Qed.

Lemma dispatch_bind {B} (k : M B) c p pr s f e s' : hart_ok s -> noff s < 2147483646 -> c = tp s ->
  procs (kd s) !! p = Some pr ->
  f (on_cpu p s) = acq (LProc p) s' -> hart_ok s' -> noff s' < 2147483646 -> tp s' = c ->
  (upd_proc p (set_p_state RUNNING);; upd_cpu c (set_c_proc (Some p));;
   swtch;; upd_cpu c (set_c_proc None);; k) (mkWorld (acq (LProc p) s) (f :: e)) =
  k (mkWorld (acq (LProc p) (set_cur None s')) e).
Proof.
  intros Hs Hn Hc Hp Hf Hs' Hn' Ht.
  rewrite <- (bind_Ok _ (fun _ => k) _ _ _ (dispatch_ok c p pr s f e s' Hs Hn Hc Hp Hf Hs' Hn' Ht)).
  rewrite !bind_assoc. unfold mbind, Prog_bind. destruct (upd_proc _ _ _) as [? w1| | |]; [|done..].
  destruct (upd_cpu _ _ w1) as [? w2| | |]; [|done..]. by destruct (swtch w2).
Qed.

(** With nothing left to run it, the process keeps the hart. *)
Lemma dispatch_blocks {B} (k : M B) c p pr s : hart_ok s -> noff s < 2147483646 -> c = tp s ->
  procs (kd s) !! p = Some pr ->
  (upd_proc p (set_p_state RUNNING);; upd_cpu c (set_c_proc (Some p));;
   swtch;; upd_cpu c (set_c_proc None);; k) (mkWorld (acq (LProc p) s) []) =
  Blocked (mkWorld (on_cpu p s) []).
Proof.
  intros Hs Hn -> Hp.
  rewrite (bind_Ok _ _ _ _ _ (upd_proc_ok p _ pr (acq (LProc p) s) [] Hp)).
  rewrite (bind_Ok _ _ _ tt (mkWorld (on_cpu p s) [])); [done|].
  rewrite upd_cur_ok; [|done|by apply (hart_ok_acq (LProc p) s)].
  unfold on_cpu. by rewrite acq_set_cur, set_cur_mapd.
Qed.

(** A process that uses its time slice and yields: it writes its slot number,
    so that the output is the trace of the dispatches, and is runnable again. *)
Definition quantum (s : kstate) : kstate :=
  match cur s with
  | Some p => mapd (emit [Z.of_nat p]) (mapd (at_proc p (set_p_state RUNNABLE)) s)
  | None => s
  end.

Lemma quantum_on_cpu p pr s : hart_ok s -> procs (kd s) !! p = Some pr -> p_state pr = RUNNABLE ->
  quantum (on_cpu p s) = acq (LProc p) (mapd (emit [Z.of_nat p]) (set_cur (Some p) s)).
Proof.
  intros Hs Hp Hr. unfold quantum.
  assert (cur (on_cpu p s) = Some p) as ->.
  { change (cur (acq (LProc p) (set_cur (Some p) s)) = Some p).
    rewrite cur_acq by (by apply hart_ok_set_cur). apply cur_set_cur. apply Hs. }
  unfold on_cpu. rewrite !mapd_mapd, acq_mapd. unfold mapd. f_equal. f_equal.
  rewrite at_proc_at_proc. etrans; [apply (at_proc_ext _ _ (fun pr => pr))|apply at_proc_id].
  intros pr' E. assert (pr' = pr) as -> by (cbn in E; congruence).
  destruct pr. cbn in *. unfold set_p_state. by rewrite Hr.
Qed.

(** A hart between two rounds with the given process table, for the witnesses. *)
Definition idle_with (ps : list proc) : kstate :=
  mapd (set_procs ps)
    (put_cpu (set_c_intena 1 cpu0) (put_hart (set_r_sstatus SSTATUS_SIE csrs0) (unlocked kstate0))).

Lemma idle_idle_with ps : length ps = NPROC -> idle (idle_with ps).
Proof.
  intros H. split; [|split; [|split; [|split; [|split]]]]; try done.
  intros p Hp. by apply (unlocked_proc p kstate0).
Qed.

(** A process of class [k], ready to run, with the given pass and stride. *)
Definition ready (pid k pass stride : Z) : proc :=
  set_p_pid pid (set_p_classe k (set_p_pass pass (set_p_stride stride (set_p_state RUNNABLE proc0)))).
