(* ===== verification/Rand.v ===== *)
(** * Linear congruential generators modulo a power of two

    The mathematics behind rand_lottery: counting the numbers below a bound
    that satisfy a test, and the theorem that a generator
    [x -> (a * x + c) mod 2^k] with [a = 1 (mod 4)] and [c] odd visits every
    number below [2^k] before it repeats one. *)

From S2P Require Import Prelude.

(** ** Counting *)

(** How many of [0 .. n - 1] satisfy [P]. *)
Fixpoint cnt (P : Z -> bool) (n : nat) : Z :=
  match n with
  | O => 0
  | S n => cnt P n + b2z (P (Z.of_nat n))
  end.

Lemma cnt_ext P Q n : (forall x, 0 <= x < Z.of_nat n -> P x = Q x) -> cnt P n = cnt Q n.
Proof.
  induction n as [|n IH]; intros H; cbn [cnt]; [done|]. rewrite IH, (H (Z.of_nat n)); [done|lia|].
  intros x Hx. apply H. lia.
Qed.

Lemma cnt_add P n m : cnt P (n + m) = cnt P n + cnt (fun x => P (Z.of_nat n + x)) m.
Proof.
  induction m as [|m IH]; cbn [cnt]; [rewrite Nat.add_0_r; lia|].
  rewrite Nat.add_succ_r. cbn [cnt]. rewrite IH, Nat2Z.inj_add. lia.
Qed.

Lemma cnt_const (b : bool) n : cnt (fun _ => b) n = Z.of_nat n * b2z b.
Proof. induction n as [|n IH]; cbn [cnt]; [done|]. rewrite IH. lia. Qed.

Lemma cnt_mod P k m : (0 < k)%nat ->
  cnt (fun x => P (x `mod` Z.of_nat k)) (m * k) = Z.of_nat m * cnt P k.
Proof.
  intros Hk. induction m as [|m IH]; [done|]. rewrite Nat.mul_succ_l, cnt_add, IH.
  rewrite (cnt_ext (fun x => P ((Z.of_nat (m * k) + x) `mod` Z.of_nat k)) P k); [lia|]. intros x Hx. f_equal.
  rewrite Nat2Z.inj_mul, Z.add_comm, Z.mod_add by lia. apply Z.mod_small. lia.
Qed.

Lemma cnt_div P k m : (0 < k)%nat ->
  cnt (fun x => P (x / Z.of_nat k)) (m * k) = Z.of_nat k * cnt P m.
Proof.
  intros Hk. induction m as [|m IH]; [cbn; lia|]. rewrite Nat.mul_succ_l, cnt_add, IH. cbn [cnt].
  rewrite (cnt_ext (fun x => P ((Z.of_nat (m * k) + x) / Z.of_nat k)) (fun _ => P (Z.of_nat m)) k), cnt_const; [lia|]. intros x Hx. f_equal.
  rewrite Nat2Z.inj_mul, Z.add_comm, Z.div_add by lia. rewrite Z.div_small by lia. lia.
Qed.

Lemma cnt_filter P n :
  cnt P n = Z.of_nat (length (filter (fun x => P x = true) (seqZ 0 (Z.of_nat n)))).
Proof.
  induction n as [|n IH]; [done|]. cbn [cnt]. rewrite IH.
  replace (Z.of_nat (S n)) with (Z.of_nat n + 1) by lia. rewrite seqZ_app by lia.
  rewrite filter_app, length_app. change (seqZ (0 + Z.of_nat n) 1) with [0 + Z.of_nat n].
  rewrite Z.add_0_l, filter_cons, filter_nil.
  destruct (P (Z.of_nat n)); [rewrite decide_True by done|rewrite decide_False by done]; cbn [length b2z]; lia.
Qed.

(** ** The generator *)

Definition lcg (a c m x : Z) : Z := (a * x + c) `mod` m.

(** [1 + a + ... + a^(n-1)] *)
Fixpoint geo (a : Z) (n : nat) : Z :=
  match n with
  | O => 0
  | S n => 1 + a * geo a n
  end.

Lemma geo_add a n m : geo a (n + m) = geo a n + a ^ Z.of_nat n * geo a m.
Proof.
  induction n as [|n IH]; cbn [geo Nat.add]; [lia|].
  rewrite IH, Nat2Z.inj_succ, Z.pow_succ_r by lia. lia.
Qed.

Lemma geo_pow a n : (a - 1) * geo a n = a ^ Z.of_nat n - 1.
Proof.
  induction n as [|n IH]; cbn [geo]; [cbn; lia|].
  rewrite Nat2Z.inj_succ, Z.pow_succ_r by lia. nia.
Qed.

Section full_period.
Context (a c : Z) (k : nat).
Context (Ha : a `mod` 4 = 1) (Hc : c `mod` 2 = 1).

Lemma pow_mod4 n : (a ^ Z.of_nat n) `mod` 4 = 1.
Proof.
  induction n as [|n IH]; [done|]. rewrite Nat2Z.inj_succ, Z.pow_succ_r by lia.
  by rewrite Z.mul_mod, IH, Ha by lia.
Qed.

Lemma geo_parity n : (geo a n) `mod` 2 = Z.of_nat n `mod` 2.
Proof.
  induction n as [|n IH]; [done|]. cbn [geo].
  assert (a `mod` 2 = 1) as Ha2 by (Z.to_euclidean_division_equations; lia).
  rewrite Nat2Z.inj_succ. rewrite Z.add_mod, Z.mul_mod, Ha2, IH by lia.
  Z.to_euclidean_division_equations; lia.
Qed.

Lemma odd_divide (j : nat) x y : x `mod` 2 = 1 -> (2 ^ Z.of_nat j | y * x) -> (2 ^ Z.of_nat j | y).
Proof.
  intros Hx. revert y. induction j as [|j IH]; intros y H; [apply Z.divide_1_l|].
  rewrite Nat2Z.inj_succ, Z.pow_succ_r in * by lia.
  assert (y `mod` 2 = 0) as Hy.
  { destruct H as [q Hq]. assert ((y * x) `mod` 2 = 0) as H2.
    { rewrite Hq, Z.mul_comm, <- Z.mul_assoc, Z.mul_comm. by rewrite Z.mod_mul. }
    rewrite Z.mul_mod, Hx, Z.mul_1_r, Z.mod_mod in H2 by lia. exact H2. }
  apply Z.mod_divide in Hy as [y' ->]; [|lia]. rewrite (Z.mul_comm y' 2), <- Z.mul_assoc in H.
  apply Z.mul_divide_cancel_l in H; [|lia]. rewrite (Z.mul_comm y' 2).
  by apply Z.mul_divide_mono_l, IH.
Qed.

Lemma geo_double n : geo a (n + n) = 2 * (geo a n * ((a ^ Z.of_nat n + 1) / 2)).
Proof.
  rewrite geo_add. pose proof (pow_mod4 n) as Hp.
  pose proof (Z.div_mod (a ^ Z.of_nat n + 1) 2 ltac:(lia)) as Hd.
  assert ((a ^ Z.of_nat n + 1) `mod` 2 = 0) as H0 by (Z.to_euclidean_division_equations; lia). nia.
Qed.

(** [geo a n] and [n] have the same powers of two. *)
Lemma geo_divide (j n : nat) : (2 ^ Z.of_nat j | geo a n) <-> (2 ^ Z.of_nat j | Z.of_nat n).
Proof.
  revert n. induction j as [|j IH]; intros n.
  { split; intros _; apply Z.divide_1_l. }
  rewrite Nat2Z.inj_succ, Z.pow_succ_r by lia.
  assert (forall y, (2 * 2 ^ Z.of_nat j | y) -> y `mod` 2 = 0) as Heven.
  { intros y [q ->]. rewrite Z.mul_comm, <- Z.mul_assoc, Z.mul_comm. by rewrite Z.mod_mul. }
  assert (Z.of_nat n `mod` 2 = 0 ->
    (2 * 2 ^ Z.of_nat j | geo a n) <-> (2 * 2 ^ Z.of_nat j | Z.of_nat n)) as Hhalf.
  { intros [q Hq]%Z.mod_divide; [|lia]. set (h := Z.to_nat q). assert (n = h + h)%nat as -> by lia.
    rewrite geo_double, Nat2Z.inj_add. replace (Z.of_nat h + Z.of_nat h) with (2 * Z.of_nat h) by lia.
    rewrite !Z.mul_divide_cancel_l by lia. rewrite <- IH. split; [|by apply Z.divide_mul_l].
    apply odd_divide. pose proof (pow_mod4 h). Z.to_euclidean_division_equations; lia. }
  split; intros H; (apply Hhalf; [|exact H]); apply Heven in H; [by rewrite geo_parity in H|done].
Qed.

Let m : Z := 2 ^ Z.of_nat k.

Lemma m_pos : 0 < m.
Proof. apply Z.pow_pos_nonneg; lia. Qed.

Lemma iter_lcg n x : 0 <= x < m ->
  Nat.iter n (lcg a c m) x = (a ^ Z.of_nat n * x + c * geo a n) `mod` m.
Proof.
  intros Hx. pose proof m_pos. induction n as [|n IH].
  - cbn [Nat.iter nat_rect geo]. change (a ^ Z.of_nat 0) with 1.
    rewrite Z.mul_1_l, Z.mul_0_r, Z.add_0_r, Z.mod_small by lia. done.
  - rewrite Nat.iter_succ, IH. unfold lcg. cbn [geo].
    rewrite Z.add_mod, Z.mul_mod_idemp_r, <- Z.add_mod by lia. f_equal.
    rewrite Nat2Z.inj_succ, Z.pow_succ_r by lia. lia.
Qed.

Lemma iter_lcg_range n x : 0 <= x < m -> 0 <= Nat.iter n (lcg a c m) x < m.
Proof. intros Hx. rewrite iter_lcg by done. apply Z.mod_pos_bound, m_pos. Qed.

Lemma lcg_returns n x : 0 <= x < m -> Nat.iter n (lcg a c m) x = x <-> (m | Z.of_nat n).
Proof.
  intros Hx. pose proof m_pos as Hm. rewrite iter_lcg by done.
  assert (a ^ Z.of_nat n * x + c * geo a n - x = geo a n * ((a - 1) * x + c)) as E.
  { pose proof (geo_pow a n). nia. }
  assert (((a - 1) * x + c) `mod` 2 = 1) as Ho.
  { rewrite Z.add_mod, Z.mul_mod, Hc by lia.
    assert ((a - 1) `mod` 2 = 0) as -> by (Z.to_euclidean_division_equations; lia).
    by rewrite Z.mul_0_l. }
  split.
  - intros H. apply (geo_divide k n). apply (odd_divide k _ _ Ho). rewrite <- E.
    exists ((a ^ Z.of_nat n * x + c * geo a n) / m).
    pose proof (Z.div_mod (a ^ Z.of_nat n * x + c * geo a n) m ltac:(lia)). fold m. lia.
  - intros Hd. apply (geo_divide k n) in Hd as [q Hq]. fold m in Hq.
    replace (a ^ Z.of_nat n * x + c * geo a n) with (x + q * ((a - 1) * x + c) * m) by nia.
    rewrite Z.mod_add by lia. apply Z.mod_small. lia.
Qed.

(** The first [2^k] numbers of the sequence are those below [2^k], in some
    order. *)
Lemma lcg_orbit x : 0 <= x < m ->
  ((fun i => Nat.iter i (lcg a c m) x) <$> seq 0 (Z.to_nat m)) ≡ₚ seqZ 0 m.
Proof.
  intros Hx. pose proof m_pos as Hm. apply submseteq_length_Permutation.
  - apply NoDup_submseteq.
    + apply NoDup_alt. intros i j y Hi Hj.
      apply list_lookup_fmap_Some in Hi as (i' & -> & [-> Hi]%lookup_seq).
      apply list_lookup_fmap_Some in Hj as (j' & E & [-> Hj]%lookup_seq). cbn [Nat.add] in *.
      destruct (lt_eq_lt_dec i j) as [[Hij|Hij]|Hij]; [exfalso|done|exfalso].
      * replace j with (j - i + i)%nat in E by lia. rewrite Nat.iter_add in E. symmetry in E.
        apply lcg_returns in E; [|by apply iter_lcg_range]. apply Z.divide_pos_le in E; lia.
      * replace i with (i - j + j)%nat in E by lia. rewrite Nat.iter_add in E.
        apply lcg_returns in E; [|by apply iter_lcg_range]. apply Z.divide_pos_le in E; lia.
    + intros y (i & -> & _)%list_elem_of_fmap. apply elem_of_seqZ.
      pose proof (iter_lcg_range i x Hx). lia.
  - rewrite length_fmap, length_seq, length_seqZ. done.
Qed.
End full_period.
