(* ===== verification/Loteria.v ===== *)
(** * The lottery scheduler

    rand_lottery, sorteio_prioridade and scheduler_loteria of kernel/proc.c:
    a class is drawn with odds 6 : 3 : 2 : 1, and the processes of the class
    take turns.  One iteration of the endless loop is [loteria_round].

    The theorems: over the period of the generator the classes are drawn in
    exact proportion, a round dispatches the first runnable process of the
    drawn class after the one it dispatched last, and a runnable process is
    dispatched after at most NPROC draws of its class. *)

From S2P Require Import Prelude Prog State Spinlock Printf Switch Dispatch Rand.

(** ** proc.c *)

(** [seed = seed * 1103515245 + 1248345], on [unsigned int] *)
Definition next_seed (x : Z) : Z := u32 (u32 (x * 1103515245) + 1248345).

Definition rand_lottery : M Z :=
  x ← getd seed;
  modd (set_seed (next_seed x));;
  x ← getd seed;
  mret ((x / 65536) `mod` 32768).

Definition CLASS_0_BILHETES : Z := 6.
Definition CLASS_1_BILHETES : Z := 3.
Definition CLASS_2_BILHETES : Z := 2.
Definition CLASS_3_BILHETES : Z := 1.

(** [enum priority_class]: CLASS_0 .. CLASS_3 are 0 .. 3 *)
Definition sorteio_prioridade : M Z :=
  let total := CLASS_0_BILHETES + CLASS_1_BILHETES + CLASS_2_BILHETES + CLASS_3_BILHETES in
  r ← rand_lottery;
  let sorteio := Z.rem r total in
  if sorteio <? CLASS_0_BILHETES then mret 0
  else if sorteio <? CLASS_0_BILHETES + CLASS_1_BILHETES then mret 1
  else if sorteio <? CLASS_0_BILHETES + CLASS_1_BILHETES + CLASS_2_BILHETES then mret 2
  else mret 3.

(** One turn of the inner loop; [Some tt] is the [break]. *)
Definition loteria_try (c : nat) (classe start : Z) (i : nat) : M (option unit) :=
  let idx := Z.rem (s32 (start + Z.of_nat i)) (Z.of_nat NPROC) in
  p ← the "proc[idx]" (if 0 <=? idx then Some (Z.to_nat idx) else None);
  acquire (LProc p);;
  pr ← get_proc p;
  if bool_decide (p_state pr = RUNNABLE) && (p_classe pr =? classe) then
    upd_proc p (set_p_state RUNNING);;
    upd_cpu c (set_c_proc (Some p));;
    swtch;;
    upd_cpu c (set_c_proc None);;
    release (LProc p);;
    modd (fun d => set_last_index
      (<[Z.to_nat classe := Z.rem (s32 (idx + 1)) (Z.of_nat NPROC)]> (last_index d)) d);;
    mret (Some tt)
  else
    release (LProc p);;
    mret None.

(** One iteration of [for(;;)]. *)
Definition loteria_round (c : nat) : M unit :=
  intr_on;;
  classe ← sorteio_prioridade;
  li ← getd last_index;
  start ← the "last_index" (zlookup li classe);
  for_find (seq 0 NPROC) (loteria_try c classe start);;
  mret tt.

(** The first [n] iterations of the endless loop. *)
Definition scheduler_loteria (n : nat) : M unit :=
  c ← mycpu;
  times n (loteria_round c).

(** ** Draws *)

Definition draw (x : Z) : Z := (x / 65536) `mod` 32768.

Definition class_of (r : Z) : Z :=
  let sorteio := r `mod` 12 in
  if sorteio <? 6 then 0 else if sorteio <? 9 then 1 else if sorteio <? 11 then 2 else 3.

Lemma draw_range x : 0 <= draw x < 32768.
Proof. apply Z.mod_pos_bound. lia. Qed.

Lemma rand_lottery_ok s e :
  rand_lottery (mkWorld s e) =
  Ok (draw (next_seed (seed (kd s)))) (mkWorld (mapd (set_seed (next_seed (seed (kd s)))) s) e).
Proof. unfold rand_lottery, getd, modd. by run. Qed.

Lemma sorteio_ok s e :
  sorteio_prioridade (mkWorld s e) =
  Ok (class_of (draw (next_seed (seed (kd s))))) (mkWorld (mapd (set_seed (next_seed (seed (kd s)))) s) e).
Proof.
  unfold sorteio_prioridade. rewrite (bind_Ok _ _ _ _ _ (rand_lottery_ok s e)).
  set (r := draw _). unfold class_of. pose proof (draw_range (next_seed (seed (kd s)))) as Hr.
  change (CLASS_0_BILHETES + CLASS_1_BILHETES + CLASS_2_BILHETES + CLASS_3_BILHETES) with 12.
  change (CLASS_0_BILHETES + CLASS_1_BILHETES + CLASS_2_BILHETES) with 11.
  change (CLASS_0_BILHETES + CLASS_1_BILHETES) with 9. change CLASS_0_BILHETES with 6.
  rewrite Z.rem_mod_nonneg by (subst r; lia). by repeat case_match.
Qed.

Lemma class_of_range r : 0 <= class_of r < 4.
Proof. unfold class_of. repeat case_match; lia. Qed.

Lemma next_seed_lcg x : next_seed x = lcg 1103515245 1248345 (2 ^ Z.of_nat 32) x.
Proof.
  unfold next_seed, lcg, wrap_u. change (2 ^ Z.of_nat 32) with (2 ^ 32).
  rewrite Z.add_mod_idemp_l by lia. f_equal. lia.
Qed.

(** [n] draws in a row. *)
Fixpoint sorteios (n : nat) : M (list Z) :=
  match n with
  | O => mret []
  | S n => k ← sorteio_prioridade; ks ← sorteios n; mret (k :: ks)
  end.

Lemma mapd_set_seed x s : mapd (set_seed x) (mapd (set_seed (seed (kd s))) s) = mapd (set_seed x) s.
Proof. by destruct s as [? ? ? ? []]. Qed.

Lemma sorteios_ok n s e :
  sorteios n (mkWorld s e) =
  Ok ((fun i => class_of (draw (Nat.iter (S i) next_seed (seed (kd s))))) <$> seq 0 n)
     (mkWorld (mapd (set_seed (Nat.iter n next_seed (seed (kd s)))) s) e).
Proof.
  revert s. induction n as [|n IH]; intros s; cbn [sorteios].
  - by destruct s as [? ? ? ? []].
  - rewrite (bind_Ok _ _ _ _ _ (sorteio_ok s e)), (bind_Ok _ _ _ _ _ (IH _)). run.
    cbn [seq fmap list_fmap]. rewrite <- fmap_S_seq, <- list_fmap_compose. f_equal.
    + f_equal. apply list_fmap_ext. intros i x _. cbn [compose]. do 2 f_equal.
      cbn [mapd kd set_kd set_seed seed]. by rewrite <- Nat.iter_succ_r.
    + f_equal. cbn [mapd kd set_kd set_seed seed]. rewrite <- Nat.iter_succ_r. by destruct s as [? ? ? ? []].
Qed.

(** How often each class comes up among the possible values of a draw. *)
Definition odds (k : Z) : Z := if k =? 0 then 16386 else if k =? 1 then 8192 else if k =? 2 then 5460 else 2730.

Lemma odds_draw k : 0 <= k < 4 -> cnt (fun r => class_of r =? k) (Z.to_nat 32768) = odds k.
Proof.
  intros Hk. replace (Z.to_nat 32768) with (Z.to_nat 2730 * 12 + 8)%nat by lia.
  rewrite cnt_add. unfold class_of at 1.
  rewrite (cnt_mod (fun x => (if x <? 6 then 0 else if x <? 9 then 1 else if x <? 11 then 2 else 3) =? k) 12) by lia.
  rewrite (cnt_ext _ (fun x => class_of x =? k) 8).
  - rewrite Z2Nat.id by lia. assert (k = 0 \/ k = 1 \/ k = 2 \/ k = 3) as [-> | [-> | [-> | -> ] ] ] by lia;
      by vm_compute.
  - intros x Hx. f_equal. unfold class_of. rewrite Nat2Z.inj_mul, Z2Nat.id by lia.
    change (2730 * Z.of_nat 12 + x) with (2730 * 12 + x). rewrite Z.add_comm, Z.mod_add by lia. done.
Qed.

Lemma odds_seed k : 0 <= k < 4 ->
  cnt (fun x => class_of (draw x) =? k) (Z.to_nat (2 ^ 32)) = 131072 * odds k.
Proof.
  intros Hk. replace (Z.to_nat (2 ^ 32)) with (2 * Z.to_nat 32768 * Z.to_nat 65536)%nat by lia.
  rewrite (cnt_ext _ (fun x => class_of ((x / Z.of_nat (Z.to_nat 65536)) `mod` 32768) =? k)).
  2:{ intros x _. unfold draw. by rewrite Z2Nat.id. }
  rewrite (cnt_div (fun y => class_of (y `mod` 32768) =? k)) by lia.
  rewrite (cnt_ext _ (fun y => class_of (y `mod` Z.of_nat (Z.to_nat 32768)) =? k)).
  2:{ intros x _. by rewrite (Z2Nat.id 32768). }
  rewrite (cnt_mod (fun r => class_of r =? k)), odds_draw by lia. lia.
Qed.

Lemma length_filter_fmap {A B} (f : A -> B) (P : B -> Prop) `{!forall x, Decision (P x)} (l : list A) :
  length (filter P (f <$> l)) = length (filter (fun x => P (f x)) l).
Proof.
  induction l as [|x l IH]; [done|]. rewrite fmap_cons, !filter_cons.
  destruct (decide (P (f x))); cbn [length]; lia.
Qed.

Lemma iter_next_seed n x :
  Nat.iter n next_seed x = Nat.iter n (lcg 1103515245 1248345 (2 ^ Z.of_nat 32)) x.
Proof. induction n as [|n IH]; [done|]. by rewrite !Nat.iter_succ, IH, next_seed_lcg. Qed.

Lemma next_seed_orbit x N : Z.of_nat N = 2 ^ 32 ->
  ((fun i => Nat.iter i next_seed (next_seed x)) <$> seq 0 N) ≡ₚ seqZ 0 (2 ^ 32).
Proof.
  intros HN. pose proof (lcg_orbit 1103515245 1248345 32 ltac:(done) ltac:(done) (next_seed x)) as H.
  change (2 ^ Z.of_nat 32) with (2 ^ 32) in H. rewrite <- H; [|apply u32_range].
  replace (Z.to_nat (2 ^ 32)) with N by lia.
  rewrite (list_fmap_ext _ (fun i => Nat.iter i (lcg 1103515245 1248345 (2 ^ 32)) (next_seed x)) _);
    [done|]. intros _ i _. apply iter_next_seed.
Qed.



(** ** A round *)

(** The processes the lottery may run when class [k] is drawn. *)
Definition eligible (k : Z) (s : kstate) (p : nat) : bool :=
  match procs (kd s) !! p with
  | Some pr => bool_decide (p_state pr = RUNNABLE) && (p_classe pr =? k)
  | None => false
  end.

(** The slot [i] places after [start], around the table. *)
Definition slot (start : Z) (i : nat) : nat := Z.to_nat ((start + Z.of_nat i) `mod` Z.of_nat NPROC).

(** The first eligible slot from [start] on. *)
Definition pick (k : Z) (start : Z) (s : kstate) : option nat :=
  (fun ip => slot start ip.1) <$> list_find (fun i => eligible k s (slot start i) = true) (seq 0 NPROC).

Lemma slot_lt start i : (slot start i < NPROC)%nat.
Proof.
  unfold slot. pose proof (Z.mod_pos_bound (start + Z.of_nat i) (Z.of_nat NPROC) ltac:(unfold NPROC; lia)). lia.
Qed.

Definition advance (k : Z) (p : nat) (d : kdata) : kdata :=
  set_last_index (<[Z.to_nat k := (Z.of_nat p + 1) `mod` Z.of_nat NPROC]> (last_index d)) d.

Section round.
Context (s : kstate) (k start : Z) (Hs : idle s) (Hstart : 0 <= start < Z.of_nat NPROC).

Lemma loteria_idx i : (i < NPROC)%nat ->
  Z.rem (s32 (start + Z.of_nat i)) (Z.of_nat NPROC) = Z.of_nat (slot start i).
Proof.
  intros Hi. unfold NPROC in *. rewrite s32_small, Z.rem_mod_nonneg by lia. unfold slot.
  rewrite Z2Nat.id; [done|]. apply Z.mod_pos_bound. unfold NPROC. lia.
Qed.

Lemma loteria_try_skip i e : (i < NPROC)%nat -> eligible k s (slot start i) = false ->
  loteria_try (tp s) k start i (mkWorld s e) = Ok None (mkWorld s e).
Proof.
  intros Hi He. destruct Hs as (Hst & Hn & _ & _ & Ht & Hf). unfold loteria_try.
  rewrite loteria_idx by done. rewrite (proj2 (Z.leb_le 0 _)) by lia. rewrite Nat2Z.id. run.
  set (p := slot start i) in *. pose proof (slot_lt start i) as Hp. fold p in Hp.
  destruct (table_lookup s p Ht Hp) as [pr Hpr]. specialize (Hf p Hp). step acquire_ok.
  rewrite (bind_Ok _ _ _ _ _ (get_proc_ok p pr (acq (LProc p) s) e Hpr)).
  unfold eligible in He. rewrite Hpr in He. rewrite He.
  by rewrite (bind_Ok _ _ _ _ _ (release_acq (LProc p) s e Hst ltac:(lia) Hf)).
Qed.

Lemma loteria_try_run i f e s' : (i < NPROC)%nat -> eligible k s (slot start i) = true ->
  let p := slot start i in
  f (on_cpu p s) = acq (LProc p) s' -> settled s' -> noff s' = 0 -> tp s' = tp s ->
  is_free s' (LProc p) ->
  loteria_try (tp s) k start i (mkWorld s (f :: e)) =
  Ok (Some tt) (mkWorld (mapd (advance k p) (set_cur None s')) e).
Proof.
  intros Hi He p Hfp Hs' Hn' Htp Hfr. destruct Hs as (Hst & Hn & _ & _ & Ht & Hf). unfold loteria_try.
  rewrite loteria_idx by done. rewrite (proj2 (Z.leb_le 0 _)) by lia. rewrite Nat2Z.id. run.
  fold p. pose proof (slot_lt start i) as Hp. fold p in Hp, He.
  destruct (table_lookup s p Ht Hp) as [pr Hpr]. specialize (Hf p Hp). step acquire_ok.
  rewrite (bind_Ok _ _ _ _ _ (get_proc_ok p pr (acq (LProc p) s) _ Hpr)).
  unfold eligible in He. rewrite Hpr in He. rewrite He.
  rewrite (dispatch_bind _ (tp s) p pr s f e s' (proj1 Hst) ltac:(lia) eq_refl Hpr Hfp (proj1 Hs') ltac:(lia) Htp).
  rewrite (bind_Ok _ _ _ tt (mkWorld (set_cur None s') e)).
  2:{ apply release_acq; [by apply settled_set_cur| |done]. rewrite noff_set_cur by apply Hs'. lia. }
  unfold modd. run. unfold advance, NPROC in *. by rewrite s32_small, Z.rem_mod_nonneg by lia.
Qed.

(** The inner loop, when nothing is eligible and when something is. *)
Lemma loteria_scan_none e : pick k start s = None ->
  for_find (seq 0 NPROC) (loteria_try (tp s) k start) (mkWorld s e) = Ok None (mkWorld s e).
Proof.
  unfold pick. intros H%fmap_None%list_find_None.
  assert (forall l, (forall i, i ∈ l -> (i < NPROC)%nat) -> Forall (fun i => ~ eligible k s (slot start i) = true) l ->
    for_find l (loteria_try (tp s) k start) (mkWorld s e) = Ok None (mkWorld s e)) as Hl.
  { induction l as [|i l IH]; intros Hb Hn; [done|]. inversion Hn as [|? ? H1 H2]; subst. cbn [for_find].
    rewrite (bind_Ok _ _ _ _ _ (loteria_try_skip i e ltac:(apply Hb; by left) ltac:(by apply not_true_iff_false))).
    apply IH; [|done]. intros j Hj. apply Hb. by right. }
  apply Hl; [|done]. intros i Hi%elem_of_seq. lia.
Qed.

Lemma loteria_scan_some i w :
  (i < NPROC)%nat -> (forall j, (j < i)%nat -> eligible k s (slot start j) = false) -> ks w = s ->
  for_find (seq 0 NPROC) (loteria_try (tp s) k start) w =
  (loteria_try (tp s) k start i ≫= fun r =>
     match r with
     | Some a => mret (Some a)
     | None => for_find (seq (S i) (NPROC - S i)) (loteria_try (tp s) k start)
     end) w.
Proof.
  intros Hi Hb Hw. destruct w as [s0 e]. cbn [ks] in Hw. subst s0.
  replace NPROC with (i + S (NPROC - S i))%nat at 1 by lia. rewrite seq_app. cbn [seq Nat.add].
  rewrite for_find_app, (bind_Ok _ _ _ None (mkWorld s e)); [done|].
  assert (forall l, (forall j, j ∈ l -> (j < i)%nat) ->
    for_find l (loteria_try (tp s) k start) (mkWorld s e) = Ok None (mkWorld s e)) as Hl.
  { induction l as [|j l IH]; intros Hj; [done|]. cbn [for_find].
    assert (j < i)%nat as Hji by (apply Hj; by left).
    rewrite (bind_Ok _ _ _ _ _ (loteria_try_skip j e ltac:(lia) (Hb j Hji))).
    apply IH. intros j' Hj'. apply Hj. by right. }
  apply Hl. intros j Hj%elem_of_seq. lia.
Qed.

Lemma loteria_try_blocks i : (i < NPROC)%nat -> eligible k s (slot start i) = true ->
  loteria_try (tp s) k start i (mkWorld s []) = Blocked (mkWorld (on_cpu (slot start i) s) []).
Proof.
  intros Hi He. destruct Hs as (Hst & Hn & _ & _ & Ht & Hf). unfold loteria_try.
  rewrite loteria_idx by done. rewrite (proj2 (Z.leb_le 0 _)) by lia. rewrite Nat2Z.id. run.
  set (p := slot start i) in *. pose proof (slot_lt start i) as Hp. fold p in Hp, He.
  destruct (table_lookup s p Ht Hp) as [pr Hpr]. specialize (Hf p Hp). step acquire_ok.
  rewrite (bind_Ok _ _ _ _ _ (get_proc_ok p pr (acq (LProc p) s) _ Hpr)).
  unfold eligible in He. rewrite Hpr in He. rewrite He.
  apply (dispatch_blocks _ (tp s) p pr s (proj1 Hst) ltac:(lia) eq_refl Hpr).
Qed.
End round.

Lemma pick_Some k start s p : pick k start s = Some p <->
  exists i, (i < NPROC)%nat /\ p = slot start i /\ eligible k s p = true /\
    forall j, (j < i)%nat -> eligible k s (slot start j) = false.
Proof.
  unfold pick. rewrite fmap_Some. split.
  - intros ([i x] & (Hl & He & Hb)%list_find_Some & ->). apply lookup_seq in Hl as [-> Hi].
    exists i. cbn [fst]. split; [done|]. split; [done|]. split; [done|].
    intros j Hj. apply not_true_iff_false. apply (Hb j j); [|done]. apply lookup_seq. lia.
  - intros (i & Hi & -> & He & Hb). exists (i, i). split; [|done]. apply list_find_Some.
    split; [apply lookup_seq; lia|]. split; [done|].
    intros j y [-> Hj]%lookup_seq Hlt. cbn [Nat.add]. by rewrite (Hb j Hlt).
Qed.

(** The draw of this round, and the scheduler's state after it. *)
Definition drawn (s : kstate) : Z := class_of (draw (next_seed (seed (kd s)))).
Definition reseed (s : kstate) : kstate := mapd (set_seed (next_seed (seed (kd s)))) s.
Definition turn (k : Z) (s : kstate) : Z := default 0 (last_index (kd s) !! Z.to_nat k).

Definition li_ok (s : kstate) : Prop :=
  length (last_index (kd s)) = 4%nat /\ Forall (fun x => 0 <= x < Z.of_nat NPROC) (last_index (kd s)).

Lemma turn_range k s : li_ok s -> 0 <= k < 4 ->
  zlookup (last_index (kd s)) k = Some (turn k s) /\ 0 <= turn k s < Z.of_nat NPROC.
Proof.
  intros [Hl Hf] Hk. unfold turn.
  destruct (lookup_lt_is_Some_2 (last_index (kd s)) (Z.to_nat k)) as [x Hx]; [lia|].
  rewrite Hx. split; [apply zlookup_Some; split; [lia|done]|]. rewrite Forall_lookup in Hf. by apply (Hf _ _ Hx).
Qed.

Lemma loteria_round_scan s e : idle s -> li_ok s ->
  loteria_round (tp s) (mkWorld s e) =
  (for_find (seq 0 NPROC) (loteria_try (tp s) (drawn s) (turn (drawn s) s));; mret tt)
    (mkWorld (reseed s) e).
Proof.
  intros (Hst & Hn & Hi & _) Hli. unfold loteria_round.
  rewrite (bind_Ok _ _ _ tt (mkWorld s e)).
  2:{ rewrite intr_on_ok by apply Hst. by rewrite inton_id. }
  rewrite (bind_Ok _ _ _ _ _ (sorteio_ok s e)). fold (drawn s) (reseed s). unfold getd. run.
  change (last_index (kd (reseed s))) with (last_index (kd s)).
  by rewrite (proj1 (turn_range (drawn s) s Hli (class_of_range _))).
Qed.

Lemma loteria_round_none s e : idle s -> li_ok s -> pick (drawn s) (turn (drawn s) s) s = None ->
  loteria_round (tp s) (mkWorld s e) = Ok tt (mkWorld (reseed s) e).
Proof.
  intros Hs Hli Hp. rewrite loteria_round_scan by done.
  pose proof (turn_range (drawn s) s Hli (class_of_range _)) as [_ Hr].
  by rewrite (bind_Ok _ _ _ _ _ (loteria_scan_none (reseed s) _ _ Hs Hr e Hp)).
Qed.

Lemma loteria_round_blocks s p : idle s -> li_ok s -> pick (drawn s) (turn (drawn s) s) s = Some p ->
  loteria_round (tp s) (mkWorld s []) = Blocked (mkWorld (on_cpu p (reseed s)) []).
Proof.
  intros Hs Hli (i & Hi & -> & He & Hb)%pick_Some. rewrite loteria_round_scan by done.
  pose proof (turn_range (drawn s) s Hli (class_of_range _)) as [_ Hr].
  change (tp s) with (tp (reseed s)). unfold mbind at 1, Prog_bind at 1.
  rewrite (loteria_scan_some (reseed s) _ _ Hs Hr i (mkWorld (reseed s) []) Hi Hb eq_refl).
  unfold mbind, Prog_bind. by rewrite (loteria_try_blocks (reseed s) _ _ Hs Hr i Hi He).
Qed.

Lemma loteria_round_run s p f e s' : idle s -> li_ok s -> pick (drawn s) (turn (drawn s) s) s = Some p ->
  f (on_cpu p (reseed s)) = acq (LProc p) s' -> settled s' -> noff s' = 0 -> tp s' = tp s ->
  is_free s' (LProc p) ->
  loteria_round (tp s) (mkWorld s (f :: e)) =
  Ok tt (mkWorld (mapd (advance (drawn s) p) (set_cur None s')) e).
Proof.
  intros Hs Hli (i & Hi & -> & He & Hb)%pick_Some Hf Hs' Hn' Ht Hfr. rewrite loteria_round_scan by done.
  pose proof (turn_range (drawn s) s Hli (class_of_range _)) as [_ Hr].
  change (tp s) with (tp (reseed s)). unfold mbind at 1, Prog_bind at 1.
  rewrite (loteria_scan_some (reseed s) _ _ Hs Hr i (mkWorld (reseed s) (f :: e)) Hi Hb eq_refl).
  by rewrite (bind_Ok _ _ _ _ _ (loteria_try_run (reseed s) _ _ Hs Hr i f e s' Hi He Hf Hs' Hn' Ht Hfr)).
Qed.

(** ** Rounds in which every process uses its slice and yields *)

Definition round_eff (s : kstate) : kstate :=
  let k := drawn s in
  match pick k (turn k s) s with
  | None => reseed s
  | Some p => mapd (advance k p) (mapd (emit [Z.of_nat p]) (reseed s))
  end.

Lemma idle_mapd f s : idle s -> length (procs (f (kd s))) = NPROC -> idle (mapd f s).
Proof. intros (H1 & H2 & H3 & H4 & H5 & H6) Hf. repeat (split; [done|]). done. Qed.

Lemma round_eff_inv s : idle s -> li_ok s ->
  idle (round_eff s) /\ li_ok (round_eff s) /\ procs (kd (round_eff s)) = procs (kd s) /\
  seed (kd (round_eff s)) = next_seed (seed (kd s)) /\ tp (round_eff s) = tp s.
Proof.
  intros Hs Hli. pose proof Hs as (_ & _ & _ & _ & Ht & _). unfold round_eff.
  destruct (pick _ _ s) as [p|].
  - split; [repeat (apply idle_mapd; [|done]); exact Hs|]. split; [|done].
    destruct Hli as [Hl Hf]. split; [cbn; by rewrite length_insert|].
    cbn. apply Forall_insert; [done|]. apply Z.mod_pos_bound. done.
  - split; [by apply idle_mapd|]. done.
Qed.

Lemma loteria_round_quantum s m : idle s -> li_ok s ->
  exists m', (m <= S m')%nat /\
  loteria_round (tp s) (mkWorld s (replicate (S m) quantum)) =
  Ok tt (mkWorld (round_eff s) (replicate m' quantum)) /\ (m <= m')%nat.
Proof.
  intros Hs Hli. unfold round_eff. destruct (pick (drawn s) (turn (drawn s) s) s) as [p|] eqn:E.
  - exists m. split; [lia|]. split; [|lia]. cbn [replicate].
    pose proof E as (i & Hi & Hp & He & _)%pick_Some.
    pose proof Hs as (Hst & Hn & _ & Hc & Ht & Hf).
    destruct (table_lookup s p Ht) as [pr Hpr]; [rewrite Hp; apply slot_lt|].
    unfold eligible in He. rewrite Hpr in He. apply andb_true_iff in He as [Hr _].
    apply bool_decide_eq_true in Hr.
    rewrite (loteria_round_run s p quantum _ (mapd (emit [Z.of_nat p]) (set_cur (Some p) (reseed s))) Hs Hli E).
    + do 2 f_equal. rewrite set_cur_mapd, set_cur_set_cur by apply Hst. do 2 f_equal.
      rewrite <- Hc. apply (set_cur_id (reseed s)).
    + apply (quantum_on_cpu p pr); [apply Hst|exact Hpr|done].
    + by apply (settled_set_cur (Some p) (reseed s)).
    + change (noff (set_cur (Some p) (reseed s)) = 0). rewrite noff_set_cur; [done|apply Hst].
    + done.
    + apply Hf. rewrite Hp. apply slot_lt.
  - exists (S m). split; [lia|]. split; [|lia]. by apply loteria_round_none.
Qed.

Lemma loteria_rounds n s m : idle s -> li_ok s -> (n <= m)%nat ->
  exists m', times n (loteria_round (tp s)) (mkWorld s (replicate m quantum)) =
    Ok tt (mkWorld (Nat.iter n round_eff s) (replicate m' quantum)).
Proof.
  revert s m. induction n as [|n IH]; intros s m Hs Hli Hm; [by exists m|].
  destruct m as [|m]; [lia|]. destruct (loteria_round_quantum s m Hs Hli) as (m1 & _ & E & Hm1).
  destruct (round_eff_inv s Hs Hli) as (Hs1 & Hli1 & _ & _ & Ht).
  destruct (IH (round_eff s) m1 Hs1 Hli1 ltac:(lia)) as [m' E'].
  exists m'. cbn [times]. rewrite (bind_Ok _ _ _ _ _ E), <- Ht, E'. by rewrite <- Nat.iter_succ_r.
Qed.

(** How far around the table [p] is from the slot the next search starts at. *)
Definition dist (k : Z) (p : nat) (s : kstate) : Z := (Z.of_nat p - turn k s) `mod` Z.of_nat NPROC.

Lemma slot_dist k p s : (p < NPROC)%nat -> 0 <= turn k s < Z.of_nat NPROC ->
  slot (turn k s) (Z.to_nat (dist k p s)) = p.
Proof.
  intros Hp Ht. unfold slot, dist.
  pose proof (Z.mod_pos_bound (Z.of_nat p - turn k s) (Z.of_nat NPROC) ltac:(lia)).
  rewrite Z2Nat.id, Z.add_mod_idemp_r by lia.
  replace (turn k s + (Z.of_nat p - turn k s)) with (Z.of_nat p) by lia. rewrite Z.mod_small; lia.
Qed.

Lemma turn_advance s k q : li_ok s -> 0 <= k < 4 -> drawn s = k ->
  pick k (turn k s) s = Some q -> turn k (round_eff s) = (Z.of_nat q + 1) `mod` Z.of_nat NPROC.
Proof.
  intros [Hl _] Hk Hd Hp. unfold round_eff. rewrite Hd, Hp. unfold turn. cbn.
  rewrite list_lookup_insert_eq by lia. done.
Qed.

Lemma turn_other s k : drawn s ≠ k -> 0 <= k -> turn k (round_eff s) = turn k s.
Proof.
  intros Hd Hk. unfold round_eff. destruct (pick _ _ s); [|done]. unfold turn. cbn.
  pose proof (class_of_range (draw (next_seed (seed (kd s))))). fold (drawn s) in H.
  by rewrite list_lookup_insert_ne by lia.
Qed.

(** A draw of [k] either dispatches [p] or brings its turn closer. *)
Lemma dist_decreases s k p : idle s -> li_ok s -> 0 <= k < 4 -> drawn s = k -> eligible k s p = true ->
  (p < NPROC)%nat ->
  exists q, pick k (turn k s) s = Some q /\ (q = p \/ 0 <= dist k p (round_eff s) < dist k p s).
Proof.
  intros Hs Hli Hk Hd He Hp. destruct (turn_range k s Hli Hk) as [_ Ht].
  pose proof (slot_dist k p s Hp Ht) as Hsd.
  pose proof (Z.mod_pos_bound (Z.of_nat p - turn k s) (Z.of_nat NPROC) ltac:(lia)) as Hdr.
  fold (dist k p s) in Hdr. destruct (pick k (turn k s) s) as [q|] eqn:E.
  - exists q. split; [done|]. pose proof E as (i & Hi & Hq & Heq & Hb)%pick_Some.
    destruct (lt_eq_lt_dec i (Z.to_nat (dist k p s))) as [[Hlt|Heq']|Hgt].
    + right. unfold dist at 1 2. rewrite (turn_advance s k q Hli Hk Hd E).
      assert (Z.of_nat q = (turn k s + Z.of_nat i) `mod` Z.of_nat NPROC) as ->.
      { rewrite Hq. unfold slot. rewrite Z2Nat.id; [done|]. apply Z.mod_pos_bound. lia. }
      rewrite Z.add_mod_idemp_l, Zminus_mod_idemp_r by lia.
      replace (Z.of_nat p - (turn k s + Z.of_nat i + 1)) with (Z.of_nat p - turn k s - (Z.of_nat i + 1)) by lia.
      rewrite <- Zminus_mod_idemp_l. fold (dist k p s). rewrite Z.mod_small; lia.
    + left. by rewrite Hq, Heq'.
    + specialize (Hb _ Hgt). rewrite Hsd in Hb. congruence.
  - exfalso. unfold pick in E. apply fmap_None, list_find_None in E. rewrite Forall_forall in E.
    apply (E (Z.to_nat (dist k p s))); [apply elem_of_seq; lia|by rewrite Hsd].
Qed.

(** The classes the next [n] rounds draw. *)
Fixpoint draws (n : nat) (x : Z) : list Z :=
  match n with
  | O => []
  | S n => class_of (draw (next_seed x)) :: draws n (next_seed x)
  end.

Definition times_drawn (k : Z) (n : nat) (s : kstate) : nat :=
  length (filter (fun x => x = k) (draws n (seed (kd s)))).

Lemma out_round s : exists new, uart_out (uartS (kd (round_eff s))) = new ++ uart_out (uartS (kd s)) /\
  forall p, (p < NPROC)%nat -> pick (drawn s) (turn (drawn s) s) s = Some p -> Z.of_nat p ∈ new.
Proof.
  unfold round_eff. destruct (pick _ _ s) as [q|]; [|by exists []].
  exists [u8 (Z.of_nat q)]. split; [done|]. intros p Hp [= ->]. unfold NPROC in Hp.
  rewrite wrap_u_small by lia. by apply list_elem_of_singleton.
Qed.

Lemma dispatched_in_time n s k p : idle s -> li_ok s -> 0 <= k < 4 -> eligible k s p = true -> (p < NPROC)%nat ->
  dist k p s < Z.of_nat (times_drawn k n s) ->
  exists new, uart_out (uartS (kd (Nat.iter n round_eff s))) = new ++ uart_out (uartS (kd s)) /\
    Z.of_nat p ∈ new.
Proof.
  revert s. induction n as [|n IH]; intros s Hs Hli Hk He Hp Hd.
  { pose proof (Z.mod_pos_bound (Z.of_nat p - turn k s) (Z.of_nat NPROC) ltac:(done)).
    unfold dist, times_drawn in Hd. cbn in Hd. lia. }
  destruct (round_eff_inv s Hs Hli) as (Hs1 & Hli1 & Ep & Es & _).
  assert (eligible k (round_eff s) p = true) as He1 by (unfold eligible; by rewrite Ep).
  destruct (out_round s) as (new1 & Eo & Hin).
  assert (forall n s, exists new, uart_out (uartS (kd (Nat.iter n round_eff s))) = new ++ uart_out (uartS (kd s))) as Hmono.
  { induction n0 as [|n0 IH0]; intros s0; [by exists []|]. rewrite Nat.iter_succ.
    destruct (out_round (Nat.iter n0 round_eff s0)) as (a & -> & _). destruct (IH0 s0) as [b ->].
    exists (a ++ b). by rewrite app_assoc. }
  unfold times_drawn in Hd. cbn [draws] in Hd. fold (drawn s) in Hd. rewrite filter_cons in Hd.
  rewrite <- Es in Hd. fold (times_drawn k n (round_eff s)) in Hd. rewrite Nat.iter_succ_r.
  destruct (decide (drawn s = k)) as [E|E].
  - cbn [length] in Hd. fold (times_drawn k n (round_eff s)) in Hd.
    destruct (dist_decreases s k p Hs Hli Hk E He Hp) as (q & Hq & [->|Hlt]).
    + destruct (Hmono n (round_eff s)) as [new2 ->]. rewrite Eo.
      exists (new2 ++ new1). rewrite app_assoc. split; [done|].
      apply elem_of_app. right. apply Hin; [done|]. by rewrite E.
    + destruct (IH (round_eff s) Hs1 Hli1 Hk He1 Hp ltac:(lia)) as (new2 & -> & Hin2).
      exists (new2 ++ new1). rewrite Eo, app_assoc. split; [done|]. apply elem_of_app. by left.
  - fold (times_drawn k n (round_eff s)) in Hd.
    assert (dist k p (round_eff s) = dist k p s) as Ed by (unfold dist; rewrite turn_other; [done|done|lia]).
    destruct (IH (round_eff s) Hs1 Hli1 Hk He1 Hp ltac:(lia)) as (new2 & -> & Hin2).
    exists (new2 ++ new1). rewrite Eo, app_assoc. split; [done|]. apply elem_of_app. by left.
Qed.

(** ** Theorems on rounds *)

(** C6: a round of the lottery.  From the state between two rounds, the
    round draws a class [k] and searches the table from [last_index[k]] on, once
    around.  If no process of the class is runnable it changes nothing but the
    seed.  Otherwise it gives the hart to the first such process: RUNNING,
    current on this hart, with its lock held and every other process as it was.
    When the process gives the hart back, the round ends with its lock free, no
    current process, and [last_index[k]] one past its slot. *)
Theorem loteria_round_spec s :
  idle s -> li_ok s ->
  let k := drawn s in
  (pick k (turn k s) s = None /\
   (forall p, eligible k s p = false) /\
   forall e, loteria_round (tp s) (mkWorld s e) = Ok tt (mkWorld (reseed s) e)) \/
  (exists p, pick k (turn k s) s = Some p /\ eligible k s p = true /\
   (forall q, eligible k s q = true -> dist k p s <= dist k q s) /\
   loteria_round (tp s) (mkWorld s []) = Blocked (mkWorld (on_cpu p (reseed s)) []) /\
   forall f e s', f (on_cpu p (reseed s)) = acq (LProc p) s' -> settled s' -> noff s' = 0 ->
     tp s' = tp s -> is_free s' (LProc p) ->
     loteria_round (tp s) (mkWorld s (f :: e)) = Ok tt (mkWorld (mapd (advance k p) (set_cur None s')) e)).
Proof.
  intros Hs Hli k. pose proof (class_of_range (draw (next_seed (seed (kd s))))) as Hk. fold (drawn s) k in Hk.
  destruct (turn_range k s Hli Hk) as [_ Ht]. pose proof Hs as (_ & _ & _ & _ & Htab & _).
  assert (forall q, eligible k s q = true -> (q < NPROC)%nat) as Hlt.
  { intros q Hq. unfold eligible in Hq. destruct (procs (kd s) !! q) eqn:E; [|done].
    rewrite <- Htab. by eapply lookup_lt_Some. }
  destruct (pick k (turn k s) s) as [p|] eqn:E.
  - right. exists p. pose proof E as (i & Hi & Hp & He & Hb)%pick_Some.
    split; [done|]. split; [done|]. split; [|split; [by apply loteria_round_blocks|]].
    + intros q Hq. specialize (Hlt q Hq). pose proof (slot_dist k q s Hlt Ht) as Hsd.
      pose proof (Z.mod_pos_bound (Z.of_nat q - turn k s) (Z.of_nat NPROC) ltac:(lia)) as Hd. fold (dist k q s) in Hd.
      assert (dist k p s = Z.of_nat i) as ->.
      { unfold dist. rewrite Hp. unfold slot. rewrite Z2Nat.id by (apply Z.mod_pos_bound; lia).
        rewrite Zminus_mod_idemp_l. replace (turn k s + Z.of_nat i - turn k s) with (Z.of_nat i) by lia.
        apply Z.mod_small. lia. }
      destruct (Z.le_gt_cases (Z.of_nat i) (dist k q s)) as [?|Hgt]; [done|].
      specialize (Hb (Z.to_nat (dist k q s)) ltac:(lia)). rewrite Hsd in Hb. congruence.
    + intros f e s' Hf Hs' Hn' Htp Hfr. by apply loteria_round_run.
  - left. split; [done|]. split; [|intros e; by apply loteria_round_none].
    intros q. apply not_true_iff_false. intros Hq. pose proof (slot_dist k q s (Hlt q Hq) Ht) as Hsd.
    unfold pick in E. apply fmap_None, list_find_None in E. rewrite Forall_forall in E.
    apply (E (Z.to_nat (dist k q s))); [|by rewrite Hsd]. apply elem_of_seq.
    pose proof (Z.mod_pos_bound (Z.of_nat q - turn k s) (Z.of_nat NPROC) ltac:(lia)) as Hd.
    fold (dist k q s) in Hd. lia.
Qed.

(** One process of class 0 in slot 5. *)
Definition lone : kstate := idle_with (<[5%nat := ready 6 0 0 100]> (replicate NPROC proc0)).

Lemma lone_idle : idle lone.
Proof. apply idle_idle_with. by rewrite length_insert. Qed.

Lemma lone_li_ok : li_ok lone.
Proof. split; [done|]. repeat constructor; done. Qed.

Lemma loteria_round_spec_witness :
  let k := drawn lone in
  (pick k (turn k lone) lone = None /\
   (forall p, eligible k lone p = false) /\
   forall e, loteria_round (tp lone) (mkWorld lone e) = Ok tt (mkWorld (reseed lone) e)) \/
  (exists p, pick k (turn k lone) lone = Some p /\ eligible k lone p = true /\
   (forall q, eligible k lone q = true -> dist k p lone <= dist k q lone) /\
   loteria_round (tp lone) (mkWorld lone []) = Blocked (mkWorld (on_cpu p (reseed lone)) []) /\
   forall f e s', f (on_cpu p (reseed lone)) = acq (LProc p) s' -> settled s' -> noff s' = 0 ->
     tp s' = tp lone -> is_free s' (LProc p) ->
     loteria_round (tp lone) (mkWorld lone (f :: e)) = Ok tt (mkWorld (mapd (advance k p) (set_cur None s')) e)).
Proof. apply (loteria_round_spec lone lone_idle lone_li_ok). Defined.

(** C29: the lottery starves nobody.  If every dispatched process uses its
    slice and yields, then among any [n] rounds in which class [k] is drawn at
    least NPROC times, every runnable process of class [k] is dispatched. *)
Theorem lottery_no_starvation n s k p pr :
  idle s -> li_ok s -> procs (kd s) !! p = Some pr -> p_state pr = RUNNABLE -> p_classe pr = k ->
  0 <= k < 4 -> (NPROC <= times_drawn k n s)%nat ->
  exists s' e', scheduler_loteria n (mkWorld s (replicate n quantum)) = Ok tt (mkWorld s' e') /\
    exists new, uart_out (uartS (kd s')) = new ++ uart_out (uartS (kd s)) /\ Z.of_nat p ∈ new.
Proof.
  intros Hs Hli Hp Hr Hc Hk Hn. pose proof Hs as (_ & _ & _ & _ & Ht & _).
  destruct (loteria_rounds n s n Hs Hli ltac:(lia)) as [m' E].
  exists (Nat.iter n round_eff s), (replicate m' quantum). split.
  - unfold scheduler_loteria, mycpu, cpuid. by run.
  - apply (dispatched_in_time n s k p Hs Hli Hk).
    + unfold eligible. rewrite Hp, Hr, Hc, Z.eqb_refl. by rewrite bool_decide_eq_true_2.
    + rewrite <- Ht. by eapply lookup_lt_Some.
    + pose proof (Z.mod_pos_bound (Z.of_nat p - turn k s) (Z.of_nat NPROC) ltac:(done)) as Hd.
      fold (dist k p s) in Hd. lia.
Qed.

Lemma lottery_no_starvation_witness :
  exists s' e', scheduler_loteria 160 (mkWorld lone (replicate 160 quantum)) = Ok tt (mkWorld s' e') /\
    exists new, uart_out (uartS (kd s')) = new ++ uart_out (uartS (kd lone)) /\ 5 ∈ new.
Proof.
  apply (lottery_no_starvation 160 lone 0 5 (ready 6 0 0 100)).
  - apply lone_idle.
  - apply lone_li_ok.
  - reflexivity.
  - reflexivity.
  - reflexivity.
  - lia.
  - vm_compute. lia.
Defined.
