(* ===== verification/Stride.v ===== *)
(** * The stride scheduler

    scheduler_stride and scheduler of kernel/proc.c: a round scans the process
    table for the runnable process with the smallest pass, the larger pid on a
    tie, keeping the lock of the best one seen so far; it runs that process and
    adds its stride to its pass.  One iteration of the endless loop is
    [stride_round].

    The theorems: a round dispatches the least runnable process in the order of
    (pass, - pid) with exactly its lock held; in runs where processes use their
    slice and yield, dispatches are proportional to the inverse of the strides
    to within one round; a process with stride 0 keeps the hart forever. *)

From S2P Require Import Prelude Prog State Spinlock Printf Switch Dispatch Loteria.

(** ** proc.c *)

(** One turn of the scan; [m] is [min_pass_proc]. *)
Definition stride_visit (m : option nat) (i : nat) : M (option nat) :=
  acquire (LProc i);;
  pr ← get_proc i;
  if bool_decide (p_state pr = RUNNABLE) then
    take ← match m with
           | None => mret true
           | Some q =>
             qr ← get_proc q;
             mret ((p_pass pr <? p_pass qr) || ((p_pass pr =? p_pass qr) && (p_pid qr <? p_pid pr)))
           end;
    if (take : bool) then
      match m with Some q => release (LProc q) | None => mret tt end;;
      mr ← get_proc i;
      printf "min pass=%d pid=%d
" [AInt (p_pass mr); AInt (p_pid mr)];;
      mret (Some i)
    else
      release (LProc i);;
      mret m
  else
    release (LProc i);;
    mret m.

(** One iteration of [for(;;)]. *)
Definition stride_round (c : nat) : M unit :=
  intr_on;;
  m ← for_fold (seq 0 NPROC) stride_visit None;
  match m with
  | None => mret tt
  | Some q =>
    upd_proc q (set_p_state RUNNING);;
    upd_cpu c (set_c_proc (Some q));;
    swtch;;
    upd_cpu c (set_c_proc None);;
    upd_proc q (fun pr => set_p_pass (s32 (p_pass pr + p_stride pr)) pr);;
    pr ← get_proc q;
    printf "soma do passo: %d
" [AInt (p_pass pr)];;
    release (LProc q)
  end.

(** The first [n] iterations of the endless loop. *)
Definition scheduler_stride (n : nat) : M unit :=
  c ← mycpu;
  times n (stride_round c).

(** The schedulers never return, so the outer loop of scheduler() runs once:
    the mode is read when the hart starts. *)
Definition scheduler (n : nat) : M unit :=
  mode ← getd scheduler_mode;
  if mode =? 0 then scheduler_loteria n else scheduler_stride n.

(** ** The choice *)

Definition better (pr qr : proc) : bool :=
  (p_pass pr <? p_pass qr) || ((p_pass pr =? p_pass qr) && (p_pid qr <? p_pid pr)).

Definition visit (ps : list proc) (m : option nat) (i : nat) : option nat :=
  match ps !! i with
  | Some pr =>
    if bool_decide (p_state pr = RUNNABLE) then
      match m ≫= (ps !!.) with
      | None => Some i
      | Some qr => if better pr qr then Some i else m
      end
    else m
  | None => m
  end.

Definition best (ps : list proc) : option nat := foldl (visit ps) None (seq 0 (length ps)).

Definition runnable (ps : list proc) (i : nat) (pr : proc) : Prop :=
  ps !! i = Some pr /\ p_state pr = RUNNABLE.

Lemma better_true p q : better p q = true <->
  p_pass p < p_pass q \/ (p_pass p = p_pass q /\ p_pid q < p_pid p).
Proof. unfold better. by rewrite orb_true_iff, andb_true_iff, !Z.ltb_lt, Z.eqb_eq. Qed.

Lemma better_false p q : better p q = false <->
  p_pass q < p_pass p \/ (p_pass p = p_pass q /\ p_pid p <= p_pid q).
Proof. rewrite <- not_true_iff_false, better_true. lia. Qed.

Lemma better_irrefl pr : better pr pr = false.
Proof. rewrite better_false. lia. Qed.

Lemma better_trans p q r : better p q = false -> better q r = false -> better p r = false.
Proof. rewrite !better_false. lia. Qed.

Lemma better_asym p q : better p q = true -> better q p = false.
Proof. rewrite better_true, better_false. lia. Qed.

(** The best of the first slots is minimal among them. *)
Lemma visits_spec ps n : (n <= length ps)%nat ->
  match foldl (visit ps) None (seq 0 n) with
  | None => forall i pr, (i < n)%nat -> ~ runnable ps i pr
  | Some q => (q < n)%nat /\ exists qr, runnable ps q qr /\
      forall i pr, (i < n)%nat -> runnable ps i pr -> better pr qr = false
  end.
Proof.
  induction n as [|n IH]; intros Hn; [cbn; intros; lia|].
  rewrite seq_S, foldl_app. cbn [foldl Nat.add]. specialize (IH ltac:(lia)).
  destruct (lookup_lt_is_Some_2 ps n ltac:(lia)) as [pr Hpr]. unfold visit at 1. rewrite Hpr.
  destruct (foldl (visit ps) None (seq 0 n)) as [q|] eqn:E.
  - destruct IH as (Hq & qr & Hqr & Hmin). cbn [mbind option_bind]. rewrite (proj1 Hqr).
    destruct (decide (p_state pr = RUNNABLE)) as [Hr|Hr].
    + rewrite bool_decide_eq_true_2 by done. destruct (better pr qr) eqn:Eb.
      * split; [lia|]. exists pr. split; [done|]. intros i pr' Hi Hi'.
        destruct (decide (i = n)) as [->|]; [destruct Hi'; simplify_eq; apply better_irrefl|].
        apply (better_trans _ qr); [apply (Hmin i); [lia|done]|].
        by apply better_asym.
      * split; [lia|]. exists qr. split; [done|]. intros i pr' Hi Hi'.
        destruct (decide (i = n)) as [->|]; [destruct Hi'; by simplify_eq|]. apply (Hmin i); [lia|done].
    + rewrite bool_decide_eq_false_2 by done. split; [lia|]. exists qr. split; [done|].
      intros i pr' Hi Hi'. destruct (decide (i = n)) as [->|]; [destruct Hi'; by simplify_eq|].
      apply (Hmin i); [lia|done].
  - cbn [mbind option_bind]. destruct (decide (p_state pr = RUNNABLE)) as [Hr|Hr].
    + rewrite bool_decide_eq_true_2 by done. split; [lia|]. exists pr. split; [done|].
      intros i pr' Hi Hi'. destruct (decide (i = n)) as [->|]; [destruct Hi'; simplify_eq; apply better_irrefl|].
      exfalso. apply (IH i pr'); [lia|done].
    + rewrite bool_decide_eq_false_2 by done. intros i pr' Hi Hi'.
      destruct (decide (i = n)) as [->|]; [destruct Hi'; by simplify_eq|]. apply (IH i pr'); [lia|done].
Qed.

Lemma best_Some ps q : best ps = Some q ->
  exists qr, runnable ps q qr /\ forall i pr, runnable ps i pr -> better pr qr = false.
Proof.
  intros E. pose proof (visits_spec ps (length ps) ltac:(lia)) as H. fold (best ps) in H. rewrite E in H.
  destruct H as (_ & qr & Hqr & Hmin). exists qr. split; [done|]. intros i pr Hi.
  apply (Hmin i); [|done]. eapply lookup_lt_Some, Hi.
Qed.

Lemma best_None ps : best ps = None -> forall i pr, ~ runnable ps i pr.
Proof.
  intros E i pr Hi. pose proof (visits_spec ps (length ps) ltac:(lia)) as H. fold (best ps) in H.
  rewrite E in H. apply (H i pr); [|done]. eapply lookup_lt_Some, Hi.
Qed.

(** ** The messages of a round *)

Definition text (s : string) : list piece := PChar <$> bytes_of s.
Definition dec (z : Z) : piece := PInt (chr "d") z.

Definition min_msg (pr : proc) : list Z :=
  (text "min pass=" ++ [dec (p_pass pr)] ++ text " pid=" ++ [dec (p_pid pr)] ++ text "
") ≫= piece_out.

Definition sum_msg (z : Z) : list Z :=
  (text "soma do passo: " ++ [dec z] ++ text "
") ≫= piece_out.

Definition int32 (z : Z) : Prop := - 2 ^ 31 <= z < 2 ^ 31.

Definition ints_ok (pr : proc) : Prop := int32 (p_pass pr) /\ int32 (p_pid pr).

Lemma dec_ok z : int32 z -> piece_ok (dec z).
Proof.
  intros H. split; [by left|]. unfold dec. cbn [piece_out]. rewrite length_rev.
  etrans; [apply (int_fits z H)|lia].
Qed.

Lemma s32_int32 z : int32 (s32 z).
Proof. exact (wrap_s_range 32 z ltac:(lia)). Qed.

Lemma writes_min_msg pr : ints_ok pr ->
  writes (printf_loop (bytes_of "min pass=%d pid=%d
") [AInt (p_pass pr); AInt (p_pid pr)]) (min_msg pr) tt.
Proof.
  intros [H1 H2].
  apply (writes_pieces (text "min pass=" ++ [dec (p_pass pr)] ++ text " pid=" ++ [dec (p_pid pr)] ++ text "
")).
  pose proof (dec_ok _ H1). pose proof (dec_ok _ H2).
  repeat first [apply Forall_nil_2 | apply Forall_cons_2]; done.
Qed.

Lemma writes_sum_msg z : int32 z ->
  writes (printf_loop (bytes_of "soma do passo: %d
") [AInt z]) (sum_msg z) tt.
Proof.
  intros H. apply (writes_pieces (text "soma do passo: " ++ [dec z] ++ text "
")).
  pose proof (dec_ok _ H). repeat first [apply Forall_nil_2 | apply Forall_cons_2]; done.
Qed.

(** ** The scan *)

(** Output is possible: the device accepts bytes and, when printf locks, its
    lock is free. *)
Definition can_print (s : kstate) : Prop := quiet s /\ (pr_locking (kd s) ≠ 0 -> is_free s LPr).

(** The state of the scan: the lock of the best process so far is held. *)
Definition holding_best (m : option nat) (s : kstate) : kstate :=
  match m with Some q => acq (LProc q) s | None => s end.

Definition visit_msg (ps : list proc) (m : option nat) (i : nat) : list Z :=
  if bool_decide (visit ps m i = m) then [] else
  match ps !! i with Some pr => min_msg pr | None => [] end.

Fixpoint scan_msgs (ps : list proc) (m : option nat) (l : list nat) : list Z :=
  match l with
  | [] => []
  | i :: l => visit_msg ps m i ++ scan_msgs ps (visit ps m i) l
  end.

(** What a scan of the whole table writes. *)
Definition scan_out (ps : list proc) : list Z := scan_msgs ps None (seq 0 (length ps)).

Lemma visit_cases ps m i : visit ps m i = m \/ visit ps m i = Some i.
Proof. unfold visit. repeat case_match; auto. Qed.

Lemma scan_out_none ps : best ps = None -> scan_out ps = [].
Proof.
  unfold best, scan_out. generalize (seq 0 (length ps)) as l.
  assert (forall l q, foldl (visit ps) (Some q) l ≠ None) as Hsome.
  { induction l as [|i l IH]; intros q; cbn; [done|].
    destruct (visit_cases ps (Some q) i) as [-> | -> ]; apply IH. }
  induction l as [|i l IH]; cbn [foldl scan_msgs]; [done|]. intros H.
  destruct (visit_cases ps None i) as [E|E]; rewrite E in H; [|by apply Hsome in H].
  unfold visit_msg. rewrite bool_decide_eq_true_2 by done. rewrite E. by apply IH.
Qed.

Section scan.
Context (s : kstate) (Hst : settled s) (Hn : noff s = 0) (Ht : table_ok s) (Hf : procs_free s).
Context (Hp : can_print s) (Hi : Forall ints_ok (procs (kd s))).

Lemma holding_settled m o : settled (holding_best m (mapd (emit o) s)) /\
  noff (holding_best m (mapd (emit o) s)) < 2.
Proof.
  destruct m as [q|]; cbn [holding_best].
  - split; [apply (settled_acq (LProc q) s); [apply Hst|lia]|].
    change (noff (acq (LProc q) s) < 2). rewrite noff_acq by apply Hst. lia.
  - split; [exact Hst|]. change (noff s < 2). lia.
Qed.

Lemma holding_free m o i : (i < NPROC)%nat -> m ≠ Some i ->
  is_free (holding_best m (mapd (emit o) s)) (LProc i).
Proof.
  intros Hlt Hm. destruct m as [q|]; cbn [holding_best]; [|by apply Hf].
  apply is_free_acq_ne; [congruence|by apply Hf].
Qed.

Lemma take_visit m i pr o e : (forall q, m = Some q -> (q < i)%nat) -> (i < NPROC)%nat ->
  procs (kd s) !! i = Some pr ->
  (match m with Some q => release (LProc q) | None => mret tt end;;
   mr ← get_proc i;
   printf "min pass=%d pid=%d
" [AInt (p_pass mr); AInt (p_pid mr)];;
   mret (Some i)) (mkWorld (acq (LProc i) (holding_best m (mapd (emit o) s))) e) =
  Ok (Some i) (mkWorld (acq (LProc i) (mapd (emit (o ++ min_msg pr)) s)) e).
Proof.
  intros Hm Hlt Hpr. pose proof (Forall_lookup_1 _ _ _ _ Hi Hpr) as Hints. set (s1 := mapd (emit o) s).
  rewrite (bind_Ok _ _ _ tt (mkWorld (acq (LProc i) s1) e)).
  2:{ destruct m as [q|]; cbn [holding_best]; [|done].
      assert (LProc q ≠ LProc i) by (intros [= ->]; specialize (Hm i eq_refl); lia).
      pose proof (proj1 Hst) as (_ & _ & ?).
      assert (hart_ok (acq (LProc q) s1)) as Ho by (apply hart_ok_acq; [apply Hst|change (noff s < 2147483646); lia]).
      assert (noff (acq (LProc q) s1) = 1) as En by (rewrite noff_acq by apply Hst; change (noff s1) with (noff s); lia).
      rewrite release_ok.
      - rewrite rel_acq_acq; [done|done|apply Hst|change (noff s < 2147483646); lia|].
        apply Hf. specialize (Hm q eq_refl). lia.
      - apply hart_ok_acq; [done|lia].
      - apply held_acq_ne; [done|apply held_acq].
      - by apply intr_acq.
      - rewrite noff_acq by done. lia. }
  rewrite (bind_Ok _ _ _ _ _ (get_proc_ok i pr (acq (LProc i) s1) e Hpr)).
  rewrite (bind_Ok _ _ _ 0 (mkWorld (mapd (emit (min_msg pr)) (acq (LProc i) s1)) e)).
  - run. do 2 f_equal. rewrite <- acq_mapd. subst s1. by rewrite emit_app.
  - apply printf_ok; [by apply writes_min_msg| | | |].
    + apply (settled_acq (LProc i) s); [apply Hst|lia].
    + change (noff (acq (LProc i) s) < 2147483645). rewrite noff_acq by apply Hst. lia.
    + by apply quiet_emit, Hp.
    + intros Hl. apply is_free_acq_ne; [done|]. by apply Hp.
Qed.

Lemma stride_visit_ok m i o e : (forall q, m = Some q -> (q < i)%nat) -> (i < NPROC)%nat ->
  stride_visit m i (mkWorld (holding_best m (mapd (emit o) s)) e) =
  Ok (visit (procs (kd s)) m i)
     (mkWorld (holding_best (visit (procs (kd s)) m i)
                (mapd (emit (o ++ visit_msg (procs (kd s)) m i)) s)) e).
Proof.
  intros Hm Hlt. set (s1 := holding_best m (mapd (emit o) s)).
  destruct (holding_settled m o) as [Hs1 Hn1]. fold s1 in Hs1, Hn1.
  assert (m ≠ Some i) as Hmi by (intros ->; specialize (Hm i eq_refl); lia).
  pose proof (holding_free m o i Hlt Hmi) as Hf1. fold s1 in Hf1.
  destruct (table_lookup s i Ht Hlt) as [pr Hpr]. unfold stride_visit. step acquire_ok.
  assert (forall j, procs (kd s1) !! j = procs (kd s) !! j) as Hps by (intros j; subst s1; by destruct m).
  rewrite (bind_Ok _ _ _ _ _ (get_proc_ok i pr (acq (LProc i) s1) e ltac:(by rewrite <- Hpr, <- Hps))).
  assert (release (LProc i) (mkWorld (acq (LProc i) s1) e) = Ok tt (mkWorld s1 e)) as Hrel
    by (apply release_acq; [done|lia|done]).
  assert (visit (procs (kd s)) m i = m -> s1 = holding_best (visit (procs (kd s)) m i)
    (mapd (emit (o ++ visit_msg (procs (kd s)) m i)) s)) as Hstay.
  { intros E. unfold visit_msg. rewrite bool_decide_eq_true_2 by done. by rewrite E, app_nil_r. }
  assert (visit (procs (kd s)) m i = Some i -> acq (LProc i) (mapd (emit (o ++ min_msg pr)) s) =
    holding_best (visit (procs (kd s)) m i) (mapd (emit (o ++ visit_msg (procs (kd s)) m i)) s)) as Hmove.
  { intros E. unfold visit_msg. rewrite bool_decide_eq_false_2 by congruence. by rewrite E, Hpr. }
  unfold visit in *. rewrite Hpr in *. destruct (bool_decide (p_state pr = RUNNABLE)).
  2:{ rewrite (bind_Ok _ _ _ _ _ Hrel). run. by rewrite <- Hstay. }
  destruct m as [q|]; cbn [mbind option_bind] in *.
  - destruct (table_lookup s q Ht ltac:(specialize (Hm q eq_refl); lia)) as [qr Hqr]. rewrite Hqr in *. run.
    rewrite (bind_Ok _ _ _ _ _ (get_proc_ok q qr (acq (LProc i) s1) e ltac:(by rewrite <- Hqr, <- Hps))). run.
    fold (better pr qr). destruct (better pr qr).
    + rewrite <- Hmove by done. by apply (take_visit (Some q)).
    + rewrite (bind_Ok _ _ _ _ _ Hrel). run. by rewrite <- Hstay.
  - run. rewrite <- Hmove by done. by apply (take_visit None).
Qed.

Lemma scan_from n i m o e : (forall q, m = Some q -> (q < i)%nat) -> (i + n <= NPROC)%nat ->
  for_fold (seq i n) stride_visit m (mkWorld (holding_best m (mapd (emit o) s)) e) =
  Ok (foldl (visit (procs (kd s))) m (seq i n))
     (mkWorld (holding_best (foldl (visit (procs (kd s))) m (seq i n))
                (mapd (emit (o ++ scan_msgs (procs (kd s)) m (seq i n))) s)) e).
Proof.
  revert i m o. induction n as [|n IH]; intros i m o Hm Hlt; cbn [seq for_fold foldl scan_msgs].
  - run. by rewrite app_nil_r.
  - rewrite (bind_Ok _ _ _ _ _ (stride_visit_ok m i o e Hm ltac:(lia))), IH.
    + by rewrite app_assoc.
    + intros q Hq. destruct (visit_cases (procs (kd s)) m i) as [E|E]; rewrite E in Hq.
      * specialize (Hm q Hq). lia.
      * injection Hq as <-. lia.
    + lia.
Qed.

Lemma scan_ok e :
  for_fold (seq 0 NPROC) stride_visit None (mkWorld s e) =
  Ok (best (procs (kd s)))
     (mkWorld (holding_best (best (procs (kd s))) (mapd (emit (scan_out (procs (kd s)))) s)) e).
Proof.
  pose proof (scan_from NPROC 0 None [] e ltac:(done) ltac:(lia)) as E.
  unfold best, scan_out. rewrite Ht. cbn [holding_best] in E. rewrite emit_nil in E. exact E.
Qed.
End scan.

(** ** A round *)

Definition add_stride (pr : proc) : proc := set_p_pass (s32 (p_pass pr + p_stride pr)) pr.

(** Between two rounds, with output possible. *)
Definition stride_idle (s : kstate) : Prop := idle s /\ can_print s /\ Forall ints_ok (procs (kd s)).

Lemma stride_round_scan s e : stride_idle s ->
  stride_round (tp s) (mkWorld s e) =
  match best (procs (kd s)) with
  | None => Ok tt (mkWorld s e)
  | Some q =>
    (upd_proc q (set_p_state RUNNING);; upd_cpu (tp s) (set_c_proc (Some q));; swtch;;
     upd_cpu (tp s) (set_c_proc None);;
     upd_proc q add_stride;; pr ← get_proc q;
     printf "soma do passo: %d
" [AInt (p_pass pr)];; release (LProc q))
      (mkWorld (acq (LProc q) (mapd (emit (scan_out (procs (kd s)))) s)) e)
  end.
Proof.
  intros ((Hst & Hn & Hi & _ & Ht & Hf) & Hp & Hints). unfold stride_round.
  rewrite (bind_Ok _ _ _ tt (mkWorld s e)).
  2:{ rewrite intr_on_ok by apply Hst. by rewrite inton_id. }
  rewrite (bind_Ok _ _ _ _ _ (scan_ok s Hst Hn Ht Hf Hp Hints e)).
  destruct (best (procs (kd s))) as [q|] eqn:E; [done|]. cbn [holding_best].
  rewrite scan_out_none by done. by rewrite emit_nil.
Qed.

Lemma stride_round_blocks s q : stride_idle s -> best (procs (kd s)) = Some q ->
  stride_round (tp s) (mkWorld s []) =
  Blocked (mkWorld (on_cpu q (mapd (emit (scan_out (procs (kd s)))) s)) []).
Proof.
  intros Hs E. rewrite stride_round_scan, E by done. destruct Hs as ((Hst & Hn & _ & _ & Ht & _) & _).
  destruct (best_Some _ _ E) as (qr & [Hq _] & _).
  apply (dispatch_blocks _ (tp s) q qr (mapd _ s)); [apply Hst|change (noff s < 2147483646); lia|done|done].
Qed.

Lemma stride_round_run s q f e s' qr' : stride_idle s -> best (procs (kd s)) = Some q ->
  f (on_cpu q (mapd (emit (scan_out (procs (kd s)))) s)) = acq (LProc q) s' ->
  settled s' -> noff s' = 0 -> tp s' = tp s -> is_free s' (LProc q) -> can_print s' ->
  procs (kd s') !! q = Some qr' ->
  stride_round (tp s) (mkWorld s (f :: e)) =
  Ok tt (mkWorld (mapd (emit (sum_msg (p_pass (add_stride qr')))) (mapd (at_proc q add_stride) (set_cur None s'))) e).
Proof.
  intros Hs E Hfq Hs' Hn' Ht' Hfr Hp' Hq'. rewrite stride_round_scan, E by done.
  destruct Hs as ((Hst & Hn & _ & _ & Ht & _) & _). destruct (best_Some _ _ E) as (qr & [Hq _] & _).
  rewrite (dispatch_bind _ (tp s) q qr (mapd _ s) f e s'); [|apply Hst|change (noff s < 2147483646); lia|
    done|done|done|apply Hs'|lia|done].
  set (s2 := set_cur None s').
  assert (settled s2) as Hs2 by (by apply settled_set_cur).
  assert (noff s2 = 0) as Hn2 by (unfold s2; rewrite noff_set_cur; [done|apply Hs']).
  rewrite (bind_Ok _ _ _ _ _ (upd_proc_ok q _ qr' (acq (LProc q) s2) e Hq')).
  pose proof (at_proc_lookup q add_stride (kd (acq (LProc q) s2)) qr' Hq') as Hq2.
  rewrite (bind_Ok _ _ _ _ _ (get_proc_ok q _ (mapd _ (acq (LProc q) s2)) e Hq2)).
  rewrite (bind_Ok _ _ _ 0 (mkWorld (mapd (emit (sum_msg (p_pass (add_stride qr'))))
    (mapd (at_proc q add_stride) (acq (LProc q) s2))) e)).
  - rewrite !mapd_mapd. apply release_mapd_acq; [done|lia|exact Hfr].
  - apply printf_ok; [apply writes_sum_msg, s32_int32| | | |].
    + apply (settled_acq (LProc q) s2); [apply Hs2|lia].
    + change (noff (acq (LProc q) s2) < 2147483645). rewrite noff_acq by apply Hs2. lia.
    + apply Hp'.
    + intros Hl. apply (is_free_acq_ne (LProc q) LPr s2); [done|]. by apply Hp'.
Qed.

(** ** Rounds in which every process uses its slice and yields *)

Definition step (ps : list proc) : list proc :=
  match best ps with None => ps | Some q => alter add_stride q ps end.

Lemma can_print_emit o s : can_print s -> can_print (mapd (emit o) s).
Proof. intros [Hq Hl]. split; [by apply quiet_emit|exact Hl]. Qed.

Lemma stride_round_quantum s m : stride_idle s ->
  exists s' m', stride_round (tp s) (mkWorld s (replicate (S m) quantum)) =
    Ok tt (mkWorld s' (replicate m' quantum)) /\ (m <= m')%nat /\
    stride_idle s' /\ procs (kd s') = step (procs (kd s)) /\ tp s' = tp s.
Proof.
  intros Hs. unfold step. destruct (best (procs (kd s))) as [q|] eqn:E.
  - pose proof Hs as ((Hst & Hn & Hi & Hc & Ht & Hf) & Hp & Hints).
    destruct (best_Some _ _ E) as (qr & [Hq Hr] & _).
    assert (q < NPROC)%nat as Hlt by (rewrite <- Ht; by eapply lookup_lt_Some).
    set (s1 := mapd (emit (scan_out (procs (kd s)))) s).
    set (s2 := mapd (emit [Z.of_nat q]) (set_cur (Some q) s1)).
    set (s3 := mapd (emit [Z.of_nat q]) s1).
    assert (set_cur None s2 = s3) as E3.
    { unfold s2, s3. rewrite set_cur_mapd, set_cur_set_cur by apply Hst. f_equal.
      rewrite <- Hc. apply (set_cur_id s1). }
    assert (stride_idle (mapd (at_proc q add_stride) s3)) as Hidle.
    { split; [apply idle_mapd; [repeat (apply idle_mapd; [|done]); apply Hs|]|].
      - cbn. by rewrite length_alter.
      - split; [exact (can_print_emit _ _ (can_print_emit _ _ Hp))|]. cbn.
        apply Forall_alter; [done|]. intros pr Hpr [_ Hpid]. split; [apply s32_int32|done]. }
    exists (mapd (emit (sum_msg (p_pass (add_stride qr)))) (mapd (at_proc q add_stride) s3)), m.
    split; [|split; [lia|]].
    + cbn [replicate]. rewrite <- E3. apply (stride_round_run s q quantum _ s2 qr Hs E).
      * by apply (quantum_on_cpu q qr s1); [apply Hst|exact Hq|].
      * by apply (settled_set_cur (Some q) s1).
      * change (noff (set_cur (Some q) s1) = 0). rewrite noff_set_cur; [done|apply Hst].
      * done.
      * by apply Hf.
      * exact (can_print_emit _ _ (can_print_emit _ _ Hp)).
      * done.
    + split; [|done]. destruct Hidle as (Hid & Hpr & Hin).
      split; [by apply idle_mapd; [|apply Hid]|]. split; [by apply can_print_emit|done].
  - exists s, (S m). split; [by rewrite stride_round_scan, E|]. split; [lia|done].
Qed.

Lemma stride_rounds n s m : stride_idle s -> (n <= m)%nat ->
  exists s' m', times n (stride_round (tp s)) (mkWorld s (replicate m quantum)) =
    Ok tt (mkWorld s' (replicate m' quantum)) /\
    stride_idle s' /\ procs (kd s') = Nat.iter n step (procs (kd s)) /\ tp s' = tp s.
Proof.
  revert s m. induction n as [|n IH]; intros s m Hs Hm; [by exists s, m|].
  destruct m as [|m]; [lia|].
  destruct (stride_round_quantum s m Hs) as (s1 & m1 & E & Hm1 & Hs1 & Ep & Et).
  destruct (IH s1 m1 Hs1 ltac:(lia)) as (s' & m' & E' & Hs' & Ep' & Et').
  exists s', m'. cbn [times]. rewrite (bind_Ok _ _ _ _ _ E), <- Et. split; [done|]. split; [done|].
  by rewrite Ep', Ep, Et', Nat.iter_succ_r.
Qed.

(** How often each process is dispatched in the first [n] rounds. *)
Fixpoint dispatches (ps : list proc) (n i : nat) : Z :=
  match n with
  | O => 0
  | S n => dispatches ps n i + b2z (bool_decide (best (Nat.iter n step ps) = Some i))
  end.

Lemma dispatches_range ps n i : 0 <= dispatches ps n i <= Z.of_nat n.
Proof. induction n as [|n IH]; cbn [dispatches]; [lia|]. destruct (bool_decide _); cbn [b2z]; lia. Qed.

Section fair.
Context (ps : list proc) (n : nat).
Context (Hrange : forall i pr, runnable ps i pr ->
  - 2 ^ 31 <= p_pass pr /\ 0 <= p_stride pr /\ p_pass pr + Z.of_nat n * p_stride pr < 2 ^ 31).

Definition passed (k : nat) (i : nat) (pr : proc) : proc :=
  set_p_pass (p_pass pr + dispatches ps k i * p_stride pr) pr.

Lemma add_stride_passed k i pr : (k < n)%nat -> runnable ps i pr ->
  best (Nat.iter k step ps) = Some i -> add_stride (passed k i pr) = passed (S k) i pr.
Proof.
  intros Hk Hr Hb. destruct (Hrange i pr Hr) as (H1 & H2 & H3). pose proof (dispatches_range ps k i).
  unfold add_stride, passed. cbn [dispatches]. rewrite bool_decide_eq_true_2 by done. cbn [b2z].
  cbn [p_pass p_stride set_p_pass]. rewrite s32_small by nia. destruct pr. unfold set_p_pass. cbn. f_equal. lia.
Qed.

Lemma passes k i pr : (k <= n)%nat -> ps !! i = Some pr ->
  Nat.iter k step ps !! i = Some (passed k i pr) /\ (p_state pr ≠ RUNNABLE -> dispatches ps k i = 0).
Proof.
  intros Hk Hi. revert i pr Hi. induction k as [|k IH]; intros i pr Hi.
  - cbn. split; [|done]. unfold passed. cbn. rewrite Hi. f_equal. destruct pr. unfold set_p_pass. cbn. f_equal. lia.
  - specialize (IH ltac:(lia)). rewrite Nat.iter_succ. unfold step at 1.
    destruct (IH i pr Hi) as [E Hz]. destruct (best (Nat.iter k step ps)) as [q|] eqn:Eb.
    + destruct (best_Some _ _ Eb) as (qr & [Hq Hqr] & _). destruct (decide (q = i)) as [->|Hne].
      * rewrite list_lookup_alter_eq, E. cbn [fmap option_fmap option_map].
        rewrite E in Hq. injection Hq as <-. assert (runnable ps i pr) as Hr by done.
        split; [by rewrite (add_stride_passed k i pr) by (lia || done)|]. intros Hx. by destruct Hr.
      * rewrite list_lookup_alter_ne, E by done. unfold passed. cbn [dispatches]. rewrite Eb.
        rewrite bool_decide_eq_false_2 by congruence. cbn [b2z]. rewrite Z.add_0_r. done.
    + rewrite E. unfold passed. cbn [dispatches]. rewrite Eb. rewrite bool_decide_eq_false_2 by done.
      cbn [b2z]. rewrite Z.add_0_r. done.
Qed.

Lemma passes_runnable k i pr : (k <= n)%nat -> runnable ps i pr ->
  runnable (Nat.iter k step ps) i (passed k i pr).
Proof. intros Hk [Hi Hr]. by destruct (passes k i pr Hk Hi) as [E _]. Qed.

(** No runnable process is ever ahead of another by more than its stride. *)
Lemma fair_step k :
  (k <= n)%nat ->
  (forall i pr j qr, runnable ps i pr -> runnable ps j qr -> p_pass pr <= p_pass qr + p_stride pr) ->
  forall i pr j qr, runnable ps i pr -> runnable ps j qr ->
  p_pass (passed k i pr) <= p_pass (passed k j qr) + p_stride pr.
Proof.
  intros Hk H0. induction k as [|k IH]; intros i pr j qr Hi Hj.
  - cbn. specialize (H0 i pr j qr Hi Hj). lia.
  - specialize (IH ltac:(lia) i pr j qr Hi Hj). destruct (Hrange i pr Hi) as (_ & Hsi & _).
    destruct (Hrange j qr Hj) as (_ & Hsj & _). unfold passed in *. cbn [p_pass set_p_pass dispatches] in *.
    destruct (best (Nat.iter k step ps)) as [q|] eqn:Eb; [|rewrite !bool_decide_eq_false_2 by done; cbn [b2z]; lia].
    destruct (decide (q = i)) as [->|Hne].
    + destruct (best_Some _ _ Eb) as (qr' & [Hq Hqr] & Hmin).
      pose proof (passes_runnable k i pr ltac:(lia) Hi) as [Ei _]. rewrite Ei in Hq. injection Hq as <-.
      pose proof (Hmin j _ (passes_runnable k j qr ltac:(lia) Hj)) as Hb. apply better_false in Hb.
      unfold passed in Hb. cbn [p_pass set_p_pass] in Hb. rewrite bool_decide_eq_true_2 by done.
      destruct (bool_decide (Some i = Some j)); cbn [b2z]; nia.
    + rewrite (bool_decide_eq_false_2 (Some q = Some i)) by congruence.
      destruct (bool_decide (Some q = Some j)); cbn [b2z]; nia.
Qed.

Definition zsum (l : list Z) : Z := foldr Z.add 0 l.

Lemma zsum_add {A} (f g : A -> Z) l : zsum ((fun i => f i + g i) <$> l) = zsum (f <$> l) + zsum (g <$> l).
Proof. unfold zsum. induction l as [|x l IH]; cbn; [done|]. lia. Qed.

Lemma zsum_le {A} (f : A -> Z) b l : (forall x, x ∈ l -> f x <= b) -> zsum (f <$> l) <= Z.of_nat (length l) * b.
Proof.
  unfold zsum. induction l as [|x l IH]; intros H; [cbn; lia|]. cbn [fmap list_fmap foldr length].
  pose proof (H x ltac:(by left)). specialize (IH ltac:(intros y Hy; apply H; by right)). lia.
Qed.

Lemma zsum_one q k : (q < k)%nat -> zsum ((fun i => b2z (bool_decide (Some q = Some i))) <$> seq 0 k) = 1.
Proof.
  intros Hq. assert (forall m j, zsum ((fun i => b2z (bool_decide (Some q = Some i))) <$> seq j m) =
    if bool_decide (j <= q < j + m)%nat then 1 else 0) as H.
  { induction m as [|m IH]; intros j; cbn [seq fmap list_fmap zsum foldr].
    - by rewrite bool_decide_eq_false_2 by lia.
    - fold (zsum ((fun i => b2z (bool_decide (Some q = Some i))) <$> seq (S j) m)). rewrite IH.
      destruct (decide (q = j)) as [->|].
      + rewrite (bool_decide_eq_true_2 (Some j = Some j)) by done.
        rewrite (bool_decide_eq_false_2 (S j <= j < S j + m)%nat) by lia.
        by rewrite bool_decide_eq_true_2 by lia.
      + rewrite (bool_decide_eq_false_2 (Some q = Some j)) by congruence. cbn [b2z].
        rewrite (bool_decide_ext (S j <= q < S j + m)%nat (j <= q < j + S m)%nat) by lia. lia. }
  rewrite H. by rewrite bool_decide_eq_true_2 by lia.
Qed.

Lemma length_step l : length (step l) = length l.
Proof. unfold step. destruct (best l); [apply length_alter|done]. Qed.

Lemma length_steps m l : length (Nat.iter m step l) = length l.
Proof. induction m as [|m IH]; [done|]. by rewrite Nat.iter_succ, length_step. Qed.

(** Every round dispatches one process, as long as one is runnable. *)
Lemma dispatches_sum k i pr : (k <= n)%nat -> runnable ps i pr ->
  zsum (dispatches ps k <$> seq 0 (length ps)) = Z.of_nat k.
Proof.
  intros Hk Hi. induction k as [|k IH].
  - cbn [dispatches]. clear. induction (seq 0 (length ps)) as [|x l IH]; [done|]. cbn. exact IH.
  - cbn [dispatches]. rewrite zsum_add, IH by lia.
    destruct (best (Nat.iter k step ps)) as [q|] eqn:Eb.
    + rewrite zsum_one; [lia|]. destruct (best_Some _ _ Eb) as (qr & [Hq _] & _).
      apply lookup_lt_Some in Hq. by rewrite length_steps in Hq.
    + by destruct (best_None _ Eb i _ (passes_runnable k i pr ltac:(lia) Hi)).
Qed.
End fair.

(** ** Theorems *)

(** C4: a round of stride scheduling.  From the state between two rounds,
    with output possible, the scan chooses a runnable process whose pass is
    smallest and, among those, whose pid is largest; if there is none the round
    changes nothing.  The hart goes to the chosen process: RUNNING, current,
    with its lock held and no other, every other process as it was; and when it
    gives the hart back its stride has been added to its pass (modulo 2^32),
    its lock is free and the hart has no current process. *)
Theorem stride_round_spec s :
  stride_idle s ->
  match best (procs (kd s)) with
  | None => (forall i pr, ~ runnable (procs (kd s)) i pr) /\
      forall e, stride_round (tp s) (mkWorld s e) = Ok tt (mkWorld s e)
  | Some q => exists qr o, runnable (procs (kd s)) q qr /\
      (forall i pr, runnable (procs (kd s)) i pr ->
         p_pass qr < p_pass pr \/ (p_pass qr = p_pass pr /\ p_pid pr <= p_pid qr)) /\
      stride_round (tp s) (mkWorld s []) = Blocked (mkWorld (on_cpu q (mapd (emit o) s)) []) /\
      forall f e s' qr', f (on_cpu q (mapd (emit o) s)) = acq (LProc q) s' ->
        settled s' -> noff s' = 0 -> tp s' = tp s -> is_free s' (LProc q) -> can_print s' ->
        procs (kd s') !! q = Some qr' ->
        exists o', stride_round (tp s) (mkWorld s (f :: e)) =
          Ok tt (mkWorld (mapd (emit o') (mapd (at_proc q
            (fun pr => set_p_pass (s32 (p_pass pr + p_stride pr)) pr)) (set_cur None s'))) e)
  end.
Proof.
  intros Hs. destruct (best (procs (kd s))) as [q|] eqn:E.
  - destruct (best_Some _ _ E) as (qr & Hq & Hmin). exists qr, (scan_out (procs (kd s))).
    split; [done|]. split; [|split; [by apply stride_round_blocks|]].
    + intros i pr Hi. specialize (Hmin i pr Hi). rewrite better_false in Hmin. lia.
    + intros f e s' qr' Hf Hs' Hn' Ht' Hfr Hp' Hq'. eexists. by apply (stride_round_run s q f e s' qr').
  - split; [by apply best_None|]. intros e. by rewrite stride_round_scan, E.
Qed.

(** Two processes in their first round: one of stride 100, one of stride 40. *)
Definition pair : kstate :=
  idle_with (<[2%nat := ready 3 0 0 100]> (<[3%nat := ready 4 2 0 40]> (replicate NPROC proc0))).

Lemma pair_idle : stride_idle pair.
Proof.
  split; [|split].
  - apply idle_idle_with. by rewrite !length_insert.
  - split; [done|]. done.
  - apply Forall_insert; [apply Forall_insert; [apply Forall_replicate|]|]; split; split; done.
Qed.

Lemma pair_runnable i pr : runnable (procs (kd pair)) i pr ->
  (i = 2%nat /\ pr = ready 3 0 0 100) \/ (i = 3%nat /\ pr = ready 4 2 0 40).
Proof.
  intros [Hi Hr]. change (procs (kd pair)) with
    (<[2%nat := ready 3 0 0 100]> (<[3%nat := ready 4 2 0 40]> (replicate NPROC proc0))) in Hi.
  destruct (decide (i = 2%nat)) as [->|H2]; [left; by injection Hi as <-|].
  destruct (decide (i = 3%nat)) as [->|H3]; [right; by injection Hi as <-|].
  rewrite !list_lookup_insert_ne in Hi by done. apply lookup_replicate in Hi as [-> _]. done.
Qed.

Lemma stride_round_spec_witness :
  exists qr o, runnable (procs (kd pair)) 3 qr /\
    (forall i pr, runnable (procs (kd pair)) i pr ->
       p_pass qr < p_pass pr \/ (p_pass qr = p_pass pr /\ p_pid pr <= p_pid qr)) /\
    stride_round (tp pair) (mkWorld pair []) = Blocked (mkWorld (on_cpu 3 (mapd (emit o) pair)) []).
Proof.
  pose proof (stride_round_spec pair pair_idle) as H.
  change (best (procs (kd pair))) with (Some 3%nat) in H.
  destruct H as (qr & o & H1 & H2 & H3 & _). exact (ex_intro _ qr (ex_intro _ o (conj H1 (conj H2 H3)))).
Defined.






(** A process of stride 0 beside one of stride 100. *)
Definition stuck : kstate :=
  idle_with (<[2%nat := ready 3 0 0 100]> (<[3%nat := ready 4 3 0 0]> (replicate NPROC proc0))).

