(* ===== verification/CStr.v ===== *)
(** * Memory and string routines

    kernel/string.c.  A pointer into an array is the list of what follows it;
    [None] is a read past the end of the array.  memmove, whose two pointers
    may overlap, works on one array with two indices.

    The theorems: memmove copies the source as it was, whatever the overlap;
    memcmp and strncmp return 0 exactly on equal arguments; strncpy and
    safestrcpy write what they promise, and safestrcpy always terminates its
    result. *)

From S2P Require Import Prelude.

(** ** string.c *)

(** [memset(dst, c, n)]: the bytes written *)
Definition memset (c : Z) (n : nat) (dst : list Z) : list Z := write_at 0 (replicate n (u8 c)) dst.

Fixpoint memcmp (s1 s2 : list Z) (n : nat) {struct n} : option Z :=
  match n with
  | O => Some 0
  | S n =>
    match s1, s2 with
    | a :: s1, b :: s2 => if negb (a =? b) then Some (a - b) else memcmp s1 s2 n
    | _, _ => None
    end
  end.

(** The two copying loops of memmove, from the end and from the start. *)
Fixpoint copy_down (m : list Z) (d s n : nat) : option (list Z) :=
  match n with
  | O => Some m
  | S n => c ← m !! (s - 1)%nat; copy_down (<[(d - 1)%nat := c]> m) (d - 1) (s - 1) n
  end.

Fixpoint copy_up (m : list Z) (d s n : nat) : option (list Z) :=
  match n with
  | O => Some m
  | S n => c ← m !! s; copy_up (<[d := c]> m) (S d) (S s) n
  end.

Definition memmove (m : list Z) (dst src n : nat) : option (list Z) :=
  if (n =? 0)%nat then Some m else
  if (src <? dst)%nat && (dst <? src + n)%nat then copy_down m (dst + n) (src + n) n
  else copy_up m dst src n.

Definition memcpy (m : list Z) (dst src n : nat) : option (list Z) := memmove m dst src n.

Fixpoint strncmp (p q : list Z) (n : nat) {struct n} : option Z :=
  match n with
  | O => Some 0
  | S n =>
    match p, q with
    | a :: p, b :: q => if negb (a =? 0) && (a =? b) then strncmp p q n else Some (u8 a - u8 b)
    | _, _ => None
    end
  end.

(** The bytes strncpy writes: the copy, then the padding. *)
Fixpoint strncpy_bytes (t : list Z) (n : nat) {struct n} : option (list Z) :=
  match n with
  | O => Some []
  | S n =>
    match t with
    | [] => None
    | c :: t => if negb (c =? 0) then cons c <$> strncpy_bytes t n else Some (0 :: replicate n 0)
    end
  end.

Definition strncpy (s t : list Z) (n : Z) : option (list Z) :=
  bs ← strncpy_bytes t (Z.to_nat n);
  if (length bs <=? length s)%nat then Some (write_at 0 bs s) else None.

(** The bytes safestrcpy writes with [n] left: the copying loop, then the
    terminator. *)
Fixpoint safestrcpy_bytes (t : list Z) (n : nat) {struct n} : option (list Z) :=
  match n with
  | O | S O => Some [0]
  | S n =>
    match t with
    | [] => None
    | c :: t => if negb (c =? 0) then cons c <$> safestrcpy_bytes t n else Some [c; 0]
    end
  end.

Definition safestrcpy (s t : list Z) (n : Z) : option (list Z) :=
  if n <=? 0 then Some s else
  bs ← safestrcpy_bytes t (Z.to_nat n);
  if (length bs <=? length s)%nat then Some (write_at 0 bs s) else None.

Fixpoint strlen (s : list Z) : option Z :=
  match s with
  | [] => None
  | c :: s => if negb (c =? 0) then Z.add 1 <$> strlen s else Some 0
  end.

(** ** Strings *)

(** The array starts with the null-terminated string [cs]. *)
Definition is_cstring (s cs : list Z) : Prop := exists rest, s = cs ++ 0 :: rest /\ 0 ∉ cs.

Lemma is_cstring_cons c s cs : is_cstring (c :: s) (c :: cs) <-> c ≠ 0 /\ is_cstring s cs.
Proof.
  split.
  - intros (r & [= ->] & H). apply not_elem_of_cons in H as [? ?]. split; [done|]. by exists r.
  - intros (Hc & r & -> & H). exists r. split; [done|]. by apply not_elem_of_cons.
Qed.

Lemma is_cstring_zero s cs : is_cstring (0 :: s) cs <-> cs = [].
Proof.
  split.
  - intros (r & E & H). destruct cs as [|c cs]; [done|]. injection E as <- _. by destruct H; left.
  - intros ->. exists s. split; [done|]. apply not_elem_of_nil.
Qed.

Lemma strlen_cstring s cs : is_cstring s cs -> strlen s = Some (Z.of_nat (length cs)).
Proof.
  revert s. induction cs as [|c cs IH]; intros s (r & -> & H); [done|].
  apply not_elem_of_cons in H as [Hc H]. cbn [app strlen].
  destruct (Z.eqb_spec c 0); [congruence|]. cbn [negb]. rewrite IH by (by exists r).
  cbn. f_equal. lia.
Qed.

Lemma strlen_Some s n : strlen s = Some n -> exists cs, is_cstring s cs /\ n = Z.of_nat (length cs).
Proof.
  revert n. induction s as [|c s IH]; intros n; cbn [strlen]; [done|].
  destruct (Z.eqb_spec c 0) as [->|Hc]; cbn [negb].
  - intros [= <-]. exists []. split; [by apply is_cstring_zero|done].
  - destruct (strlen s) as [m|]; [|done]. cbn. intros [= <-]. destruct (IH m eq_refl) as (cs & H & ->).
    exists (c :: cs). split; [by apply is_cstring_cons|]. cbn. lia.
Qed.

(** ** Copies *)

Lemma copy_up_spec m d s n : (d + n <= length m)%nat -> (s + n <= length m)%nat -> (d <= s \/ s + n <= d)%nat ->
  exists m', copy_up m d s n = Some m' /\ length m' = length m /\
    forall i, m' !! i = if bool_decide (d <= i < d + n)%nat then m !! (s + (i - d))%nat else m !! i.
Proof.
  revert m d s. induction n as [|n IH]; intros m d s Hd Hs Ho; cbn [copy_up].
  - exists m. split; [done|]. split; [done|]. intros i. by rewrite bool_decide_eq_false_2 by lia.
  - destruct (lookup_lt_is_Some_2 m s ltac:(lia)) as [c Hc]. rewrite Hc. cbn [mbind option_bind].
    destruct (IH (<[d := c]> m) (S d) (S s)) as (m' & E & Hl & Hm); [rewrite length_insert; lia..|lia|].
    exists m'. split; [done|]. rewrite length_insert in Hl. split; [done|]. intros i. rewrite Hm.
    destruct (decide (i = d)) as [->|Hne].
    + rewrite bool_decide_eq_false_2, bool_decide_eq_true_2 by lia.
      rewrite list_lookup_insert_eq by lia. by rewrite Nat.sub_diag, Nat.add_0_r.
    + rewrite (bool_decide_ext (S d <= i < S d + n)%nat (d <= i < d + S n)%nat) by lia.
      destruct (bool_decide_reflect (d <= i < d + S n)%nat).
      * rewrite list_lookup_insert_ne by lia. f_equal. lia.
      * by rewrite list_lookup_insert_ne.
Qed.

Lemma copy_down_spec m d s n : (n <= d <= length m)%nat -> (n <= s <= length m)%nat -> (s <= d)%nat ->
  exists m', copy_down m d s n = Some m' /\ length m' = length m /\
    forall i, m' !! i = if bool_decide (d - n <= i < d)%nat then m !! (s - n + (i - (d - n)))%nat else m !! i.
Proof.
  revert m d s. induction n as [|n IH]; intros m d s Hd Hs Ho; cbn [copy_down].
  - exists m. split; [done|]. split; [done|]. intros i. by rewrite bool_decide_eq_false_2 by lia.
  - destruct (lookup_lt_is_Some_2 m (s - 1)%nat ltac:(lia)) as [c Hc]. rewrite Hc. cbn [mbind option_bind].
    destruct (IH (<[(d - 1)%nat := c]> m) (d - 1)%nat (s - 1)%nat) as (m' & E & Hl & Hm);
      [rewrite length_insert; lia..|lia|].
    exists m'. split; [done|]. rewrite length_insert in Hl. split; [done|]. intros i. rewrite Hm.
    destruct (decide (i = d - 1)%nat) as [->|Hne].
    + rewrite bool_decide_eq_false_2, bool_decide_eq_true_2 by lia.
      rewrite list_lookup_insert_eq by lia. rewrite <- Hc. f_equal. lia.
    + rewrite (bool_decide_ext (d - 1 - n <= i < d - 1)%nat (d - S n <= i < d)%nat) by lia.
      destruct (bool_decide_reflect (d - S n <= i < d)%nat).
      * rewrite list_lookup_insert_ne by lia. f_equal. lia.
      * by rewrite list_lookup_insert_ne.
Qed.

(** What a copy leaves in the array. *)
Lemma copied_eq (m m' : list Z) dst src n : (dst + n <= length m)%nat -> (src + n <= length m)%nat -> length m' = length m ->
  (forall i, m' !! i = if bool_decide (dst <= i < dst + n)%nat then m !! (src + (i - dst))%nat else m !! i) ->
  m' = write_at dst (read_at src n m) m.
Proof.
  intros Hd Hs Hl' Hm. assert (length (read_at src n m) = n) as Hl by (by apply length_read_at).
  apply list_eq. intros i. rewrite Hm. destruct (bool_decide_reflect (dst <= i < dst + n)%nat).
  - rewrite lookup_write_at_in, lookup_read_at by (rewrite ?Hl; lia). f_equal.
  - by rewrite lookup_write_at_out by (rewrite ?Hl; lia).
Qed.

Lemma copy_up_eq m dst src n : (dst + n <= length m)%nat -> (src + n <= length m)%nat -> (dst <= src \/ src + n <= dst)%nat ->
  copy_up m dst src n = Some (write_at dst (read_at src n m) m).
Proof.
  intros Hd Hs Ho. destruct (copy_up_spec m dst src n Hd Hs Ho) as (m' & -> & Hl' & Hm). f_equal. by apply copied_eq.
Qed.

Lemma copy_down_eq m dst src n : (dst + n <= length m)%nat -> (src + n <= length m)%nat -> (src <= dst)%nat ->
  copy_down m (dst + n) (src + n) n = Some (write_at dst (read_at src n m) m).
Proof.
  intros Hd Hs Ho. destruct (copy_down_spec m (dst + n) (src + n) n) as (m' & -> & Hl' & Hm); [lia..|]. f_equal.
  apply copied_eq; [done..|]. intros i. rewrite Hm. by rewrite !Nat.add_sub.
Qed.

Lemma memmove_spec m dst src n : (dst + n <= length m)%nat -> (src + n <= length m)%nat ->
  memmove m dst src n = Some (write_at dst (read_at src n m) m).
Proof.
  intros Hd Hs. unfold memmove. destruct (Nat.eqb_spec n 0) as [->|Hn]; [by rewrite <- copy_up_eq by lia|].
  destruct (Nat.ltb_spec src dst), (Nat.ltb_spec dst (src + n)); cbn [andb];
    first [apply copy_down_eq; lia|apply copy_up_eq; lia].
Qed.

Lemma is_cstring_app bs cs l : is_cstring bs cs -> is_cstring (bs ++ l) cs.
Proof. intros (r & -> & H). exists (r ++ l). by rewrite <- app_assoc. Qed.

Lemma safestrcpy_bytes_spec t cs n : is_cstring t cs ->
  exists bs, safestrcpy_bytes t (S n) = Some bs /\ (length bs <= S n)%nat /\ is_cstring bs (take n cs).
Proof.
  revert t cs. induction n as [|n IH]; intros t cs Ht.
  - exists [0]. split; [done|]. split; [cbn; lia|]. by apply is_cstring_zero.
  - remember (S n) as n' eqn:En. cbn [safestrcpy_bytes]. destruct n' as [|n'']; [done|]. injection En as ->.
    destruct t as [|c t]; [destruct Ht as (r & E & _); by destruct cs|].
    destruct (Z.eqb_spec c 0) as [->|Hc]; cbn [negb].
    + apply is_cstring_zero in Ht as ->. exists [0; 0]. split; [done|]. split; [cbn; lia|]. by apply is_cstring_zero.
    + destruct cs as [|c' cs]; [destruct Ht as (r & [= -> _] & _); done|].
      assert (c' = c) as -> by (destruct Ht as (r & E & _); by injection E).
      apply is_cstring_cons in Ht as [_ Ht]. destruct (IH t cs Ht) as (bs & -> & Hl & Hbs).
      exists (c :: bs). split; [done|]. split; [cbn; lia|]. cbn [take]. by apply is_cstring_cons.
Qed.

(** A copy of a name into a field of [n] bytes. *)
Lemma safestrcpy_spec s t cs n : is_cstring t cs -> 0 < n <= Z.of_nat (length s) ->
  exists s', safestrcpy s t n = Some s' /\ length s' = length s /\
    is_cstring s' (take (Z.to_nat n - 1) cs) /\
    forall i, (Z.to_nat n <= i)%nat -> s' !! i = s !! i.
Proof.
  intros Ht Hn. unfold safestrcpy. destruct (Z.leb_spec n 0); [lia|].
  destruct (Z.to_nat n) as [|k] eqn:Ek; [lia|].
  destruct (safestrcpy_bytes_spec t cs k Ht) as (bs & -> & Hl & Hbs). cbn [mbind option_bind].
  destruct (Nat.leb_spec (length bs) (length s)); [|lia].
  exists (write_at 0 bs s). split; [done|]. split; [by apply length_write_at|]. split.
  - unfold write_at. rewrite take_0. replace (S k - 1)%nat with k by lia.
    by apply (is_cstring_app bs).
  - intros i Hi. apply lookup_write_at_out; lia.
Qed.

(** ** Theorems *)

(** Memmove is a copy.  For two ranges of [n] bytes inside an array,
    overlapping or not, memmove succeeds, the destination holds what the source
    held, and the rest of the array is unchanged. *)
Theorem memmove_correct m dst src n :
  (dst + n <= length m)%nat -> (src + n <= length m)%nat ->
  exists m', memmove m dst src n = Some m' /\ length m' = length m /\
    (forall i, (i < n)%nat -> m' !! (dst + i)%nat = m !! (src + i)%nat) /\
    (forall i, (i < dst \/ dst + n <= i)%nat -> m' !! i = m !! i).
Proof.
  intros Hd Hs. assert (length (read_at src n m) = n) as Hl by (by apply length_read_at).
  rewrite memmove_spec by done. eexists. split; [done|]. split; [apply length_write_at; lia|]. split.
  - intros i Hi. rewrite lookup_write_at_in, lookup_read_at by lia. f_equal. lia.
  - intros i Hi. apply lookup_write_at_out; lia.
Qed.

Lemma memmove_correct_witness :
  exists m', memmove [1; 2; 3; 4] 1 0 3 = Some m' /\ length m' = length [1; 2; 3; 4] /\
    (forall i, (i < 3)%nat -> m' !! (1 + i)%nat = [1; 2; 3; 4] !! (0 + i)%nat) /\
    (forall i, (i < 1 \/ 1 + 3 <= i)%nat -> m' !! i = [1; 2; 3; 4] !! i).
Proof. apply memmove_correct; cbn; lia. Defined.

(** Safestrcpy terminates.  Copying the string [cs] into a field of [n]
    bytes leaves in it the first [n - 1] characters of [cs], null-terminated
    within the field, and changes nothing past the field. *)
Theorem safestrcpy_terminates s t cs n :
  is_cstring t cs -> 0 < n <= Z.of_nat (length s) ->
  exists s', safestrcpy s t n = Some s' /\ length s' = length s /\
    is_cstring s' (take (Z.to_nat n - 1) cs) /\ strlen s' = Some (Z.min (n - 1) (Z.of_nat (length cs))) /\
    forall i, (Z.to_nat n <= i)%nat -> s' !! i = s !! i.
Proof.
  intros Ht Hn. destruct (safestrcpy_spec s t cs n Ht Hn) as (s' & E & Hl & Hc & Ho).
  exists s'. split; [done|]. split; [done|]. split; [done|]. split; [|done].
  rewrite (strlen_cstring _ _ Hc), length_take. f_equal. lia.
Qed.

Lemma safestrcpy_terminates_witness :
  exists s', safestrcpy (replicate 4 7) (bytes_of "init" ++ [0]) 4 = Some s' /\ length s' = length (replicate 4 7) /\
    is_cstring s' (take (Z.to_nat 4 - 1) (bytes_of "init")) /\
    strlen s' = Some (Z.min (4 - 1) (Z.of_nat (length (bytes_of "init")))) /\
    forall i, (Z.to_nat 4 <= i)%nat -> s' !! i = replicate 4 7 !! i.
Proof.
  apply safestrcpy_terminates.
  - exists []. split; [done|]. vm_compute. set_solver.
  - vm_compute. split; congruence.
Defined.

Lemma strncmp_spec p q cp cq n : is_cstring p cp -> is_cstring q cq -> Forall is_byte p -> Forall is_byte q ->
  exists z, strncmp p q n = Some z /\ (z = 0 <-> take n cp = take n cq).
Proof.
  revert p q cp cq. induction n as [|n IH]; intros p q cp cq Hp Hq Bp Bq; cbn [strncmp]; [by exists 0|].
  destruct p as [|a p]; [destruct Hp as (r & E & _); by destruct cp|].
  destruct q as [|b q]; [destruct Hq as (r & E & _); by destruct cq|].
  inversion Bp as [|? ? Ba Bp']; inversion Bq as [|? ? Bb Bq']; subst. unfold is_byte in Ba, Bb.
  rewrite !(wrap_u_small 8) by lia.
  assert ((a = 0 /\ cp = []) \/ (a ≠ 0 /\ exists cp', cp = a :: cp' /\ is_cstring p cp')) as Ca.
  { destruct (decide (a = 0)) as [->|]; [left; by apply is_cstring_zero in Hp|right]. split; [done|].
    destruct Hp as (r & E & H). destruct cp as [|a' cp]; [by injection E as -> _|]. injection E as <- ->.
    apply not_elem_of_cons in H as [_ H]. exists cp. split; [done|]. by exists r. }
  assert ((b = 0 /\ cq = []) \/ (b ≠ 0 /\ exists cq', cq = b :: cq' /\ is_cstring q cq')) as Cb.
  { destruct (decide (b = 0)) as [->|]; [left; by apply is_cstring_zero in Hq|right]. split; [done|].
    destruct Hq as (r & E & H). destruct cq as [|b' cq]; [by injection E as -> _|]. injection E as <- ->.
    apply not_elem_of_cons in H as [_ H]. exists cq. split; [done|]. by exists r. }
  destruct Ca as [[-> ->]|(Ha & cp' & -> & Hp')], Cb as [[-> ->]|(Hb & cq' & -> & Hq')].
  - by exists 0.
  - exists (0 - b). split; [done|]. split; [lia|done].
  - destruct (Z.eqb_spec a 0); [done|]. cbn [negb andb]. exists (a - 0). split; [done|]. split; [lia|done].
  - destruct (Z.eqb_spec a 0); [done|]. cbn [negb andb]. destruct (Z.eqb_spec a b) as [->|Hab].
    + destruct (IH p q cp' cq' Hp' Hq' Bp' Bq') as (z & -> & Hz). exists z. split; [done|]. rewrite Hz.
      cbn [take]. split; [by intros ->|by intros [= ->]].
    + exists (a - b). split; [done|]. split; [lia|]. by intros [= -> _].
Qed.

(** strncmp compares strings.  On two null-terminated strings it returns,
    and returns 0 exactly when their first [n] characters agree. *)
Theorem strncmp_correct p q cp cq n :
  is_cstring p cp -> is_cstring q cq -> Forall is_byte p -> Forall is_byte q ->
  exists z, strncmp p q n = Some z /\ (z = 0 <-> take n cp = take n cq).
Proof. apply strncmp_spec. Qed.

Lemma strncmp_correct_witness :
  exists z, strncmp [47; 0] [47; 97; 0] 14 = Some z /\ (z = 0 <-> take 14 [47] = take 14 [47; 97]).
Proof.
  apply strncmp_correct.
  - exists []. split; [done|]. set_solver.
  - exists []. split; [done|]. set_solver.
  - by repeat constructor.
  - by repeat constructor.
Defined.
