(* ===== verification/Kalloc.v ===== *)
(** * Physical memory and its allocator

    Access to RAM, and kernel/kalloc.c.  Memory is the map [mem] from page
    addresses to pages of 4096 bytes; the allocator keeps its free pages in a
    list threaded through their first eight bytes, as in the code.

    The theorems: kalloc and kfree implement a stack of free pages (a
    refinement of the linked list to an abstract list), a page that is handed
    out is not free and no other page changes, kfree stops the machine on a bad
    address, and kinit puts exactly the pages between the end of the kernel and
    the end of RAM on the list. *)

From S2P Require Import Prelude Prog State Spinlock CStr.

(** ** RAM *)

Definition page_of (a : Z) : Z := a / PGSIZE * PGSIZE.
Definition off_of (a : Z) : nat := Z.to_nat (a `mod` PGSIZE).

Definition get_page (pa : Z) : M (list Z) := m ← getd mem; the "physical address" (m !! pa).
Definition put_page (pa : Z) (bs : list Z) : M unit := modd (fun d => set_mem (<[pa := bs]> (mem d)) d).

(** [n] bytes of one page, from address [a]. *)
Definition read_bytes (a : Z) (n : nat) : M (list Z) :=
  bs ← get_page (page_of a);
  if (off_of a + n <=? length bs)%nat then mret (read_at (off_of a) n bs) else fault "page boundary".

Definition write_bytes (a : Z) (v : list Z) : M unit :=
  bs ← get_page (page_of a);
  if (off_of a + length v <=? length bs)%nat
  then put_page (page_of a) (write_at (off_of a) v bs) else fault "page boundary".

(** [*(uint64* )a] *)
Definition read64 (a : Z) : M Z := bs ← read_bytes a 8; mret (le_combine bs).
Definition write64 (a v : Z) : M unit := write_bytes a (le_split 8 v).

(** [memset(pa, c, n)] on a page *)
Definition memset_page (pa c n : Z) : M unit :=
  bs ← get_page pa;
  put_page pa (memset c (Z.to_nat n) bs).

(** ** kalloc.c *)

Section kalloc.
Context `{LinkSyms}.

Definition kfree (pa : Z) : M unit :=
  if negb (pa `mod` PGSIZE =? 0) || (pa <? sym_end) || (PHYSTOP <=? pa) then panic "kfree" else
  memset_page pa 1 PGSIZE;;
  acquire LKmem;;
  fl ← getd freelist;
  write64 pa fl;;
  modd (set_freelist pa);;
  release LKmem.

Definition kalloc : M Z :=
  acquire LKmem;;
  r ← getd freelist;
  when (z2b r) (nx ← read64 r; modd (set_freelist nx));;
  release LKmem;;
  when (z2b r) (memset_page r 5 PGSIZE);;
  mret r.

(** [for(; p + PGSIZE <= pa_end; p += PGSIZE) kfree(p);] *)
Fixpoint freerange_loop (fuel : nat) (p pa_end : Z) : M unit :=
  match fuel with
  | O => fault "freerange fuel"
  | S n => if p + PGSIZE <=? pa_end then kfree p;; freerange_loop n (p + PGSIZE) pa_end else mret tt
  end.

(** An iteration advances by a page, so one more than the pages below [pa_end]
    is enough fuel. *)
Definition freerange (pa_start pa_end : Z) : M unit :=
  freerange_loop (S (Z.to_nat (pa_end / PGSIZE))) (PGROUNDUP pa_start) pa_end.

Definition kinit : M unit :=
  initlock LKmem "kmem";;
  freerange sym_end PHYSTOP.

(** ** The free list *)

(** A page of RAM the allocator may own. *)
Definition heap_page (pa : Z) : Prop := pa `mod` PGSIZE = 0 /\ sym_end <= pa < PHYSTOP.

Definition page_ok (m : gmap Z (list Z)) (pa : Z) : Prop :=
  exists bs, m !! pa = Some bs /\ length bs = Z.to_nat PGSIZE.

(** The word a free page starts with. *)
Definition next_of (bs : list Z) : Z := le_combine (read_at 0 8 bs).

(** [chain m p l]: following the list from [p] meets the pages [l]. *)
Inductive chain (m : gmap Z (list Z)) : Z -> list Z -> Prop :=
| chain_nil : chain m 0 []
| chain_cons pa bs l :
    heap_page pa -> m !! pa = Some bs -> length bs = Z.to_nat PGSIZE ->
    chain m (next_of bs) l -> pa ∉ l -> chain m pa (pa :: l).

(** The abstract allocator: the free pages, the one handed out next first. *)
Definition free_pages (s : kstate) (l : list Z) : Prop := chain (mem (kd s)) (freelist (kd s)) l.

Definition put_mem (pa : Z) (bs : list Z) (d : kdata) : kdata := set_mem (<[pa := bs]> (mem d)) d.

(** *** Access to a page *)

Lemma page_of_aligned pa : pa `mod` PGSIZE = 0 -> page_of pa = pa /\ off_of pa = 0%nat.
Proof.
  intros E. unfold page_of, off_of. rewrite E. split; [|done].
  pose proof (Z.div_mod pa PGSIZE ltac:(done)). lia.
Qed.

Lemma get_page_ok pa bs s e : mem (kd s) !! pa = Some bs ->
  get_page pa (mkWorld s e) = Ok bs (mkWorld s e).
Proof. intros E. unfold get_page, getd. run. by rewrite E. Qed.

Lemma put_page_ok pa bs s e : put_page pa bs (mkWorld s e) = Ok tt (mkWorld (mapd (put_mem pa bs) s) e).
Proof. unfold put_page, modd. by run. Qed.

Lemma read64_ok pa bs s e : pa `mod` PGSIZE = 0 -> mem (kd s) !! pa = Some bs -> (8 <= length bs)%nat ->
  read64 pa (mkWorld s e) = Ok (next_of bs) (mkWorld s e).
Proof.
  intros Ha Hm Hl. destruct (page_of_aligned pa Ha) as [E1 E2]. unfold read64, read_bytes. rewrite E1, E2. run.
  rewrite (bind_Ok _ _ _ _ _ (get_page_ok pa bs s e Hm)). destruct (Nat.leb_spec (0 + 8) (length bs)); [|lia]. by run.
Qed.

Lemma write64_ok pa v bs s e : pa `mod` PGSIZE = 0 -> mem (kd s) !! pa = Some bs -> (8 <= length bs)%nat ->
  write64 pa v (mkWorld s e) = Ok tt (mkWorld (mapd (put_mem pa (write_at 0 (le_split 8 v) bs)) s) e).
Proof.
  intros Ha Hm Hl. destruct (page_of_aligned pa Ha) as [E1 E2]. unfold write64, write_bytes. rewrite E1, E2.
  rewrite (bind_Ok _ _ _ _ _ (get_page_ok pa bs s e Hm)), length_le_split.
  destruct (Nat.leb_spec (0 + 8) (length bs)); [|lia]. apply put_page_ok.
Qed.

Lemma memset_page_ok pa c bs s e : mem (kd s) !! pa = Some bs -> length bs = Z.to_nat PGSIZE ->
  memset_page pa c PGSIZE (mkWorld s e) =
  Ok tt (mkWorld (mapd (put_mem pa (replicate (Z.to_nat PGSIZE) (u8 c))) s) e).
Proof.
  intros Hm Hl. unfold memset_page. rewrite (bind_Ok _ _ _ _ _ (get_page_ok pa bs s e Hm)), put_page_ok.
  unfold memset. by rewrite write_at_0_all by (by rewrite length_replicate, Hl).
Qed.

(** *** The chain *)

Lemma chain_put m p l pa bs : chain m p l -> pa ∉ l -> chain (<[pa := bs]> m) p l.
Proof.
  induction 1 as [|p bs' l Hh Hm Hl Hc IH Hni]; intros Hp; [constructor|].
  apply not_elem_of_cons in Hp as [Hne Hp]. apply (chain_cons _ p bs'); try done.
  - by rewrite lookup_insert_ne.
  - by apply IH.
Qed.

Lemma chain_inj m p l l' : chain m p l -> chain m p l' -> 0 < sym_end -> l = l'.
Proof.
  intros Hc. revert l'. induction Hc as [|p bs l Hh Hm Hl Hc IH Hni]; intros l' Hc' H0.
  - inversion Hc' as [|? ? ? Hh']; subst; [done|]. destruct Hh' as [_ ?]. lia.
  - inversion Hc' as [|? ? ? ? Hm']; subst; [destruct Hh as [_ ?]; lia|].
    rewrite Hm in Hm'. injection Hm' as <-. f_equal. by apply IH.
Qed.

Lemma chain_nodup m p l : chain m p l -> NoDup l.
Proof. induction 1; by constructor. Qed.

Lemma chain_heap m p l : chain m p l -> Forall heap_page l.
Proof. induction 1; by constructor. Qed.

Lemma chain_head m p l : chain m p l -> p = default 0 (head l).
Proof. by destruct 1. Qed.

(** What a freed page holds: the rest of the list, then junk. *)
Definition freed_page (fl : Z) : list Z :=
  write_at 0 (le_split 8 fl) (replicate (Z.to_nat PGSIZE) 1).

Lemma length_freed_page fl : length (freed_page fl) = Z.to_nat PGSIZE.
Proof. unfold freed_page. rewrite length_write_at; rewrite length_replicate; [done|]. rewrite length_le_split. unfold PGSIZE. lia. Qed.

Lemma next_of_freed_page fl : 0 <= fl < 2 ^ 64 -> next_of (freed_page fl) = fl.
Proof.
  intros Hfl. unfold next_of, freed_page. rewrite <- (length_le_split 8 fl) at 1.
  rewrite read_write_same by (rewrite length_le_split, length_replicate; unfold PGSIZE; lia).
  by apply le_combine_split_small.
Qed.

Definition junk (c : Z) : list Z := replicate (Z.to_nat PGSIZE) c.

Context `{!LinkSymsOk _}.

Lemma sym_end_pos : 0 < sym_end.
Proof. pose proof end_in_ram. unfold KERNBASE in *. lia. Qed.

Lemma heap_page_nonzero pa : heap_page pa -> z2b pa = true.
Proof. intros [_ ?]. pose proof sym_end_pos. apply z2b_nonzero. lia. Qed.

Lemma chain_range m p l : chain m p l -> 0 <= p < 2 ^ 64.
Proof.
  pose proof sym_end_pos. destruct 1 as [|pa bs l [_ ?]]; [lia|]. unfold PHYSTOP, KERNBASE in *. lia.
Qed.

(** *** The programs on the chain *)

Definition popped_page (pa nx : Z) (d : kdata) : kdata := put_mem pa (junk 5) (set_freelist nx d).
Definition pushed_page (pa : Z) (d : kdata) : kdata :=
  set_freelist pa (put_mem pa (freed_page (freelist d)) d).

Lemma kalloc_none s e : settled s -> noff s < 2147483646 -> is_free s LKmem -> freelist (kd s) = 0 ->
  kalloc (mkWorld s e) = Ok 0 (mkWorld s e).
Proof.
  intros Hs Hn Hf Hfl. unfold kalloc, getd. step acquire_ok. run.
  change (freelist (kd (acq LKmem s))) with (freelist (kd s)). rewrite Hfl. change (z2b 0) with false. run.
  by rewrite (bind_Ok _ _ _ _ _ (release_acq LKmem s e Hs Hn Hf)).
Qed.

Lemma kalloc_some s e pa bs l : settled s -> noff s < 2147483646 -> is_free s LKmem ->
  free_pages s (pa :: l) -> mem (kd s) !! pa = Some bs ->
  kalloc (mkWorld s e) = Ok pa (mkWorld (mapd (popped_page pa (next_of bs)) s) e).
Proof.
  intros Hs Hn Hf Hc Hm. unfold free_pages in Hc. inversion Hc as [|? bs' ? Hh Hm' Hl Hc' Hni]; subst.
  rewrite Hm in Hm'. injection Hm' as <-. set (pa := freelist (kd s)) in *.
  assert (8 <= length bs)%nat as H8 by (rewrite Hl; unfold PGSIZE; lia).
  unfold kalloc, getd, modd. step acquire_ok. run. change (freelist (kd (acq LKmem s))) with pa.
  rewrite (heap_page_nonzero pa Hh). run.
  rewrite (bind_Ok _ _ _ _ _ (read64_ok pa bs (acq LKmem s) e (proj1 Hh) Hm H8)). run.
  rewrite (bind_Ok _ _ _ _ _ (release_mapd_acq LKmem _ s e Hs Hn Hf)).
  run. by rewrite (bind_Ok _ _ _ _ _ (memset_page_ok pa 5 bs (mapd (set_freelist (next_of bs)) s) e Hm Hl)).
Qed.

Lemma kfree_ok s e pa bs : settled s -> noff s < 2147483646 -> is_free s LKmem ->
  heap_page pa -> mem (kd s) !! pa = Some bs -> length bs = Z.to_nat PGSIZE ->
  kfree pa (mkWorld s e) = Ok tt (mkWorld (mapd (pushed_page pa) s) e).
Proof.
  intros Hs Hn Hf Hh Hm Hl. unfold kfree.
  assert (negb (pa `mod` PGSIZE =? 0) || (pa <? sym_end) || (PHYSTOP <=? pa) = false) as ->.
  { destruct Hh as [-> ?]. rewrite Z.eqb_refl. cbn [negb orb]. apply orb_false_iff. lia. }
  rewrite (bind_Ok _ _ _ _ _ (memset_page_ok pa 1 bs s e Hm Hl)). set (s1 := mapd _ s).
  assert (settled s1 /\ noff s1 < 2147483646 /\ is_free s1 LKmem) as (Hs1 & Hn1 & Hf1) by done.
  unfold getd, modd. step acquire_ok. run.
  assert (mem (kd (acq LKmem s1)) !! pa = Some (junk 1)) as Hm1 by apply lookup_insert_eq.
  rewrite (bind_Ok _ _ _ _ _ (write64_ok pa _ (junk 1) (acq LKmem s1) e (proj1 Hh) Hm1
    ltac:(unfold junk, PGSIZE; rewrite length_replicate; lia))). run.
  rewrite mapd_mapd, release_mapd_acq by done. do 2 f_equal. subst s1. rewrite mapd_mapd.
  unfold mapd. f_equal. unfold pushed_page, put_mem. destruct (kd s). unfold set_mem, set_freelist. cbn.
  f_equal. apply insert_insert_eq.
Qed.

Lemma kfree_panic pa w : ~ heap_page pa -> kfree pa w = Panic "kfree".
Proof.
  intros Hh. unfold kfree.
  destruct (negb (pa `mod` PGSIZE =? 0) || (pa <? sym_end) || (PHYSTOP <=? pa)) eqn:E; [done|].
  exfalso. apply Hh. propify. done.
Qed.

(** *** Initialisation *)

Lemma page_mask x : 0 <= x < 2 ^ 64 -> Z.land x (u64 (Z.lnot (PGSIZE - 1))) = x / PGSIZE * PGSIZE.
Proof.
  intros Hx. change (u64 (Z.lnot (PGSIZE - 1))) with (Z.ldiff (Z.ones 64) (Z.ones 12)).
  change PGSIZE with (2 ^ 12). rewrite <- Z.shiftr_div_pow2, <- Z.shiftl_mul_pow2, <- Z.ldiff_ones_r by lia.
  apply Z.bits_inj'. intros n Hn. rewrite Z.land_spec, !Z.ldiff_spec.
  destruct (Z.lt_ge_cases n 64).
  - by rewrite (Z.ones_spec_low 64) by lia.
  - rewrite (Z.bits_above_log2 x n); [done|lia|].
    destruct (decide (x = 0)) as [->|]; [cbn; lia|]. apply Z.log2_lt_pow2; [lia|].
    eapply Z.lt_le_trans; [apply Hx|]. apply Z.pow_le_mono_r; lia.
Qed.

Lemma PGROUNDUP_spec x : 0 <= x < 2 ^ 64 - PGSIZE ->
  PGROUNDUP x = (x + PGSIZE - 1) / PGSIZE * PGSIZE.
Proof.
  intros Hx. unfold PGROUNDUP. rewrite u64_small by (unfold PGSIZE in *; lia).
  apply page_mask. unfold PGSIZE in *. lia.
Qed.

(** [n] pages from [p] on. *)
Fixpoint pages_from (p : Z) (n : nat) : list Z :=
  match n with
  | O => []
  | S n => p :: pages_from (p + PGSIZE) n
  end.

Lemma elem_of_pages_from p n q : q ∈ pages_from p n <-> exists i, (i < n)%nat /\ q = p + Z.of_nat i * PGSIZE.
Proof.
  revert p. induction n as [|n IH]; intros p; cbn [pages_from].
  - split; [by intros ?%not_elem_of_nil|intros (i & ? & _); lia].
  - rewrite elem_of_cons, IH. split.
    + intros [->|(i & Hi & ->)]; [exists 0%nat; lia|exists (S i); lia].
    + intros ([|i] & Hi & ->); [left; lia|right; exists i; lia].
Qed.

Lemma freerange_loop_ok n : forall fuel p pa_end l s e,
  (n < fuel)%nat -> p + Z.of_nat n * PGSIZE <= pa_end < p + Z.of_nat n * PGSIZE + PGSIZE ->
  settled s -> noff s < 2147483646 -> is_free s LKmem ->
  (forall q, q ∈ pages_from p n -> heap_page q /\ page_ok (mem (kd s)) q) ->
  free_pages s l -> Forall (fun q => q < p) l ->
  exists f, freerange_loop fuel p pa_end (mkWorld s e) = Ok tt (mkWorld (mapd f s) e) /\
    free_pages (mapd f s) (rev (pages_from p n) ++ l).
Proof.
  induction n as [|n IH]; intros fuel p pa_end l s e Hfu Hp Hs Hn Hf Hq Hc Hl;
    (destruct fuel as [|fuel]; [lia|]); cbn [freerange_loop pages_from] in *.
  - destruct (Z.leb_spec (p + PGSIZE) pa_end); [lia|]. exists (fun d => d). by rewrite mapd_id.
  - destruct (Z.leb_spec (p + PGSIZE) pa_end); [|unfold PGSIZE in *; lia].
    destruct (Hq p ltac:(by left)) as [Hh (bs & Hm & Hlen)].
    rewrite (bind_Ok _ _ _ _ _ (kfree_ok s e p bs Hs Hn Hf Hh Hm Hlen)).
    assert (p ∉ l) as Hpl by (intros Hin; rewrite Forall_forall in Hl; specialize (Hl _ Hin); lia).
    destruct (IH fuel (p + PGSIZE) pa_end (p :: l) (mapd (pushed_page p) s) e) as (f & E & Hc').
    + lia.
    + unfold PGSIZE in *. lia.
    + exact Hs.
    + exact Hn.
    + exact Hf.
    + intros q Hin. destruct (Hq q ltac:(by right)) as [Hhq (bsq & Hmq & Hlq)]. split; [done|].
      apply elem_of_pages_from in Hin as (i & _ & ->). exists bsq. cbn.
      rewrite lookup_insert_ne; [done|unfold PGSIZE; lia].
    + apply (chain_cons _ p (freed_page (freelist (kd s)))); [done|apply lookup_insert_eq|apply length_freed_page| |done].
      rewrite next_of_freed_page by (eapply chain_range, Hc). by apply chain_put.
    + constructor; [unfold PGSIZE; lia|]. eapply Forall_impl; [exact Hl|]. cbn. unfold PGSIZE. lia.
    + exists (fun d => f (pushed_page p d)). rewrite <- mapd_mapd. split; [done|].
      cbn [rev]. rewrite <- app_assoc. exact Hc'.
Qed.

(** ** Theorems *)

(** C20: kalloc implements a stack of free pages.  If the list holds the
    pages [l], kalloc returns the first one, filled with 5s, and the list then
    holds the rest; with no page left it returns 0 and changes nothing.  No
    other page and no other variable changes, and the lock is free again. *)
Theorem kalloc_refines s e l :
  settled s -> noff s < 2147483646 -> is_free s LKmem -> free_pages s l ->
  match l with
  | [] => kalloc (mkWorld s e) = Ok 0 (mkWorld s e)
  | pa :: l' => exists s', kalloc (mkWorld s e) = Ok pa (mkWorld s' e) /\
      free_pages s' l' /\ (pa ∉ l') /\ heap_page pa /\
      mem (kd s') = <[pa := junk 5]> (mem (kd s)) /\
      s' = mapd (fun d => set_mem (mem (kd s')) (set_freelist (freelist (kd s')) d)) s
  end.
Proof.
  intros Hs Hn Hf Hc. destruct l as [|pa l].
  - apply kalloc_none; try done. unfold free_pages in Hc. by inversion Hc.
  - pose proof Hc as Hc0. inversion Hc as [|? bs ? Hh Hm Hl Hc' Hni]; subst.
    eexists. split; [by apply (kalloc_some s e _ bs l)|]. split; [by apply chain_put|].
    split; [done|]. split; [done|]. split; [done|]. done.
Qed.

(** Kfree pushes.  A page of RAM that is not on the list goes to its
    front, the other pages keep their contents and nothing else changes; an
    address that is not that of a page between the end of the kernel and the
    end of RAM stops the machine. *)
Theorem kfree_refines s e l pa :
  settled s -> noff s < 2147483646 -> is_free s LKmem -> free_pages s l ->
  (~ heap_page pa -> kfree pa (mkWorld s e) = Panic "kfree") /\
  (heap_page pa -> page_ok (mem (kd s)) pa -> pa ∉ l ->
   exists s', kfree pa (mkWorld s e) = Ok tt (mkWorld s' e) /\ free_pages s' (pa :: l) /\
     (forall q, q ≠ pa -> mem (kd s') !! q = mem (kd s) !! q) /\
     s' = mapd (fun d => set_mem (mem (kd s')) (set_freelist (freelist (kd s')) d)) s).
Proof.
  intros Hs Hn Hf Hc. split; [apply kfree_panic|]. intros Hh (bs & Hm & Hl) Hni.
  eexists. split; [by apply (kfree_ok s e pa bs)|]. split; [|split; [|done]].
  - apply (chain_cons _ pa (freed_page (freelist (kd s)))); [done|apply lookup_insert_eq|apply length_freed_page| |done].
    rewrite next_of_freed_page by (eapply chain_range, Hc). by apply chain_put.
  - intros q Hq. cbn. by rewrite lookup_insert_ne.
Qed.

(** Initialisation.  If RAM reaches from the end of the kernel to
    PHYSTOP, kinit returns with exactly the whole pages of that range on the
    list, each one once, highest first, and its lock free. *)
Theorem kinit_spec s e :
  settled s -> noff s < 2147483646 -> freelist (kd s) = 0 ->
  (forall pa, heap_page pa -> page_ok (mem (kd s)) pa) ->
  exists s' l, kinit (mkWorld s e) = Ok tt (mkWorld s' e) /\ free_pages s' l /\ is_free s' LKmem /\
    NoDup l /\ (forall pa, pa ∈ l <-> heap_page pa).
Proof.
  intros Hs Hn Hfl Hram. unfold kinit.
  set (s1 := put_lock LKmem {| lk_locked := 0; lk_name := "kmem"; lk_cpu := None |} s).
  rewrite (bind_Ok _ _ _ _ _ (initlock_ok LKmem "kmem" s e)). fold s1.
  pose proof end_in_ram as Hend. unfold PHYSTOP, KERNBASE in Hend.
  assert (0 <= sym_end < 2 ^ 64 - PGSIZE) as Hse by (unfold PGSIZE; lia).
  pose proof (PGROUNDUP_spec sym_end Hse) as Hp. set (p := PGROUNDUP sym_end) in *.
  assert (sym_end <= p < sym_end + PGSIZE /\ p `mod` PGSIZE = 0) as [Hpr Hpa].
  { rewrite Hp. split; [|by apply Z.mod_mul]. unfold PGSIZE. Z.to_euclidean_division_equations; lia. }
  set (n := Z.to_nat ((PHYSTOP - p) / PGSIZE)).
  assert (p + Z.of_nat n * PGSIZE = PHYSTOP) as Hn'.
  { subst n. unfold PHYSTOP, KERNBASE, PGSIZE in *. Z.to_euclidean_division_equations; lia. }
  assert (forall q, q ∈ pages_from p n <-> heap_page q) as Hpages.
  { intros q. rewrite elem_of_pages_from. unfold heap_page. split.
    - intros (i & Hi & ->). split; [|unfold PGSIZE in *; lia]. by rewrite Z.mod_add.
    - intros [Hq Hqr]. exists (Z.to_nat ((q - p) / PGSIZE)). unfold PGSIZE, PHYSTOP, KERNBASE in *.
      split; Z.to_euclidean_division_equations; lia. }
  destruct (freerange_loop_ok n (S (Z.to_nat (PHYSTOP / PGSIZE))) p PHYSTOP [] s1 e) as (f & E & Hc).
  - unfold n. unfold PGSIZE, PHYSTOP, KERNBASE in *. Z.to_euclidean_division_equations; lia.
  - unfold PGSIZE in *. lia.
  - exact Hs.
  - exact Hn.
  - eexists. apply lookup_insert_eq.
  - intros q Hq. apply Hpages in Hq. split; [done|]. by apply Hram.
  - unfold free_pages. change (freelist (kd s1)) with (freelist (kd s)). rewrite Hfl. constructor.
  - constructor.
  - rewrite app_nil_r in Hc. exists (mapd f s1), (rev (pages_from p n)). split; [exact E|]. split; [done|].
    split; [eexists; apply lookup_insert_eq|]. split; [by eapply chain_nodup|].
    intros pa. rewrite <- Hpages, rev_alt. apply elem_of_reverse.
Qed.
End kalloc.

(** A machine whose last page of RAM is free, for the witnesses. *)
Definition one_page : kstate :=
  mapd (fun d => set_freelist 0x87fff000 (put_mem 0x87fff000 (freed_page 0) d)) (unlocked kstate0).

Lemma one_page_heap : @heap_page kernel_syms 0x87fff000.
Proof. by split. Qed.

Lemma one_page_free : @free_pages kernel_syms one_page [0x87fff000].
Proof.
  apply (chain_cons _ _ (freed_page 0)).
  - apply one_page_heap.
  - apply lookup_insert_eq.
  - apply length_freed_page.
  - rewrite next_of_freed_page by lia. constructor.
  - apply not_elem_of_nil.
Qed.

Lemma kmem_free s : is_free (unlocked s) LKmem.
Proof. apply unlocked_free, all_locks_single. set_solver. Qed.

Lemma kalloc_refines_witness :
  exists s', kalloc (mkWorld one_page []) = Ok 0x87fff000 (mkWorld s' []) /\
    @free_pages kernel_syms s' [] /\ (0x87fff000 ∉ []) /\ @heap_page kernel_syms 0x87fff000 /\
    mem (kd s') = <[0x87fff000 := junk 5]> (mem (kd one_page)) /\
    s' = mapd (fun d => set_mem (mem (kd s')) (set_freelist (freelist (kd s')) d)) one_page.
Proof.
  apply (kalloc_refines (LinkSymsOk0 := kernel_syms_ok) one_page [] [0x87fff000]).
  - apply settled_unlocked.
  - done.
  - apply kmem_free.
  - apply one_page_free.
Defined.

(** The same machine with the page in use. *)
Definition used_page : kstate := mapd (put_mem 0x87fff000 (junk 5)) (unlocked kstate0).

Lemma kfree_refines_witness :
  (~ @heap_page kernel_syms 0x87fff000 -> @kfree kernel_syms 0x87fff000 (mkWorld used_page []) = Panic "kfree") /\
  (@heap_page kernel_syms 0x87fff000 -> page_ok (mem (kd used_page)) 0x87fff000 -> 0x87fff000 ∉ [] ->
   exists s', @kfree kernel_syms 0x87fff000 (mkWorld used_page []) = Ok tt (mkWorld s' []) /\
     @free_pages kernel_syms s' [0x87fff000] /\
     (forall q, q ≠ 0x87fff000 -> mem (kd s') !! q = mem (kd used_page) !! q) /\
     s' = mapd (fun d => set_mem (mem (kd s')) (set_freelist (freelist (kd s')) d)) used_page).
Proof.
  apply (kfree_refines (LinkSymsOk0 := kernel_syms_ok) used_page [] []).
  - apply settled_unlocked.
  - done.
  - apply kmem_free.
  - constructor.
Defined.

(** A kernel that leaves two pages of RAM, for the witness of initialisation. *)
Definition tight_syms : LinkSyms :=
  {| sym_end := 0x87ffe000; sym_etext := 0x80007000; sym_trampoline := 0x80006000;
     sym_uservec := 0x80006000; sym_userret := 0x8000609c; sym_kernelvec := 0x80005550;
     sym_forkret := 0x80001baa; sym_usertrap := 0x8000287e;
     sym_main := 0x80000e62 |}.

Lemma tight_syms_ok : LinkSymsOk tight_syms.
Proof. by split. Qed.

Definition two_pages : kstate :=
  mapd (fun d => put_mem 0x87ffe000 (junk 0) (put_mem 0x87fff000 (junk 0) d)) kstate0.

Lemma kinit_spec_witness :
  exists s' l, @kinit tight_syms (mkWorld two_pages []) = Ok tt (mkWorld s' []) /\
    @free_pages tight_syms s' l /\ is_free s' LKmem /\
    NoDup l /\ (forall pa, pa ∈ l <-> @heap_page tight_syms pa).
Proof.
  apply (kinit_spec (LinkSymsOk0 := tight_syms_ok) two_pages []).
  - apply settled_unlocked.
  - done.
  - done.
  - intros pa [Hm Hr]. exists (junk 0). split; [|by apply length_replicate].
    assert (pa = 0x87ffe000 \/ pa = 0x87fff000) as [-> | -> ].
    { change (@sym_end tight_syms) with 0x87ffe000 in Hr. unfold PHYSTOP, KERNBASE, PGSIZE in *.
      Z.to_euclidean_division_equations; lia. }
    + apply lookup_insert_eq.
    + cbn. rewrite lookup_insert_ne by done. apply lookup_insert_eq.
Defined.
