(* ===== verification/Vm.v ===== *)
(** * Virtual memory

    kernel/vm.c, with proc_mapstacks of kernel/proc.c.  Page tables are the
    pages of RAM the hardware reads: 512 entries of eight bytes, three levels.
    A pointer to an entry is its physical address.  The theorems are in
    [PageTable] and [UserMem]; here is what a relation between states needs so
    that these functions respect it. *)

From S2P Require Import Prelude Prog State Spinlock CStr Kalloc.

Section vm.
Context `{LinkSyms}.

(** ** Page tables *)

(** The loop of walk over the levels above the last; [None] is [return 0]. *)
Fixpoint walk_loop (levels : list Z) (pagetable va : Z) (alloc : bool) : M (option Z) :=
  match levels with
  | [] => mret (Some pagetable)
  | level :: levels =>
    let pte := pagetable + 8 * PX level va in
    v ← read64 pte;
    if negb (Z.land v PTE_V =? 0) then walk_loop levels (PTE2PA v) va alloc
    else if negb alloc then mret None else
      pt ← kalloc;
      if pt =? 0 then mret None else
      memset_page pt 0 PGSIZE;;
      write64 pte (Z.lor (PA2PTE pt) PTE_V);;
      walk_loop levels pt va alloc
  end.

Definition walk (pagetable va : Z) (alloc : bool) : M Z :=
  if MAXVA <=? va then panic "walk" else
  r ← walk_loop [2; 1] pagetable va alloc;
  match r with
  | None => mret 0
  | Some pt => mret (pt + 8 * PX 0 va)
  end.

Definition walkaddr (pagetable va : Z) : M Z :=
  if MAXVA <=? va then mret 0 else
  pte ← walk pagetable va false;
  if pte =? 0 then mret 0 else
  v ← read64 pte;
  if Z.land v PTE_V =? 0 then mret 0 else
  if Z.land v PTE_U =? 0 then mret 0 else
  mret (PTE2PA v).

Fixpoint mappages_loop (fuel : nat) (pagetable a last pa perm : Z) : M Z :=
  match fuel with
  | O => fault "mappages fuel"
  | S n =>
    pte ← walk pagetable a true;
    if pte =? 0 then mret (-1) else
    v ← read64 pte;
    if negb (Z.land v PTE_V =? 0) then panic "mappages: remap" else
    write64 pte (Z.lor (Z.lor (PA2PTE pa) perm) PTE_V);;
    if a =? last then mret 0
    else mappages_loop n pagetable (u64 (a + PGSIZE)) last (u64 (pa + PGSIZE)) perm
  end.

(** The loop runs once per page of the range. *)
Definition mappages (pagetable va size pa perm : Z) : M Z :=
  if negb (va `mod` PGSIZE =? 0) then panic "mappages: va not aligned" else
  if negb (size `mod` PGSIZE =? 0) then panic "mappages: size not aligned" else
  if size =? 0 then panic "mappages: size" else
  mappages_loop (Z.to_nat (size / PGSIZE)) pagetable va (u64 (va + size - PGSIZE)) pa perm.

Definition kvmmap (kpgtbl va pa sz perm : Z) : M unit :=
  r ← mappages kpgtbl va sz pa perm;
  if negb (r =? 0) then panic "kvmmap" else mret tt.

Fixpoint uvmunmap_loop (fuel : nat) (pagetable a last : Z) (do_free : bool) : M unit :=
  match fuel with
  | O => fault "uvmunmap fuel"
  | S n =>
    if negb (a <? last) then mret tt else
    pte ← walk pagetable a false;
    if pte =? 0 then panic "uvmunmap: walk" else
    v ← read64 pte;
    if Z.land v PTE_V =? 0 then panic "uvmunmap: not mapped" else
    if PTE_FLAGS v =? PTE_V then panic "uvmunmap: not a leaf" else
    when do_free (kfree (PTE2PA v));;
    write64 pte 0;;
    uvmunmap_loop n pagetable (u64 (a + PGSIZE)) last do_free
  end.

Definition uvmunmap (pagetable va npages : Z) (do_free : bool) : M unit :=
  if negb (va `mod` PGSIZE =? 0) then panic "uvmunmap: not aligned" else
  uvmunmap_loop (S (Z.to_nat npages)) pagetable va (u64 (va + npages * PGSIZE)) do_free.

Definition uvmcreate : M Z :=
  pt ← kalloc;
  if pt =? 0 then mret 0 else
  memset_page pt 0 PGSIZE;;
  mret pt.

Definition uvmfirst (pagetable : Z) (src : list Z) : M unit :=
  if PGSIZE <=? Z.of_nat (length src) then panic "uvmfirst: more than a page" else
  mem ← kalloc;
  memset_page mem 0 PGSIZE;;
  mappages pagetable 0 PGSIZE mem (Z.lor (Z.lor (Z.lor PTE_W PTE_R) PTE_X) PTE_U);;
  write_bytes mem src.

Definition uvmdealloc (pagetable oldsz newsz : Z) : M Z :=
  if oldsz <=? newsz then mret oldsz else
  (if PGROUNDUP newsz <? PGROUNDUP oldsz then
     let npages := s32 ((PGROUNDUP oldsz - PGROUNDUP newsz) / PGSIZE) in
     uvmunmap pagetable (PGROUNDUP newsz) npages true
   else mret tt);;
  mret newsz.

Fixpoint uvmalloc_loop (fuel : nat) (pagetable a oldsz newsz xperm : Z) : M Z :=
  match fuel with
  | O => fault "uvmalloc fuel"
  | S n =>
    if negb (a <? newsz) then mret newsz else
    mem ← kalloc;
    if mem =? 0 then uvmdealloc pagetable a oldsz;; mret 0 else
    memset_page mem 0 PGSIZE;;
    r ← mappages pagetable a PGSIZE mem (Z.lor (Z.lor PTE_R PTE_U) xperm);
    if negb (r =? 0) then kfree mem;; uvmdealloc pagetable a oldsz;; mret 0 else
    uvmalloc_loop n pagetable (u64 (a + PGSIZE)) oldsz newsz xperm
  end.

(** Each turn adds a page; the fuel is one more than the pages below [newsz]. *)
Definition uvmalloc (pagetable oldsz newsz xperm : Z) : M Z :=
  if newsz <? oldsz then mret oldsz else
  let oldsz := PGROUNDUP oldsz in
  uvmalloc_loop (S (S (Z.to_nat (newsz / PGSIZE)))) pagetable oldsz oldsz newsz xperm.

(** The depth of a page table is 3; deeper recursion than [depth] is a cycle. *)
Fixpoint freewalk (depth : nat) (pagetable : Z) : M unit :=
  match depth with
  | O => fault "freewalk depth"
  | S n =>
    for_each (seqZ 0 512) (fun i =>
      pte ← read64 (pagetable + 8 * i);
      if negb (Z.land pte PTE_V =? 0) && (Z.land pte (Z.lor (Z.lor PTE_R PTE_W) PTE_X) =? 0) then
        freewalk n (PTE2PA pte);;
        write64 (pagetable + 8 * i) 0
      else if negb (Z.land pte PTE_V =? 0) then panic "freewalk: leaf"
      else mret tt);;
    kfree pagetable
  end.

Definition uvmfree (pagetable sz : Z) : M unit :=
  when (0 <? sz) (uvmunmap pagetable 0 (PGROUNDUP sz / PGSIZE) true);;
  freewalk 3 pagetable.

Fixpoint uvmcopy_loop (fuel : nat) (old new i sz : Z) : M Z :=
  match fuel with
  | O => fault "uvmcopy fuel"
  | S n =>
    if negb (i <? sz) then mret 0 else
    pte ← walk old i false;
    if pte =? 0 then panic "uvmcopy: pte should exist" else
    v ← read64 pte;
    if Z.land v PTE_V =? 0 then panic "uvmcopy: page not present" else
    let pa := PTE2PA v in
    let flags := PTE_FLAGS v in
    mem ← kalloc;
    if mem =? 0 then uvmunmap new 0 (i / PGSIZE) true;; mret (-1) else
    bs ← read_bytes pa (Z.to_nat PGSIZE);
    write_bytes mem bs;;
    r ← mappages new i PGSIZE mem flags;
    if negb (r =? 0) then kfree mem;; uvmunmap new 0 (i / PGSIZE) true;; mret (-1) else
    uvmcopy_loop n old new (u64 (i + PGSIZE)) sz
  end.

Definition uvmcopy (old new sz : Z) : M Z :=
  uvmcopy_loop (S (S (Z.to_nat (sz / PGSIZE)))) old new 0 sz.

Definition uvmclear (pagetable va : Z) : M unit :=
  pte ← walk pagetable va false;
  if pte =? 0 then panic "uvmclear" else
  v ← read64 pte;
  write64 pte (Z.land v (Z.lnot PTE_U)).

(** ** Copies between the kernel and user memory

    A kernel buffer is the list of its bytes; a turn of a loop moves at least
    one byte, so the length bounds the turns. *)

Fixpoint copyout_loop (fuel : nat) (pagetable dstva : Z) (src : list Z) : M Z :=
  match fuel with
  | O => fault "copyout fuel"
  | S fuel =>
    if (length src =? 0)%nat then mret 0 else
    let va0 := PGROUNDDOWN dstva in
    if MAXVA <=? va0 then mret (-1) else
    pte ← walk pagetable va0 false;
    if pte =? 0 then mret (-1) else
    v ← read64 pte;
    if (Z.land v PTE_V =? 0) || (Z.land v PTE_U =? 0) || (Z.land v PTE_W =? 0) then mret (-1) else
    let pa0 := PTE2PA v in
    let n := Z.min (PGSIZE - (dstva - va0)) (Z.of_nat (length src)) in
    write_bytes (pa0 + (dstva - va0)) (take (Z.to_nat n) src);;
    copyout_loop fuel pagetable (va0 + PGSIZE) (drop (Z.to_nat n) src)
  end.

Definition copyout (pagetable dstva : Z) (src : list Z) : M Z :=
  copyout_loop (S (length src)) pagetable dstva src.

(** The result and the bytes stored at [dst]. *)
Fixpoint copyin_loop (fuel : nat) (pagetable srcva : Z) (len : nat) : M (Z * list Z) :=
  match fuel with
  | O => fault "copyin fuel"
  | S fuel =>
    if (len =? 0)%nat then mret (0, []) else
    let va0 := PGROUNDDOWN srcva in
    pa0 ← walkaddr pagetable va0;
    if pa0 =? 0 then mret (-1, []) else
    let n := Z.min (PGSIZE - (srcva - va0)) (Z.of_nat len) in
    bs ← read_bytes (pa0 + (srcva - va0)) (Z.to_nat n);
    '(r, rest) ← copyin_loop fuel pagetable (va0 + PGSIZE) (len - Z.to_nat n);
    mret (r, bs ++ rest)
  end.

Definition copyin (pagetable srcva : Z) (len : nat) : M (Z * list Z) :=
  copyin_loop (S len) pagetable srcva len.

(** The bytes of [bs] up to and with the first null, and whether there is one. *)
Fixpoint upto_null (bs : list Z) : list Z * bool :=
  match bs with
  | [] => ([], false)
  | c :: bs => if c =? 0 then ([0], true) else let '(r, b) := upto_null bs in (c :: r, b)
  end.

Fixpoint copyinstr_loop (fuel : nat) (pagetable srcva : Z) (max : nat) : M (Z * list Z) :=
  match fuel with
  | O => fault "copyinstr fuel"
  | S fuel =>
    if (max =? 0)%nat then mret (-1, []) else
    let va0 := PGROUNDDOWN srcva in
    pa0 ← walkaddr pagetable va0;
    if pa0 =? 0 then mret (-1, []) else
    let n := Z.min (PGSIZE - (srcva - va0)) (Z.of_nat max) in
    bs ← read_bytes (pa0 + (srcva - va0)) (Z.to_nat n);
    match upto_null bs with
    | (bs, true) => mret (0, bs)
    | (bs, false) =>
      '(r, rest) ← copyinstr_loop fuel pagetable (va0 + PGSIZE) (max - Z.to_nat n);
      mret (r, bs ++ rest)
    end
  end.

Definition copyinstr (pagetable srcva : Z) (max : nat) : M (Z * list Z) :=
  copyinstr_loop (S max) pagetable srcva max.

(** ** The kernel's page table *)

(** proc.c *)
Definition proc_mapstacks (kpgtbl : Z) : M unit :=
  for_each (seqZ 0 (Z.of_nat NPROC)) (fun p =>
    pa ← kalloc;
    if pa =? 0 then panic "kalloc" else
    kvmmap kpgtbl (KSTACK p) pa PGSIZE (Z.lor PTE_R PTE_W)).

Definition kvmmake : M Z :=
  kpgtbl ← kalloc;
  memset_page kpgtbl 0 PGSIZE;;
  kvmmap kpgtbl UART0 UART0 PGSIZE (Z.lor PTE_R PTE_W);;
  kvmmap kpgtbl VIRTIO0 VIRTIO0 PGSIZE (Z.lor PTE_R PTE_W);;
  kvmmap kpgtbl PLIC PLIC 0x4000000 (Z.lor PTE_R PTE_W);;
  kvmmap kpgtbl KERNBASE KERNBASE (sym_etext - KERNBASE) (Z.lor PTE_R PTE_X);;
  kvmmap kpgtbl sym_etext sym_etext (PHYSTOP - sym_etext) (Z.lor PTE_R PTE_W);;
  kvmmap kpgtbl TRAMPOLINE sym_trampoline PGSIZE (Z.lor PTE_R PTE_X);;
  proc_mapstacks kpgtbl;;
  mret kpgtbl.

Definition kvminit : M unit :=
  pt ← kvmmake;
  modd (set_kernel_pagetable pt).

Definition kvminithart : M unit :=
  pt ← getd kernel_pagetable;
  upd_hart (set_r_satp (MAKE_SATP pt)).

(** ** Frames

    What a relation between states needs so that every function of the
    allocator and of this file respects it. *)

Class MemRel (R : kstate -> kstate -> Prop) : Prop := {
  mem_rel_pre :: PreOrder R;
  mem_rel_acquire : guar R (acquire LKmem);
  mem_rel_release : guar R (release LKmem);
  mem_rel_mem m s : R s (mapd (set_mem m) s);
  mem_rel_freelist p s : R s (mapd (set_freelist p) s)
}.

Section frames.
Context (R : kstate -> kstate -> Prop) `{!MemRel R}.

#[local] Hint Resolve mem_rel_acquire mem_rel_release : guar.

Lemma mem_getd {A} (f : kdata -> A) : guar R (getd f).
Proof. apply guar_gets, mem_rel_pre. Qed.

#[local] Hint Resolve mem_getd : guar.

Lemma mem_get_page pa : guar R (get_page pa).
Proof. unfold get_page. guar_auto. Qed.

Lemma mem_put_page pa bs : guar R (put_page pa bs).
Proof. apply guar_modify. intros s. apply mem_rel_mem. Qed.

#[local] Hint Resolve mem_get_page mem_put_page : guar.

Lemma mem_read64 a : guar R (read64 a).
Proof. unfold read64, read_bytes. guar_auto. Qed.

Lemma mem_read_bytes a n : guar R (read_bytes a n).
Proof. unfold read_bytes. guar_auto. Qed.

Lemma mem_write_bytes a bs : guar R (write_bytes a bs).
Proof. unfold write_bytes. guar_auto. Qed.

Lemma mem_write64 a v : guar R (write64 a v).
Proof. apply mem_write_bytes. Qed.

Lemma mem_memset_page pa c n : guar R (memset_page pa c n).
Proof. unfold memset_page. guar_auto. Qed.

#[local] Hint Resolve mem_read64 mem_read_bytes mem_write_bytes mem_write64 mem_memset_page : guar.

Lemma mem_set_freelist p : guar R (modd (set_freelist p)).
Proof. apply guar_modify. intros s. apply mem_rel_freelist. Qed.

#[local] Hint Resolve mem_set_freelist : guar.

Lemma mem_kalloc : guar R kalloc.
Proof. unfold kalloc. guar_auto. Qed.

Lemma mem_kfree pa : guar R (kfree pa).
Proof. unfold kfree. guar_auto. Qed.

#[local] Hint Resolve mem_kalloc mem_kfree : guar.

Lemma mem_walk_loop levels pt va alloc : guar R (walk_loop levels pt va alloc).
Proof. revert pt. induction levels as [|l levels IH]; intros pt; cbn [walk_loop]; guar_auto; apply IH. Qed.

#[local] Hint Resolve mem_walk_loop : guar.

Lemma mem_walk pt va alloc : guar R (walk pt va alloc).
Proof. unfold walk. guar_auto. Qed.

#[local] Hint Resolve mem_walk : guar.

Lemma mem_walkaddr pt va : guar R (walkaddr pt va).
Proof. unfold walkaddr. guar_auto. Qed.

Lemma mem_mappages pt va size pa perm : guar R (mappages pt va size pa perm).
Proof.
  unfold mappages. guar_auto. generalize (u64 (va + size - PGSIZE)) as last. intros last.
  generalize (Z.to_nat (size / PGSIZE)) as n. intros n. revert va pa.
  induction n as [|n IH]; intros va pa; cbn [mappages_loop]; guar_auto.
Qed.

Lemma mem_uvmunmap pt va npages b : guar R (uvmunmap pt va npages b).
Proof.
  unfold uvmunmap. guar_auto. generalize (u64 (va + npages * PGSIZE)) as last. intros last.
  generalize (S (Z.to_nat npages)) as n. intros n. revert va.
  induction n as [|n IH]; intros va; cbn [uvmunmap_loop]; guar_auto.
Qed.

#[local] Hint Resolve mem_walkaddr mem_mappages mem_uvmunmap : guar.

Lemma mem_uvmcreate : guar R uvmcreate.
Proof. unfold uvmcreate. guar_auto. Qed.

Lemma mem_uvmfirst pt src : guar R (uvmfirst pt src).
Proof. unfold uvmfirst. guar_auto. Qed.

Lemma mem_uvmdealloc pt a b : guar R (uvmdealloc pt a b).
Proof. unfold uvmdealloc. guar_auto. Qed.

#[local] Hint Resolve mem_uvmdealloc : guar.

Lemma mem_uvmalloc pt a b x : guar R (uvmalloc pt a b x).
Proof.
  unfold uvmalloc. guar_auto. cbv zeta. generalize (S (S (Z.to_nat (b / PGSIZE)))) as n.
  generalize (PGROUNDUP a) at 2 as old. generalize (PGROUNDUP a) as c. intros c old n. revert c.
  induction n as [|n IH]; intros c; cbn [uvmalloc_loop]; guar_auto.
Qed.

Lemma mem_freewalk n pt : guar R (freewalk n pt).
Proof. revert pt. induction n as [|n IH]; intros pt; cbn [freewalk]; guar_auto. Qed.

#[local] Hint Resolve mem_freewalk : guar.

Lemma mem_uvmfree pt sz : guar R (uvmfree pt sz).
Proof. unfold uvmfree. guar_auto. Qed.

Lemma mem_uvmcopy old new sz : guar R (uvmcopy old new sz).
Proof.
  unfold uvmcopy. generalize (S (S (Z.to_nat (sz / PGSIZE)))) as n. generalize 0 as i. intros i n. revert i.
  induction n as [|n IH]; intros i; cbn [uvmcopy_loop]; guar_auto.
Qed.

Lemma mem_copyout pt va src : guar R (copyout pt va src).
Proof.
  unfold copyout. generalize (S (length src)) as n. intros n. revert va src.
  induction n as [|n IH]; intros va src; cbn [copyout_loop]; guar_auto.
Qed.

Lemma mem_copyin pt va len : guar R (copyin pt va len).
Proof.
  unfold copyin. generalize (S len) as n. intros n. revert va len.
  induction n as [|n IH]; intros va len; cbn [copyin_loop]; guar_auto.
Qed.
End frames.

Lemma same_mem_rel {T} (proj : kdata -> T) :
  (forall m d, proj (set_mem m d) = proj d) -> (forall p d, proj (set_freelist p d) = proj d) ->
  MemRel (same (fun s => proj (kd s))).
Proof.
  intros Hm Hf. split.
  - apply _.
  - apply guar_acquire; apply _.
  - apply guar_release; apply _.
  - intros m s. unfold same. apply Hm.
  - intros p s. unfold same. apply Hf.
Qed.

#[export] Instance hart_kept_mem_rel : MemRel hart_kept.
Proof. split; [apply _|auto with guar|auto with guar|done|done]. Qed.

#[export] Instance lock_kept_mem_rel p : MemRel (lock_kept (LProc p)).
Proof. split; [apply _|auto with guar|auto with guar|done|done]. Qed.
End vm.

#[export] Hint Resolve mem_kalloc mem_kfree mem_walk mem_walkaddr mem_mappages mem_uvmunmap mem_uvmcreate
  mem_uvmfirst mem_uvmdealloc mem_uvmalloc mem_freewalk mem_uvmfree mem_uvmcopy mem_copyout mem_copyin
  mem_read64 mem_write64 mem_read_bytes mem_write_bytes mem_memset_page : guar.
