(* ===== verification/PageTable.v ===== *)
(** * Page tables as address spaces

    The correctness of kernel/vm.c.  A page table is a tree of pages of RAM;
    [tables] lists the pages of the tree and [pmap] is the address space it
    stands for: the entry of each virtual page, if it has a valid one.

    The theorems: walk without allocation finds the entry and changes nothing;
    walk with allocation, mappages and uvmunmap change the address space on the
    pages they are asked for and nowhere else, take table pages from the free
    list only, and give back what they free. *)

From S2P Require Import Prelude Prog State Spinlock CStr Kalloc Vm.

(** ** Words of RAM *)

Definition page_bytes (m : gmap Z (list Z)) (pa : Z) : list Z := default [] (m !! pa).

Definition word (m : gmap Z (list Z)) (a : Z) : Z := le_combine (read_at (off_of a) 8 (page_bytes m (page_of a))).

Definition store (a v : Z) (m : gmap Z (list Z)) : gmap Z (list Z) :=
  <[page_of a := write_at (off_of a) (le_split 8 v) (page_bytes m (page_of a))]> m.

Definition valid (v : Z) : bool := negb (Z.land v PTE_V =? 0).

(** ** The tree *)

(** The entry that leads from the table [pt] of level [n] to the next. *)
Definition entry (m : gmap Z (list Z)) (n : nat) (pt va : Z) : Z := word m (pt + 8 * PX (Z.of_nat n) va).

(** The pages of the table [pt] of level [n] and of the tables below it. *)
Fixpoint tables (m : gmap Z (list Z)) (n : nat) (pt : Z) : list Z :=
  pt :: match n with
        | O => []
        | S n => seqZ 0 512 ≫= fun i =>
            let v := word m (pt + 8 * i) in if valid v then tables m n (PTE2PA v) else []
        end.

(** The address of the leaf entry of [va] below the table [pt] of level [n]. *)
Fixpoint leaf (m : gmap Z (list Z)) (n : nat) (pt va : Z) : option Z :=
  match n with
  | O => Some (pt + 8 * PX 0 va)
  | S n' => let v := entry m n pt va in if valid v then leaf m n' (PTE2PA v) va else None
  end.

(** The address space: the valid leaf entry of [va]. *)
Definition pmap_at (m : gmap Z (list Z)) (n : nat) (pt va : Z) : option Z :=
  a ← leaf m n pt va; if valid (word m a) then Some (word m a) else None.

Abbreviation pmap m := (pmap_at m 2).

(** ** Address arithmetic *)

Lemma PX_range n va : 0 <= PX n va < 512.
Proof.
  unfold PX. change PXMASK with (Z.ones 9). rewrite Z.land_ones by lia. apply Z.mod_pos_bound. lia.
Qed.

Lemma PX_div n va : 0 <= n -> PX n va = (va / 2 ^ (12 + 9 * n)) `mod` 512.
Proof.
  intros Hn. unfold PX, PXSHIFT, PGSHIFT. change PXMASK with (Z.ones 9).
  rewrite Z.land_ones by lia. by rewrite Z.shiftr_div_pow2 by lia.
Qed.

(** The three indices determine the page. *)
Lemma PX_inj va va' : 0 <= va < MAXVA -> 0 <= va' < MAXVA ->
  PX 2 va = PX 2 va' -> PX 1 va = PX 1 va' -> PX 0 va = PX 0 va' -> va / PGSIZE = va' / PGSIZE.
Proof.
  rewrite !PX_div by lia. change MAXVA with 274877906944. change PGSIZE with 4096.
  change (2 ^ (12 + 9 * 2)) with 1073741824. change (2 ^ (12 + 9 * 1)) with 2097152.
  change (2 ^ (12 + 9 * 0)) with 4096. intros. Z.to_euclidean_division_equations. lia.
Qed.

Lemma PX_page n va va' : 0 <= n -> va / PGSIZE = va' / PGSIZE -> PX n va = PX n va'.
Proof.
  intros Hn E. rewrite !PX_div, !Z.pow_add_r, <- !Z.div_div by (try apply Z.pow_pos_nonneg; lia).
  change (2 ^ 12) with PGSIZE. by rewrite E.
Qed.

Lemma entry_addr pt i : pt `mod` PGSIZE = 0 -> 0 <= i < 512 ->
  page_of (pt + 8 * i) = pt /\ off_of (pt + 8 * i) = Z.to_nat (8 * i).
Proof.
  intros Ha Hi. unfold page_of, off_of, PGSIZE in *. split; [|f_equal]; Z.to_euclidean_division_equations; lia.
Qed.

(** ** Entries *)

Lemma lor_add k x f : 0 <= k -> 0 <= f < 2 ^ k -> Z.lor (x * 2 ^ k) f = x * 2 ^ k + f.
Proof.
  intros Hk Hf. rewrite Z.add_nocarry_lxor; [rewrite Z.lxor_lor; [done|]|]; apply Z.bits_inj'; intros n Hn;
    rewrite Z.land_spec, Z.bits_0; (destruct (Z.lt_ge_cases n k);
      [by rewrite Z.mul_pow2_bits_low|rewrite andb_comm]);
    (destruct (decide (f = 0)) as [->|]; [by rewrite Z.bits_0|]); rewrite Z.bits_above_log2; try done; try lia;
    (assert (Z.log2 f < k) by (apply Z.log2_lt_pow2; lia); lia).
Qed.

(** What mappages stores for the page [pa]. *)
Definition mk_pte (pa perm : Z) : Z := Z.lor (Z.lor (PA2PTE pa) perm) PTE_V.

Definition frame_addr (pa : Z) : Prop := pa `mod` PGSIZE = 0 /\ 0 <= pa < 2 ^ 56.

Lemma mk_pte_eq pa perm : frame_addr pa -> 0 <= perm < 1024 ->
  mk_pte pa perm = pa / PGSIZE * 2 ^ 10 + Z.lor perm PTE_V /\ 0 <= Z.lor perm PTE_V < 1024.
Proof.
  intros [Ha Hr] Hp. assert (0 <= Z.lor perm PTE_V < 1024) as Hl.
  { assert (0 <= Z.lor perm PTE_V) by (apply Z.lor_nonneg; split; [lia|done]). split; [done|].
    destruct (decide (Z.lor perm PTE_V = 0)) as [E|E]; [lia|].
    change 1024 with (2 ^ 10). apply Z.log2_lt_pow2; [lia|]. rewrite Z.log2_lor by (unfold PTE_V; lia).
    apply Z.max_lub_lt; [|done]. destruct (decide (perm = 0)) as [->|]; [done|]. apply Z.log2_lt_pow2; lia. }
  split; [|done]. unfold mk_pte, PA2PTE. rewrite <- Z.lor_assoc, Z.shiftl_mul_pow2, Z.shiftr_div_pow2 by lia.
  rewrite wrap_u_small, lor_add; [done|lia|done|].
  change (2 ^ 12) with 4096. change (2 ^ 10) with 1024. change (2 ^ 64) with 18446744073709551616.
  change (2 ^ 56) with 72057594037927936 in Hr. Z.to_euclidean_division_equations. lia.
Qed.

Lemma mk_pte_range pa perm : frame_addr pa -> 0 <= perm < 1024 -> 0 <= mk_pte pa perm < 2 ^ 64.
Proof.
  intros Ha Hp. destruct (mk_pte_eq pa perm Ha Hp) as [-> ?]. destruct Ha as [_ Hr].
  change (2 ^ 56) with 72057594037927936 in Hr. change (2 ^ 10) with 1024.
  change (2 ^ 64) with 18446744073709551616. unfold PGSIZE. Z.to_euclidean_division_equations. lia.
Qed.

Lemma PTE2PA_mk pa perm : frame_addr pa -> 0 <= perm < 1024 -> PTE2PA (mk_pte pa perm) = pa.
Proof.
  intros Ha Hp. destruct (mk_pte_eq pa perm Ha Hp) as [-> ?]. destruct Ha as [Ha Hr]. unfold PTE2PA.
  rewrite Z.shiftr_div_pow2, Z.shiftl_mul_pow2 by lia. rewrite Z.div_add_l by done.
  rewrite (Z.div_small (Z.lor perm PTE_V)) by (change (2 ^ 10) with 1024; done).
  rewrite Z.add_0_r. change (2 ^ 12) with PGSIZE. rewrite wrap_u_small; unfold PGSIZE in *.
  - Z.to_euclidean_division_equations; lia.
  - change (2 ^ 64) with 18446744073709551616. change (2 ^ 56) with 72057594037927936 in Hr.
    Z.to_euclidean_division_equations; lia.
Qed.

Lemma PTE_FLAGS_mk pa perm : frame_addr pa -> 0 <= perm < 1024 -> PTE_FLAGS (mk_pte pa perm) = Z.lor perm PTE_V.
Proof.
  intros Ha Hp. destruct (mk_pte_eq pa perm Ha Hp) as [-> ?]. unfold PTE_FLAGS. change 0x3FF with (Z.ones 10).
  rewrite Z.land_ones by lia. rewrite Z.add_comm, Z.mod_add by done. by apply Z.mod_small.
Qed.

Lemma land_lor_self x y : Z.land (Z.lor x y) y = y.
Proof.
  apply Z.bits_inj'. intros n _. rewrite Z.land_spec, Z.lor_spec. by destruct (Z.testbit x n), (Z.testbit y n).
Qed.

Lemma valid_mk pa perm : valid (mk_pte pa perm) = true.
Proof. unfold valid, mk_pte. by rewrite land_lor_self. Qed.

Lemma valid_0 : valid 0 = false.
Proof. done. Qed.

(** A flag other than the ones set in the address. *)
Lemma land_mk pa perm f : frame_addr pa -> 0 <= perm < 1024 -> 0 <= f < 1024 ->
  Z.land (mk_pte pa perm) f = Z.land (Z.lor perm PTE_V) f.
Proof.
  intros Ha Hp Hf. rewrite <- (PTE_FLAGS_mk pa perm Ha Hp). unfold PTE_FLAGS. rewrite <- Z.land_assoc. f_equal.
  change 0x3FF with (Z.ones 10). rewrite Z.land_comm, Z.land_ones by lia. symmetry. by apply Z.mod_small.
Qed.

(** ** Loads and stores of words *)

Lemma page_ok_bytes m pa : page_ok m pa -> m !! pa = Some (page_bytes m pa) /\ length (page_bytes m pa) = Z.to_nat PGSIZE.
Proof. intros (bs & E & Hl). unfold page_bytes. by rewrite E. Qed.

Lemma word_frame m m' pt i : pt `mod` PGSIZE = 0 -> 0 <= i < 512 -> m' !! pt = m !! pt ->
  word m' (pt + 8 * i) = word m (pt + 8 * i).
Proof. intros Ha Hi E. destruct (entry_addr pt i Ha Hi) as [E1 E2]. unfold word, page_bytes. by rewrite E1, E. Qed.

Lemma word_store m pt i j v : pt `mod` PGSIZE = 0 -> page_ok m pt -> 0 <= i < 512 -> 0 <= j < 512 -> 0 <= v < 2 ^ 64 ->
  word (store (pt + 8 * i) v m) (pt + 8 * j) = if decide (i = j) then v else word m (pt + 8 * j).
Proof.
  intros Ha (Hm & Hl)%page_ok_bytes Hi Hj Hv.
  destruct (entry_addr pt i Ha Hi) as [Ei Eo], (entry_addr pt j Ha Hj) as [Ej Eoj].
  unfold word, store. rewrite Ej, Eoj, Ei, Eo. unfold page_bytes at 1. rewrite lookup_insert_eq. cbn [default from_option id].
  unfold PGSIZE in Hl. case_decide as E.
  - subst j. pose proof (read_write_same (Z.to_nat (8 * i)) (le_split 8 v) (page_bytes m pt)) as R.
    rewrite length_le_split in R. rewrite R by lia. by apply le_combine_split_small.
  - rewrite read_write_other; [done|rewrite ?length_le_split; lia..].
Qed.

Lemma store_ne m a v p : p ≠ page_of a -> store a v m !! p = m !! p.
Proof. intros Hp. apply lookup_insert_ne. done. Qed.

Lemma page_ok_store m pt i v p : pt `mod` PGSIZE = 0 -> 0 <= i < 512 -> page_ok m pt -> page_ok m p ->
  page_ok (store (pt + 8 * i) v m) p.
Proof.
  intros Ha Hi (Hm & Hl)%page_ok_bytes Hp. destruct (entry_addr pt i Ha Hi) as [Ei Eo]. unfold store. rewrite Ei, Eo.
  destruct (decide (p = pt)) as [->|Hne].
  - eexists. split; [apply lookup_insert_eq|]. unfold PGSIZE in *. rewrite length_write_at; [done|].
    rewrite length_le_split. lia.
  - destruct Hp as (bs & E & ?). exists bs. by rewrite lookup_insert_ne.
Qed.

Definition upd_mem (f : gmap Z (list Z) -> gmap Z (list Z)) (s : kstate) : kstate :=
  mapd (fun d => set_mem (f (mem d)) d) s.

Lemma read64_word s e pt i : pt `mod` PGSIZE = 0 -> 0 <= i < 512 -> page_ok (mem (kd s)) pt ->
  read64 (pt + 8 * i) (mkWorld s e) = Ok (word (mem (kd s)) (pt + 8 * i)) (mkWorld s e).
Proof.
  intros Ha Hi (Hm & Hl)%page_ok_bytes. destruct (entry_addr pt i Ha Hi) as [Ei Eo].
  unfold read64, read_bytes, word. rewrite Ei, Eo. run. step get_page_ok.
  destruct (Nat.leb_spec (Z.to_nat (8 * i) + 8) (length (page_bytes (mem (kd s)) pt))); [by run|].
  unfold PGSIZE in *. lia.
Qed.

Lemma write64_word s e pt i v : pt `mod` PGSIZE = 0 -> 0 <= i < 512 -> page_ok (mem (kd s)) pt ->
  write64 (pt + 8 * i) v (mkWorld s e) = Ok tt (mkWorld (upd_mem (store (pt + 8 * i) v) s) e).
Proof.
  intros Ha Hi (Hm & Hl)%page_ok_bytes. destruct (entry_addr pt i Ha Hi) as [Ei Eo].
  unfold write64, write_bytes, upd_mem, store. rewrite Ei, Eo. step get_page_ok. rewrite length_le_split.
  destruct (Nat.leb_spec (Z.to_nat (8 * i) + 8) (length (page_bytes (mem (kd s)) pt))); [|unfold PGSIZE in *; lia].
  apply put_page_ok.
Qed.

(** ** The tree under updates *)

Lemma bind_ext_in {A B} (f g : A -> list B) (l : list A) : (forall x, x ∈ l -> f x = g x) -> l ≫= f = l ≫= g.
Proof.
  induction l as [|x l IH]; intros E; [done|]. cbn [mbind list_bind].
  rewrite E by left. f_equal. apply IH. intros y Hy. apply E. by right.
Qed.

(** The pages below entry [i] of the table [pt] of level [n + 1]. *)
Definition kids (m : gmap Z (list Z)) (n : nat) (pt i : Z) : list Z :=
  let v := word m (pt + 8 * i) in if valid v then tables m n (PTE2PA v) else [].

Lemma tables_S m n pt : tables m (S n) pt = pt :: (seqZ 0 512 ≫= kids m n pt).
Proof. done. Qed.

Lemma kids_tables m n pt i p : 0 <= i < 512 -> p ∈ kids m n pt i -> p ∈ tables m (S n) pt.
Proof.
  intros Hi Hp. rewrite tables_S. apply elem_of_cons. right. apply list_elem_of_bind. exists i. split; [done|].
  apply elem_of_seqZ. lia.
Qed.

Lemma tables_split m n pt i : 0 <= i < 512 -> tables m (S n) pt =
  pt :: (seqZ 0 i ≫= kids m n pt) ++ kids m n pt i ++ (seqZ (i + 1) (511 - i) ≫= kids m n pt).
Proof.
  intros Hi. rewrite tables_S. apply (f_equal (cons pt)). replace 512 with (i + (1 + (511 - i))) by lia.
  rewrite seqZ_app, bind_app by lia. rewrite Z.add_0_l, seqZ_app, bind_app by lia. apply (f_equal (app _)), (f_equal (fun l => l ++ _)).
  apply app_nil_r.
Qed.

Definition aligned (p : Z) : Prop := p `mod` PGSIZE = 0.

Lemma tables_head m n pt : pt ∈ tables m n pt.
Proof. destruct n; left. Qed.

Lemma tables_frame m m' n pt : (forall p, p ∈ tables m n pt -> aligned p /\ m' !! p = m !! p) ->
  tables m' n pt = tables m n pt /\ (forall va, leaf m' n pt va = leaf m n pt va) /\
  (forall va, pmap_at m' n pt va = pmap_at m n pt va).
Proof.
  intros Hp. enough (tables m' n pt = tables m n pt /\ (forall va, leaf m' n pt va = leaf m n pt va) /\
    (forall va a, leaf m n pt va = Some a -> word m' a = word m a)) as (E1 & E2 & E3).
  { split; [done|]. split; [done|]. intros va. unfold pmap_at. rewrite E2.
    destruct (leaf m n pt va) as [a|] eqn:E; [|done]. cbn. by rewrite (E3 va a E). }
  revert pt Hp. induction n as [|n IH]; intros pt Hp.
  - split; [done|]. split; [done|]. intros va a [= <-]. destruct (Hp pt (tables_head m 0 pt)) as [Ha E].
    apply word_frame; [done|apply PX_range|done].
  - destruct (Hp pt (tables_head m (S n) pt)) as [Ha E].
    assert (forall i, 0 <= i < 512 -> word m' (pt + 8 * i) = word m (pt + 8 * i)) as Ew
      by (intros i Hi; by apply word_frame).
    assert (forall i, 0 <= i < 512 -> valid (word m (pt + 8 * i)) = true ->
      forall p, p ∈ tables m n (PTE2PA (word m (pt + 8 * i))) -> aligned p /\ m' !! p = m !! p) as Hk.
    { intros i Hi Hv p Hin. apply Hp, (kids_tables m n pt i p Hi). unfold kids. by rewrite Hv. }
    split; [|split].
    + rewrite !tables_S. apply (f_equal (cons pt)), bind_ext_in. intros i Hi%elem_of_seqZ. unfold kids.
      rewrite Ew by lia. destruct (valid _) eqn:Hv; [|done]. apply IH, Hk; [lia|done].
    + intros va. cbn [leaf]. unfold entry. rewrite Ew by apply PX_range.
      destruct (valid _) eqn:Hv; [|done]. apply IH, Hk; [apply PX_range|done].
    + intros va a. cbn [leaf]. unfold entry. destruct (valid _) eqn:Hv; [|done]. apply IH, Hk; [apply PX_range|done].
Qed.

Lemma tables_update m m' n pt i (F : list Z) : 0 <= i < 512 -> Forall aligned (tables m (S n) pt) ->
  NoDup (tables m (S n) pt) -> (forall p, p ∈ F -> p ∉ tables m (S n) pt) ->
  (forall p, p ∉ F -> p ∉ kids m n pt i -> p ≠ pt -> m' !! p = m !! p) ->
  (forall j, 0 <= j < 512 -> j ≠ i -> word m' (pt + 8 * j) = word m (pt + 8 * j)) ->
  (exists A B, tables m (S n) pt = pt :: A ++ kids m n pt i ++ B /\
               tables m' (S n) pt = pt :: A ++ kids m' n pt i ++ B) /\
  (forall va, PX (Z.of_nat (S n)) va ≠ i -> leaf m' (S n) pt va = leaf m (S n) pt va /\
     pmap_at m' (S n) pt va = pmap_at m (S n) pt va).
Proof.
  intros Hi Hal Hnd HF Hm Hw.
  assert (forall j, 0 <= j < 512 -> j ≠ i -> forall p, p ∈ kids m n pt j -> aligned p /\ m' !! p = m !! p) as Hj.
  { intros j Hj Hne p Hp. pose proof (kids_tables m n pt j p Hj Hp) as Hpt. split.
    { rewrite Forall_forall in Hal. by apply Hal. }
    apply Hm; [intros ?; by apply (HF p)| |].
    - intros Hpi. rewrite tables_S in Hnd. apply NoDup_cons in Hnd as [_ Hnd].
      assert (i ∈ seqZ 0 512 /\ j ∈ seqZ 0 512) as [Hi' Hj'] by (split; apply elem_of_seqZ; lia).
      clear -Hnd Hp Hpi Hi' Hj' Hne. induction (seqZ 0 512) as [|x l IH]; [by apply not_elem_of_nil in Hi'|].
      cbn [mbind list_bind] in Hnd. apply NoDup_app in Hnd as (_ & Hd & Hnd).
      apply elem_of_cons in Hi' as [->|Hi'], Hj' as [->|Hj']; [done| | |by apply IH].
      + apply (Hd p Hpi). apply list_elem_of_bind. by exists j.
      + apply (Hd p Hp). apply list_elem_of_bind. by exists i.
    - intros ->. rewrite tables_S in Hnd. apply NoDup_cons in Hnd as [Hnd _]. apply Hnd.
      apply list_elem_of_bind. exists j. split; [done|]. apply elem_of_seqZ. lia. }
  assert (forall j, 0 <= j < 512 -> j ≠ i -> kids m' n pt j = kids m n pt j) as Hk.
  { intros j Hjr Hne. specialize (Hj j Hjr Hne). unfold kids in Hj |- *. cbv zeta in *. rewrite Hw by done.
    destruct (valid (word m (pt + 8 * j))); [|done]. by apply tables_frame. }
  split.
  - exists (seqZ 0 i ≫= kids m n pt), (seqZ (i + 1) (511 - i) ≫= kids m n pt).
    split; [by apply tables_split|]. rewrite (tables_split m' n pt i Hi). apply (f_equal (cons pt)).
    f_equal; [|f_equal]; apply bind_ext_in; intros j Hjr%elem_of_seqZ; apply Hk; lia.
  - intros va Hne. pose proof (PX_range (Z.of_nat (S n)) va) as Hr. specialize (Hj _ Hr Hne). unfold kids in Hj. cbv zeta in Hj.
    assert (entry m' (S n) pt va = entry m (S n) pt va) as E by (apply Hw; done).
    unfold pmap_at. cbn [leaf]. rewrite E. unfold entry. destruct (valid _) eqn:Hv; [|done].
    destruct (tables_frame m m' n _ Hj) as (_ & E2 & E3). split; [apply E2|apply E3].
Qed.

(** ** walk *)

Fixpoint levels (n : nat) : list Z := match n with O => [] | S n' => Z.of_nat n :: levels n' end.

Section pagetable.
Context `{L : LinkSyms} `{!LinkSymsOk L}.

(** A page of RAM the kernel may use for a table, and its bytes are there. *)
Definition table_page (m : gmap Z (list Z)) (p : Z) : Prop := heap_page p /\ page_ok m p.

Lemma heap_aligned p : heap_page p -> aligned p.
Proof. by intros [? _]. Qed.

Lemma heap_frame p : heap_page p -> frame_addr p.
Proof.
  intros [Ha Hr]. split; [done|]. pose proof (sym_end_pos). unfold PHYSTOP, KERNBASE in Hr.
  change (2 ^ 56) with 72057594037927936. lia.
Qed.

Lemma Forall_aligned m l : Forall (table_page m) l -> Forall aligned l.
Proof. intros Hl. eapply Forall_impl; [exact Hl|]. intros p [? _]. by apply heap_aligned. Qed.

Lemma kids_page m n pt va : Forall (table_page m) (tables m (S n) pt) -> valid (entry m (S n) pt va) = true ->
  Forall (table_page m) (tables m n (PTE2PA (entry m (S n) pt va))).
Proof.
  intros Hp Hv. apply Forall_forall. intros p Hin. rewrite Forall_forall in Hp. apply Hp.
  apply (kids_tables m n pt (PX (Z.of_nat (S n)) va)); [apply PX_range|]. unfold kids. unfold entry in *. by rewrite Hv.
Qed.

Lemma leaf_table m n pt va a : leaf m n pt va = Some a ->
  exists q, q ∈ tables m n pt /\ a = q + 8 * PX 0 va.
Proof.
  revert pt. induction n as [|n IH]; intros pt; cbn [leaf].
  - intros [= <-]. exists pt. split; [left|done].
  - destruct (valid _) eqn:Hv; [|done]. intros (q & Hq & ->)%IH. exists q. split; [|done].
    apply (kids_tables m n pt (PX (Z.of_nat (S n)) va)); [apply PX_range|]. unfold kids. unfold entry in *. by rewrite Hv.
Qed.

Lemma walk_loop_find n pt va s e : Forall (table_page (mem (kd s))) (tables (mem (kd s)) n pt) ->
  exists r, walk_loop (levels n) pt va false (mkWorld s e) = Ok r (mkWorld s e) /\
    leaf (mem (kd s)) n pt va = (fun p => p + 8 * PX 0 va) <$> r.
Proof.
  revert pt. induction n as [|n IH]; intros pt Hp; cbn [levels walk_loop leaf].
  - by exists (Some pt).
  - pose proof Hp as Hp0. rewrite Forall_forall in Hp0. destruct (Hp0 pt (tables_head _ _ _)) as [Hh Hk].
    erewrite bind_Ok by (apply read64_word; [by apply heap_aligned|apply PX_range|done]).
    fold (entry (mem (kd s)) (S n) pt va). fold (valid (entry (mem (kd s)) (S n) pt va)).
    destruct (valid _) eqn:Hv; [|by exists None]. apply IH. by apply kids_page.
Qed.

Lemma walk_find pt va s e : va < MAXVA -> Forall (table_page (mem (kd s))) (tables (mem (kd s)) 2 pt) ->
  walk pt va false (mkWorld s e) = Ok (default 0 (leaf (mem (kd s)) 2 pt va)) (mkWorld s e).
Proof.
  intros Hva Hp. unfold walk. destruct (Z.leb_spec MAXVA va); [lia|].
  destruct (walk_loop_find 2 pt va s e Hp) as (r & E & ->). rewrite (bind_Ok _ _ _ _ _ E). by destruct r.
Qed.

Lemma leaf_nonzero m n pt va a : Forall (table_page m) (tables m n pt) -> leaf m n pt va = Some a -> (a =? 0) = false.
Proof.
  intros Hp (q & Hq & ->)%leaf_table. rewrite Forall_forall in Hp. destruct (Hp q Hq) as [[_ ?] _].
  pose proof sym_end_pos. pose proof (PX_range 0 va). apply Z.eqb_neq. lia.
Qed.

(** The entry of a virtual page, read through walk. *)
Lemma walk_pte pt va s e : va < MAXVA -> Forall (table_page (mem (kd s))) (tables (mem (kd s)) 2 pt) ->
  match leaf (mem (kd s)) 2 pt va with
  | Some a => walk pt va false (mkWorld s e) = Ok a (mkWorld s e) /\ (a =? 0) = false /\
      read64 a (mkWorld s e) = Ok (word (mem (kd s)) a) (mkWorld s e)
  | None => walk pt va false (mkWorld s e) = Ok 0 (mkWorld s e)
  end.
Proof.
  intros Hva Hp. pose proof (walk_find pt va s e Hva Hp) as E. destruct (leaf _ _ _ _) as [a|] eqn:El; [|done].
  split; [done|]. split; [by eapply leaf_nonzero|]. apply leaf_table in El as (q & Hq & ->).
  rewrite Forall_forall in Hp. destruct (Hp q Hq) as [Hh Hk]. apply read64_word; [by apply heap_aligned|apply PX_range|done].
Qed.

(** *** A fresh table is empty *)

Lemma word_zeros m pa i : aligned pa -> 0 <= i < 512 -> m !! pa = Some (junk 0) -> word m (pa + 8 * i) = 0.
Proof.
  intros Ha Hi E. destruct (entry_addr pa i Ha Hi) as [Ep Eo]. unfold word, page_bytes. rewrite Ep, Eo, E.
  cbn [default from_option id]. unfold junk, read_at. rewrite drop_replicate, take_replicate.
  rewrite Nat.min_l by (unfold PGSIZE; lia). done.
Qed.

Lemma tables_zeros m n pa : aligned pa -> m !! pa = Some (junk 0) ->
  tables m n pa = [pa] /\ forall va, pmap_at m n pa va = None.
Proof.
  intros Ha E. destruct n as [|n].
  - split; [done|]. intros va. unfold pmap_at. cbn [leaf mbind option_bind].
    by rewrite (word_zeros m pa (PX 0 va) Ha (PX_range 0 va) E).
  - split.
    + rewrite tables_S. apply (f_equal (cons pa)). transitivity (seqZ 0 512 ≫= fun _ => @nil Z).
      * apply bind_ext_in. intros i Hi%elem_of_seqZ. unfold kids. by rewrite word_zeros by (try done; lia).
      * by induction (seqZ 0 512).
    + intros va. unfold pmap_at. cbn [leaf]. unfold entry.
      by rewrite (word_zeros m pa (PX (Z.of_nat (S n)) va) Ha (PX_range _ va) E).
Qed.
(** *** Allocation *)

(** The allocator is usable and its free pages are [l]. *)
Definition kmem_ok (s : kstate) (l : list Z) : Prop :=
  settled s /\ noff s < 2147483646 /\ is_free s LKmem /\ free_pages s l.

(** The state with another RAM and another free list. *)
Definition with_mem (m : gmap Z (list Z)) (fl : Z) (s : kstate) : kstate :=
  mapd (fun d => set_mem m (set_freelist fl d)) s.

Lemma with_with m fl m' fl' s : with_mem m' fl' (with_mem m fl s) = with_mem m' fl' s.
Proof. done. Qed.

Lemma mem_with m fl s : mem (kd (with_mem m fl s)) = m.
Proof. done. Qed.

Lemma with_self s : with_mem (mem (kd s)) (freelist (kd s)) s = s.
Proof. by destruct s as [? ? ? ? []]. Qed.

Lemma upd_mem_with f s : upd_mem f s = with_mem (f (mem (kd s))) (freelist (kd s)) s.
Proof. by destruct s as [? ? ? ? []]. Qed.

Lemma kmem_ok_with m fl s l l' : kmem_ok s l -> chain m fl l' -> kmem_ok (with_mem m fl s) l'.
Proof. by intros (? & ? & ? & _) Hc. Qed.

Lemma kalloc_case s e l : kmem_ok s l ->
  match l with
  | [] => kalloc (mkWorld s e) = Ok 0 (mkWorld s e)
  | pa :: l' => exists fl', kalloc (mkWorld s e) = Ok pa (mkWorld (with_mem (<[pa := junk 5]> (mem (kd s))) fl' s) e) /\
      heap_page pa /\ (pa =? 0) = false /\ (forall bs, chain (<[pa := bs]> (mem (kd s))) fl' l')
  end.
Proof.
  intros (Hs & Hn & Hf & Hc). destruct l as [|pa l].
  - apply kalloc_none; try done. unfold free_pages in Hc. by inversion Hc.
  - pose proof Hc as Hc0. inversion Hc as [|? bs ? Hh Hm Hl Hc' Hni]; subst.
    exists (next_of bs). split; [by apply (kalloc_some s e _ bs l)|]. split; [done|].
    split; [|intros bs'; by apply chain_put]. pose proof sym_end_pos. destruct Hh as [_ ?]. apply Z.eqb_neq. lia.
Qed.

Lemma memset_zero s e pa bs : mem (kd s) !! pa = Some bs -> length bs = Z.to_nat PGSIZE ->
  memset_page pa 0 PGSIZE (mkWorld s e) = Ok tt (mkWorld (with_mem (<[pa := junk 0]> (mem (kd s))) (freelist (kd s)) s) e).
Proof.
  intros Hm Hl. rewrite (memset_page_ok pa 0 bs s e Hm Hl). unfold with_mem, mapd, put_mem.
  by destruct s as [? ? ? ? []].
Qed.

(** From [m] to [m'] the tree below [pt] has grown by the pages [taken], and the
    address space is the same. *)
Definition grown (m m' : gmap Z (list Z)) (n : nat) (pt : Z) (taken : list Z) : Prop :=
  tables m' n pt ≡ₚ taken ++ tables m n pt /\
  (forall p, p ∉ taken -> p ∉ tables m n pt -> m' !! p = m !! p) /\
  Forall (table_page m') (tables m' n pt) /\
  (forall va, pmap_at m' n pt va = pmap_at m n pt va).

Lemma grown_refl m n pt : Forall (table_page m) (tables m n pt) -> grown m m n pt [].
Proof. done. Qed.

(** What walk_loop with allocation does to the free list [l]. *)
Definition walked (n : nat) (pt va : Z) (s : kstate) (l : list Z) (r : option Z) (s' : kstate) : Prop :=
  exists taken l' m' fl', l = taken ++ l' /\ s' = with_mem m' fl' s /\ chain m' fl' l' /\
    grown (mem (kd s)) m' n pt taken /\
    match r with
    | Some p => leaf m' n pt va = Some (p + 8 * PX 0 va)
    | None => l' = []
    end.
Lemma grown_path m m' n pt i c taken : 0 <= i < 512 -> Forall (table_page m) (tables m (S n) pt) ->
  NoDup (taken ++ tables m (S n) pt) ->
  (* only entry [i] of [pt], the tree below it and the pages taken change *)
  (forall p, p ∉ taken -> p ∉ kids m n pt i -> p ≠ pt -> m' !! p = m !! p) ->
  (forall j, 0 <= j < 512 -> j ≠ i -> word m' (pt + 8 * j) = word m (pt + 8 * j)) ->
  table_page m' pt -> valid (word m' (pt + 8 * i)) = true -> PTE2PA (word m' (pt + 8 * i)) = c ->
  (* and entry [i] now leads to the tree of [c] *)
  tables m' n c ≡ₚ taken ++ kids m n pt i -> Forall (table_page m') (tables m' n c) ->
  (forall va, PX (Z.of_nat (S n)) va = i -> pmap_at m' n c va = pmap_at m (S n) pt va) ->
  grown m m' (S n) pt taken.
Proof.
  intros Hi Hp Hnd Hm Hw Hpt Hv Hc Ht Hk Hpm. apply NoDup_app in Hnd as (_ & Hd & Hnd).
  destruct (tables_update m m' n pt i taken Hi (Forall_aligned _ _ Hp) Hnd Hd Hm Hw) as [(A & B & E & E') Hpm'].
  assert (kids m' n pt i = tables m' n c) as Ek by (unfold kids; by rewrite Hv, Hc).
  rewrite Ek in E'. split; [|split; [|split]].
  - rewrite E, E', Ht. solve_Permutation.
  - intros p Hp1 Hp2. apply Hm; [done| |].
    + intros Hin. apply Hp2. by apply (kids_tables m n pt i).
    + intros ->. apply Hp2. left.
  - assert (forall p, p ∈ tables m (S n) pt -> p ≠ pt -> p ∉ kids m n pt i -> table_page m' p) as Ho.
    { intros p Hin Hne Hni. rewrite Forall_forall in Hp. destruct (Hp p Hin) as [Hh (bs & Hbs & Hl)].
      split; [done|]. exists bs. rewrite Hm; [done|intros Hin'; by apply (Hd p)|done..]. }
    rewrite E in Hnd, Ho. apply NoDup_cons in Hnd as [Hpn Hnd]. apply NoDup_app in Hnd as (_ & HdA & Hnd).
    apply NoDup_app in Hnd as (_ & HdB & _). rewrite E'. constructor; [done|]. apply Forall_app. split; [|apply Forall_app; split; [done|]].
    + apply Forall_forall. intros p Hin. apply Ho.
      * rewrite elem_of_cons, !elem_of_app. tauto.
      * intros ->. apply Hpn. rewrite elem_of_app. tauto.
      * intros ?. apply (HdA p Hin). rewrite elem_of_app. tauto.
    + apply Forall_forall. intros p Hin. apply Ho.
      * rewrite elem_of_cons, !elem_of_app. tauto.
      * intros ->. apply Hpn. rewrite !elem_of_app. tauto.
      * intros ?. by apply (HdB p).
  - intros va. destruct (decide (PX (Z.of_nat (S n)) va = i)) as [Ei|Ei]; [|by apply Hpm'].
    rewrite <- (Hpm va Ei). unfold pmap_at at 1. cbn [leaf]. unfold entry. by rewrite Ei, Hv, Hc.
Qed.
(** walk_loop goes down an existing entry. *)
Lemma walked_down n pt va s l r s' : kmem_ok s l -> Forall (table_page (mem (kd s))) (tables (mem (kd s)) (S n) pt) ->
  NoDup (l ++ tables (mem (kd s)) (S n) pt) -> valid (entry (mem (kd s)) (S n) pt va) = true ->
  walked n (PTE2PA (entry (mem (kd s)) (S n) pt va)) va s l r s' -> walked (S n) pt va s l r s'.
Proof.
  set (m := mem (kd s)). set (i := PX (Z.of_nat (S n)) va). set (c := PTE2PA (entry m (S n) pt va)).
  intros Hk Hp Hnd Hv (taken & l' & m' & fl' & -> & -> & Hc & (Ht & Hm & Hf & Hpm) & Hr).
  assert (valid (word m (pt + 8 * i)) = true) as Hvi by exact Hv.
  assert (kids m n pt i = tables m n c) as Ek by (unfold kids; by rewrite Hvi).
  assert (NoDup (taken ++ tables m (S n) pt)) as Hnd'.
  { rewrite <- app_assoc in Hnd. apply NoDup_app in Hnd as (H1 & H2 & H3). apply NoDup_app in H3 as (_ & _ & H3).
    apply NoDup_app. split; [done|]. split; [|done]. intros x Hx Hx'. apply (H2 x Hx), elem_of_app. by right. }
  assert ((pt ∉ taken) /\ (pt ∉ tables m n c)) as [Hpt1 Hpt2].
  { split.
    - intros Hin. apply NoDup_app in Hnd' as (_ & Hd & _). apply (Hd pt Hin), tables_head.
    - rewrite <- Ek. apply NoDup_app in Hnd' as (_ & _ & Hd). rewrite (tables_split m n pt i (PX_range _ _)) in Hd.
      apply NoDup_cons in Hd as [Hd _]. intros Hin. apply Hd. rewrite !elem_of_app. tauto. }
  assert (m' !! pt = m !! pt) as Ept by by apply Hm.
  pose proof Hp as Hp0. rewrite Forall_forall in Hp0. destruct (Hp0 pt (tables_head _ _ _)) as [Hh Hok].
  assert (forall j, 0 <= j < 512 -> word m' (pt + 8 * j) = word m (pt + 8 * j)) as Hw
    by (intros j Hj; apply word_frame; [by apply heap_aligned|done|done]).
  exists taken, l', m', fl'. split; [done|]. split; [done|]. split; [done|]. split.
  - apply (grown_path m m' n pt i c taken); try done.
    + apply PX_range.
    + intros p Hp1 Hp2 _. rewrite Ek in Hp2. by apply Hm.
    + intros j Hj _. by apply Hw.
    + split; [done|]. destruct Hok as (bs & ? & ?). exists bs. by rewrite Ept.
    + rewrite Hw by apply PX_range. exact Hv.
    + rewrite Hw by apply PX_range. done.
    + by rewrite Ek.
    + intros va' Ei. rewrite Hpm. unfold pmap_at at 2. cbn [leaf]. unfold entry. by rewrite Ei, Hvi.
  - destruct r as [p|]; [|done]. rewrite <- Hr. cbn [leaf]. unfold entry. fold i. by rewrite Hw, Hvi by apply PX_range.
Qed.

(** The memory after walk_loop has put the fresh table [pa] in entry [i] of [pt]. *)
Definition linked (m : gmap Z (list Z)) (pt i pa : Z) : gmap Z (list Z) :=
  store (pt + 8 * i) (mk_pte pa 0) (<[pa := junk 0]> m).

Lemma linked_facts m pt i pa : table_page m pt -> 0 <= i < 512 -> heap_page pa -> pa ≠ pt ->
  (forall p, p ≠ pa -> p ≠ pt -> linked m pt i pa !! p = m !! p) /\ linked m pt i pa !! pa = Some (junk 0) /\
  table_page (linked m pt i pa) pt /\
  (forall j, 0 <= j < 512 -> word (linked m pt i pa) (pt + 8 * j) =
     if decide (i = j) then mk_pte pa 0 else word m (pt + 8 * j)).
Proof.
  intros [Hh Hok] Hi Hpa Hne. pose proof (heap_aligned pt Hh) as Ha.
  destruct (entry_addr pt i Ha Hi) as [Ei _].
  assert (page_ok (<[pa := junk 0]> m) pt) as Hok1.
  { destruct Hok as (bs & ? & ?). exists bs. by rewrite lookup_insert_ne. }
  unfold linked. split; [|split; [|split]].
  - intros p H1 H2. rewrite store_ne, lookup_insert_ne; congruence.
  - rewrite store_ne by congruence. apply lookup_insert_eq.
  - split; [done|]. by apply page_ok_store.
  - intros j Hj. rewrite word_store; try done; [|apply mk_pte_range; [by apply heap_frame|lia]].
    case_decide; [done|]. apply word_frame; [done|done|by rewrite lookup_insert_ne].
Qed.
(** walk_loop puts the fresh table [pa] in an empty entry and goes down to it. *)
Lemma walked_fresh n pt va s pa l fl r s' :
  let m := mem (kd s) in let i := PX (Z.of_nat (S n)) va in
  heap_page pa -> Forall (table_page m) (tables m (S n) pt) -> NoDup (pa :: l ++ tables m (S n) pt) ->
  valid (entry m (S n) pt va) = false ->
  walked n pa va (with_mem (linked m pt i pa) fl s) l r s' -> walked (S n) pt va s (pa :: l) r s'.
Proof.
  intros m i Hh Hp Hnd Hv (taken & l' & m' & fl' & -> & -> & Hc & (Ht & Hm & Hf & Hpm) & Hr).
  assert (valid (word m (pt + 8 * i)) = false) as Hvi by exact Hv.
  pose proof Hp as Hp0. rewrite Forall_forall in Hp0. pose proof (Hp0 pt (tables_head _ _ _)) as Hpt.
  assert (kids m n pt i = []) as Ek by (unfold kids; by rewrite Hvi).
  apply NoDup_cons in Hnd as [Hpa Hnd]. rewrite <- app_assoc in Hnd.
  assert (NoDup (taken ++ tables m (S n) pt)) as Hnd'.
  { apply NoDup_app in Hnd as (H1 & H2 & H3). apply NoDup_app in H3 as (_ & _ & H3).
    apply NoDup_app. split; [done|]. split; [|done]. intros x Hx Hx'. apply (H2 x Hx), elem_of_app. by right. }
  rewrite !elem_of_app in Hpa.
  assert (pt ∉ taken) as Hpt1.
  { intros Hin. apply NoDup_app in Hnd' as (_ & Hd & _). apply (Hd pt Hin), tables_head. }
  assert (pa ≠ pt) as Hne. { intros ->. apply Hpa. right. apply tables_head. }
  destruct (linked_facts m pt i pa Hpt (PX_range _ _) Hh Hne) as (Ho & Hz & Hpt2 & Hw).
  change (mem (kd (with_mem (linked m pt i pa) fl s))) with (linked m pt i pa) in *.
  destruct (tables_zeros (linked m pt i pa) n pa (heap_aligned pa Hh) Hz) as [Ez Epz].
  rewrite Ez in Ht, Hm.
  assert (m' !! pt = linked m pt i pa !! pt) as Ept.
  { apply Hm; [done|]. intros ?%list_elem_of_singleton. congruence. }
  assert (forall j, 0 <= j < 512 -> word m' (pt + 8 * j) = if decide (i = j) then mk_pte pa 0 else word m (pt + 8 * j)) as Hw'.
  { intros j Hj. rewrite <- Hw by done. apply word_frame; [apply heap_aligned, Hpt|done|done]. }
  assert (word m' (pt + 8 * i) = mk_pte pa 0) as Hwi by (rewrite Hw' by apply PX_range; by rewrite decide_True).
  exists (pa :: taken), l', m', fl'. split; [done|]. split; [done|]. split; [done|]. split.
  - apply (grown_path m m' n pt i pa (pa :: taken)); try done.
    + apply PX_range.
    + cbn [app]. apply NoDup_cons. split; [rewrite elem_of_app; tauto|done].
    + intros p Hp1 _ Hp3. apply not_elem_of_cons in Hp1 as [Hp1 Hp2]. rewrite Hm; [by apply Ho|done|].
      by intros ?%list_elem_of_singleton.
    + intros j Hj Hji. rewrite Hw' by done. by rewrite decide_False by congruence.
    + destruct Hpt2 as [? (bs & ? & ?)]. split; [done|]. exists bs. by rewrite Ept.
    + rewrite Hwi. apply valid_mk.
    + rewrite Hwi. apply PTE2PA_mk; [by apply heap_frame|lia].
    + rewrite Ek, Ht, app_nil_r. symmetry. apply Permutation_cons_append.
    + intros va' Ei. rewrite Hpm, Epz. unfold pmap_at. cbn [leaf]. unfold entry. by rewrite Ei, Hvi.
  - destruct r as [p|]; [|done]. rewrite <- Hr. cbn [leaf]. unfold entry. fold i. rewrite Hwi, valid_mk.
    rewrite (PTE2PA_mk pa 0); [done|by apply heap_frame|lia].
Qed.

(** The commands of walk that allocate a table and link it. *)
Lemma fresh_table_run s e pa l pt i (k : Z -> M (option Z)) : kmem_ok s (pa :: l) ->
  table_page (mem (kd s)) pt -> 0 <= i < 512 -> pa ≠ pt ->
  exists fl,
    (p ← kalloc; if p =? 0 then mret None else
     memset_page p 0 PGSIZE;; write64 (pt + 8 * i) (Z.lor (PA2PTE p) PTE_V);; k p) (mkWorld s e) =
    k pa (mkWorld (with_mem (linked (mem (kd s)) pt i pa) fl s) e) /\ heap_page pa /\
    (forall bs, chain (<[pa := bs]> (mem (kd s))) fl l).
Proof.
  intros Hk [Hh Hok] Hi Hne. destruct (kalloc_case s e (pa :: l) Hk) as (fl & E & Hpa & Hpz & Hch).
  exists fl. split; [|done]. rewrite (bind_Ok _ _ _ _ _ E), Hpz.
  erewrite bind_Ok by (eapply memset_zero; [apply lookup_insert_eq|apply length_replicate]).
  rewrite with_with. cbn [kd with_mem mapd set_kd mem set_mem freelist set_freelist]. rewrite insert_insert_eq.
  erewrite bind_Ok by (apply write64_word; [by apply heap_aligned|done|]; destruct Hok as (bs & ? & ?);
    exists bs; cbn; by rewrite lookup_insert_ne).
  rewrite upd_mem_with, with_with. cbn [kd with_mem mapd set_kd mem set_mem freelist set_freelist].
  assert (Z.lor (PA2PTE pa) PTE_V = mk_pte pa 0) as -> by (unfold mk_pte; by rewrite Z.lor_0_r). done.
Qed.

Lemma walk_loop_alloc n pt va s e l : kmem_ok s l ->
  Forall (table_page (mem (kd s))) (tables (mem (kd s)) n pt) -> NoDup (l ++ tables (mem (kd s)) n pt) ->
  exists r s', walk_loop (levels n) pt va true (mkWorld s e) = Ok r (mkWorld s' e) /\ walked n pt va s l r s'.
Proof.
  revert pt s l. induction n as [|n IH]; intros pt s l Hk Hp Hnd; cbn [levels walk_loop].
  - exists (Some pt), s. split; [done|]. exists [], l, (mem (kd s)), (freelist (kd s)).
    split; [done|]. split; [by rewrite with_self|]. split; [apply Hk|]. by split; [apply grown_refl|].
  - pose proof Hp as Hp0. rewrite Forall_forall in Hp0. pose proof (Hp0 pt (tables_head _ _ _)) as Hpt.
    destruct Hpt as [Hh Hok]. pose proof (PX_range (Z.of_nat (S n)) va) as Hi. set (i := PX (Z.of_nat (S n)) va) in *.
    erewrite bind_Ok by (apply read64_word; [by apply heap_aligned|done|done]).
    set (m := mem (kd s)) in *. fold (valid (word m (pt + 8 * i))). destruct (valid _) eqn:Hv.
    + destruct (IH (PTE2PA (word m (pt + 8 * i))) s l) as (r & s' & E & Hw); [done|by apply (kids_page m n pt va)| |].
      { apply NoDup_app in Hnd as (H1 & H2 & H3). apply NoDup_app. split; [done|]. rewrite (tables_split m n pt i Hi) in H2, H3.
        unfold kids in H2, H3. rewrite Hv in H2, H3. split.
        - intros x Hx Hx'. apply (H2 x Hx). rewrite elem_of_cons, !elem_of_app. tauto.
        - apply NoDup_cons in H3 as [_ H3]. apply NoDup_app in H3 as (_ & _ & H3). by apply NoDup_app in H3 as (? & _ & _). }
      exists r, s'. split; [done|]. by apply walked_down.
    + cbn [negb]. destruct l as [|pa l].
      * rewrite (bind_Ok _ _ _ _ _ (kalloc_case s e [] Hk)). exists None, s. split; [done|]. exists [], [], m, (freelist (kd s)).
        split; [done|]. split; [symmetry; apply with_self|]. split; [apply Hk|]. by split; [apply grown_refl|].
      * assert (pa ≠ pt) as Hne.
        { intros ->. apply NoDup_cons in Hnd as [Hnd _]. apply Hnd, elem_of_app. right. apply tables_head. }
        destruct (fresh_table_run s e pa l pt i (fun p => walk_loop (levels n) p va true) Hk (conj Hh Hok) Hi Hne) as (fl & -> & Hpa & Hch).
        destruct (linked_facts m pt i pa (conj Hh Hok) Hi Hpa Hne) as (Ho & Hz & Hpt2 & Hw).
        destruct (tables_zeros (linked m pt i pa) n pa (heap_aligned pa Hpa) Hz) as [Ez _].
        apply NoDup_cons in Hnd as [Hpn Hnd].
        destruct (IH pa (with_mem (linked m pt i pa) fl s) l) as (r & s' & E' & Hw').
        -- apply (kmem_ok_with _ _ _ (pa :: l)); [done|]. apply chain_put; [apply Hch|].
           destruct (entry_addr pt i (heap_aligned pt Hh) Hi) as [-> _]. intros Hin.
           apply NoDup_app in Hnd as (_ & Hd & _). apply (Hd pt Hin), tables_head.
        -- change (mem (kd (with_mem (linked m pt i pa) fl s))) with (linked m pt i pa). rewrite Ez.
           constructor; [|done]. split; [done|]. exists (junk 0). split; [done|apply length_replicate].
        -- change (mem (kd (with_mem (linked m pt i pa) fl s))) with (linked m pt i pa). rewrite Ez.
           apply NoDup_app in Hnd as (H1 & _ & _). apply NoDup_app. split; [done|]. split; [|apply NoDup_singleton].
           intros x Hx ->%list_elem_of_singleton. apply Hpn, elem_of_app. by left.
        -- exists r, s'. split; [exact E'|]. apply (walked_fresh n pt va s pa l fl r s'); try done.
           by apply NoDup_cons.
Qed.
(** ** Changing a leaf entry *)

(** [va] and [va'] have the same indices at the levels up to [n]. *)
Fixpoint agree (n : nat) (va va' : Z) : bool :=
  (PX (Z.of_nat n) va =? PX (Z.of_nat n) va') && match n with O => true | S n => agree n va va' end.

Lemma agree_page va va' : 0 <= va < MAXVA -> 0 <= va' < MAXVA -> agree 2 va va' = (va / PGSIZE =? va' / PGSIZE).
Proof.
  intros Hva Hva'. apply eq_bool_prop_intro. rewrite !Is_true_true. cbn [agree Z.of_nat].
  rewrite !andb_true_iff, !Z.eqb_eq. split.
  - intros (H2 & H1 & H0 & _). by apply PX_inj.
  - intros E. split; [|split; [|split]]; [apply PX_page; [done|done]..|done].
Qed.

Definition as_pte (v : Z) : option Z := if valid v then Some v else None.

Lemma set_leaf m n pt va a v : Forall (table_page m) (tables m n pt) -> NoDup (tables m n pt) ->
  leaf m n pt va = Some a -> 0 <= v < 2 ^ 64 ->
  tables (store a v m) n pt = tables m n pt /\
  (forall va', pmap_at (store a v m) n pt va' = if agree n va va' then as_pte v else pmap_at m n pt va').
Proof.
  revert pt. induction n as [|n IH]; intros pt Hp Hnd Hl Hv.
  - split; [done|]. intros va'. cbn in Hl. injection Hl as <-. pose proof Hp as Hp0. rewrite Forall_forall in Hp0.
    destruct (Hp0 pt (tables_head _ _ _)) as [Hh Hok]. unfold pmap_at. cbn [leaf mbind option_bind agree Z.of_nat].
    rewrite (word_store m pt (PX 0 va) (PX 0 va') v (heap_aligned pt Hh) Hok (PX_range _ _) (PX_range _ _) Hv).
    rewrite andb_true_r. change (Z.of_nat 0) with 0. destruct (decide (PX 0 va = PX 0 va')) as [E|E].
    + apply Z.eqb_eq in E. by rewrite E.
    + apply Z.eqb_neq in E. by rewrite E.
  - cbn [leaf] in Hl. set (i := PX (Z.of_nat (S n)) va) in *. set (c := PTE2PA (entry m (S n) pt va)) in *.
    destruct (valid (entry m (S n) pt va)) eqn:Hve; [|done].
    assert (valid (word m (pt + 8 * i)) = true) as Hvi by exact Hve. pose proof (PX_range (Z.of_nat (S n)) va : 0 <= i < 512) as Hi.
    assert (kids m n pt i = tables m n c) as Ek by (unfold kids; by rewrite Hvi).
    assert (Forall (table_page m) (tables m n c)) as Hp' by by apply kids_page.
    pose proof Hnd as Hnd'. rewrite (tables_split m n pt i Hi), Ek in Hnd'. apply NoDup_cons in Hnd' as [Hni Hnd'].
    apply NoDup_app in Hnd' as (_ & _ & Hnd'). apply NoDup_app in Hnd' as (Hnd' & _ & _).
    destruct (IH c Hp' Hnd' Hl Hv) as [Et Epm]. destruct (leaf_table m n c va a Hl) as (q & Hq & Ea).
    assert (page_of a = q) as Eq.
    { subst a. rewrite Forall_forall in Hp'. destruct (Hp' q Hq) as [Hqh _]. apply entry_addr; [by apply heap_aligned|apply PX_range]. }
    assert (pt ≠ q) as Hneq. { intros ->. apply Hni. rewrite !elem_of_app. tauto. }
    pose proof Hp as Hp0. rewrite Forall_forall in Hp0. destruct (Hp0 pt (tables_head _ _ _)) as [Hh Hok].
    assert (forall j, 0 <= j < 512 -> word (store a v m) (pt + 8 * j) = word m (pt + 8 * j)) as Hw.
    { intros j Hj. apply word_frame; [by apply heap_aligned|done|]. apply store_ne. by rewrite Eq. }
    destruct (tables_update m (store a v m) n pt i [] Hi (Forall_aligned _ _ Hp) Hnd) as [(A & B & E1 & E2) Hpm].
    + intros p Hin. by apply not_elem_of_nil in Hin.
    + intros p _ Hp2 _. apply store_ne. rewrite Eq. intros ->. apply Hp2. by rewrite Ek.
    + intros j Hj _. by apply Hw.
    + assert (kids (store a v m) n pt i = tables (store a v m) n c) as Ek' by (unfold kids; by rewrite Hw, Hvi).
      split; [by rewrite E2, E1, Ek', Ek, Et|]. intros va'. cbn [agree].
      destruct (Z.eqb_spec (PX (Z.of_nat (S n)) va) (PX (Z.of_nat (S n)) va')) as [Ei|Ei]; [|by apply Hpm].
      assert (PX (Z.of_nat (S n)) va' = i) as Ei' by (symmetry; exact Ei).
      cbn [andb]. transitivity (pmap_at (store a v m) n c va').
      * unfold pmap_at at 1. cbn [leaf]. unfold entry. rewrite Ei', Hw, Hvi by done. done.
      * rewrite Epm. destruct (agree n va va'); [done|]. unfold pmap_at at 2. cbn [leaf]. unfold entry.
        by rewrite Ei', Hvi.
Qed.
(** ** mappages *)

#[local] Opaque tables.

(** The tree of [pt] is well-formed, and disjoint from the free pages [l]. *)
Definition space_ok (s : kstate) (l : list Z) (pt : Z) : Prop :=
  kmem_ok s l /\ Forall (table_page (mem (kd s))) (tables (mem (kd s)) 2 pt) /\ NoDup (l ++ tables (mem (kd s)) 2 pt).

(** From [s] with the free pages [l] to [s'] with the free pages [l'], the tree
    of [pt] has taken what is missing from [l], the address space has become
    [g], and every other page of RAM is as it was. *)
Definition remapped (pt : Z) (s : kstate) (l : list Z) (s' : kstate) (l' : list Z) (g : Z -> option Z) : Prop :=
  exists taken m' fl', s' = with_mem m' fl' s /\ l = taken ++ l' /\ space_ok s' l' pt /\
    tables m' 2 pt ≡ₚ taken ++ tables (mem (kd s)) 2 pt /\
    (forall p, p ∉ taken -> p ∉ tables (mem (kd s)) 2 pt -> m' !! p = mem (kd s) !! p) /\
    (forall va, 0 <= va < MAXVA -> pmap m' pt va = g va).

Lemma remapped_trans pt s l s1 l1 s2 l2 g1 g2 : remapped pt s l s1 l1 g1 -> remapped pt s1 l1 s2 l2 g2 ->
  remapped pt s l s2 l2 g2.
Proof.
  intros (t1 & m1 & f1 & -> & -> & _ & Ht1 & Ho1 & _) (t2 & m2 & f2 & -> & -> & Hs & Ht2 & Ho2 & Hg).
  change (mem (kd (with_mem m1 f1 s))) with m1 in *.
  exists (t1 ++ t2), m2, f2. split; [done|]. split; [by rewrite app_assoc|]. split; [done|].
  split; [|split; [|done]].
  - rewrite Ht2, Ht1, !app_assoc. apply Permutation_app_tail, Permutation_app_comm.
  - intros p Hp1 Hp2. rewrite elem_of_app in Hp1. rewrite Ho2; [apply Ho1; tauto|tauto|].
    rewrite Ht1, elem_of_app. tauto.
Qed.

Lemma remapped_ext pt s l s' l' g g' : remapped pt s l s' l' g -> (forall va, 0 <= va < MAXVA -> g va = g' va) ->
  remapped pt s l s' l' g'.
Proof.
  intros (t & m & f & H1 & H2 & H3 & H4 & H5 & H6) E. exists t, m, f. repeat (split; [done|]).
  intros va Hva. rewrite <- E by done. by apply H6.
Qed.

Lemma walk_alloc pt va s e l : space_ok s l pt -> va < MAXVA ->
  exists a s' l', walk pt va true (mkWorld s e) = Ok a (mkWorld s' e) /\
    remapped pt s l s' l' (pmap (mem (kd s)) pt) /\
    ((a = 0 /\ l' = []) \/ leaf (mem (kd s')) 2 pt va = Some a).
Proof.
  intros (Hk & Hp & Hnd) Hva. unfold walk. destruct (Z.leb_spec MAXVA va); [lia|].
  destruct (walk_loop_alloc 2 pt va s e l Hk Hp Hnd) as (r & s' & E & taken & l' & m' & fl' & -> & -> & Hc & Hg & Hr).
  change (levels 2) with [2; 1] in E. rewrite (bind_Ok _ _ _ _ _ E). destruct Hg as (Ht & Ho & Hp' & Hpm).
  exists (match r with Some p => p + 8 * PX 0 va | None => 0 end), (with_mem m' fl' s), l'.
  split; [by destruct r|]. split; [|destruct r; [by right|by left]].
  exists taken, m', fl'. split; [done|]. split; [done|]. split; [|done].
  split; [by eapply kmem_ok_with|]. split; [done|]. change (mem (kd (with_mem m' fl' s))) with m'. rewrite Ht.
  rewrite <- app_assoc in Hnd. by rewrite (app_assoc l'), (Permutation_app_comm l'), <- app_assoc.
Qed.

(** Storing a leaf entry. *)
Lemma write_leaf pt va s l a v e : space_ok s l pt -> leaf (mem (kd s)) 2 pt va = Some a -> 0 <= v < 2 ^ 64 ->
  0 <= va < MAXVA ->
  let m := mem (kd s) in let m' := store a v m in let s' := with_mem m' (freelist (kd s)) s in
  write64 a v (mkWorld s e) = Ok tt (mkWorld s' e) /\ space_ok s' l pt /\ tables m' 2 pt = tables m 2 pt /\
  (forall p, p ∉ tables m 2 pt -> m' !! p = m !! p) /\
  (forall va', 0 <= va' < MAXVA -> pmap m' pt va' = if va' / PGSIZE =? va / PGSIZE then as_pte v else pmap m pt va').
Proof.
  intros (Hk & Hp & Hnd) Hl Hv Hva m m' s'. fold m in Hp, Hnd, Hl.
  assert (NoDup (tables m 2 pt)) as Hnd2 by by apply NoDup_app in Hnd as (_ & _ & ?).
  destruct (set_leaf m 2 pt va a v Hp Hnd2 Hl Hv) as [Et Epm]. destruct (leaf_table m 2 pt va a Hl) as (q & Hq & Ea).
  assert (table_page m q) as [Hh Hok] by (rewrite Forall_forall in Hp; by apply Hp).
  destruct (entry_addr q (PX 0 va) (heap_aligned q Hh) (PX_range _ _)) as [Eq _]. rewrite <- Ea in Eq.
  split; [|split; [|split; [exact Et|split]]].
  - unfold s', m', m. rewrite <- (upd_mem_with (store a v)), Ea. by apply write64_word; [apply heap_aligned|apply PX_range|].
  - split; [|split].
    + apply (kmem_ok_with _ _ _ l); [done|]. apply chain_put; [apply Hk|]. rewrite Eq. intros Hin.
      apply NoDup_app in Hnd as (_ & Hd & _). by apply (Hd q).
    + unfold s'. rewrite mem_with. unfold m'. rewrite Et. eapply Forall_impl; [exact Hp|]. intros p [Hph Hpok].
      split; [done|]. subst a. apply page_ok_store; [by apply heap_aligned|apply PX_range|done|done].
    + unfold s'. rewrite mem_with. unfold m'. by rewrite Et.
  - intros p Hp2. apply store_ne. rewrite Eq. intros ->. exact (Hp2 Hq).
  - intros va' Hva'. unfold m'. rewrite Epm, agree_page, Z.eqb_sym by done. done.
Qed.

Lemma remapped_leaf pt va s l a v e : space_ok s l pt -> leaf (mem (kd s)) 2 pt va = Some a -> 0 <= v < 2 ^ 64 ->
  0 <= va < MAXVA ->
  exists s', write64 a v (mkWorld s e) = Ok tt (mkWorld s' e) /\
    remapped pt s l s' l (fun va' => if va' / PGSIZE =? va / PGSIZE then as_pte v else pmap (mem (kd s)) pt va').
Proof.
  intros Hs Hl Hv Hva. destruct (write_leaf pt va s l a v e Hs Hl Hv Hva) as (E & Hs' & Et & Ho & Hg).
  eexists. split; [exact E|]. exists [], (store a v (mem (kd s))), (freelist (kd s)).
  split; [done|]. split; [done|]. split; [exact Hs'|]. split; [by rewrite Et|]. split; [|exact Hg].
  intros p _. apply Ho.
Qed.

Lemma pmap_Some m n pt va v : pmap_at m n pt va = Some v ->
  exists a, leaf m n pt va = Some a /\ word m a = v /\ valid v = true.
Proof.
  unfold pmap_at. destruct (leaf m n pt va) as [a|]; [|done]. cbn [mbind option_bind].
  destruct (valid _) eqn:Hv; [|done]. intros [= <-]. by exists a.
Qed.

Lemma pmap_leaf m n pt va a : leaf m n pt va = Some a -> pmap_at m n pt va = as_pte (word m a).
Proof. intros E. unfold pmap_at. by rewrite E. Qed.

Lemma pmap_page m n pt va va' : va / PGSIZE = va' / PGSIZE -> pmap_at m n pt va = pmap_at m n pt va'.
Proof.
  intros E. assert (leaf m n pt va = leaf m n pt va') as El.
  { revert pt. induction n as [|n IH]; intros pt; cbn [leaf]; [by rewrite (PX_page 0 va va')|].
    unfold entry. rewrite (PX_page (Z.of_nat (S n)) va va') by (try done; lia). destruct (valid _); [apply IH|done]. }
  unfold pmap_at. by rewrite El.
Qed.

Lemma read_leaf s l pt va a e : space_ok s l pt -> leaf (mem (kd s)) 2 pt va = Some a ->
  (a =? 0) = false /\ read64 a (mkWorld s e) = Ok (word (mem (kd s)) a) (mkWorld s e).
Proof.
  intros (_ & Hp & _) El. split; [by eapply leaf_nonzero|]. apply leaf_table in El as (q & Hq & ->).
  rewrite Forall_forall in Hp. destruct (Hp q Hq) as [Hh Hk]. apply read64_word; [by apply heap_aligned|apply PX_range|done].
Qed.

(** The address space [f] with the [k] pages from [a] mapped to those from [pa]. *)
Definition with_range (a pa perm : Z) (k : nat) (f : Z -> option Z) (va : Z) : option Z :=
  let i := va / PGSIZE - a / PGSIZE in
  if (0 <=? i) && (i <? Z.of_nat k) then Some (mk_pte (pa + i * PGSIZE) perm) else f va.

Lemma with_range_0 a pa perm f va : with_range a pa perm 0 f va = f va.
Proof. unfold with_range. by destruct (Z.leb_spec 0 (va / PGSIZE - a / PGSIZE)), (Z.ltb_spec (va / PGSIZE - a / PGSIZE) (Z.of_nat 0)); try lia. Qed.

Lemma with_range_S a pa perm k f va : with_range (a + PGSIZE) (pa + PGSIZE) perm k
    (fun va' => if va' / PGSIZE =? a / PGSIZE then Some (mk_pte pa perm) else f va') va =
  with_range a pa perm (S k) f va.
Proof.
  unfold with_range. replace ((a + PGSIZE) / PGSIZE) with (a / PGSIZE + 1)
    by (rewrite <- (Z.mul_1_l PGSIZE) at 2; by rewrite Z.div_add).
  remember (va / PGSIZE - a / PGSIZE) as i eqn:Ei. replace (va / PGSIZE - (a / PGSIZE + 1)) with (i - 1) by lia.
  replace (va / PGSIZE =? a / PGSIZE) with (i =? 0) by lia. destruct (Z.eqb_spec i 0) as [->|Hi].
  - transitivity (Some (mk_pte pa perm)); [done|]. cbn. by rewrite Z.add_0_r.
  - destruct (Z.leb_spec 0 (i - 1)), (Z.ltb_spec (i - 1) (Z.of_nat k)), (Z.leb_spec 0 i), (Z.ltb_spec i (Z.of_nat (S k)));
      cbn [andb]; try lia; try done. do 2 f_equal. lia.
Qed.

Lemma page_step a k i : a `mod` PGSIZE = 0 -> 0 <= i -> (a + i * PGSIZE) / PGSIZE = a / PGSIZE + i /\
  (a + i * PGSIZE) `mod` PGSIZE = 0 /\ (k * PGSIZE) `mod` PGSIZE = 0.
Proof. intros Ha Hi. rewrite Z.div_add, Z.mod_add, Z.mod_mul by done. done. Qed.

(** One turn of the loop of mappages. *)
Lemma map_one pt a pa perm s l e (k : M Z) : space_ok s l pt -> 0 <= a < MAXVA -> frame_addr pa -> 0 <= perm < 1024 ->
  pmap (mem (kd s)) pt a = None ->
  let body := (pte ← walk pt a true;
    if pte =? 0 then mret (-1) else
    v ← read64 pte;
    if negb (Z.land v PTE_V =? 0) then panic "mappages: remap" else
    write64 pte (Z.lor (Z.lor (PA2PTE pa) perm) PTE_V);; k) in
  exists s' l',
    (body (mkWorld s e) = Ok (-1) (mkWorld s' e) /\ remapped pt s l s' l' (pmap (mem (kd s)) pt) /\ l' = []) \/
    (body (mkWorld s e) = k (mkWorld s' e) /\ remapped pt s l s' l' (fun va =>
       if va / PGSIZE =? a / PGSIZE then Some (mk_pte pa perm) else pmap (mem (kd s)) pt va)).
Proof.
  intros Hs Ha Hpa Hperm Hno body. subst body.
  destruct (walk_alloc pt a s e l Hs (proj2 Ha)) as (pte & s1 & l1 & E & Hr1 & Hpte). rewrite (bind_Ok _ _ _ _ _ E).
  destruct Hpte as [[-> ->]|Hleaf]; [exists s1, []; by left|].
  pose proof Hr1 as (t1 & m1 & f1 & Es1 & _ & Hs1 & _ & _ & Hg1).
  destruct (read_leaf s1 l1 pt a pte e Hs1 Hleaf) as [-> Erd]. rewrite (bind_Ok _ _ _ _ _ Erd).
  assert (valid (word (mem (kd s1)) pte) = false) as Hval.
  { pose proof (pmap_leaf _ _ _ _ _ Hleaf) as Ep. specialize (Hg1 a Ha). rewrite Es1, mem_with in Ep |- *.
    rewrite Hg1, Hno in Ep. unfold as_pte in Ep. by destruct (valid _). }
  fold (valid (word (mem (kd s1)) pte)). rewrite Hval. fold (mk_pte pa perm).
  destruct (remapped_leaf pt a s1 l1 pte (mk_pte pa perm) e Hs1 Hleaf (mk_pte_range pa perm Hpa Hperm) Ha) as (s2 & E2 & Hr2).
  rewrite (bind_Ok _ _ _ _ _ E2). exists s2, l1. right. split; [done|]. eapply remapped_ext; [by eapply remapped_trans|].
  intros va Hva. cbn beta. destruct (_ =? _); [unfold as_pte; by rewrite valid_mk|].
  rewrite Es1, mem_with. by apply Hg1.
Qed.

Lemma mappages_loop_S n pt a last pa perm : mappages_loop (S n) pt a last pa perm =
  (pte ← walk pt a true;
   if pte =? 0 then mret (-1) else
   v ← read64 pte;
   if negb (Z.land v PTE_V =? 0) then panic "mappages: remap" else
   write64 pte (Z.lor (Z.lor (PA2PTE pa) perm) PTE_V);;
   if a =? last then mret 0 else mappages_loop n pt (u64 (a + PGSIZE)) last (u64 (pa + PGSIZE)) perm).
Proof. done. Qed.

Lemma mappages_loop_ok pt k : forall a pa perm s l e, space_ok s l pt ->
  a `mod` PGSIZE = 0 -> 0 <= a -> a + Z.of_nat k * PGSIZE < MAXVA -> frame_addr pa -> frame_addr (pa + Z.of_nat k * PGSIZE) ->
  0 <= perm < 1024 ->
  (forall i, 0 <= i <= Z.of_nat k -> pmap (mem (kd s)) pt (a + i * PGSIZE) = None) ->
  exists r s' l' j, mappages_loop (S k) pt a (a + Z.of_nat k * PGSIZE) pa perm (mkWorld s e) = Ok r (mkWorld s' e) /\
    remapped pt s l s' l' (with_range a pa perm j (pmap (mem (kd s)) pt)) /\
    ((r = 0 /\ j = S k) \/ (r = -1 /\ (j <= k)%nat /\ l' = [])).
Proof.
  induction k as [|k IH]; intros a pa perm s l e Hs Ha Ha0 Hmax Hpa Hpa' Hperm Hno;
    (assert (0 <= a < MAXVA) as Har by (unfold PGSIZE in *; lia));
    (assert (pmap (mem (kd s)) pt a = None) as Hno0 by (specialize (Hno 0); rewrite Z.mul_0_l, Z.add_0_r in Hno; apply Hno; lia));
    rewrite mappages_loop_S;
    match goal with |- context [write64 _ _;; ?m] => destruct (map_one pt a pa perm s l e m Hs Har Hpa Hperm Hno0)
      as (s1 & l1 & [(E & Hr & Hl)|(E & Hr)]) end; cbv zeta in E; rewrite E.
  1,3: exists (-1), s1, l1, 0%nat; split; [done|]; split; [|right; split; [done|]; split; [lia|done]];
    eapply remapped_ext; [exact Hr|]; intros va _; symmetry; apply with_range_0.
  - rewrite Z.mul_0_l, Z.add_0_r, Z.eqb_refl. exists 0, s1, l1, 1%nat. split; [done|]. split; [|by left].
    eapply remapped_ext; [exact Hr|]. intros va _. by rewrite <- with_range_S, with_range_0.
  - destruct (Z.eqb_spec a (a + Z.of_nat (S k) * PGSIZE)); [unfold PGSIZE in *; lia|].
    change MAXVA with 274877906944 in Hmax. destruct Hpa as [Hpaa Hpar], Hpa' as [Hpaa' Hpar'].
    change (2 ^ 56) with 72057594037927936 in *.
    rewrite !u64_small by (unfold PGSIZE in *; lia).
    pose proof Hr as (t1 & m1 & f1 & Es1 & _ & Hs1 & _ & _ & Hg1).
    destruct (IH (a + PGSIZE) (pa + PGSIZE) perm s1 l1 e) as (r & s' & l' & j & E' & Hr' & Hres).
    + done.
    + rewrite <- (Z.mul_1_l PGSIZE) at 1. by rewrite Z.mod_add.
    + unfold PGSIZE. lia.
    + change MAXVA with 274877906944. unfold PGSIZE in *. lia.
    + split; [rewrite <- (Z.mul_1_l PGSIZE) at 1; by rewrite Z.mod_add|]. unfold PGSIZE in *. lia.
    + replace (pa + PGSIZE + Z.of_nat k * PGSIZE) with (pa + Z.of_nat (S k) * PGSIZE) by lia. by split.
    + done.
    + intros i Hi. replace (a + PGSIZE + i * PGSIZE) with (a + (i + 1) * PGSIZE) by lia. rewrite Es1, mem_with, Hg1.
      * rewrite (proj1 (page_step a 0 (i + 1) Ha ltac:(lia))). destruct (Z.eqb_spec (a / PGSIZE + (i + 1)) (a / PGSIZE)); [lia|].
        apply Hno. lia.
      * change MAXVA with 274877906944. unfold PGSIZE in *. lia.
    + replace (a + Z.of_nat (S k) * PGSIZE) with (a + PGSIZE + Z.of_nat k * PGSIZE) by lia. rewrite E'.
      exists r, s', l', (S j). split; [done|]. split; [|destruct Hres as [[-> ->]|(-> & ? & ->)]; [by left|right; split; [done|]; split; [lia|done] ] ].
      eapply remapped_ext; [by eapply remapped_trans|]. intros va Hva. rewrite <- with_range_S. unfold with_range.
      destruct (_ && _); [done|]. rewrite Es1, mem_with. by apply Hg1.
Qed.
(** When the entry is there, walk finds it without allocating. *)
Lemma walk_loop_found n pt va s e b a : Forall (table_page (mem (kd s))) (tables (mem (kd s)) n pt) ->
  leaf (mem (kd s)) n pt va = Some a ->
  exists p, walk_loop (levels n) pt va b (mkWorld s e) = Ok (Some p) (mkWorld s e) /\ a = p + 8 * PX 0 va.
Proof.
  revert pt. induction n as [|n IH]; intros pt Hp; cbn [levels walk_loop leaf].
  - intros [= <-]. by exists pt.
  - pose proof Hp as Hp0. rewrite Forall_forall in Hp0. destruct (Hp0 pt (tables_head _ _ _)) as [Hh Hk].
    erewrite bind_Ok by (apply read64_word; [by apply heap_aligned|apply PX_range|done]).
    fold (entry (mem (kd s)) (S n) pt va). fold (valid (entry (mem (kd s)) (S n) pt va)).
    destruct (valid _) eqn:Hv; [|done]. apply IH. by apply kids_page.
Qed.
(** mappages on pages that are not mapped. *)
Lemma mappages_ok pt va k pa perm s l e :
  space_ok s l pt -> va `mod` PGSIZE = 0 -> 0 <= va -> va + Z.of_nat (S k) * PGSIZE <= MAXVA ->
  frame_addr pa -> frame_addr (pa + Z.of_nat k * PGSIZE) -> 0 <= perm < 1024 ->
  mappages pt va (Z.of_nat (S k) * PGSIZE) pa perm = mappages_loop (S k) pt va (va + Z.of_nat k * PGSIZE) pa perm /\
  ((forall i, 0 <= i <= Z.of_nat k -> pmap (mem (kd s)) pt (va + i * PGSIZE) = None) ->
   exists r s' l' j, mappages pt va (Z.of_nat (S k) * PGSIZE) pa perm (mkWorld s e) = Ok r (mkWorld s' e) /\
     remapped pt s l s' l' (with_range va pa perm j (pmap (mem (kd s)) pt)) /\
     ((r = 0 /\ j = S k) \/ (r = -1 /\ (j <= k)%nat /\ l' = []))).
Proof.
  intros Hs Ha H0 Hmax Hpa Hpa' Hperm. unfold mappages.
  rewrite Ha, Z.mod_mul, Z.div_mul, Nat2Z.id by done. cbn [negb Z.eqb].
  destruct (Z.eqb_spec (Z.of_nat (S k) * PGSIZE) 0); [unfold PGSIZE in *; lia|].
  assert (u64 (va + Z.of_nat (S k) * PGSIZE - PGSIZE) = va + Z.of_nat k * PGSIZE) as ->.
  { replace (va + Z.of_nat (S k) * PGSIZE - PGSIZE) with (va + Z.of_nat k * PGSIZE) by lia. apply u64_small.
    change MAXVA with 274877906944 in Hmax. unfold PGSIZE in *. lia. }
  split; [done|]. intros Hno. apply mappages_loop_ok; try done; unfold PGSIZE in *; lia.
Qed.

(** ** Theorems *)

(** Walk looks up and changes nothing.  Without [alloc], on a
    well-formed page table, walk returns the address of the leaf entry of [va]
    that the tree leads to, or 0 if an entry on the way is not valid, and reading
    that address gives the entry; the state is untouched.  With [alloc] it takes
    table pages from the free list, and the address space stays the same for
    every virtual address. *)
Theorem walk_correct pt va s e l : space_ok s l pt -> 0 <= va < MAXVA ->
  (walk pt va false (mkWorld s e) = Ok (default 0 (leaf (mem (kd s)) 2 pt va)) (mkWorld s e) /\
   (forall a, leaf (mem (kd s)) 2 pt va = Some a ->
      a ≠ 0 /\ read64 a (mkWorld s e) = Ok (word (mem (kd s)) a) (mkWorld s e) /\
      pmap (mem (kd s)) pt va = as_pte (word (mem (kd s)) a))) /\
  exists a s' l', walk pt va true (mkWorld s e) = Ok a (mkWorld s' e) /\
    remapped pt s l s' l' (pmap (mem (kd s)) pt) /\
    ((a = 0 /\ l' = []) \/ leaf (mem (kd s')) 2 pt va = Some a).
Proof.
  intros Hs [_ Hva]. split; [|by apply walk_alloc]. split; [apply walk_find; [done|apply Hs]|].
  intros a Ha. destruct (read_leaf s l pt va a e Hs Ha) as [H1 H2]. apply Z.eqb_neq in H1.
  split; [done|]. split; [done|]. by apply pmap_leaf.
Qed.

(** C11: mappages maps.  Asked to map pages that are not mapped, it extends the
    address space by exactly those pages, with the given physical pages and
    permissions; or it returns -1, having mapped a proper part of them, and only
    when no free page is left.  It takes table pages from the front of the free
    list and writes to no other page of RAM.  If the first page is mapped
    already, it stops the machine. *)
Theorem mappages_correct pt va k pa perm s l e :
  space_ok s l pt -> va `mod` PGSIZE = 0 -> 0 <= va -> va + Z.of_nat (S k) * PGSIZE <= MAXVA ->
  frame_addr pa -> frame_addr (pa + Z.of_nat k * PGSIZE) -> 0 <= perm < 1024 ->
  ((forall i, 0 <= i <= Z.of_nat k -> pmap (mem (kd s)) pt (va + i * PGSIZE) = None) ->
   exists r s' l' j, mappages pt va (Z.of_nat (S k) * PGSIZE) pa perm (mkWorld s e) = Ok r (mkWorld s' e) /\
     remapped pt s l s' l' (with_range va pa perm j (pmap (mem (kd s)) pt)) /\
     ((r = 0 /\ j = S k) \/ (r = -1 /\ (j <= k)%nat /\ l' = []))) /\
  (is_Some (pmap (mem (kd s)) pt va) ->
   mappages pt va (Z.of_nat (S k) * PGSIZE) pa perm (mkWorld s e) = Panic "mappages: remap").
Proof.
  intros Hs Ha H0 Hmax Hpa Hpa' Hperm. destruct (mappages_ok pt va k pa perm s l e Hs Ha H0 Hmax Hpa Hpa' Hperm) as [-> Hok].
  split; [exact Hok|].
  intros [v Hv]. assert (0 <= va < MAXVA) as Hva by (unfold PGSIZE in *; lia). rewrite mappages_loop_S.
  destruct (walk_alloc pt va s e l Hs (proj2 Hva)) as (pte & s1 & l1 & E & Hr1 & Hpte). rewrite (bind_Ok _ _ _ _ _ E).
  destruct Hr1 as (t1 & m1 & f1 & Es1 & El & Hs1 & _ & _ & Hg1). specialize (Hg1 va Hva).
  destruct Hpte as [[-> ->]|Hleaf].
  - exfalso. destruct (leaf (mem (kd s)) 2 pt va) as [a|] eqn:Hl; [|unfold pmap_at in Hv; by rewrite Hl in Hv].
    destruct (walk_loop_found 2 pt va s e true a (proj1 (proj2 Hs)) Hl) as (p & Ew & ->).
    pose proof (leaf_nonzero _ _ _ _ _ (proj1 (proj2 Hs)) Hl) as Hz. unfold walk in E.
    destruct (Z.leb_spec MAXVA va); [lia|]. change [2; 1] with (levels 2) in E. rewrite (bind_Ok _ _ _ _ _ Ew) in E.
    injection E as E _. by rewrite E in Hz.
  - destruct (read_leaf s1 l1 pt va pte e Hs1 Hleaf) as [-> Erd]. rewrite (bind_Ok _ _ _ _ _ Erd).
    assert (valid (word (mem (kd s1)) pte) = true) as Hval.
    { pose proof (pmap_leaf _ _ _ _ _ Hleaf) as Ep. rewrite Es1, mem_with in Ep |- *. rewrite Hg1, Hv in Ep.
      unfold as_pte in Ep. by destruct (valid _). }
    fold (valid (word (mem (kd s1)) pte)). by rewrite Hval.
Qed.
End pagetable.

(** ** A small machine, for the witnesses: an empty page table and three free
    pages *)

#[local] Existing Instance kernel_syms.
#[local] Existing Instance kernel_syms_ok.

Definition small_ram : kstate :=
  mapd (fun d => set_freelist 0x87fff000
    (put_mem 0x87ffc000 (junk 0) (put_mem 0x87ffd000 (freed_page 0)
      (put_mem 0x87ffe000 (freed_page 0x87ffd000) (put_mem 0x87fff000 (freed_page 0x87ffe000) d)))))
    (unlocked kstate0).

Definition small_free : list Z := [0x87fff000; 0x87ffe000; 0x87ffd000].

Lemma small_ram_pages :
  mem (kd small_ram) !! 0x87ffc000 = Some (junk 0) /\
  mem (kd small_ram) !! 0x87ffd000 = Some (freed_page 0) /\
  mem (kd small_ram) !! 0x87ffe000 = Some (freed_page 0x87ffd000) /\
  mem (kd small_ram) !! 0x87fff000 = Some (freed_page 0x87ffe000).
Proof.
  unfold small_ram. assert (forall f s, mem (kd (mapd f s)) = mem (f (kd s))) as -> by done.
  generalize (kd (unlocked kstate0)). intros d.
  assert (forall p pa bs d, mem (set_freelist p (put_mem pa bs d)) = <[pa := bs]> (mem d)) as -> by done.
  assert (forall pa bs d, mem (put_mem pa bs d) = <[pa := bs]> (mem d)) as E by done. rewrite !E.
  rewrite lookup_insert_eq. split; [done|]. rewrite lookup_insert_ne, lookup_insert_eq by done. split; [done|].
  rewrite 2!lookup_insert_ne, lookup_insert_eq by done. split; [done|].
  by rewrite 3!lookup_insert_ne, lookup_insert_eq by done.
Qed.

Lemma small_ram_heap : heap_page 0x87ffc000 /\ heap_page 0x87ffd000 /\ heap_page 0x87ffe000 /\ heap_page 0x87fff000.
Proof. by repeat split. Qed.

Lemma small_ram_ok : space_ok small_ram small_free 0x87ffc000.
Proof.
  destruct small_ram_pages as (E0 & E1 & E2 & E3), small_ram_heap as (H0 & H1 & H2 & H3).
  destruct (tables_zeros (mem (kd small_ram)) 2 0x87ffc000 eq_refl E0) as [Et _].
  assert (forall pa fl l, heap_page pa -> mem (kd small_ram) !! pa = Some (freed_page fl) -> 0 <= fl < 2 ^ 64 ->
    chain (mem (kd small_ram)) fl l -> pa ∉ l -> chain (mem (kd small_ram)) pa (pa :: l)) as Hc.
  { intros pa fl l Hh Hm Hr Hc Hni. apply (chain_cons _ pa (freed_page fl)); [done|done|apply length_freed_page| |done].
    by rewrite next_of_freed_page. }
  split; [|rewrite Et; split].
  - split; [apply settled_unlocked|]. split; [done|]. split; [apply kmem_free|].
    unfold free_pages. change (freelist (kd small_ram)) with 0x87fff000.
    apply (Hc _ _ _ H3 E3); [lia| |by apply (bool_decide_unpack _)].
    apply (Hc _ _ _ H2 E2); [lia| |by apply (bool_decide_unpack _)].
    apply (Hc _ _ _ H1 E1); [lia|constructor|by apply (bool_decide_unpack _)].
  - constructor; [|constructor]. split; [exact H0|]. exists (junk 0). split; [exact E0|apply length_replicate].
  - by apply (bool_decide_unpack _).
Qed.

Lemma walk_correct_witness :
  (walk 0x87ffc000 0 false (mkWorld small_ram []) =
     Ok (default 0 (leaf (mem (kd small_ram)) 2 0x87ffc000 0)) (mkWorld small_ram []) /\
   (forall a, leaf (mem (kd small_ram)) 2 0x87ffc000 0 = Some a ->
      a ≠ 0 /\ read64 a (mkWorld small_ram []) = Ok (word (mem (kd small_ram)) a) (mkWorld small_ram []) /\
      pmap (mem (kd small_ram)) 0x87ffc000 0 = as_pte (word (mem (kd small_ram)) a))) /\
  exists a s' l', walk 0x87ffc000 0 true (mkWorld small_ram []) = Ok a (mkWorld s' []) /\
    remapped 0x87ffc000 small_ram small_free s' l' (pmap (mem (kd small_ram)) 0x87ffc000) /\
    ((a = 0 /\ l' = []) \/ leaf (mem (kd s')) 2 0x87ffc000 0 = Some a).
Proof.
  apply (walk_correct 0x87ffc000 0 small_ram [] small_free small_ram_ok).
  split; [done|reflexivity].
Defined.

Lemma mappages_correct_witness :
  (forall i, 0 <= i <= 0 -> pmap (mem (kd small_ram)) 0x87ffc000 (0x1000 + i * PGSIZE) = None) /\
  ((forall i, 0 <= i <= 0 -> pmap (mem (kd small_ram)) 0x87ffc000 (0x1000 + i * PGSIZE) = None) ->
   exists r s' l' j, mappages 0x87ffc000 0x1000 (Z.of_nat 1 * PGSIZE) 0x80000000 6 (mkWorld small_ram []) = Ok r (mkWorld s' []) /\
     remapped 0x87ffc000 small_ram small_free s' l'
       (with_range 0x1000 0x80000000 6 j (pmap (mem (kd small_ram)) 0x87ffc000)) /\
     ((r = 0 /\ j = 1%nat) \/ (r = -1 /\ (j <= 0)%nat /\ l' = []))) /\
  (is_Some (pmap (mem (kd small_ram)) 0x87ffc000 0x1000) ->
   mappages 0x87ffc000 0x1000 (Z.of_nat 1 * PGSIZE) 0x80000000 6 (mkWorld small_ram []) = Panic "mappages: remap").
Proof.
  split.
  - intros i _. destruct small_ram_pages as (E0 & _). by apply tables_zeros.
  - apply (mappages_correct 0x87ffc000 0x1000 0 0x80000000 6 small_ram small_free [] small_ram_ok).
    + done.
    + done.
    + done.
    + by split.
    + by split.
    + done.
Defined.
