(* ===== verification/UserMem.v ===== *)
(** * User memory

    The correctness of the functions of kernel/vm.c that build, copy and free
    the memory of a process and that move bytes between it and the kernel.  The
    memory of a process is what its page table maps ([PageTable.pmap]) and what
    the mapped pages hold.

    The theorems: uvmunmap removes the mappings it is asked to remove and frees
    their pages; uvmcopy gives the child the same bytes in pages of its own, or
    undoes its work; copyin and copyout move exactly the bytes at the virtual
    addresses, and fail on an address the user may not use. *)

From S2P Require Import Prelude Prog State Spinlock CStr Kalloc Vm PageTable.

#[local] Opaque tables leaf pmap_at.

Section usermem.
Context `{L : LinkSyms} `{!LinkSymsOk L}.

(** ** Writing to a page that is not a table *)

Lemma space_put s l pt p bs fl l' : space_ok s l pt -> p ∉ tables (mem (kd s)) 2 pt -> length bs = Z.to_nat PGSIZE ->
  chain (<[p := bs]> (mem (kd s))) fl l' -> NoDup (l' ++ tables (mem (kd s)) 2 pt) ->
  let s' := with_mem (<[p := bs]> (mem (kd s))) fl s in
  space_ok s' l' pt /\ tables (mem (kd s')) 2 pt = tables (mem (kd s)) 2 pt /\
  (forall va, leaf (mem (kd s')) 2 pt va = leaf (mem (kd s)) 2 pt va) /\
  (forall va, pmap (mem (kd s')) pt va = pmap (mem (kd s)) pt va).
Proof.
  intros (Hk & Hp & Hnd) Hni Hbs Hc Hnd' s'. change (mem (kd s')) with (<[p := bs]> (mem (kd s))).
  destruct (tables_frame (mem (kd s)) (<[p := bs]> (mem (kd s))) 2 pt) as (Et & El & Epm).
  { intros q Hq. rewrite Forall_forall in Hp. destruct (Hp q Hq) as [Hh _]. split; [by apply heap_aligned|].
    apply lookup_insert_ne. by intros ->. }
  split; [|split; [exact Et|split; [exact El|exact Epm]]]. split; [by eapply kmem_ok_with|]. change (mem (kd s')) with (<[p := bs]> (mem (kd s))). rewrite Et.
  split; [|done]. rewrite Forall_forall in Hp. apply Forall_forall. intros q Hq. destruct (Hp q Hq) as [Hh (bq & Hb & Hl)].
  split; [done|]. exists bq. split; [|exact Hl]. rewrite lookup_insert_ne; [exact Hb|].
  intros ->. exact (Hni Hq).
Qed.

Lemma kfree_with s e l pa : kmem_ok s l -> table_page (mem (kd s)) pa -> pa ∉ l ->
  exists fl bs, kfree pa (mkWorld s e) = Ok tt (mkWorld (with_mem (<[pa := bs]> (mem (kd s))) fl s) e) /\
    chain (<[pa := bs]> (mem (kd s))) fl (pa :: l) /\ length bs = Z.to_nat PGSIZE.
Proof.
  intros (Hs & Hn & Hf & Hc) [Hh (bs & Hm & Hl)] Hni. exists pa, (freed_page (freelist (kd s))).
  split; [rewrite (kfree_ok s e pa bs); done|]. split; [|apply length_freed_page].
  apply (chain_cons _ pa (freed_page (freelist (kd s)))); [done|apply lookup_insert_eq|apply length_freed_page| |done].
  rewrite next_of_freed_page by (eapply chain_range, Hc). by apply chain_put.
Qed.

(** ** uvmunmap *)

(** From [s] to [s'] the pages [ps] have been put on the free list, and the
    address space of [pt] has become [g]. *)
Definition unmapped (pt : Z) (s : kstate) (l : list Z) (s' : kstate) (ps : list Z) (g : Z -> option Z) : Prop :=
  exists m' fl', s' = with_mem m' fl' s /\ space_ok s' (ps ++ l) pt /\
    tables m' 2 pt = tables (mem (kd s)) 2 pt /\
    (forall p, p ∉ ps -> p ∉ tables (mem (kd s)) 2 pt -> m' !! p = mem (kd s) !! p) /\
    (forall va, 0 <= va < MAXVA -> pmap m' pt va = g va).

Lemma unmapped_trans pt s l s1 ps1 g1 s2 ps2 g2 : unmapped pt s l s1 ps1 g1 -> unmapped pt s1 (ps1 ++ l) s2 ps2 g2 ->
  unmapped pt s l s2 (ps2 ++ ps1) g2.
Proof.
  intros (m1 & f1 & -> & _ & Et1 & Ho1 & _) (m2 & f2 & -> & Hs & Et2 & Ho2 & Hg). rewrite mem_with in *.
  exists m2, f2. split; [done|]. rewrite <- app_assoc. split; [done|]. split; [rewrite Et2; exact Et1|]. split; [|exact Hg].
  intros p Hp1 Hp2. rewrite elem_of_app in Hp1. rewrite Ho2; [apply Ho1; tauto|tauto|rewrite Et1; tauto].
Qed.

Definition without (a : Z) (f : Z -> option Z) (va : Z) : option Z := if va / PGSIZE =? a / PGSIZE then None else f va.

(** One turn of the loop of uvmunmap. *)
Lemma unmap_one pt a v s l e (do_free : bool) (k : M unit) : space_ok s l pt -> 0 <= a < MAXVA ->
  pmap (mem (kd s)) pt a = Some v -> PTE_FLAGS v ≠ PTE_V ->
  (do_free = true -> table_page (mem (kd s)) (PTE2PA v) /\ PTE2PA v ∉ l ++ tables (mem (kd s)) 2 pt) ->
  exists s', (pte ← walk pt a false;
    if pte =? 0 then panic "uvmunmap: walk" else
    v ← read64 pte;
    if Z.land v PTE_V =? 0 then panic "uvmunmap: not mapped" else
    if PTE_FLAGS v =? PTE_V then panic "uvmunmap: not a leaf" else
    when do_free (kfree (PTE2PA v));; write64 pte 0;; k) (mkWorld s e) = k (mkWorld s' e) /\
    unmapped pt s l s' (if do_free then [PTE2PA v] else []) (without a (pmap (mem (kd s)) pt)).
Proof.
  intros Hs Ha Hv Hfl Hfree. pose proof Hs as (Hk & Hp & Hnd).
  destruct (pmap_Some _ _ _ _ _ Hv) as (pte & Hl & Hw & Hval).
  pose proof (walk_pte pt a s e (proj2 Ha) Hp) as Hwalk. rewrite Hl in Hwalk. destruct Hwalk as (E1 & E2 & E3).
  rewrite (bind_Ok _ _ _ _ _ E1), E2, (bind_Ok _ _ _ _ _ E3), Hw.
  unfold valid in Hval. apply negb_true_iff in Hval. rewrite Hval. apply Z.eqb_neq in Hfl. rewrite Hfl.
  destruct do_free; cbn [when].
  - destruct (Hfree eq_refl) as [Htp Hni]. rewrite elem_of_app in Hni.
    destruct (kfree_with s e l (PTE2PA v) Hk Htp ltac:(tauto)) as (fl & bs & E & Hc & Hbs). rewrite (bind_Ok _ _ _ _ _ E).
    destruct (space_put s l pt (PTE2PA v) bs fl (PTE2PA v :: l) Hs) as (Hs1 & Et & El & Epm); [tauto|done|done| |].
    { cbn [app]. apply NoDup_cons. rewrite elem_of_app. tauto. }
    destruct (write_leaf pt a _ (PTE2PA v :: l) pte 0 e Hs1) as (E4 & Hs2 & Et2 & Ho & Hg); [by rewrite El|lia|done|].
    rewrite (bind_Ok _ _ _ _ _ E4), with_with. rewrite with_with in Hs2. eexists. split; [done|].
    eexists _, _. split; [done|]. split; [exact Hs2|]. rewrite Et in Et2, Ho. split; [exact Et2|]. split.
    + intros p Hp1 Hp2. rewrite Ho by done. rewrite mem_with. apply lookup_insert_ne. intros <-. apply Hp1. left.
    + intros va Hva. rewrite Hg, Epm by done. done.
  - run. destruct (write_leaf pt a s l pte 0 e Hs Hl) as (E4 & Hs2 & Et2 & Ho & Hg); [lia|done|].
    rewrite (bind_Ok _ _ _ _ _ E4). eexists. split; [done|]. eexists _, _. split; [done|]. split; [exact Hs2|].
    split; [exact Et2|]. split; [intros p _; apply Ho|]. intros va Hva. by rewrite Hg.
Qed.
(** The address space [f] without the [n] pages from [a]. *)
Definition hole (a : Z) (n : nat) (f : Z -> option Z) (va : Z) : option Z :=
  let i := va / PGSIZE - a / PGSIZE in if (0 <=? i) && (i <? Z.of_nat n) then None else f va.

Lemma hole_0 a f va : hole a 0 f va = f va.
Proof. unfold hole. by destruct (Z.leb_spec 0 (va / PGSIZE - a / PGSIZE)), (Z.ltb_spec (va / PGSIZE - a / PGSIZE) (Z.of_nat 0)); try lia. Qed.

Lemma hole_S a n f va : a `mod` PGSIZE = 0 -> hole (a + PGSIZE) n (without a f) va = hole a (S n) f va.
Proof.
  intros Ha. unfold hole, without. replace ((a + PGSIZE) / PGSIZE) with (a / PGSIZE + 1)
    by (rewrite <- (Z.mul_1_l PGSIZE) at 2; by rewrite Z.div_add).
  destruct (Z.eqb_spec (va / PGSIZE) (a / PGSIZE)) as [->|Hne].
  - destruct (_ && _); destruct (Z.leb_spec 0 (a / PGSIZE - a / PGSIZE)), (Z.ltb_spec (a / PGSIZE - a / PGSIZE) (Z.of_nat (S n))); try done; lia.
  - destruct (Z.leb_spec 0 (va / PGSIZE - (a / PGSIZE + 1))), (Z.ltb_spec (va / PGSIZE - (a / PGSIZE + 1)) (Z.of_nat n)),
      (Z.leb_spec 0 (va / PGSIZE - a / PGSIZE)), (Z.ltb_spec (va / PGSIZE - a / PGSIZE) (Z.of_nat (S n))); try done; lia.
Qed.

(** The pages from [a] are mapped by the entries [vs], which are leaves. *)
Definition maps (m : gmap Z (list Z)) (pt a : Z) (vs : list Z) : Prop :=
  forall i v, vs !! i = Some v -> pmap m pt (a + Z.of_nat i * PGSIZE) = Some v /\ PTE_FLAGS v ≠ PTE_V.

(** The pages the entries [vs] map can be freed. *)
Definition freeable (m : gmap Z (list Z)) (pt : Z) (l vs : list Z) : Prop :=
  Forall (table_page m) (PTE2PA <$> vs) /\ NoDup ((PTE2PA <$> vs) ++ l ++ tables m 2 pt).

Definition freed (do_free : bool) (vs : list Z) : list Z := if do_free then reverse (PTE2PA <$> vs) else [].

Lemma uvmunmap_loop_S n pt a last do_free : uvmunmap_loop (S n) pt a last do_free =
  if negb (a <? last) then mret tt else
  (pte ← walk pt a false;
   if pte =? 0 then panic "uvmunmap: walk" else
   v ← read64 pte;
   if Z.land v PTE_V =? 0 then panic "uvmunmap: not mapped" else
   if PTE_FLAGS v =? PTE_V then panic "uvmunmap: not a leaf" else
   when do_free (kfree (PTE2PA v));; write64 pte 0;;
   uvmunmap_loop n pt (u64 (a + PGSIZE)) last do_free).
Proof. done. Qed.

Lemma freeable_step m m' pt l v vs : freeable m pt l (v :: vs) -> tables m' 2 pt = tables m 2 pt ->
  (forall p, p ∉ [PTE2PA v] -> p ∉ tables m 2 pt -> m' !! p = m !! p) -> freeable m' pt (PTE2PA v :: l) vs.
Proof.
  intros [Hp Hnd] Et Ho. cbn [fmap list_fmap] in *. apply Forall_cons in Hp as [Hv Hp]. cbn [app] in Hnd.
  unfold freeable. rewrite Et. split.
  - apply NoDup_cons in Hnd as [Hni Hnd]. apply NoDup_app in Hnd as (_ & Hd & _). rewrite Forall_forall in Hp.
    apply Forall_forall. intros q Hq. destruct (Hp q Hq) as [Hh (bs & Hb & Hl)]. split; [done|]. exists bs.
    split; [|exact Hl]. rewrite Ho; [exact Hb| |].
    + intros ->%list_elem_of_singleton. apply Hni. rewrite elem_of_app. by left.
    + intros Hin. apply (Hd q Hq). rewrite elem_of_app. by right.
  - cbn [app]. by rewrite <- Permutation_middle.
Qed.

Lemma uvmunmap_loop_ok pt do_free vs : forall a s l e fuel, space_ok s l pt -> (length vs < fuel)%nat ->
  a `mod` PGSIZE = 0 -> 0 <= a -> a + Z.of_nat (length vs) * PGSIZE <= MAXVA ->
  maps (mem (kd s)) pt a vs -> (do_free = true -> freeable (mem (kd s)) pt l vs) ->
  exists s', uvmunmap_loop fuel pt a (a + Z.of_nat (length vs) * PGSIZE) do_free (mkWorld s e) = Ok tt (mkWorld s' e) /\
    unmapped pt s l s' (freed do_free vs) (hole a (length vs) (pmap (mem (kd s)) pt)).
Proof.
  induction vs as [|v vs IH]; intros a s l e fuel Hs Hfu Ha H0 Hmax Hm Hfree; (destruct fuel as [|fuel]; [lia|]);
    rewrite uvmunmap_loop_S; cbn [length] in *.
  - rewrite Z.mul_0_l, Z.add_0_r, Z.ltb_irrefl. exists s. split; [done|].
    exists (mem (kd s)), (freelist (kd s)). split; [symmetry; apply with_self|].
    replace (freed do_free []) with (@nil Z) by by destruct do_free.
    split; [exact Hs|]. split; [reflexivity|]. split; [intros; reflexivity|]. intros va _. symmetry. apply hole_0.
  - destruct (Z.ltb_spec a (a + Z.of_nat (S (length vs)) * PGSIZE)); [|unfold PGSIZE in *; lia]. cbn [negb].
    destruct (Hm 0%nat v eq_refl) as [Hv Hfl]. rewrite Z.mul_0_l, Z.add_0_r in Hv.
    assert (0 <= a < MAXVA) as Har by (unfold PGSIZE in *; lia).
    destruct (unmap_one pt a v s l e do_free
      (uvmunmap_loop fuel pt (u64 (a + PGSIZE)) (a + Z.of_nat (S (length vs)) * PGSIZE) do_free) Hs Har Hv Hfl) as (s1 & E1 & Hu).
    { intros Hd. destruct (Hfree Hd) as [Hp Hnd]. apply Forall_cons in Hp as [Hp _]. split; [exact Hp|].
      cbn [fmap list_fmap app] in Hnd. apply NoDup_cons in Hnd as [Hnd _]. rewrite !elem_of_app in *. tauto. }
    rewrite E1, u64_small by (change MAXVA with 274877906944 in *; unfold PGSIZE in *; lia).
    pose proof Hu as (m1 & f1 & Es1 & Hs1 & Et1 & Ho1 & Hg1).
    destruct (IH (a + PGSIZE) s1 ((if do_free then [PTE2PA v] else []) ++ l) e fuel) as (s2 & E2 & Hu2).
    + exact Hs1.
    + lia.
    + rewrite <- (Z.mul_1_l PGSIZE) at 1. by rewrite Z.mod_add.
    + unfold PGSIZE. lia.
    + unfold PGSIZE in *. lia.
    + intros i v' Hi. destruct (Hm (S i) v' Hi) as [Hv' Hfl']. split; [|exact Hfl'].
      replace (a + PGSIZE + Z.of_nat i * PGSIZE) with (a + Z.of_nat (S i) * PGSIZE) by lia.
      apply lookup_lt_Some in Hi. rewrite Es1, mem_with, Hg1 by (unfold PGSIZE in *; lia). unfold without.
      rewrite (proj1 (page_step a 0 (Z.of_nat (S i)) Ha ltac:(lia))).
      destruct (Z.eqb_spec (a / PGSIZE + Z.of_nat (S i)) (a / PGSIZE)); [lia|]. exact Hv'.
    + intros ->. rewrite Es1, mem_with. by apply (freeable_step (mem (kd s))); [apply Hfree| |].
    + replace (a + PGSIZE + Z.of_nat (length vs) * PGSIZE) with (a + Z.of_nat (S (length vs)) * PGSIZE) in E2 by lia.
      exists s2. split; [exact E2|]. pose proof (unmapped_trans _ _ _ _ _ _ _ _ _ Hu Hu2) as (m2 & f2 & Es2 & Hs2 & Et2 & Ho2 & Hg2).
      replace (freed do_free (v :: vs)) with (freed do_free vs ++ (if do_free then [PTE2PA v] else [])) by (destruct do_free; [symmetry; apply reverse_cons|done]).
      exists m2, f2. split; [exact Es2|]. split; [exact Hs2|]. split; [exact Et2|]. split; [exact Ho2|].
      intros va Hva. rewrite Hg2, <- hole_S by done. unfold hole. destruct (_ && _); [done|].
      rewrite Es1, mem_with. by apply Hg1.
Qed.
(** ** uvmcopy *)

Lemma PTE2PA_aligned v : aligned (PTE2PA v).
Proof.
  unfold aligned, PTE2PA, wrap_u. rewrite Z.shiftl_mul_pow2 by lia. change PGSIZE with (2 ^ 12).
  rewrite Z.mod_mod_divide; [by apply Z.mod_mul|]. exists (2 ^ 52). done.
Qed.

Lemma PTE_FLAGS_range v : 0 <= PTE_FLAGS v < 1024.
Proof. unfold PTE_FLAGS. change 0x3FF with (Z.ones 10). rewrite Z.land_ones by lia. by apply Z.mod_pos_bound. Qed.

Lemma PTE_FLAGS_valid v : valid v = true -> Z.lor (PTE_FLAGS v) PTE_V = PTE_FLAGS v.
Proof.
  unfold valid, PTE_FLAGS. intros Hv. apply Z.bits_inj'. intros n Hn. rewrite Z.lor_spec, !Z.land_spec.
  destruct (decide (n = 0)) as [->|Hne].
  - cut (Z.testbit v 0 = true); [by intros ->|]. destruct (Z.testbit v 0) eqn:E; [done|]. exfalso.
    apply negb_true_iff, Z.eqb_neq in Hv. apply Hv. apply Z.bits_inj'. intros k Hk. rewrite Z.land_spec, Z.bits_0.
    destruct (decide (k = 0)) as [->|]; [by rewrite E|]. rewrite (Z.bits_above_log2 PTE_V k) by (unfold PTE_V; cbn; lia).
    apply andb_false_r.
  - rewrite (Z.bits_above_log2 PTE_V n) by (unfold PTE_V; cbn; lia). apply orb_false_r.
Qed.

(** The parent: its tables and pages are in RAM and disjoint from the child's
    tables and from the free pages, and its entries are [vs]. *)
Definition parent_ok (m : gmap Z (list Z)) (l : list Z) (old new : Z) (vs : list Z) : Prop :=
  Forall (table_page m) (tables m 2 old) /\ maps m old 0 vs /\ Forall (page_ok m) (PTE2PA <$> vs) /\
  (forall p, p ∈ tables m 2 old ++ (PTE2PA <$> vs) -> (p ∉ l) /\ (p ∉ tables m 2 new)).

(** [w] maps, in memory [m'], a page that holds what the page of [v] held in
    [m], with the same permissions. *)
Definition copy_of (m m' : gmap Z (list Z)) (v w : Z) : Prop :=
  exists pa, heap_page pa /\ w = mk_pte pa (PTE_FLAGS v) /\ m' !! pa = m !! PTE2PA v.

(** The address space [f] with the entries [ws] for the pages from 0. *)
Definition with_entries (ws : list Z) (f : Z -> option Z) (va : Z) : option Z :=
  match ws !! Z.to_nat (va / PGSIZE) with Some w => Some w | None => f va end.

(** After some pages: the child has the copies [ws], in pages of the free list,
    and took the table pages [taken]. *)
Definition copying (old new : Z) (s0 : kstate) (l0 : list Z) (vs : list Z) (s : kstate) (l ws taken : list Z) : Prop :=
  exists m fl, s = with_mem m fl s0 /\ space_ok s l new /\ l0 ≡ₚ (PTE2PA <$> ws) ++ taken ++ l /\
    tables m 2 new ≡ₚ taken ++ tables (mem (kd s0)) 2 new /\
    (forall p, p ∉ l0 -> p ∉ tables (mem (kd s0)) 2 new -> m !! p = mem (kd s0) !! p) /\
    Forall2 (copy_of (mem (kd s0)) m) (take (length ws) vs) ws /\
    (forall va, 0 <= va < MAXVA -> pmap m new va = with_entries ws (pmap (mem (kd s0)) new) va).
Section copy.
Context (old new : Z) (s0 : kstate) (l0 vs : list Z).
#[local] Abbreviation m0 := (mem (kd s0)).
Context (Hnd0 : NoDup (l0 ++ tables m0 2 new)) (Hpar : parent_ok m0 l0 old new vs)
  (Hmax : Z.of_nat (length vs) * PGSIZE <= MAXVA)
  (Hno : forall va, 0 <= va / PGSIZE < Z.of_nat (length vs) -> pmap m0 new va = None).

Lemma parent_entry i v : vs !! i = Some v ->
  pmap m0 old (Z.of_nat i * PGSIZE) = Some v /\ PTE_FLAGS v ≠ PTE_V /\ valid v = true /\ page_ok m0 (PTE2PA v).
Proof.
  intros Hi. destruct Hpar as (_ & Hm & Hp & _). destruct (Hm i v Hi) as [Hv Hf]. rewrite Z.add_0_l in Hv.
  split; [exact Hv|]. split; [exact Hf|]. split; [by destruct (pmap_Some _ _ _ _ _ Hv) as (_ & _ & _ & ?)|].
  rewrite Forall_fmap, Forall_lookup in Hp. apply (Hp i v Hi).
Qed.

Lemma copying_pages s l ws taken : copying old new s0 l0 vs s l ws taken ->
  maps (mem (kd s)) new 0 ws /\ freeable (mem (kd s)) new l ws.
Proof.
  intros (m & fl & -> & Hs & Hl & Ht & Ho & Hc & Hg). rewrite mem_with.
  assert (length ws <= length vs)%nat as Hlen.
  { apply Forall2_length in Hc. rewrite length_take in Hc. lia. }
  assert (forall i w, ws !! i = Some w -> exists v, vs !! i = Some v /\ copy_of m0 m v w) as Hci.
  { intros i w Hi. destruct (Forall2_lookup_r _ _ _ _ _ Hc Hi) as (v & Hv & Hcv). exists v. split; [|exact Hcv].
    by apply lookup_take_Some in Hv as [? _]. }
  split.
  - intros i w Hi. destruct (Hci i w Hi) as (v & Hv & pa & Hh & -> & _). destruct (parent_entry i v Hv) as (_ & Hf & Hval & _).
    pose proof (lookup_lt_Some _ _ _ Hi). split.
    + rewrite Z.add_0_l, Hg by (unfold PGSIZE in *; lia). unfold with_entries. rewrite Z.div_mul, Nat2Z.id by done. by rewrite Hi.
    + rewrite PTE_FLAGS_mk by (try apply heap_frame; try apply PTE_FLAGS_range; done). by rewrite PTE_FLAGS_valid.
  - split.
    + rewrite Forall_fmap, Forall_lookup. intros i w Hi. destruct (Hci i w Hi) as (v & Hv & pa & Hh & -> & Hb). cbn.
      rewrite PTE2PA_mk by (try apply heap_frame; try apply PTE_FLAGS_range; done). split; [exact Hh|].
      destruct (parent_entry i v Hv) as (_ & _ & _ & bs & Hbs & Hlb). exists bs. split; [by rewrite Hb|exact Hlb].
    + assert ((PTE2PA <$> ws) ++ l ++ taken ++ tables m0 2 new ≡ₚ l0 ++ tables m0 2 new) as P.
      { rewrite Hl, <- !app_assoc. apply Permutation_app_head. rewrite !app_assoc.
        apply Permutation_app_tail, Permutation_app_comm. }
      refine (proj2 (NoDup_Permutation_proper _ _ _) Hnd0). etransitivity; [|exact P].
      do 2 apply Permutation_app_head. exact Ht.
Qed.

(** What a change of the pages [pa :: t2] and of the child's tables keeps. *)
Lemma copying_frame s l ws taken pa t2 l2 m2 : copying old new s0 l0 vs s l ws taken -> l = pa :: t2 ++ l2 ->
  (forall p, p ∉ pa :: t2 -> p ∉ tables (mem (kd s)) 2 new -> m2 !! p = mem (kd s) !! p) ->
  Forall2 (copy_of m0 m2) (take (length ws) vs) ws /\
  (forall p, p ∉ l0 -> p ∉ tables m0 2 new -> m2 !! p = m0 !! p).
Proof.
  intros Hcp -> Hm2. destruct (copying_pages _ _ _ _ Hcp) as [_ [_ Hnd]].
  destruct Hcp as (m & fl & -> & Hs & Hl & Ht & Ho & Hc & Hg). rewrite mem_with in *. split.
  - apply Forall2_same_length_lookup_2; [by eapply Forall2_length|]. intros i v w Hv Hw.
    destruct (Forall2_lookup_lr _ _ _ _ _ _ Hc Hv Hw) as (pa' & Hh & -> & Hb). exists pa'. split; [exact Hh|].
    split; [reflexivity|]. rewrite <- Hb. apply NoDup_app in Hnd as (_ & Hd & _).
    assert (pa' ∉ (pa :: t2 ++ l2) ++ tables m 2 new) as Hni.
    { apply Hd. apply list_elem_of_fmap. exists (mk_pte pa' (PTE_FLAGS v)). split; [|by eapply list_elem_of_lookup_2].
      symmetry. apply PTE2PA_mk; [by apply heap_frame|apply PTE_FLAGS_range]. }
    apply Hm2; intros Hin; apply Hni; rewrite elem_of_app; [left|by right]. rewrite elem_of_cons, elem_of_app in *. tauto.
  - intros p Hp1 Hp2. rewrite Hm2; [by apply Ho| |].
    + intros Hin. apply Hp1. rewrite Hl, !elem_of_app, elem_of_cons, elem_of_app. rewrite elem_of_cons in Hin. tauto.
    + rewrite Ht, elem_of_app. intros [Hin|Hin]; [|by apply Hp2]. apply Hp1. rewrite Hl, !elem_of_app. tauto.
Qed.

(** Undoing: uvmunmap of the pages copied so far. *)
Lemma copy_undo s l ws taken e : copying old new s0 l0 vs s l ws taken ->
  exists s' l', uvmunmap new 0 (Z.of_nat (length ws)) true (mkWorld s e) = Ok tt (mkWorld s' e) /\
    copying old new s0 l0 vs s' l' [] taken.
Proof.
  intros Hcp. destruct (copying_pages _ _ _ _ Hcp) as [Hm Hf]. pose proof Hcp as (m & fl & Es & Hs & Hl & Ht & Ho & Hc & Hg).
  assert (length ws <= length vs)%nat as Hlen.
  { apply Forall2_length in Hc. rewrite length_take in Hc. lia. }
  destruct (uvmunmap_loop_ok new true ws 0 s l e (S (length ws)) Hs ltac:(lia) eq_refl ltac:(lia)) as (s' & E & Hu);
    [unfold PGSIZE in *; lia|exact Hm|intros _; exact Hf|].
  destruct Hu as (m' & fl' & Es' & Hs' & Et' & Ho' & Hg'). rewrite Es, mem_with in Et', Ho', Hg'.
  exists s', (freed true ws ++ l). split.
  - unfold uvmunmap. rewrite Nat2Z.id. cbn [negb]. rewrite Z.mod_0_l by done. cbn [Z.eqb negb].
    rewrite u64_small; [exact E|]. change MAXVA with 274877906944 in Hmax. unfold PGSIZE in *. lia.
  - exists m', fl'. split; [by rewrite Es', Es|]. split; [exact Hs'|]. unfold freed in *. split.
    + rewrite Hl. cbn [fmap list_fmap app]. rewrite Permutation_app_swap_app, reverse_Permutation. reflexivity.
    + split; [by rewrite Et'|]. split.
      * intros p Hp1 Hp2. rewrite Ho'; [by apply Ho| |].
        -- rewrite elem_of_reverse. intros Hin. apply Hp1. rewrite Hl, elem_of_app. tauto.
        -- rewrite Ht, elem_of_app. intros [Hin|Hin]; [|by apply Hp2]. apply Hp1. rewrite Hl, !elem_of_app. tauto.
      * split; [constructor|]. intros va Hva. rewrite Hg' by done. unfold hole. rewrite Z.div_0_l, Z.sub_0_r by done.
        pose proof (Z.div_pos va PGSIZE (proj1 Hva) ltac:(done)) as Hpos. destruct (Z.leb_spec 0 (va / PGSIZE)); [|lia].
        unfold with_entries at 1. cbn [lookup list_lookup]. destruct (Z.ltb_spec (va / PGSIZE) (Z.of_nat (length ws))); cbn [andb].
        -- symmetry. apply Hno. lia.
        -- rewrite Hg by done. unfold with_entries. rewrite lookup_ge_None_2; [done|lia].
Qed.
(** One turn of the loop of uvmcopy. *)
Definition copy_body (i : Z) (k : M Z) : M Z :=
  pte ← walk old i false;
  if pte =? 0 then panic "uvmcopy: pte should exist" else
  v ← read64 pte;
  if Z.land v PTE_V =? 0 then panic "uvmcopy: page not present" else
  let pa := PTE2PA v in
  let flags := PTE_FLAGS v in
  mem ← kalloc;
  if mem =? 0 then uvmunmap new 0 (i / PGSIZE) true;; mret (-1) else
  bs ← read_bytes pa (Z.to_nat PGSIZE);
  write_bytes mem bs;;
  r ← mappages new i PGSIZE mem flags;
  if negb (r =? 0) then kfree mem;; uvmunmap new 0 (i / PGSIZE) true;; mret (-1) else k.

Lemma parent_tables s l ws taken : copying old new s0 l0 vs s l ws taken ->
  tables (mem (kd s)) 2 old = tables m0 2 old /\ Forall (table_page (mem (kd s))) (tables m0 2 old) /\
  (forall va, leaf (mem (kd s)) 2 old va = leaf m0 2 old va) /\ (forall va, pmap (mem (kd s)) old va = pmap m0 old va) /\
  (forall i v, vs !! i = Some v -> mem (kd s) !! PTE2PA v = m0 !! PTE2PA v /\ PTE2PA v ∉ l).
Proof.
  intros (m & fl & -> & Hs & Hl & Ht & Ho & Hc & Hg). rewrite mem_with. destruct Hpar as (Hp & Hm & Hpg & Hd).
  assert (forall p, p ∈ tables m0 2 old -> m !! p = m0 !! p) as He.
  { intros p Hin. destruct (Hd p) as [H1 H2]; [rewrite elem_of_app; by left|]. by apply Ho. }
  destruct (tables_frame m0 m 2 old) as (Et & El & Epm).
  { intros p Hin. split; [|by apply He]. rewrite Forall_forall in Hp. destruct (Hp p Hin) as [Hh _]. by apply heap_aligned. }
  split; [exact Et|]. split; [|split; [exact El|split; [exact Epm|]]].
  - rewrite Forall_forall in Hp. apply Forall_forall. intros p Hin. destruct (Hp p Hin) as [Hh (bs & Hb & Hlb)].
    split; [exact Hh|]. exists bs. split; [|exact Hlb]. rewrite He by done. exact Hb.
  - intros i v Hi. destruct (Hd (PTE2PA v)) as [H1 H2].
    { rewrite elem_of_app. right. apply list_elem_of_fmap. exists v. split; [done|]. by eapply list_elem_of_lookup_2. }
    split; [by apply Ho|]. intros Hin. apply H1. rewrite Hl, !elem_of_app. tauto.
Qed.

Lemma read_page s e pa bs : aligned pa -> mem (kd s) !! pa = Some bs -> length bs = Z.to_nat PGSIZE ->
  read_bytes pa (Z.to_nat PGSIZE) (mkWorld s e) = Ok bs (mkWorld s e).
Proof.
  intros Ha Hm Hl. destruct (page_of_aligned pa Ha) as [E1 E2]. unfold read_bytes. rewrite E1, E2.
  rewrite (bind_Ok _ _ _ _ _ (get_page_ok pa bs s e Hm)). rewrite Hl, Nat.leb_refl. unfold read_at. cbn [drop].
  rewrite <- Hl, firstn_all. done.
Qed.

Lemma write_page s e pa bs bs' : aligned pa -> mem (kd s) !! pa = Some bs -> length bs = Z.to_nat PGSIZE ->
  length bs' = Z.to_nat PGSIZE ->
  write_bytes pa bs' (mkWorld s e) = Ok tt (mkWorld (with_mem (<[pa := bs']> (mem (kd s))) (freelist (kd s)) s) e).
Proof.
  intros Ha Hm Hl Hl'. destruct (page_of_aligned pa Ha) as [E1 E2]. unfold write_bytes. rewrite E1, E2.
  rewrite (bind_Ok _ _ _ _ _ (get_page_ok pa bs s e Hm)). rewrite Hl, Hl', Nat.leb_refl, put_page_ok, write_at_0_all by congruence.
  unfold put_mem, with_mem, mapd. by destruct s as [? ? ? ? []].
Qed.

(** The state after the page of [v] has been copied to the free page [pa]. *)
Lemma copy_page s pa l ws taken v fl : copying old new s0 l0 vs s (pa :: l) ws taken -> vs !! length ws = Some v ->
  (forall bs, chain (<[pa := bs]> (mem (kd s))) fl l) ->
  exists bs, m0 !! PTE2PA v = Some bs /\ mem (kd s) !! PTE2PA v = Some bs /\ length bs = Z.to_nat PGSIZE /\ PTE2PA v ≠ pa /\
    (pa ∉ l) /\ (pa ∉ tables (mem (kd s)) 2 new) /\
    space_ok (with_mem (<[pa := bs]> (mem (kd s))) fl s) l new /\
    tables (<[pa := bs]> (mem (kd s))) 2 new = tables (mem (kd s)) 2 new /\
    (forall va, pmap (<[pa := bs]> (mem (kd s))) new va = pmap (mem (kd s)) new va).
Proof.
  intros Hcp Hv Hch. destruct (parent_entry _ v Hv) as (_ & _ & _ & bs & Hbs & Hlb). exists bs.
  destruct (parent_tables _ _ _ _ Hcp) as (_ & _ & _ & _ & Hpg). destruct (Hpg _ v Hv) as [Epg Hni].
  destruct Hcp as (m & fl' & Es & Hs & _). pose proof Hs as (_ & _ & Hnd). cbn [app] in Hnd. apply NoDup_cons in Hnd as [Hpa Hnd].
  rewrite elem_of_app in Hpa. rewrite not_elem_of_cons in Hni.
  destruct (space_put s (pa :: l) new pa bs fl l Hs) as (Hs1 & Et & _ & Epm); [tauto|done|apply Hch|done|].
  split; [exact Hbs|]. split; [by rewrite Epg|]. split; [exact Hlb|]. split; [tauto|]. split; [tauto|]. split; [tauto|].
  split; [exact Hs1|]. split; [exact Et|exact Epm].
Qed.
Lemma with_entries_snoc ws w f va : 0 <= va ->
  with_range (Z.of_nat (length ws) * PGSIZE) 0 0 1 (fun _ => None) va = None ->
  with_entries (ws ++ [w]) f va = with_entries ws f va.
Proof.
  unfold with_range, with_entries. rewrite Z.div_mul by done. intros Hva.
  pose proof (Z.div_pos va PGSIZE Hva ltac:(done)) as Hi. revert Hi. generalize (va / PGSIZE) as i. intros i Hi E.
  destruct (Z.lt_ge_cases i (Z.of_nat (length ws))); [rewrite lookup_app_l; [done|lia]|].
  destruct (Z.leb_spec 0 (i - Z.of_nat (length ws))), (Z.ltb_spec (i - Z.of_nat (length ws)) (Z.of_nat 1)); try done; try lia.
  rewrite (lookup_ge_None_2 ws) by lia. rewrite lookup_ge_None_2; [done|]. rewrite length_app. cbn [length]. lia.
Qed.

Lemma with_range_entries ws pa perm f va : 0 <= va ->
  with_range (Z.of_nat (length ws) * PGSIZE) pa perm 1 (with_entries ws f) va =
  with_entries (ws ++ [mk_pte pa perm]) f va.
Proof.
  intros Hva. pose proof (with_entries_snoc ws (mk_pte pa perm) f va Hva) as Hsnoc. revert Hsnoc.
  unfold with_range. rewrite Z.div_mul by done. pose proof (Z.div_pos va PGSIZE Hva ltac:(done)).
  destruct (Z.leb_spec 0 (va / PGSIZE - Z.of_nat (length ws))), (Z.ltb_spec (va / PGSIZE - Z.of_nat (length ws)) (Z.of_nat 1));
    cbn [andb]; intros Hsnoc; try (symmetry; by apply Hsnoc).
  unfold with_entries. assert (Z.to_nat (va / PGSIZE) = length ws) as -> by lia.
  rewrite lookup_app_r, Nat.sub_diag by done. cbn [lookup list_lookup].
  replace (va / PGSIZE - Z.of_nat (length ws)) with 0 by lia. by rewrite Z.mul_0_l, Z.add_0_r.
Qed.

Section turn.
Context (s s2 : kstate) (pa : Z) (l1 l2 ws taken : list Z) (v fl : Z) (bs : list Z) (j : nat).
Let m := mem (kd s).
Let a := Z.of_nat (length ws) * PGSIZE.
Context (Hcp : copying old new s0 l0 vs s (pa :: l1) ws taken) (Hv : vs !! length ws = Some v) (Hpa : heap_page pa)
  (Hbs : m0 !! PTE2PA v = Some bs) (Hlb : length bs = Z.to_nat PGSIZE) (Hn1 : pa ∉ l1) (Hn2 : pa ∉ tables m 2 new)
  (Et1 : tables (<[pa := bs]> m) 2 new = tables m 2 new)
  (Epm1 : forall va, pmap (<[pa := bs]> m) new va = pmap m new va)
  (Hr : remapped new (with_mem (<[pa := bs]> m) fl s) l1 s2 l2
          (with_range a pa (PTE_FLAGS v) j (pmap (<[pa := bs]> m) new))).

Lemma turn_facts : exists t2 m2 f2, s2 = with_mem m2 f2 s /\ l1 = t2 ++ l2 /\ space_ok s2 l2 new /\
  tables m2 2 new ≡ₚ t2 ++ tables m 2 new /\ m2 !! pa = Some bs /\ (pa ∉ tables m2 2 new) /\
  (forall p, p ∉ pa :: t2 -> p ∉ tables m 2 new -> m2 !! p = m !! p) /\
  (forall va, 0 <= va < MAXVA -> pmap m2 new va = with_range a pa (PTE_FLAGS v) j (pmap m new) va).
Proof.
  destruct Hr as (t2 & m2 & f2 & -> & -> & Hs2 & Ht2 & Ho2 & Hg2). rewrite with_with, mem_with, Et1 in *.
  rewrite elem_of_app in Hn1. exists t2, m2, f2. split; [done|]. split; [done|]. split; [exact Hs2|]. split; [exact Ht2|].
  split; [|split; [|split]].
  - rewrite Ho2 by tauto. apply lookup_insert_eq.
  - rewrite Ht2, elem_of_app. tauto.
  - intros p Hp1 Hp2. apply not_elem_of_cons in Hp1 as [Hp1 Hp3]. rewrite Ho2 by done. by apply lookup_insert_ne.
  - intros va Hva. rewrite Hg2 by done. unfold with_range. destruct (_ && _); [done|]. apply Epm1.
Qed.

Lemma turn_ok : j = 1%nat -> exists ws' taken', copying old new s0 l0 vs s2 l2 ws' taken' /\ length ws' = S (length ws).
Proof.
  intros Hj. destruct turn_facts as (t2 & m2 & f2 & E2 & El & Hs2 & Ht2 & Hm2 & _ & Ho2 & Hg2). rewrite Hj in Hg2.
  destruct (copying_frame _ _ _ _ pa t2 l2 m2 Hcp ltac:(by rewrite El) Ho2) as [Hc2 Ho].
  pose proof Hcp as (m' & fl' & Es & Hs & Hl & Ht & _ & Hc & Hg). assert (m' = m) as -> by (unfold m; by rewrite Es).
  exists (ws ++ [mk_pte pa (PTE_FLAGS v)]), (taken ++ t2). split; [|rewrite length_app; cbn; lia].
  exists m2, f2. split; [by rewrite E2, Es|]. split; [exact Hs2|]. rewrite fmap_app. cbn [fmap list_fmap].
  rewrite PTE2PA_mk by (try apply heap_frame; try apply PTE_FLAGS_range; done). split; [|split; [|split; [exact Ho|split]]].
  - rewrite Hl, El. rewrite <- !app_assoc. apply Permutation_app_head. cbn [app]. symmetry. apply Permutation_middle.
  - rewrite Ht2, Ht, !app_assoc. apply Permutation_app_tail, Permutation_app_comm.
  - rewrite length_app, Nat.add_1_r. rewrite (take_S_r _ _ _ Hv). apply Forall2_app; [exact Hc2|]. constructor; [|constructor].
    exists pa. split; [exact Hpa|]. split; [reflexivity|]. by rewrite Hm2, Hbs.
  - intros va Hva. rewrite Hg2, <- with_range_entries by lia. unfold with_range. destruct (_ && _); [done|]. by apply Hg.
Qed.

Lemma turn_fail e : j = 0%nat -> l2 = [] ->
  exists s3 taken', kfree pa (mkWorld s2 e) = Ok tt (mkWorld s3 e) /\ copying old new s0 l0 vs s3 [pa] ws taken'.
Proof.
  intros Hj El2. destruct turn_facts as (t2 & m2 & f2 & E2 & El & Hs2 & Ht2 & Hm2 & Hn & Ho2 & Hg2). rewrite Hj in Hg2.
  destruct (kfree_with s2 e l2 pa) as (fl3 & bs3 & E3 & Hc3 & Hl3).
  { apply Hs2. }
  { split; [exact Hpa|]. exists bs. rewrite E2, mem_with. by split. }
  { rewrite El2. apply not_elem_of_nil. }
  assert (m2 = mem (kd s2)) as Em2 by by rewrite E2, mem_with. rewrite Em2 in *.
  destruct (space_put s2 l2 new pa bs3 fl3 (pa :: l2) Hs2) as (Hs3 & Et3 & _ & Epm3); [done|done|done| |].
  { cbn [app]. apply NoDup_cons. split; [|apply Hs2]. rewrite El2. exact Hn. }
  exists (with_mem (<[pa := bs3]> (mem (kd s2))) fl3 s2), (taken ++ t2). split; [exact E3|]. rewrite El2 in *.
  assert (forall p, p ∉ pa :: t2 -> p ∉ tables m 2 new -> <[pa := bs3]> (mem (kd s2)) !! p = m !! p) as Ho3.
  { intros p Hp1 Hp2. rewrite <- Ho2 by done. apply lookup_insert_ne. intros <-. apply Hp1. left. }
  destruct (copying_frame _ _ _ _ pa t2 [] (<[pa := bs3]> (mem (kd s2))) Hcp ltac:(by rewrite El) Ho3) as [Hc2 Ho].
  pose proof Hcp as (m' & fl' & Es & Hs & Hl & Ht & _ & Hc & Hg). assert (m' = m) as -> by (unfold m; by rewrite Es).
  exists (<[pa := bs3]> (mem (kd s2))), fl3. split; [by rewrite E2, Es|]. split; [exact Hs3|]. split; [|split; [|split; [exact Ho|split; [exact Hc2|] ] ] ].
  - rewrite Hl, El, app_nil_r. apply Permutation_app_head. rewrite <- app_assoc. apply Permutation_app_head.
    apply Permutation_cons_append.
  - rewrite mem_with in Et3. rewrite Et3, Ht2, Ht, !app_assoc. apply Permutation_app_tail, Permutation_app_comm.
  - intros va Hva. rewrite mem_with in Epm3. rewrite Epm3, Hg2, with_range_0 by done. by apply Hg.
Qed.
End turn.
Lemma copy_one s l ws taken v e k : copying old new s0 l0 vs s l ws taken -> vs !! length ws = Some v ->
  exists s' l' ws' taken', copying old new s0 l0 vs s' l' ws' taken' /\
    ((copy_body (Z.of_nat (length ws) * PGSIZE) k (mkWorld s e) = k (mkWorld s' e) /\ length ws' = S (length ws)) \/
     (copy_body (Z.of_nat (length ws) * PGSIZE) k (mkWorld s e) = Ok (-1) (mkWorld s' e) /\ ws' = [])).
Proof.
  intros Hcp Hv. set (a := Z.of_nat (length ws) * PGSIZE). unfold copy_body.
  destruct (parent_entry _ v Hv) as (Hpv & _ & Hval & _). fold a in Hpv.
  destruct (parent_tables _ _ _ _ Hcp) as (Et & Htp & El & Epm & _).
  pose proof (lookup_lt_Some _ _ _ Hv) as Hlt. assert (0 <= a /\ a + PGSIZE <= MAXVA) as Ha by (unfold a, PGSIZE in *; lia).
  rewrite <- Epm in Hpv. destruct (pmap_Some _ _ _ _ _ Hpv) as (pte & Hl & Hw & _).
  pose proof (walk_pte old a s e ltac:(unfold PGSIZE in *; lia) ltac:(by rewrite Et)) as Hwalk. rewrite Hl in Hwalk.
  destruct Hwalk as (E1 & E2 & E3). rewrite (bind_Ok _ _ _ _ _ E1), E2, (bind_Ok _ _ _ _ _ E3), Hw.
  unfold valid in Hval. apply negb_true_iff in Hval. rewrite Hval. cbv zeta.
  replace (a / PGSIZE) with (Z.of_nat (length ws)) by (unfold a; by rewrite Z.div_mul).
  pose proof Hcp as (m & fl0 & Es & Hs & _ & _ & _ & _ & Hg). pose proof (kalloc_case s e l (proj1 Hs)) as Hk.
  destruct l as [|pa l1].
  { rewrite (bind_Ok _ _ _ _ _ Hk). cbn [Z.eqb]. destruct (copy_undo s [] ws taken e Hcp) as (s' & l' & Eu & Hcp').
    exists s', l', [], taken. split; [exact Hcp'|]. right.
    rewrite (bind_Ok _ _ _ _ _ Eu). split; reflexivity. }
  destruct Hk as (fl & Ek & Hpa & Hpz & Hch). rewrite (bind_Ok _ _ _ _ _ Ek), Hpz.
  destruct (copy_page s pa l1 ws taken v fl Hcp Hv Hch) as (bs & Hb0 & Hb & Hlb & Hne & Hn1 & Hn2 & Hs1 & Et1 & Epm1).
  erewrite bind_Ok by (apply read_page; [apply PTE2PA_aligned|rewrite mem_with, lookup_insert_ne by congruence; exact Hb|exact Hlb]).
  erewrite bind_Ok by (eapply write_page; [by apply heap_aligned|rewrite mem_with; apply lookup_insert_eq|apply length_replicate|exact Hlb]).
  rewrite with_with, mem_with, insert_insert_eq. change (freelist (kd (with_mem (<[pa := junk 5]> (mem (kd s))) fl s))) with fl.
  destruct (mappages_ok new a 0 pa (PTE_FLAGS v) _ l1 e Hs1) as [_ Hmap].
  { unfold a. by apply Z.mod_mul. } { lia. } { change (Z.of_nat 1 * PGSIZE) with PGSIZE. lia. } { by apply heap_frame. }
  { rewrite Z.mul_0_l, Z.add_0_r. by apply heap_frame. } { apply PTE_FLAGS_range. }
  rewrite mem_with in Hmap. destruct Hmap as (r & s2 & l2 & j & Em & Hr & Hres).
  { intros i Hi. assert (i = 0) as -> by lia. rewrite Z.mul_0_l, Z.add_0_r, Epm1, Es, mem_with, Hg by (unfold PGSIZE in *; lia).
    unfold with_entries, a. rewrite Z.div_mul, Nat2Z.id, lookup_ge_None_2 by done. apply Hno. rewrite Z.div_mul by done. lia. }
  change (Z.of_nat 1 * PGSIZE) with PGSIZE in Em. rewrite (bind_Ok _ _ _ _ _ Em).
  destruct Hres as [[-> ->]|(-> & Hj & ->)]; cbn [Z.eqb negb].
  - destruct (turn_ok s s2 pa l1 l2 ws taken v fl bs 1 Hcp Hv Hpa Hb0 Hlb Hn1 Hn2 Et1 Epm1 Hr eq_refl) as (ws' & taken' & Hcp' & Hlen).
    exists s2, l2, ws', taken'. split; [exact Hcp'|]. left. split; [reflexivity|exact Hlen].
  - assert (j = 0%nat) as -> by lia.
    destruct (turn_fail s s2 pa l1 [] ws taken v fl bs 0 Hcp Hpa Hlb Hn1 Hn2 Et1 Epm1 Hr e eq_refl eq_refl) as (s3 & taken' & Ef & Hcp').
    rewrite (bind_Ok _ _ _ _ _ Ef). destruct (copy_undo s3 [pa] ws taken' e Hcp') as (s' & l' & Eu & Hcp'').
    exists s', l', [], taken'. split; [exact Hcp''|]. right.
    rewrite (bind_Ok _ _ _ _ _ Eu). split; reflexivity.
Qed.

Lemma uvmcopy_loop_S n i sz : uvmcopy_loop (S n) old new i sz =
  if negb (i <? sz) then mret 0 else copy_body i (uvmcopy_loop n old new (u64 (i + PGSIZE)) sz).
Proof. done. Qed.

Lemma uvmcopy_loop_ok sz k : forall s l ws taken e fuel,
  (length vs = length ws + k)%nat -> (k < fuel)%nat ->
  (Z.of_nat (length vs) - 1) * PGSIZE < sz <= Z.of_nat (length vs) * PGSIZE ->
  copying old new s0 l0 vs s l ws taken ->
  exists r s' l' ws' taken', uvmcopy_loop fuel old new (Z.of_nat (length ws) * PGSIZE) sz (mkWorld s e) = Ok r (mkWorld s' e) /\
    copying old new s0 l0 vs s' l' ws' taken' /\ ((r = 0 /\ length ws' = length vs) \/ (r = -1 /\ ws' = [])).
Proof.
  induction k as [|k IH]; intros s l ws taken e fuel Hlen Hfu Hsz Hcp; (destruct fuel as [|fuel]; [lia|]); rewrite uvmcopy_loop_S.
  - destruct (Z.ltb_spec (Z.of_nat (length ws) * PGSIZE) sz); [replace (length vs) with (length ws) in Hsz by lia; lia|]. cbn [negb].
    exists 0, s, l, ws, taken. split; [done|]. split; [exact Hcp|]. left. split; [done|lia].
  - destruct (Z.ltb_spec (Z.of_nat (length ws) * PGSIZE) sz); [|unfold PGSIZE in *; lia]. cbn [negb].
    destruct (lookup_lt_is_Some_2 vs (length ws) ltac:(lia)) as [v Hv].
    destruct (copy_one s l ws taken v e (uvmcopy_loop fuel old new (u64 (Z.of_nat (length ws) * PGSIZE + PGSIZE)) sz) Hcp Hv)
      as (s1 & l1 & ws1 & t1 & Hcp1 & [[E Hl1]|[E ->]]).
    + rewrite E, u64_small by (change MAXVA with 274877906944 in Hmax; unfold PGSIZE in *; lia).
      replace (Z.of_nat (length ws) * PGSIZE + PGSIZE) with (Z.of_nat (length ws1) * PGSIZE) by (rewrite Hl1; lia).
      apply (IH s1 l1 ws1 t1); [lia|lia|exact Hsz|exact Hcp1].
    + exists (-1), s1, l1, [], t1. split; [exact E|]. split; [exact Hcp1|]. by right.
Qed.
End copy.
(** ** The bytes of user memory *)

(** The byte at the virtual address [va]. *)
Definition user_byte (m : gmap Z (list Z)) (pt va : Z) : option Z :=
  v ← pmap m pt va; bs ← m !! PTE2PA v; bs !! off_of va.

(** ** copyin and copyout *)

Definition is_user (v : Z) : bool := negb (Z.land v PTE_U =? 0).
Definition is_writable (v : Z) : bool := negb (Z.land v PTE_W =? 0).

(** The byte a user program may read at [va]. *)
Definition access (m : gmap Z (list Z)) (pt va : Z) : option Z :=
  v ← (if va <? MAXVA then pmap m pt va else None);
  if is_user v then bs ← m !! PTE2PA v; bs !! off_of va else None.

(** The user may write at [va]. *)
Definition writable (m : gmap Z (list Z)) (pt va : Z) : Prop :=
  va < MAXVA /\ exists v, pmap m pt va = Some v /\ is_user v = true /\ is_writable v = true.

(** The page table is well-formed, and the pages it maps for the user are pages
    of RAM, none of them a table, no two of them the same. *)
Definition user_ok (m : gmap Z (list Z)) (pt : Z) : Prop :=
  Forall (table_page m) (tables m 2 pt) /\
  (forall va v, 0 <= va < MAXVA -> pmap m pt va = Some v -> is_user v = true ->
     table_page m (PTE2PA v) /\ (PTE2PA v ∉ tables m 2 pt) /\
     (forall va' v', 0 <= va' < MAXVA -> pmap m pt va' = Some v' -> PTE2PA v' = PTE2PA v -> va' / PGSIZE = va / PGSIZE)).

Lemma PGROUNDDOWN_spec a : 0 <= a < 2 ^ 64 -> PGROUNDDOWN a = a / PGSIZE * PGSIZE.
Proof. apply page_mask. Qed.

Lemma page_base a : (a / PGSIZE * PGSIZE) / PGSIZE = a / PGSIZE /\ 0 <= a - a / PGSIZE * PGSIZE < PGSIZE /\
  a - a / PGSIZE * PGSIZE = a `mod` PGSIZE.
Proof. rewrite Z.div_mul by done. split; [done|]. unfold PGSIZE. Z.to_euclidean_division_equations. lia. Qed.

Lemma land_pick v f : (Z.land v f =? 0) = negb (negb (Z.land v f =? 0)).
Proof. by rewrite negb_involutive. Qed.

(** walkaddr finds the page of a user address. *)
Lemma walkaddr_ok pt va s e : user_ok (mem (kd s)) pt -> 0 <= va ->
  walkaddr pt va (mkWorld s e) =
    Ok (match (if va <? MAXVA then pmap (mem (kd s)) pt va else None) with
        | Some v => if is_user v then PTE2PA v else 0
        | None => 0
        end) (mkWorld s e).
Proof.
  intros [Ht Hu] Hva. unfold walkaddr. destruct (Z.leb_spec MAXVA va) as [Hmax|Hmax].
  { destruct (Z.ltb_spec va MAXVA); [lia|done]. }
  destruct (Z.ltb_spec va MAXVA); [|lia]. pose proof (walk_pte pt va s e Hmax Ht) as Hw.
  destruct (leaf (mem (kd s)) 2 pt va) as [a|] eqn:El.
  - destruct Hw as (E1 & E2 & E3). rewrite (bind_Ok _ _ _ _ _ E1), E2, (bind_Ok _ _ _ _ _ E3).
    rewrite (pmap_leaf _ _ _ _ _ El). unfold as_pte. rewrite land_pick. fold (valid (word (mem (kd s)) a)).
    destruct (valid (word (mem (kd s)) a)) eqn:Hv; [|done]. cbn [negb]. rewrite land_pick.
    fold (is_user (word (mem (kd s)) a)). by destruct (is_user _).
  - rewrite (bind_Ok _ _ _ _ _ Hw). cbn [Z.eqb].
    assert (pmap (mem (kd s)) pt va = None) as ->; [|done].
    destruct (pmap (mem (kd s)) pt va) as [v|] eqn:Ep; [|done]. destruct (pmap_Some _ _ _ _ _ Ep) as (a & Ea & _). congruence.
Qed.

Lemma user_nonzero m pt va v : user_ok m pt -> 0 <= va < MAXVA -> pmap m pt va = Some v -> is_user v = true ->
  (PTE2PA v =? 0) = false.
Proof.
  intros [_ Hu] Hva Hv Hus. destruct (Hu va v Hva Hv Hus) as [[[_ Hh] _] _]. pose proof sym_end_pos. apply Z.eqb_neq. lia.
Qed.

(** Part of one page, at the physical address of a virtual one. *)
Lemma frame_off v a : page_of (PTE2PA v + a `mod` PGSIZE) = PTE2PA v /\ off_of (PTE2PA v + a `mod` PGSIZE) = off_of a.
Proof.
  pose proof (PTE2PA_aligned v) as Ha. unfold aligned in Ha. unfold page_of, off_of.
  assert (0 <= a `mod` PGSIZE < PGSIZE) by (by apply Z.mod_pos_bound).
  rewrite Zplus_mod, Ha, Z.add_0_l, !Z.mod_mod by done. split; [|done].
  unfold PGSIZE in *. Z.to_euclidean_division_equations. lia.
Qed.

Lemma off_of_add a i : (Z.of_nat (off_of a) + Z.of_nat i < PGSIZE) ->
  off_of (a + Z.of_nat i) = (off_of a + i)%nat /\ (a + Z.of_nat i) / PGSIZE = a / PGSIZE.
Proof.
  unfold off_of. rewrite Z2Nat.id by (apply Z.mod_pos_bound; done). unfold PGSIZE in *. intros Hi.
  split; Z.to_euclidean_division_equations; lia.
Qed.

(** The user page that holds [va]. *)
Lemma user_page m pt va : user_ok m pt -> 0 <= va < 2 ^ 64 -> 
  let va0 := va / PGSIZE * PGSIZE in
  match (if va0 <? MAXVA then pmap m pt va0 else None) with
  | Some v => if is_user v then va < MAXVA /\ pmap m pt va = Some v /\ exists bs, m !! PTE2PA v = Some bs /\ length bs = Z.to_nat PGSIZE /\
      (forall i, (off_of va + i < Z.to_nat PGSIZE)%nat -> access m pt (va + Z.of_nat i) = bs !! (off_of va + i)%nat)
    else access m pt va = None
  | None => access m pt va = None
  end.
Proof.
  intros Hu Hva va0. destruct (page_base va) as (Ed & Hr & Em). fold va0 in Ed, Hr, Em.
  assert ((va0 <? MAXVA) = (va <? MAXVA)) as Elt.
  { apply eq_bool_prop_intro. rewrite !Is_true_true, !Z.ltb_lt. change MAXVA with (67108864 * PGSIZE) in *. unfold va0, PGSIZE in *.
    Z.to_euclidean_division_equations. lia. }
  rewrite Elt, (pmap_page m 2 pt va0 va Ed). unfold access. destruct (Z.ltb_spec va MAXVA) as [Hlt|Hlt].
  2: { done. }
  destruct (pmap m pt va) as [v|] eqn:Hv; [|done]. cbn [mbind option_bind]. destruct (is_user v) eqn:Hus; [|done].
  split; [done|]. split; [done|]. destruct Hu as [_ Hu]. destruct (Hu va v ltac:(lia) Hv Hus) as [[_ (bs & Hb & Hl)] _].
  exists bs. split; [done|]. split; [done|]. intros i Hi.
  destruct (off_of_add va i) as [Eo Ep]; [unfold PGSIZE in *; lia|].
  assert (va + Z.of_nat i < MAXVA) as Hlt'.
  { change MAXVA with (67108864 * PGSIZE) in *. unfold PGSIZE in *. Z.to_euclidean_division_equations. lia. }
  destruct (Z.ltb_spec (va + Z.of_nat i) MAXVA); [|lia]. rewrite (pmap_page m 2 pt _ va Ep), Hv. cbn [mbind option_bind].
  rewrite Hus, Hb. cbn [mbind option_bind]. by rewrite Eo.
Qed.

Lemma read_user s e v va n bs : mem (kd s) !! PTE2PA v = Some bs -> (off_of va + n <= length bs)%nat ->
  read_bytes (PTE2PA v + va `mod` PGSIZE) n (mkWorld s e) = Ok (read_at (off_of va) n bs) (mkWorld s e).
Proof.
  intros Hb Hn. destruct (frame_off v va) as [E1 E2]. unfold read_bytes. rewrite E1, E2.
  rewrite (bind_Ok _ _ _ _ _ (get_page_ok _ bs s e Hb)). by destruct (Nat.leb_spec (off_of va + n) (length bs)); [|lia].
Qed.

(** The bytes [bs] are those at the addresses from [va] on. *)
Definition bytes_at (m : gmap Z (list Z)) (pt va : Z) (bs : list Z) : Prop :=
  forall i c, bs !! i = Some c -> access m pt (va + Z.of_nat i) = Some c.

Lemma bytes_at_app m pt va bs bs' : bytes_at m pt va bs -> bytes_at m pt (va + Z.of_nat (length bs)) bs' ->
  bytes_at m pt va (bs ++ bs').
Proof.
  intros H1 H2 i c Hi. apply lookup_app_Some in Hi as [Hi|[Hle Hi]]; [by apply H1|].
  specialize (H2 _ _ Hi). by replace (va + Z.of_nat (length bs) + Z.of_nat (i - length bs)) with (va + Z.of_nat i) in H2 by lia.
Qed.

Lemma chunk m pt va bs n :
  (forall i, (off_of va + i < Z.to_nat PGSIZE)%nat -> access m pt (va + Z.of_nat i) = bs !! (off_of va + i)%nat) ->
  length bs = Z.to_nat PGSIZE -> (off_of va + n <= Z.to_nat PGSIZE)%nat ->
  length (read_at (off_of va) n bs) = n /\ bytes_at m pt va (read_at (off_of va) n bs).
Proof.
  intros Ha Hl Hn. assert (length (read_at (off_of va) n bs) = n) as Hlen by (apply length_read_at; lia).
  split; [done|]. intros i c Hi. pose proof (lookup_lt_Some _ _ _ Hi) as Hlt. rewrite Hlen in Hlt.
  rewrite lookup_read_at in Hi by lia. rewrite Ha by lia. exact Hi.
Qed.

(** The length of the part of a transfer of [len] bytes from [va] that is in the first page. *)
Lemma first_part va len : 0 <= va < MAXVA -> (0 < len)%nat ->
  let va0 := va / PGSIZE * PGSIZE in let n := Z.to_nat (Z.min (PGSIZE - (va - va0)) (Z.of_nat len)) in
  (0 < n <= len)%nat /\ (off_of va + n <= Z.to_nat PGSIZE)%nat /\ va - va0 = va `mod` PGSIZE /\
  ((n < len)%nat -> va0 + PGSIZE = va + Z.of_nat n).
Proof.
  intros Hva Hlen va0 n. destruct (page_base va) as (Ed & Hr & Em). fold va0 in Ed, Hr, Em. unfold n, off_of.
  rewrite Em in *. clearbody va0. unfold PGSIZE in *. lia.
Qed.

Lemma copyin_loop_S fuel pt srcva len : copyin_loop (S fuel) pt srcva len =
  if (len =? 0)%nat then mret (0, []) else
  (pa0 ← walkaddr pt (PGROUNDDOWN srcva);
   if pa0 =? 0 then mret (-1, []) else
   bs ← read_bytes (pa0 + (srcva - PGROUNDDOWN srcva))
     (Z.to_nat (Z.min (PGSIZE - (srcva - PGROUNDDOWN srcva)) (Z.of_nat len)));
   '(r, rest) ← copyin_loop fuel pt (PGROUNDDOWN srcva + PGSIZE)
     (len - Z.to_nat (Z.min (PGSIZE - (srcva - PGROUNDDOWN srcva)) (Z.of_nat len)));
   mret (r, bs ++ rest)).
Proof. done. Qed.

Lemma copyin_loop_ok pt s e : user_ok (mem (kd s)) pt -> forall fuel srcva len,
  (len < fuel)%nat -> 0 <= srcva < 2 ^ 64 ->
  exists r bs, copyin_loop fuel pt srcva len (mkWorld s e) = Ok (r, bs) (mkWorld s e) /\ bytes_at (mem (kd s)) pt srcva bs /\
    ((r = 0 /\ length bs = len) \/
     (r = -1 /\ (length bs < len)%nat /\ access (mem (kd s)) pt (srcva + Z.of_nat (length bs)) = None)).
Proof.
  intros Hu. induction fuel as [|fuel IH]; intros srcva len Hfu Hva; [lia|]. rewrite copyin_loop_S.
  destruct (Nat.eqb_spec len 0) as [->|Hlen]; [exists 0, []; split; [done|]; split; [done|by left]|].
  rewrite PGROUNDDOWN_spec by done. set (va0 := srcva / PGSIZE * PGSIZE).
  assert (0 <= va0) as Hva0 by (unfold va0, PGSIZE; Z.to_euclidean_division_equations; lia).
  rewrite (bind_Ok _ _ _ _ _ (walkaddr_ok pt va0 s e Hu Hva0)).
  pose proof (user_page (mem (kd s)) pt srcva Hu Hva) as Hp. cbv zeta in Hp. fold va0 in Hp.
  assert (forall m, access m pt srcva = None -> exists r bs,
    (mret (-1, []) : M (Z * list Z)) (mkWorld s e) = Ok (r, bs) (mkWorld s e) /\ bytes_at m pt srcva bs /\
    ((r = 0 /\ length bs = len) \/ (r = -1 /\ (length bs < len)%nat /\ access m pt (srcva + Z.of_nat (length bs)) = None))) as Hfail.
  { intros m Ha. exists (-1), []. split; [done|]. split; [done|]. right. cbn [length]. rewrite Z.add_0_r. split; [done|]. split; [lia|done]. }
  destruct (if va0 <? MAXVA then pmap (mem (kd s)) pt va0 else None) as [v|] eqn:Ev; [|by apply Hfail].
  destruct (is_user v) eqn:Hus; [|by apply Hfail]. destruct Hp as (Hmax & Hv & bs & Hb & Hl & Hacc).
  rewrite (user_nonzero (mem (kd s)) pt srcva v Hu ltac:(lia) Hv Hus).
  destruct (first_part srcva len ltac:(lia) ltac:(lia)) as (Hn & Hoff & Emod & Hnext). cbv zeta in Hn, Hoff, Hnext. fold va0 in Hn, Hoff, Emod, Hnext.
  set (n := Z.to_nat (Z.min (PGSIZE - (srcva - va0)) (Z.of_nat len))) in *. rewrite Emod.
  rewrite (bind_Ok _ _ _ _ _ (read_user s e v srcva n bs Hb ltac:(lia))).
  destruct (chunk (mem (kd s)) pt srcva bs n Hacc Hl Hoff) as [Hlc Hbc].
  destruct (IH (va0 + PGSIZE) (len - n)%nat) as (r & rest & E & Hrest & Hres).
  { lia. } { unfold va0. change MAXVA with 274877906944 in Hmax. change (2 ^ 64) with 18446744073709551616. unfold PGSIZE. Z.to_euclidean_division_equations. lia. }
  rewrite (bind_Ok _ _ _ _ _ E). exists r, (read_at (off_of srcva) n bs ++ rest). split; [done|]. rewrite length_app, Hlc.
  destruct (Nat.eq_dec n len) as [->|Hne].
  - assert (rest = []) as ->. { destruct Hres as [[_ Hr]|(_ & Hr & _)]; [|lia]. rewrite Nat.sub_diag in Hr. by apply nil_length_inv. }
    rewrite app_nil_r. split; [exact Hbc|]. left. split; [|cbn [length]; lia]. by destruct Hres as [[? _]|(_ & ? & _)]; [|cbn [length] in *; lia].
  - specialize (Hnext ltac:(lia)). rewrite Hnext in Hrest, Hres. split; [apply bytes_at_app; [done|by rewrite Hlc]|].
    destruct Hres as [[-> Hr]|(-> & Hr & Ha)]; [left; split; [done|lia]|right; split; [done|]; split; [lia|] ].
    by replace (srcva + Z.of_nat (n + length rest)) with (srcva + Z.of_nat n + Z.of_nat (length rest)) by lia.
Qed.

(** The bytes of user memory after [bs] has been written at [va]. *)
Definition overwritten (f : Z -> option Z) (va : Z) (bs : list Z) (va' : Z) : option Z :=
  if (va <=? va') && (va' <? va + Z.of_nat (length bs)) then bs !! Z.to_nat (va' - va) else f va'.

Lemma overwritten_nil f va va' : overwritten f va [] va' = f va'.
Proof.
  unfold overwritten. destruct (Z.leb_spec va va'), (Z.ltb_spec va' (va + Z.of_nat (length (@nil Z)))); try done.
  cbn [length] in *. lia.
Qed.

Lemma overwritten_app f va bs bs' va' :
  overwritten (overwritten f va bs) (va + Z.of_nat (length bs)) bs' va' = overwritten f va (bs ++ bs') va'.
Proof.
  unfold overwritten. rewrite length_app.
  destruct (Z.leb_spec va va'), (Z.ltb_spec va' (va + Z.of_nat (length bs))), (Z.leb_spec (va + Z.of_nat (length bs)) va'),
    (Z.ltb_spec va' (va + Z.of_nat (length bs) + Z.of_nat (length bs'))), (Z.ltb_spec va' (va + Z.of_nat (length bs + length bs')));
    cbn [andb]; try lia; try done; try (by rewrite lookup_app_l by lia).
  rewrite lookup_app_r by lia. f_equal. lia.
Qed.

(** Writing part of a user page. *)
Lemma write_user_mem m pt va v bs ch : user_ok m pt -> 0 <= va < MAXVA -> pmap m pt va = Some v -> is_user v = true ->
  m !! PTE2PA v = Some bs -> length bs = Z.to_nat PGSIZE -> (off_of va + length ch <= Z.to_nat PGSIZE)%nat ->
  let m' := <[PTE2PA v := write_at (off_of va) ch bs]> m in
  user_ok m' pt /\ (forall va', pmap m' pt va' = pmap m pt va') /\
  (forall va', 0 <= va' -> access m' pt va' = overwritten (access m pt) va ch va').
Proof.
  intros Hu Hva Hv Hus Hb Hl Hoff m'. pose proof Hu as [Ht Hu']. destruct (Hu' va v Hva Hv Hus) as (Htp & Hnt & Hinj).
  assert (forall p, p ≠ PTE2PA v -> m' !! p = m !! p) as Ho by (intros p Hp; by apply lookup_insert_ne).
  assert (forall p, table_page m p -> table_page m' p) as Hpg.
  { intros p [Hh (b & Eb & Lb)]. split; [done|]. destruct (decide (p = PTE2PA v)) as [->|Hne].
    - eexists. split; [apply lookup_insert_eq|]. rewrite length_write_at; [exact Hl|lia].
    - exists b. rewrite Ho by done. by split. }
  destruct (tables_frame m m' 2 pt) as (Et & El & Epm).
  { intros p Hin. rewrite Forall_forall in Ht. destruct (Ht p Hin) as [Hh _]. split; [by apply heap_aligned|].
    apply Ho. intros ->. exact (Hnt Hin). }
  split; [|split; [exact Epm|]].
  - split; [rewrite Et; eapply Forall_impl; [exact Ht|]; apply Hpg|]. intros va1 v1 Hva1 Hv1 Hus1. rewrite Epm in Hv1.
    destruct (Hu' va1 v1 Hva1 Hv1 Hus1) as (H1 & H2 & H3). split; [by apply Hpg|]. rewrite Et. split; [exact H2|].
    intros va2 v2 Hva2. rewrite Epm. apply H3; done.
  - intros va' Hva'. unfold access, overwritten. rewrite Epm.
    destruct (decide (va' / PGSIZE = va / PGSIZE)) as [Ep|Ep].
    + assert (va' < MAXVA) as Hmax by (change MAXVA with (67108864 * PGSIZE) in *; unfold PGSIZE in *; Z.to_euclidean_division_equations; lia).
      destruct (Z.ltb_spec va' MAXVA); [|lia]. rewrite (pmap_page m 2 pt va' va Ep), Hv. cbn [mbind option_bind].
      rewrite Hus, Hb. unfold m'. rewrite lookup_insert_eq. cbn [mbind option_bind].
      assert (va' - va = Z.of_nat (off_of va') - Z.of_nat (off_of va)) as Ed.
      { unfold off_of. rewrite !Z2Nat.id by (by apply Z.mod_pos_bound). unfold PGSIZE in *. Z.to_euclidean_division_equations. lia. }
      destruct (Z.leb_spec va va'), (Z.ltb_spec va' (va + Z.of_nat (length ch))); cbn [andb].
      * rewrite lookup_write_at_in by lia. f_equal. lia.
      * rewrite lookup_write_at_out by lia. done.
      * rewrite lookup_write_at_out by lia. done.
      * lia.
    + assert ((va <=? va') && (va' <? va + Z.of_nat (length ch)) = false) as ->.
      { destruct (Z.leb_spec va va'), (Z.ltb_spec va' (va + Z.of_nat (length ch))); try reflexivity. exfalso. apply Ep.
        destruct (off_of_add va (Z.to_nat (va' - va))) as [_ E]; [unfold PGSIZE in *; lia|].
        rewrite Z2Nat.id in E by lia. replace (va + (va' - va)) with va' in E by lia. exact E. }
      destruct (Z.ltb_spec va' MAXVA); [|reflexivity]. destruct (pmap m pt va') as [v'|] eqn:Hv'; [|reflexivity].
      cbn [mbind option_bind]. destruct (is_user v'); [|reflexivity]. rewrite Ho; [reflexivity|].
      intros E. apply Ep. apply (Hinj va' v'); [lia|exact Hv'|exact E].
Qed.

Lemma copyout_loop_S fuel pt dstva src : copyout_loop (S fuel) pt dstva src =
  if (length src =? 0)%nat then mret 0 else
  if MAXVA <=? PGROUNDDOWN dstva then mret (-1) else
  (pte ← walk pt (PGROUNDDOWN dstva) false;
   if pte =? 0 then mret (-1) else
   v ← read64 pte;
   if (Z.land v PTE_V =? 0) || (Z.land v PTE_U =? 0) || (Z.land v PTE_W =? 0) then mret (-1) else
   write_bytes (PTE2PA v + (dstva - PGROUNDDOWN dstva))
     (take (Z.to_nat (Z.min (PGSIZE - (dstva - PGROUNDDOWN dstva)) (Z.of_nat (length src)))) src);;
   copyout_loop fuel pt (PGROUNDDOWN dstva + PGSIZE)
     (drop (Z.to_nat (Z.min (PGSIZE - (dstva - PGROUNDDOWN dstva)) (Z.of_nat (length src)))) src)).
Proof. done. Qed.

Lemma write_user s e v va ch bs : mem (kd s) !! PTE2PA v = Some bs -> (off_of va + length ch <= length bs)%nat ->
  write_bytes (PTE2PA v + va `mod` PGSIZE) ch (mkWorld s e) =
  Ok tt (mkWorld (with_mem (<[PTE2PA v := write_at (off_of va) ch bs]> (mem (kd s))) (freelist (kd s)) s) e).
Proof.
  intros Hb Hn. destruct (frame_off v va) as [E1 E2]. unfold write_bytes. rewrite E1, E2.
  rewrite (bind_Ok _ _ _ _ _ (get_page_ok _ bs s e Hb)). destruct (Nat.leb_spec (off_of va + length ch) (length bs)); [|lia].
  rewrite put_page_ok. unfold put_mem, with_mem, mapd. by destruct s as [? ? ? ? []].
Qed.

(** The first page of a transfer to user memory, for a writable and for another address. *)
Lemma copyout_page pt dstva s e : user_ok (mem (kd s)) pt -> 0 <= dstva < 2 ^ 64 ->
  let va0 := dstva / PGSIZE * PGSIZE in
  (exists v, dstva < MAXVA /\ pmap (mem (kd s)) pt dstva = Some v /\ is_user v = true /\ is_writable v = true /\
     forall (k : Z -> M Z), (if MAXVA <=? va0 then mret (-1) else
       (pte ← walk pt va0 false; if pte =? 0 then mret (-1) else v ← read64 pte;
        if (Z.land v PTE_V =? 0) || (Z.land v PTE_U =? 0) || (Z.land v PTE_W =? 0) then mret (-1) else k v)) (mkWorld s e) =
       k v (mkWorld s e)) \/
  (~ writable (mem (kd s)) pt dstva /\
     forall (k : Z -> M Z), (if MAXVA <=? va0 then mret (-1) else
       (pte ← walk pt va0 false; if pte =? 0 then mret (-1) else v ← read64 pte;
        if (Z.land v PTE_V =? 0) || (Z.land v PTE_U =? 0) || (Z.land v PTE_W =? 0) then mret (-1) else k v)) (mkWorld s e) =
       Ok (-1) (mkWorld s e)).
Proof.
  intros Hu Hva va0. destruct (page_base dstva) as (Ed & Hr & Em). fold va0 in Ed, Hr, Em.
  assert (MAXVA <= va0 <-> MAXVA <= dstva) as Emax.
  { change MAXVA with (67108864 * PGSIZE) in *. unfold va0, PGSIZE in *. Z.to_euclidean_division_equations. lia. }
  unfold writable. destruct (Z.leb_spec MAXVA va0) as [Hmax|Hmax]; [right; split; [intros [? _]; lia|intros k; reflexivity]|].
  rewrite <- (pmap_page (mem (kd s)) 2 pt va0 dstva Ed). pose proof (walk_pte pt va0 s e Hmax (proj1 Hu)) as Hw.
  destruct (leaf (mem (kd s)) 2 pt va0) as [a|] eqn:El.
  - destruct Hw as (E1 & E2 & E3). rewrite (pmap_leaf _ _ _ _ _ El). unfold as_pte.
    set (v := word (mem (kd s)) a) in *.
    assert (forall (k : Z -> M Z), (pte ← walk pt va0 false; if pte =? 0 then mret (-1) else v ← read64 pte;
        if (Z.land v PTE_V =? 0) || (Z.land v PTE_U =? 0) || (Z.land v PTE_W =? 0) then mret (-1) else k v) (mkWorld s e) =
      (if valid v && is_user v && is_writable v then k v else mret (-1)) (mkWorld s e)) as Erun.
    { intros k. rewrite (bind_Ok _ _ _ _ _ E1), E2, (bind_Ok _ _ _ _ _ E3). unfold valid, is_user, is_writable.
      by destruct (Z.land v PTE_V =? 0), (Z.land v PTE_U =? 0), (Z.land v PTE_W =? 0). }
    destruct (valid v) eqn:Hv; [destruct (is_user v) eqn:Hus; [destruct (is_writable v) eqn:Hwr|]|].
    + left. exists v. split; [lia|]. split; [reflexivity|]. split; [exact Hus|]. split; [exact Hwr|].
      intros k. rewrite Erun. reflexivity.
    + right. split; [|intros k; rewrite Erun; reflexivity]. intros (_ & v' & [= <-] & _ & Hw'). congruence.
    + right. split; [|intros k; rewrite Erun; reflexivity]. intros (_ & v' & [= <-] & Hw' & _). congruence.
    + right. split; [|intros k; rewrite Erun; reflexivity]. intros (_ & v' & [=] & _).
  - right. split; [|intros k; rewrite (bind_Ok _ _ _ _ _ Hw); reflexivity]. intros (_ & v & Hv & _).
    destruct (pmap_Some _ _ _ _ _ Hv) as (a & Ea & _). congruence.
Qed.

Lemma copyout_loop_ok pt e : forall fuel dstva src s, user_ok (mem (kd s)) pt -> (length src < fuel)%nat -> 0 <= dstva < 2 ^ 64 ->
  exists r m' n, copyout_loop fuel pt dstva src (mkWorld s e) = Ok r (mkWorld (with_mem m' (freelist (kd s)) s) e) /\
    user_ok m' pt /\ (forall va, pmap m' pt va = pmap (mem (kd s)) pt va) /\
    (forall va, 0 <= va -> access m' pt va = overwritten (access (mem (kd s)) pt) dstva (take n src) va) /\
    (forall i, (i < n)%nat -> writable (mem (kd s)) pt (dstva + Z.of_nat i)) /\
    ((r = 0 /\ n = length src) \/
     (r = -1 /\ (n < length src)%nat /\ ~ writable (mem (kd s)) pt (dstva + Z.of_nat n))).
Proof.
  induction fuel as [|fuel IH]; intros dstva src s Hu Hfu Hva; [lia|]. rewrite copyout_loop_S.
  assert (forall va, 0 <= va -> access (mem (kd s)) pt va = overwritten (access (mem (kd s)) pt) dstva (take 0 src) va) as H0.
  { intros va _. symmetry. apply overwritten_nil. }
  destruct (Nat.eqb_spec (length src) 0) as [Hlen|Hlen].
  { exists 0, (mem (kd s)), 0%nat. rewrite with_self. split; [reflexivity|]. split; [exact Hu|]. split; [reflexivity|]. split; [exact H0|].
    split; [intros i Hi; lia|]. left. split; [reflexivity|lia]. }
  rewrite PGROUNDDOWN_spec by done. set (va0 := dstva / PGSIZE * PGSIZE).
  destruct (copyout_page pt dstva s e Hu Hva) as [(v & Hmax & Hv & Hus & Hwr & E)|[Hnw E]]; fold va0 in E; rewrite E.
  2: { exists (-1), (mem (kd s)), 0%nat. rewrite with_self. split; [reflexivity|]. split; [exact Hu|]. split; [reflexivity|].
       split; [exact H0|]. split; [intros i Hi; lia|]. right. rewrite Z.add_0_r. split; [reflexivity|]. split; [lia|exact Hnw]. }
  destruct (first_part dstva (length src) ltac:(lia) ltac:(lia)) as (Hn & Hoff & Emod & Hnext). cbv zeta in Hn, Hoff, Hnext. fold va0 in Hn, Hoff, Emod, Hnext.
  set (n := Z.to_nat (Z.min (PGSIZE - (dstva - va0)) (Z.of_nat (length src)))) in *. rewrite Emod.
  destruct (proj2 Hu dstva v ltac:(lia) Hv Hus) as ((_ & bs & Hb & Hl) & _).
  assert (length (take n src) = n) as Hlt by (rewrite length_take; lia).
  rewrite (bind_Ok _ _ _ _ _ (write_user s e v dstva (take n src) bs Hb ltac:(rewrite Hlt, Hl; exact Hoff))).
  destruct (write_user_mem (mem (kd s)) pt dstva v bs (take n src) Hu ltac:(lia) Hv Hus Hb Hl ltac:(rewrite Hlt; exact Hoff)) as (Hu1 & Epm1 & Eacc1).
  set (m1 := <[PTE2PA v := write_at (off_of dstva) (take n src) bs]> (mem (kd s))) in *.
  assert (forall i, (i < n)%nat -> writable (mem (kd s)) pt (dstva + Z.of_nat i)) as Hwn.
  { intros i Hi. destruct (off_of_add dstva i) as [_ Ep]; [unfold PGSIZE in *; lia|]. split.
    - change MAXVA with (67108864 * PGSIZE) in *. unfold PGSIZE in *. Z.to_euclidean_division_equations. lia.
    - exists v. rewrite (pmap_page _ 2 pt _ dstva Ep). split; [exact Hv|]. split; [exact Hus|exact Hwr]. }
  destruct (IH (va0 + PGSIZE) (drop n src) (with_mem m1 (freelist (kd s)) s)) as (r & m2 & k & E2 & Hu2 & Epm2 & Eacc2 & Hw2 & Hres).
  { exact Hu1. } { rewrite length_drop. lia. }
  { unfold va0. change MAXVA with 274877906944 in Hmax. change (2 ^ 64) with 18446744073709551616. unfold PGSIZE. Z.to_euclidean_division_equations. lia. }
  rewrite with_with in E2. change (freelist (kd (with_mem m1 (freelist (kd s)) s))) with (freelist (kd s)) in E2. rewrite mem_with in *.
  rewrite length_drop in Hres.
  assert (n = length src \/ va0 + PGSIZE = dstva + Z.of_nat n) as [Hall|Hnx] by (destruct (Nat.eq_dec n (length src)); [by left|right; apply Hnext; lia]).
  - assert (k = 0%nat) as -> by (destruct Hres as [[_ ->]|(_ & ? & _)]; lia).
    exists r, m2, n. split; [exact E2|]. split; [exact Hu2|]. split; [intros va; rewrite Epm2; apply Epm1|].
    split; [|split; [exact Hwn|left; split; [|exact Hall]; destruct Hres as [[? _]|(_ & ? & _)]; [done|lia] ] ].
    intros va Hva'. rewrite Eacc2, <- Eacc1 by done. apply overwritten_nil.
  - rewrite Hnx in Eacc2, Hw2, Hres. exists r, m2, (n + k)%nat. split; [exact E2|]. split; [exact Hu2|].
    split; [intros va; rewrite Epm2; apply Epm1|]. assert (forall i, writable m1 pt i <-> writable (mem (kd s)) pt i) as Hwi.
    { intros i. unfold writable. by setoid_rewrite Epm1. }
    split; [|split].
    + intros va Hva'. rewrite Eacc2 by done. replace (take (n + k) src) with (take n src ++ take k (drop n src)) by apply take_take_drop.
      rewrite <- overwritten_app, Hlt. unfold overwritten at 1 2. destruct (_ && _); [reflexivity|]. by apply Eacc1.
    + intros i Hi. destruct (Nat.lt_ge_cases i n); [by apply Hwn|]. apply Hwi.
      replace (dstva + Z.of_nat i) with (dstva + Z.of_nat n + Z.of_nat (i - n)) by lia. apply Hw2. lia.
    + destruct Hres as [[-> ->]|(-> & Hk & Hnw)]; [left; split; [reflexivity|lia]|right; split; [reflexivity|]; split; [lia|] ].
      intros Hw. apply Hnw, Hwi. by replace (dstva + Z.of_nat n + Z.of_nat k) with (dstva + Z.of_nat (n + k)) by lia.
Qed.

(** A page that no user address is mapped to *)
Definition private (m : gmap Z (list Z)) (pt pa : Z) : Prop :=
  forall va v, 0 <= va < MAXVA -> pmap m pt va = Some v -> is_user v = true -> PTE2PA v <> pa.

(** copyout does not touch such pages. *)
Lemma copyout_loop_frame pt e : forall fuel dstva src s r w, user_ok (mem (kd s)) pt -> 0 <= dstva < 2 ^ 64 ->
  copyout_loop fuel pt dstva src (mkWorld s e) = Ok r w ->
  forall pa, private (mem (kd s)) pt pa -> mem (kd (ks w)) !! pa = mem (kd s) !! pa.
Proof.
  induction fuel as [|fuel IH]; intros dstva src s r w Hu Hva Hok pa Hpa; [done|]. rewrite copyout_loop_S in Hok.
  destruct (Nat.eqb_spec (length src) 0) as [Hlen|Hlen]; [by injection Hok as _ <-|].
  rewrite PGROUNDDOWN_spec in Hok by done. set (va0 := dstva / PGSIZE * PGSIZE) in *.
  destruct (copyout_page pt dstva s e Hu Hva) as [(v & Hmax & Hv & Hus & Hwr & E)|[Hnw E]]; fold va0 in E; rewrite E in Hok;
    [|by injection Hok as _ <-].
  destruct (first_part dstva (length src) ltac:(lia) ltac:(lia)) as (Hn & Hoff & Emod & _). cbv zeta in Hn, Hoff. fold va0 in Hn, Hoff, Emod.
  set (n := Z.to_nat (Z.min (PGSIZE - (dstva - va0)) (Z.of_nat (length src)))) in *. rewrite Emod in Hok.
  destruct (proj2 Hu dstva v ltac:(lia) Hv Hus) as ((_ & bs & Hb & Hl) & _).
  assert (length (take n src) = n) as Hlt by (rewrite length_take; lia).
  rewrite (bind_Ok _ _ _ _ _ (write_user s e v dstva (take n src) bs Hb ltac:(rewrite Hlt, Hl; exact Hoff))) in Hok.
  destruct (write_user_mem (mem (kd s)) pt dstva v bs (take n src) Hu ltac:(lia) Hv Hus Hb Hl ltac:(rewrite Hlt; exact Hoff)) as (Hu1 & Epm1 & _).
  set (m1 := <[PTE2PA v := write_at (off_of dstva) (take n src) bs]> (mem (kd s))) in *.
  set (s1 := with_mem m1 (freelist (kd s)) s) in *. assert (mem (kd s1) = m1) as Em by apply mem_with.
  assert (0 <= va0 + PGSIZE < 2 ^ 64) as Hva1.
  { unfold va0. change MAXVA with 274877906944 in Hmax. change (2 ^ 64) with 18446744073709551616. unfold PGSIZE. Z.to_euclidean_division_equations. lia. }
  rewrite (IH (va0 + PGSIZE) (drop n src) s1 r w ltac:(rewrite Em; exact Hu1) Hva1 Hok pa); rewrite Em.
  - apply lookup_insert_ne. apply (Hpa dstva v); [lia|done|done].
  - intros va' v' Hva' Hv' Hus'. rewrite Epm1 in Hv'. by apply (Hpa va' v').
Qed.

(** ** Theorems *)

(** C35: uvmunmap unmaps.  If the pages from [va] are mapped by the leaf
    entries [vs], uvmunmap leaves the address space without them and as it was
    everywhere else.  With [do_free] the pages they mapped are on the free list
    afterwards, the last one first; no other page of RAM outside the page table
    changes. *)
Theorem uvmunmap_correct pt va vs do_free s l e :
  space_ok s l pt -> va `mod` PGSIZE = 0 -> 0 <= va -> va + Z.of_nat (length vs) * PGSIZE <= MAXVA ->
  maps (mem (kd s)) pt va vs -> (do_free = true -> freeable (mem (kd s)) pt l vs) ->
  exists s', uvmunmap pt va (Z.of_nat (length vs)) do_free (mkWorld s e) = Ok tt (mkWorld s' e) /\
    unmapped pt s l s' (freed do_free vs) (hole va (length vs) (pmap (mem (kd s)) pt)).
Proof.
  intros Hs Ha H0 Hmax Hm Hf. unfold uvmunmap. rewrite Ha, Nat2Z.id. cbn [Z.eqb negb].
  rewrite u64_small by (change MAXVA with 274877906944 in Hmax; unfold PGSIZE in *; lia).
  apply uvmunmap_loop_ok; try done. lia.
Qed.

(** C12: fork copies memory.  Let [vs] be the entries of the parent's pages
    below [sz], and let the child have no page there.  uvmcopy returns 0 or -1.
    On 0 the child reads the same bytes as the parent at every address below
    [sz], with the same permissions, from pages that were free before and are
    not now.  On -1 the child's address space is as it was, and every page is
    back on the free list but those that became tables of the child.  Either way
    the parent's address space and every page that was not free keep their
    contents, the child's tables apart. *)
Theorem uvmcopy_correct old new sz vs s l e :
  let m := mem (kd s) in
  space_ok s l new -> parent_ok m l old new vs -> Z.of_nat (length vs) * PGSIZE <= MAXVA ->
  (Z.of_nat (length vs) - 1) * PGSIZE < sz <= Z.of_nat (length vs) * PGSIZE ->
  (forall va, 0 <= va / PGSIZE < Z.of_nat (length vs) -> pmap m new va = None) ->
  exists r s' l', uvmcopy old new sz (mkWorld s e) = Ok r (mkWorld s' e) /\ space_ok s' l' new /\
    (forall va, pmap (mem (kd s')) old va = pmap m old va) /\
    (forall p, p ∉ l -> p ∉ tables m 2 new -> mem (kd s') !! p = m !! p) /\
    ((r = 0 /\ forall va, 0 <= va < sz ->
        user_byte (mem (kd s')) new va = user_byte m old va /\
        exists v w, pmap m old va = Some v /\ pmap (mem (kd s')) new va = Some w /\ PTE_FLAGS w = PTE_FLAGS v /\
          PTE2PA w ∈ l /\ PTE2PA w ∉ l') \/
     (r = -1 /\ (forall va, 0 <= va < MAXVA -> pmap (mem (kd s')) new va = pmap m new va) /\
      exists taken, l ≡ₚ taken ++ l' /\ tables (mem (kd s')) 2 new ≡ₚ taken ++ tables m 2 new)).
Proof.
  intros m Hs Hpar Hmax Hsz Hno. pose proof Hs as (_ & _ & Hnd).
  assert (copying old new s l vs s l [] []) as Hcp.
  { exists m, (freelist (kd s)). split; [symmetry; apply with_self|]. split; [exact Hs|]. split; [done|].
    split; [done|]. split; [intros; reflexivity|]. split; [constructor|]. intros va _. reflexivity. }
  destruct (uvmcopy_loop_ok old new s l vs Hnd Hpar Hmax Hno sz (length vs) s l [] [] e (S (S (Z.to_nat (sz / PGSIZE)))))
    as (r & s' & l' & ws & taken & E & Hcp' & Hres); [done| |exact Hsz|exact Hcp|].
  { unfold PGSIZE in *. Z.to_euclidean_division_equations. lia. }
  exists r, s', l'. destruct (parent_tables old new s l vs Hpar s' l' ws taken Hcp') as (_ & _ & _ & Epm & _).
  destruct (copying_pages old new s l vs Hnd Hpar Hmax s' l' ws taken Hcp') as [_ [_ Hndw]].
  pose proof Hcp' as (m' & fl' & -> & Hs' & Hl & Ht & Ho & Hc & Hg). rewrite mem_with in *.
  split; [exact E|]. split; [exact Hs'|]. split; [exact Epm|]. split; [exact Ho|].
  destruct Hres as [[-> Hlen]|[-> ->]]; [left|right].
  - split; [done|]. intros va Hva. set (i := Z.to_nat (va / PGSIZE)).
    assert (i < length vs)%nat as Hi by (unfold i, PGSIZE in *; Z.to_euclidean_division_equations; lia).
    destruct (lookup_lt_is_Some_2 vs i Hi) as [v Hv]. destruct (lookup_lt_is_Some_2 ws i ltac:(lia)) as [w Hw].
    rewrite Hlen, firstn_all in Hc. destruct (Forall2_lookup_lr _ _ _ _ _ _ Hc Hv Hw) as (pa & Hpa & -> & Hb).
    destruct (parent_entry old new s l vs Hpar i v Hv) as (Hpv & _ & Hval & _).
    assert (pmap m' new va = Some (mk_pte pa (PTE_FLAGS v))) as Hpw.
    { rewrite Hg by lia. unfold with_entries. fold i. by rewrite Hw. }
    assert (pmap m old va = Some v) as Hpv'.
    { rewrite <- Hpv. apply pmap_page. unfold i. rewrite Z2Nat.id by (apply Z.div_pos; [lia|done]). by rewrite Z.div_mul. }
    assert (PTE2PA (mk_pte pa (PTE_FLAGS v)) = pa) as Epa by (apply PTE2PA_mk; [by apply heap_frame|apply PTE_FLAGS_range]).
    assert (pa ∈ PTE2PA <$> ws) as Hin.
    { rewrite <- Epa. apply list_elem_of_fmap_2. by eapply list_elem_of_lookup_2. }
    unfold user_byte. rewrite Hpw, Hpv'. cbn [mbind option_bind]. rewrite Epa, Hb. split; [done|].
    exists v, (mk_pte pa (PTE_FLAGS v)). split; [done|]. split; [done|]. rewrite Epa. split; [|split].
    + rewrite PTE_FLAGS_mk by (try apply heap_frame; try apply PTE_FLAGS_range; done). by apply PTE_FLAGS_valid.
    + rewrite Hl, elem_of_app. by left.
    + intros Hin'. apply NoDup_app in Hndw as (_ & Hd & _). apply (Hd pa Hin). rewrite elem_of_app. by left.
  - split; [done|]. split; [exact Hg|]. exists taken. split; [exact Hl|exact Ht].
Qed.

(** C33: copyin reads user memory.  It leaves the state as it is and
    returns 0 with the [len] bytes at the virtual addresses from [srcva] on, or
    -1 with fewer, which are those up to the first address that is not mapped
    for the user. *)
Theorem copyin_correct pt srcva len s e :
  user_ok (mem (kd s)) pt -> 0 <= srcva < 2 ^ 64 ->
  exists r bs, copyin pt srcva len (mkWorld s e) = Ok (r, bs) (mkWorld s e) /\
    (forall i c, bs !! i = Some c -> access (mem (kd s)) pt (srcva + Z.of_nat i) = Some c) /\
    ((r = 0 /\ length bs = len) \/
     (r = -1 /\ (length bs < len)%nat /\ access (mem (kd s)) pt (srcva + Z.of_nat (length bs)) = None)).
Proof. intros Hu Hva. apply copyin_loop_ok; [exact Hu|lia|exact Hva]. Qed.

(** C32: copyout writes user memory and nothing else.  It returns 0 having
    written all of [src] at the virtual addresses from [dstva] on, or -1 having
    written the part before the first address that the user may not write.  The
    address space does not change, and every byte the user can read outside the
    range written is what it was; nothing of the kernel's data but RAM changes. *)
Theorem copyout_correct pt dstva src s e :
  user_ok (mem (kd s)) pt -> 0 <= dstva < 2 ^ 64 ->
  exists r m' n, copyout pt dstva src (mkWorld s e) = Ok r (mkWorld (with_mem m' (freelist (kd s)) s) e) /\
    (forall va, pmap m' pt va = pmap (mem (kd s)) pt va) /\
    (forall va, 0 <= va -> access m' pt va = overwritten (access (mem (kd s)) pt) dstva (take n src) va) /\
    (forall i, (i < n)%nat -> writable (mem (kd s)) pt (dstva + Z.of_nat i)) /\
    ((r = 0 /\ n = length src) \/
     (r = -1 /\ (n < length src)%nat /\ ~ writable (mem (kd s)) pt (dstva + Z.of_nat n))).
Proof.
  intros Hu Hva. destruct (copyout_loop_ok pt e (S (length src)) dstva src s Hu ltac:(lia) Hva) as (r & m' & n & E & _ & H1 & H2 & H3 & H4).
  exists r, m', n. split; [exact E|]. split; [exact H1|]. split; [exact H2|]. split; [exact H3|exact H4].
Qed.
End usermem.

(** ** A process with one page, for the witnesses *)

#[local] Existing Instance kernel_syms.
#[local] Existing Instance kernel_syms_ok.

(** RAM in which the pages [l] are chained as free pages. *)
Fixpoint mk_free (l : list Z) (m : gmap Z (list Z)) : gmap Z (list Z) :=
  match l with
  | [] => m
  | pa :: l => <[pa := freed_page (default 0 (head l))]> (mk_free l m)
  end.

Lemma mk_free_other l m p : p ∉ l -> mk_free l m !! p = m !! p.
Proof.
  induction l as [|pa l IH]; intros Hp; [done|]. apply not_elem_of_cons in Hp as [H1 H2]. cbn [mk_free].
  rewrite lookup_insert_ne by done. by apply IH.
Qed.

Lemma mk_free_chain l m : NoDup l -> Forall heap_page l -> chain (mk_free l m) (default 0 (head l)) l.
Proof.
  induction l as [|pa l IH]; intros Hnd Hh; [constructor|]. apply NoDup_cons in Hnd as [Hni Hnd]. apply Forall_cons in Hh as [Hp Hh].
  cbn [mk_free head default from_option id].
  apply (chain_cons _ pa (freed_page (default 0 (head l)))); [exact Hp|apply lookup_insert_eq|apply length_freed_page| |exact Hni].
  rewrite next_of_freed_page; [apply chain_put; [by apply IH|exact Hni]|]. destruct l as [|q l]; cbn; [lia|].
  apply Forall_cons in Hh as [[_ Hq] _]. change sym_end with 0x80023ac0 in Hq. change PHYSTOP with 0x88000000 in Hq. lia.
Qed.

Definition t_free : list Z := [0x87ff0000; 0x87ff1000; 0x87ff2000; 0x87ff3000; 0x87ff4000; 0x87ff5000].
Definition t_root : Z := 0x87ff8000.
Definition t_new : Z := 0x87ff9000.
Definition t_page : Z := 0x87ffa000.

Definition t_mem : gmap Z (list Z) :=
  <[t_root := junk 0]> (<[t_new := junk 0]> (<[t_page := junk 7]> (mk_free t_free ∅))).

Definition t_ram : kstate := with_mem t_mem 0x87ff0000 (unlocked kstate0).

(** The page at virtual address 0, readable and writable by the user. *)
Definition t_pte : Z := mk_pte t_page 22.

Definition t_user : kstate :=
  match mappages t_root 0 PGSIZE t_page 22 (mkWorld t_ram []) with Ok _ w => ks w | _ => t_ram end.

Lemma t_heap : Forall heap_page (t_root :: t_new :: t_page :: t_free).
Proof. repeat constructor; done. Qed.

Lemma t_nodup : NoDup (t_root :: t_new :: t_page :: t_free).
Proof. by apply (bool_decide_unpack _). Qed.

Lemma t_mem_pages : t_mem !! t_root = Some (junk 0) /\ t_mem !! t_new = Some (junk 0) /\ t_mem !! t_page = Some (junk 7).
Proof.
  unfold t_mem. split; [apply lookup_insert_eq|]. split; [rewrite lookup_insert_ne by done; apply lookup_insert_eq|].
  rewrite 2!lookup_insert_ne by done. apply lookup_insert_eq.
Qed.

Lemma t_ram_ok : space_ok t_ram t_free t_root.
Proof.
  destruct t_mem_pages as (E0 & _ & _). pose proof t_heap as Hh. apply Forall_cons in Hh as [Hr Hh].
  destruct (tables_zeros t_mem 2 t_root eq_refl E0) as [Et _]. unfold t_ram. split; [|rewrite mem_with, Et; split].
  - split; [apply settled_unlocked|]. split; [done|]. split; [apply kmem_free|]. unfold free_pages.
    change (chain t_mem (default 0 (head t_free)) t_free). unfold t_mem.
    apply chain_put; [apply chain_put; [apply chain_put|]|]; [|by apply (bool_decide_unpack _)..].
    apply mk_free_chain; [by apply (bool_decide_unpack _)|]. by do 2 apply Forall_cons in Hh as [_ Hh].
  - constructor; [|constructor]. split; [exact Hr|]. exists (junk 0). split; [exact E0|apply length_replicate].
  - by apply (bool_decide_unpack _).
Qed.

Lemma t_user_run : match mappages t_root 0 PGSIZE t_page 22 (mkWorld t_ram []) with Ok r _ => r =? 0 | _ => false end = true.
Proof. vm_compute. reflexivity. Qed.

Lemma t_page_out : t_page ∉ t_root :: t_free.
Proof. by apply (bool_decide_unpack _). Qed.

Lemma t_new_out : t_new ∉ t_root :: t_free.
Proof. by apply (bool_decide_unpack _). Qed.

(** The process: its page table uses free pages, and maps its page at 0. *)
Lemma t_user_facts : exists l, space_ok t_user l t_root /\ (forall p, p ∈ l -> p ∈ t_free) /\
  (forall p, p ∈ tables (mem (kd t_user)) 2 t_root -> p ∈ t_root :: t_free) /\
  mem (kd t_user) !! t_page = Some (junk 7) /\ mem (kd t_user) !! t_new = Some (junk 0) /\
  (forall va, 0 <= va < MAXVA -> pmap (mem (kd t_user)) t_root va = with_range 0 t_page 22 1 (fun _ => None) va).
Proof.
  destruct t_mem_pages as (E0 & En & Ep). pose proof t_heap as Hh. apply Forall_cons in Hh as [_ Hh].
  do 1 apply Forall_cons in Hh as [_ Hh]. apply Forall_cons in Hh as [Hpg _]. apply heap_frame in Hpg.
  destruct (tables_zeros t_mem 2 t_root eq_refl E0) as [Et Epm].
  destruct (mappages_ok t_root 0 0 t_page 22 t_ram t_free [] t_ram_ok eq_refl ltac:(lia) ltac:(done) Hpg
    ltac:(rewrite Z.mul_0_l, Z.add_0_r; exact Hpg) ltac:(lia)) as [_ Hm].
  destruct Hm as (r & s' & l' & j & E & Hr & Hres); [intros i _; apply Epm|].
  change (Z.of_nat 1 * PGSIZE) with PGSIZE in E. pose proof t_user_run as Hrun. unfold t_user. rewrite E in *.
  apply Z.eqb_eq in Hrun. subst r. destruct Hres as [[_ ->]|[? _]]; [|done]. cbn [ks].
  destruct Hr as (taken & m' & fl' & -> & Hl & Hs & Ht & Ho & Hg). rewrite mem_with in *.
  change (mem (kd t_ram)) with t_mem in *. rewrite Et in Ht, Ho. exists l'. split; [exact Hs|].
  assert (forall p, p ∈ taken -> p ∈ t_free) as Htk by (intros p Hp; rewrite Hl, elem_of_app; left; exact Hp).
  assert (forall p, p ∉ t_root :: t_free -> m' !! p = t_mem !! p) as Ho'.
  { intros p Hp. apply not_elem_of_cons in Hp as [H1 H2]. apply Ho; [intros Hin; exact (H2 (Htk p Hin))|]. intros Hin. apply H1, list_elem_of_singleton, Hin. }
  split; [intros p Hp; rewrite Hl, elem_of_app; right; exact Hp|]. split; [|split; [|split]].
  - intros p. rewrite Ht, elem_of_app. intros [Hp|Hp]; apply elem_of_cons; [right; exact (Htk p Hp)|left].
    apply list_elem_of_singleton, Hp.
  - rewrite Ho'; [exact Ep|exact t_page_out].
  - rewrite Ho'; [exact En|exact t_new_out].
  - intros va Hva. rewrite Hg by exact Hva. unfold with_range. destruct (_ && _); [reflexivity|apply Epm].
Qed.

Lemma t_entry va v : 0 <= va < MAXVA -> pmap (mem (kd t_user)) t_root va = Some v -> va / PGSIZE = 0 /\ v = t_pte.
Proof.
  intros Hva. destruct t_user_facts as (l & _ & _ & _ & _ & _ & Hg). rewrite Hg by exact Hva. unfold with_range.
  pose proof (Z.div_pos va PGSIZE (proj1 Hva) ltac:(done)). change (0 / PGSIZE) with 0. rewrite Z.sub_0_r.
  destruct (Z.leb_spec 0 (va / PGSIZE)), (Z.ltb_spec (va / PGSIZE) (Z.of_nat 1)); try discriminate.
  intros E. assert (va / PGSIZE = 0) as E0 by lia. rewrite E0, Z.mul_0_l, Z.add_0_r in E. split; [exact E0|]. injection E as <-. reflexivity.
Qed.

Lemma t_pte_page : PTE2PA t_pte = t_page /\ PTE_FLAGS t_pte ≠ PTE_V.
Proof. by vm_compute. Qed.

Lemma t_page_table : table_page (mem (kd t_user)) t_page /\ (t_page ∉ tables (mem (kd t_user)) 2 t_root).
Proof.
  destruct t_user_facts as (l & _ & _ & Ht & Hp & _). pose proof t_heap as Hh. do 2 apply Forall_cons in Hh as [_ Hh].
  apply Forall_cons in Hh as [Hpg _]. split.
  - split; [exact Hpg|]. exists (junk 7). split; [exact Hp|apply length_replicate].
  - intros Hin. exact (t_page_out (Ht _ Hin)).
Qed.

Lemma t_user_ok : user_ok (mem (kd t_user)) t_root.
Proof.
  destruct t_user_facts as (l & Hs & _). destruct t_page_table as [H1 H2]. split; [apply Hs|].
  intros va v Hva Hv _. destruct (t_entry va v Hva Hv) as [E ->]. rewrite (proj1 t_pte_page). split; [exact H1|]. split; [exact H2|].
  intros va' v' Hva' Hv' _. destruct (t_entry va' v' Hva' Hv') as [E' _]. by rewrite E, E'.
Qed.

Lemma copyin_correct_witness :
  exists r bs, copyin t_root 4000 200 (mkWorld t_user []) = Ok (r, bs) (mkWorld t_user []) /\
    (forall i c, bs !! i = Some c -> access (mem (kd t_user)) t_root (4000 + Z.of_nat i) = Some c) /\
    ((r = 0 /\ length bs = 200%nat) \/
     (r = -1 /\ (length bs < 200)%nat /\ access (mem (kd t_user)) t_root (4000 + Z.of_nat (length bs)) = None)).
Proof. apply (copyin_correct t_root 4000 200 t_user [] t_user_ok). lia. Defined.

Lemma copyout_correct_witness :
  exists r m' n, copyout t_root 4000 [1; 2; 3] (mkWorld t_user []) = Ok r (mkWorld (with_mem m' (freelist (kd t_user)) t_user) []) /\
    (forall va, pmap m' t_root va = pmap (mem (kd t_user)) t_root va) /\
    (forall va, 0 <= va -> access m' t_root va = overwritten (access (mem (kd t_user)) t_root) 4000 (take n [1; 2; 3]) va) /\
    (forall i, (i < n)%nat -> writable (mem (kd t_user)) t_root (4000 + Z.of_nat i)) /\
    ((r = 0 /\ n = length [1; 2; 3]) \/
     (r = -1 /\ (n < length [1; 2; 3])%nat /\ ~ writable (mem (kd t_user)) t_root (4000 + Z.of_nat n))).
Proof. apply (copyout_correct t_root 4000 [1; 2; 3] t_user [] t_user_ok). lia. Defined.

Lemma t_maps : maps (mem (kd t_user)) t_root 0 [t_pte].
Proof.
  destruct t_user_facts as (l & _ & _ & _ & _ & _ & Hg). intros [|i] v Hv; [|discriminate Hv]. injection Hv as <-.
  split; [|apply t_pte_page]. rewrite Hg by done. reflexivity.
Qed.

Lemma uvmunmap_correct_witness : exists l,
  freeable (mem (kd t_user)) t_root l [t_pte] /\
  exists s', uvmunmap t_root 0 (Z.of_nat (length [t_pte])) true (mkWorld t_user []) = Ok tt (mkWorld s' []) /\
    unmapped t_root t_user l s' (freed true [t_pte]) (hole 0 (length [t_pte]) (pmap (mem (kd t_user)) t_root)).
Proof.
  destruct t_user_facts as (l & Hs & Hl & _). exists l. destruct t_page_table as [H1 H2].
  assert (freeable (mem (kd t_user)) t_root l [t_pte]) as Hf.
  { unfold freeable. cbn [fmap list_fmap]. rewrite (proj1 t_pte_page). split; [constructor; [exact H1|constructor]|].
    cbn [app]. apply NoDup_cons. split; [|apply Hs]. rewrite elem_of_app. intros [Hin|Hin]; [|exact (H2 Hin)].
    apply t_page_out, elem_of_cons. right. exact (Hl _ Hin). }
  split; [exact Hf|]. apply (uvmunmap_correct t_root 0 [t_pte] true t_user l [] Hs).
  - reflexivity.
  - lia.
  - done.
  - exact t_maps.
  - intros _. exact Hf.
Defined.

(** The child's empty page table beside the parent's. *)
Lemma t_child : exists l, space_ok t_user l t_new /\ parent_ok (mem (kd t_user)) l t_root t_new [t_pte] /\
  (forall va, 0 <= va / PGSIZE < Z.of_nat (length [t_pte]) -> pmap (mem (kd t_user)) t_new va = None).
Proof.
  destruct t_user_facts as (l & Hs & Hl & Ht & Hp & Hn & _). destruct t_page_table as [H1 H2]. exists l.
  destruct (tables_zeros (mem (kd t_user)) 2 t_new eq_refl Hn) as [Et Epm].
  assert (forall p, p ∈ t_root :: t_free -> p ≠ t_new) as Hne by (intros p Hin ->; exact (t_new_out Hin)).
  pose proof Hs as (Hk & Htp & Hnd). split; [|split; [|intros va _; apply Epm]].
  - split; [exact Hk|]. rewrite Et. split.
    + constructor; [|constructor]. pose proof t_heap as Hh. apply Forall_cons in Hh as [_ Hh]. apply Forall_cons in Hh as [Hh _].
      split; [exact Hh|]. exists (junk 0). split; [exact Hn|apply length_replicate].
    + apply NoDup_app in Hnd as (Hnd & _). apply NoDup_app. split; [exact Hnd|]. split; [|apply NoDup_singleton].
      intros p Hin Hin'%list_elem_of_singleton. apply (Hne p); [apply elem_of_cons; right; exact (Hl _ Hin)|exact Hin'].
  - split; [exact Htp|]. split; [exact t_maps|]. cbn [fmap list_fmap]. rewrite (proj1 t_pte_page). split; [constructor; [apply H1|constructor]|].
    intros p. rewrite elem_of_app, Et, !list_elem_of_singleton. intros [Hin|E].
    + split; [|exact (Hne p (Ht p Hin))]. intros Hin'. apply NoDup_app in Hnd as (_ & Hd & _). exact (Hd p Hin' Hin).
    + rewrite E. split; [|done]. intros Hin. apply t_page_out, elem_of_cons. right. exact (Hl _ Hin).
Qed.

Lemma uvmcopy_correct_witness : exists l,
  exists r s' l', uvmcopy t_root t_new 100 (mkWorld t_user []) = Ok r (mkWorld s' []) /\ space_ok s' l' t_new /\
    (forall va, pmap (mem (kd s')) t_root va = pmap (mem (kd t_user)) t_root va) /\
    (forall p, p ∉ l -> p ∉ tables (mem (kd t_user)) 2 t_new -> mem (kd s') !! p = mem (kd t_user) !! p) /\
    ((r = 0 /\ forall va, 0 <= va < 100 ->
        user_byte (mem (kd s')) t_new va = user_byte (mem (kd t_user)) t_root va /\
        exists v w, pmap (mem (kd t_user)) t_root va = Some v /\ pmap (mem (kd s')) t_new va = Some w /\ PTE_FLAGS w = PTE_FLAGS v /\
          PTE2PA w ∈ l /\ PTE2PA w ∉ l') \/
     (r = -1 /\ (forall va, 0 <= va < MAXVA -> pmap (mem (kd s')) t_new va = pmap (mem (kd t_user)) t_new va) /\
      exists taken, l ≡ₚ taken ++ l' /\ tables (mem (kd s')) 2 t_new ≡ₚ taken ++ tables (mem (kd t_user)) 2 t_new)).
Proof.
  destruct t_child as (l & Hs & Hp & Hno). exists l.
  apply (uvmcopy_correct t_root t_new 100 [t_pte] t_user l [] Hs Hp).
  - done.
  - done.
  - exact Hno.
Defined.
