(* ===== verification/Proc.v ===== *)
(** * Processes

    The life of a process in kernel/proc.c: allocpid, allocproc, freeproc,
    proc_pagetable, userinit, growproc, fork, forkprio, reparent, exit, wait,
    forkret, either_copyout, either_copyin and procdump.  The file system is
    seen through the interface [FileSys]; the return to user space is one of
    its operations here.

    A process is the index of its slot in the table, as in [Switch]. *)

From S2P Require Import Prelude Prog State Spinlock Printf Switch CStr Kalloc Vm.

(** ** What processes use of the file system and of trap.c *)

Class FileSys := {
  filedup : nat -> M nat;
  idup : nat -> M nat;
  fileclose : nat -> M unit;
  begin_op : M unit;
  end_op : M unit;
  iput : nat -> M unit;
  namei : string -> M (option nat);
  fsinit : Z -> M unit;
  usertrapret : M unit
}.

Section proc.
Context `{LinkSyms, FileSys}.

(** ** The process table *)

Definition procinit : M unit :=
  initlock LPid "nextpid";;
  initlock LWait "wait_lock";;
  for_each (seq 0 NPROC) (fun p =>
    initlock (LProc p) "proc";;
    upd_proc p (set_p_state UNUSED);;
    upd_proc p (set_p_kstack (KSTACK (Z.of_nat p)))).

Definition allocpid : M Z :=
  acquire LPid;;
  pid ← getd nextpid;
  modd (set_nextpid (s32 (pid + 1)));;
  release LPid;;
  mret pid.

Definition proc_pagetable (p : nat) : M Z :=
  pagetable ← uvmcreate;
  if pagetable =? 0 then mret 0 else
  r ← mappages pagetable TRAMPOLINE PGSIZE sym_trampoline (Z.lor PTE_R PTE_X);
  if r <? 0 then uvmfree pagetable 0;; mret 0 else
  pr ← get_proc p;
  r ← mappages pagetable TRAPFRAME PGSIZE (p_trapframe pr) (Z.lor PTE_R PTE_W);
  if r <? 0 then uvmunmap pagetable TRAMPOLINE 1 false;; uvmfree pagetable 0;; mret 0 else
  mret pagetable.

Definition proc_freepagetable (pagetable sz : Z) : M unit :=
  uvmunmap pagetable TRAMPOLINE 1 false;;
  uvmunmap pagetable TRAPFRAME 1 false;;
  uvmfree pagetable sz.

Definition freeproc (p : nat) : M unit :=
  pr ← get_proc p;
  when (z2b (p_trapframe pr)) (kfree (p_trapframe pr));;
  upd_proc p (set_p_trapframe 0);;
  pr ← get_proc p;
  when (z2b (p_pagetable pr)) (proc_freepagetable (p_pagetable pr) (p_sz pr));;
  upd_proc p (set_p_pagetable 0);;
  upd_proc p (set_p_sz 0);;
  upd_proc p (set_p_pid 0);;
  upd_proc p (set_p_parent None);;
  upd_proc p (fun pr => set_p_name (<[0%nat := 0]> (p_name pr)) pr);;
  upd_proc p (set_p_chan CNull);;
  upd_proc p (set_p_killed 0);;
  upd_proc p (set_p_xstate 0);;
  upd_proc p (set_p_state UNUSED).

(** The search of allocproc for an UNUSED slot; found, its lock is kept. *)
Definition find_unused : M (option nat) :=
  for_find (seq 0 NPROC) (fun p =>
    acquire (LProc p);;
    pr ← get_proc p;
    if bool_decide (p_state pr = UNUSED) then mret (Some p)
    else release (LProc p);; mret None).

(** The rest of allocproc, from the label [found]. *)
Definition alloc_found (p : nat) : M (option nat) :=
  pid ← allocpid;
  upd_proc p (set_p_pid pid);;
  upd_proc p (set_p_state USED);;
  tf ← kalloc;
  upd_proc p (set_p_trapframe tf);;
  if tf =? 0 then freeproc p;; release (LProc p);; mret None else
  pt ← proc_pagetable p;
  upd_proc p (set_p_pagetable pt);;
  pr ← get_proc p;
  if p_pagetable pr =? 0 then freeproc p;; release (LProc p);; mret None else
  upd_proc p (set_p_context context0);;
  upd_proc p (fun pr => set_p_context (set_ctx_ra sym_forkret (p_context pr)) pr);;
  upd_proc p (fun pr => set_p_context (set_ctx_sp (u64 (p_kstack pr + PGSIZE)) (p_context pr)) pr);;
  upd_proc p (set_p_prioridade 3);;
  mret (Some p).

Definition allocproc : M (option nat) :=
  r ← find_unused;
  match r with
  | None => mret None
  | Some p => alloc_found p
  end.

(** ** Trap frames: the struct of proc.h, 36 words *)

Definition TF_SIZE : nat := 288.
Definition TF_epc : Z := 24.
Definition TF_sp : Z := 48.
Definition TF_a0 : Z := 112.

(** ** Creating processes *)

(** What fork and forkprio copy from the parent [p] to the child [np] after
    its memory: size, registers, open files, directory and name. *)
Definition copy_files (p np : nat) : M unit :=
  for_each (seq 0 NOFILE) (fun i =>
    pr ← get_proc p;
    match p_ofile pr !! i with
    | Some (Some f) =>
      f' ← filedup f;
      upd_proc np (fun nr => set_p_ofile (<[i := Some f']> (p_ofile nr)) nr)
    | _ => mret tt
    end).

Definition copy_proc (p np : nat) : M unit :=
  pr ← get_proc p;
  upd_proc np (set_p_sz (p_sz pr));;
  nr ← get_proc np;
  tf ← read_bytes (p_trapframe pr) TF_SIZE;
  write_bytes (p_trapframe nr) tf;;
  write64 (p_trapframe nr + TF_a0) 0;;
  copy_files p np;;
  pr ← get_proc p;
  cwd ← nonnull (p_cwd pr);
  cwd ← idup cwd;
  upd_proc np (set_p_cwd (Some cwd));;
  nr ← get_proc np;
  name ← the "safestrcpy" (safestrcpy (p_name nr) (p_name pr) 16);
  upd_proc np (set_p_name name).

(** Publishing the child: its parent, then its state. *)
Definition start_child (p np : nat) : M unit :=
  release (LProc np);;
  acquire LWait;;
  upd_proc np (set_p_parent (Some p));;
  release LWait;;
  acquire (LProc np);;
  upd_proc np (set_p_state RUNNABLE);;
  release (LProc np).

Definition fork (class : Z) : M Z :=
  p ← myproc;
  np ← allocproc;
  match np with
  | None => mret (-1)
  | Some np =>
    p ← nonnull p;
    upd_proc np (set_p_classe class);;
    pr ← get_proc p;
    nr ← get_proc np;
    r ← uvmcopy (p_pagetable pr) (p_pagetable nr) (p_sz pr);
    if r <? 0 then freeproc np;; release (LProc np);; mret (-1) else
    copy_proc p np;;
    nr ← get_proc np;
    let pid := p_pid nr in
    start_child p np;;
    mret pid
  end.

(** The tickets of the classes of forkprio. *)
Definition class_tickets (prio : Z) : Z :=
  if prio =? 0 then 100 else if prio =? 1 then 50 else if prio =? 2 then 250 else 10000.

Definition forkprio (prio : Z) : M Z :=
  p ← myproc;
  np ← allocproc;
  match np with
  | None => mret (-1)
  | Some np =>
    p ← nonnull p;
    upd_proc np (set_p_classe prio);;
    pr ← get_proc p;
    nr ← get_proc np;
    r ← uvmcopy (p_pagetable pr) (p_pagetable nr) (p_sz pr);
    if r <? 0 then
      acquire (LProc np);;
      freeproc np;;
      release (LProc np);;
      mret (-1)
    else
    copy_proc p np;;
    nr ← get_proc np;
    let pid := p_pid nr in
    upd_proc np (set_p_tickets (class_tickets prio));;
    upd_proc np (fun nr => set_p_stride (Z.quot 10000 (p_tickets nr)) nr);;
    upd_proc np (set_p_pass 0);;
    start_child p np;;
    mret pid
  end.

Definition initcode : list Z :=
  [0x17; 0x05; 0x00; 0x00; 0x13; 0x05; 0x45; 0x02;
   0x97; 0x05; 0x00; 0x00; 0x93; 0x85; 0x35; 0x02;
   0x93; 0x08; 0x70; 0x00; 0x73; 0x00; 0x00; 0x00;
   0x93; 0x08; 0x20; 0x00; 0x73; 0x00; 0x00; 0x00;
   0xef; 0xf0; 0x9f; 0xff; 0x2f; 0x69; 0x6e; 0x69;
   0x74; 0x00; 0x00; 0x24; 0x00; 0x00; 0x00; 0x00;
   0x00; 0x00; 0x00; 0x00].

Definition userinit : M unit :=
  p ← allocproc;
  modd (set_initproc p);;
  p ← nonnull p;
  pr ← get_proc p;
  uvmfirst (p_pagetable pr) initcode;;
  upd_proc p (set_p_sz PGSIZE);;
  write64 (p_trapframe pr + TF_epc) 0;;
  write64 (p_trapframe pr + TF_sp) PGSIZE;;
  pr ← get_proc p;
  name ← the "safestrcpy" (safestrcpy (p_name pr) (bytes_of "initcode" ++ [0]) 16);
  upd_proc p (set_p_name name);;
  cwd ← namei "/";
  upd_proc p (set_p_cwd cwd);;
  upd_proc p (set_p_state RUNNABLE);;
  release (LProc p).

Definition growproc (n : Z) : M Z :=
  p ← myproc;
  p ← nonnull p;
  pr ← get_proc p;
  let sz := p_sz pr in
  if 0 <? n then
    sz' ← uvmalloc (p_pagetable pr) sz (u64 (sz + n)) PTE_W;
    if sz' =? 0 then mret (-1) else
    upd_proc p (set_p_sz sz');; mret 0
  else if n <? 0 then
    sz' ← uvmdealloc (p_pagetable pr) sz (u64 (sz + n));
    upd_proc p (set_p_sz sz');; mret 0
  else
    upd_proc p (set_p_sz sz);; mret 0.

(** ** Ending processes *)

(** The channel a process pointer is. *)
Definition proc_chan (p : option nat) : channel :=
  match p with Some i => CProc i | None => CNull end.

Definition reparent (p : nat) : M unit :=
  for_each (seq 0 NPROC) (fun pp =>
    pr ← get_proc pp;
    when (bool_decide (p_parent pr = Some p)) (
      ip ← getd initproc;
      upd_proc pp (set_p_parent ip);;
      ip ← getd initproc;
      wakeup (proc_chan ip))).

Definition exit (status : Z) : M unit :=
  p ← myproc;
  ip ← getd initproc;
  if bool_decide (p = ip) then panic "init exiting" else
  p ← nonnull p;
  for_each (seq 0 NOFILE) (fun fd =>
    pr ← get_proc p;
    match p_ofile pr !! fd with
    | Some (Some f) =>
      fileclose f;;
      upd_proc p (fun pr => set_p_ofile (<[fd := None]> (p_ofile pr)) pr)
    | _ => mret tt
    end);;
  begin_op;;
  pr ← get_proc p;
  cwd ← nonnull (p_cwd pr);
  iput cwd;;
  end_op;;
  upd_proc p (set_p_cwd None);;
  acquire LWait;;
  reparent p;;
  pr ← get_proc p;
  wakeup (proc_chan (p_parent pr));;
  acquire (LProc p);;
  upd_proc p (set_p_xstate status);;
  upd_proc p (set_p_state ZOMBIE);;
  release LWait;;
  sched;;
  panic "zombie exit".

(** One scan of wait over the table: [inl] is the value wait returns, [inr]
    is [havekids] when the scan is over. *)
Fixpoint wait_scan (l : list nat) (p : nat) (addr : Z) (havekids : bool) : M (Z + bool) :=
  match l with
  | [] => mret (inr havekids)
  | pp :: l =>
    pr ← get_proc pp;
    if bool_decide (p_parent pr = Some p) then
      acquire (LProc pp);;
      pr ← get_proc pp;
      if bool_decide (p_state pr = ZOMBIE) then
        let pid := p_pid pr in
        me ← get_proc p;
        r ← (if negb (addr =? 0) then copyout (p_pagetable me) addr (le_split 4 (p_xstate pr)) else mret 0);
        if r <? 0 then
          release (LProc pp);;
          release LWait;;
          mret (inl (-1))
        else
          freeproc pp;;
          release (LProc pp);;
          release LWait;;
          mret (inl pid)
      else
        release (LProc pp);;
        wait_scan l p addr true
    else wait_scan l p addr havekids
  end.

Definition wait (addr : Z) : M Z :=
  p ← myproc;
  p ← nonnull p;
  acquire LWait;;
  wait_loop (
    r ← wait_scan (seq 0 NPROC) p addr false;
    match r with
    | inl v => mret (Some v)
    | inr havekids =>
      k ← (if negb havekids then mret 1 else killed p);
      if z2b k then release LWait;; mret (Some (-1)) else
      sleep (CProc p) LWait;;
      mret None
    end).

Definition forkret : M unit :=
  p ← myproc;
  p ← nonnull p;
  release (LProc p);;
  first ← getd forkret_first;
  when (z2b first) (
    fsinit ROOTDEV;;
    modd (set_forkret_first 0));;
  usertrapret.

(** ** Copies to and from the user or the kernel, and the listing *)

(** The result and, for a kernel destination, the bytes stored there. *)
Definition either_copyout (user_dst : bool) (dst : Z) (src : list Z) : M (Z * list Z) :=
  p ← myproc;
  if user_dst then
    p ← nonnull p;
    pr ← get_proc p;
    r ← copyout (p_pagetable pr) dst src;
    mret (r, [])
  else mret (0, src).

(** The source is a user address, or the bytes of a kernel buffer. *)
Definition either_copyin (src : Z + list Z) (len : nat) : M (Z * list Z) :=
  p ← myproc;
  match src with
  | inl va =>
    p ← nonnull p;
    pr ← get_proc p;
    copyin (p_pagetable pr) va len
  | inr bs => mret (0, take len bs)
  end.

Definition state_name (st : procstate) : string :=
  match st with
  | UNUSED => "unused"
  | USED => "used"
  | SLEEPING => "sleep "
  | RUNNABLE => "runble"
  | RUNNING => "run   "
  | ZOMBIE => "zombie"
  end.

Definition procdump : M unit :=
  printf "
" [];;
  for_each (seq 0 NPROC) (fun p =>
    pr ← get_proc p;
    if bool_decide (p_state pr = UNUSED) then mret tt else
    printf "%d %s %s" [AInt (p_pid pr); AStr (Some (bytes_of (state_name (p_state pr)))); AStr (Some (p_name pr))];;
    printf "
" [];;
    mret tt).

(** ** The lock allocproc returns with *)

(** If the program returns an object, the lock it started with is still held. *)
Definition ends_locked (lk : lockid) {A} (m : M (option A)) : Prop :=
  forall w, rely (lock_kept lk) w -> locked_here lk (ks w) ->
  match m w with Ok (Some _) w' => locked_here lk (ks w') /\ env w' `suffix_of` env w | _ => True end.

Lemma ends_locked_bind lk {A B} (m : M A) (k : A -> M (option B)) :
  guar (lock_kept lk) m -> (forall a, ends_locked lk (k a)) -> ends_locked lk (m ≫= k).
Proof.
  intros Hm Hk w Hr Hl. unfold mbind, Prog_bind. destruct (m w) as [a w'| | |] eqn:E; try done.
  destruct (guar_locked_here lk m w a w' Hm Hr E Hl) as [Hl' He].
  specialize (Hk a w' (rely_suffix _ w w' Hr He) Hl'). destruct (k a w') as [[b|] w2| | |]; try done.
  destruct Hk as [? ?]. split; [done|by etrans].
Qed.

Lemma ends_locked_ret lk {A} (a : option A) : ends_locked lk (mret a).
Proof. intros w Hr Hl. cbn. destruct a; [|done]. split; [done|reflexivity]. Qed.

(** A program that gives the lock up returns no object. *)
Lemma ends_locked_none lk {A B} (m : M B) (k : M unit) :
  ends_locked lk (m;; k;; mret (None : option A)).
Proof.
  intros w Hr Hl. unfold mbind, Prog_bind. destruct (m w) as [a w'| | |]; try done. by destruct (k w').
Qed.

Lemma kept_upd_proc lk p f : guar (lock_kept lk) (upd_proc p f).
Proof. unfold upd_proc, get_proc, getd. guar_auto. Qed.

Lemma kept_get_proc lk p : guar (lock_kept lk) (get_proc p).
Proof. unfold get_proc, getd. guar_auto. Qed.

Lemma kept_getd lk {A} (f : kdata -> A) : guar (lock_kept lk) (getd f).
Proof. unfold getd. guar_auto. Qed.

#[local] Hint Resolve kept_upd_proc kept_get_proc kept_getd : guar.

Lemma kept_allocpid p : guar (lock_kept (LProc p)) allocpid.
Proof. unfold allocpid. guar_auto. Qed.

Lemma kept_proc_pagetable p q : guar (lock_kept (LProc p)) (proc_pagetable q).
Proof. unfold proc_pagetable. guar_auto. Qed.

#[local] Hint Resolve kept_allocpid kept_proc_pagetable : guar.

Lemma alloc_found_locked p : ends_locked (LProc p) (alloc_found p).
Proof.
  unfold alloc_found. repeat (apply ends_locked_bind; [by auto with guar typeclass_instances|intros ?]).
  destruct (_ =? 0); [apply ends_locked_none|].
  repeat (apply ends_locked_bind; [by auto with guar typeclass_instances|intros ?]).
  destruct (_ =? 0); [apply ends_locked_none|].
  repeat (apply ends_locked_bind; [by auto with guar typeclass_instances|intros ?]). apply ends_locked_ret.
Qed.

Lemma alloc_found_same p w r w' : alloc_found p w = Ok (Some r) w' -> r = p.
Proof.
  unfold alloc_found, mbind, Prog_bind. intros E.
  repeat match type of E with context [match ?x with _ => _ end] => destruct x; try done end.
  by injection E.
Qed.

(** A hart that exists. *)
Definition hart_here (s : kstate) : Prop := (tp s < length (harts s))%nat /\ (tp s < length (cpus s))%nat.

Lemma hart_here_kept s s' : hart_here s -> hart_kept s s' -> hart_here s'.
Proof. intros [H1 H2] (E1 & E2 & E3). unfold hart_here. by rewrite E1, E2, E3. Qed.

Lemma find_unused_locked w p w' : find_unused w = Ok (Some p) w' -> rely hart_kept w -> hart_here (ks w) ->
  locked_here (LProc p) (ks w') /\ env w' `suffix_of` env w /\
  exists pr, procs (kd (ks w')) !! p = Some pr /\ p_state pr = UNUSED.
Proof.
  unfold find_unused. revert w. induction (seq 0 NPROC) as [|q l IH]; intros w E Hr Hh; [done|].
  cbn [for_find] in E. apply bind_Ok_inv in E as (r & w1 & E1 & E).
  apply bind_Ok_inv in E1 as ([] & w2 & Ha & E1). apply bind_Ok_inv in E1 as (pr & w3 & Hg & E1).
  assert (guar hart_kept (acquire (LProc q))) as Hga by auto with guar.
  pose proof (Hga w Hr) as Hw2. rewrite Ha in Hw2. destruct Hw2 as [Hk2 He2].
  assert (w3 = w2 /\ procs (kd (ks w2)) !! q = Some pr) as [-> Hpr].
  { unfold get_proc, getd in Hg. rewrite bind_gets in Hg.
    destruct (procs (kd (ks w2)) !! q); [|done]. by injection Hg as -> ->. }
  destruct (decide (p_state pr = UNUSED)) as [Hu|Hu].
  - rewrite bool_decide_eq_true_2 in E1 by done. injection E1 as <- <-. injection E as -> <-.
    split; [|split; [done|by exists pr]]. apply acquire_takes in Ha as [Hl Hc].
    destruct (hart_here_kept _ _ Hh Hk2). done.
  - rewrite bool_decide_eq_false_2 in E1 by done. apply bind_Ok_inv in E1 as ([] & w4 & Hrel & E1).
    injection E1 as <- <-. assert (guar hart_kept (release (LProc q))) as Hgr by auto with guar.
    pose proof (rely_suffix _ _ _ Hr He2) as Hr2.
    pose proof (Hgr w2 Hr2) as Hw4. rewrite Hrel in Hw4. destruct Hw4 as [Hk4 He4].
    destruct (IH w4 E (rely_suffix _ _ _ Hr2 He4)) as (Hl & He & Hx).
    { eapply hart_here_kept; [eapply hart_here_kept|]; done. }
    split; [done|]. split; [|done]. etrans; [exact He|]. by etrans.
Qed.

Lemma allocproc_locked w p w' : allocproc w = Ok (Some p) w' ->
  rely hart_kept w -> rely (lock_kept (LProc p)) w -> hart_here (ks w) ->
  locked_here (LProc p) (ks w') /\ env w' `suffix_of` env w.
Proof.
  intros E Hr Hrl Hh. unfold allocproc in E. apply bind_Ok_inv in E as (r & w1 & Hf & E).
  destruct r as [q|]; [|done]. pose proof (alloc_found_same q w1 p w' E) as ->.
  destruct (find_unused_locked w q w1 Hf Hr Hh) as (Hl & He & _).
  pose proof (alloc_found_locked q w1 (rely_suffix _ _ _ Hrl He) Hl) as H1. rewrite E in H1.
  destruct H1 as [? ?]. split; [done|by etrans].
Qed.

(** ** Theorems *)

(** C23: forkprio and memory exhaustion.  When the copy of the parent's memory
    fails, forkprio does not return -1: it acquires the lock of the child a
    second time, which stops the machine. *)
Theorem forkprio_nomem prio w p np w1 pr nr r w2 :
  hart_here (ks w) -> rely hart_kept w -> rely (lock_kept (LProc np)) w ->
  myproc w = Ok (Some p) w -> allocproc w = Ok (Some np) w1 ->
  procs (kd (mapd (at_proc np (set_p_classe prio)) (ks w1))) !! p = Some pr ->
  procs (kd (mapd (at_proc np (set_p_classe prio)) (ks w1))) !! np = Some nr ->
  uvmcopy (p_pagetable pr) (p_pagetable nr) (p_sz pr)
    (mkWorld (mapd (at_proc np (set_p_classe prio)) (ks w1)) (env w1)) = Ok r w2 -> r < 0 ->
  forkprio prio w = Panic "acquire".
Proof.
  intros Hh Hrh Hrl Hm Ha Hp Hnp Hu Hr. unfold forkprio.
  destruct (allocproc_locked w np w1 Ha Hrh Hrl Hh) as [Hl He].
  rewrite (bind_Ok _ _ _ _ _ Hm), (bind_Ok _ _ _ _ _ Ha). unfold nonnull. run.
  destruct w1 as [s1 e1]. cbn [ks env] in *.
  assert (exists nr0, procs (kd s1) !! np = Some nr0) as [nr0 Hnr0].
  { cbn in Hnp. rewrite list_lookup_alter_eq in Hnp. destruct (procs (kd s1) !! np); [by eexists|done]. }
  rewrite (bind_Ok _ _ _ _ _ (upd_proc_ok np _ nr0 s1 e1 Hnr0)).
  rewrite (bind_Ok _ _ _ _ _ (get_proc_ok p pr _ e1 Hp)), (bind_Ok _ _ _ _ _ (get_proc_ok np nr _ e1 Hnp)).
  rewrite (bind_Ok _ _ _ _ _ Hu). destruct (Z.ltb_spec r 0); [|lia].
  assert (rely (lock_kept (LProc np)) (mkWorld (mapd (at_proc np (set_p_classe prio)) s1) e1)) as Hr1
    by exact (rely_suffix _ w (mkWorld s1 e1) Hrl He).
  destruct (guar_locked_here (LProc np) _ _ _ _ (mem_uvmcopy _ _ _ _) Hr1 Hu Hl) as [Hl2 _].
  unfold mbind, Prog_bind. by rewrite (acquire_again (LProc np) w2 Hl2).
Qed.
End proc.

(** ** A small machine, for the witnesses

    A kernel that leaves [n] pages of RAM, and a file system that grants every
    request. *)

Definition small_syms (n : Z) : LinkSyms :=
  {| sym_end := PHYSTOP - n * PGSIZE; sym_etext := 0x80007000; sym_trampoline := 0x80006000;
     sym_uservec := 0x80006000; sym_userret := 0x8000609c; sym_kernelvec := 0x80005550;
     sym_forkret := 0x80001baa; sym_usertrap := 0x8000287e;
     sym_main := 0x80000e62 |}.

Definition granting_fs : FileSys :=
  {| filedup := fun f => mret f; idup := fun i => mret i; fileclose := fun _ => mret tt;
     begin_op := mret tt; end_op := mret tt; iput := fun _ => mret tt;
     namei := fun _ => mret (Some 0%nat); fsinit := fun _ => mret tt; usertrapret := mret tt |}.

Definition ram_pages (n : nat) (d : kdata) : kdata :=
  foldr (fun pa d => put_mem pa (junk 0) d) d (pages_from (PHYSTOP - Z.of_nat n * PGSIZE) n).

(** Boot with [n] pages, up to the first process, then run it. *)
Definition boot_small (n : nat) : M unit :=
  @kinit (small_syms (Z.of_nat n));;
  procinit;;
  @userinit (small_syms (Z.of_nat n)) granting_fs;;
  upd_cpu 0 (set_c_proc (Some 0%nat)).

Definition booted (n : nat) : world kstate :=
  match boot_small n (mkWorld (mapd (ram_pages n) kstate0) []) with
  | Ok _ w => w
  | _ => mkWorld kstate0 []
  end.

(** With 11 pages a second process gets its trap frame and its page table, and
    no page is left for its memory. *)
Definition nomem_run (w : world kstate) : option bool :=
  match @allocproc (small_syms 11) w with
  | Ok (Some 1%nat) w1 =>
    let s1 := mapd (at_proc 1 (set_p_classe 2)) (ks w1) in
    pr ← procs (kd s1) !! 0%nat;
    nr ← procs (kd s1) !! 1%nat;
    match @uvmcopy (small_syms 11) (p_pagetable pr) (p_pagetable nr) (p_sz pr) (mkWorld s1 (env w1)) with
    | Ok r _ => Some (r <? 0)
    | _ => None
    end
  | _ => None
  end.

Lemma nomem_run_fails : nomem_run (booted 11) = Some true.
Proof. vm_compute. reflexivity. Qed.

Lemma booted11_here : hart_here (ks (booted 11)) /\ env (booted 11) = [] /\ cur (ks (booted 11)) = Some 0%nat.
Proof. vm_compute. split; [split; repeat constructor|]. split; reflexivity. Qed.

Lemma booted11_settled : settled (ks (booted 11)) /\ noff (ks (booted 11)) = 0.
Proof.
  split; [|vm_compute; reflexivity]. split; [|split].
  - destruct booted11_here as [[H1 H2] _]. split; [by apply lookup_lt_is_Some|]. split; [by apply lookup_lt_is_Some|].
    assert (noff (ks (booted 11)) = 0) as -> by (vm_compute; reflexivity). lia.
  - intros _. vm_compute. reflexivity.
  - assert (noff (ks (booted 11)) = 0) as -> by (vm_compute; reflexivity). lia.
Qed.

Lemma booted11_myproc : myproc (booted 11) = Ok (Some 0%nat) (booted 11).
Proof.
  generalize booted11_settled, (proj2 (proj2 booted11_here)). generalize (booted 11).
  intros [s e] [Hs Hn] Hc. cbn [ks] in *. rewrite myproc_ok; [by rewrite Hc|done|lia].
Qed.

Lemma nomem_run_inv w :
  nomem_run w = Some true ->
  exists w1 pr nr r w2,
    @allocproc (small_syms 11) w = Ok (Some 1%nat) w1 /\
    procs (kd (mapd (at_proc 1 (set_p_classe 2)) (ks w1))) !! 0%nat = Some pr /\
    procs (kd (mapd (at_proc 1 (set_p_classe 2)) (ks w1))) !! 1%nat = Some nr /\
    @uvmcopy (small_syms 11) (p_pagetable pr) (p_pagetable nr) (p_sz pr)
      (mkWorld (mapd (at_proc 1 (set_p_classe 2)) (ks w1)) (env w1)) = Ok r w2 /\ r < 0.
Proof.
  unfold nomem_run. destruct (allocproc w) as [[[|[|?]]|] w1| | |]; try discriminate.
  cbv zeta. set (s1 := mapd _ _).
  destruct (procs (kd s1) !! 0%nat) as [pr|] eqn:Ep; [|discriminate].
  destruct (procs (kd s1) !! 1%nat) as [nr|] eqn:En; [|discriminate].
  cbn [mbind option_bind].
  destruct (uvmcopy _ _ _ _) as [r w2| | |] eqn:Eu; try discriminate.
  intros T. injection T as T. apply Z.ltb_lt in T. eauto 10.
Qed.

Lemma forkprio_nomem_witness : @forkprio (small_syms 11) granting_fs 2 (booted 11) = Panic "acquire".
Proof.
  destruct (nomem_run_inv _ nomem_run_fails) as (w1 & pr & nr & r & w2 & Ha & Hp & Hn & Hu & Hr).
  apply (forkprio_nomem (H := small_syms 11) (H0 := granting_fs) 2 (booted 11) 0 1 w1 pr nr r w2);
    [apply booted11_here|unfold rely; rewrite (proj1 (proj2 booted11_here)); constructor..| | | | | |].
  - apply booted11_myproc.
  - exact Ha.
  - exact Hp.
  - exact Hn.
  - exact Hu.
  - exact Hr.
Defined.
