(* ===== verification/Sleeplock.v ===== *)
(** * Sleep locks

    kernel/sleeplock.c.  A sleep lock lives in a buffer or in an inode; it is
    named by its owner, and the spinlock and the channel it uses are those of
    the owner. *)

From S2P Require Import Prelude Prog State Spinlock Switch.

Inductive slid :=
| SBuf (i : nat)        (* bcache.buf[i].lock *)
| SInode (i : nat).     (* itable.inode[i].lock *)

#[export] Instance slid_eq_dec : EqDecision slid.
Proof. solve_decision. Defined.

(** [&lk->lk] and the channel [lk]. *)
Definition sl_spin (lk : slid) : lockid := match lk with SBuf i => LBuf i | SInode i => LInode i end.
Definition sl_chan (lk : slid) : channel := match lk with SBuf i => CBufLock i | SInode i => CInodeLock i end.

(** ** Access to buffers, inodes and the locks in them *)

Definition get_buf (b : nat) : M buf := bs ← getd bufs; the "buffer" (bs !! b).
Definition upd_buf (b : nat) (f : buf -> buf) : M unit :=
  _ ← get_buf b; modd (fun d => set_bufs (alter f b (bufs d)) d).

Definition get_inode (i : nat) : M inode := l ← getd itable; the "inode" (l !! i).
Definition upd_inode (i : nat) (f : inode -> inode) : M unit :=
  _ ← get_inode i; modd (fun d => set_itable (alter f i (itable d)) d).

Definition get_sl (lk : slid) : M sleeplock :=
  match lk with
  | SBuf i => b ← get_buf i; mret (b_lock b)
  | SInode i => ip ← get_inode i; mret (i_lock ip)
  end.

Definition upd_sl (lk : slid) (f : sleeplock -> sleeplock) : M unit :=
  match lk with
  | SBuf i => upd_buf i (fun b => set_b_lock (f (b_lock b)) b)
  | SInode i => upd_inode i (fun ip => set_i_lock (f (i_lock ip)) ip)
  end.

(** ** sleeplock.c *)

Definition initsleeplock (lk : slid) (name : string) : M unit :=
  initlock (sl_spin lk) "sleep lock";;
  upd_sl lk (set_sl_name name);;
  upd_sl lk (set_sl_locked 0);;
  upd_sl lk (set_sl_pid 0).

Definition acquiresleep (lk : slid) : M unit :=
  acquire (sl_spin lk);;
  wait_loop (
    l ← get_sl lk;
    if z2b (sl_locked l) then sleep (sl_chan lk) (sl_spin lk);; mret None
    else mret (Some tt));;
  upd_sl lk (set_sl_locked 1);;
  p ← myproc;
  p ← nonnull p;
  pr ← get_proc p;
  upd_sl lk (set_sl_pid (p_pid pr));;
  release (sl_spin lk).

Definition releasesleep (lk : slid) : M unit :=
  acquire (sl_spin lk);;
  upd_sl lk (set_sl_locked 0);;
  upd_sl lk (set_sl_pid 0);;
  wakeup (sl_chan lk);;
  release (sl_spin lk).

Definition holdingsleep (lk : slid) : M bool :=
  acquire (sl_spin lk);;
  l ← get_sl lk;
  r ← (if z2b (sl_locked l) then
         p ← myproc; p ← nonnull p; pr ← get_proc p; mret (sl_pid l =? p_pid pr)
       else mret false);
  release (sl_spin lk);;
  mret r.

(** ** Effects *)

(** The lock of [lk] in the data, and a change of it. *)
Definition sl_of (d : kdata) (lk : slid) : option sleeplock :=
  match lk with
  | SBuf i => b_lock <$> bufs d !! i
  | SInode i => i_lock <$> itable d !! i
  end.

Definition at_buf (b : nat) (f : buf -> buf) (d : kdata) : kdata := set_bufs (alter f b (bufs d)) d.
Definition at_inode (i : nat) (f : inode -> inode) (d : kdata) : kdata := set_itable (alter f i (itable d)) d.

Definition at_sl (lk : slid) (f : sleeplock -> sleeplock) : kdata -> kdata :=
  match lk with
  | SBuf i => at_buf i (fun b => set_b_lock (f (b_lock b)) b)
  | SInode i => at_inode i (fun ip => set_i_lock (f (i_lock ip)) ip)
  end.

Definition sl_take (pid : Z) (l : sleeplock) : sleeplock := set_sl_pid pid (set_sl_locked 1 l).
Definition sl_drop (l : sleeplock) : sleeplock := set_sl_pid 0 (set_sl_locked 0 l).

(** This hart runs the process in slot [p] and holds no lock; the locks the
    kernel made at boot are free. *)
Record calm (p : nat) (s : kstate) : Prop := {
  calm_settled : settled s;
  calm_noff : noff s = 0;
  calm_cur : cur s = Some p;
  calm_free lk : lk ∈ all_locks -> is_free s lk
}.

(** The process in slot [p] has the identifier [pid]. *)
Definition known (p : nat) (pid : Z) (d : kdata) : Prop :=
  length (procs d) = NPROC /\ exists pr, procs d !! p = Some pr /\ p_pid pr = pid.

Lemma calm_mapd p f s : calm p s -> calm p (mapd f s).
Proof. intros [? ? ? H]. by split. Qed.

Lemma calm_depth p s k : calm p s -> 0 < k -> noff s < k.
Proof. intros H Hk. rewrite (calm_noff p s H). lia. Qed.

#[export] Hint Resolve calm_mapd calm_settled calm_free : xv6.
#[export] Hint Extern 1 (noff _ < _) => (eapply calm_depth; [eassumption|lia]) : xv6.

Lemma get_buf_ok b bp s e : bufs (kd s) !! b = Some bp -> get_buf b (mkWorld s e) = Ok bp (mkWorld s e).
Proof. intros H. unfold get_buf, getd. run. by rewrite H. Qed.

Lemma upd_buf_ok b f bp s e : bufs (kd s) !! b = Some bp ->
  upd_buf b f (mkWorld s e) = Ok tt (mkWorld (mapd (at_buf b f) s) e).
Proof. intros H. unfold upd_buf, modd. step get_buf_ok. by run. Qed.

Lemma get_inode_ok i ip s e : itable (kd s) !! i = Some ip -> get_inode i (mkWorld s e) = Ok ip (mkWorld s e).
Proof. intros H. unfold get_inode, getd. run. by rewrite H. Qed.

Lemma upd_inode_ok i f ip s e : itable (kd s) !! i = Some ip ->
  upd_inode i f (mkWorld s e) = Ok tt (mkWorld (mapd (at_inode i f) s) e).
Proof. intros H. unfold upd_inode, modd. step get_inode_ok. by run. Qed.

Lemma get_sl_ok lk l s e : sl_of (kd s) lk = Some l -> get_sl lk (mkWorld s e) = Ok l (mkWorld s e).
Proof.
  destruct lk; cbn; intros H; apply fmap_Some in H as (x & H & ->).
  - by step get_buf_ok.
  - by step get_inode_ok.
Qed.

Lemma upd_sl_ok lk f l s e : sl_of (kd s) lk = Some l ->
  upd_sl lk f (mkWorld s e) = Ok tt (mkWorld (mapd (at_sl lk f) s) e).
Proof.
  destruct lk; cbn; intros H; apply fmap_Some in H as (x & H & ->).
  - by eapply upd_buf_ok.
  - by eapply upd_inode_ok.
Qed.

Lemma sl_of_at lk f l d : sl_of d lk = Some l -> sl_of (at_sl lk f d) lk = Some (f l).
Proof.
  destruct lk; cbn; intros H; apply fmap_Some in H as (x & H & ->);
    by rewrite list_lookup_alter_eq, H.
Qed.

Lemma at_buf_at_buf b f g d : at_buf b f (at_buf b g d) = at_buf b (fun x => f (g x)) d.
Proof.
  unfold at_buf. destruct d. unfold set_bufs. cbn. f_equal. apply list_alter_alter.
Qed.

Lemma at_inode_at_inode i f g d : at_inode i f (at_inode i g d) = at_inode i (fun x => f (g x)) d.
Proof.
  unfold at_inode. destruct d. unfold set_itable. cbn. f_equal. apply list_alter_alter.
Qed.

Lemma at_sl_at_sl lk f g d : at_sl lk f (at_sl lk g d) = at_sl lk (fun l => f (g l)) d.
Proof. destruct lk; cbn [at_sl]; rewrite ?at_buf_at_buf, ?at_inode_at_inode; done. Qed.

#[export] Hint Resolve sl_of_at : xv6.

Section calm.
Context (p : nat) (pid : Z) (lk : slid) (l : sleeplock) (s : kstate) (e : list (kstate -> kstate)).
Context (Hc : calm p s) (Hlk : sl_spin lk ∈ all_locks) (Hl : sl_of (kd s) lk = Some l).

Lemma acquire_calm lid : lid ∈ all_locks -> acquire lid (mkWorld s e) = Ok tt (mkWorld (acq lid s) e).
Proof using Hc. intros H. apply acquire_ok; [apply Hc|]. apply free_locked. by apply Hc. Qed.

Lemma release_calm lid f : lid ∈ all_locks ->
  release lid (mkWorld (mapd f (acq lid s)) e) = Ok tt (mkWorld (mapd f s) e).
Proof using Hc. intros H. apply release_mapd_acq; [apply Hc|eauto with xv6|by apply Hc]. Qed.

(** Inside a critical section. *)
Lemma myproc_calm lid f : lid ∈ all_locks ->
  myproc (mkWorld (mapd f (acq lid s)) e) = Ok (Some p) (mkWorld (mapd f (acq lid s)) e).
Proof using Hc.
  intros H. rewrite myproc_ok.
  - change (cur (mapd f (acq lid s))) with (cur (acq lid s)). rewrite cur_acq by apply Hc.
    by rewrite (calm_cur p s Hc).
  - apply (settled_acq lid s); [apply Hc|eauto with xv6].
  - change (noff (acq lid s) < 2147483646). rewrite noff_acq by apply Hc. rewrite (calm_noff p s Hc). lia.
Qed.

Lemma wakeup_calm chan lid f : lid ∈ all_locks -> (forall q, lid ≠ LProc q) -> length (procs (kd (mapd f s))) = NPROC ->
  wakeup chan (mkWorld (mapd f (acq lid s)) e) =
  Ok tt (mkWorld (mapd (fun d => all_procs (wake_eff chan (Some p)) (f d)) (acq lid s)) e).
Proof using Hc.
  intros H Hq Ht. rewrite wakeup_ok.
  - change (cur (mapd f (acq lid s))) with (cur (acq lid s)). rewrite cur_acq by apply Hc.
    by rewrite (calm_cur p s Hc), mapd_mapd.
  - apply (settled_acq lid s); [apply Hc|eauto with xv6].
  - change (noff (acq lid s) < 2147483645). rewrite noff_acq by apply Hc. rewrite (calm_noff p s Hc). lia.
  - exact Ht.
  - intros q Hq' _. change (is_free (acq lid s) (LProc q)). apply is_free_acq_ne; [apply Hq|].
    apply Hc. apply elem_of_app. left. apply list_elem_of_fmap. exists q. split; [done|]. apply elem_of_seq. lia.
Qed.

Lemma acquiresleep_ok : known p pid (kd s) -> sl_locked l = 0 ->
  acquiresleep lk (mkWorld s e) = Ok tt (mkWorld (mapd (at_sl lk (sl_take pid)) s) e).
Proof using Hc Hlk Hl.
  intros (Ht & pr & Hpr & Hpid) H0. unfold acquiresleep. rewrite (bind_Ok _ _ _ _ _ (acquire_calm _ Hlk)).
  rewrite (bind_Ok _ _ _ tt (mkWorld (acq (sl_spin lk) s) e)).
  2: { apply wait_loop_once. rewrite (bind_Ok _ _ _ _ _ (get_sl_ok lk l (acq (sl_spin lk) s) e Hl)). by rewrite H0. }
  rewrite (bind_Ok _ _ _ _ _ (upd_sl_ok lk _ l (acq (sl_spin lk) s) e Hl)).
  rewrite (bind_Ok _ _ _ _ _ (myproc_calm _ _ Hlk)). unfold nonnull. run.
  rewrite (bind_Ok _ _ _ pr (mkWorld (mapd (at_sl lk (set_sl_locked 1)) (acq (sl_spin lk) s)) e)).
  2: { apply get_proc_ok. destruct lk; exact Hpr. }
  erewrite bind_Ok by (eapply upd_sl_ok; exact (sl_of_at lk _ l (kd s) Hl)).
  rewrite mapd_mapd, release_calm by done. do 2 f_equal. unfold mapd. cbn [kd]. by rewrite at_sl_at_sl, Hpid.
Qed.

Lemma releasesleep_ok : length (procs (kd s)) = NPROC ->
  releasesleep lk (mkWorld s e) =
  Ok tt (mkWorld (mapd (fun d => all_procs (wake_eff (sl_chan lk) (Some p)) (at_sl lk sl_drop d)) s) e).
Proof using Hc Hlk Hl.
  intros Ht. unfold releasesleep. rewrite (bind_Ok _ _ _ _ _ (acquire_calm _ Hlk)).
  rewrite (bind_Ok _ _ _ _ _ (upd_sl_ok lk _ l (acq (sl_spin lk) s) e Hl)).
  erewrite bind_Ok by (eapply upd_sl_ok; exact (sl_of_at lk _ l (kd s) Hl)).
  rewrite mapd_mapd. erewrite bind_Ok by (apply wakeup_calm; [done|by destruct lk|by destruct lk]).
  rewrite release_calm by done. do 2 f_equal. unfold mapd. cbn [kd]. by rewrite at_sl_at_sl.
Qed.

Lemma holdingsleep_ok : known p pid (kd s) ->
  holdingsleep lk (mkWorld s e) = Ok (z2b (sl_locked l) && (sl_pid l =? pid)) (mkWorld s e).
Proof using Hc Hlk Hl.
  intros (Ht & pr & Hpr & Hpid). unfold holdingsleep. rewrite (bind_Ok _ _ _ _ _ (acquire_calm _ Hlk)).
  rewrite (bind_Ok _ _ _ _ _ (get_sl_ok lk l (acq (sl_spin lk) s) e Hl)).
  rewrite (bind_Ok _ _ _ (z2b (sl_locked l) && (sl_pid l =? pid)) (mkWorld (acq (sl_spin lk) s) e)).
  - rewrite (bind_Ok _ _ _ _ _ (release_acq (sl_spin lk) s e ltac:(apply Hc) ltac:(eauto with xv6) ltac:(by apply Hc))).
    by run.
  - destruct (z2b (sl_locked l)); [|done]. replace (acq (sl_spin lk) s) with (mapd id (acq (sl_spin lk) s)) by apply mapd_id.
    rewrite (bind_Ok _ _ _ _ _ (myproc_calm _ _ Hlk)). unfold nonnull. run.
    rewrite (bind_Ok _ _ _ _ _ (get_proc_ok p pr (mapd id (acq (sl_spin lk) s)) e Hpr)). by rewrite Hpid.
Qed.
End calm.

(** ** Theorems *)

(** A loop whose body never leaves it while [I] holds, in an environment that
    keeps [I], does not return. *)
Lemma loop_no_return {A} (I : kstate -> Prop) (body : M (option A)) n w :
  guar (keeps I) body -> (forall w1 a w2, rely (keeps I) w1 -> I (ks w1) -> body w1 ≠ Ok (Some a) w2) ->
  rely (keeps I) w -> I (ks w) -> forall a w', loop n body w ≠ Ok a w'.
Proof.
  intros Hg Hb. revert w. induction n as [|n IH]; intros w Hr HI a w'; [done|]. cbn [loop].
  unfold mbind, Prog_bind. specialize (Hg w Hr). destruct (body w) as [[r|] w1| | |] eqn:E; try done.
  - by destruct (Hb w r w1).
  - destruct Hg as [HI1 He]. apply IH; [by eapply rely_suffix|by apply HI1].
Qed.

Definition sl_taken (lk : slid) (s : kstate) : Prop :=
  match sl_of (kd s) lk with Some l => sl_locked l ≠ 0 | None => True end.

#[export] Instance sl_taken_data lk : DataRel (keeps (sl_taken lk)).
Proof. intros s s' E. unfold keeps, sl_taken. by rewrite E. Qed.

Lemma guar_upd_proc_taken lk q f : guar (keeps (sl_taken lk)) (upd_proc q f).
Proof.
  unfold upd_proc, get_proc. guar_auto. apply guar_modd; [apply _..|]. intros s H. by destruct lk.
Qed.

Lemma guar_sleep_taken lk chan lid : guar (keeps (sl_taken lk)) (sleep chan lid).
Proof.
  unfold sleep, sched, myproc, mycpu, cpuid, swtch, nonnull, get_proc. guar_auto; apply guar_upd_proc_taken.
Qed.

(** Mutual exclusion of sleep locks.  While the rest of the machine
    keeps the sleep lock taken, a process that asks for it does not get it:
    acquiresleep does not return, however long it waits. *)
Theorem acquiresleep_excluded lk l s e :
  sl_of (kd s) lk = Some l -> sl_locked l ≠ 0 ->
  Forall (fun f => forall s, sl_taken lk s -> sl_taken lk (f s)) e ->
  forall w, acquiresleep lk (mkWorld s e) ≠ Ok tt w.
Proof.
  intros Hl H0 He w Hw. assert (sl_taken lk s) as HI by (unfold sl_taken; by rewrite Hl).
  apply bind_Ok_inv in Hw as ([] & w1 & Ha & Hw).
  pose proof (guar_acquire (keeps (sl_taken lk)) (sl_spin lk) (mkWorld s e) He) as Hg.
  rewrite Ha in Hg. destruct Hg as [HI1 Hs]. apply bind_Ok_inv in Hw as ([] & w2 & Hloop & _).
  revert Hloop. unfold wait_loop. apply (loop_no_return (sl_taken lk)).
  - unfold get_sl, get_buf, get_inode. guar_auto. apply guar_sleep_taken.
  - clear. intros w [] w2 _ HI E. apply bind_Ok_inv in E as (l & w1 & E1 & E2).
    assert (sl_of (kd (ks w)) lk = Some l) as Hl.
    { destruct lk as [i|i]; cbn in *; unfold get_buf, get_inode, getd in E1; autorewrite with run in E1.
      - destruct (bufs (kd (ks w)) !! i); [|done]. by injection E1 as <- _.
      - destruct (itable (kd (ks w)) !! i); [|done]. by injection E1 as <- _. }
    unfold sl_taken in HI. rewrite Hl, z2b_nonzero in *; [|done..].
    apply bind_Ok_inv in E2 as ([] & w3 & _ & E2). done.
  - exact (rely_suffix _ (mkWorld s e) w1 He Hs).
  - by apply HI1.
Qed.

(** Process 0 asks for a buffer that another process has locked. *)
Definition buf_taken : kstate := mapd (at_sl (SBuf 3) (sl_take 7)) running0.

Lemma acquiresleep_excluded_witness : ~ exists w, acquiresleep (SBuf 3) (mkWorld buf_taken [fun s => s]) = Ok tt w.
Proof.
  intros [w Hw]. revert Hw. apply (acquiresleep_excluded (SBuf 3) (sl_take 7 sleeplock0)).
  - reflexivity.
  - done.
  - by repeat constructor.
Defined.
