(* ===== verification/Sleep.v ===== *)
(** * What runs while a process sleeps

    A process that sleeps leaves its hart to the scheduler, which runs other
    code and comes back when the sleeper is runnable.  [away] is that stretch,
    with the other code as a parameter; [sleep_away] says what the sleeper finds
    when it is back.  The drivers whose processes wait for a device use it. *)

From S2P Require Import Prelude Prog State Spinlock Switch Dispatch Sleeplock.

Implicit Types (s t : kstate) (d : kdata).

(** ** States inside a critical section *)

(** [t] with the variables [d] *)
Definition wkd d t : kstate := mapd (fun _ => d) t.

Lemma wkd_self s : wkd (kd s) s = s.
Proof. apply mapd_id. Qed.

Lemma acq_wkd lk d s : acq lk (wkd d s) = wkd d (acq lk s).
Proof. apply acq_mapd. Qed.

Lemma getd_wkd {A} (f : kdata -> A) d t e : getd f (mkWorld (wkd d t) e) = Ok (f d) (mkWorld (wkd d t) e).
Proof. done. Qed.

Lemma modd_wkd f d t e : modd f (mkWorld (wkd d t) e) = Ok tt (mkWorld (wkd (f d) t) e).
Proof. done. Qed.

(** A hart that holds no lock, while the locks are free *)
Record quiet s : Prop := {
  qt_settled : settled s;
  qt_noff : noff s = 0;
  qt_free lk : lk ∈ all_locks -> is_free s lk
}.

Lemma calm_quiet p s : calm p s -> quiet s.
Proof. intros [A B _ D]. by split. Qed.

Lemma quiet_wkd d s : quiet s -> quiet (wkd d s).
Proof. intros [A B D]. by split. Qed.

Lemma all_locks_proc q : (q < NPROC)%nat -> LProc q ∈ all_locks.
Proof. intros Hq. apply elem_of_app. left. apply list_elem_of_fmap. exists q. split; [done|]. apply elem_of_seq. lia. Qed.

(** A lock that is not a process's *)
Definition lone (lk : lockid) : Prop := lk ∈ all_locks /\ forall q, lk <> LProc q.

Lemma lone_single lk : lk ∈ [LPid; LWait; LKmem; LTicks; LCons; LUartTx; LPr; LBcache; LItable; LFtable; LLog; LVdisk] -> lone lk.
Proof. intros H. split; [by apply all_locks_single|]. intros q ->. set_solver. Qed.

Section quiet.
Context (s : kstate) (Q : quiet s).

Lemma acquire_quiet lk e : lk ∈ all_locks -> acquire lk (mkWorld s e) = Ok tt (mkWorld (acq lk s) e).
Proof using Q. intros H. apply acquire_ok; [apply Q|]. apply free_locked. by apply Q. Qed.

Lemma release_quiet lk d e : lk ∈ all_locks -> release lk (mkWorld (wkd d (acq lk s)) e) = Ok tt (mkWorld (wkd d s) e).
Proof using Q. intros H. apply release_mapd_acq; [apply Q|rewrite (qt_noff s Q); lia|by apply Q]. Qed.

(** wakeup, called with a lock *)
Lemma wakeup_quiet lk chan d e : lone lk -> length (procs d) = NPROC ->
  wakeup chan (mkWorld (wkd d (acq lk s)) e) =
  Ok tt (mkWorld (wkd (all_procs (wake_eff chan (cur s)) d) (acq lk s)) e).
Proof using Q.
  intros [Hl Hq] Ht. rewrite wakeup_ok.
  - change (cur (wkd d (acq lk s))) with (cur (acq lk s)). by rewrite cur_acq by apply Q.
  - apply (settled_acq lk s); [apply Q|rewrite (qt_noff s Q); lia].
  - change (noff (acq lk s) < 2147483645). rewrite noff_acq by apply Q. rewrite (qt_noff s Q). lia.
  - exact Ht.
  - intros q Hlt _. change (is_free (acq lk s) (LProc q)). apply is_free_acq_ne; [by apply not_eq_sym|]. by apply Q, all_locks_proc.
Qed.
End quiet.

(** ** The hart while a process sleeps *)

(** The hart from the sleeper's [swtch] to the one that resumes it: the
    scheduler's loop, with [mid] in between; it picks the sleeper if it is
    runnable. *)
Definition away (p : nat) (mid : M unit) : M unit :=
  c ← cpuid;
  upd_cpu c (set_c_proc None);;
  release (LProc p);;
  mid;;
  acquire (LProc p);;
  pr ← get_proc p;
  if bool_decide (p_state pr = RUNNABLE) then
    upd_proc p (set_p_state RUNNING);;
    upd_cpu c (set_c_proc (Some p))
  else fault "not picked".

(** A step of the environment that runs [m], if it comes to its end *)
Definition running (m : M unit) s : kstate := match m (mkWorld s []) with Ok _ w => ks w | _ => s end.

Lemma quiet_set_cur o s : quiet s -> quiet (set_cur o s).
Proof.
  intros [A B D]. split; [by apply settled_set_cur|by rewrite noff_set_cur by apply A|].
  intros lk Hlk. by destruct (D lk Hlk) as [n Hn]; exists n.
Qed.

(** The variables when the sleeper is back *)
Definition back (p : nat) (chan : channel) (G : kdata -> kdata) d : kdata :=
  at_proc p (set_p_chan CNull) (at_proc p (set_p_state RUNNING) (G (at_proc p (parked chan) d))).

Section away.
Context (p : nat) (s : kstate) (Hc : calm p s) (Hp : (p < NPROC)%nat).
Context (mid : M unit) (G : kdata -> kdata).

Lemma away_ok d chan pr : procs d !! p = Some pr ->
  mid (mkWorld (wkd (at_proc p (parked chan) d) (set_cur None s)) []) =
    Ok tt (mkWorld (wkd (G (at_proc p (parked chan) d)) (set_cur None s)) []) ->
  (exists pr', procs (G (at_proc p (parked chan) d)) !! p = Some pr' /\ p_state pr' = RUNNABLE) ->
  running (away p mid) (sleeping chan p (wkd d s)) =
  acq (LProc p) (wkd (at_proc p (set_p_state RUNNING) (G (at_proc p (parked chan) d))) s).
Proof using Hc Hp.
  intros Hpr Hm (pr' & Hpr' & Hst). pose proof (calm_quiet p s Hc) as Q. pose proof (qt_settled s Q) as [Ho _].
  pose proof Ho as (_ & Hcp & _). pose proof (quiet_set_cur None s Q) as Q0. pose proof (all_locks_proc p Hp) as Hl.
  assert (is_Some (cpus (acq (LProc p) s) !! tp (acq (LProc p) s))) as Hcq by (apply (hart_ok_acq (LProc p) s Ho); rewrite (qt_noff s Q); lia).
  unfold running, away, sleeping. rewrite acq_wkd. set (d1 := at_proc p (parked chan) d) in *.
  change (mapd (at_proc p (parked chan)) (wkd d (acq (LProc p) s))) with (wkd d1 (acq (LProc p) s)).
  unfold cpuid. run. change (tp (wkd d1 (acq (LProc p) s))) with (tp s).
  rewrite (bind_Ok _ _ _ _ _ (upd_cur_ok (tp s) None (wkd d1 (acq (LProc p) s)) [] eq_refl Hcq)).
  change (set_cur None (wkd d1 (acq (LProc p) s))) with (wkd d1 (set_cur None (acq (LProc p) s))).
  rewrite <- acq_set_cur by done.
  rewrite (bind_Ok _ _ _ _ _ (release_quiet _ Q0 (LProc p) d1 [] Hl)).
  rewrite (bind_Ok _ _ _ _ _ Hm).
  rewrite (bind_Ok _ _ _ _ _ (acquire_quiet _ (quiet_wkd (G d1) _ Q0) (LProc p) [] Hl)).
  rewrite (bind_Ok _ _ _ _ _ (get_proc_ok p pr' (acq (LProc p) (wkd (G d1) (set_cur None s))) [] Hpr')), bool_decide_eq_true_2 by done.
  rewrite (bind_Ok _ _ _ _ _ (upd_proc_ok p _ pr' (acq (LProc p) (wkd (G d1) (set_cur None s))) [] Hpr')).
  rewrite upd_cur_ok; [|done|].
  - cbn [ks]. rewrite set_cur_mapd, acq_wkd, acq_set_cur by done.
    change (set_cur (Some p) (wkd (G d1) (set_cur None (acq (LProc p) s)))) with (wkd (G d1) (set_cur (Some p) (set_cur None (acq (LProc p) s)))).
    rewrite set_cur_set_cur, <- acq_set_cur by done. rewrite <- (calm_cur p s Hc), set_cur_id, acq_wkd. done.
  - change (is_Some (cpus (acq (LProc p) (set_cur None s)) !! tp s)).
    apply (hart_ok_acq (LProc p) (set_cur None s)); [by apply hart_ok_set_cur|]. rewrite noff_set_cur, (qt_noff s Q) by done. lia.
Qed.

(** A sleep with a lock *)
Lemma sleep_away lk d chan pr e : lone lk -> procs d !! p = Some pr ->
  mid (mkWorld (wkd (at_proc p (parked chan) d) (set_cur None s)) []) =
    Ok tt (mkWorld (wkd (G (at_proc p (parked chan) d)) (set_cur None s)) []) ->
  (exists pr', procs (G (at_proc p (parked chan) d)) !! p = Some pr' /\ p_state pr' = RUNNABLE) ->
  sleep chan lk (mkWorld (wkd d (acq lk s)) (running (away p mid) :: e)) =
  Ok tt (mkWorld (wkd (back p chan G d) (acq lk s)) e).
Proof using Hc Hp.
  intros [Hlk Hne] Hpr Hm Hg. pose proof (away_ok d chan pr Hpr Hm Hg) as Hf. pose proof (calm_quiet p s Hc) as Q.
  destruct Hg as (pr' & Hg & _). rewrite <- acq_wkd.
  assert (forall d0 l, l ∈ all_locks -> is_free (wkd d0 s) l) as Hfree by (intros d0 l Hl; by apply (qt_free s Q)).
  rewrite (sleep_resumes chan lk p pr (wkd d s) (qt_settled s Q) (qt_noff s Q) (calm_cur p s Hc) (Hne p)
    (Hfree d _ Hlk) (Hfree d _ (all_locks_proc p Hp)) Hpr _ e _ (set_p_state RUNNING pr') Hf
    (qt_settled s Q) (qt_noff s Q) eq_refl (Hfree _ _ (all_locks_proc p Hp)) (Hfree _ _ Hlk)).
  - by rewrite acq_wkd.
  - cbn. by rewrite list_lookup_alter_eq, Hg.
Qed.
End away.

Lemma woken_woken chan pr : woken chan (woken chan pr) = woken chan pr.
Proof. unfold woken. destruct (bool_decide (p_state pr = SLEEPING) && _) eqn:E; [done|by rewrite E]. Qed.

Lemma woken_parked chan pr : woken chan (parked chan pr) = set_p_state RUNNABLE (set_p_chan chan pr).
Proof. unfold woken, parked. cbn [p_state p_chan set_p_state set_p_chan]. by rewrite !bool_decide_eq_true_2. Qed.
