(* ===== verification/Virtio.v ===== *)
(** * The disk driver

    kernel/virtio_disk.c.  The rings shared with the device and the driver's
    book-keeping are the record [vdisk] of [State]; the device itself is part of
    the environment: while the driver sleeps, a step of the environment may
    serve requests and run the interrupt handler. *)

From S2P Require Import Prelude Prog State Spinlock Switch CStr Kalloc Sleeplock.

(** ** virtio.h *)

Definition VIRTIO_MMIO_MAGIC_VALUE : Z := 0x000.
Definition VIRTIO_MMIO_VERSION : Z := 0x004.
Definition VIRTIO_MMIO_DEVICE_ID : Z := 0x008.
Definition VIRTIO_MMIO_VENDOR_ID : Z := 0x00c.
Definition VIRTIO_MMIO_DEVICE_FEATURES : Z := 0x010.
Definition VIRTIO_MMIO_DRIVER_FEATURES : Z := 0x020.
Definition VIRTIO_MMIO_QUEUE_SEL : Z := 0x030.
Definition VIRTIO_MMIO_QUEUE_NUM_MAX : Z := 0x034.
Definition VIRTIO_MMIO_QUEUE_NUM : Z := 0x038.
Definition VIRTIO_MMIO_QUEUE_READY : Z := 0x044.
Definition VIRTIO_MMIO_QUEUE_NOTIFY : Z := 0x050.
Definition VIRTIO_MMIO_INTERRUPT_STATUS : Z := 0x060.
Definition VIRTIO_MMIO_INTERRUPT_ACK : Z := 0x064.
Definition VIRTIO_MMIO_STATUS : Z := 0x070.
Definition VIRTIO_MMIO_QUEUE_DESC_LOW : Z := 0x080.
Definition VIRTIO_MMIO_QUEUE_DESC_HIGH : Z := 0x084.
Definition VIRTIO_MMIO_DRIVER_DESC_LOW : Z := 0x090.
Definition VIRTIO_MMIO_DRIVER_DESC_HIGH : Z := 0x094.
Definition VIRTIO_MMIO_DEVICE_DESC_LOW : Z := 0x0a0.
Definition VIRTIO_MMIO_DEVICE_DESC_HIGH : Z := 0x0a4.

Definition VIRTIO_CONFIG_S_ACKNOWLEDGE : Z := 1.
Definition VIRTIO_CONFIG_S_DRIVER : Z := 2.
Definition VIRTIO_CONFIG_S_DRIVER_OK : Z := 4.
Definition VIRTIO_CONFIG_S_FEATURES_OK : Z := 8.

(** The feature bits the driver refuses. *)
Definition REFUSED_FEATURES : list Z := [5; 7; 11; 12; 27; 29; 28].

Definition VRING_DESC_F_NEXT : Z := 1.
Definition VRING_DESC_F_WRITE : Z := 2.
Definition VIRTIO_BLK_T_IN : Z := 0.
Definition VIRTIO_BLK_T_OUT : Z := 1.

(** ** Access to the driver's structures *)

Definition getv {A} (f : vdisk -> A) : M A := getd (fun d => f (vdiskS d)).
Definition modv (f : vdisk -> vdisk) : M unit := modd (fun d => set_vdiskS (f (vdiskS d)) d).

Definition upd_desc (i : nat) (f : virtq_desc -> virtq_desc) : M unit :=
  l ← getv vd_desc;
  _ ← the "descriptor" (l !! i);
  modv (fun v => set_vd_desc (alter f i (vd_desc v)) v).

(** [*R(r)] and [*R(r) = v] *)
Definition read_R (r : Z) : M Z := m ← getd virtio_regs; mret (default 0 (m !! r)).
Definition write_R (r v : Z) : M unit := modd (fun d => set_virtio_regs (<[r := u32 v]> (virtio_regs d)) d).

(** ** virtio_disk.c *)

Definition refuse_features (features : Z) : Z :=
  foldl (fun f b => Z.land f (Z.lnot (Z.shiftl 1 b))) features REFUSED_FEATURES.

Definition virtio_disk_init : M unit :=
  initlock LVdisk "virtio_disk";;
  magic ← read_R VIRTIO_MMIO_MAGIC_VALUE;
  version ← read_R VIRTIO_MMIO_VERSION;
  device_id ← read_R VIRTIO_MMIO_DEVICE_ID;
  vendor_id ← read_R VIRTIO_MMIO_VENDOR_ID;
  if negb (magic =? 0x74726976) || negb (version =? 2) || negb (device_id =? 2) || negb (vendor_id =? 0x554d4551)
  then panic "could not find virtio disk" else
  let status := 0 in
  write_R VIRTIO_MMIO_STATUS status;;
  let status := Z.lor status VIRTIO_CONFIG_S_ACKNOWLEDGE in
  write_R VIRTIO_MMIO_STATUS status;;
  let status := Z.lor status VIRTIO_CONFIG_S_DRIVER in
  write_R VIRTIO_MMIO_STATUS status;;
  features ← read_R VIRTIO_MMIO_DEVICE_FEATURES;
  write_R VIRTIO_MMIO_DRIVER_FEATURES (refuse_features features);;
  let status := Z.lor status VIRTIO_CONFIG_S_FEATURES_OK in
  write_R VIRTIO_MMIO_STATUS status;;
  status ← read_R VIRTIO_MMIO_STATUS;
  if Z.land status VIRTIO_CONFIG_S_FEATURES_OK =? 0 then panic "virtio disk FEATURES_OK unset" else
  write_R VIRTIO_MMIO_QUEUE_SEL 0;;
  ready ← read_R VIRTIO_MMIO_QUEUE_READY;
  if z2b ready then panic "virtio disk should not be ready" else
  max ← read_R VIRTIO_MMIO_QUEUE_NUM_MAX;
  if max =? 0 then panic "virtio disk has no queue 0" else
  if max <? Z.of_nat NUM then panic "virtio disk max queue too short" else
  desc ← kalloc;
  avail ← kalloc;
  used ← kalloc;
  modv (set_vd_pages (desc, avail, used));;
  if (desc =? 0) || (avail =? 0) || (used =? 0) then panic "virtio disk kalloc" else
  memset_page desc 0 PGSIZE;;
  memset_page avail 0 PGSIZE;;
  memset_page used 0 PGSIZE;;
  modv (fun v => set_vd_desc (replicate NUM desc0) (set_vd_avail_idx 0 (set_vd_avail_ring (replicate NUM 0)
    (set_vd_dev_idx 0 (set_vd_used_ring (replicate NUM 0) v)))));;
  write_R VIRTIO_MMIO_QUEUE_NUM (Z.of_nat NUM);;
  write_R VIRTIO_MMIO_QUEUE_DESC_LOW desc;;
  write_R VIRTIO_MMIO_QUEUE_DESC_HIGH (Z.shiftr desc 32);;
  write_R VIRTIO_MMIO_DRIVER_DESC_LOW avail;;
  write_R VIRTIO_MMIO_DRIVER_DESC_HIGH (Z.shiftr avail 32);;
  write_R VIRTIO_MMIO_DEVICE_DESC_LOW used;;
  write_R VIRTIO_MMIO_DEVICE_DESC_HIGH (Z.shiftr used 32);;
  write_R VIRTIO_MMIO_QUEUE_READY 1;;
  modv (set_vd_free (replicate NUM 1));;
  let status := Z.lor status VIRTIO_CONFIG_S_DRIVER_OK in
  write_R VIRTIO_MMIO_STATUS status.

(** The index of a free descriptor, now not free; [None] is -1. *)
Definition alloc_desc : M (option nat) :=
  for_find (seq 0 NUM) (fun i =>
    l ← getv vd_free;
    f ← the "free" (l !! i);
    if z2b f then modv (fun v => set_vd_free (<[i := 0]> (vd_free v)) v);; mret (Some i)
    else mret None).

Definition free_desc (i : nat) : M unit :=
  if (NUM <=? i)%nat then panic "free_desc 1" else
  l ← getv vd_free;
  f ← the "free" (l !! i);
  if z2b f then panic "free_desc 2" else
  upd_desc i (fun _ => desc0);;
  modv (fun v => set_vd_free (<[i := 1]> (vd_free v)) v);;
  wakeup CDiskFree.

(** A chain that comes back to a descriptor it has freed panics, so one more
    turn than there are descriptors is never needed. *)
Fixpoint free_chain (fuel : nat) (i : nat) : M unit :=
  match fuel with
  | O => fault "free_chain fuel"
  | S fuel =>
    l ← getv vd_desc;
    d ← the "descriptor" (l !! i);
    free_desc i;;
    if negb (Z.land (d_flags d) VRING_DESC_F_NEXT =? 0) then free_chain fuel (Z.to_nat (d_next d)) else mret tt
  end.

(** The three indices, or [None] when it returns -1. *)
Definition alloc3_desc : M (option (nat * nat * nat)) :=
  i0 ← alloc_desc;
  match i0 with
  | None => mret None
  | Some i0 =>
    i1 ← alloc_desc;
    match i1 with
    | None => free_desc i0;; mret None
    | Some i1 =>
      i2 ← alloc_desc;
      match i2 with
      | None => free_desc i0;; free_desc i1;; mret None
      | Some i2 => mret (Some (i0, i1, i2))
      end
    end
  end.

(** The three descriptors of a request. *)
Definition format_request (b : nat) (write : bool) (sector : Z) (idx : nat * nat * nat) : M unit :=
  let '(i0, i1, i2) := idx in
  modv (fun v => set_vd_ops (<[i0 := {| op_type := if write then VIRTIO_BLK_T_OUT else VIRTIO_BLK_T_IN;
                                        op_reserved := 0; op_sector := sector |}]> (vd_ops v)) v);;
  upd_desc i0 (fun _ => {| d_addr := AOp i0; d_len := 16; d_flags := VRING_DESC_F_NEXT; d_next := Z.of_nat i1 |});;
  upd_desc i1 (fun _ => {| d_addr := AData b; d_len := BSIZE;
                           d_flags := Z.lor (if write then 0 else VRING_DESC_F_WRITE) VRING_DESC_F_NEXT;
                           d_next := Z.of_nat i2 |});;
  modv (fun v => set_vd_info_status (<[i0 := 0xff]> (vd_info_status v)) v);;
  upd_desc i2 (fun _ => {| d_addr := AStatus i0; d_len := 1; d_flags := VRING_DESC_F_WRITE; d_next := 0 |}).

Definition virtio_disk_rw (b : nat) (write : bool) : M unit :=
  bp ← get_buf b;
  let sector := u32 (b_blockno bp * (BSIZE / 512)) in
  acquire LVdisk;;
  idx ← wait_loop (
    r ← alloc3_desc;
    match r with
    | Some idx => mret (Some idx)
    | None => sleep CDiskFree LVdisk;; mret None
    end);
  format_request b write sector idx;;
  let i0 := idx.1.1 in
  upd_buf b (set_b_disk 1);;
  modv (fun v => set_vd_info_b (<[i0 := Some b]> (vd_info_b v)) v);;
  modv (fun v => set_vd_avail_ring (<[Z.to_nat (vd_avail_idx v `mod` Z.of_nat NUM) := Z.of_nat i0]> (vd_avail_ring v)) v);;
  modv (fun v => set_vd_avail_idx (u16 (vd_avail_idx v + 1)) v);;
  write_R VIRTIO_MMIO_QUEUE_NOTIFY 0;;
  wait_loop (
    bp ← get_buf b;
    if b_disk bp =? 1 then sleep (CBuf b) LVdisk;; mret None else mret (Some tt));;
  modv (fun v => set_vd_info_b (<[i0 := None]> (vd_info_b v)) v);;
  free_chain (S NUM) i0;;
  release LVdisk.

(** One entry of the used ring; the loop of the handler leaves when there is none. *)
Definition intr_entry : M (option unit) :=
  v ← getd vdiskS;
  if vd_used_idx v =? vd_dev_idx v then mret (Some tt) else
  id ← the "used ring" (vd_used_ring v !! Z.to_nat (vd_used_idx v `mod` Z.of_nat NUM));
  status ← the "info" (vd_info_status v !! Z.to_nat id);
  if z2b status then panic "virtio_disk_intr status" else
  b ← the "info" (vd_info_b v !! Z.to_nat id);
  b ← nonnull b;
  upd_buf b (set_b_disk 0);;
  wakeup (CBuf b);;
  modv (fun v => set_vd_used_idx (u16 (vd_used_idx v + 1)) v);;
  mret None.

(** Each turn advances [used_idx] towards [used->idx], modulo [2^16]. *)
Definition virtio_disk_intr : M unit :=
  acquire LVdisk;;
  st ← read_R VIRTIO_MMIO_INTERRUPT_STATUS;
  write_R VIRTIO_MMIO_INTERRUPT_ACK (Z.land st 3);;
  v ← getd vdiskS;
  loop (S (Z.to_nat (u16 (vd_dev_idx v - vd_used_idx v)))) intr_entry;;
  release LVdisk.
