(* ===== verification/Bio.v ===== *)
(** * The buffer cache

    kernel/bio.c.  The array [bufs] of [State] holds bcache.buf, then
    bcache.head at index [NBUF]; [prev] and [next] are indices into it.  The
    cache is written against the interface [Disk] of the driver it calls. *)

From S2P Require Import Prelude Prog State Spinlock Switch Sleeplock.

(** The driver: transfer a buffer from the disk, or to it. *)
Class Disk := { disk_rw (b : nat) (write : bool) : M unit }.

(** What a transfer does: the block on the platter, or the data of the buffer. *)
Definition transfer (b : nat) (write : bool) (d : kdata) : kdata :=
  match bufs d !! b with
  | Some bp =>
    if write then
      set_dwrites ((b_blockno bp, b_data bp) :: dwrites d)
        (set_platter (<[b_blockno bp := b_data bp]> (platter d)) (at_buf b (set_b_disk 0) d))
    else at_buf b (fun bp => set_b_disk 0 (set_b_data (default (b_data bp) (platter d !! b_blockno bp)) bp)) d
  | None => d
  end.

(** The processes, and the driver's own variables *)
Definition beside (ps : list proc) (v : vdisk) (r : gmap Z Z) (d : kdata) : kdata :=
  set_procs ps (set_vdiskS v (set_virtio_regs r d)).

Lemma beside_id d : beside (procs d) (vdiskS d) (virtio_regs d) d = d.
Proof. by destruct d. Qed.

Lemma transfer_beside b write ps v r d : transfer b write (beside ps v r d) = beside ps v r (transfer b write d).
Proof. unfold transfer. change (bufs (beside ps v r d)) with (bufs d). destruct (bufs d !! b); [|done]. by destruct write. Qed.

(** What the cache and the log rely on: called by a process that holds no
    lock, the driver returns when the transfer of the block is done, and is
    ready for the next one.  Other processes may have been woken. *)
Class DiskSpec {K : Disk} := {
  disk_ready : vdisk -> gmap Z (list Z) -> Prop;
  disk_rw_ok p b bp write s e :
    calm p s -> length (procs (kd s)) = NPROC -> (p < NPROC)%nat -> disk_ready (vdiskS (kd s)) (platter (kd s)) ->
    bufs (kd s) !! b = Some bp -> is_Some (platter (kd s) !! b_blockno bp) ->
    exists ps v r, disk_rw b write (mkWorld s e) = Ok tt (mkWorld (mapd (fun d => beside ps v r (transfer b write d)) s) e) /\
      p_pid <$> ps = p_pid <$> procs (kd s) /\ disk_ready v (platter (transfer b write (kd s)))
}.

(** A disk that serves each request at once. *)
Definition ramdisk : Disk := {| disk_rw b write := modd (transfer b write) |}.

#[program]
Definition ramdisk_spec : DiskSpec (K := ramdisk) := {| disk_ready _ _ := True |}.
Next Obligation.
  intros p b bp write s e _ _ _ _ Hb _. exists (procs (kd s)), (vdiskS (kd s)), (virtio_regs (kd s)). split; [|done].
  cbn. unfold modd. do 2 f_equal. unfold mapd. by rewrite <- transfer_beside, beside_id.
Qed.

Definition HEAD : nat := NBUF.

Section bio.
Context `{!Disk}.

(** Insert [b] at the front of the list. *)
Definition link_front (b : nat) : M unit :=
  h ← get_buf HEAD;
  upd_buf b (set_b_next (b_next h));;
  upd_buf b (set_b_prev HEAD).

Definition relink_head (b : nat) : M unit :=
  h ← get_buf HEAD;
  upd_buf (b_next h) (set_b_prev b);;
  upd_buf HEAD (set_b_next b).

Definition binit : M unit :=
  initlock LBcache "bcache";;
  upd_buf HEAD (set_b_prev HEAD);;
  upd_buf HEAD (set_b_next HEAD);;
  for_each (seq 0 NBUF) (fun b =>
    link_front b;;
    initsleeplock (SBuf b) "buffer";;
    relink_head b).

(** The two loops of [bget]: along [next] for the block, then along [prev] for
    an unused buffer.  The list holds each buffer once, so a walk of [NBUF]
    buffers comes back to the head. *)
Fixpoint find_cached (fuel : nat) (b : nat) (dev blockno : Z) : M (option nat) :=
  if decide (b = HEAD) then mret None else
  match fuel with
  | O => fault "bcache list"
  | S fuel =>
    bp ← get_buf b;
    if (b_dev bp =? dev) && (b_blockno bp =? blockno) then mret (Some b)
    else find_cached fuel (b_next bp) dev blockno
  end.

Fixpoint find_free_buf (fuel : nat) (b : nat) : M (option nat) :=
  if decide (b = HEAD) then mret None else
  match fuel with
  | O => fault "bcache list"
  | S fuel =>
    bp ← get_buf b;
    if b_refcnt bp =? 0 then mret (Some b) else find_free_buf fuel (b_prev bp)
  end.

Definition bget (dev blockno : Z) : M nat :=
  acquire LBcache;;
  h ← get_buf HEAD;
  r ← find_cached NBUF (b_next h) dev blockno;
  match r with
  | Some b =>
    upd_buf b (fun bp => set_b_refcnt (u32 (b_refcnt bp + 1)) bp);;
    release LBcache;;
    acquiresleep (SBuf b);;
    mret b
  | None =>
    h ← get_buf HEAD;
    r ← find_free_buf NBUF (b_prev h);
    match r with
    | Some b =>
      upd_buf b (set_b_dev dev);;
      upd_buf b (set_b_blockno blockno);;
      upd_buf b (set_b_valid 0);;
      upd_buf b (set_b_refcnt 1);;
      release LBcache;;
      acquiresleep (SBuf b);;
      mret b
    | None => panic "bget: no buffers"
    end
  end.

Definition bread (dev blockno : Z) : M nat :=
  b ← bget dev blockno;
  bp ← get_buf b;
  when (b_valid bp =? 0) (disk_rw b false;; upd_buf b (set_b_valid 1));;
  mret b.

Definition bwrite (b : nat) : M unit :=
  h ← holdingsleep (SBuf b);
  if negb h then panic "bwrite" else
  disk_rw b true.

(** [b->next->prev = b->prev; b->prev->next = b->next;] *)
Definition unlink (b : nat) : M unit :=
  bp ← get_buf b;
  upd_buf (b_next bp) (set_b_prev (b_prev bp));;
  bp ← get_buf b;
  upd_buf (b_prev bp) (set_b_next (b_next bp)).

Definition brelse (b : nat) : M unit :=
  h ← holdingsleep (SBuf b);
  if negb h then panic "brelse" else
  releasesleep (SBuf b);;
  acquire LBcache;;
  upd_buf b (fun bp => set_b_refcnt (u32 (b_refcnt bp - 1)) bp);;
  bp ← get_buf b;
  when (b_refcnt bp =? 0) (unlink b;; link_front b;; relink_head b);;
  release LBcache.

Definition bpin (b : nat) : M unit :=
  acquire LBcache;;
  upd_buf b (fun bp => set_b_refcnt (u32 (b_refcnt bp + 1)) bp);;
  release LBcache.

Definition bunpin (b : nat) : M unit :=
  acquire LBcache;;
  upd_buf b (fun bp => set_b_refcnt (u32 (b_refcnt bp - 1)) bp);;
  release LBcache.
End bio.

(** ** The list of buffers

    [path nx a l c]: following [nx] from [a] visits the elements of [l] and
    then [c]. *)

Fixpoint path (nx : nat -> option nat) (a : nat) (l : list nat) (c : nat) : Prop :=
  match l with
  | [] => nx a = Some c
  | x :: l => nx a = Some x /\ path nx x l c
  end.

Definition upd (nx : nat -> option nat) (k v : nat) : nat -> option nat :=
  fun i => if decide (i = k) then Some v else nx i.

Lemma upd_eq nx k v : upd nx k v k = Some v.
Proof. unfold upd. by rewrite decide_True. Qed.

Lemma upd_ne nx k v i : i ≠ k -> upd nx k v i = nx i.
Proof. intros H. unfold upd. by rewrite decide_False. Qed.

Lemma path_next nx a l c : path nx a l c -> nx a = Some (default c (head l)).
Proof. destruct l; [done|]. by intros [? _]. Qed.

Lemma path_app nx a l1 x l2 c : path nx a (l1 ++ x :: l2) c <-> path nx a l1 x /\ path nx x l2 c.
Proof. revert a. induction l1 as [|y l1 IH]; intros a; cbn [path app]; [done|]. rewrite IH. tauto. Qed.

(** The same path from another start, with a function that agrees on the way. *)
Lemma path_start nx nx' a a' l c :
  path nx a l c -> nx' a' = nx a -> (forall y, y ∈ l -> nx' y = nx y) -> path nx' a' l c.
Proof.
  revert a a'. induction l as [|x l IH]; intros a a' Hp Ha Hl; cbn [path] in *; [congruence|].
  destruct Hp as [H1 H2]. split; [congruence|]. apply (IH x x H2).
  - apply Hl. by left.
  - intros y Hy. apply Hl. by right.
Qed.

Lemma path_upd nx k v a l c : k ∉ a :: l -> path nx a l c -> path (upd nx k v) a l c.
Proof.
  rewrite not_elem_of_cons. intros [Ha Hl] H. apply (path_start nx _ a a l c H); [by rewrite upd_ne|].
  intros y Hy. rewrite upd_ne; [done|]. by intros ->.
Qed.

(** Taking [b] out of a circular path through [h]. *)
Lemma path_unlink nx h l1 b l2 :
  path nx h (l1 ++ b :: l2) h -> NoDup (h :: l1 ++ b :: l2) ->
  path (upd nx (default h (last l1)) (default h (head l2))) h (l1 ++ l2) h.
Proof.
  intros Hp Hd. apply path_app in Hp as [H1 H2]. apply NoDup_cons in Hd as [Hh Hd].
  apply NoDup_app in Hd as (D1 & D12 & D2). apply NoDup_cons in D2 as [Hb D2].
  rewrite elem_of_app, elem_of_cons in Hh. pose proof (path_next _ _ _ _ H2) as Hn.
  destruct l1 as [|z l1 _] using rev_ind.
  - change (default h (last [])) with h. cbn [app]. apply (path_start nx _ b h l2 h H2); [by rewrite upd_eq|].
    intros y Hy. rewrite upd_ne; [done|]. intros ->. apply Hh. auto.
  - rewrite last_snoc. change (default h (Some z)) with z. rewrite <- app_assoc. cbn [app]. apply path_app in H1 as [H1 H3].
    apply path_app. apply NoDup_app in D1 as (D1 & D1' & _). split.
    + apply path_upd; [|done]. rewrite not_elem_of_cons. split.
      * intros ->. apply Hh. left. apply elem_of_app. right. by left.
      * intros Hz. apply (D1' z Hz). by left.
    + apply (path_start nx _ b z l2 h H2); [by rewrite upd_eq|].
      intros y Hy. rewrite upd_ne; [done|]. intros ->. apply (D12 z); [|by right].
      apply elem_of_app. right. by left.
Qed.

(** Putting [b] in front, along [next] and along [prev]. *)
Lemma path_front nx h b l : path nx h l h -> b ∉ h :: l -> h ∉ l ->
  path (upd (upd nx b (default h (head l))) h b) h (b :: l) h.
Proof.
  intros Hp Hb Hh. rewrite not_elem_of_cons in Hb. destruct Hb as [Hne Hb]. split; [by rewrite upd_eq|].
  apply (path_start nx _ h b l h Hp).
  - rewrite upd_ne, upd_eq by done. symmetry. by apply path_next.
  - intros y Hy. rewrite !upd_ne; [done|by intros ->..].
Qed.

Lemma path_front_prev pv h b l : path pv h (reverse l) h -> b ∉ h :: l -> NoDup (h :: l) ->
  path (upd (upd pv b h) (default h (head l)) b) h (reverse (b :: l)) h.
Proof.
  intros Hp Hb Hd. rewrite not_elem_of_cons in Hb. destruct Hb as [Hne Hb].
  apply NoDup_cons in Hd as [Hh Hd]. rewrite reverse_cons. apply path_app. cbn [path].
  destruct l as [|x l]; cbn [head default].
  - cbn. split; [by rewrite upd_eq|]. by rewrite upd_ne, upd_eq by done.
  - rewrite not_elem_of_cons in Hb. rewrite not_elem_of_cons in Hh. apply NoDup_cons in Hd as [Hx Hd].
    rewrite reverse_cons in *. apply path_app in Hp as [H1 H2]. split.
    + apply path_app. cbn [path]. split; [|by rewrite upd_eq].
      apply path_upd; [|apply path_upd; [|done]]; rewrite not_elem_of_cons, elem_of_reverse; naive_solver.
    + rewrite upd_ne, upd_eq by naive_solver. done.
Qed.

(** ** The links in the array *)

Definition nxt (bs : list buf) (i : nat) : option nat := b_next <$> bs !! i.
Definition prv (bs : list buf) (i : nat) : option nat := b_prev <$> bs !! i.

(** The buffers in the order of the list, most recently used first. *)
Record ring (bs : list buf) (l : list nat) : Prop := {
  ring_next : path (nxt bs) HEAD l HEAD;
  ring_prev : path (prv bs) HEAD (reverse l) HEAD;
  ring_nodup : NoDup (HEAD :: l)
}.

(** A buffer without its links. *)
Definition core (bp : buf) : buf := set_b_prev 0%nat (set_b_next 0%nat bp).

Lemma nxt_set_next bs k v i : is_Some (bs !! k) -> nxt (alter (set_b_next v) k bs) i = upd (nxt bs) k v i.
Proof.
  intros [bp H]. unfold nxt, upd. destruct (decide (i = k)) as [->|].
  - by rewrite list_lookup_alter_eq, H.
  - by rewrite list_lookup_alter_ne.
Qed.

Lemma prv_set_prev bs k v i : is_Some (bs !! k) -> prv (alter (set_b_prev v) k bs) i = upd (prv bs) k v i.
Proof.
  intros [bp H]. unfold prv, upd. destruct (decide (i = k)) as [->|].
  - by rewrite list_lookup_alter_eq, H.
  - by rewrite list_lookup_alter_ne.
Qed.

Lemma fmap_alter_id {A B} (f : A -> B) (g : A -> A) (l : list A) k :
  (forall x, f (g x) = f x) -> f <$> alter g k l = f <$> l.
Proof.
  intros H. apply list_eq. intros i. rewrite !list_lookup_fmap. destruct (decide (k = i)) as [->|].
  - rewrite list_lookup_alter_eq. by destruct (l !! i); cbn; rewrite ?H.
  - by rewrite list_lookup_alter_ne.
Qed.

Lemma nxt_set_prev bs k v i : nxt (alter (set_b_prev v) k bs) i = nxt bs i.
Proof. unfold nxt. rewrite <- !list_lookup_fmap. by rewrite fmap_alter_id. Qed.

Lemma prv_set_next bs k v i : prv (alter (set_b_next v) k bs) i = prv bs i.
Proof. unfold prv. rewrite <- !list_lookup_fmap. by rewrite fmap_alter_id. Qed.

Lemma path_ext nx nx' a l c : (forall i, nx' i = nx i) -> path nx a l c -> path nx' a l c.
Proof. intros H Hp. by apply (path_start nx _ a a l c Hp). Qed.

(** ** Effects on the array *)

Definition with_bufs (bs : list buf) (s : kstate) : kstate := mapd (set_bufs bs) s.

Lemma with_bufs_id s : with_bufs (bufs (kd s)) s = s.
Proof. by destruct s as [? ? ? ? []]. Qed.

Lemma with_bufs_with bs bs' s : with_bufs bs (with_bufs bs' s) = with_bufs bs s.
Proof. done. Qed.

Lemma get_buf_with b bp bs s e : bs !! b = Some bp ->
  get_buf b (mkWorld (with_bufs bs s) e) = Ok bp (mkWorld (with_bufs bs s) e).
Proof. intros H. by apply get_buf_ok. Qed.

Lemma upd_buf_with b f bs s e : is_Some (bs !! b) ->
  upd_buf b f (mkWorld (with_bufs bs s) e) = Ok tt (mkWorld (with_bufs (alter f b bs) s) e).
Proof. intros [bp H]. by rewrite (upd_buf_ok b f bp). Qed.

Lemma path_lookup nx a l c x : path nx a l c -> x ∈ a :: l -> is_Some (nx x).
Proof.
  revert a. induction l as [|y l IH]; intros a Hp Hx.
  - apply list_elem_of_singleton in Hx as ->. cbn in Hp. eauto.
  - destruct Hp as [H1 H2]. apply elem_of_cons in Hx as [->|Hx]; [eauto|]. by apply (IH y).
Qed.

Lemma ring_lookup bs l x : ring bs l -> x ∈ HEAD :: l -> is_Some (bs !! x).
Proof.
  intros R Hx. destruct (path_lookup _ _ _ _ x (ring_next bs l R) Hx) as [n Hn].
  unfold nxt in Hn. apply fmap_Some in Hn as (bp & -> & _). eauto.
Qed.

(** The links of a buffer of the list. *)
Lemma ring_links bs l1 b l2 : ring bs (l1 ++ b :: l2) ->
  exists bp, bs !! b = Some bp /\ b_next bp = default HEAD (head l2) /\ b_prev bp = default HEAD (last l1).
Proof.
  intros R. destruct (ring_lookup bs _ b R) as [bp Hb].
  { right. apply elem_of_app. right. by left. }
  exists bp. split; [done|]. destruct R as [Rn Rp _].
  apply path_app in Rn as [_ Rn]. rewrite reverse_app, reverse_cons, <- app_assoc in Rp.
  apply path_app in Rp as [_ Rp]. apply path_next in Rn, Rp. unfold nxt, prv in *. rewrite Hb in *.
  cbn in Rn, Rp. rewrite head_reverse in Rp. by split; congruence.
Qed.

Lemma ring_head bs l : ring bs l ->
  exists h, bs !! HEAD = Some h /\ b_next h = default HEAD (head l) /\ b_prev h = default HEAD (last l).
Proof.
  intros R. destruct (ring_lookup bs l HEAD R ltac:(by left)) as [h Hh]. exists h. split; [done|].
  destruct R as [Rn Rp _]. apply path_next in Rn, Rp. unfold nxt, prv in *. rewrite Hh in *. cbn in Rn, Rp.
  rewrite head_reverse in Rp. by split; congruence.
Qed.

Lemma neighbour_ne (l1 l2 : list nat) b : NoDup (HEAD :: l1 ++ b :: l2) ->
  default HEAD (head l2) ≠ b /\ default HEAD (last l1) ≠ b.
Proof.
  rewrite NoDup_cons, NoDup_app, NoDup_cons, elem_of_app, elem_of_cons. intros (Hh & D1 & D12 & Hb & D2). split.
  - destruct l2 as [|x l2]; cbn; [naive_solver|]. intros ->. apply Hb. by left.
  - destruct (last l1) as [x|] eqn:E; cbn; [|naive_solver]. intros ->.
    apply last_Some_elem_of in E. apply (D12 b E). by left.
Qed.

Lemma neighbour_in (l1 l2 : list nat) b :
  default HEAD (head l2) ∈ HEAD :: l1 ++ b :: l2 /\ default HEAD (last l1) ∈ HEAD :: l1 ++ b :: l2.
Proof.
  rewrite !elem_of_cons, !elem_of_app, !elem_of_cons. split.
  - destruct l2 as [|x l2]; cbn; [auto|]. right. right. right. by left.
  - destruct (last l1) as [x|] eqn:E; cbn; [|auto]. apply last_Some_elem_of in E. auto.
Qed.

(** A change of the links only. *)
Definition relinked (bs bs' : list buf) : Prop := core <$> bs' = core <$> bs.

#[export] Instance relinked_preorder : PreOrder relinked.
Proof. split; [done|]. unfold relinked. by intros ? ? ? -> ->. Qed.

Lemma relinked_next k v bs : relinked bs (alter (set_b_next v) k bs).
Proof. by apply fmap_alter_id. Qed.

Lemma relinked_prev k v bs : relinked bs (alter (set_b_prev v) k bs).
Proof. by apply fmap_alter_id. Qed.

Lemma relinked_lookup bs bs' i bp' : relinked bs bs' -> bs' !! i = Some bp' ->
  exists bp, bs !! i = Some bp /\ core bp' = core bp.
Proof.
  intros R H. apply (f_equal (fun l => l !! i)) in R. rewrite !list_lookup_fmap, H in R.
  destruct (bs !! i) as [bp|]; [|done]. exists bp. split; [done|]. by apply Some_inj in R.
Qed.

Lemma relinked_is_Some bs bs' i : relinked bs bs' -> is_Some (bs !! i) -> is_Some (bs' !! i).
Proof.
  intros R. rewrite !lookup_lt_is_Some. apply (f_equal length) in R. rewrite !length_fmap in R. by rewrite R.
Qed.

Lemma unlink_ok bs l1 b l2 s e : ring bs (l1 ++ b :: l2) ->
  exists bs', unlink b (mkWorld (with_bufs bs s) e) = Ok tt (mkWorld (with_bufs bs' s) e) /\
    ring bs' (l1 ++ l2) /\ relinked bs bs' /\ is_Some (bs' !! b) /\ b ∉ HEAD :: l1 ++ l2.
Proof.
  intros R. destruct (ring_links bs l1 b l2 R) as (bp & Hb & En & Ep).
  destruct (neighbour_ne l1 l2 b (ring_nodup _ _ R)) as [Nn Np].
  destruct (neighbour_in l1 l2 b) as [In Ip].
  set (n := default HEAD (head l2)) in *. set (pv := default HEAD (last l1)) in *.
  pose proof (ring_lookup bs _ n R In) as Sn. pose proof (ring_lookup bs _ pv R Ip) as Sp.
  set (bs1 := alter (set_b_prev pv) n bs).
  assert (bs1 !! b = Some bp) as Hb1 by (unfold bs1; by rewrite list_lookup_alter_ne).
  pose proof (relinked_prev n pv bs) as R1. fold bs1 in R1.
  exists (alter (set_b_next n) pv bs1). split; [|split; [|split; [|split]]].
  - unfold unlink. step get_buf_with. rewrite En, Ep.
    rewrite (bind_Ok _ _ _ _ _ (upd_buf_with n _ bs s e Sn)). fold bs1. step get_buf_with.
    rewrite En, Ep. apply upd_buf_with. by eapply relinked_is_Some.
  - destruct R as [Rn Rp Rd]. split.
    + apply (path_ext (upd (nxt bs) pv n)).
      { intros i. rewrite nxt_set_next by (by eapply relinked_is_Some). unfold upd.
        destruct (decide _); [done|]. apply nxt_set_prev. }
      by apply (path_unlink _ HEAD l1 b l2).
    + rewrite reverse_app. apply (path_ext (upd (prv bs) n pv)).
      { intros i. rewrite prv_set_next. by apply prv_set_prev. }
      rewrite reverse_app, reverse_cons, <- app_assoc in Rp. cbn [app] in Rp.
      assert (n = default HEAD (last (reverse l2))) as -> by (by rewrite last_reverse).
      assert (pv = default HEAD (head (reverse l1))) as -> by (by rewrite head_reverse).
      apply (path_unlink _ HEAD _ b _); [done|].
      assert (HEAD :: reverse l2 ++ b :: reverse l1 ≡ₚ HEAD :: l1 ++ b :: l2) as P.
      { constructor. rewrite !reverse_Permutation. solve_Permutation. }
      exact (proj2 (NoDup_Permutation_proper _ _ P) Rd).
    + assert (HEAD :: l1 ++ b :: l2 ≡ₚ b :: HEAD :: l1 ++ l2) as P by solve_Permutation.
      apply (NoDup_Permutation_proper _ _ P) in Rd. by apply NoDup_cons in Rd as [_ ?].
  - etrans; [exact R1|]. apply relinked_next.
  - eapply relinked_is_Some; [apply relinked_next|]. eauto.
  - pose proof (ring_nodup _ _ R) as Rd.
    assert (HEAD :: l1 ++ b :: l2 ≡ₚ b :: HEAD :: l1 ++ l2) as P by solve_Permutation.
    apply (NoDup_Permutation_proper _ _ P) in Rd. by apply NoDup_cons in Rd as [? _].
Qed.

(** The two halves of an insertion in front; the buffer may change in between,
    but not its links. *)
Definition same_links (bs bs' : list buf) : Prop :=
  forall i, nxt bs' i = nxt bs i /\ prv bs' i = prv bs i.

Lemma link_front_ok bs b l s e : ring bs l -> is_Some (bs !! b) ->
  link_front b (mkWorld (with_bufs bs s) e) =
  Ok tt (mkWorld (with_bufs (alter (set_b_prev HEAD) b (alter (set_b_next (default HEAD (head l))) b bs)) s) e).
Proof.
  intros R Sb. destruct (ring_head bs l R) as (h & Hh & En & _).
  unfold link_front. step get_buf_with. rewrite En, (bind_Ok _ _ _ _ _ (upd_buf_with b _ bs s e Sb)).
  apply upd_buf_with. eapply relinked_is_Some; [apply relinked_next|done].
Qed.

Lemma relink_head_ok bs b l bs1 s e : ring bs l -> is_Some (bs !! b) -> b ∉ HEAD :: l ->
  same_links (alter (set_b_prev HEAD) b (alter (set_b_next (default HEAD (head l))) b bs)) bs1 ->
  exists bs', relink_head b (mkWorld (with_bufs bs1 s) e) = Ok tt (mkWorld (with_bufs bs' s) e) /\
    ring bs' (b :: l) /\ relinked bs1 bs'.
Proof.
  intros R Sb Hb SL. destruct (ring_head bs l R) as (h & Hh & En & _). pose proof Hb as Hb'.
  rewrite not_elem_of_cons in Hb. destruct Hb as [Hne Hb]. set (n := default HEAD (head l)) in *.
  assert (is_Some (bs !! n)) as Sn.
  { apply (ring_lookup bs l n R). unfold n. destruct l; cbn; [by left|]. right. by left. }
  assert (forall i, nxt bs1 i = upd (nxt bs) b n i) as N1.
  { intros i. rewrite (proj1 (SL i)), nxt_set_prev. by apply nxt_set_next. }
  assert (forall i, prv bs1 i = upd (prv bs) b HEAD i) as P1.
  { intros i. rewrite (proj2 (SL i)), prv_set_prev by (eapply relinked_is_Some; [apply relinked_next|done]).
    unfold upd. destruct (decide _); [done|]. apply prv_set_next. }
  assert (forall i, is_Some (bs !! i) -> is_Some (bs1 !! i)) as S1.
  { intros i [x Hx]. specialize (N1 i). unfold upd, nxt in N1. rewrite Hx in N1.
    destruct (bs1 !! i); [eauto|]. by destruct (decide _). }
  destruct (S1 HEAD ltac:(eauto)) as [h1 Hh1].
  assert (b_next h1 = n) as En1.
  { specialize (N1 HEAD). rewrite upd_ne in N1 by done. unfold nxt in N1. rewrite Hh, Hh1 in N1. cbn in N1. congruence. }
  set (bs2 := alter (set_b_prev b) n bs1). pose proof (relinked_prev n b bs1) as R2. fold bs2 in R2.
  exists (alter (set_b_next b) HEAD bs2). split; [|split].
  - unfold relink_head. step get_buf_with. rewrite En1, (bind_Ok _ _ _ _ _ (upd_buf_with n _ bs1 s e (S1 n Sn))). fold bs2.
    apply upd_buf_with. eapply relinked_is_Some; [exact R2|]. eauto.
  - destruct R as [Rn Rp Rd]. split.
    + apply (path_ext (upd (upd (nxt bs) b n) HEAD b)).
      { intros i. rewrite nxt_set_next by (eapply relinked_is_Some; [exact R2|eauto]).
        destruct (decide (i = HEAD)) as [->|]; [by rewrite !upd_eq|]. rewrite !(upd_ne _ HEAD) by done.
        unfold bs2. by rewrite nxt_set_prev. }
      apply path_front; [done..|]. by apply NoDup_cons in Rd as [? _].
    + apply (path_ext (upd (upd (prv bs) b HEAD) n b)).
      { intros i. rewrite prv_set_next. unfold bs2. rewrite prv_set_prev by (by apply S1).
        destruct (decide (i = n)) as [->|]; [by rewrite !upd_eq|]. by rewrite !(upd_ne _ n) by done. }
      by apply path_front_prev.
    + assert (HEAD :: b :: l ≡ₚ b :: HEAD :: l) as P by solve_Permutation.
      apply (proj2 (NoDup_Permutation_proper _ _ P)). by constructor.
  - etrans; [exact R2|apply relinked_next].
Qed.

Lemma front_ok bs b l s e : ring bs l -> is_Some (bs !! b) -> b ∉ HEAD :: l ->
  exists bs1 bs', link_front b (mkWorld (with_bufs bs s) e) = Ok tt (mkWorld (with_bufs bs1 s) e) /\
    relink_head b (mkWorld (with_bufs bs1 s) e) = Ok tt (mkWorld (with_bufs bs' s) e) /\
    ring bs' (b :: l) /\ relinked bs bs'.
Proof.
  intros R Sb Hb. eexists. destruct (relink_head_ok bs b l _ s e R Sb Hb (fun i => conj eq_refl eq_refl)) as (bs' & E & R' & L).
  exists bs'. split; [by apply link_front_ok|]. split; [exact E|]. split; [done|].
  etrans; [|exact L]. etrans; [apply relinked_next|apply relinked_prev].
Qed.

(** ** Searching the list *)

(** The first buffer of [l] that satisfies [f]. *)
Fixpoint first_buf (bs : list buf) (f : buf -> bool) (l : list nat) : option nat :=
  match l with
  | [] => None
  | b :: l =>
    match bs !! b with
    | Some bp => if f bp then Some b else first_buf bs f l
    | None => None
    end
  end.

Definition holds (dev blockno : Z) (bp : buf) : bool := (b_dev bp =? dev) && (b_blockno bp =? blockno).
Definition unused (bp : buf) : bool := b_refcnt bp =? 0.

Lemma find_cached_ok bs dev bn l fuel a x s e :
  path (nxt bs) a l HEAD -> nxt bs a = Some x -> HEAD ∉ l -> (length l <= fuel)%nat ->
  find_cached fuel x dev bn (mkWorld (with_bufs bs s) e) = Ok (first_buf bs (holds dev bn) l) (mkWorld (with_bufs bs s) e).
Proof.
  revert fuel a x. induction l as [|y l IH]; intros fuel a x Hp Hx Hh Hf.
  - cbn in Hp. rewrite Hp in Hx. injection Hx as <-. by destruct fuel.
  - destruct Hp as [Ha Hp]. rewrite Ha in Hx. injection Hx as <-. rewrite not_elem_of_cons in Hh. destruct Hh as [Hy Hh].
    destruct fuel as [|fuel]; cbn in Hf; [lia|]. cbn [find_cached first_buf]. rewrite decide_False by done.
    destruct (path_lookup _ _ _ _ y Hp ltac:(by left)) as [n Hn]. pose proof Hn as Hn'.
    unfold nxt in Hn'. apply fmap_Some in Hn' as (bp & Hb & En). rewrite Hb.
    step get_buf_with. fold (holds dev bn bp). destruct (holds dev bn bp); [done|].
    rewrite <- En. apply (IH fuel y n); [done..|lia].
Qed.

Lemma find_free_ok bs l fuel a x s e :
  path (prv bs) a l HEAD -> prv bs a = Some x -> HEAD ∉ l -> (length l <= fuel)%nat ->
  find_free_buf fuel x (mkWorld (with_bufs bs s) e) = Ok (first_buf bs unused l) (mkWorld (with_bufs bs s) e).
Proof.
  revert fuel a x. induction l as [|y l IH]; intros fuel a x Hp Hx Hh Hf.
  - cbn in Hp. rewrite Hp in Hx. injection Hx as <-. by destruct fuel.
  - destruct Hp as [Ha Hp]. rewrite Ha in Hx. injection Hx as <-. rewrite not_elem_of_cons in Hh. destruct Hh as [Hy Hh].
    destruct fuel as [|fuel]; cbn in Hf; [lia|]. cbn [find_free_buf first_buf]. rewrite decide_False by done.
    destruct (path_lookup _ _ _ _ y Hp ltac:(by left)) as [n Hn]. pose proof Hn as Hn'.
    unfold prv in Hn'. apply fmap_Some in Hn' as (bp & Hb & En). rewrite Hb.
    step get_buf_with. fold (unused bp). destruct (unused bp); [done|].
    rewrite <- En. apply (IH fuel y n); [done..|lia].
Qed.

Lemma first_buf_Some bs f l b : first_buf bs f l = Some b ->
  exists bp, bs !! b = Some bp /\ f bp = true /\ b ∈ l.
Proof.
  induction l as [|y l IH]; cbn [first_buf]; [done|]. destruct (bs !! y) as [bp|] eqn:E; [|done].
  destruct (f bp) eqn:F.
  - intros [= <-]. exists bp. split; [done|]. split; [done|]. by left.
  - intros H. destruct (IH H) as (bp' & ? & ? & ?). exists bp'. split; [done|]. split; [done|]. by right.
Qed.

Lemma first_buf_None bs f l : (forall b, b ∈ l -> is_Some (bs !! b)) -> first_buf bs f l = None ->
  forall b bp, b ∈ l -> bs !! b = Some bp -> f bp = false.
Proof.
  induction l as [|y l IH]; intros Hs Hf b bp Hb E; [by apply elem_of_nil in Hb|]. cbn [first_buf] in Hf.
  destruct (Hs y ltac:(by left)) as [yp Hy]. rewrite Hy in Hf. destruct (f yp) eqn:F; [done|].
  apply elem_of_cons in Hb as [->|Hb]; [by simplify_eq|]. apply (IH (fun b H => Hs b ltac:(by right)) Hf b bp Hb E).
Qed.

Lemma ring_alter bs l b f : (forall bp, b_next (f bp) = b_next bp /\ b_prev (f bp) = b_prev bp) ->
  ring bs l -> ring (alter f b bs) l.
Proof.
  intros Hf [Rn Rp Rd]. split; [| |done].
  - refine (path_ext _ _ _ _ _ _ Rn). intros i. unfold nxt. rewrite <- !list_lookup_fmap. f_equal.
    apply fmap_alter_id. apply Hf.
  - refine (path_ext _ _ _ _ _ _ Rp). intros i. unfold prv. rewrite <- !list_lookup_fmap. f_equal.
    apply fmap_alter_id. apply Hf.
Qed.

(** ** What the operations do

    The list [l] names the buffers, most recently used first. *)

Definition grabbed (pid : Z) (bp : buf) : buf :=
  set_b_lock (sl_take pid (b_lock bp)) (set_b_refcnt (u32 (b_refcnt bp + 1)) bp).
Definition recycled (pid dev bn : Z) (bp : buf) : buf :=
  set_b_lock (sl_take pid (b_lock bp)) (set_b_refcnt 1 (set_b_valid 0 (set_b_blockno bn (set_b_dev dev bp)))).

Definition released (bp : buf) : buf :=
  set_b_lock (sl_drop (b_lock bp)) (set_b_refcnt (u32 (b_refcnt bp - 1)) bp).
Definition to_front (b : nat) (l : list nat) : list nat := b :: filter (fun x => x ≠ b) l.

Lemma filter_ne_id (b : nat) (l : list nat) : b ∉ l -> filter (fun x => x ≠ b) l = l.
Proof.
  induction l as [|x l IH]; [done|]. rewrite not_elem_of_cons. intros [Hx Hl].
  by rewrite filter_cons_True, IH by done.
Qed.

Lemma to_front_split b (l1 l2 : list nat) : NoDup (l1 ++ b :: l2) -> to_front b (l1 ++ b :: l2) = b :: l1 ++ l2.
Proof.
  rewrite NoDup_app, NoDup_cons. intros (_ & H12 & Hb & _). unfold to_front. f_equal.
  rewrite filter_app, filter_cons_False by (by intros H; apply H).
  rewrite !filter_ne_id; [done|done|]. intros Hx. apply (H12 b Hx). by left.
Qed.

Lemma to_front_Permutation b l : NoDup l -> b ∈ l -> to_front b l ≡ₚ l.
Proof.
  intros Hd Hb. apply list_elem_of_split in Hb as (l1 & l2 & ->). rewrite to_front_split by done.
  solve_Permutation.
Qed.

Definition all_bufs (l : list nat) : Prop := l ≡ₚ seq 0 NBUF.

Lemma all_bufs_lt l b : all_bufs l -> b ∈ l -> (b < NBUF)%nat.
Proof. unfold all_bufs. intros P H. rewrite P in H. apply elem_of_seq in H. lia. Qed.

Lemma all_bufs_length l : all_bufs l -> length l = NBUF.
Proof. unfold all_bufs. intros P. by rewrite P, length_seq. Qed.

Lemma move_to_front b l bs1 s1 e : ring bs1 l -> b ∈ l ->
  exists bs', (unlink b;; link_front b;; relink_head b) (mkWorld (with_bufs bs1 s1) e) =
    Ok tt (mkWorld (with_bufs bs' s1) e) /\ ring bs' (to_front b l) /\ relinked bs1 bs'.
Proof.
  intros R1 Hb. apply list_elem_of_split in Hb as (l1 & l2 & ->).
  destruct (unlink_ok bs1 l1 b l2 s1 e R1) as (bs2 & E1 & R2 & L2 & S2 & N2).
  destruct (front_ok bs2 b (l1 ++ l2) s1 e R2 S2 N2) as (bs3 & bs4 & E2 & E3 & R4 & L4).
  exists bs4. rewrite (bind_Ok _ _ _ _ _ E1), (bind_Ok _ _ _ _ _ E2), E3. split; [done|].
  rewrite to_front_split; [|by apply ring_nodup, NoDup_cons in R1 as [_ ?]]. split; [done|]. by etrans.
Qed.

Section ops.
Context (p : nat) (pid : Z) (s : kstate) (e : list (kstate -> kstate)) (bs : list buf) (l : list nat).
Context (Hc : calm p s) (Hk : known p pid (kd s)) (R : ring bs l) (P : all_bufs l).

Let LB : LBcache ∈ all_locks.
Proof. apply all_locks_single. set_solver. Qed.

Lemma acq_with lk : acq lk (with_bufs bs s) = with_bufs bs (acq lk s).
Proof. apply acq_mapd. Qed.

Lemma acquiresleep_with b bp bs' : bs' !! b = Some bp -> sl_locked (b_lock bp) = 0 -> (b < NBUF)%nat ->
  acquiresleep (SBuf b) (mkWorld (with_bufs bs' s) e) =
  Ok tt (mkWorld (with_bufs (alter (fun bp => set_b_lock (sl_take pid (b_lock bp)) bp) b bs') s) e).
Proof using Hc Hk.
  intros Hb H0 Hlt. rewrite (acquiresleep_ok p pid (SBuf b) (b_lock bp)); [done|by apply calm_mapd| | |exact Hk|done].
  - by apply all_locks_buf.
  - cbn. by rewrite Hb.
Qed.

(** The start of bget: both searches. *)
Lemma bget_search dev bn : bget dev bn (mkWorld (with_bufs bs s) e) =
  (match first_buf bs (holds dev bn) l with
   | Some b =>
     upd_buf b (fun bp => set_b_refcnt (u32 (b_refcnt bp + 1)) bp);; release LBcache;; acquiresleep (SBuf b);; mret b
   | None =>
     match first_buf bs unused (reverse l) with
     | Some b =>
       upd_buf b (set_b_dev dev);; upd_buf b (set_b_blockno bn);; upd_buf b (set_b_valid 0);;
       upd_buf b (set_b_refcnt 1);; release LBcache;; acquiresleep (SBuf b);; mret b
     | None => panic "bget: no buffers"
     end
   end) (mkWorld (with_bufs bs (acq LBcache s)) e).
Proof using Hc R P LB.
  unfold bget. rewrite (bind_Ok _ _ _ _ _ (acquire_calm p (with_bufs bs s) e (calm_mapd p _ s Hc) _ LB)), acq_with.
  destruct (ring_head bs l R) as (h & Hh & En & Ep). step get_buf_with.
  pose proof (ring_nodup _ _ R) as Hd. apply NoDup_cons in Hd as [Hd _].
  erewrite bind_Ok by (eapply (find_cached_ok bs dev bn l NBUF HEAD);
    [apply R|unfold nxt; by rewrite Hh|done|by rewrite all_bufs_length]).
  destruct (first_buf bs (holds dev bn) l) as [b|]; [done|]. step get_buf_with.
  erewrite bind_Ok by (eapply (find_free_ok bs (reverse l) NBUF HEAD);
    [apply R|unfold prv; by rewrite Hh|by rewrite elem_of_reverse|by rewrite length_reverse, all_bufs_length]).
  done.
Qed.

Lemma release_with bs' : release LBcache (mkWorld (with_bufs bs' (acq LBcache s)) e) =
  Ok tt (mkWorld (with_bufs bs' s) e).
Proof using Hc LB. by apply (release_calm p). Qed.

Lemma bget_cached dev bn b bp :
  first_buf bs (holds dev bn) l = Some b -> bs !! b = Some bp -> sl_locked (b_lock bp) = 0 ->
  bget dev bn (mkWorld (with_bufs bs s) e) = Ok b (mkWorld (with_bufs (alter (grabbed pid) b bs) s) e).
Proof using Hc Hk R P LB.
  intros Hf Hb H0. rewrite bget_search, Hf. destruct (first_buf_Some _ _ _ _ Hf) as (_ & _ & _ & Hin).
  rewrite (bind_Ok _ _ _ _ _ (upd_buf_with b _ bs (acq LBcache s) e ltac:(eauto))).
  rewrite (bind_Ok _ _ _ _ _ (release_with _)).
  erewrite bind_Ok by (eapply acquiresleep_with;
    [by rewrite list_lookup_alter_eq, Hb|exact H0|by eapply all_bufs_lt]).
  run. by rewrite list_alter_alter.
Qed.

Lemma bget_recycles dev bn b bp :
  first_buf bs (holds dev bn) l = None -> first_buf bs unused (reverse l) = Some b ->
  bs !! b = Some bp -> sl_locked (b_lock bp) = 0 ->
  bget dev bn (mkWorld (with_bufs bs s) e) = Ok b (mkWorld (with_bufs (alter (recycled pid dev bn) b bs) s) e).
Proof using Hc Hk R P LB.
  intros Hf Hu Hb H0. rewrite bget_search, Hf, Hu. destruct (first_buf_Some _ _ _ _ Hu) as (_ & _ & _ & Hin).
  rewrite elem_of_reverse in Hin.
  assert (forall f (bs' : list buf), is_Some (bs' !! b) -> is_Some (alter (f : buf -> buf) b bs' !! b)) as Ha.
  { intros f bs' [x Hx]. rewrite list_lookup_alter_eq, Hx. eauto. }
  do 4 erewrite bind_Ok by (apply upd_buf_with; eauto 6). rewrite (bind_Ok _ _ _ _ _ (release_with _)).
  rewrite !list_alter_alter.
  erewrite bind_Ok by (eapply acquiresleep_with;
    [by rewrite list_lookup_alter_eq, Hb|exact H0|by eapply all_bufs_lt]).
  run. by rewrite list_alter_alter.
Qed.

Lemma bget_none dev bn :
  first_buf bs (holds dev bn) l = None -> first_buf bs unused (reverse l) = None ->
  bget dev bn (mkWorld (with_bufs bs s) e) = Panic "bget: no buffers".
Proof using Hc R P LB. intros Hf Hu. by rewrite bget_search, Hf, Hu. Qed.

(** The state with the sleepers of the buffer's lock awake. *)
Definition woken_buf (b : nat) : kstate := mapd (all_procs (wake_eff (CBufLock b) (Some p))) s.

Lemma brelse_ok b bp : bs !! b = Some bp -> b ∈ l -> sl_locked (b_lock bp) = 1 -> sl_pid (b_lock bp) = pid ->
  exists bs', brelse b (mkWorld (with_bufs bs s) e) = Ok tt (mkWorld (with_bufs bs' (woken_buf b)) e) /\
    relinked (alter released b bs) bs' /\
    ring bs' (if u32 (b_refcnt bp - 1) =? 0 then to_front b l else l).
Proof using Hc Hk R P LB.
  intros Hb Hin H1 Hpid. pose proof (all_bufs_lt l b P Hin) as Hlt. unfold brelse.
  rewrite (bind_Ok _ _ _ true (mkWorld (with_bufs bs s) e)).
  2: { rewrite (holdingsleep_ok p pid (SBuf b) (b_lock bp)); [|by apply calm_mapd|by apply all_locks_buf| |exact Hk].
       - by rewrite H1, Hpid, Z.eqb_refl.
       - cbn. by rewrite Hb. }
  cbn [negb]. set (bs0 := alter (fun bp => set_b_lock (sl_drop (b_lock bp)) bp) b bs).
  rewrite (bind_Ok _ _ _ tt (mkWorld (with_bufs bs0 (woken_buf b)) e)).
  2: { rewrite (releasesleep_ok p (SBuf b) (b_lock bp)); [done|by apply calm_mapd|by apply all_locks_buf| |].
       - cbn. by rewrite Hb.
       - exact (proj1 Hk). }
  assert (calm p (woken_buf b)) as Hcw by (by apply calm_mapd).
  rewrite (bind_Ok _ _ _ _ _ (acquire_calm p (with_bufs bs0 (woken_buf b)) e (calm_mapd p _ _ Hcw) _ LB)).
  change (acq LBcache (with_bufs bs0 (woken_buf b))) with (acq LBcache (mapd (set_bufs bs0) (woken_buf b))).
  rewrite acq_mapd. fold (with_bufs bs0 (acq LBcache (woken_buf b))).
  assert (bs0 !! b = Some (set_b_lock (sl_drop (b_lock bp)) bp)) as Hb0.
  { unfold bs0. by rewrite list_lookup_alter_eq, Hb. }
  erewrite bind_Ok by (apply upd_buf_with; eauto). set (bs1 := alter _ b bs0).
  assert (bs1 = alter released b bs) as E1 by (unfold bs1, bs0; by rewrite list_alter_alter).
  assert (bs1 !! b = Some (released bp)) as Hb1 by (by rewrite E1, list_lookup_alter_eq, Hb).
  step get_buf_with. change (b_refcnt (released bp)) with (u32 (b_refcnt bp - 1)).
  assert (ring bs1 l) as R1 by (rewrite E1; by apply ring_alter).
  assert (forall bs', release LBcache (mkWorld (with_bufs bs' (acq LBcache (woken_buf b))) e) =
    Ok tt (mkWorld (with_bufs bs' (woken_buf b)) e)) as Hrel by (intros bs'; by apply (release_calm p)).
  rewrite <- E1. destruct (u32 (b_refcnt bp - 1) =? 0) eqn:E0; cbn [when].
  - destruct (move_to_front b l bs1 (acq LBcache (woken_buf b)) e R1 Hin) as (bs' & E & R' & L').
    exists bs'. by rewrite (bind_Ok _ _ _ _ _ E), Hrel.
  - exists bs1. run. by rewrite Hrel.
Qed.
End ops.

(** ** The cache as an LRU list

    What the cache promises, without locks and links: the list of its slots,
    most recently used first. *)

Record slot := { c_buf : nat; c_dev : Z; c_block : Z; c_refs : Z }.

Definition touch (b : nat) (f : slot -> slot) (c : list slot) : list slot :=
  (fun x => if decide (c_buf x = b) then f x else x) <$> c.
Definition lru_find (f : slot -> bool) (c : list slot) : option nat := c_buf <$> head (filter (fun x => f x = true) c).

(** Look a block up: the slot that holds it, else the least recently used slot
    without references, which then holds it. *)
Definition lru_get (dev bn : Z) (c : list slot) : option (nat * list slot) :=
  match lru_find (fun x => (c_dev x =? dev) && (c_block x =? bn)) c with
  | Some b => Some (b, touch b (fun x => {| x with c_refs := u32 (c_refs x + 1) |}) c)
  | None =>
    match lru_find (fun x => c_refs x =? 0) (reverse c) with
    | Some b => Some (b, touch b (fun x => {| c_buf := c_buf x; c_dev := dev; c_block := bn; c_refs := 1 |}) c)
    | None => None
    end
  end.

(** Drop a reference; the last one makes the slot the most recently used. *)
Definition lru_put (b : nat) (c : list slot) : list slot :=
  let c' := touch b (fun x => {| x with c_refs := u32 (c_refs x - 1) |}) c in
  if decide (Exists (fun x => c_buf x = b /\ c_refs x = 0) c')
  then filter (fun x => c_buf x = b) c' ++ filter (fun x => c_buf x ≠ b) c' else c'.

Definition slot_of (bs : list buf) (b : nat) : slot :=
  match bs !! b with
  | Some bp => {| c_buf := b; c_dev := b_dev bp; c_block := b_blockno bp; c_refs := b_refcnt bp |}
  | None => {| c_buf := b; c_dev := 0; c_block := 0; c_refs := 0 |}
  end.

Definition slots (bs : list buf) (l : list nat) : list slot := slot_of bs <$> l.

(** The buffer cache of [s] is the LRU list [c]. *)
Definition cache_is (s : kstate) (c : list slot) : Prop :=
  exists l, ring (bufs (kd s)) l /\ all_bufs l /\ c = slots (bufs (kd s)) l.

Lemma c_buf_slot_of bs b : c_buf (slot_of bs b) = b.
Proof. unfold slot_of. by destruct (bs !! b). Qed.

Lemma slots_alter bs b bp f g l : bs !! b = Some bp ->
  slot_of (alter f b bs) b = g (slot_of bs b) -> slots (alter f b bs) l = touch b g (slots bs l).
Proof.
  intros Hb Hg. unfold slots, touch. rewrite <- list_fmap_compose. apply list_fmap_ext. intros _ x _. cbn.
  rewrite c_buf_slot_of. destruct (decide (x = b)) as [->|]; [done|].
  unfold slot_of. by rewrite list_lookup_alter_ne.
Qed.

Lemma slots_relinked bs bs' l : relinked bs bs' -> slots bs' l = slots bs l.
Proof.
  intros L. unfold slots. apply list_fmap_ext. intros _ b _. unfold slot_of.
  destruct (bs' !! b) as [bp'|] eqn:E'.
  - destruct (relinked_lookup bs bs' b bp' L E') as (bp & -> & E). unfold core in E.
    assert (forall f : buf -> Z, (forall x, f (core x) = f x) -> f bp' = f bp) as Hf.
    { intros f Hf. rewrite <- (Hf bp'), <- (Hf bp). unfold core. by rewrite E. }
    by rewrite (Hf b_dev), (Hf b_blockno), (Hf b_refcnt).
  - destruct (bs !! b) eqn:E; [|done]. destruct (relinked_is_Some bs bs' b L ltac:(eauto)) as [? ?]. congruence.
Qed.

Lemma lru_find_first bs f g l : (forall b, b ∈ l -> is_Some (bs !! b)) ->
  (forall b bp, bs !! b = Some bp -> f (slot_of bs b) = g bp) -> lru_find f (slots bs l) = first_buf bs g l.
Proof.
  intros Hs Hfg. induction l as [|b l IH]; [done|]. destruct (Hs b ltac:(by left)) as [bp Hb].
  unfold lru_find. cbn [slots fmap list_fmap first_buf]. rewrite Hb, <- (Hfg b bp Hb).
  destruct (f (slot_of bs b)) eqn:E.
  - rewrite filter_cons_True by done. cbn. by rewrite c_buf_slot_of.
  - rewrite filter_cons_False by congruence. apply IH. intros x Hx. apply Hs. by right.
Qed.

Lemma reverse_slots bs l : reverse (slots bs l) = slots bs (reverse l).
Proof. unfold slots. by rewrite fmap_reverse. Qed.

Lemma filter_slots bs (Q : nat -> Prop) `{!forall b, Decision (Q b)} l :
  filter (fun x => Q (c_buf x)) (slots bs l) = slots bs (filter Q l).
Proof.
  induction l as [|b l IH]; [done|]. cbn [slots fmap list_fmap]. destruct (decide (Q b)).
  - rewrite !filter_cons_True by (by rewrite ?c_buf_slot_of). cbn. f_equal. exact IH.
  - rewrite !filter_cons_False by (by rewrite ?c_buf_slot_of). exact IH.
Qed.

Lemma filter_eq_single (b : nat) (l : list nat) : NoDup l -> b ∈ l -> filter (fun x => x = b) l = [b].
Proof.
  induction 1 as [|x l Hx Hd IH]; intros Hb; [by apply elem_of_nil in Hb|].
  destruct (decide (x = b)) as [->|Hne].
  - rewrite filter_cons_True by done. f_equal. clear IH Hb. induction l as [|y l IHl]; [done|].
    rewrite not_elem_of_cons in Hx. rewrite filter_cons_False by naive_solver. apply IHl; [naive_solver|].
    by apply NoDup_cons in Hd as [_ ?].
  - rewrite filter_cons_False by done. apply IH. by apply elem_of_cons in Hb as [->|?].
Qed.

(** The slots after a release. *)
Lemma slots_put bs b bp l : NoDup l -> b ∈ l -> bs !! b = Some bp ->
  lru_put b (slots bs l) =
  slots (alter released b bs) (if u32 (b_refcnt bp - 1) =? 0 then to_front b l else l).
Proof.
  intros Hd Hin Hb. unfold lru_put.
  rewrite <- (slots_alter bs b bp released _ l Hb) by (unfold slot_of; by rewrite list_lookup_alter_eq, Hb).
  assert (Exists (fun x => c_buf x = b /\ c_refs x = 0) (slots (alter released b bs) l) <->
          u32 (b_refcnt bp - 1) = 0) as HE.
  { unfold slots. rewrite Exists_fmap, Exists_exists. split.
    - intros (x & _ & E & H). cbn in E, H. rewrite c_buf_slot_of in E. subst x.
      unfold slot_of in H. by rewrite list_lookup_alter_eq, Hb in H.
    - intros H. exists b. split; [done|]. cbn. rewrite c_buf_slot_of. split; [done|].
      unfold slot_of. by rewrite list_lookup_alter_eq, Hb. }
  destruct (Z.eqb_spec (u32 (b_refcnt bp - 1)) 0) as [E|E].
  - rewrite decide_True by (by apply HE).
    etrans; [exact (f_equal2 app (filter_slots _ (fun x => x = b) l) (filter_slots _ (fun x => x ≠ b) l))|].
    by rewrite filter_eq_single.
  - rewrite decide_False; [done|]. by rewrite HE.
Qed.

(** ** Initialisation *)

Definition fresh_lock : sleeplock := {| sl_locked := 0; sl_name := "buffer"; sl_pid := 0 |}.
Definition init_spin (lk : lockid) (name : string) (s : kstate) : kstate :=
  put_lock lk {| lk_locked := 0; lk_name := name; lk_cpu := None |} s.

Lemma is_free_init lk name s : is_free (init_spin lk name s) lk.
Proof. exists name. unfold init_spin, put_lock. cbn. by rewrite lookup_insert_eq. Qed.

Lemma is_free_init_keep lk lk' name s : is_free s lk' -> is_free (init_spin lk name s) lk'.
Proof.
  intros [n H]. destruct (decide (lk = lk')) as [->|]; [apply is_free_init|].
  exists n. unfold init_spin, put_lock. cbn. by rewrite lookup_insert_ne.
Qed.

Lemma initsleeplock_with b bs s e : is_Some (bs !! b) ->
  initsleeplock (SBuf b) "buffer" (mkWorld (with_bufs bs s) e) =
  Ok tt (mkWorld (with_bufs (alter (set_b_lock fresh_lock) b bs) (init_spin (LBuf b) "sleep lock" s)) e).
Proof.
  intros [bp Hb]. unfold initsleeplock. cbn [sl_spin upd_sl].
  rewrite (bind_Ok _ _ _ _ _ (initlock_ok (LBuf b) "sleep lock" (with_bufs bs s) e)).
  change (put_lock (LBuf b) _ (with_bufs bs s)) with (with_bufs bs (init_spin (LBuf b) "sleep lock" s)).
  assert (forall f (bs' : list buf), is_Some (bs' !! b) -> is_Some (alter (f : buf -> buf) b bs' !! b)) as Ha.
  { intros f bs' [x Hx]. rewrite list_lookup_alter_eq, Hx. eauto. }
  do 2 erewrite bind_Ok by (apply upd_buf_with; eauto 6). rewrite upd_buf_with by eauto 6.
  by rewrite !list_alter_alter.
Qed.

(** The array after the first buffers have been linked: [init] of them have a
    fresh lock, and nothing but links and locks has changed. *)
Definition inited (bs0 bs : list buf) (k : nat) : Prop :=
  relinked (imap (fun i bp => if decide (i < k)%nat then set_b_lock fresh_lock bp else bp) bs0) bs.

Lemma binit_step bs0 bs k s e : inited bs0 bs k -> length bs0 = S NBUF -> (k < NBUF)%nat ->
  ring bs (reverse (seq 0 k)) ->
  exists bs', (link_front k;; initsleeplock (SBuf k) "buffer";; relink_head k) (mkWorld (with_bufs bs s) e) =
    Ok tt (mkWorld (with_bufs bs' (init_spin (LBuf k) "sleep lock" s)) e) /\
    ring bs' (reverse (seq 0 (S k))) /\ inited bs0 bs' (S k).
Proof.
  intros Hi Hlen Hk R.
  assert (length bs = S NBUF) as Hl by (apply (f_equal length) in Hi; len; rewrite !length_fmap, length_imap in Hi; lia).
  assert (is_Some (bs !! k)) as Sk by (apply lookup_lt_is_Some; lia).
  assert (k ∉ HEAD :: reverse (seq 0 k)) as Hn.
  { rewrite not_elem_of_cons, elem_of_reverse, elem_of_seq. unfold HEAD. lia. }
  set (bs1 := alter (set_b_prev HEAD) k (alter (set_b_next (default HEAD (head (reverse (seq 0 k))))) k bs)).
  assert (relinked bs bs1) as L1 by (etrans; [apply relinked_next|apply relinked_prev]).
  rewrite (bind_Ok _ _ _ _ _ (link_front_ok bs k _ s e R Sk)). fold bs1.
  rewrite (bind_Ok _ _ _ _ _ (initsleeplock_with k bs1 s e (relinked_is_Some _ _ _ L1 Sk))).
  destruct (relink_head_ok bs k _ (alter (set_b_lock fresh_lock) k bs1) (init_spin (LBuf k) "sleep lock" s) e R Sk Hn)
    as (bs' & E & R' & L').
  { intros i. unfold nxt, prv. rewrite <- !list_lookup_fmap. fold bs1. by rewrite !fmap_alter_id. }
  exists bs'. split; [exact E|]. split; [by rewrite seq_S, reverse_snoc|].
  unfold inited, relinked in *. rewrite L'. apply list_eq. intros i. rewrite !list_lookup_fmap.
  apply (f_equal (fun l => l !! i)) in Hi. rewrite !list_lookup_fmap, !list_lookup_imap in Hi.
  apply (f_equal (fun l => l !! i)) in L1. rewrite !list_lookup_fmap in L1. rewrite list_lookup_imap.
  destruct (decide (i = k)) as [->|].
  - rewrite list_lookup_alter_eq. rewrite <- L1 in Hi. destruct (bs0 !! k), (bs1 !! k); try done.
    cbn in *. rewrite (decide_False (P := (k < k)%nat)) in Hi by lia. rewrite decide_True by lia.
    apply Some_inj in Hi. f_equal. change (set_b_lock fresh_lock (core b0) = set_b_lock fresh_lock (core b)). by rewrite Hi.
  - rewrite list_lookup_alter_ne by done. rewrite L1, Hi. destruct (bs0 !! i); [|done]. cbn. do 2 f_equal.
    destruct (decide (i < k)%nat), (decide (i < S k)%nat); [done|lia..|done].
Qed.

Lemma binit_loop bs0 bs k n s e : inited bs0 bs k -> length bs0 = S NBUF -> (k + n = NBUF)%nat ->
  ring bs (reverse (seq 0 k)) ->
  exists bs' s', for_each (seq k n) (fun b => link_front b;; initsleeplock (SBuf b) "buffer";; relink_head b)
      (mkWorld (with_bufs bs s) e) = Ok tt (mkWorld (with_bufs bs' s') e) /\
    ring bs' (reverse (seq 0 NBUF)) /\ inited bs0 bs' NBUF /\ s' = set_locks (locks s') s /\
    (forall lk, is_free s lk -> is_free s' lk) /\ (forall b, (k <= b < NBUF)%nat -> is_free s' (LBuf b)).
Proof.
  revert bs k s. induction n as [|n IH]; intros bs k s Hi Hlen Hk R.
  - exists bs, s. replace k with NBUF in * by lia. split; [done|]. split; [done|]. split; [done|].
    split; [by destruct s|]. split; [done|]. lia.
  - destruct (binit_step bs0 bs k s e Hi Hlen ltac:(lia) R) as (bs1 & E1 & R1 & I1).
    destruct (IH bs1 (S k) (init_spin (LBuf k) "sleep lock" s) I1 Hlen ltac:(lia) R1)
      as (bs2 & s2 & E2 & R2 & I2 & Es & Hf & Hb).
    exists bs2, s2. cbn [seq for_each]. rewrite (bind_Ok _ _ _ _ _ E1), E2. split; [done|]. split; [done|]. split; [done|].
    split; [|split].
    + by rewrite Es.
    + intros lk Hlk. apply Hf. by apply is_free_init_keep.
    + intros b Hb'. destruct (decide (b = k)) as [->|]; [apply Hf, is_free_init|apply Hb; lia].
Qed.

(** binit links every buffer, the last one most recently used, and leaves all
    their locks free. *)
Lemma binit_ok s e : length (bufs (kd s)) = S NBUF ->
  exists bs' s', binit (mkWorld s e) = Ok tt (mkWorld (with_bufs bs' s') e) /\
    ring bs' (reverse (seq 0 NBUF)) /\ inited (bufs (kd s)) bs' NBUF /\ s' = set_locks (locks s') s /\
    (forall lk, is_free s lk -> is_free s' lk) /\ is_free s' LBcache /\
    (forall b, (b < NBUF)%nat -> is_free s' (LBuf b)).
Proof.
  intros Hlen. set (bs0 := bufs (kd s)) in *. unfold binit.
  rewrite (bind_Ok _ _ _ _ _ (initlock_ok LBcache "bcache" s e)). fold (init_spin LBcache "bcache" s).
  set (s1 := init_spin LBcache "bcache" s). rewrite <- (with_bufs_id s1).
  change (bufs (kd s1)) with bs0.
  assert (is_Some (bs0 !! HEAD)) as Sh by (apply lookup_lt_is_Some; unfold HEAD; lia).
  rewrite (bind_Ok _ _ _ _ _ (upd_buf_with HEAD _ bs0 s1 e Sh)).
  erewrite bind_Ok by (apply upd_buf_with; eapply relinked_is_Some; [apply relinked_prev|done]).
  set (bs1 := alter _ HEAD (alter _ HEAD bs0)).
  destruct (binit_loop bs0 bs1 0 NBUF s1 e) as (bs' & s' & E & R & I & Es & Hf & Hb); [|done|done| |].
  - unfold inited. replace (imap _ bs0) with bs0; [etrans; [apply relinked_prev|apply relinked_next]|].
    apply list_eq. intros i. rewrite list_lookup_imap. by destruct (bs0 !! i).
  - split; [| |repeat constructor; set_solver].
    + cbn. unfold bs1, nxt. destruct Sh as [h Hh]. by rewrite !list_lookup_alter_eq, Hh.
    + cbn. unfold bs1, prv. destruct Sh as [h Hh]. by rewrite !list_lookup_alter_eq, Hh.
  - exists bs', s'. split; [exact E|]. split; [done|]. split; [done|]. split; [by rewrite Es|].
    split; [|split].
    + intros lk Hlk. apply Hf. by apply is_free_init_keep.
    + apply Hf, is_free_init.
    + intros b Hb'. apply Hb. lia.
Qed.

(** The cache after binit, on a hart that runs process 0. *)
Lemma inited_lookup bs0 bs b bp0 : inited bs0 bs NBUF -> (b < NBUF)%nat -> bs0 !! b = Some bp0 ->
  exists bp, bs !! b = Some bp /\ core bp = core (set_b_lock fresh_lock bp0).
Proof.
  intros Hi Hb H0. apply (f_equal (fun l => l !! b)) in Hi. rewrite !list_lookup_fmap, list_lookup_imap, H0 in Hi.
  cbn [fmap option_fmap option_map] in Hi. rewrite decide_True in Hi by done. destruct (bs !! b) as [bp|]; [|done].
  exists bp. split; [done|]. by apply Some_inj in Hi.
Qed.

Definition empty_cache : list slot :=
  (fun b => {| c_buf := b; c_dev := 0; c_block := 0; c_refs := 0 |}) <$> reverse (seq 0 NBUF).

Lemma booted_cache : exists s, binit (mkWorld running0 []) = Ok tt (mkWorld s []) /\
  calm 0 s /\ known 0 0 (kd s) /\ cache_is s empty_cache /\
  (forall b, (b < NBUF)%nat -> sl_of (kd s) (SBuf b) = Some fresh_lock).
Proof.
  destruct (binit_ok running0 []) as (bs & s & E & R & I & Es & Hf & _); [exact (length_replicate (S NBUF) buf0)|].
  exists (with_bufs bs s). split; [exact E|]. split.
  { apply calm_mapd. split; [by rewrite Es; apply settled_running0|by rewrite Es|by rewrite Es|].
    intros lk Hlk. by apply Hf, running0_free. }
  assert (kd s = kdata0) as Ed by (rewrite Es; reflexivity).
  split. { cbn. rewrite Ed. split; [exact (length_replicate NPROC proc0)|]. exists proc0. split; reflexivity. }
  assert (forall b, (b < NBUF)%nat -> exists bp, bs !! b = Some bp /\ core bp = core (set_b_lock fresh_lock buf0)) as Hb.
  { intros b Hb. apply (inited_lookup _ _ b buf0 I Hb). apply lookup_replicate. split; [reflexivity|]. lia. }
  split.
  - exists (reverse (seq 0 NBUF)). split; [exact R|]. split; [apply reverse_Permutation|].
    apply list_fmap_ext. intros i b Hin. apply list_elem_of_lookup_2 in Hin. rewrite elem_of_reverse, elem_of_seq in Hin.
    destruct (Hb b ltac:(lia)) as (bp & Hbp & Ec). unfold slot_of. cbn. rewrite Hbp.
    rewrite (f_equal b_dev Ec : b_dev bp = 0), (f_equal b_blockno Ec : b_blockno bp = 0),
      (f_equal b_refcnt Ec : b_refcnt bp = 0). reflexivity.
  - intros b Hlt. destruct (Hb b Hlt) as (bp & Hbp & Ec). cbn. rewrite Hbp. cbn. f_equal.
    exact (f_equal b_lock Ec).
Qed.

(** ** Theorems *)



(** C34: the buffer cache is an LRU cache, release.  brelse of a buffer
    this process has locked returns, unlocks it and leaves the cache as
    [lru_put] leaves it: the last reference makes the buffer the most recently
    used. *)
Theorem brelse_refines p pid s e c b l :
  calm p s -> known p pid (kd s) -> cache_is s c -> (b < NBUF)%nat ->
  sl_of (kd s) (SBuf b) = Some l -> sl_locked l = 1 -> sl_pid l = pid ->
  exists s', brelse b (mkWorld s e) = Ok tt (mkWorld s' e) /\
    cache_is s' (lru_put b c) /\ sl_of (kd s') (SBuf b) = Some (sl_drop l).
Proof.
  intros Hc Hk (o & R & P & ->) Hlt Hl H1 Hpid. set (bs := bufs (kd s)) in *. cbn in Hl. fold bs in Hl.
  apply fmap_Some in Hl as (bp & Hb & ->).
  assert (b ∈ o) as Hin. { unfold all_bufs in P. rewrite P. apply elem_of_seq. lia. }
  assert (NoDup o) as Hd by (by apply ring_nodup, NoDup_cons in R as [_ ?]).
  destruct (brelse_ok p pid s e bs o Hc Hk R P b bp Hb Hin H1 Hpid) as (bs' & E & L & R').
  unfold bs in E at 1. rewrite with_bufs_id in E. exists (with_bufs bs' (woken_buf p s b)). split; [done|]. split.
  - eexists. split; [exact R'|]. split.
    + unfold all_bufs. destruct (_ =? 0); [|done]. etrans; [by apply to_front_Permutation|done].
    + rewrite (slots_put bs b bp) by done. symmetry. by apply slots_relinked.
  - cbn. destruct (relinked_is_Some _ _ b L) as [bp' Hb']; [rewrite list_lookup_alter_eq, Hb; eauto|]. rewrite Hb'.
    destruct (relinked_lookup _ _ _ _ L Hb') as (bp1 & Hb1 & Ec). rewrite list_lookup_alter_eq, Hb in Hb1.
    injection Hb1 as <-. cbn. f_equal. by apply (f_equal b_lock) in Ec.
Qed.


Lemma brelse_refines_witness : exists s s', brelse 4 (mkWorld s []) = Ok tt (mkWorld s' []) /\
  head (c_buf <$> lru_put 4 (touch 4 (fun x => {| x with c_refs := 1 |}) empty_cache)) = Some 4%nat /\
  cache_is s' (lru_put 4 (touch 4 (fun x => {| x with c_refs := 1 |}) empty_cache)).
Proof.
  destruct booted_cache as (s & _ & Hc & Hk & (l & R & P & E) & Hl).
  pose proof (Hl 4%nat ltac:(unfold NBUF; lia)) as H4. cbn in H4. apply fmap_Some in H4 as (bp & H4 & El).
  set (f := fun bp => set_b_lock (sl_take 0 (b_lock bp)) (set_b_refcnt 1 bp)).
  exists (mapd (at_buf 4 f) s).
  destruct (brelse_refines 0 0 (mapd (at_buf 4 f) s) [] (touch 4 (fun x => {| x with c_refs := 1 |}) empty_cache) 4
              (sl_take 0 fresh_lock)) as (s' & E' & C' & _).
  - by apply calm_mapd.
  - exact Hk.
  - exists l. split; [by apply ring_alter|]. split; [done|]. rewrite E. symmetry.
    apply (slots_alter (bufs (kd s)) 4 bp); [done|]. unfold slot_of. by rewrite list_lookup_alter_eq, H4.
  - unfold NBUF. lia.
  - cbn. rewrite list_lookup_alter_eq, H4. cbn. by rewrite <- El.
  - reflexivity.
  - reflexivity.
  - exists s'. split; [done|]. split; [reflexivity|done].
Defined.
