(* ===== verification/Cache.v ===== *)
(** * The contents of the buffer cache

    A logic for code that reads and writes blocks through the cache of [Bio].
    [cache d C Pn H] says what the buffers, the platter and the reference counts
    of [d] are in terms of the logical contents [C] of the blocks of one device,
    the blocks [Pn] pinned by the log, and the buffers [H] this process has
    locked; each operation of the cache then has a specification on [C], [Pn]
    and [H] alone. *)

From S2P Require Import Prelude Prog State Spinlock Switch Sleeplock Bio.

(** A process that does file-system work: its slot, its identifier, the device,
    and the data of the file system that the cache and the log leave alone, the
    table of inodes and the super block. *)
Class Worker := { w_proc : nat; w_pid : Z; w_dev : Z; w_inodes : list inode; w_sb : superblock }.

Lemma elem_of_perm {A} (x : A) (l l' : list A) : l ≡ₚ l' -> x ∈ l <-> x ∈ l'.
Proof. intros E. by rewrite E. Qed.

Lemma nodup_perm {A} (l l' : list A) : l ≡ₚ l' -> NoDup l -> NoDup l'.
Proof. intros E. exact (proj1 (NoDup_Permutation_proper _ _ E)). Qed.

Section cache.
Context {Wk : Worker} {K : Disk} {DS : DiskSpec}.
Implicit Types (C P : gmap Z (list Z)) (Pn : list Z) (H : list (nat * Z)).

Definition on_dev (bp : buf) (n : Z) : Prop := b_dev bp = w_dev /\ b_blockno bp = n.

Record buf_ok C Pn H (b : nat) (bp : buf) : Prop := {
  bo_refs : b_refcnt bp = b2z (bool_decide (b_dev bp = w_dev /\ b_blockno bp ∈ Pn)) + b2z (bool_decide (b ∈ H.*1));
  bo_free : b ∉ H.*1 -> sl_locked (b_lock bp) = 0;
  bo_mine : b ∈ H.*1 -> sl_locked (b_lock bp) = 1 /\ sl_pid (b_lock bp) = w_pid;
  bo_data : b_dev bp = w_dev -> b_valid bp = 1 /\ C !! b_blockno bp = Some (b_data bp)
}.

Record cache (d : kdata) C Pn H : Prop := {
  ca_ring : exists l, ring (bufs d) l /\ all_bufs l;
  ca_buf b bp : (b < NBUF)%nat -> bufs d !! b = Some bp -> buf_ok C Pn H b bp;
  ca_uniq b1 b2 bp1 bp2 n : (b1 < NBUF)%nat -> (b2 < NBUF)%nat -> bufs d !! b1 = Some bp1 -> bufs d !! b2 = Some bp2 ->
    on_dev bp1 n -> on_dev bp2 n -> b1 = b2;
  ca_held b n : (b, n) ∈ H -> (b < NBUF)%nat /\ exists bp, bufs d !! b = Some bp /\ on_dev bp n;
  ca_pin n : n ∈ Pn -> exists b bp, (b < NBUF)%nat /\ bufs d !! b = Some bp /\ on_dev bp n;
  ca_disk n : n ∉ Pn -> n ∉ H.*2 -> platter d !! n = C !! n;
  ca_dom n : is_Some (C !! n) -> is_Some (platter d !! n);
  ca_nodup : NoDup H.*1 /\ NoDup Pn
}.

(** ** Generalities *)

(** The order of the pinned and of the held blocks does not matter. *)
Lemma cache_perm d C Pn Pn' H H' : Pn ≡ₚ Pn' -> H ≡ₚ H' -> cache d C Pn H -> cache d C Pn' H'.
Proof.
  intros EP EH [A1 A2 A3 A4 A5 A6 A7 [A8 A9]].
  assert (H.*1 ≡ₚ H'.*1) as E1 by (by rewrite EH). assert (H.*2 ≡ₚ H'.*2) as E2 by (by rewrite EH).
  split; [done| |done| | | |done|].
  - intros b bp Hb Hl. destruct (A2 b bp Hb Hl) as [B1 B2 B3 B4]. split; [| | |done].
    + rewrite B1. f_equal; f_equal; apply bool_decide_ext; rewrite ?(elem_of_perm _ _ _ EP), ?(elem_of_perm _ _ _ E1); done.
    + rewrite <- (elem_of_perm _ _ _ E1). done.
    + rewrite <- (elem_of_perm _ _ _ E1). done.
  - intros b n. rewrite <- (elem_of_perm _ _ _ EH). apply A4.
  - intros n. rewrite <- (elem_of_perm _ _ _ EP). apply A5.
  - intros n. rewrite <- (elem_of_perm _ _ _ EP), <- (elem_of_perm _ _ _ E2). apply A6.
  - split; by eapply nodup_perm.
Qed.

Lemma held_fst (H : list (nat * Z)) b n : (b, n) ∈ H -> b ∈ H.*1.
Proof. intros Hin. apply list_elem_of_fmap. by exists (b, n). Qed.

Lemma held_snd (H : list (nat * Z)) b n : (b, n) ∈ H -> n ∈ H.*2.
Proof. intros Hin. apply list_elem_of_fmap. by exists (b, n). Qed.

(** What a process working on the file system has: its hart, its process, the
    cache, the platter [P], the writes [W] so far, and the log [L]. *)
Record fsst (s : kstate) C Pn H P (W : list (Z * list Z)) (L : logstate) : Prop := {
  fs_calm : calm w_proc s;
  fs_known : known w_proc w_pid (kd s);
  fs_cache : cache (kd s) C Pn H;
  fs_platter : platter (kd s) = P;
  fs_writes : dwrites (kd s) = W;
  fs_log : logS (kd s) = L;
  fs_frame : itable (kd s) = w_inodes /\ sb (kd s) = w_sb;
  fs_disk : disk_ready (vdiskS (kd s)) (platter (kd s))
}.

Lemma known_lt d : known w_proc w_pid d -> (w_proc < NPROC)%nat.
Proof. intros (Hl & pr & Hpr & _). rewrite <- Hl. exact (lookup_lt_Some _ _ _ Hpr). Qed.

Lemma known_beside ps v r d : p_pid <$> ps = p_pid <$> procs d -> known w_proc w_pid d -> known w_proc w_pid (beside ps v r d).
Proof.
  intros E (Hl & pr & Hpr & Hpid). assert (length ps = length (procs d)) as El by (by rewrite <- (length_fmap p_pid ps), E, length_fmap).
  split; [cbn; congruence|]. pose proof (f_equal (lookup w_proc) E) as Ep. rewrite !list_lookup_fmap, Hpr in Ep.
  cbn. destruct (ps !! w_proc) as [pr'|]; [|done]. exists pr'. split; [done|]. by injection Ep as ->.
Qed.

(** The driver at work between two operations *)
Lemma fsst_beside s C Pn H P W L ps v r : p_pid <$> ps = p_pid <$> procs (kd s) -> disk_ready v P ->
  fsst s C Pn H P W L -> fsst (mapd (beside ps v r) s) C Pn H P W L.
Proof.
  intros E R [Fc Fk Fa FP FW FL FR FD]. split; [by apply calm_mapd|by apply known_beside| |exact FP|exact FW|exact FL|exact FR|].
  - by destruct Fa as [A1 A2 A3 A4 A5 A6 A7 A8].
  - by rewrite <- FP in R.
Qed.

(** ** Locked buffers *)

Lemma held_lookup s C Pn H P W L b n : fsst s C Pn H P W L -> (b, n) ∈ H ->
  exists bp, bufs (kd s) !! b = Some bp /\ on_dev bp n /\ C !! n = Some (b_data bp) /\ (b < NBUF)%nat /\
    b_valid bp = 1 /\ sl_locked (b_lock bp) = 1 /\ sl_pid (b_lock bp) = w_pid /\
    b_refcnt bp = b2z (bool_decide (n ∈ Pn)) + 1.
Proof.
  intros F Hin. destruct (ca_held _ _ _ _ (fs_cache _ _ _ _ _ _ _ F) b n Hin) as (Hlt & bp & Hb & Hd & Hn).
  destruct (ca_buf _ _ _ _ (fs_cache _ _ _ _ _ _ _ F) b bp Hlt Hb) as [B1 B2 B3 B4].
  destruct (B4 Hd) as [Hv Hc]. destruct (B3 (held_fst H b n Hin)) as [H1 Hp]. rewrite Hn in *.
  exists bp. split; [done|]. split; [by split|]. do 5 (split; [done|]). rewrite B1.
  rewrite (bool_decide_ext (b_dev bp = w_dev /\ n ∈ Pn) (n ∈ Pn)) by tauto.
  by rewrite (bool_decide_eq_true_2 (b ∈ H.*1)) by (by eapply held_fst).
Qed.

Lemma get_held s C Pn H P W L b n e : fsst s C Pn H P W L -> (b, n) ∈ H ->
  exists bp, get_buf b (mkWorld s e) = Ok bp (mkWorld s e) /\ C !! n = Some (b_data bp) /\ b_blockno bp = n.
Proof.
  intros F Hin. destruct (held_lookup s C Pn H P W L b n F Hin) as (bp & Hb & [_ Hn] & Hc & _).
  exists bp. split; [by apply get_buf_ok|done].
Qed.

Lemma held_unique s C Pn H P W L b b' n : fsst s C Pn H P W L -> (b, n) ∈ H -> (b', n) ∈ H -> b = b'.
Proof.
  intros F H1 H2. destruct (ca_held _ _ _ _ (fs_cache _ _ _ _ _ _ _ F) b n H1) as (L1 & bp1 & E1 & D1).
  destruct (ca_held _ _ _ _ (fs_cache _ _ _ _ _ _ _ F) b' n H2) as (L2 & bp2 & E2 & D2).
  exact (ca_uniq _ _ _ _ (fs_cache _ _ _ _ _ _ _ F) b b' bp1 bp2 n L1 L2 E1 E2 D1 D2).
Qed.

(** ** Changes of one buffer *)

(** Equal up to their links. *)
Lemma core_fields bp bp' : core bp' = core bp ->
  b_valid bp' = b_valid bp /\ b_dev bp' = b_dev bp /\ b_blockno bp' = b_blockno bp /\ b_lock bp' = b_lock bp /\
  b_refcnt bp' = b_refcnt bp /\ b_data bp' = b_data bp.
Proof.
  intros E. pose proof (f_equal b_valid E) as E1. pose proof (f_equal b_dev E) as E2.
  pose proof (f_equal b_blockno E) as E3. pose proof (f_equal b_lock E) as E4.
  pose proof (f_equal b_refcnt E) as E5. pose proof (f_equal b_data E) as E6. by cbn in *.
Qed.

Lemma buf_ok_core C Pn H b bp bp' : core bp' = core bp -> buf_ok C Pn H b bp -> buf_ok C Pn H b bp'.
Proof.
  intros E [B1 B2 B3 B4]. destruct (core_fields bp bp' E) as (E1 & E2 & E3 & E4 & E5 & E6).
  split; by rewrite ?E1, ?E2, ?E3, ?E4, ?E5, ?E6.
Qed.

(** The array [bs'] is [bs] with the buffer [b] changed by [f], up to links. *)
Definition changed (b : nat) (f : buf -> buf) (bs bs' : list buf) : Prop := relinked (alter f b bs) bs'.

Lemma changed_lookup b f bs bs' i bp' : changed b f bs bs' -> bs' !! i = Some bp' ->
  exists bp, bs !! i = Some bp /\ core bp' = core (if decide (i = b) then f bp else bp).
Proof.
  intros Ch Hi. destruct (relinked_lookup _ _ i bp' Ch Hi) as (bp & Hl & E).
  destruct (decide (i = b)) as [->|Hne].
  - rewrite list_lookup_alter_eq in Hl. apply fmap_Some in Hl as (bp0 & Hl & ->). by exists bp0.
  - rewrite list_lookup_alter_ne in Hl by done. by exists bp.
Qed.

Lemma changed_back b f bs bs' i bp : changed b f bs bs' -> bs !! i = Some bp ->
  exists bp', bs' !! i = Some bp' /\ core bp' = core (if decide (i = b) then f bp else bp).
Proof.
  intros Ch Hi. destruct (relinked_is_Some _ bs' i Ch) as [bp' Hb'].
  { apply lookup_lt_is_Some. rewrite length_alter. by eapply lookup_lt_Some. }
  exists bp'. split; [done|]. destruct (changed_lookup b f bs bs' i bp' Ch Hb') as (bp1 & H1 & E). rewrite Hi in H1. injection H1 as <-. exact E.
Qed.

(** Such a change, where [f] keeps the block a buffer holds, gives a cache
    again. *)
Lemma cache_change d d' C C' Pn Pn' H H' b f :
  cache d C Pn H -> changed b f (bufs d) (bufs d') ->
  (forall bp, b_dev (f bp) = b_dev bp /\ b_blockno (f bp) = b_blockno bp) ->
  (exists l, ring (bufs d') l /\ all_bufs l) ->
  (forall bp, bufs d !! b = Some bp -> buf_ok C Pn H b bp -> buf_ok C' Pn' H' b (f bp)) ->
  (forall i bp, i ≠ b -> (i < NBUF)%nat -> bufs d !! i = Some bp -> buf_ok C Pn H i bp -> buf_ok C' Pn' H' i bp) ->
  (forall i n, (i, n) ∈ H' -> (i < NBUF)%nat /\ exists bp, bufs d !! i = Some bp /\ on_dev bp n) ->
  (forall n, n ∈ Pn' -> exists i bp, (i < NBUF)%nat /\ bufs d !! i = Some bp /\ on_dev bp n) ->
  (forall n, n ∉ Pn' -> n ∉ H'.*2 -> platter d' !! n = C' !! n) ->
  (forall n, is_Some (C' !! n) -> is_Some (platter d' !! n)) ->
  NoDup H'.*1 -> NoDup Pn' -> cache d' C' Pn' H'.
Proof.
  intros [_ A2 A3 _ _ _ _ _] Ch Hf HR Hself Hoth Hheld Hpin Hdisk Hdom ND1 ND2.
  assert (forall i bp bp' n, core bp' = core (if decide (i = b) then f bp else bp) -> on_dev bp' n <-> on_dev bp n) as Hon.
  { intros i bp bp' n E. destruct (core_fields _ _ E) as (_ & E2 & E3 & _). unfold on_dev. rewrite E2, E3.
    destruct (decide (i = b)); [|done]. destruct (Hf bp) as [-> ->]. done. }
  split; [done| | | | |done|done|done].
  - intros i bp' Hi Hl. destruct (changed_lookup b f _ _ i bp' Ch Hl) as (bp & Hb & E).
    apply (buf_ok_core _ _ _ _ _ _ E). destruct (decide (i = b)) as [->|Hne].
    + apply Hself; [done|]. by apply A2.
    + apply Hoth; [done..|]. by apply A2.
  - intros b1 b2 bp1' bp2' n L1 L2 H1 H2 D1 D2.
    destruct (changed_lookup b f _ _ b1 bp1' Ch H1) as (bp1 & Hb1 & E1).
    destruct (changed_lookup b f _ _ b2 bp2' Ch H2) as (bp2 & Hb2 & E2).
    apply (A3 b1 b2 bp1 bp2 n L1 L2 Hb1 Hb2); [by apply (Hon b1 bp1 bp1' n E1)|by apply (Hon b2 bp2 bp2' n E2)].
  - intros i n Hin. destruct (Hheld i n Hin) as (Hlt & bp & Hb & Hd). split; [done|].
    destruct (changed_back b f _ _ i bp Ch Hb) as (bp' & Hb' & E). exists bp'. split; [done|]. by apply (Hon i bp bp' n E).
  - intros n Hn. destruct (Hpin n Hn) as (i & bp & Hlt & Hb & Hd).
    destruct (changed_back b f _ _ i bp Ch Hb) as (bp' & Hb' & E). exists i, bp'. split; [done|]. split; [done|].
    by apply (Hon i bp bp' n E).
Qed.

Lemma known_woken b d : known w_proc w_pid d -> known w_proc w_pid (all_procs (wake_eff (CBufLock b) (Some w_proc)) d).
Proof.
  intros (Hl & pr & Hpr & Hpid). split; [cbn; by rewrite length_imap|]. exists pr. split; [|done].
  cbn. rewrite list_lookup_imap, Hpr. cbn. f_equal. unfold wake_eff. by rewrite bool_decide_eq_true_2.
Qed.

(** ** The operations

    In each specification the state [s] a process works in is described by
    [fsst], before and after. *)

Lemma ring_of d d' b f : (exists l, ring (bufs d) l /\ all_bufs l) -> bufs d' = alter f b (bufs d) ->
  (forall bp, b_next (f bp) = b_next bp /\ b_prev (f bp) = b_prev bp) -> exists l, ring (bufs d') l /\ all_bufs l.
Proof. intros (l & R & A) -> Hf. exists l. split; [by apply ring_alter|done]. Qed.

Lemma others_data s C Pn H P W L b n x i bp : fsst s C Pn H P W L -> (b, n) ∈ H -> i ≠ b -> (i < NBUF)%nat ->
  bufs (kd s) !! i = Some bp -> buf_ok C Pn H i bp -> buf_ok (<[n := x]> C) Pn H i bp.
Proof.
  intros F Hin Hne Hlt Hb [B1 B2 B3 B4]. split; [done..|]. intros Hd. destruct (B4 Hd) as [Hv Hc]. split; [done|].
  rewrite lookup_insert_ne; [done|]. intros E.
  destruct (held_lookup s C Pn H P W L b n F Hin) as (bp' & Hb' & Hon & _ & Hlt' & _).
  apply Hne. apply (ca_uniq _ _ _ _ (fs_cache _ _ _ _ _ _ _ F) i b bp bp' n); done.
Qed.

Lemma upd_held s C Pn H P W L b n c x g e :
  fsst s C Pn H P W L -> (b, n) ∈ H -> C !! n = Some c -> (forall bp, b_data bp = c -> g bp = set_b_data x bp) ->
  exists s', upd_buf b g (mkWorld s e) = Ok tt (mkWorld s' e) /\ fsst s' (<[n := x]> C) Pn H P W L.
Proof.
  intros F Hin Hc Hg. destruct (held_lookup s C Pn H P W L b n F Hin) as (bp & Hb & Hon & Hc' & Hlt & _).
  assert (alter g b (bufs (kd s)) = alter (set_b_data x) b (bufs (kd s))) as E.
  { apply list_alter_ext; [|done]. intros bp' Hb'. apply Hg. congruence. }
  exists (mapd (at_buf b g) s). split; [by eapply upd_buf_ok|].
  pose proof F as [Fc Fk Fa FP FW FL FR FD]. split; [by apply calm_mapd|exact Fk| |exact FP|exact FW|exact FL|exact FR|exact FD].
  pose proof Fa as [A1 A2 A3 A4 A5 A6 A7 [A8 A9]].
  apply (cache_change (kd s) _ C _ Pn _ H _ b (set_b_data x)); try done.
  - unfold changed. cbn. by rewrite E.
  - eapply (ring_of _ _ b (set_b_data x)); [done|exact E|done].
  - intros bp' Hb' [B1 B2 B3 B4]. rewrite Hb in Hb'. injection Hb' as <-. split; [done..|]. intros Hd.
    split; [by apply B4|]. cbn. destruct Hon as [_ ->]. by rewrite lookup_insert_eq.
  - intros i bp' Hne Hl Hi Hok. by eapply others_data.
  - intros m Hm Hm'. cbn. rewrite lookup_insert_ne; [by apply A6|]. intros <-. apply Hm'. by eapply held_snd.
  - intros m. destruct (decide (n = m)) as [<-|]; [intros _; apply A7; eauto|]. rewrite lookup_insert_ne by done. apply A7.
Qed.

Lemma bwrite_spec s C Pn H P W L b n c e :
  fsst s C Pn H P W L -> (b, n) ∈ H -> C !! n = Some c ->
  exists s', bwrite b (mkWorld s e) = Ok tt (mkWorld s' e) /\ fsst s' C Pn H (<[n := c]> P) ((n, c) :: W) L.
Proof using DS.
  intros F Hin Hc. destruct (held_lookup s C Pn H P W L b n F Hin) as (bp & Hb & [Hd Hn] & Hc' & Hlt & Hv & H1 & Hp & Hr).
  pose proof F as [Fc Fk Fa FP FW FL FR FD]. assert (is_Some (platter (kd s) !! b_blockno bp)) as Hpl by (rewrite Hn; apply (ca_dom _ _ _ _ Fa); eauto).
  destruct (disk_rw_ok w_proc b bp true s e Fc (proj1 Fk) (known_lt _ Fk) FD Hb Hpl) as (ps & v & r & E & Eps & Rv).
  exists (mapd (transfer b true) (mapd (beside ps v r) s)). split.
  - unfold bwrite. rewrite (bind_Ok _ _ _ true (mkWorld s e)).
    + cbn [negb]. rewrite E, mapd_mapd. do 2 f_equal. unfold mapd. by rewrite transfer_beside.
    + rewrite (holdingsleep_ok w_proc w_pid (SBuf b) (b_lock bp)); [|done|by apply all_locks_buf| |done].
      * by rewrite H1, Hp, Z.eqb_refl.
      * cbn. by rewrite Hb.
  - assert (b_data bp = c) as Ec by congruence. assert (platter (transfer b true (kd s)) = <[n := c]> P) as Ep.
    { unfold transfer. rewrite Hb. cbn. by rewrite Hn, Ec, FP. }
    rewrite Ep in Rv. clear E Ep. pose proof (calm_mapd _ (transfer b true) _ (calm_mapd _ (beside ps v r) _ Fc)) as Hcalm. split; [exact Hcalm|..]; clear Hcalm; unfold transfer;
    unfold mapd; cbn [kd set_kd]; change (bufs (beside ps v r (kd s))) with (bufs (kd s)); rewrite ?Hb; cbn;
      [exact (known_beside ps v r _ Eps Fk)| | |by rewrite Hn, Ec, FW|exact FL|exact FR|].
    + pose proof Fa as [A1 A2 A3 A4 A5 A6 A7 [A8 A9]].
      apply (cache_change (kd s) _ C _ Pn _ H _ b (set_b_disk 0)); try done.
      * eapply (ring_of _ _ b (set_b_disk 0)); [done|reflexivity|done].
      * intros bp' Hb' [B1 B2 B3 B4]. by split.
      * intros m Hm Hm'. cbn. rewrite lookup_insert_ne; [by apply A6|]. rewrite Hn. intros <-. apply Hm'. by eapply held_snd.
      * intros m Hm. cbn. destruct (decide (b_blockno bp = m)) as [<-|]; [rewrite lookup_insert_eq; eauto|].
        rewrite lookup_insert_ne by done. by apply A7.
    + by rewrite Hn, Ec, FP.
    + by rewrite Hn, Ec, FP.
Qed.

(** Changing the reference count of a buffer under bcache.lock. *)
Lemma ref_change s C Pn H P W L b n g e :
  fsst s C Pn H P W L -> (b, n) ∈ H ->
  (acquire LBcache;; upd_buf b g;; release LBcache) (mkWorld s e) = Ok tt (mkWorld (mapd (at_buf b g) s) e).
Proof.
  intros F Hin. destruct (held_lookup s C Pn H P W L b n F Hin) as (bp & Hb & _).
  assert (LBcache ∈ all_locks) as LB by (apply all_locks_single; set_solver).
  pose proof (fs_calm _ _ _ _ _ _ _ F) as Fc.
  rewrite (bind_Ok _ _ _ _ _ (acquire_calm w_proc s e Fc _ LB)).
  rewrite (bind_Ok _ _ _ _ _ (upd_buf_ok b g bp (acq LBcache s) e Hb)). by apply (release_calm w_proc s e Fc).
Qed.

(** The count of a buffer when its block is pinned or unpinned. *)
Lemma repin s C Pn Pn' H P W L b n k e :
  fsst s C Pn H P W L -> (b, n) ∈ H -> NoDup Pn' -> (forall m, m ≠ n -> m ∈ Pn' <-> m ∈ Pn) ->
  u32 (b2z (bool_decide (n ∈ Pn)) + 1 + k) = b2z (bool_decide (n ∈ Pn')) + 1 ->
  exists s', (acquire LBcache;; upd_buf b (fun bp => set_b_refcnt (u32 (b_refcnt bp + k)) bp);; release LBcache)
      (mkWorld s e) = Ok tt (mkWorld s' e) /\ fsst s' C Pn' H P W L.
Proof.
  intros F Hin ND Hm Hk. eexists. split; [by eapply ref_change|].
  destruct (held_lookup s C Pn H P W L b n F Hin) as (bp & Hb & [Hd Hn] & Hc' & Hlt & Hv & H1 & Hp & Hr).
  pose proof F as [Fc Fk Fa FP FW FL FR FD]. split; [by apply calm_mapd|exact Fk| |exact FP|exact FW|exact FL|exact FR|exact FD].
  pose proof Fa as [A1 A2 A3 A4 A5 A6 A7 [A8 A9]].
  apply (cache_change (kd s) _ C _ Pn _ H _ b (fun bp => set_b_refcnt (u32 (b_refcnt bp + k)) bp)); try done.
  - eapply (ring_of _ _ b); [done|reflexivity|done].
  - intros bp' Hb' [B1 B2 B3 B4]. rewrite Hb in Hb'. injection Hb' as <-. split; [|done..]. cbn. rewrite Hr, Hk, Hn.
    rewrite (bool_decide_ext (b_dev bp = w_dev /\ n ∈ Pn') (n ∈ Pn')) by tauto.
    by rewrite (bool_decide_eq_true_2 (b ∈ H.*1)) by (by eapply held_fst).
  - intros i bp' Hne Hl Hi [B1 B2 B3 B4]. split; [|done..]. rewrite B1. f_equal. f_equal. apply bool_decide_ext.
    split; intros [E1 E2]; (split; [done|]); apply Hm; try done; intros E3; apply Hne;
      apply (A3 i b bp' bp n); try done; by split.
  - intros m Hm'. destruct (decide (m = n)) as [->|Hmn].
    + exists b, bp. by repeat split.
    + apply A5. by apply Hm.
  - intros m Hm1 Hm2. apply A6; [|done]. destruct (decide (m = n)) as [->|Hmn]; [|by rewrite <- Hm].
    destruct Hm2. by eapply held_snd.
Qed.

Lemma bunpin_spec s C Pn Pn' H P W L b n e :
  fsst s C Pn H P W L -> (b, n) ∈ H -> Pn ≡ₚ n :: Pn' ->
  exists s', bunpin b (mkWorld s e) = Ok tt (mkWorld s' e) /\ fsst s' C Pn' H P W L.
Proof.
  intros F Hin EP. pose proof (proj2 (ca_nodup _ _ _ _ (fs_cache _ _ _ _ _ _ _ F))) as ND.
  apply (nodup_perm _ _ EP), NoDup_cons in ND as [Hn ND]. apply (repin s C Pn Pn' H P W L b n (-1)); [done..| |].
  - intros m Hm. rewrite (elem_of_perm m _ _ EP), elem_of_cons. tauto.
  - rewrite (bool_decide_eq_true_2 (n ∈ Pn)) by (rewrite (elem_of_perm n _ _ EP); by left).
    by rewrite bool_decide_eq_false_2.
Qed.

Lemma bpin_spec s C Pn H P W L b n e :
  fsst s C Pn H P W L -> (b, n) ∈ H -> n ∉ Pn ->
  exists s', bpin b (mkWorld s e) = Ok tt (mkWorld s' e) /\ fsst s' C (n :: Pn) H P W L.
Proof.
  intros F Hin Hn. pose proof (proj2 (ca_nodup _ _ _ _ (fs_cache _ _ _ _ _ _ _ F))) as ND.
  apply (repin s C Pn (n :: Pn) H P W L b n 1); [done..|by constructor| |].
  - intros m Hm. rewrite elem_of_cons. tauto.
  - rewrite bool_decide_eq_false_2 by done. by rewrite bool_decide_eq_true_2 by (by left).
Qed.

Lemma brelse_spec s C Pn H H' P W L b n e :
  fsst s C Pn H P W L -> H ≡ₚ (b, n) :: H' -> P !! n = C !! n \/ n ∈ Pn ->
  exists s', brelse b (mkWorld s e) = Ok tt (mkWorld s' e) /\ fsst s' C Pn H' P W L.
Proof.
  intros F EH Hclean. assert ((b, n) ∈ H) as Hin by (rewrite (elem_of_perm _ _ _ EH); by left).
  destruct (held_lookup s C Pn H P W L b n F Hin) as (bp & Hb & [Hd Hn] & Hc' & Hlt & Hv & H1 & Hp & Hr).
  pose proof F as [Fc Fk Fa FP FW FL FR FD]. pose proof Fa as [(l & R & A) A2 A3 A4 A5 A6 A7 [A8 A9]].
  assert (b ∈ l) as Hbl. { unfold all_bufs in A. rewrite A. apply elem_of_seq. lia. }
  destruct (brelse_ok w_proc w_pid s e (bufs (kd s)) l Fc Fk R A b bp Hb Hbl H1 Hp) as (bs' & E & Lk & R').
  rewrite with_bufs_id in E. eexists. split; [exact E|].
  assert ((b ∉ H'.*1) /\ NoDup H'.*1) as [Hb' ND'].
  { assert (H.*1 ≡ₚ b :: H'.*1) as E1 by (by rewrite EH). apply (nodup_perm _ _ E1) in A8. by apply NoDup_cons in A8. }
  assert (forall i, i ≠ b -> i ∈ H.*1 <-> i ∈ H'.*1) as Hi.
  { intros i Hne. rewrite EH. cbn. rewrite elem_of_cons. tauto. }
  split; [by apply calm_mapd, calm_mapd|by apply known_woken| |exact FP|exact FW|exact FL|exact FR|exact FD].
  apply (cache_change (kd s) _ C _ Pn _ H _ b released); try done.
  - eexists. split; [exact R'|]. destruct (_ =? 0); [|done]. unfold all_bufs.
    etrans; [apply to_front_Permutation; [|done]|done]. by apply ring_nodup, NoDup_cons in R as [_ ?].
  - intros bp' Hbp' [B1 B2 B3 B4]. rewrite Hb in Hbp'. injection Hbp' as <-. split; [|done| |done].
    + cbn. rewrite Hr, Hn, (bool_decide_ext (b_dev bp = w_dev /\ n ∈ Pn) (n ∈ Pn)) by tauto.
      rewrite (bool_decide_eq_false_2 (b ∈ H'.*1)) by done. by destruct (bool_decide (n ∈ Pn)).
    + intros Hx. by destruct Hb'.
  - intros i bp' Hne Hl Hbi [B1 B2 B3 B4]. split; [| | |done].
    + rewrite B1. f_equal. f_equal. by apply bool_decide_ext, Hi.
    + by rewrite <- Hi.
    + by rewrite <- Hi.
  - intros i m Him. apply A4. rewrite (elem_of_perm _ _ _ EH). by right.
  - intros m Hm Hm'. destruct (decide (m = n)) as [->|Hmn].
    + destruct Hclean as [<-|]; [|done]. cbn. by rewrite FP.
    + apply A6; [done|]. rewrite EH. cbn. rewrite elem_of_cons. tauto.
Qed.

(** If fewer buffers are pinned or held than there are, one is free. *)
Lemma free_exists d C Pn H l : cache d C Pn H -> ring (bufs d) l -> all_bufs l ->
  (length Pn + length H < NBUF)%nat -> first_buf (bufs d) unused (reverse l) ≠ None.
Proof.
  intros [A1 A2 A3 A4 A5 A6 A7 [A8 A9]] R A Hlen Hnone.
  assert (forall b, (b < NBUF)%nat -> exists bp, bufs d !! b = Some bp) as HS.
  { intros b Hb. apply (ring_lookup (bufs d) l b R). right. unfold all_bufs in A. rewrite A. apply elem_of_seq. lia. }
  assert (forall b bp, (b < NBUF)%nat -> bufs d !! b = Some bp -> b_dev bp = w_dev /\ b_blockno bp ∈ Pn ++ H.*2) as HU.
  { intros b bp Hb Hbp. pose proof (A2 b bp Hb Hbp) as B. apply bo_refs in B.
    assert (unused bp = false) as Hu.
    { apply (first_buf_None (bufs d) unused (reverse l)) with b; try done.
      - intros i Hi. rewrite elem_of_reverse in Hi. apply HS. by eapply all_bufs_lt.
      - rewrite elem_of_reverse. unfold all_bufs in A. rewrite A. apply elem_of_seq. lia. }
    unfold unused in Hu. apply Z.eqb_neq in Hu. rewrite elem_of_app.
    destruct (decide (b ∈ H.*1)) as [Hh|Hh].
    - apply list_elem_of_fmap in Hh as ([b' n] & -> & Hin). cbn in *.
      destruct (A4 b' n Hin) as (_ & bp' & Hb' & Hd & Hn). rewrite Hbp in Hb'. injection Hb' as <-.
      split; [done|]. right. rewrite Hn. by eapply held_snd.
    - rewrite (bool_decide_eq_false_2 (b ∈ H.*1)) in B by done.
      destruct (decide (b_dev bp = w_dev /\ b_blockno bp ∈ Pn)) as [[? ?]|Hnp]; [auto|].
      rewrite bool_decide_eq_false_2 in B by done. by destruct Hu. }
  set (f b := default 0 (b_blockno <$> bufs d !! b)).
  assert (NoDup (f <$> seq 0 NBUF)) as ND.
  { apply NoDup_fmap_2_strong; [|apply NoDup_seq]. intros x y Hx Hy E. apply elem_of_seq in Hx, Hy.
    destruct (HS x ltac:(lia)) as [bx Bx]. destruct (HS y ltac:(lia)) as [by_ By]. unfold f in E. rewrite Bx, By in E.
    cbn in E. apply (A3 x y bx by_ (b_blockno bx)); try done; try lia.
    - split; [|done]. by eapply HU; [|exact Bx]; lia.
    - split; [|done]. by eapply HU; [|exact By]; lia. }
  assert ((f <$> seq 0 NBUF) ⊆ Pn ++ H.*2) as Sub.
  { intros n Hn. apply list_elem_of_fmap in Hn as (b & -> & Hb). apply elem_of_seq in Hb.
    destruct (HS b ltac:(lia)) as [bp Hbp]. unfold f. rewrite Hbp. cbn. by eapply HU; [|exact Hbp]; lia. }
  pose proof (submseteq_length _ _ (NoDup_submseteq _ _ ND Sub)) as Hle.
  rewrite length_fmap, length_seq, length_app, length_fmap in Hle. lia.
Qed.

Lemma bread_hit s C Pn H P W L l n b bp e :
  fsst s C Pn H P W L -> ring (bufs (kd s)) l -> all_bufs l ->
  first_buf (bufs (kd s)) (holds w_dev n) l = Some b -> bufs (kd s) !! b = Some bp -> on_dev bp n -> n ∉ H.*2 ->
  exists s', bread w_dev n (mkWorld s e) = Ok b (mkWorld s' e) /\ fsst s' C Pn ((b, n) :: H) P W L.
Proof.
  intros F R A Hf Hb [Hd Hn] Hnh. pose proof F as [Fc Fk Fa FP FW FL FR FD].
  pose proof Fa as [A1 A2 A3 A4 A5 A6 A7 [A8 A9]].
  assert (b < NBUF)%nat as Hlt. { destruct (first_buf_Some _ _ _ _ Hf) as (_ & _ & _ & Hin). by eapply all_bufs_lt. }
  pose proof (A2 b bp Hlt Hb) as [B1 B2 B3 B4]. destruct (B4 Hd) as [Hv Hc].
  assert (b ∉ H.*1) as Hbh.
  { intros Hh. apply list_elem_of_fmap in Hh as ([b' m] & E & Hin). cbn in E. subst b'.
    destruct (A4 b m Hin) as (_ & bp' & Hb' & _ & Hm). rewrite Hb in Hb'. injection Hb' as <-.
    apply Hnh. rewrite <- Hn, Hm. by eapply held_snd. }
  exists (with_bufs (alter (grabbed w_pid) b (bufs (kd s))) s). split.
  - unfold bread. pose proof (bget_cached w_proc w_pid s e _ l Fc Fk R A w_dev n b bp Hf Hb (B2 Hbh)) as E.
    rewrite with_bufs_id in E. rewrite (bind_Ok _ _ _ _ _ E).
    rewrite (bind_Ok _ _ _ _ _ (get_buf_with b (grabbed w_pid bp) _ s e ltac:(by rewrite list_lookup_alter_eq, Hb))).
    change (b_valid (grabbed w_pid bp)) with (b_valid bp). rewrite Hv. by run.
  - split; [by apply calm_mapd|exact Fk| |exact FP|exact FW|exact FL|exact FR|exact FD].
    apply (cache_change (kd s) _ C _ Pn _ H _ b (grabbed w_pid)); try done.
    + eapply (ring_of (kd s) _ b (grabbed w_pid)); [by exists l|reflexivity|done].
    + intros bp' Hbp' _. rewrite Hb in Hbp'. injection Hbp' as <-. split; [| |done|done].
      * cbn. rewrite B1. rewrite (bool_decide_eq_false_2 (b ∈ H.*1)) by done.
        rewrite (bool_decide_eq_true_2 (b ∈ b :: H.*1)) by (by left). by destruct (bool_decide _).
      * intros Hx. destruct Hx. by left.
    + intros i bp' Hne Hl Hi [D1 D2 D3 D4].
      split; try change (((b, n) :: H).*1) with (b :: H.*1); [| | |done].
      * rewrite D1. f_equal. f_equal. apply bool_decide_ext. rewrite elem_of_cons. tauto.
      * rewrite not_elem_of_cons. tauto.
      * rewrite elem_of_cons. intros [->|]; [done|auto].
    + intros i m Him. apply elem_of_cons in Him as [[= -> ->]|Him]; [|by apply A4].
      split; [done|]. exists bp. by split.
    + intros m Hm Hm'. cbn in *. rewrite not_elem_of_cons in Hm'. apply A6; tauto.
    + cbn. by constructor.
Qed.

Lemma bread_miss s C Pn H P W L l n c e :
  fsst s C Pn H P W L -> ring (bufs (kd s)) l -> all_bufs l ->
  first_buf (bufs (kd s)) (holds w_dev n) l = None -> C !! n = Some c -> n ∉ H.*2 ->
  (length Pn + length H < NBUF)%nat ->
  exists b s', bread w_dev n (mkWorld s e) = Ok b (mkWorld s' e) /\ fsst s' C Pn ((b, n) :: H) P W L.
Proof using DS.
  intros F R A Hf Hc Hnh Hlen. pose proof F as [Fc Fk Fa FP FW FL FR FD].
  pose proof Fa as [A1 A2 A3 A4 A5 A6 A7 [A8 A9]].
  assert (forall i bp, (i < NBUF)%nat -> bufs (kd s) !! i = Some bp -> ~ on_dev bp n) as Hmiss.
  { intros i bp Hi Hbi [Hd Hn]. assert (holds w_dev n bp = false) as Hh.
    { apply (first_buf_None (bufs (kd s)) (holds w_dev n) l) with i; try done.
      - intros j Hj. apply (ring_lookup _ l j R). by right.
      - unfold all_bufs in A. rewrite A. apply elem_of_seq. lia. }
    unfold holds in Hh. by rewrite Hd, Hn, !Z.eqb_refl in Hh. }
  destruct (first_buf (bufs (kd s)) unused (reverse l)) as [b|] eqn:Eu; [|by destruct (free_exists _ _ _ _ l Fa R A Hlen)].
  destruct (first_buf_Some _ _ _ _ Eu) as (bp & Hb & Hu & Hin). rewrite elem_of_reverse in Hin.
  pose proof (all_bufs_lt l b A Hin) as Hlt. pose proof (A2 b bp Hlt Hb) as [B1 B2 B3 B4].
  unfold unused in Hu. apply Z.eqb_eq in Hu. rewrite Hu in B1.
  assert ((b ∉ H.*1) /\ ~ (b_dev bp = w_dev /\ b_blockno bp ∈ Pn)) as [Hbh Hbp].
  { split; intros Hx.
    - rewrite (bool_decide_eq_true_2 (b ∈ H.*1)) in B1 by done. destruct (bool_decide _); cbn in B1; lia.
    - rewrite bool_decide_eq_true_2 in B1 by done. destruct (bool_decide (b ∈ _)); cbn in B1; lia. }
  assert (n ∉ Pn) as Hnp.
  { intros Hx. destruct (A5 n Hx) as (i & bp' & Hi & Hbi & Hon). by apply (Hmiss i bp' Hi Hbi). }
  assert (platter (kd s) !! n = Some c) as HP by (by rewrite A6).
  set (bs1 := alter (recycled w_pid w_dev n) b (bufs (kd s))).
  set (g := fun bp => set_b_valid 1 (set_b_disk 0 (set_b_data c (recycled w_pid w_dev n bp)))).
  assert (bs1 !! b = Some (recycled w_pid w_dev n bp)) as Hb1 by (unfold bs1; by rewrite list_lookup_alter_eq, Hb).
  destruct (disk_rw_ok w_proc b _ false (with_bufs bs1 s) e (calm_mapd _ _ _ Fc) (proj1 Fk) (known_lt _ Fk) FD Hb1 (mk_is_Some _ _ HP)) as (ps & v & r & E & Eps & Rv).
  set (s1 := mapd (beside ps v r) s).
  assert (mapd (fun d => beside ps v r (transfer b false d)) (with_bufs bs1 s) =
    with_bufs (alter (fun bp => set_b_disk 0 (set_b_data c bp)) b bs1) s1) as E1.
  { assert (transfer b false (set_bufs bs1 (kd s)) =
      set_bufs (alter (fun bp => set_b_disk 0 (set_b_data c bp)) b bs1) (kd s)) as Et.
    { unfold transfer. change (bufs (set_bufs bs1 (kd s))) with bs1. rewrite Hb1. unfold at_buf.
      change (bufs (set_bufs bs1 (kd s))) with bs1. replace (alter _ b bs1) with
        (alter (fun bp => set_b_disk 0 (set_b_data c bp)) b bs1); [done|].
      apply list_alter_ext; [|done]. intros x Hx. rewrite Hb1 in Hx. injection Hx as <-. cbn. by rewrite HP. }
    unfold s1, with_bufs, mapd. cbn [kd set_kd]. by rewrite Et. }
  assert (disk_ready v P) as Rv'.
  { unfold transfer in Rv. change (bufs (kd (with_bufs bs1 s))) with bs1 in Rv. rewrite Hb1 in Rv. by rewrite <- FP. }
  rewrite E1 in E. clear E1 Rv. exists b, (with_bufs (alter g b (bufs (kd s))) s1). split.
  - unfold bread. pose proof (bget_recycles w_proc w_pid s e _ l Fc Fk R A w_dev n b bp Hf Eu Hb (B2 Hbh)) as Eg.
    rewrite with_bufs_id in Eg. rewrite (bind_Ok _ _ _ _ _ Eg). fold bs1.
    rewrite (bind_Ok _ _ _ _ _ (get_buf_with b _ bs1 s e Hb1)).
    change (b_valid (recycled w_pid w_dev n bp)) with 0. cbn [Z.eqb when].
    rewrite bind_assoc, (bind_Ok _ _ _ _ _ E). assert (bs1 !! b ≠ None) as Hs1 by congruence.
    erewrite bind_Ok by (apply upd_buf_with; rewrite list_lookup_alter_eq, Hb1; cbn; eauto). run.
    unfold bs1. by rewrite !list_alter_alter.
  - split; [by apply calm_mapd, calm_mapd|exact (known_beside ps v r _ Eps Fk)| |exact FP|exact FW|exact FL|exact FR|by rewrite <- FP in Rv'].
    set (d' := kd (with_bufs (alter g b (bufs (kd s))) s1)).
    assert (forall i bp', i ≠ b -> bufs d' !! i = Some bp' -> bufs (kd s) !! i = Some bp') as Hoth.
    { intros i bp' Hne Hi. unfold d' in Hi. cbn in Hi. by rewrite list_lookup_alter_ne in Hi. }
    assert (bufs d' !! b = Some (g bp)) as Hself by (unfold d'; cbn; by rewrite list_lookup_alter_eq, Hb).
    assert (forall i bp', (i < NBUF)%nat -> bufs d' !! i = Some bp' -> on_dev bp' n -> i = b) as Hn'.
    { intros i bp' Hi Hbi Hon. destruct (decide (i = b)) as [->|Hne]; [done|]. by destruct (Hmiss i bp' Hi (Hoth i bp' Hne Hbi)). }
    split.
    + eapply (ring_of (kd s) _ b g); [by exists l|reflexivity|done].
    + intros i bp' Hi Hbi. destruct (decide (i = b)) as [->|Hne].
      * rewrite Hself in Hbi. injection Hbi as <-. split; [| |done|done].
        -- cbn. rewrite (bool_decide_eq_false_2 (w_dev = w_dev /\ n ∈ Pn)) by tauto.
           by rewrite (bool_decide_eq_true_2 (b ∈ b :: H.*1)) by (by left).
        -- intros Hx. destruct Hx. by left.
      * destruct (A2 i bp' Hi (Hoth i bp' Hne Hbi)) as [D1 D2 D3 D4].
      split; try change (((b, n) :: H).*1) with (b :: H.*1); [| | |done].
        -- rewrite D1. f_equal. f_equal. apply bool_decide_ext. rewrite elem_of_cons. tauto.
        -- rewrite not_elem_of_cons. tauto.
        -- rewrite elem_of_cons. intros [->|]; [done|auto].
    + intros b1 b2 bp1 bp2 m L1 L2 E1 E2 D1 D2. destruct (decide (m = n)) as [->|Hmn].
      * rewrite (Hn' b1 bp1), (Hn' b2 bp2); done.
      * assert (forall i bp', bufs d' !! i = Some bp' -> on_dev bp' m -> i ≠ b) as Hne.
        { intros i bp' Hbi [_ Hm] ->. rewrite Hself in Hbi. injection Hbi as <-. by apply Hmn. }
        apply (A3 b1 b2 bp1 bp2 m); try done; (apply Hoth; [|done]); by eapply Hne.
    + intros i m Him. apply elem_of_cons in Him as [[= -> ->]|Him].
      * split; [done|]. exists (g bp). done.
      * destruct (A4 i m Him) as (Hi & bp' & Hbi & Hon). split; [done|]. exists bp'. split; [|done].
        unfold d'. cbn. rewrite list_lookup_alter_ne; [done|]. intros <-. apply Hbh. by eapply held_fst.
    + intros m Hm. destruct (A5 m Hm) as (i & bp' & Hi & Hbi & Hon). exists i, bp'. split; [done|]. split; [|done].
      unfold d'. cbn. rewrite list_lookup_alter_ne; [done|]. intros <-. rewrite Hb in Hbi. injection Hbi as <-.
      apply Hbp. destruct Hon as [-> ->]. done.
    + intros m Hm Hm'. cbn in Hm'. rewrite not_elem_of_cons in Hm'. apply A6; tauto.
    + done.
    + split; [cbn; by constructor|done].
Qed.

(** A pinned block is in the cache; another one needs a free buffer. *)
Lemma bread_spec s C Pn H P W L n c e :
  fsst s C Pn H P W L -> C !! n = Some c -> n ∉ H.*2 -> n ∈ Pn \/ (length Pn + length H < NBUF)%nat ->
  exists b s', bread w_dev n (mkWorld s e) = Ok b (mkWorld s' e) /\ fsst s' C Pn ((b, n) :: H) P W L.
Proof using DS.
  intros F Hc Hn Hlen. destruct (ca_ring _ _ _ _ (fs_cache _ _ _ _ _ _ _ F)) as (l & R & A).
  destruct (first_buf (bufs (kd s)) (holds w_dev n) l) as [b|] eqn:Ef.
  2: { destruct Hlen as [Hp|Hlen]; [|by eapply bread_miss].
       destruct (ca_pin _ _ _ _ (fs_cache _ _ _ _ _ _ _ F) n Hp) as (b & bp & Hlt & Hb & Hd & Hbn).
       assert (holds w_dev n bp = false) as Hh.
       { apply (first_buf_None (bufs (kd s)) (holds w_dev n) l) with b; try done.
         - intros j Hj. apply (ring_lookup _ l j R). by right.
         - unfold all_bufs in A. rewrite A. apply elem_of_seq. lia. }
       unfold holds in Hh. by rewrite Hd, Hbn, !Z.eqb_refl in Hh. }
  destruct (first_buf_Some _ _ _ _ Ef) as (bp & Hb & Hh & _). unfold holds in Hh. propify.
  destruct (bread_hit s C Pn H P W L l n b bp e F R A Ef Hb) as (s' & E & F'); [by split|done|]. by exists b, s'.
Qed.
End cache.
