(* ===== verification/Log.v ===== *)
(** * The log

    kernel/log.c: transactions on the blocks of the file system.  The header
    of the log is the block [log.start]: the number of logged blocks, then
    their block numbers, as 32-bit little-endian integers. *)

From S2P Require Import Prelude Prog State Spinlock Switch Sleeplock Bio.

Section log.
Context `{!Disk}.

Definition getl {A} (f : logstate -> A) : M A := getd (fun d => f (logS d)).
Definition modl (f : logstate -> logstate) : M unit := modd (fun d => set_logS (f (logS d)) d).

(** [log.lh.block[i]], and its assignment *)
Definition lh_get (i : Z) : M Z := l ← getl lh_block; the "log.lh.block" (zlookup l i).
Definition lh_set (i v : Z) : M unit :=
  _ ← lh_get i; modl (fun l => set_lh_block (<[Z.to_nat i := v]> (lh_block l)) l).

(** A 32-bit integer at offset [off] of a buffer's data. *)
Definition data_s32 (off : nat) (data : list Z) : Z := s32 (le_combine (read_at off 4 data)).
Definition put_s32 (off : nat) (v : Z) (data : list Z) : list Z := write_at off (le_split 4 v) data.

(** [struct logheader]: [n] at offset 0, [block[i]] at offset [4 + 4 i]. *)
Definition sizeof_logheader : Z := 4 + 4 * LOGSIZE.
Definition lh_off (i : nat) : nat := 4 + 4 * i.

(** [for(tail = 0; tail < log.lh.n; tail++) body].  Each body uses
    [log.lh.block[tail]], so a turn past the end of that array is undefined and
    the fuel is never the reason the loop stops. *)
Fixpoint tail_loop (fuel tail : nat) (body : nat -> M unit) : M unit :=
  n ← getl lh_n;
  if Z.of_nat tail <? n then
    match fuel with
    | O => fault "log.lh.block"
    | S fuel => body tail;; tail_loop fuel (S tail) body
    end
  else mret tt.
Definition for_tails (body : nat -> M unit) : M unit := tail_loop (Z.to_nat LOGSIZE) 0 body.

Definition install_one (recovering : bool) (tail : nat) : M unit :=
  l ← getd logS;
  lbuf ← bread (u32 (log_dev l)) (u32 (log_start l + Z.of_nat tail + 1));
  dev ← getl log_dev;
  bn ← lh_get (Z.of_nat tail);
  dbuf ← bread (u32 dev) (u32 bn);
  lb ← get_buf lbuf;
  upd_buf dbuf (set_b_data (b_data lb));;
  bwrite dbuf;;
  when (negb recovering) (bunpin dbuf);;
  brelse lbuf;;
  brelse dbuf.

Definition install_trans (recovering : bool) : M unit :=
  for_tails (install_one recovering).

Definition read_head : M unit :=
  l ← getd logS;
  buf ← bread (u32 (log_dev l)) (u32 (log_start l));
  bp ← get_buf buf;
  modl (set_lh_n (data_s32 0 (b_data bp)));;
  for_tails (fun i => lh_set (Z.of_nat i) (data_s32 (lh_off i) (b_data bp)));;
  brelse buf.

Definition write_head : M unit :=
  l ← getd logS;
  buf ← bread (u32 (log_dev l)) (u32 (log_start l));
  n ← getl lh_n;
  upd_buf buf (fun bp => set_b_data (put_s32 0 n (b_data bp)) bp);;
  for_tails (fun i =>
    v ← lh_get (Z.of_nat i);
    upd_buf buf (fun bp => set_b_data (put_s32 (lh_off i) v (b_data bp)) bp));;
  bwrite buf;;
  brelse buf.

Definition recover_from_log : M unit :=
  read_head;;
  install_trans true;;
  modl (set_lh_n 0);;
  write_head.

Definition initlog (dev : Z) (sb : superblock) : M unit :=
  if BSIZE <=? sizeof_logheader then panic "initlog: too big logheader" else
  initlock LLog "log";;
  modl (set_log_start (s32 (sb_logstart sb)));;
  modl (set_log_size (s32 (sb_nlog sb)));;
  modl (set_log_dev dev);;
  recover_from_log.

Definition begin_op : M unit :=
  acquire LLog;;
  wait_loop (
    l ← getd logS;
    if z2b (log_committing l) then sleep CLog LLog;; mret None
    else if LOGSIZE <? s32 (lh_n l + (log_outstanding l + 1) * MAXOPBLOCKS) then sleep CLog LLog;; mret None
    else modl (set_log_outstanding (s32 (log_outstanding l + 1)));; release LLog;; mret (Some tt)).

Definition write_log_one (tail : nat) : M unit :=
  l ← getd logS;
  to ← bread (u32 (log_dev l)) (u32 (log_start l + Z.of_nat tail + 1));
  dev ← getl log_dev;
  bn ← lh_get (Z.of_nat tail);
  from ← bread (u32 dev) (u32 bn);
  fb ← get_buf from;
  upd_buf to (set_b_data (b_data fb));;
  bwrite to;;
  brelse from;;
  brelse to.

Definition write_log : M unit :=
  for_tails write_log_one.

Definition commit : M unit :=
  n ← getl lh_n;
  when (0 <? n) (
    write_log;;
    write_head;;
    install_trans false;;
    modl (set_lh_n 0);;
    write_head).

Definition end_op : M unit :=
  acquire LLog;;
  modl (fun l => set_log_outstanding (s32 (log_outstanding l - 1)) l);;
  l ← getd logS;
  if z2b (log_committing l) then panic "log.committing" else
  do_commit ← (if log_outstanding l =? 0 then modl (set_log_committing 1);; mret true
               else wakeup CLog;; mret false);
  release LLog;;
  when do_commit (
    commit;;
    acquire LLog;;
    modl (set_log_committing 0);;
    wakeup CLog;;
    release LLog).

(** The index at which the loop of [log_write] stops. *)
Fixpoint find_logged (i : nat) (n : nat) (blocks : list Z) (blockno : Z) : M nat :=
  match n with
  | O => mret i
  | S n =>
    v ← the "log.lh.block" (blocks !! i);
    if u32 v =? blockno then mret i else find_logged (S i) n blocks blockno
  end.

Definition log_write (b : nat) : M unit :=
  acquire LLog;;
  l ← getd logS;
  if (LOGSIZE <=? lh_n l) || (s32 (log_size l - 1) <=? lh_n l) then panic "too big a transaction" else
  if log_outstanding l <? 1 then panic "log_write outside of trans" else
  bp ← get_buf b;
  i ← find_logged 0 (Z.to_nat (lh_n l)) (lh_block l) (b_blockno bp);
  lh_set (Z.of_nat i) (s32 (b_blockno bp));;
  when (Z.of_nat i =? lh_n l) (
    bpin b;;
    modl (fun l => set_lh_n (s32 (lh_n l + 1)) l));;
  release LLog.
End log.
