(* ===== verification/LogSpec.v ===== *)
(** * Transactions are atomic

    What the log of [Log] promises: the blocks written in a transaction reach
    the disk all together or not at all, whenever the machine stops.  The
    functions of log.c are specified with the logic of [Cache]; the crash
    theorem is about the order of the writes they make. *)

From S2P Require Import Prelude Prog State Spinlock Switch Sleeplock Bio Cache Log.

(** ** Sequences of block writes *)

Definition apply_writes (ws : list (Z * list Z)) (P : gmap Z (list Z)) : gmap Z (list Z) :=
  foldl (fun P w => <[w.1 := w.2]> P) P ws.

Lemma apply_writes_cons n c ws P : apply_writes ((n, c) :: ws) P = apply_writes ws (<[n := c]> P).
Proof. done. Qed.

Lemma apply_writes_app ws ws' P : apply_writes (ws ++ ws') P = apply_writes ws' (apply_writes ws P).
Proof. apply foldl_app. Qed.

Lemma apply_writes_ne ws P n : n ∉ ws.*1 -> apply_writes ws P !! n = P !! n.
Proof.
  revert P. induction ws as [|w ws IH]; intros P; [done|]. cbn. rewrite not_elem_of_cons. intros [Hn Hw].
  fold (apply_writes ws (<[w.1 := w.2]> P)). rewrite IH by done. by rewrite lookup_insert_ne.
Qed.

Lemma apply_writes_in ws P n c : NoDup ws.*1 -> (n, c) ∈ ws -> apply_writes ws P !! n = Some c.
Proof.
  revert P. induction ws as [|w ws IH]; intros P ND Hin; [by apply elem_of_nil in Hin|]. cbn in ND.
  apply NoDup_cons in ND as [Hw ND]. cbn. fold (apply_writes ws (<[w.1 := w.2]> P)).
  apply elem_of_cons in Hin as [<-|Hin]; [|by apply IH].
  rewrite apply_writes_ne by done. by rewrite lookup_insert_eq.
Qed.

Lemma apply_writes_dom ws P n : is_Some (P !! n) -> is_Some (apply_writes ws P !! n).
Proof.
  revert P. induction ws as [|w ws IH]; intros P Hn; [done|]. cbn. apply IH.
  destruct (decide (w.1 = n)) as [->|]; [rewrite lookup_insert_eq; eauto|]. by rewrite lookup_insert_ne.
Qed.

(** ** The header block *)

Fixpoint put_blocks (i : nat) (bl : list Z) (h : list Z) : list Z :=
  match bl with
  | [] => h
  | v :: bl => put_blocks (S i) bl (put_s32 (lh_off i) v h)
  end.

(** The block [h] with the header of a transaction on [bl] written to it. *)
Definition head_bytes (bl : list Z) (h : list Z) : list Z := put_blocks 0 bl (put_s32 0 (Z.of_nat (length bl)) h).

Lemma put_blocks_snoc i bl v h : put_blocks i (bl ++ [v]) h = put_s32 (lh_off (i + length bl)) v (put_blocks i bl h).
Proof.
  revert i h. induction bl as [|x bl IH]; intros i h; cbn [put_blocks app length].
  - by rewrite Nat.add_0_r.
  - rewrite IH. do 2 f_equal. unfold lh_off. lia.
Qed.

Definition block_bytes (h : list Z) : Prop := length h = Z.to_nat BSIZE.

Lemma length_put_s32 off v h : (off + 4 <= length h)%nat -> length (put_s32 off v h) = length h.
Proof. intros H. unfold put_s32. apply length_write_at. by rewrite length_le_split. Qed.

Lemma data_put_same off v h : (off + 4 <= length h)%nat -> - 2147483648 <= v < 2147483648 ->
  data_s32 off (put_s32 off v h) = v.
Proof.
  intros H Hv. unfold data_s32, put_s32. pose proof (length_le_split 4 v) as E.
  rewrite <- E at 1. rewrite read_write_same by (rewrite E; lia). rewrite le_combine_split.
  change (2 ^ (8 * Z.of_nat 4)) with (2 ^ 32). unfold wrap_s. change (2 ^ (32 - 1)) with 2147483648.
  rewrite Zplus_mod_idemp_l. rewrite Z.mod_small by lia. lia.
Qed.

Lemma data_put_other off off' v h : (off + 4 <= length h)%nat -> (off' + 4 <= length h)%nat ->
  (off' + 4 <= off \/ off + 4 <= off')%nat -> data_s32 off' (put_s32 off v h) = data_s32 off' h.
Proof.
  intros H1 H2 H3. unfold data_s32, put_s32. rewrite read_write_other; rewrite ?length_le_split; done.
Qed.

Lemma put_blocks_spec bl i h : block_bytes h -> (i + length bl <= 30)%nat ->
  Forall (fun v => - 2147483648 <= v < 2147483648) bl ->
  block_bytes (put_blocks i bl h) /\ data_s32 0 (put_blocks i bl h) = data_s32 0 h /\
  (forall k, (k < i)%nat -> data_s32 (lh_off k) (put_blocks i bl h) = data_s32 (lh_off k) h) /\
  (forall k v, bl !! k = Some v -> data_s32 (lh_off (i + k)) (put_blocks i bl h) = v).
Proof.
  revert i h. induction bl as [|x bl IH]; intros i h Hh Hi Hb; cbn [put_blocks].
  - by repeat split.
  - inversion Hb as [|? ? Hx Hb']; subst. cbn in Hi. unfold block_bytes in Hh. change (Z.to_nat BSIZE) with 1024%nat in Hh.
    assert (block_bytes (put_s32 (lh_off i) x h)) as Hh'.
    { unfold block_bytes. rewrite length_put_s32; unfold lh_off; [done|lia]. }
    destruct (IH (S i) _ Hh' ltac:(lia) Hb') as (I1 & I2 & I3 & I4). split; [done|]. split; [|split].
    + rewrite I2. apply data_put_other; unfold lh_off; lia.
    + intros k Hk. rewrite I3 by lia. apply data_put_other; unfold lh_off; lia.
    + intros [|k] v Hv; cbn in Hv.
      * injection Hv as <-. rewrite Nat.add_0_r, I3 by lia. apply data_put_same; [unfold lh_off; lia|done].
      * rewrite <- (I4 k v Hv). do 2 f_equal. lia.
Qed.

Lemma head_bytes_spec bl h : block_bytes h -> (length bl <= 30)%nat ->
  Forall (fun v => - 2147483648 <= v < 2147483648) bl ->
  block_bytes (head_bytes bl h) /\ data_s32 0 (head_bytes bl h) = Z.of_nat (length bl) /\
  (forall k v, bl !! k = Some v -> data_s32 (lh_off k) (head_bytes bl h) = v).
Proof.
  intros Hh Hl Hb. unfold head_bytes. pose proof Hh as Hh0. unfold block_bytes in Hh0.
  change (Z.to_nat BSIZE) with 1024%nat in Hh0.
  destruct (put_blocks_spec bl 0 (put_s32 0 (Z.of_nat (length bl)) h)) as (P1 & P2 & _ & P4); [|done|done|].
  { unfold block_bytes. rewrite length_put_s32; [done|lia]. }
  split; [done|]. split; [|done]. rewrite P2. apply data_put_same; lia.
Qed.

(** ** The functions of the log *)

Section log.
Context {Wk : Worker} {K : Disk} {DS : DiskSpec}.
Implicit Types (C P D : gmap Z (list Z)) (Pn : list Z) (H : list (nat * Z)) (bl : list Z).

(** The log is on this device, within the block numbers of an [int], and its
    header in memory lists the blocks [bl], all outside the log. *)
Record log_ok (L : logstate) bl : Prop := {
  lg_dev : u32 (log_dev L) = w_dev;
  lg_start : 0 <= log_start L < 2147483000;
  lg_len : length (lh_block L) = Z.to_nat LOGSIZE;
  lg_n : lh_n L = Z.of_nat (length bl);
  lg_room : (length bl < Z.to_nat LOGSIZE)%nat;
  lg_blocks : take (length bl) (lh_block L) = bl;
  lg_nodup : NoDup bl;
  lg_home : Forall (fun b => 0 <= b < 2147483648 /\ (b < log_start L \/ log_start L + LOGSIZE <= b)) bl
}.

(** The blocks of the log itself are there. *)
Definition log_there (L : logstate) C : Prop :=
  (forall i, 0 <= i < LOGSIZE -> is_Some (C !! (log_start L + i))) /\
  (forall h, C !! log_start L = Some h -> block_bytes h).

Lemma log_ok_lookup L bl t bn : log_ok L bl -> bl !! t = Some bn ->
  zlookup (lh_block L) (Z.of_nat t) = Some bn /\ (t < length bl)%nat /\ u32 bn = bn /\
  (bn < log_start L \/ log_start L + LOGSIZE <= bn).
Proof.
  intros [A1 A2 A3 A4 A5 A6 A7 A8] Ht. rewrite Forall_lookup in A8. destruct (A8 t bn Ht) as [H1 H2].
  assert (t < length bl)%nat as Hlt by (by eapply lookup_lt_Some).
  split; [|split; [done|split; [apply u32_small; lia|done]]].
  rewrite zlookup_of_nat. rewrite <- A6 in Ht. by rewrite lookup_take_lt in Ht.
Qed.

(** The block that holds the [t]th logged block. *)
Definition log_block (L : logstate) (t : nat) : Z := log_start L + 1 + Z.of_nat t.

Lemma log_block_u32 L bl t : log_ok L bl -> (t < Z.to_nat LOGSIZE)%nat ->
  u32 (log_start L + Z.of_nat t + 1) = log_block L t.
Proof.
  intros O Ht. pose proof (lg_start _ _ O). unfold log_block. unfold LOGSIZE, MAXOPBLOCKS in Ht.
  rewrite u32_small by lia. lia.
Qed.

Lemma fsst_log s C Pn H P W L f : fsst s C Pn H P W L ->
  fsst (mapd (fun d => set_logS (f (logS d)) d) s) C Pn H P W (f L).
Proof.
  intros [Fc Fk Fa FP FW FL FR FD]. split; [by apply calm_mapd|exact Fk| |exact FP|exact FW|cbn; by rewrite FL|exact FR|exact FD].
  destruct Fa as [A1 A2 A3 A4 A5 A6 A7 A8]. by split.
Qed.

Lemma fsst_modl s C Pn H P W L f e : fsst s C Pn H P W L ->
  exists s', modl f (mkWorld s e) = Ok tt (mkWorld s' e) /\ fsst s' C Pn H P W (f L).
Proof. intros F. eexists. split; [done|by apply fsst_log]. Qed.

Lemma getl_ok {A} (f : logstate -> A) s C Pn H P W L e : fsst s C Pn H P W L ->
  getl f (mkWorld s e) = Ok (f L) (mkWorld s e).
Proof. intros F. unfold getl, getd. run. by rewrite (fs_log _ _ _ _ _ _ _ F). Qed.

Lemma getd_log s C Pn H P W L e : fsst s C Pn H P W L -> getd logS (mkWorld s e) = Ok L (mkWorld s e).
Proof. intros F. unfold getd. run. by rewrite (fs_log _ _ _ _ _ _ _ F). Qed.

Lemma lh_get_ok s C Pn H P W L t bn e : fsst s C Pn H P W L -> zlookup (lh_block L) t = Some bn ->
  lh_get t (mkWorld s e) = Ok bn (mkWorld s e).
Proof. intros F Ht. unfold lh_get. rewrite (bind_Ok _ _ _ _ _ (getl_ok lh_block s C Pn H P W L e F)). by rewrite Ht. Qed.

(** A loop over the logged blocks with an invariant. *)
Lemma tail_loop_spec (I : nat -> kstate -> Prop) n body e :
  (forall t s, I t s -> lh_n (logS (kd s)) = Z.of_nat n) ->
  (forall t s, (t < n)%nat -> I t s -> exists s', body t (mkWorld s e) = Ok tt (mkWorld s' e) /\ I (S t) s') ->
  (n <= Z.to_nat LOGSIZE)%nat ->
  forall s, I 0%nat s -> exists s', for_tails body (mkWorld s e) = Ok tt (mkWorld s' e) /\ I n s'.
Proof.
  intros Hn Hb Hle s HI. unfold for_tails.
  assert (forall k t s, (n - t <= k)%nat -> (t <= n)%nat -> I t s ->
    exists s', tail_loop k t body (mkWorld s e) = Ok tt (mkWorld s' e) /\ I n s') as G.
  { clear s HI. intros k. induction k as [|k IH]; intros t s Hk Ht HI;
      cbn [tail_loop]; unfold getl, getd; run; rewrite (Hn t s HI).
    - replace t with n in * by lia. rewrite Z.ltb_irrefl. by exists s.
    - destruct (Z.ltb_spec (Z.of_nat t) (Z.of_nat n)).
      + destruct (Hb t s ltac:(lia) HI) as (s1 & E & HI1). rewrite (bind_Ok _ _ _ _ _ E). apply IH; [lia|lia|done].
      + replace t with n in * by lia. by exists s. }
  apply G; [lia|lia|done].
Qed.

Lemma write_log_one_spec s C Pn P W L bl t bn c e :
  fsst s C Pn [] P W L -> log_ok L bl -> log_there L C -> bl !! t = Some bn -> C !! bn = Some c ->
  bn ∈ Pn -> (length Pn < NBUF)%nat ->
  exists s', write_log_one t (mkWorld s e) = Ok tt (mkWorld s' e) /\
    fsst s' (<[log_block L t := c]> C) Pn [] (<[log_block L t := c]> P) ((log_block L t, c) :: W) L.
Proof using DS.
  intros F O T Ht Hc Hpin Hlen. destruct (log_ok_lookup L bl t bn O Ht) as (Hz & Hlt & Hu & Hout).
  pose proof (lg_room _ _ O) as Hroom. set (lb := log_block L t) in *.
  assert (lb ≠ bn) as Hne by (unfold lb, log_block, LOGSIZE, MAXOPBLOCKS in *; lia).
  destruct (proj1 T (1 + Z.of_nat t)) as [c0 Hc0]; [unfold LOGSIZE, MAXOPBLOCKS in *; lia|].
  replace (log_start L + (1 + Z.of_nat t)) with lb in Hc0 by (unfold lb, log_block; lia).
  unfold write_log_one. rewrite (bind_Ok _ _ _ _ _ (getd_log s C Pn [] P W L e F)).
  rewrite (lg_dev _ _ O), (log_block_u32 L bl t O) by lia. fold lb.
  destruct (bread_spec s C Pn [] P W L lb c0 e F Hc0) as (b1 & s1 & E1 & F1); [apply not_elem_of_nil|cbn; lia|].
  rewrite (bind_Ok _ _ _ _ _ E1), (bind_Ok _ _ _ _ _ (getl_ok log_dev _ _ _ _ _ _ _ e F1)).
  rewrite (bind_Ok _ _ _ _ _ (lh_get_ok _ _ _ _ _ _ _ _ _ e F1 Hz)), (lg_dev _ _ O), Hu.
  destruct (bread_spec s1 C Pn _ P W L bn c e F1 Hc) as (b2 & s2 & E2 & F2); [set_solver|by left|].
  rewrite (bind_Ok _ _ _ _ _ E2).
  destruct (get_held s2 _ _ _ _ _ _ b2 bn e F2 ltac:(by left)) as (fb & E3 & Hfb & _).
  rewrite (bind_Ok _ _ _ _ _ E3). assert (b_data fb = c) as -> by congruence.
  destruct (upd_held s2 _ _ _ _ _ _ b1 lb c0 c (set_b_data c) e F2) as (s3 & E4 & F3); [set_solver|done|done|].
  rewrite (bind_Ok _ _ _ _ _ E4).
  destruct (bwrite_spec s3 _ _ _ _ _ _ b1 lb c e F3) as (s4 & E5 & F4); [set_solver|by rewrite lookup_insert_eq|].
  rewrite (bind_Ok _ _ _ _ _ E5).
  destruct (brelse_spec s4 _ _ _ [(b1, lb)] _ _ _ b2 bn e F4) as (s5 & E6 & F5); [done|by right|].
  rewrite (bind_Ok _ _ _ _ _ E6).
  destruct (brelse_spec s5 _ _ _ [] _ _ _ b1 lb e F5) as (s6 & E7 & F6); [done|left; by rewrite !lookup_insert_eq|].
  by exists s6.
Qed.

(** The copy from the log to its home; during recovery nothing is pinned. *)
Lemma install_one_spec s C Pn Pn' P W L bl t bn c (rec : bool) e :
  fsst s C Pn [] P W L -> log_ok L bl -> bl !! t = Some bn -> C !! log_block L t = Some c -> is_Some (C !! bn) ->
  log_block L t ∉ Pn -> (length Pn < NBUF)%nat ->
  (if rec then Pn' = Pn /\ (bn ∉ Pn) /\ (S (length Pn) < NBUF)%nat else Pn ≡ₚ bn :: Pn') ->
  exists s', install_one rec t (mkWorld s e) = Ok tt (mkWorld s' e) /\
    fsst s' (<[bn := c]> C) Pn' [] (<[bn := c]> P) ((bn, c) :: W) L.
Proof using DS.
  intros F O Ht Hc [c0 Hc0] Hlb Hlen Hpn. destruct (log_ok_lookup L bl t bn O Ht) as (Hz & Hlt & Hu & Hout).
  pose proof (lg_room _ _ O) as Hroom. set (lb := log_block L t) in *.
  assert (lb ≠ bn) as Hne by (unfold lb, log_block, LOGSIZE, MAXOPBLOCKS in *; lia).
  assert (P !! lb = Some c) as HP.
  { rewrite <- (fs_platter _ _ _ _ _ _ _ F), (ca_disk _ _ _ _ (fs_cache _ _ _ _ _ _ _ F)); [done|done|apply not_elem_of_nil]. }
  unfold install_one. rewrite (bind_Ok _ _ _ _ _ (getd_log s C Pn [] P W L e F)).
  rewrite (lg_dev _ _ O), (log_block_u32 L bl t O) by lia. fold lb.
  destruct (bread_spec s C Pn [] P W L lb c e F Hc) as (b1 & s1 & E1 & F1); [apply not_elem_of_nil|cbn; lia|].
  rewrite (bind_Ok _ _ _ _ _ E1), (bind_Ok _ _ _ _ _ (getl_ok log_dev _ _ _ _ _ _ _ e F1)).
  rewrite (bind_Ok _ _ _ _ _ (lh_get_ok _ _ _ _ _ _ _ _ _ e F1 Hz)), (lg_dev _ _ O), Hu.
  destruct (bread_spec s1 C Pn _ P W L bn c0 e F1 Hc0) as (b2 & s2 & E2 & F2); [set_solver| |].
  { destruct rec; [right; cbn; lia|left]. rewrite (elem_of_perm _ _ _ Hpn). by left. }
  rewrite (bind_Ok _ _ _ _ _ E2).
  destruct (get_held s2 _ _ _ _ _ _ b1 lb e F2 ltac:(by right; left)) as (fb & E3 & Hfb & _).
  rewrite (bind_Ok _ _ _ _ _ E3). assert (b_data fb = c) as -> by congruence.
  destruct (upd_held s2 _ _ _ _ _ _ b2 bn c0 c (set_b_data c) e F2) as (s3 & E4 & F3); [set_solver|done|done|].
  rewrite (bind_Ok _ _ _ _ _ E4).
  destruct (bwrite_spec s3 _ _ _ _ _ _ b2 bn c e F3) as (s4 & E5 & F4); [set_solver|by rewrite lookup_insert_eq|].
  rewrite (bind_Ok _ _ _ _ _ E5).
  assert (exists s5, when (negb rec) (bunpin b2) (mkWorld s4 e) = Ok tt (mkWorld s5 e) /\
    fsst s5 (<[bn := c]> C) Pn' [(b2, bn); (b1, lb)] (<[bn := c]> P) ((bn, c) :: W) L) as (s5 & E6 & F5).
  { destruct rec; cbn [negb when]; [destruct Hpn as [-> _]; by exists s4|].
    eapply bunpin_spec; [done| |done]. by left. }
  rewrite (bind_Ok _ _ _ _ _ E6).
  destruct (brelse_spec s5 _ _ _ [(b2, bn)] _ _ _ b1 lb e F5) as (s6 & E7 & F6); [solve_Permutation| |].
  { left. by rewrite !lookup_insert_ne, HP by done. }
  rewrite (bind_Ok _ _ _ _ _ E7).
  destruct (brelse_spec s6 _ _ _ [] _ _ _ b2 bn e F6) as (s7 & E8 & F7); [done|left; by rewrite !lookup_insert_eq|].
  by exists s7.
Qed.

Lemma write_head_spec s C Pn P W L bl h e :
  fsst s C Pn [] P W L -> log_ok L bl -> C !! log_start L = Some h -> log_start L ∉ Pn -> (length Pn < NBUF)%nat ->
  exists s', write_head (mkWorld s e) = Ok tt (mkWorld s' e) /\
    fsst s' (<[log_start L := head_bytes bl h]> C) Pn [] (<[log_start L := head_bytes bl h]> P)
      ((log_start L, head_bytes bl h) :: W) L.
Proof using DS.
  intros F O Hh Hnp Hlen. pose proof (lg_start _ _ O) as Hs. set (st := log_start L) in *.
  assert (u32 st = st) as Hu by (apply u32_small; lia).
  unfold write_head. rewrite (bind_Ok _ _ _ _ _ (getd_log s C Pn [] P W L e F)), (lg_dev _ _ O). fold st. rewrite Hu.
  destruct (bread_spec s C Pn [] P W L st h e F Hh) as (b & s1 & E1 & F1); [apply not_elem_of_nil|cbn; lia|].
  rewrite (bind_Ok _ _ _ _ _ E1), (bind_Ok _ _ _ _ _ (getl_ok lh_n _ _ _ _ _ _ _ e F1)), (lg_n _ _ O).
  set (h0 := put_s32 0 (Z.of_nat (length bl)) h).
  destruct (upd_held s1 _ _ _ _ _ _ b st h h0
    (fun bp => set_b_data (put_s32 0 (Z.of_nat (length bl)) (b_data bp)) bp) e F1) as (s2 & E2 & F2);
    [by left|done|by intros bp ->|].
  rewrite (bind_Ok _ _ _ _ _ E2).
  set (I t s := fsst s (<[st := put_blocks 0 (take t bl) h0]> C) Pn [(b, st)] P W L).
  destruct (tail_loop_spec I (length bl) (fun i =>
    v ← lh_get (Z.of_nat i);
    upd_buf b (fun bp => set_b_data (put_s32 (lh_off i) v (b_data bp)) bp)) e) with s2 as (s3 & E3 & F3).
  - intros t s' HI. rewrite (fs_log _ _ _ _ _ _ _ HI). apply (lg_n _ _ O).
  - intros t s' Ht HI. unfold I in HI. destruct (lookup_lt_is_Some_2 bl t Ht) as [v Hv].
    destruct (log_ok_lookup L bl t v O Hv) as (Hz & _). rewrite (bind_Ok _ _ _ _ _ (lh_get_ok _ _ _ _ _ _ _ _ _ e HI Hz)).
    destruct (upd_held s' _ _ _ _ _ _ b st (put_blocks 0 (take t bl) h0) (put_blocks 0 (take (S t) bl) h0)
      (fun bp => set_b_data (put_s32 (lh_off t) v (b_data bp)) bp) e HI) as (s4 & E4 & F4).
    + by left.
    + by rewrite lookup_insert_eq.
    + intros bp ->. rewrite (take_S_r _ _ v Hv), put_blocks_snoc, length_take, Nat.min_l by lia. done.
    + exists s4. split; [done|]. unfold I. by rewrite insert_insert_eq in F4.
  - pose proof (lg_room _ _ O). lia.
  - exact F2.
  - rewrite (bind_Ok _ _ _ _ _ E3). unfold I in F3. rewrite firstn_all in F3. fold (head_bytes bl h) in F3.
    destruct (bwrite_spec s3 _ _ _ _ _ _ b st (head_bytes bl h) e F3) as (s4 & E4 & F4);
      [by left|by rewrite lookup_insert_eq|].
    rewrite (bind_Ok _ _ _ _ _ E4).
    destruct (brelse_spec s4 _ _ _ [] _ _ _ b st e F4) as (s5 & E5 & F5); [done|left; by rewrite !lookup_insert_eq|].
    by exists s5.
Qed.

(** The header [h] lists the blocks [bl]. *)
Definition encodes (h : list Z) bl : Prop :=
  data_s32 0 h = Z.of_nat (length bl) /\ forall k v, bl !! k = Some v -> data_s32 (lh_off k) h = v.

Definition with_head bl (L : logstate) : logstate :=
  set_lh_block (bl ++ drop (length bl) (lh_block L)) (set_lh_n (Z.of_nat (length bl)) L).

Lemma read_head_spec s C Pn P W L bl h e :
  fsst s C Pn [] P W L -> u32 (log_dev L) = w_dev -> 0 <= log_start L < 2147483000 ->
  length (lh_block L) = Z.to_nat LOGSIZE -> (length bl <= Z.to_nat LOGSIZE)%nat ->
  C !! log_start L = Some h -> encodes h bl -> log_start L ∉ Pn -> (length Pn < NBUF)%nat ->
  exists s', read_head (mkWorld s e) = Ok tt (mkWorld s' e) /\ fsst s' C Pn [] P W (with_head bl L).
Proof using DS.
  intros F Hd Hs Hll Hbl Hh [En Eb] Hnp Hlen. assert (u32 (log_start L) = log_start L) as Hu by (apply u32_small; lia).
  unfold read_head. rewrite (bind_Ok _ _ _ _ _ (getd_log s C Pn [] P W L e F)), Hd, Hu.
  assert (P !! log_start L = C !! log_start L) as HP.
  { rewrite <- (fs_platter _ _ _ _ _ _ _ F), (ca_disk _ _ _ _ (fs_cache _ _ _ _ _ _ _ F)); [done|done|apply not_elem_of_nil]. }
  destruct (bread_spec s C Pn [] P W L (log_start L) h e F Hh) as (b & s1 & E1 & F1); [apply not_elem_of_nil|cbn; lia|].
  rewrite (bind_Ok _ _ _ _ _ E1).
  destruct (get_held s1 _ _ _ _ _ _ b (log_start L) e F1 ltac:(by left)) as (bp & E2 & Hbp & _).
  rewrite (bind_Ok _ _ _ _ _ E2). assert (b_data bp = h) as -> by congruence. rewrite En.
  destruct (fsst_modl s1 _ _ _ _ _ _ (set_lh_n (Z.of_nat (length bl))) e F1) as (s2 & E3 & F2).
  rewrite (bind_Ok _ _ _ _ _ E3).
  set (Lt t := set_lh_block (take t bl ++ drop t (lh_block L)) (set_lh_n (Z.of_nat (length bl)) L)).
  set (I t s := fsst s C Pn [(b, log_start L)] P W (Lt t)).
  destruct (tail_loop_spec I (length bl) (fun i => lh_set (Z.of_nat i) (data_s32 (lh_off i) h)) e) with s2
    as (s3 & E4 & F3); [| |done| |].
  - intros t s' HI. by rewrite (fs_log _ _ _ _ _ _ _ HI).
  - intros t s' Ht HI. unfold I in HI. destruct (lookup_lt_is_Some_2 bl t Ht) as [v Hv]. rewrite (Eb t v Hv).
    assert (length (take t bl ++ drop t (lh_block L)) = Z.to_nat LOGSIZE) as Hlt.
    { rewrite length_app, length_take, length_drop. lia. }
    destruct (lookup_lt_is_Some_2 (lh_block (Lt t)) t) as [w Hw]; [cbn; lia|].
    unfold lh_set. erewrite bind_Ok by (eapply lh_get_ok; [exact HI|by rewrite zlookup_of_nat]).
    destruct (fsst_modl s' _ _ _ _ _ _ (fun l => set_lh_block (<[Z.to_nat (Z.of_nat t) := v]> (lh_block l)) l) e HI)
      as (s4 & E4 & F4).
    exists s4. split; [done|]. unfold I.
    assert (<[Z.to_nat (Z.of_nat t) := v]> (lh_block (Lt t)) = take (S t) bl ++ drop (S t) (lh_block L)) as EB.
    { unfold Lt. cbn [lh_block set_lh_block]. rewrite Nat2Z.id, insert_app_r_alt by (rewrite length_take; lia).
      rewrite length_take, Nat.min_l, Nat.sub_diag by lia. rewrite (take_S_r _ _ v Hv), <- app_assoc. f_equal.
      destruct (lookup_lt_is_Some_2 (lh_block L) t) as [x Hx]; [lia|]. by rewrite (drop_S (lh_block L) x t Hx). }
    rewrite EB in F4. exact F4.
  - unfold I, Lt. cbn [take drop app]. replace (set_lh_block (lh_block L) _) with (set_lh_n (Z.of_nat (length bl)) L); [done|].
    by destruct L.
  - rewrite (bind_Ok _ _ _ _ _ E4). unfold I, Lt in F3. rewrite firstn_all in F3. fold (with_head bl L) in F3.
    destruct (brelse_spec s3 _ _ _ [] _ _ _ b (log_start L) e F3) as (s4 & E5 & F4); [done|by left|]. by exists s4.
Qed.

Lemma fsst_perm s C Pn Pn' H P W L : Pn ≡ₚ Pn' -> fsst s C Pn H P W L -> fsst s C Pn' H P W L.
Proof. intros E [Fc Fk Fa FP FW FL FR FD]. split; [done..| |done|done|done|done|done]. by apply (cache_perm _ _ Pn _ H). Qed.

(** The writes of a commit: the log, and the home locations. *)
Definition log_writes (L : logstate) (cs : list (list Z)) : list (Z * list Z) :=
  imap (fun t c => (log_block L t, c)) cs.
Definition home_writes bl (cs : list (list Z)) : list (Z * list Z) := zip bl cs.

Lemma log_writes_keys L cs n : n ∈ (log_writes L cs).*1 -> exists t, (t < length cs)%nat /\ n = log_block L t.
Proof.
  intros Hn. apply list_elem_of_fmap in Hn as ([m c] & -> & Hin). apply list_elem_of_lookup in Hin as [t Ht].
  unfold log_writes in Ht. rewrite list_lookup_imap in Ht. destruct (cs !! t) eqn:E; [|done].
  injection Ht as <- <-. exists t. split; [by eapply lookup_lt_Some|done].
Qed.

Lemma keys_take (ws : list (Z * list Z)) t n : n ∈ (take t ws).*1 -> n ∈ ws.*1.
Proof. rewrite fmap_take. apply subseteq_take. Qed.

Lemma write_log_spec s C Pn P W L bl cs e :
  fsst s C Pn [] P W L -> log_ok L bl -> log_there L C -> Forall2 (fun bn c => C !! bn = Some c) bl cs ->
  (forall bn, bn ∈ bl -> bn ∈ Pn) -> (length Pn < NBUF)%nat ->
  exists s', write_log (mkWorld s e) = Ok tt (mkWorld s' e) /\
    fsst s' (apply_writes (log_writes L cs) C) Pn [] (apply_writes (log_writes L cs) P) (reverse (log_writes L cs) ++ W) L.
Proof using DS.
  intros F O T HC Hpin Hlen. set (lw := log_writes L cs). pose proof (Forall2_length _ _ _ HC) as Hl.
  pose proof (lg_room _ _ O) as Hroom.
  assert (length lw = length bl) as Hlw by (unfold lw, log_writes; by rewrite length_imap).
  set (I t s := fsst s (apply_writes (take t lw) C) Pn [] (apply_writes (take t lw) P) (reverse (take t lw) ++ W) L).
  destruct (tail_loop_spec I (length bl) write_log_one e) with s as (s' & E & F'); [| |lia|exact F|].
  - intros t s' HI. rewrite (fs_log _ _ _ _ _ _ _ HI). apply (lg_n _ _ O).
  - intros t s' Ht HI. unfold I in HI. destruct (lookup_lt_is_Some_2 bl t Ht) as [bn Hbn].
    destruct (Forall2_lookup_l _ _ _ _ _ HC Hbn) as (c & Hcs & Hc).
    destruct (log_ok_lookup L bl t bn O Hbn) as (_ & _ & _ & Hout).
    assert (forall n, n ∈ (take t lw).*1 -> log_start L < n < log_start L + LOGSIZE) as Hk.
    { intros n Hn. apply keys_take, log_writes_keys in Hn as (i & Hi & ->). unfold log_block, LOGSIZE, MAXOPBLOCKS in *. lia. }
    assert (lw !! t = Some (log_block L t, c)) as Hlt by (unfold lw, log_writes; by rewrite list_lookup_imap, Hcs).
    destruct (write_log_one_spec s' _ _ _ _ _ bl t bn c e HI O) as (s1 & E1 & F1); [|done| | |done|].
    + split.
      * intros i Hi. by apply apply_writes_dom, T.
      * intros h. rewrite apply_writes_ne; [apply T|]. intros Hn. apply Hk in Hn. lia.
    + rewrite apply_writes_ne; [done|]. intros Hn. apply Hk in Hn. lia.
    + apply Hpin. by apply list_elem_of_lookup_2 in Hbn.
    + exists s1. split; [done|]. unfold I. rewrite (take_S_r _ _ _ Hlt), !apply_writes_app, reverse_app. exact F1.
  - exists s'. split; [done|]. unfold I in F'. by rewrite <- Hlw, firstn_all in F'.
Qed.

Lemma install_trans_spec s C P W L bl cs (rec : bool) e :
  fsst s C (if rec then [] else bl) [] P W L -> log_ok L bl ->
  length cs = length bl -> (forall t c, cs !! t = Some c -> C !! log_block L t = Some c) ->
  (forall bn, bn ∈ bl -> is_Some (C !! bn)) ->
  exists s', install_trans rec (mkWorld s e) = Ok tt (mkWorld s' e) /\
    fsst s' (apply_writes (home_writes bl cs) C) [] [] (apply_writes (home_writes bl cs) P)
      (reverse (home_writes bl cs) ++ W) L.
Proof using DS.
  intros F O Hl HC Hhome. set (hw := home_writes bl cs). pose proof (lg_room _ _ O) as Hroom.
  assert (length hw = length bl) as Hhw by (unfold hw, home_writes; rewrite length_zip_with; lia).
  set (I t s := fsst s (apply_writes (take t hw) C) (if rec then [] else drop t bl) [] (apply_writes (take t hw) P)
    (reverse (take t hw) ++ W) L).
  destruct (tail_loop_spec I (length bl) (install_one rec) e) with s as (s' & E & F'); [| |lia|exact F|].
  - intros t s' HI. rewrite (fs_log _ _ _ _ _ _ _ HI). apply (lg_n _ _ O).
  - intros t s' Ht HI. unfold I in HI. destruct (lookup_lt_is_Some_2 bl t Ht) as [bn Hbn].
    destruct (lookup_lt_is_Some_2 cs t) as [c Hcs]; [lia|].
    assert (hw !! t = Some (bn, c)) as Hht by (unfold hw, home_writes; rewrite lookup_zip_with, Hbn; cbn; by rewrite Hcs).
    assert (log_block L t ∉ bl) as Hlb.
    { intros Hn. apply list_elem_of_lookup in Hn as [i Hi]. destruct (log_ok_lookup L bl i _ O Hi) as (_ & _ & _ & Hout).
      unfold log_block, LOGSIZE, MAXOPBLOCKS in *. lia. }
    assert (forall n, n ∈ (take t hw).*1 -> n ∈ bl) as Hk.
    { intros n Hn. apply keys_take in Hn. unfold hw, home_writes in Hn. rewrite fst_zip in Hn by lia. done. }
    destruct (install_one_spec s' _ _ (if rec then [] else drop (S t) bl) _ _ _ bl t bn c rec e HI O)
      as (s1 & E1 & F1); [done| | | | | |].
    + rewrite apply_writes_ne; [by apply HC|]. intros Hn. by apply Hlb, Hk.
    + apply apply_writes_dom, Hhome. by apply list_elem_of_lookup_2 in Hbn.
    + destruct rec; [apply not_elem_of_nil|]. intros Hn. apply Hlb. by eapply subseteq_drop.
    + unfold LOGSIZE, MAXOPBLOCKS, NBUF in *. destruct rec; cbn; [lia|]. rewrite length_drop. lia.
    + unfold NBUF. destruct rec; cbn; [split; [done|split; [apply not_elem_of_nil|lia]]|]. by rewrite (drop_S bl bn t Hbn).
    + exists s1. split; [done|]. unfold I. rewrite (take_S_r _ _ _ Hht), !apply_writes_app, reverse_app. exact F1.
  - exists s'. split; [done|]. unfold I in F'. rewrite <- Hhw, firstn_all, Hhw in F'.
    replace (if rec then [] else drop (length bl) bl) with (@nil Z) in F' by (by destruct rec; rewrite ?drop_all).
    done.
Qed.

Lemma log_ok_zero L bl : log_ok L bl -> log_ok (set_lh_n 0 L) [].
Proof. intros [A1 A2 A3 A4 A5 A6 A7 A8]. split; cbn; [done..|by unfold LOGSIZE, MAXOPBLOCKS; lia|done|constructor|constructor]. Qed.

(** The last step of a commit and of a recovery: an empty header. *)
Lemma clear_head_spec s C P W L bl h e :
  fsst s C [] [] P W L -> log_ok L bl -> C !! log_start L = Some h ->
  exists s', (modl (set_lh_n 0);; write_head) (mkWorld s e) = Ok tt (mkWorld s' e) /\
    fsst s' (<[log_start L := head_bytes [] h]> C) [] [] (<[log_start L := head_bytes [] h]> P)
      ((log_start L, head_bytes [] h) :: W) (set_lh_n 0 L).
Proof using DS.
  intros F O Hh. destruct (fsst_modl s _ _ _ _ _ _ (set_lh_n 0) e F) as (s1 & E1 & F1).
  rewrite (bind_Ok _ _ _ _ _ E1).
  apply (write_head_spec s1 C [] P W (set_lh_n 0 L) [] h e F1 (log_ok_zero L bl O) Hh); [apply not_elem_of_nil|].
  unfold NBUF. cbn. lia.
Qed.

(** ** Commits *)

Definition commit_writes (L : logstate) bl cs (h : list Z) : list (Z * list Z) :=
  log_writes L cs ++ (log_start L, head_bytes bl h) :: home_writes bl cs ++
    [(log_start L, head_bytes [] (head_bytes bl h))].

Lemma log_writes_in L cs t c : cs !! t = Some c -> (log_block L t, c) ∈ log_writes L cs.
Proof. intros Ht. apply list_elem_of_lookup. exists t. unfold log_writes. by rewrite list_lookup_imap, Ht. Qed.

Lemma log_writes_nodup L cs : NoDup (log_writes L cs).*1.
Proof.
  unfold log_writes. rewrite fmap_imap. apply NoDup_alt. intros i j x Hi Hj.
  rewrite list_lookup_imap in Hi, Hj. unfold log_block in *. cbn in *.
  destruct (cs !! i); [|done]. destruct (cs !! j); [|done]. injection Hi as <-. injection Hj. lia.
Qed.

Lemma commit_spec s C P W L bl cs h e :
  fsst s C bl [] P W L -> log_ok L bl -> bl <> [] -> log_there L C -> Forall2 (fun bn c => C !! bn = Some c) bl cs ->
  C !! log_start L = Some h ->
  exists s' C', commit (mkWorld s e) = Ok tt (mkWorld s' e) /\
    fsst s' C' [] [] (apply_writes (commit_writes L bl cs h) P) (reverse (commit_writes L bl cs h) ++ W) (set_lh_n 0 L).
Proof using DS.
  intros F O Hne T HC Hh. pose proof (Forall2_length _ _ _ HC) as Hl. pose proof (lg_room _ _ O) as Hroom.
  unfold LOGSIZE, MAXOPBLOCKS in Hroom. unfold commit.
  rewrite (bind_Ok _ _ _ _ _ (getl_ok lh_n _ _ _ _ _ _ _ e F)), (lg_n _ _ O).
  destruct (Z.ltb_spec 0 (Z.of_nat (length bl))) as [_|?]; [|destruct bl; [done|cbn in *; lia]]. cbn [when].
  destruct (write_log_spec s C bl P W L bl cs e F O T HC) as (s1 & E1 & F1); [done|unfold NBUF; lia|].
  rewrite (bind_Ok _ _ _ _ _ E1). set (lw := log_writes L cs) in *.
  assert (forall n, n ∈ lw.*1 -> log_start L < n < log_start L + LOGSIZE) as Hk.
  { intros n Hn. apply log_writes_keys in Hn as (i & Hi & ->). unfold log_block, LOGSIZE, MAXOPBLOCKS in *. lia. }
  assert (forall n, n ∈ bl -> n < log_start L \/ log_start L + LOGSIZE <= n) as Hhome.
  { intros n Hn. pose proof (lg_home _ _ O) as Hf. rewrite Forall_forall in Hf. by apply Hf. }
  destruct (write_head_spec s1 _ _ _ _ _ bl h e F1 O) as (s2 & E2 & F2).
  { rewrite apply_writes_ne; [done|]. intros Hn. apply Hk in Hn. lia. }
  { intros Hn. apply Hhome in Hn. unfold LOGSIZE, MAXOPBLOCKS in Hn. lia. }
  { unfold NBUF. lia. }
  rewrite (bind_Ok _ _ _ _ _ E2).
  destruct (install_trans_spec s2 _ _ _ _ bl cs false e F2 O) as (s3 & E3 & F3); [done| | |].
  { intros t c Hc. rewrite lookup_insert_ne by (unfold log_block; lia).
    apply apply_writes_in; [apply log_writes_nodup|by apply log_writes_in]. }
  { intros bn Hbn. pose proof (Hhome bn Hbn). rewrite lookup_insert_ne by (unfold LOGSIZE, MAXOPBLOCKS in *; lia).
    apply apply_writes_dom. apply list_elem_of_lookup in Hbn as [i Hi].
    destruct (Forall2_lookup_l _ _ _ _ _ HC Hi) as (c & _ & Hc). by exists c. }
  rewrite (bind_Ok _ _ _ _ _ E3).
  destruct (clear_head_spec s3 _ _ _ _ bl (head_bytes bl h) e F3 O) as (s4 & E4 & F4).
  { rewrite apply_writes_ne; [by rewrite lookup_insert_eq|]. unfold home_writes. rewrite fst_zip by lia.
    intros Hn. apply Hhome in Hn. unfold LOGSIZE, MAXOPBLOCKS in Hn. lia. }
  exists s4. eexists. split; [exact E4|]. unfold commit_writes. fold lw.
  rewrite apply_writes_app, reverse_app, reverse_cons, reverse_app, <- !app_assoc.
  rewrite apply_writes_cons, apply_writes_app. exact F4.
Qed.

(** ** Recording a block *)

Lemma modl_section lk f s e : modl f (mkWorld (acq lk s) e) =
  Ok tt (mkWorld (acq lk (mapd (fun d => set_logS (f (logS d)) d) s)) e).
Proof. unfold modl, modd. run. by rewrite acq_mapd. Qed.

Lemma bpin_section s C Pn H P W L b n e : fsst s C Pn H P W L -> (b, n) ∈ H -> n ∉ Pn ->
  exists s', bpin b (mkWorld (acq LLog s) e) = Ok tt (mkWorld (acq LLog s') e) /\ fsst s' C (n :: Pn) H P W L.
Proof.
  intros F Hin Hn. destruct (held_lookup s C Pn H P W L b n F Hin) as (bp & Hb & _).
  destruct (bpin_spec s C Pn H P W L b n e F Hin Hn) as (s' & E & F').
  unfold bpin in E. rewrite (ref_change s C Pn H P W L b n _ e F Hin) in E. injection E as <-. eexists. split; [|exact F'].
  pose proof (fs_calm _ _ _ _ _ _ _ F) as Fc. pose proof (calm_settled _ _ Fc) as Hs.
  assert (noff (acq LLog s) = 1) as Hno by (rewrite noff_acq, (calm_noff _ _ Fc); [done|apply Hs]).
  assert (is_free (acq LLog s) LBcache) as Hf by (apply is_free_acq_ne; [done|]; apply Fc, all_locks_single; set_solver).
  assert (settled (acq LLog s)) as Hs' by (apply settled_acq; [apply Hs|rewrite (calm_noff _ _ Fc); done]).
  unfold bpin. rewrite (bind_Ok _ _ _ _ _ (acquire_ok LBcache (acq LLog s) e (proj1 Hs') (free_locked _ _ Hf))).
  rewrite (bind_Ok _ _ _ _ _ (upd_buf_ok b _ bp (acq LBcache (acq LLog s)) e Hb)).
  rewrite release_mapd_acq; [|done|rewrite Hno; done|done]. by rewrite acq_mapd.
Qed.

(** The search of [log_write]. *)
Lemma find_logged_ok (bls bl : list Z) n w : Forall (fun v => 0 <= v < 2147483648) bl -> forall i,
  (forall k v, bl !! k = Some v -> bls !! (i + k)%nat = Some v) ->
  find_logged i (length bl) bls n w =
  Ok (i + from_option fst (length bl) (list_find (fun v => v = n) bl))%nat w.
Proof.
  intros Hf. induction Hf as [|v bl Hv Hf IH]; intros i Hi; cbn [find_logged length list_find]; [cbn; by rewrite Nat.add_0_r|].
  pose proof (Hi 0%nat v eq_refl) as H0. rewrite Nat.add_0_r in H0. rewrite H0. unfold the. run. rewrite u32_small by lia.
  destruct (decide (v = n)) as [->|Hne].
  - rewrite Z.eqb_refl. cbn. by rewrite Nat.add_0_r.
  - apply Z.eqb_neq in Hne as ->. rewrite IH.
    + destruct (list_find _ bl) as [[k u]|]; cbn; do 2 f_equal; lia.
    + intros k u Hk. specialize (Hi (S k) u Hk). by rewrite Nat.add_succ_r in Hi.
Qed.

Definition add_block (bl : list Z) (n : Z) : list Z := if decide (n ∈ bl) then bl else bl ++ [n].

Lemma lh_set_section lk s L i v e : logS (kd s) = L -> (i < length (lh_block L))%nat ->
  lh_set (Z.of_nat i) v (mkWorld (acq lk s) e) =
  Ok tt (mkWorld (acq lk (mapd (fun d => set_logS (set_lh_block (<[i := v]> (lh_block (logS d))) (logS d)) d) s)) e).
Proof.
  intros <- Hi. destruct (lookup_lt_is_Some_2 _ _ Hi) as [x Hx]. unfold lh_set, lh_get, getl, getd. run.
  rewrite zlookup_of_nat. change (kd (acq lk s)) with (kd s). rewrite Hx. unfold the. run. rewrite modl_section, Nat2Z.id. done.
Qed.

Lemma release_fsst s C Pn H P W L e : fsst s C Pn H P W L -> release LLog (mkWorld (acq LLog s) e) = Ok tt (mkWorld s e).
Proof.
  intros F. pose proof (fs_calm _ _ _ _ _ _ _ F) as Fc. apply release_acq; [apply Fc|rewrite (calm_noff _ _ Fc); done|].
  apply Fc, all_locks_single. set_solver.
Qed.

(** Room for one more block. *)
Record log_open (L : logstate) bl (n : Z) : Prop := {
  lo_ok : log_ok L bl;
  lo_size : Z.of_nat (length bl) < log_size L - 1;
  lo_max : log_size L <= LOGSIZE;
  lo_trans : 1 <= log_outstanding L;
  lo_home : 0 <= n < 2147483648 /\ (n < log_start L \/ log_start L + LOGSIZE <= n)
}.

(** What log_write leaves in the header. *)
Definition record_block bl (n : Z) (L : logstate) : logstate :=
  if decide (n ∈ bl) then L
  else set_lh_n (Z.of_nat (S (length bl))) (set_lh_block (<[length bl := n]> (lh_block L)) L).

Lemma record_block_ok L bl n : log_open L bl n -> log_ok (record_block bl n L) (add_block bl n).
Proof.
  intros [O Hs Hm Ht Hh]. unfold record_block, add_block. destruct (decide (n ∈ bl)) as [|Hn]; [done|].
  destruct O as [A1 A2 A3 A4 A5 A6 A7 A8]. split; cbn; try done.
  - by rewrite length_insert.
  - rewrite length_app. cbn. lia.
  - rewrite length_app. cbn. lia.
  - rewrite length_app. cbn [length]. rewrite Nat.add_1_r, (take_S_r _ _ n).
    + by rewrite take_insert_ge, A6.
    + apply list_lookup_insert_eq. lia.
  - apply NoDup_app. split; [done|]. split; [|apply NoDup_singleton]. intros x Hx ->%list_elem_of_singleton. done.
  - apply Forall_app. split; [done|]. by apply Forall_singleton.
Qed.

Lemma log_write_spec s C Pn H P W L bl b n e :
  fsst s C Pn H P W L -> (b, n) ∈ H -> log_open L bl n -> (n ∈ bl <-> n ∈ Pn) ->
  exists s', log_write b (mkWorld s e) = Ok tt (mkWorld s' e) /\
    fsst s' C (if decide (n ∈ bl) then Pn else n :: Pn) H P W (record_block bl n L).
Proof.
  intros F Hin Op Hpin. pose proof Op as [O Hs Hm Ht [Hn Hh]]. pose proof O as [A1 A2 A3 A4 A5 A6 A7 A8].
  destruct (held_lookup s C Pn H P W L b n F Hin) as (bp & Hb & [_ Hbn] & _).
  pose proof (fs_log _ _ _ _ _ _ _ F) as FL. assert (LLog ∈ all_locks) as LB by (apply all_locks_single; set_solver).
  unfold LOGSIZE, MAXOPBLOCKS in A3, A5, Hm.
  unfold log_write. rewrite (bind_Ok _ _ _ _ _ (acquire_calm w_proc s e (fs_calm _ _ _ _ _ _ _ F) LLog LB)).
  rewrite (bind_Ok _ _ _ L (mkWorld (acq LLog s) e)); [|unfold getd; run; by rewrite <- FL].
  rewrite A4, s32_small by lia.
  destruct (Z.leb_spec LOGSIZE (Z.of_nat (length bl))) as [?|_]; [unfold LOGSIZE, MAXOPBLOCKS in *; lia|].
  destruct (Z.leb_spec (log_size L - 1) (Z.of_nat (length bl))) as [?|_]; [lia|].
  destruct (Z.ltb_spec (log_outstanding L) 1) as [?|_]; [lia|]. cbn [orb].
  rewrite (bind_Ok _ _ _ _ _ (get_buf_ok b bp (acq LLog s) e Hb)), Hbn, Nat2Z.id, s32_small by lia.
  rewrite (bind_Ok _ _ _ _ _ (find_logged_ok (lh_block L) bl n (mkWorld (acq LLog s) e)
    ltac:(eapply Forall_impl; [exact A8|intros ? []; lia]) 0 ltac:(intros k v Hk; rewrite <- A6 in Hk; by apply lookup_take_Some in Hk as []))).
  cbn [Nat.add]. set (i := from_option fst (length bl) (list_find (fun v => v = n) bl)).
  assert (i < length (lh_block L))%nat as Hi.
  { unfold i. destruct (list_find _ bl) as [[k v]|] eqn:E; cbn; [|lia].
    apply list_find_Some in E as (E & _). apply lookup_lt_Some in E. lia. }
  rewrite (bind_Ok _ _ _ _ _ (lh_set_section LLog s L i n e FL Hi)).
  pose proof (fsst_log s C Pn H P W L (fun l => set_lh_block (<[i := n]> (lh_block l)) l) F) as F1.
  set (s1 := mapd _ s) in *. unfold record_block.
  destruct (list_find (fun v => v = n) bl) as [[k v]|] eqn:E; cbn in i.
  - apply list_find_Some in E as (E & -> & _). assert (n ∈ bl) as Hnb by (by eapply list_elem_of_lookup_2). rewrite !decide_True by done.
    pose proof (lookup_lt_Some _ _ _ E) as Hk. destruct (Z.eqb_spec (Z.of_nat i) (Z.of_nat (length bl))); [lia|].
    cbn [when]. run. exists s1. split; [by eapply release_fsst|].
    rewrite list_insert_id in F1; [|].
    { by replace (set_lh_block (lh_block L) L) with L in F1 by (by destruct L). }
    rewrite <- A6 in E. by apply lookup_take_Some in E as [].
  - apply list_find_None in E. rewrite Forall_forall in E.
    assert (n ∉ bl) as Hnb by (intros Hx; by apply (E n Hx)). rewrite !decide_False by done.
    rewrite Z.eqb_refl. cbn [when].
    destruct (bpin_section s1 C Pn H P W _ b n e F1 Hin) as (s2 & E2 & F2); [by rewrite <- Hpin|].
    rewrite bind_assoc, (bind_Ok _ _ _ _ _ E2), (bind_Ok _ _ _ _ _ (modl_section _ _ _ _)).
    pose proof (fsst_log _ _ _ _ _ _ _ (fun l => set_lh_n (s32 (lh_n l + 1)) l) F2) as F3.
    eexists. split; [by eapply release_fsst|]. cbn in F3. rewrite A4, s32_small in F3 by lia.
    by replace (Z.of_nat (S (length bl))) with (Z.of_nat (length bl) + 1) by lia.
Qed.

(** ** Reservations *)

Lemma begin_op_spec s C Pn H P W L e :
  fsst s C Pn H P W L -> log_committing L = 0 -> 0 <= lh_n L -> 0 <= log_outstanding L ->
  lh_n L + (log_outstanding L + 1) * MAXOPBLOCKS <= LOGSIZE ->
  exists s', begin_op (mkWorld s e) = Ok tt (mkWorld s' e) /\
    fsst s' C Pn H P W (set_log_outstanding (log_outstanding L + 1) L).
Proof.
  intros F Hc Hn Ho Hr. pose proof (fs_log _ _ _ _ _ _ _ F) as FL. unfold LOGSIZE, MAXOPBLOCKS in Hr.
  assert (LLog ∈ all_locks) as LB by (apply all_locks_single; set_solver).
  pose proof (fsst_log s C Pn H P W L (set_log_outstanding (log_outstanding L + 1)) F) as F1.
  eexists. split; [|exact F1]. unfold begin_op.
  rewrite (bind_Ok _ _ _ _ _ (acquire_calm w_proc s e (fs_calm _ _ _ _ _ _ _ F) LLog LB)). apply wait_loop_once.
  rewrite (bind_Ok _ _ _ L (mkWorld (acq LLog s) e)); [|unfold getd; run; by rewrite <- FL].
  rewrite Hc. change (z2b 0) with false. cbv iota. unfold LOGSIZE, MAXOPBLOCKS. rewrite !s32_small by lia.
  destruct (Z.ltb_spec (10 * 3) (lh_n L + (log_outstanding L + 1) * 10)) as [?|_]; [lia|].
  rewrite (bind_Ok _ _ _ _ _ (modl_section _ _ _ _)). by rewrite (bind_Ok _ _ _ _ _ (release_fsst _ _ _ _ _ _ _ e F1)).
Qed.

(** C38: begin_op promises more than the log can hold.  The log that
    mkfs lays out has LOGSIZE blocks, its header included, so it holds one block less than begin_op gives out: begin_op admits a third
    operation to an empty log, but the last of the MAXOPBLOCKS blocks that the
    operation may write stops the machine when the others wrote theirs. *)
Theorem log_overcommitted s C Pn H P W L e :
  fsst s C Pn H P W L -> log_size L = LOGSIZE -> log_committing L = 0 -> log_outstanding L = 2 ->
  (lh_n L = 0 -> exists s', begin_op (mkWorld s e) = Ok tt (mkWorld s' e) /\ log_outstanding (logS (kd s')) = 3) /\
  (lh_n L = 3 * MAXOPBLOCKS - 1 -> forall b, log_write b (mkWorld s e) = Panic "too big a transaction").
Proof.
  intros F Hs Hc Ho. split.
  - intros Hn. destruct (begin_op_spec s C Pn H P W L e F Hc) as (s' & E & F'); [lia|lia|unfold LOGSIZE, MAXOPBLOCKS; lia|].
    exists s'. split; [done|]. rewrite (fs_log _ _ _ _ _ _ _ F'). cbn. lia.
  - intros Hn b. assert (LLog ∈ all_locks) as LB by (apply all_locks_single; set_solver). unfold log_write.
    rewrite (bind_Ok _ _ _ _ _ (acquire_calm w_proc s e (fs_calm _ _ _ _ _ _ _ F) LLog LB)).
    rewrite (bind_Ok _ _ _ L (mkWorld (acq LLog s) e)); [|unfold getd; run; by rewrite <- (fs_log _ _ _ _ _ _ _ F)].
    by rewrite Hn, Hs.
Qed.

(** ** Recovery *)

Definition outside (st n : Z) : Prop := n < st \/ st + LOGSIZE <= n.

(** The platter [P] has the header [h], which lists the blocks [bl], whose
    contents [cs] are in the log. *)
Record logged (st : Z) P bl (cs : list (list Z)) (h : list Z) : Prop := {
  ld_head : P !! st = Some h;
  ld_bytes : block_bytes h;
  ld_enc : encodes h bl;
  ld_room : (length bl < Z.to_nat LOGSIZE)%nat;
  ld_nodup : NoDup bl;
  ld_home : Forall (fun b => 0 <= b < 2147483648 /\ outside st b) bl;
  ld_there b : b ∈ bl -> is_Some (P !! b);
  ld_len : length cs = length bl;
  ld_log t c : cs !! t = Some c -> P !! (st + 1 + Z.of_nat t) = Some c
}.

(** The platter stands for [D]: what a recovery makes of it. *)
Definition stands_for (st : Z) P D : Prop :=
  exists bl cs h, logged st P bl cs h /\ forall n, outside st n -> apply_writes (home_writes bl cs) P !! n = D !! n.

Definition recovery_writes (st : Z) bl cs (h : list Z) : list (Z * list Z) :=
  home_writes bl cs ++ [(st, head_bytes [] h)].

Lemma home_keys bl cs n : length cs = length bl -> n ∈ (home_writes bl cs).*1 <-> n ∈ bl.
Proof. intros Hl. unfold home_writes. by rewrite fst_zip by lia. Qed.

Lemma home_in bl (cs : list (list Z)) n : length cs = length bl -> n ∈ bl -> exists c, (n, c) ∈ home_writes bl cs.
Proof.
  intros Hl Hn. rewrite <- (home_keys bl cs) in Hn by done. apply list_elem_of_fmap in Hn as ([m c] & -> & Hin). by exists c.
Qed.

Lemma head_clear h : block_bytes h -> block_bytes (head_bytes [] h) /\ encodes (head_bytes [] h) [].
Proof. intros Hh. destruct (head_bytes_spec [] h Hh) as (B & E & E'); [cbn; lia|constructor|]. done. Qed.

(** Writing the home locations does not change what the platter stands for. *)
Lemma logged_take st P bl cs h j : logged st P bl cs h ->
  logged st (apply_writes (take j (home_writes bl cs)) P) bl cs h /\
  forall n, apply_writes (home_writes bl cs) (apply_writes (take j (home_writes bl cs)) P) !! n =
    apply_writes (home_writes bl cs) P !! n.
Proof.
  intros [A1 A2 A3 A4 A5 A6 A7 A8 A9].
  assert (forall n, n ∈ (take j (home_writes bl cs)).*1 -> n ∈ bl) as Hk.
  { intros n Hn. apply keys_take in Hn. by rewrite home_keys in Hn. }
  assert (forall n, n ∈ bl -> outside st n) as Ho by (intros n Hn; rewrite Forall_forall in A6; by apply A6).
  split; [split; try done|].
  - rewrite apply_writes_ne; [done|]. intros Hn%Hk%Ho. unfold outside, LOGSIZE, MAXOPBLOCKS in Hn. lia.
  - intros b Hb. by apply apply_writes_dom, A7.
  - intros t c Hc. rewrite apply_writes_ne; [by apply A9|]. intros Hn%Hk%Ho.
    apply lookup_lt_Some in Hc. unfold outside, LOGSIZE, MAXOPBLOCKS in *. lia.
  - intros n. destruct (decide (n ∈ bl)) as [Hn|Hn].
    + destruct (home_in bl cs n A8 Hn) as [c Hc].
      rewrite !(apply_writes_in _ _ n c); [done|unfold home_writes; by rewrite fst_zip by lia|done
        |unfold home_writes; by rewrite fst_zip by lia|done].
    + assert (n ∉ (home_writes bl cs).*1) as Hn' by (by rewrite home_keys).
      rewrite !apply_writes_ne; [done|done|intros ?%Hk; done|done].
Qed.

Lemma stands_cleared st P bl cs h : logged st P bl cs h ->
  logged st (apply_writes (recovery_writes st bl cs h) P) [] [] (head_bytes [] h) /\
  forall n, outside st n -> apply_writes (recovery_writes st bl cs h) P !! n = apply_writes (home_writes bl cs) P !! n.
Proof.
  intros [A1 A2 A3 A4 A5 A6 A7 A8 A9]. unfold recovery_writes. rewrite apply_writes_app, apply_writes_cons. cbn [apply_writes foldl].
  destruct (head_clear h A2) as [B1 B2]. split; [split; try done|].
  - by rewrite lookup_insert_eq.
  - unfold LOGSIZE, MAXOPBLOCKS. cbn. lia.
  - apply NoDup_nil_2.
  - intros b Hb. by apply elem_of_nil in Hb.
  - intros n Hn. rewrite lookup_insert_ne; [done|]. intros ->. unfold outside, LOGSIZE, MAXOPBLOCKS in Hn. lia.
Qed.

(** So a platter stands for the same contents after any part of a recovery. *)
Lemma stands_prefix st P bl cs h D j : logged st P bl cs h ->
  (forall n, outside st n -> apply_writes (home_writes bl cs) P !! n = D !! n) ->
  stands_for st (apply_writes (take j (recovery_writes st bl cs h)) P) D.
Proof.
  intros Hl HD. destruct (decide (j <= length (home_writes bl cs))%nat) as [Hj|Hj].
  - unfold recovery_writes. rewrite take_app_le by done. destruct (logged_take st P bl cs h j Hl) as [Hl' E].
    exists bl, cs, h. split; [done|]. intros n Hn. rewrite E. by apply HD.
  - rewrite take_ge by (unfold recovery_writes; rewrite length_app; cbn; lia).
    destruct (stands_cleared st P bl cs h Hl) as [Hl' E]. exists [], [], (head_bytes [] h). split; [done|].
    intros n Hn. change (home_writes [] []) with (@nil (Z * list Z)). cbn [apply_writes foldl]. rewrite E by done. by apply HD.
Qed.

Lemma log_ok_read st P bl cs h L : logged st P bl cs h -> u32 (log_dev L) = w_dev -> log_start L = st ->
  0 <= st < 2147483000 -> length (lh_block L) = Z.to_nat LOGSIZE -> log_ok (with_head bl L) bl.
Proof.
  intros [A1 A2 A3 A4 A5 A6 A7 A8 A9] Hd <- Hs Hl. split; cbn; try done.
  - rewrite length_app, length_drop. lia.
  - by rewrite take_app_length.
Qed.

Lemma recover_from_log_spec s P W L bl cs h e :
  fsst s P [] [] P W L -> u32 (log_dev L) = w_dev -> 0 <= log_start L < 2147483000 ->
  length (lh_block L) = Z.to_nat LOGSIZE -> logged (log_start L) P bl cs h ->
  exists s' L', recover_from_log (mkWorld s e) = Ok tt (mkWorld s' e) /\
    fsst s' (apply_writes (recovery_writes (log_start L) bl cs h) P) [] []
      (apply_writes (recovery_writes (log_start L) bl cs h) P)
      (reverse (recovery_writes (log_start L) bl cs h) ++ W) L'.
Proof using DS.
  intros F Hd Hs Hl D. pose proof D as [A1 A2 A3 A4 A5 A6 A7 A8 A9].
  assert (length (@nil Z) < NBUF)%nat as Hz by (unfold NBUF; cbn; lia).
  unfold recover_from_log.
  destruct (read_head_spec s P [] P W L bl h e F Hd Hs Hl ltac:(lia) A1 A3 (not_elem_of_nil _) Hz) as (s1 & E1 & F1).
  rewrite (bind_Ok _ _ _ _ _ E1).
  pose proof (log_ok_read _ P bl cs h L D Hd eq_refl Hs Hl) as O.
  destruct (install_trans_spec s1 P P W _ bl cs true e F1 O A8 A9 A7) as (s2 & E2 & F2). rewrite (bind_Ok _ _ _ _ _ E2).
  destruct (clear_head_spec s2 _ _ _ _ bl h e F2 O) as (s3 & E3 & F3).
  { rewrite apply_writes_ne; [done|]. rewrite home_keys by done. rewrite Forall_forall in A6. intros Hn%A6.
    cbn in Hn. unfold outside, LOGSIZE, MAXOPBLOCKS in Hn. lia. }
  exists s3. eexists. split; [exact E3|]. unfold recovery_writes. rewrite apply_writes_app, reverse_app. exact F3.
Qed.

Lemma fsst_initlock s C Pn H P W L lk name e : fsst s C Pn H P W L ->
  exists s', initlock lk name (mkWorld s e) = Ok tt (mkWorld s' e) /\ fsst s' C Pn H P W L.
Proof.
  intros [Fc Fk Fa FP FW FL FR FD]. eexists. split; [apply initlock_ok|]. split; try done.
  destruct Fc as [C1 C2 C3 C4]. split; try done. intros lk' Hlk'.
  destruct (decide (lk' = lk)) as [->|]; [apply is_free_init|by apply is_free_init_keep, C4].
Qed.

(** initlog, with all that holds after it *)
Lemma initlog_fsst s P W L dev sb bl cs h e :
  fsst s P [] [] P W L -> length (lh_block L) = Z.to_nat LOGSIZE -> u32 dev = w_dev -> 0 <= s32 (sb_logstart sb) < 2147483000 ->
  logged (s32 (sb_logstart sb)) P bl cs h ->
  let ws := recovery_writes (s32 (sb_logstart sb)) bl cs h in
  exists s' L', initlog dev sb (mkWorld s e) = Ok tt (mkWorld s' e) /\ fsst s' (apply_writes ws P) [] [] (apply_writes ws P) (reverse ws ++ W) L'.
Proof using DS.
  intros F Hl Hd Hs D. unfold initlog. change (BSIZE <=? sizeof_logheader) with false. cbv iota.
  destruct (fsst_initlock s _ _ _ _ _ _ LLog "log" e F) as (s1 & E1 & F1). rewrite (bind_Ok _ _ _ _ _ E1).
  destruct (fsst_modl s1 _ _ _ _ _ _ (set_log_start (s32 (sb_logstart sb))) e F1) as (s2 & E2 & F2). rewrite (bind_Ok _ _ _ _ _ E2).
  destruct (fsst_modl s2 _ _ _ _ _ _ (set_log_size (s32 (sb_nlog sb))) e F2) as (s3 & E3 & F3). rewrite (bind_Ok _ _ _ _ _ E3).
  destruct (fsst_modl s3 _ _ _ _ _ _ (set_log_dev dev) e F3) as (s4 & E4 & F4). rewrite (bind_Ok _ _ _ _ _ E4).
  apply (recover_from_log_spec s4 _ _ _ bl cs h e F4); done.
Qed.

End log.

(** ** Restarts *)

Section restart.
Context {Wk : Worker} {K : Disk} {DS : DiskSpec}.
Implicit Types (C P D : gmap Z (list Z)) (Pn : list Z) (H : list (nat * Z)) (bl : list Z).

(** A machine that has booted on the platter [P]: nothing is in the cache. *)
Definition booted_on (s : kstate) P : Prop :=
  exists (Wk' : Worker) W L, w_dev (Worker := Wk') = w_dev (Worker := Wk) /\
    fsst (Wk := Wk') s P [] [] P W L /\ length (lh_block L) = Z.to_nat LOGSIZE.

Lemma initlog_spec s P dev sb bl cs h e :
  booted_on s P -> u32 dev = w_dev -> 0 <= s32 (sb_logstart sb) < 2147483000 -> logged (s32 (sb_logstart sb)) P bl cs h ->
  exists s', initlog dev sb (mkWorld s e) = Ok tt (mkWorld s' e) /\
    platter (kd s') = apply_writes (recovery_writes (s32 (sb_logstart sb)) bl cs h) P /\
    dwrites (kd s') = reverse (recovery_writes (s32 (sb_logstart sb)) bl cs h) ++ dwrites (kd s).
Proof using DS.
  intros (Wk' & W & L & Ew & F & Hl) Hd Hs D. rewrite <- Ew in Hd.
  destruct (initlog_fsst (Wk := Wk') s P W L dev sb bl cs h e F Hl Hd Hs D) as (s' & L' & E & F'). exists s'. split; [exact E|].
  rewrite (fs_platter _ _ _ _ _ _ _ F'), (fs_writes _ _ _ _ _ _ _ F'), (fs_writes _ _ _ _ _ _ _ F). split; reflexivity.
Qed.

(** What a restart makes of the platter [P]: it returns, with the contents
    [D] outside the log, and every platter a crash of the restart itself can
    leave stands for [D] again. *)
Definition restarts_to (st : Z) P D : Prop :=
  forall s dev sb e, booted_on s P -> u32 dev = w_dev -> s32 (sb_logstart sb) = st ->
  exists ws s', initlog dev sb (mkWorld s e) = Ok tt (mkWorld s' e) /\
    dwrites (kd s') = reverse ws ++ dwrites (kd s) /\ platter (kd s') = apply_writes ws P /\
    (forall n, outside st n -> platter (kd s') !! n = D !! n) /\
    forall j, stands_for st (apply_writes (take j ws) P) D.

Lemma stands_restarts st P D : 0 <= st < 2147483000 -> stands_for st P D -> restarts_to st P D.
Proof using DS.
  intros Hs (bl & cs & h & Hl & HD) s dev sb e Hb Hd <-.
  destruct (initlog_spec s P dev sb bl cs h e Hb Hd Hs Hl) as (s' & E & E1 & E2).
  exists (recovery_writes (s32 (sb_logstart sb)) bl cs h), s'. do 3 (split; [done|]). split.
  - intros n Hn. rewrite E1. destruct (stands_cleared _ P bl cs h Hl) as [_ E3]. rewrite E3 by done. by apply HD.
  - intros j. by eapply stands_prefix.
Qed.

(** ** A crash at any moment of a commit *)

(** A process about to commit the blocks [bl]: the cache has [C], of which the
    blocks [bl] are pinned and not on the platter [P] yet, and the header on
    the platter lists nothing. *)
Record about_to_commit s C P L bl : Prop := {
  ac_st : exists W, fsst s C bl [] P W L;
  ac_log : log_ok L bl;
  ac_there : log_there L C;
  ac_blocks bn : bn ∈ bl -> is_Some (C !! bn);
  ac_empty h : P !! log_start L = Some h -> data_s32 0 h = 0
}.

Lemma contents C bl : (forall bn, bn ∈ bl -> is_Some (C !! bn)) -> exists cs, Forall2 (fun bn c => C !! bn = Some c) bl cs.
Proof.
  induction bl as [|b bl IH]; intros Hb; [by exists []|]. destruct (Hb b) as [c Hc]; [by left|].
  destruct IH as [cs Hcs]; [intros; apply Hb; by right|]. exists (c :: cs). by constructor.
Qed.

Section crash.
Variables (s : kstate) (C P : gmap Z (list Z)) (L : logstate) (bl : list Z) (cs : list (list Z)) (h : list Z).
Hypothesis A : about_to_commit s C P L bl.
Hypothesis HC : Forall2 (fun bn c => C !! bn = Some c) bl cs.
Hypothesis Hh : C !! log_start L = Some h.

Lemma crash_home bn : bn ∈ bl -> 0 <= bn < 2147483648 /\ outside (log_start L) bn.
Proof using A. intros Hn. pose proof (lg_home _ _ (ac_log _ _ _ _ _ A)) as Hf. rewrite Forall_forall in Hf. by apply Hf. Qed.

Lemma crash_platter n : n ∉ bl -> P !! n = C !! n.
Proof using A.
  intros Hn. destruct (ac_st _ _ _ _ _ A) as [W F]. rewrite <- (fs_platter _ _ _ _ _ _ _ F).
  apply (ca_disk _ _ _ _ (fs_cache _ _ _ _ _ _ _ F)); [done|apply not_elem_of_nil].
Qed.

Lemma crash_head : P !! log_start L = Some h.
Proof using A Hh. rewrite crash_platter; [done|]. intros Hn%crash_home. unfold outside, LOGSIZE, MAXOPBLOCKS in Hn. lia. Qed.

Lemma crash_lw n : n ∈ (log_writes L cs).*1 -> log_start L < n < log_start L + LOGSIZE.
Proof using A HC.
  intros Hn. apply log_writes_keys in Hn as (i & Hi & ->). rewrite <- (Forall2_length _ _ _ HC) in Hi.
  pose proof (lg_room _ _ (ac_log _ _ _ _ _ A)). unfold log_block, LOGSIZE, MAXOPBLOCKS in *. lia.
Qed.

(** While the log is being written the platter stands for what it was. *)
Lemma stands_before k : stands_for (log_start L) (apply_writes (take k (log_writes L cs)) P) P.
Proof using A HC Hh.
  exists [], [], h. split.
  - split; try (by constructor).
    + rewrite apply_writes_ne; [apply crash_head|]. intros Hn%keys_take%crash_lw. lia.
    + apply (proj2 (ac_there _ _ _ _ _ A)), Hh.
    + split; [by apply (ac_empty _ _ _ _ _ A), crash_head|done].
    + unfold LOGSIZE, MAXOPBLOCKS. cbn. lia.
    + intros b Hb. by apply elem_of_nil in Hb.
    + intros t c Ht. done.
  - intros n Hn. change (home_writes [] []) with (@nil (Z * list Z)). cbn [apply_writes foldl].
    apply apply_writes_ne. intros Hin%keys_take%crash_lw. unfold outside in Hn. lia.
Qed.

Definition at_commit_point : gmap Z (list Z) := <[log_start L := head_bytes bl h]> (apply_writes (log_writes L cs) P).

(** The write of the header is the commit point. *)
Lemma logged_point : logged (log_start L) at_commit_point bl cs (head_bytes bl h).
Proof using A HC Hh.
  pose proof (ac_log _ _ _ _ _ A) as O. pose proof (lg_room _ _ O) as Hr. unfold LOGSIZE, MAXOPBLOCKS in Hr.
  assert (block_bytes h) as Bh by (apply (proj2 (ac_there _ _ _ _ _ A)), Hh).
  destruct (head_bytes_spec bl h Bh) as (B & E & E'); [lia| |].
  { apply Forall_forall. intros b Hb. apply crash_home in Hb. lia. }
  unfold at_commit_point. split; try done.
  - by rewrite lookup_insert_eq.
  - apply (lg_nodup _ _ O).
  - apply Forall_forall. intros b Hb. by apply crash_home.
  - intros b Hb. destruct (crash_home b Hb) as [_ Ho].
    rewrite lookup_insert_ne by (unfold outside, LOGSIZE, MAXOPBLOCKS in Ho; lia). apply apply_writes_dom.
    destruct (ac_st _ _ _ _ _ A) as [W F]. rewrite <- (fs_platter _ _ _ _ _ _ _ F).
    apply (ca_dom _ _ _ _ (fs_cache _ _ _ _ _ _ _ F)). by apply (ac_blocks _ _ _ _ _ A).
  - symmetry. by eapply Forall2_length.
  - intros t c Hc. rewrite lookup_insert_ne by lia. apply apply_writes_in; [apply log_writes_nodup|by apply log_writes_in].
Qed.

Lemma home_contents n : outside (log_start L) n -> apply_writes (home_writes bl cs) at_commit_point !! n = C !! n.
Proof using A HC Hh.
  intros Hn. pose proof (Forall2_length _ _ _ HC) as Hl. destruct (decide (n ∈ bl)) as [Hin|Hin].
  - apply list_elem_of_lookup in Hin as [i Hi]. destruct (Forall2_lookup_l _ _ _ _ _ HC Hi) as (c & Hc & Ec). rewrite Ec.
    apply apply_writes_in; [unfold home_writes; rewrite fst_zip by lia; apply (lg_nodup _ _ (ac_log _ _ _ _ _ A))|].
    apply list_elem_of_lookup. exists i. unfold home_writes. rewrite lookup_zip_with, Hi. cbn. by rewrite Hc.
  - rewrite apply_writes_ne by (by rewrite home_keys). unfold at_commit_point.
    rewrite lookup_insert_ne by (unfold outside, LOGSIZE, MAXOPBLOCKS in Hn; lia).
    rewrite apply_writes_ne; [by apply crash_platter|]. intros Hw%crash_lw. unfold outside in Hn. lia.
Qed.

(** What a platter stands for after the first [k] writes of the commit. *)
Lemma stands_commit k : stands_for (log_start L) (apply_writes (take k (commit_writes L bl cs h)) P)
  (if (k <=? length bl)%nat then P else C).
Proof using A HC Hh.
  pose proof (Forall2_length _ _ _ HC) as Hl. assert (length (log_writes L cs) = length bl) as Hlw.
  { unfold log_writes. by rewrite length_imap. }
  unfold commit_writes. destruct (Nat.leb_spec k (length bl)) as [Hk|Hk].
  - rewrite take_app_le by lia. apply stands_before.
  - rewrite take_app_ge, Hlw by lia. destruct (k - length bl)%nat as [|j] eqn:E; [lia|]. cbn [take].
    rewrite apply_writes_app, apply_writes_cons. fold at_commit_point.
    apply (stands_prefix _ at_commit_point bl cs (head_bytes bl h)); [apply logged_point|apply home_contents].
Qed.
End crash.

(** Recoveries that crash after some of their writes, one after the other. *)
Inductive crashes (st : Z) : gmap Z (list Z) -> gmap Z (list Z) -> Prop :=
  | crash_none P : crashes st P P
  | crash_again P P' s dev sb e ws s' k :
      booted_on s P -> u32 dev = w_dev -> s32 (sb_logstart sb) = st ->
      initlog dev sb (mkWorld s e) = Ok tt (mkWorld s' e) ->
      dwrites (kd s') = reverse ws ++ dwrites (kd s) ->
      crashes st (apply_writes (take k ws) P) P' -> crashes st P P'.

Lemma stands_crashes st P P' D : 0 <= st < 2147483000 -> crashes st P P' -> stands_for st P D -> stands_for st P' D.
Proof using DS.
  intros Hst Hc. induction Hc as [P|P P' s dev sb e ws s' k Hb Hd Hs E Ew _ IH]; intros S; [done|]. apply IH.
  destruct (stands_restarts st P D Hst S s dev sb e Hb Hd Hs) as (ws1 & s1 & E1 & Ew1 & _ & _ & Hk).
  assert (s1 = s') as -> by congruence. rewrite Ew in Ew1.
  apply app_inv_tail in Ew1. apply (inj reverse) in Ew1 as ->. apply Hk.
Qed.

(** C2: a commit is atomic.  commit returns; and if the machine stops
    after any number [k] of its disk writes and is restarted, the recovery in
    initlog returns and the blocks outside the log are then all as they were
    before the transaction or all as the transaction left them: the former if
    the header had not been written, the latter if it had. *)
Theorem commit_crash_safe s C P L bl e : about_to_commit s C P L bl ->
  exists ws s', commit (mkWorld s e) = Ok tt (mkWorld s' e) /\
    dwrites (kd s') = reverse ws ++ dwrites (kd s) /\ platter (kd s') = apply_writes ws P /\
    forall k, restarts_to (log_start L) (apply_writes (take k ws) P) (if (k <=? length bl)%nat then P else C).
Proof using DS.
  intros A. pose proof A as [(W & F) O T B _]. pose proof (lg_start _ _ O) as Hs.
  destruct (contents C bl B) as [cs HC]. destruct (proj1 T 0) as [h Hh]; [unfold LOGSIZE, MAXOPBLOCKS; lia|].
  rewrite Z.add_0_r in Hh. rewrite (fs_writes _ _ _ _ _ _ _ F).
  destruct (decide (bl = [])) as [->|Hne].
  - exists [], s. unfold commit. rewrite (bind_Ok _ _ _ _ _ (getl_ok lh_n _ _ _ _ _ _ _ e F)), (lg_n _ _ O).
    rewrite (fs_writes _ _ _ _ _ _ _ F), (fs_platter _ _ _ _ _ _ _ F). do 3 (split; [done|]).
    intros k. rewrite take_nil. apply stands_restarts; [done|].
    destruct (stands_commit s C P L [] cs h A HC Hh 0) as (bl & cs' & h' & Hl & E).
    exists bl, cs', h'. split; [done|]. intros n Hn. etrans; [exact (E n Hn)|].
    destruct (k <=? length [])%nat; [done|]. by apply (crash_platter s C P L [] A), not_elem_of_nil.
  - exists (commit_writes L bl cs h).
    destruct (commit_spec s C P W L bl cs h e F O Hne T HC Hh) as (s' & C' & E & F').
    exists s'. split; [done|]. rewrite (fs_writes _ _ _ _ _ _ _ F'), (fs_platter _ _ _ _ _ _ _ F'). do 2 (split; [done|]).
    intros k. apply stands_restarts; [done|]. by apply (stands_commit s C P L bl cs h A HC Hh k).
Qed.

(** C13: recovery can be interrupted and repeated.  If the platter stands
    for the contents [D] (as after a crash during a commit), then after any
    number of recoveries that crash, each after any number of its writes, a
    recovery that is left alone returns with the contents [D]. *)
Theorem recovery_idempotent st P P' D : 0 <= st < 2147483000 ->
  stands_for st P D -> crashes st P P' -> restarts_to st P' D.
Proof using DS. intros Hs S Hc. apply stands_restarts; [done|]. by eapply stands_crashes. Qed.

(** Log_write records a block once.  Called inside a transaction on
    a locked buffer, with room in the log, it returns, writes nothing to the
    disk, and leaves a header that lists the block after those listed before,
    unless it was listed already, and a cache in which exactly the listed
    blocks are pinned. *)
Theorem log_write_absorbs s C Pn H P W L bl b n e :
  fsst s C Pn H P W L -> (b, n) ∈ H -> log_open L bl n -> Pn ≡ₚ bl ->
  exists s' L' Pn', log_write b (mkWorld s e) = Ok tt (mkWorld s' e) /\
    fsst s' C Pn' H P W L' /\ log_ok L' (add_block bl n) /\ Pn' ≡ₚ add_block bl n.
Proof.
  intros F Hin Op E. destruct (log_write_spec s C Pn H P W L bl b n e F Hin Op) as (s' & E' & F'); [by rewrite E|].
  do 3 eexists. split; [done|]. split; [done|]. split; [by apply record_block_ok|].
  unfold add_block. destruct (decide (n ∈ bl)); [done|]. rewrite E. solve_Permutation.
Qed.
End restart.

(** ** An example
    A disk with its log in the blocks 2 to 31, and a transaction on block 100. *)

Definition worker_with (it : list inode) (S : superblock) : Worker :=
  {| w_proc := 0; w_pid := 0; w_dev := 1; w_inodes := it; w_sb := S |}.

Definition zeros : list Z := replicate 1024 0.
Definition ones : list Z := replicate 1024 1.
Definition platter0 : gmap Z (list Z) := map_seqZ 0 (replicate 101 zeros).
Definition log_example : logstate :=
  set_log_dev 1 (set_log_start 2 (set_log_size 30 (set_log_outstanding 1 log0))).

Lemma platter0_lookup n : 0 <= n < 101 -> platter0 !! n = Some zeros.
Proof. intros Hn. unfold platter0. rewrite lookup_map_seqZ_0 by lia. apply lookup_replicate. split; [reflexivity|lia]. Qed.

(** A machine just booted, with any disk *)
Lemma booted_with {K : Disk} {DS : DiskSpec} v it sb0 P L : disk_ready v P -> exists s, fsst (Wk := worker_with it sb0) s P [] [] P [] L.
Proof.
  intros Rv.
  set (s0 := mapd (fun d => set_vdiskS v (set_itable it (set_sb sb0 (set_logS L (set_platter P d))))) running0).
  destruct (binit_ok s0 []) as (bs & s & E & R & I & Es & Hf & _); [exact (length_replicate (S NBUF) buf0)|].
  exists (with_bufs bs s). assert (kd s = set_vdiskS v (set_itable it (set_sb sb0 (set_logS L (set_platter P kdata0))))) as Ed by (rewrite Es; reflexivity).
  assert (forall b bp, (b < NBUF)%nat -> bs !! b = Some bp -> core bp = core (set_b_lock fresh_lock buf0)) as Hb.
  { intros b bp Hb Hbp. destruct (inited_lookup _ _ b buf0 I Hb) as (bp' & Hbp' & Ec).
    - apply lookup_replicate. split; [reflexivity|]. lia.
    - rewrite Hbp in Hbp'. injection Hbp' as ->. exact Ec. }
  split.
  - apply calm_mapd. split; [rewrite Es; apply settled_running0|rewrite Es; reflexivity|rewrite Es; reflexivity|].
    intros lk Hlk. apply Hf. exact (running0_free lk Hlk).
  - cbn. rewrite Ed. split; [exact (length_replicate NPROC proc0)|]. exists proc0. split; reflexivity.
  - assert (forall b bp n, (b < NBUF)%nat -> bs !! b = Some bp -> on_dev (Wk := worker_with it sb0) bp n -> False) as Hno.
    { intros b bp n Hlt Hbp [Hd _]. rewrite (f_equal b_dev (Hb b bp Hlt Hbp) : b_dev bp = 0) in Hd. discriminate Hd. }
    split; cbn [kd with_bufs mapd set_bufs bufs platter].
    + exists (reverse (seq 0 NBUF)). split; [exact R|apply reverse_Permutation].
    + intros b bp Hlt Hbp. pose proof (Hb b bp Hlt Hbp) as Ec. split.
      * rewrite (f_equal b_refcnt Ec : b_refcnt bp = 0). rewrite !bool_decide_eq_false_2; [reflexivity|apply not_elem_of_nil|].
        intros [_ Hx]. exact (not_elem_of_nil _ Hx).
      * intros _. rewrite (f_equal b_lock Ec : b_lock bp = fresh_lock). reflexivity.
      * intros Hx. destruct (not_elem_of_nil _ Hx).
      * intros Hd. destruct (Hno b bp (b_blockno bp) Hlt Hbp). split; [exact Hd|reflexivity].
    + intros b1 b2 bp1 bp2 n L1 L2 H1 H2 D1 _. destruct (Hno b1 bp1 n L1 H1 D1).
    + intros b n Hx. destruct (not_elem_of_nil _ Hx).
    + intros n Hx. destruct (not_elem_of_nil _ Hx).
    + intros n _ _. change (platter (kd s) !! n = P !! n). rewrite Ed. reflexivity.
    + intros n Hn. change (is_Some (platter (kd s) !! n)). rewrite Ed. exact Hn.
    + split; apply NoDup_nil_2.
  - cbn. rewrite Ed. reflexivity.
  - cbn. rewrite Ed. reflexivity.
  - cbn. rewrite Ed. reflexivity.
  - cbn. rewrite Ed. split; reflexivity.
  - cbn. rewrite Ed. exact Rv.
Qed.

#[local] Instance worker0 : Worker := worker_with (itable kdata0) superblock0.
#[local] Instance disk_example : Disk := ramdisk.
#[local] Instance spec_example : DiskSpec := ramdisk_spec.

Lemma booted_example it sb0 P L : exists s, fsst (Wk := worker_with it sb0) s P [] [] P [] L.
Proof. by apply (booted_with (vdiskS kdata0)). Qed.

Lemma log_example_open it sb0 bl n : log_ok (Wk := worker_with it sb0) log_example bl -> (length bl < 20)%nat ->
  32 <= n < 101 -> log_open (Wk := worker_with it sb0) log_example bl n.
Proof. intros O Hl Hn. split; unfold log_example, LOGSIZE, MAXOPBLOCKS; cbn; [exact O|lia|lia|lia|lia]. Qed.

Lemma log_example_ok it sb0 : log_ok (Wk := worker_with it sb0) log_example [].
Proof.
  split; unfold log_example, LOGSIZE, MAXOPBLOCKS; cbn; [reflexivity|lia|reflexivity|reflexivity|lia|reflexivity|apply NoDup_nil_2|constructor].
Qed.

(** A locked buffer of the transaction, changed. *)
Lemma changed_example : exists s b, fsst s (<[100 := ones]> platter0) [] [(b, 100)] platter0 [] log_example.
Proof.
  destruct (booted_example (itable kdata0) superblock0 platter0 log_example) as [s F].
  destruct (bread_spec s _ _ _ _ _ _ 100 zeros [] F) as (b & s1 & _ & F1);
    [apply platter0_lookup; lia|apply not_elem_of_nil|right; cbn; unfold NBUF; lia|].
  destruct (upd_held s1 _ _ _ _ _ _ b 100 zeros ones (set_b_data ones) [] F1) as (s2 & _ & F2);
    [left|apply platter0_lookup; lia|reflexivity|].
  exists s2, b. exact F2.
Qed.

Lemma pending_example : exists s,
  about_to_commit s (<[100 := ones]> platter0) platter0 (record_block [] 100 log_example) [100].
Proof.
  destruct changed_example as (s & b & F).
  assert (log_open log_example [] 100) as Op by (apply log_example_open; [apply log_example_ok|cbn; lia|lia]).
  destruct (log_write_spec s _ _ _ _ _ _ [] b 100 [] F ltac:(left) Op ltac:(reflexivity)) as (s1 & _ & F1).
  destruct (brelse_spec s1 _ _ _ [] _ _ _ b 100 [] F1) as (s2 & _ & F2); [reflexivity|right; left|].
  exists s2. split.
  - exists []. exact F2.
  - exact (record_block_ok _ _ _ Op).
  - split.
    + intros i Hi. unfold LOGSIZE, MAXOPBLOCKS in Hi. change (log_start _) with 2. rewrite lookup_insert_ne by lia. rewrite platter0_lookup by lia. by eexists.
    + intros h Hh. change (log_start _) with 2 in Hh. rewrite lookup_insert_ne in Hh by lia. rewrite platter0_lookup in Hh by lia.
      injection Hh as <-. reflexivity.
  - intros bn ->%list_elem_of_singleton. rewrite lookup_insert_eq. by eexists.
  - intros h Hh. change (log_start _) with 2 in Hh. rewrite platter0_lookup in Hh by lia. injection Hh as <-. reflexivity.
Qed.

Lemma commit_crash_safe_witness : exists s ws s',
  commit (mkWorld s []) = Ok tt (mkWorld s' []) /\ platter (kd s') = apply_writes ws platter0 /\
  restarts_to 2 (apply_writes (take 1 ws) platter0) platter0 /\
  restarts_to 2 (apply_writes (take 2 ws) platter0) (<[100 := ones]> platter0).
Proof.
  destruct pending_example as [s A]. exists s.
  destruct (commit_crash_safe s (<[100 := ones]> platter0) platter0 _ [100] [] A) as (ws & s' & E & _ & E' & R).
  exists ws, s'. split; [exact E|]. split; [exact E'|]. split; [exact (R 1%nat)|exact (R 2%nat)].
Defined.

Lemma recovery_idempotent_witness : exists P P',
  stands_for 2 P (<[100 := ones]> platter0) /\ crashes 2 P P' /\ restarts_to 2 P' (<[100 := ones]> platter0).
Proof.
  destruct pending_example as [s A].
  pose proof (stands_commit s _ _ _ [100] [ones] zeros A) as S.
  assert (stands_for 2 (apply_writes (take 2 (commit_writes (record_block [] 100 log_example) [100] [ones] zeros)) platter0)
    (<[100 := ones]> platter0)) as S2.
  { apply (S ltac:(constructor; [apply lookup_insert_eq|constructor])). change (log_start _) with 2.
    rewrite lookup_insert_ne by lia. apply platter0_lookup. lia. }
  set (P := apply_writes _ platter0) in S2. destruct (booted_example (itable kdata0) superblock0 P log0) as [s1 F1].
  assert (booted_on s1 P) as B by (exists worker0, [], log0; split; [reflexivity|]; split; [exact F1|reflexivity]).
  destruct (stands_restarts 2 P _ ltac:(lia) S2 s1 1 (set_sb_logstart 2 superblock0) [] B eq_refl eq_refl)
    as (ws & s' & E & Ew & _).
  exists P, (apply_writes (take 1 ws) P). split; [exact S2|].
  assert (crashes 2 P (apply_writes (take 1 ws) P)) as Hc.
  { eapply (crash_again 2 P _ s1 1 (set_sb_logstart 2 superblock0) [] ws s' 1 B eq_refl eq_refl E Ew). apply crash_none. }
  split; [exact Hc|]. exact (recovery_idempotent 2 P _ _ ltac:(lia) S2 Hc).
Defined.

Lemma log_write_absorbs_witness : exists s b s' L' Pn',
  log_write b (mkWorld s []) = Ok tt (mkWorld s' []) /\ log_ok L' [100] /\
  fsst s' (<[100 := ones]> platter0) Pn' [(b, 100)] platter0 [] L'.
Proof.
  destruct changed_example as (s & b & F).
  destruct (log_write_absorbs s _ [] _ _ _ log_example [] b 100 [] F ltac:(left)
    (log_example_open _ _ [] 100 (log_example_ok _ _) ltac:(cbn; lia) ltac:(lia)) (Permutation_refl _))
    as (s' & L' & Pn' & E & F' & O & _).
  exists s, b, s', L', Pn'. split; [exact E|]. split; [exact O|exact F'].
Defined.

Lemma log_overcommitted_witness : exists s s', let full := set_lh_n 29 (set_log_outstanding 2 log_example) in
  begin_op (mkWorld s []) = Ok tt (mkWorld s' []) /\ log_outstanding (logS (kd s')) = 3 /\
  exists s2, fsst s2 platter0 [] [] platter0 [] full /\
    log_write 0 (mkWorld s2 []) = Panic "too big a transaction".
Proof.
  destruct (booted_example (itable kdata0) superblock0 platter0 (set_log_outstanding 2 log_example)) as [s F].
  destruct (log_overcommitted s _ _ _ _ _ _ [] F eq_refl eq_refl eq_refl) as [H _].
  destruct (H eq_refl) as (s' & E & E'). exists s, s'. split; [exact E|]. split; [exact E'|].
  destruct (booted_example (itable kdata0) superblock0 platter0 (set_lh_n 29 (set_log_outstanding 2 log_example))) as [s2 F2].
  exists s2. split; [exact F2|].
  exact (proj2 (log_overcommitted s2 _ _ _ _ _ _ [] F2 eq_refl eq_refl eq_refl) eq_refl 0%nat).
Defined.
