(* ===== verification/Fs.v ===== *)
(** * The file system

    kernel/fs.c: the block allocator, inodes, the contents of files,
    directories and path names.  A pointer to an in-memory inode is its index
    in itable; a kernel buffer that readi fills is returned as its bytes, and
    one that writei copies from is given as its bytes. *)

From S2P Require Import Prelude Prog State Spinlock Printf Switch CStr Kalloc Vm Proc Sleeplock Bio Log.

(** ** On-disk formats (fs.h) *)

Definition get_u32 (off : nat) (bs : list Z) : Z := le_combine (read_at off 4 bs).
Definition get_s16 (off : nat) (bs : list Z) : Z := s16 (le_combine (read_at off 2 bs)).

Definition superblock_of (bs : list Z) : superblock :=
  {| sb_magic := get_u32 0 bs; sb_size := get_u32 4 bs; sb_nblocks := get_u32 8 bs;
     sb_ninodes := get_u32 12 bs; sb_nlog := get_u32 16 bs; sb_logstart := get_u32 20 bs;
     sb_inodestart := get_u32 24 bs; sb_bmapstart := get_u32 28 bs |}.

Record dinode := {
  di_type : Z;
  di_major : Z;
  di_minor : Z;
  di_nlink : Z;
  di_size : Z;
  di_addrs : list Z
}.

Definition sizeof_dinode : nat := 64.
Definition IPB : Z := BSIZE / Z.of_nat sizeof_dinode.
Definition IBLOCK (i : Z) (sb : superblock) : Z := u32 (i / IPB + sb_inodestart sb).
Definition BBLOCK (b : Z) (sb : superblock) : Z := u32 (b / BPB + sb_bmapstart sb).

(** The dinode whose bytes are [bs], and its bytes. *)
Definition dinode_of (bs : list Z) : dinode :=
  {| di_type := get_s16 0 bs; di_major := get_s16 2 bs; di_minor := get_s16 4 bs; di_nlink := get_s16 6 bs;
     di_size := get_u32 8 bs;
     di_addrs := (fun i => get_u32 (12 + 4 * i) bs) <$> seq 0 (Z.to_nat (NDIRECT + 1)) |}.

Definition dinode_bytes (d : dinode) : list Z :=
  le_split 2 (di_type d) ++ le_split 2 (di_major d) ++ le_split 2 (di_minor d) ++ le_split 2 (di_nlink d) ++
  le_split 4 (di_size d) ++ mjoin (le_split 4 <$> di_addrs d).

(** The entry [inum%IPB] of a block of inodes. *)
Definition dinode_off (inum : Z) : nat := Z.to_nat (inum `mod` IPB) * sizeof_dinode.
Definition dinode_at (data : list Z) (inum : Z) : dinode := dinode_of (read_at (dinode_off inum) sizeof_dinode data).
Definition put_dinode (inum : Z) (d : dinode) (data : list Z) : list Z :=
  write_at (dinode_off inum) (dinode_bytes d) data.

Definition dinode0 : dinode :=
  {| di_type := 0; di_major := 0; di_minor := 0; di_nlink := 0; di_size := 0;
     di_addrs := replicate (Z.to_nat (NDIRECT + 1)) 0 |}.

Record dirent := { de_inum : Z; de_name : list Z }.
Definition sizeof_dirent : Z := 16.
Definition dirent_of (bs : list Z) : dirent :=
  {| de_inum := le_combine (read_at 0 2 bs); de_name := read_at 2 (Z.to_nat DIRSIZ) bs |}.
Definition dirent_bytes (de : dirent) : list Z := le_split 2 (de_inum de) ++ de_name de.

Record stat := { st_dev : Z; st_ino : Z; st_type : Z; st_nlink : Z; st_size : Z }.

Section fs.
Context `{!Disk}.

(** Change the data of a buffer. *)
Definition upd_data (b : nat) (f : list Z -> list Z) : M unit := upd_buf b (fun bp => set_b_data (f (b_data bp)) bp).
Definition get_data (b : nat) : M (list Z) := bp ← get_buf b; mret (b_data bp).

(** ** The super block *)

Definition readsb (dev : Z) : M superblock :=
  bp ← bread (u32 dev) 1;
  data ← get_data bp;
  brelse bp;;
  mret (superblock_of data).

Definition fsinit (dev : Z) : M unit :=
  s ← readsb dev;
  modd (set_sb s);;
  if negb (sb_magic s =? FSMAGIC) then panic "invalid file system" else
  initlog dev s.

(** ** Blocks *)

Definition bzero (dev bno : Z) : M unit :=
  bp ← bread (u32 dev) (u32 bno);
  upd_data bp (memset 0 (Z.to_nat BSIZE));;
  log_write bp;;
  brelse bp.

(** [1 << (bi % 8)], and whether the bit is clear *)
Definition bit_mask (bi : Z) : Z := Z.shiftl 1 (bi `mod` 8).
Definition bit_clear (data : list Z) (bi : Z) : M bool :=
  byte ← the "bitmap" (zlookup data (bi / 8));
  mret (Z.land byte (bit_mask bi) =? 0).

(** The inner loop of balloc: the first free block of this bitmap block. *)
Definition find_clear (data : list Z) (b size : Z) : M (option Z) :=
  for_find (seqZ 0 (Z.min BPB (size - b))) (fun bi =>
    c ← bit_clear data bi;
    mret (if (c : bool) then Some bi else None)).

Definition set_bit (bi : Z) (data : list Z) : list Z :=
  alter (fun byte : Z => Z.lor byte (bit_mask bi)) (Z.to_nat (bi / 8)) data.
Definition reset_bit (bi : Z) (data : list Z) : list Z :=
  alter (fun byte : Z => Z.land byte (u8 (Z.lnot (bit_mask bi)))) (Z.to_nat (bi / 8)) data.

(** [0, k, 2 k, ...] below [n] *)
Definition steps (k n : Z) : list Z := (fun i => i * k) <$> seqZ 0 ((n + k - 1) / k).

(** [sb] is written by fsinit only. *)
Definition balloc (dev : Z) : M Z :=
  s ← getd sb;
  r ← for_find (steps BPB (sb_size s)) (fun b =>
    bp ← bread dev (BBLOCK b s);
    data ← get_data bp;
    bi ← find_clear data b (sb_size s);
    match bi with
    | Some bi =>
      upd_data bp (set_bit bi);;
      log_write bp;;
      brelse bp;;
      bzero dev (b + bi);;
      mret (Some (u32 (b + bi)))
    | None => brelse bp;; mret None
    end);
  match r with
  | Some b => mret b
  | None => printf "balloc: out of blocks
" [];; mret 0
  end.

Definition bfree (dev b : Z) : M unit :=
  s ← getd sb;
  bp ← bread (u32 dev) (BBLOCK b s);
  let bi := b `mod` BPB in
  data ← get_data bp;
  c ← bit_clear data bi;
  if (c : bool) then panic "freeing free block" else
  upd_data bp (reset_bit bi);;
  log_write bp;;
  brelse bp.

(** ** Inodes *)

Definition iinit : M unit :=
  initlock LItable "itable";;
  for_each (seq 0 NINODE) (fun i => initsleeplock (SInode i) "inode").

(** The loop of iget: the entry of the inode, or the first empty one. *)
Fixpoint iget_scan (l : list nat) (empty : option nat) (dev inum : Z) : M (nat + option nat) :=
  match l with
  | [] => mret (inr empty)
  | i :: l =>
    ip ← get_inode i;
    if (0 <? i_ref ip) && (i_dev ip =? dev) && (i_inum ip =? inum) then mret (inl i) else
    iget_scan l (match empty with
                 | Some e => Some e
                 | None => if i_ref ip =? 0 then Some i else None
                 end) dev inum
  end.

Definition iget (dev inum : Z) : M nat :=
  acquire LItable;;
  r ← iget_scan (seq 0 NINODE) None dev inum;
  match r with
  | inl ip =>
    upd_inode ip (fun x => set_i_ref (s32 (i_ref x + 1)) x);;
    release LItable;;
    mret ip
  | inr None => panic "iget: no inodes"
  | inr (Some ip) =>
    upd_inode ip (set_i_dev dev);;
    upd_inode ip (set_i_inum inum);;
    upd_inode ip (set_i_ref 1);;
    upd_inode ip (set_i_valid 0);;
    release LItable;;
    mret ip
  end.

Definition ialloc (dev type : Z) : M (option nat) :=
  s ← getd sb;
  r ← for_find (seqZ 1 (sb_ninodes s - 1)) (fun inum =>
    bp ← bread dev (IBLOCK inum s);
    data ← get_data bp;
    if di_type (dinode_at data inum) =? 0 then
      upd_data bp (put_dinode inum {| dinode0 with di_type := type |});;
      log_write bp;;
      brelse bp;;
      ip ← iget dev inum;
      mret (Some ip)
    else brelse bp;; mret None);
  match r with
  | Some ip => mret (Some ip)
  | None => printf "ialloc: no inodes
" [];; mret None
  end.

(** The fields of an in-memory inode that live on disk. *)
Definition to_dinode (ip : inode) : dinode :=
  {| di_type := i_type ip; di_major := i_major ip; di_minor := i_minor ip; di_nlink := i_nlink ip;
     di_size := i_size ip; di_addrs := i_addrs ip |}.
Definition from_dinode (d : dinode) (ip : inode) : inode :=
  set_i_addrs (di_addrs d) (set_i_size (di_size d) (set_i_nlink (di_nlink d)
    (set_i_minor (di_minor d) (set_i_major (di_major d) (set_i_type (di_type d) ip))))).

Definition iupdate (ip : nat) : M unit :=
  s ← getd sb;
  x ← get_inode ip;
  bp ← bread (i_dev x) (IBLOCK (i_inum x) s);
  x ← get_inode ip;
  upd_data bp (put_dinode (i_inum x) (to_dinode x));;
  log_write bp;;
  brelse bp.

Definition idup (ip : nat) : M nat :=
  acquire LItable;;
  upd_inode ip (fun x => set_i_ref (s32 (i_ref x + 1)) x);;
  release LItable;;
  mret ip.

(** [ip] may be the null pointer. *)
Definition ilock (ip : option nat) : M unit :=
  match ip with
  | None => panic "ilock"
  | Some ip =>
    x ← get_inode ip;
    if i_ref x <? 1 then panic "ilock" else
    acquiresleep (SInode ip);;
    x ← get_inode ip;
    when (i_valid x =? 0) (
      s ← getd sb;
      bp ← bread (i_dev x) (IBLOCK (i_inum x) s);
      x ← get_inode ip;
      data ← get_data bp;
      upd_inode ip (from_dinode (dinode_at data (i_inum x)));;
      brelse bp;;
      upd_inode ip (set_i_valid 1);;
      x ← get_inode ip;
      if i_type x =? 0 then panic "ilock: no type" else mret tt)
  end.

Definition iunlock (ip : option nat) : M unit :=
  match ip with
  | None => panic "iunlock"
  | Some ip =>
    h ← holdingsleep (SInode ip);
    if negb h then panic "iunlock" else
    x ← get_inode ip;
    if i_ref x <? 1 then panic "iunlock" else
    releasesleep (SInode ip)
  end.

(** [ip->addrs[i]] and its assignment *)
Definition get_addr (ip : nat) (i : Z) : M Z := x ← get_inode ip; the "ip->addrs" (zlookup (i_addrs x) i).
Definition set_addr (ip : nat) (i v : Z) : M unit :=
  _ ← get_addr ip i; upd_inode ip (fun x => set_i_addrs (<[Z.to_nat i := v]> (i_addrs x)) x).

(** [ip->addrs[i]], allocating the block if there is none; 0 when the disk is full. *)
Definition addr_or_alloc (ip : nat) (i : Z) : M Z :=
  addr ← get_addr ip i;
  if addr =? 0 then
    x ← get_inode ip;
    addr ← balloc (i_dev x);
    if addr =? 0 then mret 0 else
    set_addr ip i addr;;
    mret addr
  else mret addr.

Definition bmap (ip : nat) (bn : Z) : M Z :=
  if bn <? NDIRECT then addr_or_alloc ip bn else
  let bn := bn - NDIRECT in
  if bn <? NINDIRECT then
    addr ← addr_or_alloc ip NDIRECT;
    if addr =? 0 then mret 0 else
    x ← get_inode ip;
    bp ← bread (i_dev x) addr;
    data ← get_data bp;
    let a := get_u32 (4 * Z.to_nat bn) data in
    addr ← (if a =? 0 then
              x ← get_inode ip;
              addr ← balloc (i_dev x);
              when (negb (addr =? 0)) (
                upd_data bp (write_at (4 * Z.to_nat bn) (le_split 4 addr));;
                log_write bp);;
              mret addr
            else mret a);
    brelse bp;;
    mret addr
  else panic "bmap: out of range".

Definition itrunc (ip : nat) : M unit :=
  for_each (seqZ 0 NDIRECT) (fun i =>
    a ← get_addr ip i;
    when (z2b a) (
      x ← get_inode ip;
      bfree (i_dev x) a;;
      set_addr ip i 0));;
  ind ← get_addr ip NDIRECT;
  when (z2b ind) (
    x ← get_inode ip;
    bp ← bread (i_dev x) ind;
    for_each (seq 0 (Z.to_nat NINDIRECT)) (fun j =>
      data ← get_data bp;
      let a := get_u32 (4 * j) data in
      when (z2b a) (x ← get_inode ip; bfree (i_dev x) a));;
    brelse bp;;
    x ← get_inode ip;
    ind ← get_addr ip NDIRECT;
    bfree (i_dev x) ind;;
    set_addr ip NDIRECT 0);;
  upd_inode ip (set_i_size 0);;
  iupdate ip.

Definition iput (ip : nat) : M unit :=
  acquire LItable;;
  x ← get_inode ip;
  when ((i_ref x =? 1) && z2b (i_valid x) && (i_nlink x =? 0)) (
    acquiresleep (SInode ip);;
    release LItable;;
    itrunc ip;;
    upd_inode ip (set_i_type 0);;
    iupdate ip;;
    upd_inode ip (set_i_valid 0);;
    releasesleep (SInode ip);;
    acquire LItable);;
  upd_inode ip (fun x => set_i_ref (s32 (i_ref x - 1)) x);;
  release LItable.

Definition iunlockput (ip : nat) : M unit :=
  iunlock (Some ip);;
  iput ip.

(** ** The contents of a file *)

Definition stati (ip : nat) : M stat :=
  x ← get_inode ip;
  mret {| st_dev := s32 (i_dev x); st_ino := i_inum x; st_type := i_type x; st_nlink := i_nlink x;
          st_size := i_size x |}.

(** A transfer of [n] bytes touches at most [n / BSIZE + 2] blocks. *)
Definition blocks_fuel (n : Z) : nat := Z.to_nat (n / BSIZE) + 3.

(** The bytes of this turn: up to the end of the block. *)
Definition chunk (n tot off : Z) : Z := Z.min (u32 (n - tot)) (BSIZE - off `mod` BSIZE).

(** The loop of readi: the value of [tot] when it ends, and the bytes stored at
    a kernel [dst]. *)
Fixpoint readi_loop (fuel : nat) (ip : nat) (user_dst : bool) (dst off n tot : Z) : M (Z * list Z) :=
  match fuel with
  | O => fault "readi fuel"
  | S fuel =>
    if negb (tot <? n) then mret (tot, []) else
    addr ← bmap ip (off / BSIZE);
    if addr =? 0 then mret (tot, []) else
    x ← get_inode ip;
    bp ← bread (i_dev x) addr;
    let m := chunk n tot off in
    data ← get_data bp;
    '(r, bs) ← either_copyout user_dst dst (read_at (Z.to_nat (off `mod` BSIZE)) (Z.to_nat m) data);
    if r =? -1 then brelse bp;; mret (u32 (-1), bs) else
    brelse bp;;
    '(t, rest) ← readi_loop fuel ip user_dst (u64 (dst + m)) (u32 (off + m)) n (u32 (tot + m));
    mret (t, bs ++ rest)
  end.

Definition readi (ip : nat) (user_dst : bool) (dst off n : Z) : M (Z * list Z) :=
  x ← get_inode ip;
  if (i_size x <? off) || (u32 (off + n) <? off) then mret (0, []) else
  let n := if i_size x <? u32 (off + n) then u32 (i_size x - off) else n in
  '(tot, bs) ← readi_loop (blocks_fuel n) ip user_dst dst off n 0;
  mret (s32 tot, bs).

(** The loop of writei: the values of [tot] and [off] when it ends. *)
Fixpoint writei_loop (fuel : nat) (ip : nat) (src : Z + list Z) (off n tot : Z) : M (Z * Z) :=
  match fuel with
  | O => fault "writei fuel"
  | S fuel =>
    if negb (tot <? n) then mret (tot, off) else
    addr ← bmap ip (off / BSIZE);
    if addr =? 0 then mret (tot, off) else
    x ← get_inode ip;
    bp ← bread (i_dev x) addr;
    let m := chunk n tot off in
    '(r, bs) ← either_copyin src (Z.to_nat m);
    upd_data bp (write_at (Z.to_nat (off `mod` BSIZE)) bs);;
    if r =? -1 then brelse bp;; mret (tot, off) else
    log_write bp;;
    brelse bp;;
    let src := match src with inl va => inl (u64 (va + m)) | inr bs => inr (drop (Z.to_nat m) bs) end in
    writei_loop fuel ip src (u32 (off + m)) n (u32 (tot + m))
  end.

Definition writei (ip : nat) (src : Z + list Z) (off n : Z) : M Z :=
  x ← get_inode ip;
  if (i_size x <? off) || (u32 (off + n) <? off) then mret (-1) else
  if MAXFILE * BSIZE <? u32 (off + n) then mret (-1) else
  '(tot, off) ← writei_loop (blocks_fuel n) ip src off n 0;
  x ← get_inode ip;
  when (i_size x <? off) (upd_inode ip (set_i_size off));;
  iupdate ip;;
  mret (s32 tot).

(** ** Directories *)

Definition namecmp (s t : list Z) : M Z := the "namecmp" (strncmp s t (Z.to_nat DIRSIZ)).

Definition read_dirent (dp : nat) (off : Z) (msg : string) : M dirent :=
  '(r, bs) ← readi dp false 0 off sizeof_dirent;
  if negb (r =? sizeof_dirent) then panic msg else mret (dirent_of bs).

(** The inode and the offset of the entry. *)
Definition dirlookup (dp : nat) (name : list Z) : M (option (nat * Z)) :=
  x ← get_inode dp;
  if negb (i_type x =? T_DIR) then panic "dirlookup not DIR" else
  for_find (steps sizeof_dirent (i_size x)) (fun off =>
    de ← read_dirent dp off "dirlookup read";
    if de_inum de =? 0 then mret None else
    c ← namecmp name (de_name de);
    if c =? 0 then
      x ← get_inode dp;
      ip ← iget (i_dev x) (de_inum de);
      mret (Some (ip, off))
    else mret None).

Definition dirlink (dp : nat) (name : list Z) (inum : Z) : M Z :=
  r ← dirlookup dp name;
  match r with
  | Some (ip, _) => iput ip;; mret (-1)
  | None =>
    x ← get_inode dp;
    let offs := steps sizeof_dirent (i_size x) in
    r ← for_find offs (fun off =>
      de ← read_dirent dp off "dirlink read";
      mret (if de_inum de =? 0 then Some off else None));
    let off := default (Z.of_nat (length offs) * sizeof_dirent) r in
    nm ← the "strncpy" (strncpy_bytes name (Z.to_nat DIRSIZ));
    r ← writei dp (inr (dirent_bytes {| de_inum := u16 inum; de_name := nm |})) off sizeof_dirent;
    mret (if r =? sizeof_dirent then 0 else -1)
  end.

(** ** Paths *)

Fixpoint skip_slashes (path : list Z) : list Z :=
  match path with
  | c :: rest => if c =? chr "/" then skip_slashes rest else path
  | [] => []
  end.

(** The characters before the next slash or the end, and what follows them. *)
Fixpoint take_elem (path : list Z) : list Z * list Z :=
  match path with
  | c :: rest =>
    if (c =? chr "/") || (c =? 0) then ([], path)
    else let '(s, path) := take_elem rest in (c :: s, path)
  | [] => ([], [])
  end.

(** The rest of the path and the contents of [name]; [None] is the null
    pointer. *)
Definition skipelem (path name : list Z) : M (option (list Z * list Z)) :=
  let path := skip_slashes path in
  c ← the "path" (head path);
  if c =? 0 then mret None else
  let '(s, path) := take_elem path in
  _ ← the "path" (head path);
  let name := if DIRSIZ <=? Z.of_nat (length s) then write_at 0 (take (Z.to_nat DIRSIZ) s) name
              else write_at 0 (s ++ [0]) name in
  mret (Some (skip_slashes path, name)).

(** Each turn consumes at least one character of the path. *)
Fixpoint namex_loop (fuel : nat) (ip : nat) (path : list Z) (nameiparent : bool) (name : list Z)
  : M (option (nat * list Z)) :=
  match fuel with
  | O => fault "namex fuel"
  | S fuel =>
    r ← skipelem path name;
    match r with
    | None => if nameiparent then iput ip;; mret None else mret (Some (ip, name))
    | Some (path, name) =>
      ilock (Some ip);;
      x ← get_inode ip;
      if negb (i_type x =? T_DIR) then iunlockput ip;; mret None else
      c ← the "path" (head path);
      if nameiparent && (c =? 0) then iunlock (Some ip);; mret (Some (ip, name)) else
      next ← dirlookup ip name;
      match next with
      | None => iunlockput ip;; mret None
      | Some (next, _) => iunlockput ip;; namex_loop fuel next path nameiparent name
      end
    end
  end.

(** The inode and the contents of [name]. *)
Definition namex (path : list Z) (nameiparent : bool) (name : list Z) : M (option (nat * list Z)) :=
  c ← the "path" (head path);
  ip ← (if c =? chr "/" then iget ROOTDEV ROOTINO
        else p ← myproc; p ← nonnull p; pr ← get_proc p; cwd ← nonnull (p_cwd pr); idup cwd);
  namex_loop (S (length path)) ip path nameiparent name.

Definition namei (path : list Z) : M (option nat) :=
  r ← namex path false (replicate (Z.to_nat DIRSIZ) 0);
  mret (fst <$> r).

Definition nameiparent (path name : list Z) : M (option (nat * list Z)) := namex path true name.
End fs.
