(* ===== verification/FsSpec.v ===== *)
(** * Inodes and path names

    Theorems on [Fs]: what an inode written by iupdate is read back as, and
    which names the loop of namex takes from a path. *)

From S2P Require Import Prelude Prog State Spinlock Switch CStr Kalloc Vm Proc Sleeplock Bio Cache Log LogSpec Fs.

(** ** Path names *)

Definition flush (cur : list Z) : list (list Z) := match cur with [] => [] | _ => [cur] end.

(** The names in a path: its parts between slashes, the empty ones left out. *)
Fixpoint elements (cur str : list Z) : list (list Z) :=
  match str with
  | [] => flush cur
  | c :: str => if c =? chr "/" then flush cur ++ elements [] str else elements (cur ++ [c]) str
  end.

(** The array [nm] holds the name [el]: its first DIRSIZ characters, with a
    terminator if there is room for one. *)
Definition holds_name (nm el : list Z) : Prop :=
  length nm = Z.to_nat DIRSIZ /\
  if DIRSIZ <=? Z.of_nat (length el) then nm = take (Z.to_nat DIRSIZ) el
  else take (S (length el)) nm = el ++ [0].

Lemma skip_slashes_app str junk : skip_slashes (str ++ 0 :: junk) = skip_slashes str ++ 0 :: junk.
Proof. induction str as [|c str IH]; [done|]. cbn [skip_slashes app]. by destruct (c =? chr "/"). Qed.

Lemma take_elem_app str junk : 0 ∉ str ->
  take_elem (str ++ 0 :: junk) = ((take_elem str).1, (take_elem str).2 ++ 0 :: junk).
Proof.
  induction str as [|c str IH]; intros Hz; [done|]. rewrite not_elem_of_cons in Hz. destruct Hz as [Hc Hz].
  cbn [take_elem app]. destruct ((c =? chr "/") || (c =? 0)); [done|]. rewrite IH by done. by destruct (take_elem str).
Qed.

Lemma elements_skip str : elements [] (skip_slashes str) = elements [] str.
Proof. induction str as [|c str IH]; [done|]. cbn [skip_slashes elements]. destruct (c =? chr "/") eqn:E; [done|]. cbn [elements]. by rewrite E. Qed.

Lemma elements_take cur str : 0 ∉ str ->
  elements cur str = flush (cur ++ (take_elem str).1) ++ elements [] (take_elem str).2.
Proof.
  revert cur. induction str as [|c str IH]; intros cur Hz; [cbn; by rewrite !app_nil_r|].
  rewrite not_elem_of_cons in Hz. destruct Hz as [Hc Hz]. cbn [elements take_elem].
  replace (c =? 0) with false by (symmetry; apply Z.eqb_neq; congruence).
  destruct (c =? chr "/") eqn:E; cbn [orb fst snd elements]; [by rewrite app_nil_r, E|].
  rewrite IH by done. destruct (take_elem str). cbn. by rewrite <- app_assoc.
Qed.

Lemma length_skip_slashes str : (length (skip_slashes str) <= length str)%nat.
Proof. induction str as [|c str IH]; cbn [skip_slashes length]; [lia|]. destruct (c =? chr "/"); cbn; lia. Qed.

Lemma length_take_elem str : (length (take_elem str).1 + length (take_elem str).2 = length str)%nat.
Proof.
  induction str as [|c str IH]; cbn [take_elem length fst snd]; [done|]. destruct ((c =? chr "/") || (c =? 0)); cbn; [done|].
  destruct (take_elem str). cbn in *. lia.
Qed.

Lemma skip_slashes_sub str : skip_slashes str ⊆ str.
Proof. induction str as [|c str IH]; cbn [skip_slashes]; [done|]. destruct (c =? chr "/"); [set_solver|done]. Qed.

Lemma take_elem_sub str : (take_elem str).2 ⊆ str.
Proof.
  induction str as [|c str IH]; cbn [take_elem length fst snd]; [done|]. destruct ((c =? chr "/") || (c =? 0)); cbn; [done|].
  destruct (take_elem str). cbn in *. set_solver.
Qed.

Lemma elements_cons_ne c cur str : elements (c :: cur) str <> [].
Proof. revert c cur. induction str as [|x str IH]; intros c cur; [done|]. cbn [elements]. destruct (x =? chr "/"); [done|]. apply IH. Qed.

Lemma skip_slashes_nil str : skip_slashes str = [] <-> elements [] str = [].
Proof.
  induction str as [|c str IH]; [done|]. cbn [skip_slashes elements]. destruct (c =? chr "/"); [done|].
  split; [done|]. intros E. by apply elements_cons_ne in E.
Qed.

(** What skipelem does with a terminated path. *)
Lemma skipelem_spec str junk name w : 0 ∉ str -> length name = Z.to_nat DIRSIZ ->
  match elements [] str with
  | [] => skipelem (str ++ 0 :: junk) name w = Ok None w
  | el :: els => exists str' name', skipelem (str ++ 0 :: junk) name w = Ok (Some (str' ++ 0 :: junk, name')) w /\
      (0 ∉ str') /\ (length str' < length str)%nat /\ elements [] str' = els /\ holds_name name' el /\ (str' = [] <-> els = [])
  end.
Proof.
  intros Hz Hn. unfold skipelem. rewrite skip_slashes_app, <- elements_skip.
  assert (0 ∉ skip_slashes str) as Hz1 by (intros Hx; by apply Hz, skip_slashes_sub).
  pose proof (length_skip_slashes str) as Hl1.
  assert (head (skip_slashes str) <> Some (chr "/")) as Hh.
  { clear. induction str as [|c str IH]; cbn [skip_slashes]; [done|]. destruct (c =? chr "/") eqn:E; [done|]. cbn.
    intros [= ->]. by rewrite Z.eqb_refl in E. }
  destruct (skip_slashes str) as [|c s1] eqn:E1; [done|].
  rewrite elements_take by done. pose proof (length_take_elem (c :: s1)) as Hl. pose proof (take_elem_sub (c :: s1)) as Hsub.
  rewrite take_elem_app by done.
  assert (exists el, (take_elem (c :: s1)).1 = c :: el) as [el Eel].
  { cbn [take_elem]. rewrite not_elem_of_cons in Hz1. replace (c =? 0) with false by (symmetry; apply Z.eqb_neq; naive_solver).
    replace (c =? chr "/") with false by (symmetry; apply Z.eqb_neq; cbn [head] in Hh; congruence). cbn [orb].
    destruct (take_elem s1). by eexists. }
  destruct (take_elem (c :: s1)) as [el' rest]. cbn [fst snd] in *. subst el'. cbn [app head flush].
  unfold the. run. replace (c =? 0) with false by (symmetry; apply Z.eqb_neq; set_solver).
  destruct (head (rest ++ 0 :: junk)) as [x|] eqn:Ex; [|by destruct rest]. run. rewrite skip_slashes_app.
  eexists _, _. split; [done|]. split; [intros Hx; by apply Hz1, Hsub, skip_slashes_sub|].
  split; [pose proof (length_skip_slashes rest); cbn in *; lia|]. split; [by rewrite elements_skip|]. split; [|apply skip_slashes_nil].
  unfold holds_name. destruct (Z.leb_spec DIRSIZ (Z.of_nat (length (c :: el)))) as [Hd|Hd].
  - assert (length (take (Z.to_nat DIRSIZ) (c :: el)) = Z.to_nat DIRSIZ) as Hlt by (rewrite length_take; lia).
    rewrite length_write_at by lia. split; [done|]. unfold write_at. rewrite Hlt, drop_ge by lia. cbn. by rewrite app_nil_r.
  - assert (length (c :: el ++ [0]) = S (length (c :: el))) as Hlt by (cbn; rewrite length_app; cbn; lia).
    rewrite length_write_at by (rewrite Hlt; lia). split; [done|]. unfold write_at. rewrite take_0, app_nil_l.
    rewrite take_app_le by lia. by rewrite <- Hlt, firstn_all.
Qed.

(** The loop of namex, without what it does with the names. *)
Fixpoint path_names (fuel : nat) (path name : list Z) : M (list (list Z)) :=
  match fuel with
  | O => fault "path names"
  | S fuel =>
    r ← skipelem path name;
    match r with
    | None => mret []
    | Some (path, name) => l ← path_names fuel path name; mret (name :: l)
    end
  end.

Lemma path_names_spec n str junk name w : 0 ∉ str -> length name = Z.to_nat DIRSIZ -> (length str < n)%nat ->
  exists names, path_names n (str ++ 0 :: junk) name w = Ok names w /\ Forall2 holds_name names (elements [] str).
Proof.
  revert str name. induction n as [|n IH]; intros str name Hz Hn Hl; [lia|]. cbn [path_names].
  pose proof (skipelem_spec str junk name w Hz Hn) as S. destruct (elements [] str) as [|el els] eqn:E.
  - rewrite (bind_Ok _ _ _ _ _ S). by exists [].
  - destruct S as (str' & name' & E1 & Hz' & Hl' & E2 & Hh & _). rewrite (bind_Ok _ _ _ _ _ E1).
    destruct (IH str' name' Hz' (proj1 Hh) ltac:(lia)) as (names & E3 & Hf). rewrite (bind_Ok _ _ _ _ _ E3).
    exists (name' :: names). split; [done|]. rewrite E2 in Hf. by constructor.
Qed.

Section namex.
Context `{!Disk}.

Lemma namex_fuel n m ip str junk np name w : 0 ∉ str -> length name = Z.to_nat DIRSIZ ->
  (length str < n)%nat -> (length str < m)%nat ->
  namex_loop n ip (str ++ 0 :: junk) np name w = namex_loop m ip (str ++ 0 :: junk) np name w.
Proof.
  revert m ip str name w. induction n as [|n IH]; intros m ip str name w Hz Hn Hln Hlm; [lia|].
  destruct m as [|m]; [lia|]. cbn [namex_loop].
  pose proof (skipelem_spec str junk name w Hz Hn) as S. destruct (elements [] str) as [|el els] eqn:E.
  - by rewrite !(bind_Ok _ _ _ _ _ S).
  - destruct S as (str' & name' & E1 & Hz' & Hl' & E2 & Hh & _). rewrite !(bind_Ok _ _ _ _ _ E1).
    apply bind_ext. intros [] w1 _. apply bind_ext. intros x w2 _. destruct (negb _); [done|].
    apply bind_ext. intros c w3 _. destruct (np && _); [done|]. apply bind_ext. intros [[next off]|] w4 _; [|done].
    apply bind_ext. intros [] w5 _. apply IH; [done|apply Hh|lia|lia].
Qed.

(** Path names are parsed to the end.  On a terminated path skipelem
    yields, in order, the parts of the path between its slashes, the empty ones
    left out and each cut to DIRSIZ characters, and then stops: the loop of
    namex takes at most one turn more than the path has characters, so that
    the bound in [namex] never ends it. *)
Theorem namex_terminates str junk name ip np w : 0 ∉ str -> length name = Z.to_nat DIRSIZ ->
  (exists names, path_names (S (length str)) (str ++ 0 :: junk) name w = Ok names w /\
    Forall2 holds_name names (elements [] str)) /\
  forall n, (length str < n)%nat ->
    namex_loop n ip (str ++ 0 :: junk) np name w = namex_loop (S (length str)) ip (str ++ 0 :: junk) np name w.
Proof.
  intros Hz Hn. split; [by apply path_names_spec; [..|lia]|]. intros n Hl. by apply namex_fuel; [..|lia].
Qed.
End namex.

(** "///a//bb", as in the comment of skipelem. *)
Lemma namex_terminates_witness :
  elements [] (bytes_of "///a//bb") = [bytes_of "a"; bytes_of "bb"] /\
  exists names, path_names 9 (bytes_of "///a//bb" ++ [0]) (replicate 14 0) (mkWorld kstate0 []) = Ok names (mkWorld kstate0 []) /\
    Forall2 holds_name names [bytes_of "a"; bytes_of "bb"].
Proof.
  split; [reflexivity|].
  destruct (namex_terminates (H := ramdisk) (bytes_of "///a//bb") [] (replicate 14 0) 0 false (mkWorld kstate0 []))
    as [Hp _]; [by apply (bool_decide_unpack _)|reflexivity|]. exact Hp.
Defined.

(** ** Inodes on disk *)

(** The values the fields of an inode can have. *)
Record dinode_typed (d : dinode) : Prop := {
  dt_type : - 32768 <= di_type d < 32768;
  dt_major : - 32768 <= di_major d < 32768;
  dt_minor : - 32768 <= di_minor d < 32768;
  dt_nlink : - 32768 <= di_nlink d < 32768;
  dt_size : 0 <= di_size d < 4294967296;
  dt_len : length (di_addrs d) = Z.to_nat (NDIRECT + 1);
  dt_addrs : Forall (fun a => 0 <= a < 4294967296) (di_addrs d)
}.

Lemma read_at_skip {A} (a l : list A) k off n : length a = k -> (k <= off)%nat -> read_at off n (a ++ l) = read_at (off - k) n l.
Proof. intros <- Hk. unfold read_at. rewrite drop_app_ge by done. done. Qed.

Lemma read_at_here {A} (a l : list A) n : length a = n -> read_at 0 n (a ++ l) = a.
Proof. intros <-. unfold read_at. rewrite drop_0. by apply take_app_length. Qed.

Lemma s16_split v : - 32768 <= v < 32768 -> s16 (le_combine (le_split 2 v)) = v.
Proof.
  intros Hv. rewrite le_combine_split. change (2 ^ (8 * Z.of_nat 2)) with (2 ^ 16). unfold wrap_s.
  change (2 ^ (16 - 1)) with 32768. rewrite Zplus_mod_idemp_l. rewrite Z.mod_small by lia. lia.
Qed.

Lemma u32_split v : 0 <= v < 4294967296 -> le_combine (le_split 4 v) = v.
Proof. apply (le_combine_split_small 4). Qed.

Lemma get_addrs (l : list Z) : Forall (fun a => 0 <= a < 4294967296) l ->
  (fun i => get_u32 (4 * i) (mjoin (le_split 4 <$> l))) <$> seq 0 (length l) = l.
Proof.
  induction 1 as [|a l Ha Hl IH]; [done|]. rewrite fmap_cons. cbn [mjoin list_join length seq fmap list_fmap].
  f_equal.
  - unfold get_u32. rewrite read_at_here by apply length_le_split. by apply u32_split.
  - rewrite <- IH at 2. rewrite <- fmap_S_seq, <- list_fmap_compose. apply list_fmap_ext. intros i x _. cbn [compose].
    unfold get_u32. rewrite (read_at_skip _ _ 4) by (apply length_le_split || lia). do 2 f_equal. lia.
Qed.

Lemma dinode_roundtrip d : dinode_typed d -> dinode_of (dinode_bytes d) = d.
Proof.
  intros [D1 D2 D3 D4 D5 D6 D7]. unfold dinode_of, dinode_bytes, get_s16. destruct d as [t mj mn nl sz ad].
  cbn [di_type di_major di_minor di_nlink di_size di_addrs] in *. f_equal.
  - rewrite read_at_here by apply length_le_split. by apply s16_split.
  - rewrite (read_at_skip _ _ 2), read_at_here by (apply length_le_split || lia). by apply s16_split.
  - rewrite !(read_at_skip _ _ 2), read_at_here by (apply length_le_split || lia). by apply s16_split.
  - rewrite !(read_at_skip _ _ 2), read_at_here by (apply length_le_split || lia). by apply s16_split.
  - unfold get_u32. rewrite !(read_at_skip _ _ 2), read_at_here by (apply length_le_split || lia). by apply u32_split.
  - rewrite <- D6. etrans; [|by apply get_addrs]. apply list_fmap_ext. intros i x _. unfold get_u32.
    rewrite !(read_at_skip _ _ 2) by (apply length_le_split || lia).
    rewrite (read_at_skip _ _ 4) by (apply length_le_split || lia). do 2 f_equal. lia.
Qed.

Lemma length_dinode_bytes d : dinode_typed d -> length (dinode_bytes d) = sizeof_dinode.
Proof.
  intros D. unfold dinode_bytes. rewrite !length_app, !length_le_split.
  assert (forall l, length (mjoin (le_split 4 <$> l)) = (4 * length l)%nat) as ->.
  { intros l. induction l as [|x l IH]; [done|]. rewrite fmap_cons.
    change (mjoin (le_split 4 x :: (le_split 4 <$> l))) with (le_split 4 x ++ mjoin (le_split 4 <$> l)).
    rewrite length_app, IH, length_le_split. cbn. lia. }
  rewrite (dt_len d D). reflexivity.
Qed.

Lemma dinode_off_le inum : (dinode_off inum + sizeof_dinode <= Z.to_nat BSIZE)%nat.
Proof.
  unfold dinode_off, sizeof_dinode. assert (0 <= inum `mod` IPB < IPB) as H by (apply Z.mod_pos_bound; done).
  change IPB with 16 in *. change (Z.to_nat BSIZE) with 1024%nat. lia.
Qed.

(** An inode put in its block is found there, and the others are as before. *)
Lemma put_dinode_spec inum d data : dinode_typed d -> block_bytes data ->
  block_bytes (put_dinode inum d data) /\ dinode_at (put_dinode inum d data) inum = d /\
  forall i, i `mod` IPB <> inum `mod` IPB -> dinode_at (put_dinode inum d data) i = dinode_at data i.
Proof.
  intros D B. pose proof (length_dinode_bytes d D) as Hl. pose proof (dinode_off_le inum) as Ho. unfold block_bytes in B.
  unfold put_dinode, dinode_at. split; [|split].
  - unfold block_bytes. by rewrite length_write_at by lia.
  - rewrite <- Hl at 1. rewrite read_write_same by lia. by apply dinode_roundtrip.
  - intros i Hi. f_equal. apply read_write_other; [lia|rewrite B; apply dinode_off_le|].
    unfold dinode_off, sizeof_dinode in *. rewrite Hl.
    assert (0 <= inum `mod` IPB) by (apply Z.mod_pos_bound; done). assert (0 <= i `mod` IPB) by (apply Z.mod_pos_bound; done).
    unfold sizeof_dinode. lia.
Qed.

Section inodes.
Context {Wk : Worker} {K : Disk} {DS : DiskSpec}.
Implicit Types (C P : gmap Z (list Z)) (Pn bl : list Z).

Lemma getd_sb s C Pn H P W L e : fsst s C Pn H P W L -> getd sb (mkWorld s e) = Ok w_sb (mkWorld s e).
Proof. intros F. unfold getd. run. by rewrite (proj2 (fs_frame _ _ _ _ _ _ _ F)). Qed.

Lemma get_inode_fs s C Pn H P W L ip x e : fsst s C Pn H P W L -> w_inodes !! ip = Some x ->
  get_inode ip (mkWorld s e) = Ok x (mkWorld s e).
Proof. intros F Hx. apply get_inode_ok. by rewrite (proj1 (fs_frame _ _ _ _ _ _ _ F)). Qed.

Lemma upd_data_spec s C Pn H P W L b n c f e :
  fsst s C Pn H P W L -> (b, n) ∈ H -> C !! n = Some c ->
  exists s', upd_data b f (mkWorld s e) = Ok tt (mkWorld s' e) /\ fsst s' (<[n := f c]> C) Pn H P W L.
Proof. intros F Hin Hc. unfold upd_data. eapply upd_held; [done..|]. by intros bp ->. Qed.

Lemma get_data_spec s C Pn H P W L b n c e :
  fsst s C Pn H P W L -> (b, n) ∈ H -> C !! n = Some c -> get_data b (mkWorld s e) = Ok c (mkWorld s e).
Proof.
  intros F Hin Hc. unfold get_data. destruct (get_held s C Pn H P W L b n e F Hin) as (bp & E & Hbp & _).
  rewrite (bind_Ok _ _ _ _ _ E). rewrite Hbp in Hc. by injection Hc as ->.
Qed.

Lemma iupdate_spec s C Pn P W L bl ip x data e :
  fsst s C Pn [] P W L -> w_inodes !! ip = Some x -> i_dev x = w_dev ->
  C !! IBLOCK (i_inum x) w_sb = Some data -> log_open L bl (IBLOCK (i_inum x) w_sb) -> Pn ≡ₚ bl ->
  exists s' Pn' L', iupdate ip (mkWorld s e) = Ok tt (mkWorld s' e) /\
    fsst s' (<[IBLOCK (i_inum x) w_sb := put_dinode (i_inum x) (to_dinode x) data]> C) Pn' [] P W L' /\
    log_ok L' (add_block bl (IBLOCK (i_inum x) w_sb)) /\ Pn' ≡ₚ add_block bl (IBLOCK (i_inum x) w_sb).
Proof using DS.
  intros F Hx Hd Hc Op Ep. set (n := IBLOCK _ _) in *. unfold iupdate.
  rewrite (bind_Ok _ _ _ _ _ (getd_sb _ _ _ _ _ _ _ e F)), (bind_Ok _ _ _ _ _ (get_inode_fs _ _ _ _ _ _ _ ip x e F Hx)).
  rewrite Hd. fold n.
  destruct (bread_spec s C Pn [] P W L n data e F Hc) as (b & s1 & E1 & F1); [apply not_elem_of_nil| |].
  { right. rewrite Ep. pose proof (lo_size _ _ _ Op). pose proof (lo_max _ _ _ Op).
    unfold LOGSIZE, MAXOPBLOCKS, NBUF in *. cbn. lia. }
  rewrite (bind_Ok _ _ _ _ _ E1), (bind_Ok _ _ _ _ _ (get_inode_fs _ _ _ _ _ _ _ ip x e F1 Hx)).
  destruct (upd_data_spec s1 _ _ _ _ _ _ b n data (put_dinode (i_inum x) (to_dinode x)) e F1) as (s2 & E2 & F2);
    [by left|done|]. rewrite (bind_Ok _ _ _ _ _ E2).
  destruct (log_write_spec s2 _ _ _ _ _ _ bl b n e F2) as (s3 & E3 & F3); [by left|done|by rewrite Ep|].
  rewrite (bind_Ok _ _ _ _ _ E3).
  destruct (brelse_spec s3 _ _ _ [] _ _ _ b n e F3) as (s4 & E4 & F4); [done| |].
  { right. destruct (decide (n ∈ bl)); [by rewrite Ep|by left]. }
  do 3 eexists. split; [exact E4|]. split; [exact F4|]. split; [by apply record_block_ok|].
  unfold add_block. destruct (decide (n ∈ bl)); [done|]. rewrite Ep. solve_Permutation.
Qed.
End inodes.

(** The same process with another table of inodes. *)
Definition with_inodes (it : list inode) (Wk : Worker) : Worker :=
  {| w_proc := w_proc; w_pid := w_pid; w_dev := w_dev; w_inodes := it; w_sb := w_sb |}.

Lemma all_locks_inode i : (i < NINODE)%nat -> LInode i ∈ all_locks.
Proof.
  intros H. unfold all_locks. rewrite !elem_of_app. right; right; left. apply list_elem_of_fmap.
  exists i. split; [done|]. apply elem_of_seq. lia.
Qed.

Section ilock.
Context {Wk : Worker} {K : Disk} {DS : DiskSpec}.
Implicit Types (C P : gmap Z (list Z)) (Pn bl : list Z).

Lemma fsst_inode s C Pn H P W L j f : fsst s C Pn H P W L ->
  fsst (Wk := with_inodes (alter f j w_inodes) Wk) (mapd (at_inode j f) s) C Pn H P W L.
Proof.
  intros [Fc Fk Fa FP FW FL FR FD]. split; [by apply calm_mapd|exact Fk| |exact FP|exact FW|exact FL| |exact FD].
  - destruct Fa as [A1 A2 A3 A4 A5 A6 A7 A8]. split; [exact A1|..|exact A8]; try done.
    intros b bp Hb Hl. destruct (A2 b bp Hb Hl) as [B1 B2 B3 B4]. by split.
  - cbn. destruct FR as [-> ->]. done.
Qed.

(** What ilock leaves in the table for an inode it reads. *)
Definition loaded (pid : Z) (data : list Z) (y : inode) : inode :=
  set_i_valid 1 (from_dinode (dinode_at data (i_inum y)) (set_i_lock (sl_take pid (i_lock y)) y)).
End ilock.

Lemma ilock_spec {Wk : Worker} {K : Disk} {DS : DiskSpec} s C Pn P W L j y data e :
  fsst s C Pn [] P W L -> w_inodes !! j = Some y -> (j < NINODE)%nat -> 1 <= i_ref y -> sl_locked (i_lock y) = 0 ->
  i_valid y = 0 -> i_dev y = w_dev -> C !! IBLOCK (i_inum y) w_sb = Some data ->
  di_type (dinode_at data (i_inum y)) <> 0 -> (length Pn < NBUF)%nat ->
  exists s', ilock (Some j) (mkWorld s e) = Ok tt (mkWorld s' e) /\
    fsst (Wk := with_inodes (<[j := loaded w_pid data y]> w_inodes) Wk) s' C Pn [] P W L.
Proof.
  intros F Hy Hj Hr Hl Hv Hd Hc Ht Hlen. unfold ilock.
  rewrite (bind_Ok _ _ _ _ _ (get_inode_fs _ _ _ _ _ _ _ j y e F Hy)).
  destruct (Z.ltb_spec (i_ref y) 1) as [?|_]; [lia|].
  assert (sl_of (kd s) (SInode j) = Some (i_lock y)) as Hsl.
  { cbn. rewrite (proj1 (fs_frame _ _ _ _ _ _ _ F)), Hy. done. }
  rewrite (bind_Ok _ _ _ _ _ (acquiresleep_ok w_proc w_pid (SInode j) (i_lock y) s e
    (fs_calm _ _ _ _ _ _ _ F) (all_locks_inode j Hj) Hsl (fs_known _ _ _ _ _ _ _ F) Hl)).
  pose proof (fsst_inode s C Pn [] P W L j (fun x => set_i_lock (sl_take w_pid (i_lock x)) x) F) as F1.
  change (mapd (at_sl (SInode j) (sl_take w_pid)) s) with
    (mapd (at_inode j (fun x => set_i_lock (sl_take w_pid (i_lock x)) x)) s).
  set (Wk1 := with_inodes _ Wk) in F1. set (s1 := mapd _ s) in *. set (y1 := set_i_lock (sl_take w_pid (i_lock y)) y).
  assert (w_inodes (Worker := Wk1) !! j = Some y1) as Hy1 by (cbn; rewrite list_lookup_alter_eq, Hy; done).
  rewrite (bind_Ok _ _ _ _ _ (get_inode_fs (Wk := Wk1) _ _ _ _ _ _ _ j y1 e F1 Hy1)).
  change (i_valid y1) with (i_valid y). rewrite Hv. cbn [Z.eqb when].
  rewrite (bind_Ok _ _ _ _ _ (getd_sb (Wk := Wk1) _ _ _ _ _ _ _ e F1)).
  change (i_dev y1) with (i_dev y). change (i_inum y1) with (i_inum y). rewrite Hd.
  change w_dev with (w_dev (Worker := Wk1)). set (n := IBLOCK _ _).
  destruct (bread_spec (Wk := Wk1) s1 C Pn [] P W L n data e F1 Hc) as (b & s2 & E2 & F2);
    [apply not_elem_of_nil|right; cbn; lia|].
  rewrite (bind_Ok _ _ _ _ _ E2), (bind_Ok _ _ _ _ _ (get_inode_fs (Wk := Wk1) _ _ _ _ _ _ _ j y1 e F2 Hy1)).
  rewrite (bind_Ok _ _ _ _ _ (get_data_spec (Wk := Wk1) _ _ _ _ _ _ _ b n data e F2 ltac:(by left) Hc)).
  assert (itable (kd s2) !! j = Some y1) as Hi2 by (by rewrite (proj1 (fs_frame (Wk := Wk1) _ _ _ _ _ _ _ F2))).
  set (f := from_dinode (dinode_at data (i_inum y1))).
  rewrite (bind_Ok _ _ _ _ _ (upd_inode_ok j f y1 s2 e Hi2)).
  pose proof (fsst_inode (Wk := Wk1) s2 C Pn _ P W L j f F2) as F3. set (Wk2 := with_inodes _ Wk1) in F3.
  set (s3 := mapd _ s2) in *.
  destruct (brelse_spec (Wk := Wk2) s3 _ _ _ [] _ _ _ b n e F3) as (s4 & E4 & F4); [done| |].
  { destruct (decide (n ∈ Pn)) as [|Hn]; [by right|left]. rewrite <- (fs_platter _ _ _ _ _ _ _ F).
    apply (ca_disk _ _ _ _ (fs_cache _ _ _ _ _ _ _ F)); [done|apply not_elem_of_nil]. }
  rewrite (bind_Ok _ _ _ _ _ E4).
  assert (w_inodes (Worker := Wk2) !! j = Some (f y1)) as Hy2 by (cbn; rewrite list_lookup_alter_eq; cbn in Hy1; rewrite Hy1; done).
  assert (itable (kd s4) !! j = Some (f y1)) as Hi4 by (by rewrite (proj1 (fs_frame (Wk := Wk2) _ _ _ _ _ _ _ F4))).
  rewrite (bind_Ok _ _ _ _ _ (upd_inode_ok j (set_i_valid 1) (f y1) s4 e Hi4)).
  pose proof (fsst_inode (Wk := Wk2) s4 C Pn _ P W L j (set_i_valid 1) F4) as F5. set (s5 := mapd _ s4) in *.
  rewrite (bind_Ok _ _ _ (loaded w_pid data y) (mkWorld s5 e)).
  2: { apply get_inode_ok. change (itable (kd s5)) with (alter (set_i_valid 1) j (itable (kd s4))).
       rewrite list_lookup_alter_eq, Hi4. reflexivity. }
  change (i_type (loaded w_pid data y)) with (di_type (dinode_at data (i_inum y))).
  apply Z.eqb_neq in Ht as ->. exists s5. split; [done|].
  replace (<[j := loaded w_pid data y]> w_inodes) with (alter (set_i_valid 1) j (w_inodes (Worker := Wk2))); [exact F5|].
  change (w_inodes (Worker := Wk2)) with (alter f j (alter (fun x => set_i_lock (sl_take w_pid (i_lock x)) x) j
    (w_inodes (Worker := Wk)))).
  rewrite !list_alter_alter. apply list_eq. intros i. destruct (decide (i = j)) as [->|Hne].
  - rewrite list_lookup_alter_eq, Hy, list_lookup_insert_eq by (by eapply lookup_lt_Some). reflexivity.
  - by rewrite list_lookup_alter_ne, list_lookup_insert_ne.
Qed.

(** C22: an inode is read back as it was written.  iupdate, called inside a
    transaction on an inode whose fields are in range, returns and changes on
    the disk the entry of this inode alone; and an ilock of this inode that has
    to read it from the disk, by any process and in any later state in which
    the block has not been written again, returns with the lock held and the
    same type, device numbers, links, size and block addresses. *)
Theorem inode_roundtrip {Wk : Worker} {K : Disk} {DS : DiskSpec} s C Pn P W L bl ip x data e :
  fsst s C Pn [] P W L -> w_inodes !! ip = Some x -> i_dev x = w_dev -> dinode_typed (to_dinode x) -> i_type x <> 0 ->
  C !! IBLOCK (i_inum x) w_sb = Some data -> block_bytes data ->
  log_open L bl (IBLOCK (i_inum x) w_sb) -> Pn ≡ₚ bl ->
  exists s1 C1 data1 Pn1 L1, iupdate ip (mkWorld s e) = Ok tt (mkWorld s1 e) /\ fsst s1 C1 Pn1 [] P W L1 /\
    (length Pn1 < NBUF)%nat /\ C1 = <[IBLOCK (i_inum x) w_sb := data1]> C /\
    (forall i, i `mod` IPB <> i_inum x `mod` IPB -> dinode_at data1 i = dinode_at data i) /\
    forall (Wk2 : Worker) s2 C2 Pn2 P2 W2 L2 j y e2,
      fsst (Wk := Wk2) s2 C2 Pn2 [] P2 W2 L2 -> (length Pn2 < NBUF)%nat ->
      w_sb (Worker := Wk2) = w_sb (Worker := Wk) -> C2 !! IBLOCK (i_inum x) (w_sb (Worker := Wk)) = Some data1 ->
      w_inodes (Worker := Wk2) !! j = Some y -> (j < NINODE)%nat -> i_dev y = w_dev (Worker := Wk2) -> i_inum y = i_inum x ->
      1 <= i_ref y -> sl_locked (i_lock y) = 0 -> i_valid y = 0 ->
      exists s3 y', ilock (Some j) (mkWorld s2 e2) = Ok tt (mkWorld s3 e2) /\ itable (kd s3) !! j = Some y' /\
        to_dinode y' = to_dinode x /\ i_valid y' = 1 /\ sl_locked (i_lock y') = 1.
Proof.
  intros F Hx Hd Ht Hty Hc B Op Ep.
  destruct (iupdate_spec s C Pn P W L bl ip x data e F Hx Hd Hc Op Ep) as (s1 & Pn1 & L1 & E1 & F1 & O1 & Ep1).
  destruct (put_dinode_spec (i_inum x) (to_dinode x) data Ht B) as (_ & R & Ro).
  do 5 eexists. split; [exact E1|]. split; [exact F1|].
  split; [pose proof (lg_room _ _ O1); rewrite Ep1; unfold LOGSIZE, MAXOPBLOCKS, NBUF in *; lia|].
  split; [reflexivity|]. split; [exact Ro|].
  intros Wk2 s2 C2 Pn2 P2 W2 L2 j y e2 F2 Hl Es Hc2 Hy Hj Hdy Hin Hr Hlk Hv.
  rewrite <- Es, <- Hin in Hc2. rewrite <- Hin in R.
  destruct (ilock_spec s2 C2 Pn2 P2 W2 L2 j y _ e2 F2 Hy Hj Hr Hlk Hv Hdy Hc2) as (s3 & E3 & F3);
    [rewrite R; exact Hty|exact Hl|].
  exists s3. eexists. split; [exact E3|]. rewrite (proj1 (fs_frame (Wk := with_inodes _ _) _ _ _ _ _ _ _ F3)).
  split; [apply list_lookup_insert_eq; by eapply lookup_lt_Some|].
  split; [|split; reflexivity]. etrans; [|exact R]. unfold loaded. rewrite R. reflexivity.
Qed.

(** ** An example: a file in the tables of two processes *)

Definition inode_example : inode :=
  {| i_dev := 1; i_inum := 5; i_ref := 1; i_lock := sl_take 0 fresh_lock; i_valid := 1; i_type := T_FILE; i_major := 0;
     i_minor := 0; i_nlink := 1; i_size := 700; i_addrs := 60 :: replicate 12 0 |}.
Definition itable_example : list inode :=
  <[0%nat := inode_example]> (<[1%nat := set_i_valid 0 (set_i_lock fresh_lock inode_example)]> (itable kdata0)).
Definition sb_example : superblock := set_sb_inodestart 32 superblock0.

Lemma inode_roundtrip_witness : exists s s1 s3 y',
  iupdate (H := ramdisk) 0 (mkWorld s []) = Ok tt (mkWorld s1 []) /\
  ilock (H := ramdisk) (Some 1%nat) (mkWorld s1 []) = Ok tt (mkWorld s3 []) /\
  itable (kd s3) !! 1%nat = Some y' /\ to_dinode y' = to_dinode inode_example /\ i_valid y' = 1.
Proof.
  destruct (booted_example itable_example sb_example platter0 log_example) as [s F].
  destruct (inode_roundtrip (Wk := worker_with itable_example sb_example) (K := ramdisk) (DS := ramdisk_spec)
    s platter0 [] platter0 [] log_example [] 0 inode_example zeros [])
    as (s1 & C1 & data1 & Pn1 & L1 & E1 & F1 & Hl & EC & _ & R).
  - exact F.
  - reflexivity.
  - reflexivity.
  - split; cbn; [unfold T_FILE; lia|lia..|reflexivity|]. repeat (constructor; [lia|]). constructor.
  - discriminate.
  - apply platter0_lookup. split; [discriminate|reflexivity].
  - reflexivity.
  - apply log_example_open; [apply log_example_ok|cbn; lia|]. split; [discriminate|reflexivity].
  - reflexivity.
  - exists s, s1.
    destruct (R _ s1 C1 Pn1 platter0 [] L1 1%nat (set_i_valid 0 (set_i_lock fresh_lock inode_example)) [] F1)
      as (s3 & y' & E3 & Hy & Hd & Hv & _).
    + exact Hl.
    + reflexivity.
    + rewrite EC. apply lookup_insert_eq.
    + reflexivity.
    + unfold NINODE. lia.
    + reflexivity.
    + reflexivity.
    + cbn. lia.
    + reflexivity.
    + reflexivity.
    + exists s3, y'. split; [exact E1|]. split; [exact E3|]. split; [exact Hy|]. split; [exact Hd|exact Hv].
Defined.
