(* ===== verification/FileData.v ===== *)
(** * Blocks and the contents of files

    The block allocator, bmap, readi and writei of [Fs], specified with the
    logic of [Cache] and [LogSpec] on the logical contents of the blocks.  The
    theorems: balloc hands out a free block, marked and zeroed; what writei
    writes to a file readi reads back. *)

From S2P Require Import Prelude Prog State Spinlock Printf Switch CStr Kalloc Vm Proc Sleeplock Bio Cache Log LogSpec Fs FsSpec.

(** ** Bits of a bitmap block *)

Definition bit (data : list Z) (bi : Z) : bool := Z.testbit (default 0 (data !! Z.to_nat (bi / 8))) (bi `mod` 8).

Lemma land_bit x k : 0 <= k -> (Z.land x (Z.shiftl 1 k) =? 0) = negb (Z.testbit x k).
Proof.
  intros Hk. rewrite Z.shiftl_1_l. destruct (Z.testbit x k) eqn:E; cbn [negb].
  - apply Z.eqb_neq. intros H. assert (Z.testbit (Z.land x (2 ^ k)) k = true) as T.
    { rewrite Z.land_spec, E, Z.pow2_bits_true by done. done. }
    by rewrite H, Z.bits_0 in T.
  - apply Z.eqb_eq. apply Z.bits_inj'. intros m Hm. rewrite Z.land_spec, Z.bits_0.
    destruct (decide (m = k)) as [->|Hne]; [by rewrite E|]. rewrite Z.pow2_bits_false by done. apply andb_false_r.
Qed.

Lemma bit_index bi : 0 <= bi < BPB -> 0 <= bi / 8 < BSIZE /\ 0 <= bi `mod` 8 < 8.
Proof.
  intros Hb. change BPB with (8 * BSIZE) in Hb. split; [|apply Z.mod_pos_bound; done].
  split; [apply Z.div_pos; lia|apply Z.div_lt_upper_bound; lia].
Qed.

Lemma bit_lookup data bi : block_bytes data -> 0 <= bi < BPB -> exists byte,
  zlookup data (bi / 8) = Some byte /\ data !! Z.to_nat (bi / 8) = Some byte.
Proof.
  intros B Hb. destruct (bit_index bi Hb) as [[H0 H1] _].
  destruct (lookup_lt_is_Some_2 data (Z.to_nat (bi / 8))) as [byte Hbyte].
  { rewrite B. apply Z2Nat.inj_lt; [done|done|done]. }
  exists byte. split; [|done]. rewrite <- (Z2Nat.id (bi / 8)) by done. by rewrite zlookup_of_nat.
Qed.

Lemma bit_clear_ok data bi w : block_bytes data -> 0 <= bi < BPB -> bit_clear data bi w = Ok (negb (bit data bi)) w.
Proof.
  intros B Hb. destruct (bit_lookup data bi B Hb) as (byte & Hz & Hl). unfold bit_clear, bit, bit_mask.
  rewrite Hz, Hl. unfold the. run. rewrite land_bit by apply (bit_index bi Hb). done.
Qed.

Lemma set_bit_spec data bi : block_bytes data -> 0 <= bi < BPB ->
  block_bytes (set_bit bi data) /\ bit (set_bit bi data) bi = true /\
  forall j, 0 <= j < BPB -> j <> bi -> bit (set_bit bi data) j = bit data j.
Proof.
  intros B Hb. destruct (bit_lookup data bi B Hb) as (byte & _ & Hl). destruct (bit_index bi Hb) as [Hq Hr].
  unfold set_bit, bit, bit_mask. split; [unfold block_bytes; by rewrite length_alter|]. split.
  - rewrite list_lookup_alter_eq, Hl. cbn. rewrite Z.lor_spec, Z.shiftl_1_l, Z.pow2_bits_true by lia. apply orb_true_r.
  - intros j Hj Hne. destruct (bit_index j Hj) as [Hq' Hr']. destruct (decide (j / 8 = bi / 8)) as [E|E].
    + rewrite E, list_lookup_alter_eq, Hl. cbn. rewrite Z.lor_spec, Z.shiftl_1_l, Z.pow2_bits_false; [apply orb_false_r|].
      intros E'. apply Hne. rewrite (Z.div_mod j 8), (Z.div_mod bi 8) by lia. lia.
    + rewrite list_lookup_alter_ne; [done|]. intros E'. apply E. apply Z2Nat.inj in E'; [done|lia|lia].
Qed.

(** The first free bit. *)
Lemma find_clear_ok data b size w : block_bytes data ->
  exists r, find_clear data b size w = Ok r w /\
    match r with
    | Some bi => 0 <= bi < Z.min BPB (size - b) /\ bit data bi = false
    | None => forall bi, 0 <= bi < Z.min BPB (size - b) -> bit data bi = true
    end.
Proof.
  intros B. unfold find_clear. assert (Forall (fun bi => 0 <= bi < Z.min BPB (size - b)) (seqZ 0 (Z.min BPB (size - b)))) as Hf.
  { apply Forall_seqZ. intros; lia. }
  assert (forall bi, 0 <= bi < Z.min BPB (size - b) -> bi ∈ seqZ 0 (Z.min BPB (size - b))) as Hin.
  { intros bi Hbi. apply elem_of_seqZ. lia. }
  enough (exists r, for_find (seqZ 0 (Z.min BPB (size - b))) (fun bi => c ← bit_clear data bi;
      mret (if (c : bool) then Some bi else None)) w = Ok r w /\
    match r with
    | Some bi => 0 <= bi < Z.min BPB (size - b) /\ bit data bi = false
    | None => forall bi, bi ∈ seqZ 0 (Z.min BPB (size - b)) -> bit data bi = true
    end) as ([bi|] & E & H); [exists (Some bi)|exists None|]; [done|split; [done|naive_solver]|].
  clear Hin. induction Hf as [|bi l Hbi Hf IH]; cbn [for_find].
  { exists None. split; [done|]. intros bi Hbi. by apply elem_of_nil in Hbi. }
  rewrite bind_assoc, (bind_Ok _ _ _ _ _ (bit_clear_ok data bi w B ltac:(lia))). run.
  destruct (bit data bi) eqn:E; cbn [negb].
  - destruct IH as ([bi'|] & E' & H); rewrite E'; [by exists (Some bi')|exists None]. split; [done|].
    intros j Hj. apply elem_of_cons in Hj as [->|Hj]; [done|by apply H].
  - exists (Some bi). done.
Qed.

(** ** Changes of blocks inside a transaction *)

(** Inside a transaction, with room in the log for [k] more blocks. *)
Record log_room {Wk : Worker} (L : logstate) (bl : list Z) (k : nat) : Prop := {
  lr_ok : log_ok L bl;
  lr_size : Z.of_nat (length bl) + Z.of_nat k <= log_size L - 1;
  lr_max : log_size L <= LOGSIZE;
  lr_trans : 1 <= log_outstanding L
}.

(** A block outside the log. *)
Definition at_home (L : logstate) (n : Z) : Prop := 0 <= n < 2147483648 /\ outside (log_start L) n.

(** What holds between the operations of a transaction: the blocks of the log
    are those pinned, and there is room for [k] more. *)
Definition trans {Wk : Worker} {K : Disk} {DS : DiskSpec} (s : kstate) (C : gmap Z (list Z)) (Pn : list Z) (H : list (nat * Z))
    (P : gmap Z (list Z)) (W : list (Z * list Z)) (st : Z) (k : nat) : Prop :=
  exists L bl, fsst s C Pn H P W L /\ log_room L bl k /\ Pn ≡ₚ bl /\ log_start L = st.

(** A block whose buffer may be given back. *)
Definition clean (C P : gmap Z (list Z)) (Pn : list Z) (n : Z) : Prop := P !! n = C !! n \/ n ∈ Pn.

Section trans.
Context {Wk : Worker} {K : Disk} {DS : DiskSpec}.
Implicit Types (C P : gmap Z (list Z)) (Pn : list Z) (H : list (nat * Z)).

Lemma trans_weaken s C Pn H P W st k k' : trans s C Pn H P W st k -> (k' <= k)%nat -> trans s C Pn H P W st k'.
Proof. intros (L & bl & F & [A1 A2 A3 A4] & E) Hk. exists L, bl. split; [done|]. split; [split; [done|lia|done|done]|done]. Qed.

Lemma trans_clean s C Pn H P W st k n : trans s C Pn H P W st k -> n ∉ H.*2 -> clean C P Pn n.
Proof.
  intros (L & bl & F & _) Hn. destruct (decide (n ∈ Pn)) as [|Hp]; [by right|left].
  rewrite <- (fs_platter _ _ _ _ _ _ _ F). by apply (ca_disk _ _ _ _ (fs_cache _ _ _ _ _ _ _ F)).
Qed.

Lemma trans_bread s C Pn H P W st k n data e :
  trans s C Pn H P W st k -> C !! n = Some data -> n ∉ H.*2 -> (length H <= k)%nat ->
  exists b s', bread w_dev n (mkWorld s e) = Ok b (mkWorld s' e) /\ trans s' C Pn ((b, n) :: H) P W st k.
Proof using DS.
  intros (L & bl & F & R & E & Es) Hc Hn Hk. destruct R as [R1 R2 R3 R4].
  destruct (bread_spec s C Pn H P W L n data e F Hc Hn) as (b & s' & E1 & F1).
  { right. rewrite E. unfold LOGSIZE, MAXOPBLOCKS, NBUF in *. lia. }
  exists b, s'. split; [done|]. exists L, bl. done.
Qed.

Lemma trans_get_data s C Pn H P W st k b n data e :
  trans s C Pn H P W st k -> (b, n) ∈ H -> C !! n = Some data -> get_data b (mkWorld s e) = Ok data (mkWorld s e).
Proof. intros (L & bl & F & _) Hin Hc. exact (get_data_spec s C Pn H P W L b n data e F Hin Hc). Qed.

Lemma trans_upd s C Pn H P W st k b n data f e :
  trans s C Pn H P W st k -> (b, n) ∈ H -> C !! n = Some data ->
  exists s', upd_data b f (mkWorld s e) = Ok tt (mkWorld s' e) /\ trans s' (<[n := f data]> C) Pn H P W st k.
Proof.
  intros (L & bl & F & R) Hin Hc. destruct (upd_data_spec s C Pn H P W L b n data f e F Hin Hc) as (s1 & E1 & F1).
  exists s1. split; [done|]. by exists L, bl.
Qed.

Lemma trans_brelse s C Pn H P W st k b n e : trans s C Pn ((b, n) :: H) P W st k -> clean C P Pn n ->
  exists s', brelse b (mkWorld s e) = Ok tt (mkWorld s' e) /\ trans s' C Pn H P W st k.
Proof.
  intros (L & bl & F & R) Hcl. destruct (brelse_spec s C Pn _ H P W L b n e F) as (s' & E & F'); [done|done|].
  exists s'. split; [done|]. by exists L, bl.
Qed.

(** The pinned blocks once [n] is logged, and the room in the log this takes. *)
Definition pin Pn (n : Z) : list Z := if decide (n ∈ Pn) then Pn else n :: Pn.
Definition spent Pn (n : Z) : nat := if decide (n ∈ Pn) then 0 else 1.

Lemma elem_of_pin Pn n m : m ∈ pin Pn n <-> m = n \/ m ∈ Pn.
Proof. unfold pin. destruct (decide (n ∈ Pn)); [naive_solver|]. by rewrite elem_of_cons. Qed.

Lemma spent_pin Pn n m : m = n \/ m ∈ Pn -> spent (pin Pn n) m = 0%nat.
Proof. intros Hm. unfold spent. by rewrite decide_True by (by apply elem_of_pin). Qed.

Lemma spent_le Pn Pn' n : Pn ⊆ Pn' -> (spent Pn' n <= spent Pn n <= 1)%nat.
Proof. intros Hs. unfold spent. destruct (decide (n ∈ Pn)), (decide (n ∈ Pn')); [lia|naive_solver|lia|lia]. Qed.

Lemma pin_sub Pn n : Pn ⊆ pin Pn n.
Proof. intros m Hm. apply elem_of_pin. by right. Qed.

Lemma trans_log s C Pn H P W st k b n e :
  trans s C Pn H P W st k -> (1 <= k)%nat -> (b, n) ∈ H -> 0 <= n < 2147483648 -> outside st n ->
  exists s', log_write b (mkWorld s e) = Ok tt (mkWorld s' e) /\ trans s' C (pin Pn n) H P W st (k - spent Pn n).
Proof.
  intros (L & bl & F & R & E & Es) Hk Hin Hn Ho. pose proof R as [R1 R2 R3 R4].
  assert (log_open L bl n) as Op by (split; [done|lia|done|done|by rewrite Es]).
  destruct (log_write_spec s _ _ _ _ _ _ bl b n e F Hin Op) as (s2 & E2 & F2); [by rewrite E|].
  assert ((if decide (n ∈ bl) then Pn else n :: Pn) = pin Pn n) as Ep.
  { unfold pin. destruct (decide (n ∈ bl)) as [Hb|Hb]; destruct (decide (n ∈ Pn)) as [Hp|Hp]; try done; by rewrite E in Hp. }
  rewrite Ep in F2. exists s2. split; [done|]. pose proof (record_block_ok L bl n Op) as O'.
  exists (record_block bl n L), (add_block bl n). split; [done|]. split; [|split].
  - assert (length (add_block bl n) = spent Pn n + length bl)%nat as Hl.
    { unfold add_block, spent. destruct (decide (n ∈ bl)) as [Hb|Hb]; destruct (decide (n ∈ Pn)) as [Hp|Hp]; try (by rewrite E in Hp).
      rewrite length_app. cbn. lia. }
    pose proof (spent_le Pn Pn n ltac:(done)) as Hsp.
    assert (log_size (record_block bl n L) = log_size L /\ log_outstanding (record_block bl n L) = log_outstanding L) as [S1 S2].
    { unfold record_block. by destruct (decide (n ∈ bl)). }
    split; [done|rewrite S1; lia|by rewrite S1|by rewrite S2].
  - rewrite <- Ep. unfold add_block. destruct (decide (n ∈ bl)); [done|]. rewrite E. solve_Permutation.
  - unfold record_block. by destruct (decide (n ∈ bl)).
Qed.

Lemma trans_bzero s C Pn H P W st k n data e :
  trans s C Pn H P W st k -> (1 <= k)%nat -> C !! n = Some data -> n ∉ H.*2 -> 0 <= n < 2147483648 -> outside st n ->
  (length H <= k)%nat -> u32 w_dev = w_dev ->
  exists s', bzero w_dev n (mkWorld s e) = Ok tt (mkWorld s' e) /\
    trans s' (<[n := memset 0 (Z.to_nat BSIZE) data]> C) (pin Pn n) H P W st (k - spent Pn n).
Proof using DS.
  intros T H1 Hc Hn Hr Ho Hk Hd. unfold bzero. rewrite Hd, u32_small by lia.
  destruct (trans_bread s C Pn H P W st k n data e T Hc Hn Hk) as (b & s1 & E1 & T1). rewrite (bind_Ok _ _ _ _ _ E1).
  destruct (trans_upd s1 _ _ _ _ _ _ _ b n data (memset 0 (Z.to_nat BSIZE)) e T1) as (s2 & E2 & T2); [by left|done|].
  rewrite (bind_Ok _ _ _ _ _ E2).
  destruct (trans_log s2 _ _ _ _ _ _ _ b n e T2) as (s3 & E3 & T3); [done|by left|done|done|].
  rewrite (bind_Ok _ _ _ _ _ E3).
  destruct (trans_brelse s3 _ _ _ _ _ _ _ b n e T3) as (s4 & E4 & T4); [right; apply elem_of_pin; by left|]. by exists s4.
Qed.
End trans.

(** ** The bitmap *)

Definition used (S : superblock) (C : gmap Z (list Z)) (n : Z) : bool :=
  match C !! BBLOCK n S with Some data => bit data (n `mod` BPB) | None => true end.

(** The blocks of the disk are there; those of the log and of the bitmap are
    marked as used, and the boot block, whose number stands for no block. *)
Record disk_ok (S : superblock) (st : Z) (C : gmap Z (list Z)) : Prop := {
  dk_size : 0 <= sb_size S < 2147483648;
  dk_block n : 0 <= n < sb_size S -> exists data, C !! n = Some data /\ block_bytes data;
  dk_map n : 0 <= n < sb_size S -> 0 <= BBLOCK n S < sb_size S /\ outside st (BBLOCK n S) /\ used S C (BBLOCK n S) = true;
  dk_log n : 0 <= n < sb_size S -> ~ outside st n -> used S C n = true;
  dk_boot : 0 < sb_size S -> used S C 0 = true
}.

Lemma mod_BPB n : 0 <= n `mod` BPB < BPB.
Proof. by apply Z.mod_pos_bound. Qed.

Section bitmap.
Context (S : superblock) (st : Z).
Implicit Types (C : gmap Z (list Z)).

(** Marking the block [n]. *)
Definition marked C (n : Z) : gmap Z (list Z) :=
  match C !! BBLOCK n S with Some data => <[BBLOCK n S := set_bit (n `mod` BPB) data]> C | None => C end.

Lemma same_bitmap j n : 0 <= j < sb_size S -> 0 <= n < sb_size S -> sb_size S < 2147483648 ->
  BBLOCK j S = BBLOCK n S -> j `mod` BPB = n `mod` BPB -> j = n.
Proof.
  intros Hj Hn Hs E Em. unfold BBLOCK in E. assert (u32 (j / BPB + sb_bmapstart S) = u32 (n / BPB + sb_bmapstart S)) as E' by done.
  unfold wrap_u in E'. apply (f_equal (fun x => (x - sb_bmapstart S) mod 2 ^ 32)) in E'. rewrite !Zminus_mod_idemp_l in E'.
  replace (j / BPB + sb_bmapstart S - sb_bmapstart S) with (j / BPB) in E' by lia.
  replace (n / BPB + sb_bmapstart S - sb_bmapstart S) with (n / BPB) in E' by lia.
  assert (forall x, 0 <= x < 2147483648 -> 0 <= x / BPB < 2 ^ 32) as Hb.
  { intros x Hx. change BPB with 8192. change (2 ^ 32) with 4294967296. split; [apply Z.div_pos; lia|].
    apply Z.div_lt_upper_bound; lia. }
  rewrite !Z.mod_small in E' by (apply Hb; lia). change BPB with 8192 in *.
  rewrite (Z.div_mod j 8192), (Z.div_mod n 8192) by lia. lia.
Qed.

Lemma used_marked C n j : disk_ok S st C -> 0 <= n < sb_size S -> 0 <= j < sb_size S ->
  used S (marked C n) j = (j =? n) || used S C j.
Proof.
  intros D Hn Hj. destruct (dk_map _ _ _ D n Hn) as (Hm & _). destruct (dk_block _ _ _ D _ Hm) as (data & Hd & B).
  unfold marked, used. rewrite Hd. destruct (set_bit_spec data (n `mod` BPB) B (mod_BPB n)) as (_ & S1 & S2).
  destruct (decide (BBLOCK j S = BBLOCK n S)) as [E|E].
  - rewrite E, lookup_insert_eq, Hd. destruct (Z.eqb_spec j n) as [->|Hne]; [done|].
    cbn [orb]. apply S2; [apply mod_BPB|]. intros Em. apply Hne.
    eapply same_bitmap; [done|done|apply (dk_size _ _ _ D)|done|done].
  - rewrite lookup_insert_ne by done. destruct (Z.eqb_spec j n) as [->|]; [done|]. done.
Qed.

Lemma free_not_bitmap C n j : disk_ok S st C -> 0 <= n < sb_size S -> used S C n = false -> 0 <= j < sb_size S -> BBLOCK j S <> n.
Proof. intros D Hn Hu Hj E. destruct (dk_map _ _ _ D j Hj) as (_ & _ & H). congruence. Qed.

Lemma used_insert C n data j : (forall i, 0 <= i < sb_size S -> BBLOCK i S <> n) -> 0 <= j < sb_size S ->
  used S (<[n := data]> C) j = used S C j.
Proof. intros Hn Hj. unfold used. rewrite lookup_insert_ne; [done|]. intros E. by apply (Hn j Hj). Qed.

Lemma disk_ok_insert C n data : disk_ok S st C -> block_bytes data -> (forall i, 0 <= i < sb_size S -> BBLOCK i S <> n) ->
  disk_ok S st (<[n := data]> C).
Proof.
  intros D B Hn. pose proof D as [A1 A2 A3 A4 A5]. split; [done| | | |].
  - intros j Hj. destruct (decide (j = n)) as [->|]; [rewrite lookup_insert_eq; eauto|]. rewrite lookup_insert_ne by done. by apply A2.
  - intros j Hj. destruct (A3 j Hj) as (M1 & M2 & M3). split; [done|]. split; [done|]. by rewrite used_insert.
  - intros j Hj Ho. rewrite used_insert by done. by apply A4.
  - intros H0. rewrite used_insert by (done || lia). by apply A5.
Qed.

Lemma disk_ok_marked C n : disk_ok S st C -> 0 <= n < sb_size S -> disk_ok S st (marked C n).
Proof.
  intros D Hn. pose proof D as [A1 A2 A3 A4 A5]. split; [done| | | |].
  - intros j Hj. destruct (A3 n Hn) as (Hm & _). destruct (A2 _ Hm) as (data & Hd & B). unfold marked. rewrite Hd.
    destruct (decide (j = BBLOCK n S)) as [->|]; [rewrite lookup_insert_eq; eexists; split; [done|]|].
    + by apply set_bit_spec; [|apply mod_BPB].
    + rewrite lookup_insert_ne by done. by apply A2.
  - intros j Hj. destruct (A3 j Hj) as (M1 & M2 & M3). split; [done|]. split; [done|].
    rewrite used_marked by done. rewrite M3. apply orb_true_r.
  - intros j Hj Ho. rewrite used_marked by done. rewrite (A4 j Hj Ho). apply orb_true_r.
  - intros H0. rewrite used_marked by (done || lia). rewrite A5 by done. apply orb_true_r.
Qed.
End bitmap.

Lemma memset_block data : block_bytes data -> memset 0 (Z.to_nat BSIZE) data = replicate (Z.to_nat BSIZE) 0.
Proof.
  intros B. unfold memset, write_at. rewrite length_replicate, Nat.add_0_l, <- B, drop_all, app_nil_r. done.
Qed.

Lemma steps_spec k n b : 0 < k -> 0 <= n -> b ∈ steps k n <-> 0 <= b < n /\ b `mod` k = 0.
Proof.
  intros Hk Hn. unfold steps. rewrite list_elem_of_fmap. split.
  - intros (i & -> & Hi). apply elem_of_seqZ in Hi. rewrite Z.mod_mul by lia. split; [|done].
    assert (i < (n + k - 1) / k) as Hlt by lia. split; [nia|].
    pose proof (Z.div_mod (n + k - 1) k ltac:(lia)). pose proof (Z.mod_pos_bound (n + k - 1) k Hk). nia.
  - intros [Hb Hm]. exists (b / k). pose proof (Z.div_mod b k ltac:(lia)). split; [lia|]. apply elem_of_seqZ.
    split; [apply Z.div_pos; lia|]. enough (b / k + 1 <= (n + k - 1) / k) by lia. apply Z.div_le_lower_bound; [lia|]. nia.
Qed.

Section balloc.
Context {Wk : Worker} {K : Disk} {DS : DiskSpec}.
Implicit Types (C P : gmap Z (list Z)) (Pn : list Z) (H : list (nat * Z)).

(** The disk after balloc has handed out the block [n]. *)
Definition handed_out C (n : Z) : gmap Z (list Z) := <[n := replicate (Z.to_nat BSIZE) 0]> (marked w_sb C n).

(** The blocks this process holds are in use and not of the bitmap. *)
Definition apart C H : Prop :=
  forall m, m ∈ H.*2 -> (0 <= m < sb_size w_sb -> used w_sb C m = true) /\ forall i, 0 <= i < sb_size w_sb -> BBLOCK i w_sb <> m.

Lemma block_of_group b bi : 0 <= b -> b `mod` BPB = 0 -> 0 <= bi < BPB ->
  BBLOCK (b + bi) w_sb = BBLOCK b w_sb /\ (b + bi) `mod` BPB = bi.
Proof.
  intros Hb Hm Hbi. assert (b = b / BPB * BPB) as Eb by (rewrite (Z.div_mod b BPB) at 1; change BPB with 8192 in *; lia).
  rewrite Eb. rewrite Z.add_comm. split.
  - unfold BBLOCK. rewrite Z.div_add, Z.div_mul, (Z.div_small bi) by (change BPB with 8192 in *; lia). done.
  - rewrite Z.mod_add by done. by apply Z.mod_small.
Qed.

(** Room in the log for the block of the bitmap and one more. *)
Definition map_room Pn (k : nat) : Prop := forall n, 0 <= n < sb_size w_sb -> (1 + spent Pn (BBLOCK n w_sb) <= k)%nat.

(** What is pinned once [n] is handed out, and the room it takes. *)
Definition pin_handed Pn (n : Z) : list Z := pin (pin Pn (BBLOCK n w_sb)) n.
Definition spent_handed Pn (n : Z) : nat := spent Pn (BBLOCK n w_sb) + spent (pin Pn (BBLOCK n w_sb)) n.

Lemma balloc_loop s C Pn H P W st k e l : trans s C Pn H P W st k -> disk_ok w_sb st C -> apart C H ->
  map_room Pn k -> (length H <= 1)%nat -> u32 w_dev = w_dev ->
  Forall (fun b => 0 <= b < sb_size w_sb /\ b `mod` BPB = 0) l ->
  (exists b bi, b ∈ l /\ 0 <= bi < BPB /\ b + bi < sb_size w_sb /\ used w_sb C (b + bi) = false) ->
  exists n s', for_find l (fun b =>
      bp ← bread w_dev (BBLOCK b w_sb);
      data ← get_data bp;
      bi ← find_clear data b (sb_size w_sb);
      match bi with
      | Some bi =>
        upd_data bp (set_bit bi);;
        log_write bp;;
        brelse bp;;
        bzero w_dev (b + bi);;
        mret (Some (u32 (b + bi)))
      | None => brelse bp;; mret None
      end) (mkWorld s e) = Ok (Some n) (mkWorld s' e) /\ 0 <= n < sb_size w_sb /\ used w_sb C n = false /\
    trans s' (handed_out C n) (pin_handed Pn n) H P W st (k - spent_handed Pn n).
Proof using DS.
  intros T D Ha Hr0 Hk Hd Hl. revert s T. induction Hl as [|b l [Hb Hm] Hl IH]; intros s T (b0 & bi0 & Hin & Hbi0 & Hlt & Hfree).
  { by apply elem_of_nil in Hin. }
  pose proof (Hr0 b Hb) as Hrb. pose proof (dk_size _ _ _ D) as Hsz. destruct (dk_map _ _ _ D b Hb) as (Hmb & Hmo & Hmu).
  destruct (dk_block _ _ _ D _ Hmb) as (data & Hdata & B).
  assert (BBLOCK b w_sb ∉ H.*2) as Hnh by (intros Hx; by apply (proj2 (Ha _ Hx) b Hb)).
  cbn [for_find]. rewrite bind_assoc.
  destruct (trans_bread s C Pn H P W st k (BBLOCK b w_sb) data e T Hdata Hnh ltac:(lia)) as (bp & s1 & E1 & T1).
  rewrite (bind_Ok _ _ _ _ _ E1).
  rewrite bind_assoc, (bind_Ok _ _ _ _ _ (trans_get_data s1 C Pn _ P W st k bp _ data e T1 ltac:(by left) Hdata)).
  destruct (find_clear_ok data b (sb_size w_sb) (mkWorld s1 e) B) as (r & Ef & Hr).
  rewrite bind_assoc, (bind_Ok _ _ _ _ _ Ef). destruct r as [bi|].
  - destruct Hr as [Hbi Hclear]. destruct (block_of_group b bi ltac:(lia) Hm ltac:(lia)) as [Eg Em].
    assert (used w_sb C (b + bi) = false) as Hu by (unfold used; by rewrite Eg, Em, Hdata).
    assert (b + bi ∉ H.*2) as Hnh2.
    { intros Hx. destruct (Ha _ Hx) as [Hx1 _]. rewrite Hx1 in Hu by lia. done. }
    assert (outside st (b + bi)) as Ho.
    { destruct (decide (b + bi < st \/ st + LOGSIZE <= b + bi)) as [|Hno]; [done|].
      rewrite (dk_log _ _ _ D (b + bi)) in Hu; [done|lia|done]. }
    assert (BBLOCK b w_sb <> b + bi) as Hne by (apply (free_not_bitmap _ st C); [done|lia|done|done]).
    destruct (dk_block _ _ _ D (b + bi) ltac:(lia)) as (data2 & Hdata2 & B2).
    destruct (trans_upd s1 _ _ _ _ _ _ _ bp (BBLOCK b w_sb) data (set_bit bi) e T1) as (s2 & E2 & T2); [by left|done|].
    rewrite bind_assoc, (bind_Ok _ _ _ _ _ E2).
    destruct (trans_log s2 _ _ _ _ _ _ _ bp (BBLOCK b w_sb) e T2) as (s3 & E3 & T3); [lia|by left|lia|done|].
    rewrite bind_assoc, (bind_Ok _ _ _ _ _ E3).
    destruct (trans_brelse s3 _ _ _ _ _ _ _ bp (BBLOCK b w_sb) e T3) as (s4 & E4 & T4); [right; apply elem_of_pin; by left|].
    rewrite bind_assoc, (bind_Ok _ _ _ _ _ E4).
    destruct (trans_bzero s4 _ _ _ _ _ _ _ (b + bi) data2 e T4) as (s5 & E5 & T5);
      [lia|by rewrite lookup_insert_ne|done|lia|done|lia|done|].
    rewrite bind_assoc, (bind_Ok _ _ _ _ _ E5). run. rewrite u32_small by lia.
    exists (b + bi), s5. split; [done|]. split; [lia|]. split; [done|].
    unfold handed_out, marked, pin_handed, spent_handed. rewrite Eg, Em, Hdata, Nat.sub_add_distr.
    by rewrite <- (memset_block data2).
  - destruct (trans_brelse s1 C Pn H P W st k bp (BBLOCK b w_sb) e T1) as (s2 & E2 & T2);
      [exact (trans_clean s C Pn H P W st _ _ T Hnh)|].
    rewrite bind_assoc, (bind_Ok _ _ _ _ _ E2). run. apply IH; [done|]. exists b0, bi0. split; [|done].
    apply elem_of_cons in Hin as [->|Hin]; [|done]. destruct (block_of_group b bi0 ltac:(lia) Hm Hbi0) as [Eg Em].
    unfold used in Hfree. rewrite Eg, Em, Hdata in Hfree. rewrite Hr in Hfree by lia. done.
Qed.

Lemma balloc_spec s C Pn H P W st k e : trans s C Pn H P W st k -> disk_ok w_sb st C -> apart C H ->
  map_room Pn k -> (length H <= 1)%nat -> u32 w_dev = w_dev -> (exists n, 0 <= n < sb_size w_sb /\ used w_sb C n = false) ->
  exists n s', balloc w_dev (mkWorld s e) = Ok n (mkWorld s' e) /\ 0 < n < sb_size w_sb /\ used w_sb C n = false /\
    trans s' (handed_out C n) (pin_handed Pn n) H P W st (k - spent_handed Pn n).
Proof using DS.
  intros T D Ha Hr Hk Hd (m & Hm & Hu). pose proof T as (L & bl & F & _). unfold balloc.
  rewrite (bind_Ok _ _ _ _ _ (getd_sb _ _ _ _ _ _ _ e F)). pose proof (dk_size _ _ _ D) as Hsz.
  destruct (balloc_loop s C Pn H P W st k e (steps BPB (sb_size w_sb)) T D Ha Hr Hk Hd) as (n & s' & E & Hn & Hu' & T').
  - apply Forall_forall. intros b Hb. apply steps_spec in Hb; [done|done|lia].
  - assert (m `mod` BPB = m - m / BPB * BPB) as Em by (change BPB with 8192; pose proof (Z.div_mod m 8192); lia).
    exists (m - m `mod` BPB), (m `mod` BPB). pose proof (mod_BPB m) as Hmod.
    replace (m - m `mod` BPB + m `mod` BPB) with m by lia. split; [|split; [exact Hmod|split; [lia|done]]].
    apply steps_spec; [done|lia|].
    replace (m - m `mod` BPB) with (m / BPB * BPB) by lia. rewrite Z.mod_mul by done. split; [|done].
    assert (0 <= m / BPB) by (apply Z.div_pos; [lia|done]). change BPB with 8192 in *. lia.
  - rewrite (bind_Ok _ _ _ _ _ E). exists n, s'. split; [done|]. split; [|done].
    destruct (decide (n = 0)) as [->|]; [|lia]. rewrite (dk_boot _ _ _ D) in Hu' by lia. done.
Qed.
End balloc.

(** ** The blocks of a file *)

Section files.
Context {Wk : Worker} (st : Z).
Implicit Types (C : gmap Z (list Z)) (x : inode).

(** The block that holds the [bn]th block of the file. *)
Definition file_addr C x (bn : Z) : option Z :=
  if bn <? NDIRECT then
    a ← zlookup (i_addrs x) bn; if a =? 0 then None else Some a
  else if bn <? MAXFILE then
    ind ← zlookup (i_addrs x) NDIRECT;
    if ind =? 0 then None else
    data ← C !! ind;
    let a := get_u32 (4 * Z.to_nat (bn - NDIRECT)) data in
    if a =? 0 then None else Some a
  else None.

(** The byte of the file at offset [i]. *)
Definition file_byte C x (i : Z) : option Z :=
  a ← file_addr C x (i / BSIZE); data ← C !! a; data !! Z.to_nat (i `mod` BSIZE).

(** A block in use, neither of the log nor of the bitmap. *)
Record owned C (m : Z) : Prop := {
  ow_range : 0 < m < sb_size w_sb;
  ow_used : used w_sb C m = true;
  ow_map i : 0 <= i < sb_size w_sb -> BBLOCK i w_sb <> m;
  ow_home : outside st m
}.

Record file_ok C x : Prop := {
  fo_len : length (i_addrs x) = Z.to_nat (NDIRECT + 1);
  fo_dev : i_dev x = w_dev;
  fo_ind ind : zlookup (i_addrs x) NDIRECT = Some ind -> ind <> 0 -> owned C ind;
  fo_data bn a : 0 <= bn -> file_addr C x bn = Some a -> owned C a /\ zlookup (i_addrs x) NDIRECT <> Some a;
  fo_inj bn bn' a : 0 <= bn -> 0 <= bn' -> file_addr C x bn = Some a -> file_addr C x bn' = Some a -> bn = bn';
  fo_inode : owned C (IBLOCK (i_inum x) w_sb) /\ zlookup (i_addrs x) NDIRECT <> Some (IBLOCK (i_inum x) w_sb);
  fo_apart bn : 0 <= bn -> file_addr C x bn <> Some (IBLOCK (i_inum x) w_sb);
  fo_typed : dinode_typed (to_dinode x)
}.

Definition ind_of x : option Z := zlookup (i_addrs x) NDIRECT.

(** From [C] and [x] to [C'] and [x'] by giving the file more blocks. *)
Record file_grown C x C' x' : Prop := {
  gr_disk : disk_ok w_sb st C';
  gr_file : file_ok C' x';
  gr_inode : x' = set_i_addrs (i_addrs x') x;
  gr_addr bn a : 0 <= bn -> file_addr C x bn = Some a -> file_addr C' x' bn = Some a;
  gr_new bn a : 0 <= bn -> file_addr C' x' bn = Some a -> owned C a -> file_addr C x bn = Some a;
  gr_owned m : owned C m -> owned C' m;
  gr_keep m : owned C m -> ind_of x <> Some m -> C' !! m = C !! m /\ ind_of x' <> Some m
}.

Lemma file_grown_refl C x : disk_ok w_sb st C -> file_ok C x -> file_grown C x C x.
Proof. intros D F. split; try done. by destruct x. Qed.

Lemma file_grown_trans C1 x1 C2 x2 C3 x3 : file_grown C1 x1 C2 x2 -> file_grown C2 x2 C3 x3 -> file_grown C1 x1 C3 x3.
Proof.
  intros [A1 A2 A3 A4 A4' A5 A6] [B1 B2 B3 B4 B4' B5 B6]. split; [done|done| | | | |].
  - rewrite B3, A3. done.
  - intros bn a Hb E. apply B4; [done|]. by apply A4.
  - intros bn a Hb E O. apply A4'; [done| |done]. apply B4'; [done|done|]. by apply A5.
  - intros m Hm. by apply B5, A5.
  - intros m Hm Hn. destruct (A6 m Hm Hn) as [E1 Hn1]. destruct (B6 m (A5 m Hm) Hn1) as [E2 Hn2]. by rewrite E2.
Qed.

(** Bytes that were there stay. *)
Lemma file_grown_byte C x C' x' i c : 0 <= i -> file_ok C x -> file_grown C x C' x' ->
  file_byte C x i = Some c -> file_byte C' x' i = Some c.
Proof.
  intros Hi F G. unfold file_byte. destruct (file_addr C x (i / BSIZE)) as [a'|] eqn:E; [|done]. cbn.
  assert (0 <= i / BSIZE) as Hb by (apply Z.div_pos; done).
  rewrite (gr_addr _ _ _ _ G _ _ Hb E). cbn. destruct (fo_data _ _ F _ _ Hb E) as [Ho Hn].
  by rewrite (proj1 (gr_keep _ _ _ _ G _ Ho Hn)).
Qed.

(** ** Handing out a block *)

Lemma handed_out_lookup C n m : disk_ok w_sb st C -> 0 <= n < sb_size w_sb -> m <> n ->
  (forall i, 0 <= i < sb_size w_sb -> BBLOCK i w_sb <> m) -> handed_out C n !! m = C !! m.
Proof.
  intros D Hn Hne Hm. unfold handed_out, marked. rewrite lookup_insert_ne by done.
  destruct (dk_map _ _ _ D n Hn) as (Hmb & _). destruct (dk_block _ _ _ D _ Hmb) as (data & -> & _).
  apply lookup_insert_ne. by apply Hm.
Qed.

Lemma handed_out_ok C n : disk_ok w_sb st C -> 0 <= n < sb_size w_sb -> used w_sb C n = false ->
  disk_ok w_sb st (handed_out C n) /\
  forall j, 0 <= j < sb_size w_sb -> used w_sb (handed_out C n) j = (j =? n) || used w_sb C j.
Proof.
  intros D Hn Hu. pose proof (disk_ok_marked w_sb st C n D Hn) as D'.
  assert (forall i, 0 <= i < sb_size w_sb -> BBLOCK i w_sb <> n) as Hm by (intros i Hi; exact (free_not_bitmap w_sb st C n i D Hn Hu Hi)).
  split; [apply disk_ok_insert; [done|apply length_replicate|done]|].
  intros j Hj. unfold handed_out. rewrite used_insert by done. by apply (used_marked w_sb st).
Qed.

Lemma owned_handed C n m : disk_ok w_sb st C -> 0 <= n < sb_size w_sb -> used w_sb C n = false -> owned C m ->
  m <> n /\ owned (handed_out C n) m /\ handed_out C n !! m = C !! m.
Proof.
  intros D Hn Hu [O1 O2 O3 O4]. assert (m <> n) as Hne by congruence. split; [done|].
  destruct (handed_out_ok C n D Hn Hu) as [_ Hused]. split; [|exact (handed_out_lookup C n m D Hn Hne O3)].
  split; [done| |done|done]. rewrite Hused by lia. rewrite O2. apply orb_true_r.
Qed.

Lemma owned_new C n : disk_ok w_sb st C -> 0 < n < sb_size w_sb -> used w_sb C n = false -> owned (handed_out C n) n.
Proof.
  intros D Hn Hu. destruct (handed_out_ok C n D ltac:(lia) Hu) as [_ Hused]. split; [done| | |].
  - rewrite Hused by lia. by rewrite Z.eqb_refl.
  - intros i Hi. apply (free_not_bitmap w_sb st C n i D ltac:(lia) Hu Hi).
  - destruct (decide (n < st \/ st + LOGSIZE <= n)) as [|Hno]; [done|]. rewrite (dk_log _ _ _ D n) in Hu; [done|lia|done].
Qed.

Lemma not_ind C x n : file_ok C x -> used w_sb C n = false -> 0 < n < sb_size w_sb -> ind_of x <> Some n.
Proof.
  intros F Hu Hn E. destruct (fo_ind _ _ F n E ltac:(lia)) as [_ O2 _ _]. congruence.
Qed.

Lemma typed_addrs x ad : dinode_typed (to_dinode x) -> length ad = Z.to_nat (NDIRECT + 1) ->
  Forall (fun a => 0 <= a < 4294967296) ad -> dinode_typed (to_dinode (set_i_addrs ad x)).
Proof. intros [D1 D2 D3 D4 D5 D6 D7] Hl Ha. by split. Qed.

(** A file that gets the free block [n] at [bn]. *)
Lemma file_grown_intro C x C' ad bn n : file_ok C x -> used w_sb C n = false -> 0 < n < sb_size w_sb ->
  disk_ok w_sb st C' -> (forall m, owned C m -> owned C' m) -> owned C' n ->
  (forall m, owned C m -> ind_of x <> Some m -> C' !! m = C !! m) ->
  length ad = Z.to_nat (NDIRECT + 1) -> Forall (fun a => 0 <= a < 4294967296) ad -> zlookup ad NDIRECT = ind_of x -> 0 <= bn ->
  (forall bn', 0 <= bn' -> file_addr C' (set_i_addrs ad x) bn' = if decide (bn' = bn) then Some n else file_addr C x bn') ->
  file_addr C x bn = None -> file_grown C x C' (set_i_addrs ad x).
Proof.
  intros F Hu Hn D' Ho On Hk Hl Hty Ei Hbn Hfa Hnone. pose proof F as [F1 F2 F3 F4 F5 [F6 F6'] F7 F8].
  assert (forall m, owned C m -> m <> n) as Hne by (intros m [_ O2 _ _] ->; congruence).
  pose proof (not_ind C x n F Hu Hn) as Hin.
  split; [done| |done| | |done|].
  - split; cbn [i_addrs i_dev i_inum set_i_addrs]; [done|done| | | | | |by apply typed_addrs].
    + intros ind. rewrite Ei. intros E H0. by apply Ho, F3.
    + intros b a Hb. rewrite Hfa, Ei by done. destruct (decide (b = bn)) as [->|]; [intros [= <-]; done|].
      intros E. destruct (F4 b a Hb E) as [O1 O2]. split; [by apply Ho|done].
    + intros b b' a Hb Hb'. rewrite !Hfa by done. destruct (decide (b = bn)) as [->|], (decide (b' = bn)) as [->|]; try done.
      * intros [= <-] E. destruct (F4 _ _ Hb' E) as [O1 _]. by destruct (Hne _ O1).
      * intros E [= <-]. destruct (F4 _ _ Hb E) as [O1 _]. by destruct (Hne _ O1).
      * by apply F5.
    + rewrite Ei. split; [by apply Ho|done].
    + intros b Hb. rewrite Hfa by done. destruct (decide (b = bn)) as [->|]; [|by apply F7].
      intros [= E]. apply (Hne _ F6). done.
  - intros b a Hb E. rewrite Hfa by done. destruct (decide (b = bn)) as [->|]; [congruence|done].
  - intros b a Hb. rewrite Hfa by done. destruct (decide (b = bn)) as [->|]; [|done]. intros [= <-] O. by destruct (Hne _ O).
  - intros m Hm Hi. split; [by apply Hk|].
    change (ind_of (set_i_addrs ad x)) with (zlookup ad NDIRECT). by rewrite Ei.
Qed.

Lemma file_grown_direct C x bn n : disk_ok w_sb st C -> file_ok C x -> used w_sb C n = false -> 0 < n < sb_size w_sb ->
  0 <= bn < NDIRECT -> file_addr C x bn = None ->
  let x' := set_i_addrs (<[Z.to_nat bn := n]> (i_addrs x)) x in
  file_grown C x (handed_out C n) x' /\ file_addr (handed_out C n) x' bn = Some n.
Proof.
  intros D F Hu Hn Hbn Hnone x'.
  assert (zlookup (<[Z.to_nat bn := n]> (i_addrs x)) NDIRECT = ind_of x) as Ei.
  { unfold ind_of, zlookup. cbn [Z.leb]. unfold NDIRECT in *. destruct (0 <=? 12); [|done]. apply list_lookup_insert_ne. lia. }
  assert (forall bn', 0 <= bn' -> file_addr (handed_out C n) x' bn' = if decide (bn' = bn) then Some n else file_addr C x bn') as Hfa.
  { intros b Hb. unfold file_addr, x'. cbn [i_addrs set_i_addrs]. rewrite Ei. destruct (Z.ltb_spec b NDIRECT) as [Hlt|Hge].
    - destruct (decide (b = bn)) as [->|Hne].
      + unfold zlookup. destruct (Z.leb_spec 0 bn); [|lia]. rewrite list_lookup_insert_eq; [|rewrite (fo_len _ _ F); unfold NDIRECT in *; lia].
        cbn. destruct (Z.eqb_spec n 0); [lia|done].
      + unfold zlookup. destruct (Z.leb_spec 0 b); [|lia]. rewrite list_lookup_insert_ne; [done|lia].
    - destruct (decide (b = bn)) as [->|_]; [lia|]. destruct (b <? MAXFILE); [|done].
      unfold ind_of. destruct (zlookup (i_addrs x) NDIRECT) as [ind|] eqn:E; [|done]. cbn.
      destruct (Z.eqb_spec ind 0) as [|H0]; [done|].
      destruct (owned_handed C n ind D ltac:(lia) Hu (fo_ind _ _ F ind E H0)) as (_ & _ & ->). done. }
  split; [|rewrite Hfa by lia; by rewrite decide_True].
  apply (file_grown_intro C x (handed_out C n) _ bn n); try done; try lia.
  - by apply handed_out_ok; [|lia|].
  - intros m Hm. by apply (owned_handed C n m D ltac:(lia) Hu Hm).
  - by apply owned_new.
  - intros m Hm _. by apply (owned_handed C n m D ltac:(lia) Hu Hm).
  - by rewrite length_insert, (fo_len _ _ F).
  - apply Forall_insert; [apply (dt_addrs _ (fo_typed _ _ F))|pose proof (dk_size _ _ _ D); lia].
Qed.

Lemma get_u32_zeros off n : get_u32 off (replicate n 0) = 0.
Proof.
  unfold get_u32, read_at. rewrite drop_replicate, take_replicate. generalize (4 `min` (n - off))%nat as k.
  intros k. induction k as [|k IH]; [done|]. cbn. by rewrite IH.
Qed.

Lemma file_addr_indirect C x bn ind data : NDIRECT <= bn < MAXFILE -> ind_of x = Some ind -> ind <> 0 -> C !! ind = Some data ->
  file_addr C x bn = let a := get_u32 (4 * Z.to_nat (bn - NDIRECT)) data in if a =? 0 then None else Some a.
Proof.
  intros Hb Ei H0 Hd. unfold file_addr. destruct (Z.ltb_spec bn NDIRECT); [lia|]. destruct (Z.ltb_spec bn MAXFILE); [|lia].
  change (zlookup (i_addrs x) NDIRECT) with (ind_of x). rewrite Ei. cbn. apply Z.eqb_neq in H0 as ->. by rewrite Hd.
Qed.

(** The block of addresses is handed out empty. *)
Lemma file_grown_slot C x n : disk_ok w_sb st C -> file_ok C x -> used w_sb C n = false -> 0 < n < sb_size w_sb ->
  ind_of x = Some 0 ->
  file_grown C x (handed_out C n) (set_i_addrs (<[Z.to_nat NDIRECT := n]> (i_addrs x)) x).
Proof.
  intros D F Hu Hn Hz. set (x' := set_i_addrs _ x). pose proof F as [F1 F2 F3 F4 F5 [F6 F6'] F7 F8].
  assert (ind_of x' = Some n) as Ei.
  { unfold ind_of, x'. cbn [i_addrs set_i_addrs]. unfold zlookup. change (0 <=? NDIRECT) with true. cbv iota.
    apply list_lookup_insert_eq. rewrite F1. unfold NDIRECT. lia. }
  assert (forall m, owned C m -> m <> n /\ owned (handed_out C n) m /\ handed_out C n !! m = C !! m) as Ho.
  { intros m Hm. by apply owned_handed; [|lia|..]. }
  assert (forall bn, 0 <= bn -> file_addr (handed_out C n) x' bn = file_addr C x bn) as Hfa.
  { intros b Hb. destruct (decide (b < NDIRECT)) as [Hlt|Hge].
    - unfold file_addr. destruct (Z.ltb_spec b NDIRECT); [|lia]. unfold x'. cbn [i_addrs set_i_addrs]. unfold zlookup.
      destruct (Z.leb_spec 0 b); [|lia]. rewrite list_lookup_insert_ne; [done|unfold NDIRECT in *; lia].
    - destruct (decide (b < MAXFILE)) as [Hm|Hm].
      + rewrite (file_addr_indirect _ x' b n (replicate (Z.to_nat BSIZE) 0)); [|lia|done|lia|].
        2: { unfold handed_out. by rewrite lookup_insert_eq. }
        cbv zeta. rewrite get_u32_zeros. cbn [Z.eqb]. unfold file_addr. destruct (Z.ltb_spec b NDIRECT); [lia|].
        destruct (b <? MAXFILE); [|done]. change (zlookup (i_addrs x) NDIRECT) with (ind_of x). rewrite Hz. done.
      + unfold file_addr. destruct (Z.ltb_spec b NDIRECT); [lia|]. destruct (Z.ltb_spec b MAXFILE); [lia|]. done. }
  split; [by apply handed_out_ok; [|lia|]| |done| | | |].
  - split; cbn [i_addrs i_dev i_inum x' set_i_addrs]; [by rewrite length_insert|done| | | | | |].
    + change (zlookup _ NDIRECT) with (ind_of x'). rewrite Ei. intros ind [= <-] _. by apply owned_new.
    + change (zlookup _ NDIRECT) with (ind_of x'). intros b a Hb. fold x'. rewrite Hfa by done. intros E.
      destruct (F4 b a Hb E) as [O1 _]. destruct (Ho a O1) as (Hne & O2 & _). split; [done|]. rewrite Ei. congruence.
    + intros b b' a Hb Hb'. fold x'. rewrite !Hfa by done. by apply F5.
    + change (zlookup _ NDIRECT) with (ind_of x'). destruct (Ho _ F6) as (Hne & O2 & _). split; [done|]. rewrite Ei. congruence.
    + intros b Hb. fold x'. rewrite Hfa by done. by apply F7.
    + apply typed_addrs; [done|by rewrite length_insert|]. apply Forall_insert; [apply (dt_addrs _ F8)|pose proof (dk_size _ _ _ D); lia].
  - intros b a Hb E. by rewrite Hfa.
  - intros b a Hb. by rewrite Hfa.
  - intros m Hm. by apply Ho.
  - intros m Hm _. destruct (Ho m Hm) as (Hne & _ & E). split; [done|]. rewrite Ei. congruence.
Qed.

Lemma owned_insert C ind d m : (forall i, 0 <= i < sb_size w_sb -> BBLOCK i w_sb <> ind) -> owned C m -> owned (<[ind := d]> C) m.
Proof. intros Hi [O1 O2 O3 O4]. split; try done. rewrite used_insert by (done || lia). done. Qed.

(** An entry of the block of addresses. *)
Lemma file_grown_entry C x bn ind data n : disk_ok w_sb st C -> file_ok C x -> used w_sb C n = false -> 0 < n < sb_size w_sb ->
  NDIRECT <= bn < MAXFILE -> ind_of x = Some ind -> ind <> 0 -> C !! ind = Some data ->
  get_u32 (4 * Z.to_nat (bn - NDIRECT)) data = 0 ->
  let C' := <[ind := write_at (4 * Z.to_nat (bn - NDIRECT)) (le_split 4 n) data]> (handed_out C n) in
  file_grown C x C' x /\ file_addr C' x bn = Some n.
Proof.
  intros D F Hu Hn Hbn Ei H0 Hd Hz C'. pose proof (dk_size _ _ _ D) as Hsz.
  pose proof (fo_ind _ _ F ind Ei H0) as Oi. destruct (owned_handed C n ind D ltac:(lia) Hu Oi) as (Hin & Oi' & Ed).
  destruct (dk_block _ _ _ D ind ltac:(destruct Oi; lia)) as (data' & Hd' & B). rewrite Hd in Hd'. injection Hd' as <-.
  set (k := Z.to_nat (bn - NDIRECT)) in *.
  assert (4 * k + 4 <= length data)%nat as Hk.
  { rewrite B. unfold MAXFILE, NDIRECT in *. change NINDIRECT with 256 in *. change (Z.to_nat BSIZE) with 1024%nat. lia. }
  assert (length (le_split 4 n) = 4%nat) as Hl by apply length_le_split.
  assert (forall bn', 0 <= bn' -> file_addr C' x bn' = if decide (bn' = bn) then Some n else file_addr C x bn') as Hfa.
  { intros b Hb. destruct (decide (NDIRECT <= b < MAXFILE)) as [Hin'|Hout].
    - rewrite (file_addr_indirect C' x b ind (write_at (4 * k) (le_split 4 n) data)), (file_addr_indirect C x b ind data)
        by (done || apply lookup_insert_eq). cbv zeta.
      destruct (decide (b = bn)) as [->|Hne].
      + fold k. unfold get_u32. pose proof (read_write_same (4 * k) (le_split 4 n) data ltac:(lia)) as R.
        rewrite Hl in R. rewrite R, u32_split by lia.
        destruct (Z.eqb_spec n 0); [lia|done].
      + unfold get_u32. rewrite read_write_other; [done|lia| |].
        * rewrite B. unfold MAXFILE, NDIRECT in *. change NINDIRECT with 256 in *. change (Z.to_nat BSIZE) with 1024%nat. lia.
        * unfold k. rewrite Hl. unfold NDIRECT in *. lia.
    - destruct (decide (b = bn)) as [->|_]; [done|]. unfold file_addr.
      destruct (Z.ltb_spec b NDIRECT); [done|]. destruct (Z.ltb_spec b MAXFILE); [lia|done]. }
  split; [|rewrite Hfa by (unfold NDIRECT in *; lia); by rewrite decide_True].
  pose proof (ow_map _ _ Oi) as Hmap.
  assert (x = set_i_addrs (i_addrs x) x) as Ex by (by destruct x).
  rewrite Ex at 2. apply (file_grown_intro C x C' (i_addrs x) bn n); try done.
  - apply disk_ok_insert; [by apply handed_out_ok; [|lia|]| |done]. unfold block_bytes. rewrite length_write_at by lia. done.
  - intros m Hm. apply owned_insert; [done|]. by apply (owned_handed C n m D ltac:(lia) Hu Hm).
  - apply owned_insert; [done|]. by apply owned_new.
  - intros m Hm Hi. unfold C'. rewrite lookup_insert_ne by congruence. by apply (owned_handed C n m D ltac:(lia) Hu Hm).
  - apply (fo_len _ _ F).
  - apply (dt_addrs _ (fo_typed _ _ F)).
  - unfold NDIRECT in *. lia.
  - rewrite (file_addr_indirect C x bn ind data) by done. cbv zeta. fold k. by rewrite Hz.
Qed.

(** ** Reading a file *)

(** The bytes [bs] are in the file from [off] on. *)
Definition reads_as C x (off : Z) (bs : list Z) : Prop :=
  forall i c, bs !! i = Some c -> file_byte C x (off + Z.of_nat i) = Some c.

Lemma reads_as_app C x off bs1 bs2 :
  reads_as C x off (bs1 ++ bs2) <-> reads_as C x off bs1 /\ reads_as C x (off + Z.of_nat (length bs1)) bs2.
Proof.
  split.
  - intros H. split; intros i c Hi.
    + apply H. by apply lookup_app_l_Some.
    + rewrite <- Z.add_assoc, <- Nat2Z.inj_add. apply H. rewrite lookup_app_r by lia. by rewrite Nat.add_comm, Nat.add_sub.
  - intros [H1 H2] i c Hi. apply lookup_app_Some in Hi as [Hi|[Hl Hi]]; [by apply H1|].
    replace (off + Z.of_nat i) with (off + Z.of_nat (length bs1) + Z.of_nat (i - length bs1)) by lia. by apply H2.
Qed.

(** A byte in the block of [off]. *)
Lemma same_block off i : 0 <= off -> 0 <= i < BSIZE - off `mod` BSIZE ->
  (off + i) / BSIZE = off / BSIZE /\ (off + i) `mod` BSIZE = off `mod` BSIZE + i.
Proof. change BSIZE with 1024. intros H1 H2. Z.to_euclidean_division_equations. lia. Qed.

Lemma other_block off len j : 0 <= off -> 0 <= len -> len <= BSIZE - off `mod` BSIZE -> ~ off <= j < off + len ->
  j / BSIZE = off / BSIZE -> j `mod` BSIZE < off `mod` BSIZE \/ off `mod` BSIZE + len <= j `mod` BSIZE.
Proof. change BSIZE with 1024. intros H1 H2 H3 H4 H5. Z.to_euclidean_division_equations. lia. Qed.

Lemma read_block C x off bs a data : 0 <= off -> Z.of_nat (length bs) <= BSIZE - off `mod` BSIZE ->
  file_addr C x (off / BSIZE) = Some a -> C !! a = Some data -> block_bytes data -> reads_as C x off bs ->
  read_at (Z.to_nat (off `mod` BSIZE)) (length bs) data = bs.
Proof.
  intros Ho Hl Ha Hd B H. assert (0 <= off `mod` BSIZE < BSIZE) as Hm by (by apply Z.mod_pos_bound).
  apply list_eq. intros i. destruct (decide (i < length bs)%nat) as [Hi|Hi].
  - rewrite lookup_read_at by done. destruct (lookup_lt_is_Some_2 bs i Hi) as [c Hc]. rewrite Hc.
    specialize (H i c Hc). unfold file_byte in H. destruct (same_block off (Z.of_nat i) Ho ltac:(lia)) as [E1 E2].
    rewrite E1, E2, Ha in H. cbn in H. rewrite Hd in H. cbn in H. rewrite <- H. f_equal. lia.
  - rewrite !lookup_ge_None_2; [done|lia|]. unfold read_at. rewrite length_take. lia.
Qed.

Lemma chunk_ok n tot off len : 0 <= tot -> tot + Z.of_nat len = n -> n < 2147483648 -> (0 < len)%nat -> 0 <= off ->
  exists m, chunk n tot off = Z.of_nat m /\ (0 < m <= len)%nat /\ Z.of_nat m <= BSIZE - off `mod` BSIZE /\
    (m = len \/ (off + Z.of_nat m) `mod` BSIZE = 0 /\ off `mod` BSIZE + Z.of_nat m = BSIZE).
Proof.
  intros Ht En Hn Hl Ho. exists (Z.to_nat (chunk n tot off)). unfold chunk. rewrite u32_small by lia.
  assert (0 <= off `mod` BSIZE < BSIZE) as Hm by (by apply Z.mod_pos_bound).
  rewrite Z2Nat.id by lia. split; [done|]. split; [lia|]. split; [lia|].
  destruct (Z.min_spec (n - tot) (BSIZE - off `mod` BSIZE)) as [[H1 ->]|[H1 ->]]; [left; lia|right].
  split; [|lia]. change BSIZE with 1024 in *. Z.to_euclidean_division_equations. lia.
Qed.

Lemma file_addr_pos C x bn a : file_addr C x bn = Some a -> (a =? 0) = false.
Proof.
  unfold file_addr. destruct (bn <? NDIRECT); [|destruct (bn <? MAXFILE); [|done]]; intros E.
  - destruct (zlookup _ _) as [v|]; [|done]. cbn [mbind option_bind] in E. destruct (v =? 0) eqn:Ev; [done|]. by injection E as <-.
  - destruct (zlookup _ _) as [v|]; [|done]. cbn [mbind option_bind] in E. destruct (v =? 0); [done|]. destruct (C !! v) as [d|]; [|done].
    cbn [mbind option_bind] in E. destruct (get_u32 _ d =? 0) eqn:Ev; [done|]. by injection E as <-.
Qed.
End files.

Section reading.
Context {Wk : Worker} {K : Disk} {DS : DiskSpec}.
Implicit Types (C P : gmap Z (list Z)) (Pn : list Z) (x : inode).

Lemma fsst_clean s C Pn H P W L n : fsst s C Pn H P W L -> n ∉ H.*2 -> P !! n = C !! n \/ n ∈ Pn.
Proof.
  intros F Hn. destruct (decide (n ∈ Pn)) as [|Hp]; [by right|left].
  rewrite <- (fs_platter _ _ _ _ _ _ _ F). by apply (ca_disk _ _ _ _ (fs_cache _ _ _ _ _ _ _ F)).
Qed.

Lemma get_addr_ok s C Pn H P W L ip x i v e : fsst s C Pn H P W L -> w_inodes !! ip = Some x ->
  zlookup (i_addrs x) i = Some v -> get_addr ip i (mkWorld s e) = Ok v (mkWorld s e).
Proof. intros F Hx Hv. unfold get_addr. rewrite (bind_Ok _ _ _ _ _ (get_inode_fs _ _ _ _ _ _ _ ip x e F Hx)), Hv. done. Qed.

(** The block is there: bmap changes nothing. *)
Lemma bmap_present s C Pn P W L ip x bn a e :
  fsst s C Pn [] P W L -> w_inodes !! ip = Some x -> i_dev x = w_dev -> file_addr C x bn = Some a -> (length Pn < NBUF)%nat ->
  exists s', bmap ip bn (mkWorld s e) = Ok a (mkWorld s' e) /\ fsst s' C Pn [] P W L.
Proof using DS.
  intros F Hx Hd Ha Hl. unfold file_addr in Ha. unfold bmap, addr_or_alloc. destruct (Z.ltb_spec bn NDIRECT) as [Hlt|Hge].
  - destruct (zlookup (i_addrs x) bn) as [v|] eqn:Ev; [|done]. cbn [mbind option_bind] in Ha.
    rewrite (bind_Ok _ _ _ _ _ (get_addr_ok _ _ _ _ _ _ _ ip x bn v e F Hx Ev)).
    destruct (v =? 0); [done|]. injection Ha as <-. by exists s.
  - destruct (Z.ltb_spec bn MAXFILE) as [Hm|]; [|done].
    destruct (zlookup (i_addrs x) NDIRECT) as [ind|] eqn:Ev; [|done]. cbn [mbind option_bind] in Ha.
    destruct (Z.ltb_spec (bn - NDIRECT) NINDIRECT) as [_|?]; [|unfold MAXFILE in *; lia].
    rewrite (bind_Ok _ _ _ ind (mkWorld s e)).
    2: { rewrite (bind_Ok _ _ _ _ _ (get_addr_ok _ _ _ _ _ _ _ ip x NDIRECT ind e F Hx Ev)). by destruct (ind =? 0). }
    destruct (ind =? 0); [done|]. destruct (C !! ind) as [data|] eqn:Ec; [|done]. cbn [mbind option_bind] in Ha.
    rewrite (bind_Ok _ _ _ _ _ (get_inode_fs _ _ _ _ _ _ _ ip x e F Hx)), Hd.
    destruct (bread_spec s C Pn [] P W L ind data e F Ec) as (b & s1 & E1 & F1); [apply not_elem_of_nil|right; cbn; lia|].
    rewrite (bind_Ok _ _ _ _ _ E1), (bind_Ok _ _ _ _ _ (get_data_spec _ _ _ _ _ _ _ b ind data e F1 ltac:(by left) Ec)).
    cbv zeta. destruct (get_u32 _ data =? 0); [done|]. injection Ha as <-. run.
    destruct (brelse_spec s1 C Pn _ [] P W L b ind e F1) as (s2 & E2 & F2); [done|apply (fsst_clean s C Pn [] P W L ind F); apply not_elem_of_nil|].
    rewrite (bind_Ok _ _ _ _ _ E2). by exists s2.
Qed.

(** readi into a kernel buffer. *)
Lemma either_copyout_kernel s C Pn H P W L dst bs e : fsst s C Pn H P W L ->
  either_copyout false dst bs (mkWorld s e) = Ok (0, bs) (mkWorld s e).
Proof.
  intros F. pose proof (fs_calm _ _ _ _ _ _ _ F) as Hc. unfold either_copyout.
  rewrite (bind_Ok _ _ _ _ _ (myproc_ok s e (calm_settled _ _ Hc) ltac:(rewrite (calm_noff _ _ Hc); done))). done.
Qed.

Lemma either_copyin_kernel s C Pn H P W L bs k e : fsst s C Pn H P W L ->
  either_copyin (inr bs) k (mkWorld s e) = Ok (0, take k bs) (mkWorld s e).
Proof.
  intros F. pose proof (fs_calm _ _ _ _ _ _ _ F) as Hc. unfold either_copyin.
  rewrite (bind_Ok _ _ _ _ _ (myproc_ok s e (calm_settled _ _ Hc) ltac:(rewrite (calm_noff _ _ Hc); done))). done.
Qed.

(** Enough turns for [len] bytes from [off] on. *)
Definition turns (fuel : nat) (off : Z) (len : nat) : Prop :=
  (1 <= fuel)%nat /\ (len = 0%nat \/ off `mod` BSIZE + Z.of_nat len <= BSIZE * (Z.of_nat fuel - 1)).

Lemma turns_next fuel off len m : turns (S fuel) off len -> 0 <= off -> (0 < m <= len)%nat ->
  (m = len \/ (off + Z.of_nat m) `mod` BSIZE = 0 /\ off `mod` BSIZE + Z.of_nat m = BSIZE) ->
  turns fuel (off + Z.of_nat m) (len - m).
Proof.
  intros [_ Ht] Ho Hm Hc. assert (0 <= off `mod` BSIZE < BSIZE) as Hb by (by apply Z.mod_pos_bound).
  destruct Ht as [->|Ht]; [lia|]. unfold turns. change BSIZE with 1024 in *. split; [lia|].
  destruct Hc as [->|[-> Hc]]; [left; lia|right; lia].
Qed.

Lemma readi_loop_spec fuel s C Pn P W L ip x dst off n tot bs e :
  fsst s C Pn [] P W L -> w_inodes !! ip = Some x -> i_dev x = w_dev -> (length Pn < NBUF)%nat ->
  (forall bn a data, 0 <= bn -> file_addr C x bn = Some a -> C !! a = Some data -> block_bytes data) ->
  turns fuel off (length bs) -> 0 <= off -> off + Z.of_nat (length bs) < 4294967296 -> 0 <= tot ->
  tot + Z.of_nat (length bs) = n -> n < 2147483648 -> reads_as C x off bs ->
  exists s', readi_loop fuel ip false dst off n tot (mkWorld s e) = Ok (n, bs) (mkWorld s' e) /\ fsst s' C Pn [] P W L.
Proof using DS.
  intros F Hx Hd Hl B. revert s F dst off tot bs. induction fuel as [|fuel IH]; intros s F dst off tot bs Ht Ho Hov Htot En Hn R; [by destruct Ht; lia|].
  cbn [readi_loop]. destruct (Z.ltb_spec tot n) as [Hlt|Hge]; cbn [negb].
  2: { exists s. destruct bs; [|cbn in En; lia]. cbn in En. rewrite Z.add_0_r in En. by subst. }
  destruct (chunk_ok n tot off (length bs) Htot En Hn ltac:(lia) Ho) as (m & Em & Hm & Hmb & Hmc).
  rewrite <- (take_drop m bs) in R. apply reads_as_app in R as [R1 R2].
  rewrite length_take, Nat.min_l in R2 by lia.
  destruct (lookup_lt_is_Some_2 bs 0%nat ltac:(lia)) as [c0 Hc0].
  pose proof (R1 0%nat c0 ltac:(by rewrite lookup_take_lt by lia)) as Hfb. unfold file_byte in Hfb.
  cbn in Hfb. rewrite Z.add_0_r in Hfb.
  destruct (file_addr C x (off / BSIZE)) as [a|] eqn:Ea; [|done]. cbn in Hfb. destruct (C !! a) as [data|] eqn:Ec; [|done].
  destruct (bmap_present s C Pn P W L ip x _ a e F Hx Hd Ea Hl) as (s1 & E1 & F1). rewrite (bind_Ok _ _ _ _ _ E1).
  assert ((a =? 0) = false) as -> by (by apply (file_addr_pos C x (off / BSIZE))).
  rewrite (bind_Ok _ _ _ _ _ (get_inode_fs _ _ _ _ _ _ _ ip x e F1 Hx)), Hd.
  destruct (bread_spec s1 C Pn [] P W L a data e F1 Ec) as (b & s2 & E2 & F2); [apply not_elem_of_nil|right; cbn; lia|].
  rewrite (bind_Ok _ _ _ _ _ E2). cbv zeta. rewrite Em, Nat2Z.id.
  rewrite (bind_Ok _ _ _ _ _ (get_data_spec _ _ _ _ _ _ _ b a data e F2 ltac:(by left) Ec)).
  assert (read_at (Z.to_nat (off `mod` BSIZE)) m data = take m bs) as Er.
  { rewrite <- (read_block C x off (take m bs) a data Ho) by first [done|rewrite length_take; lia|apply (B (off / BSIZE) a); [by apply Z.div_pos|done|done]].
    rewrite length_take. f_equal. lia. }
  rewrite Er, (bind_Ok _ _ _ _ _ (either_copyout_kernel _ _ _ _ _ _ _ dst _ e F2)). cbn [Z.eqb].
  destruct (brelse_spec s2 C Pn _ [] P W L b a e F2) as (s3 & E3 & F3); [done|apply (fsst_clean s C Pn [] P W L a F); apply not_elem_of_nil|].
  rewrite (bind_Ok _ _ _ _ _ E3). rewrite (u32_small (off + _)), (u32_small (tot + _)) by lia.
  destruct (IH s3 F3 (u64 (dst + Z.of_nat m)) (off + Z.of_nat m) (tot + Z.of_nat m) (drop m bs)) as (s4 & E4 & F4).
  - rewrite length_drop. by apply turns_next.
  - lia.
  - rewrite length_drop. lia.
  - lia.
  - rewrite length_drop. lia.
  - done.
  - done.
  - rewrite (bind_Ok _ _ _ _ _ E4). run. rewrite take_drop. by exists s4.
Qed.

(** readi gives the bytes that are there, up to the end of the file. *)
Lemma readi_spec s C Pn P W L ip x dst off n bs e :
  fsst s C Pn [] P W L -> w_inodes !! ip = Some x -> i_dev x = w_dev -> (length Pn < NBUF)%nat ->
  (forall bn a data, 0 <= bn -> file_addr C x bn = Some a -> C !! a = Some data -> block_bytes data) ->
  0 <= off <= i_size x -> i_size x < 2147483648 -> 0 <= n -> off + n < 4294967296 ->
  Z.of_nat (length bs) = Z.min n (i_size x - off) -> reads_as C x off bs ->
  exists s', readi ip false dst off n (mkWorld s e) = Ok (Z.of_nat (length bs), bs) (mkWorld s' e) /\ fsst s' C Pn [] P W L.
Proof using DS.
  intros F Hx Hd Hl B Ho Hs Hn Hov Hb R. unfold readi. rewrite (bind_Ok _ _ _ _ _ (get_inode_fs _ _ _ _ _ _ _ ip x e F Hx)).
  rewrite (u32_small (off + n)) by lia. destruct (Z.ltb_spec (i_size x) off); [lia|]. destruct (Z.ltb_spec (off + n) off); [lia|].
  cbn [orb]. cbv zeta. assert ((if i_size x <? off + n then u32 (i_size x - off) else n) = Z.of_nat (length bs)) as ->.
  { destruct (Z.ltb_spec (i_size x) (off + n)); [rewrite u32_small by lia|]; lia. }
  destruct (readi_loop_spec (blocks_fuel (Z.of_nat (length bs))) s C Pn P W L ip x dst off (Z.of_nat (length bs)) 0 bs e F Hx Hd Hl B) as (s1 & E1 & F1);
    [|lia|lia|lia|reflexivity|lia|done|].
  { split; [unfold blocks_fuel; lia|]. right. unfold blocks_fuel.
    assert (0 <= off `mod` BSIZE < BSIZE) as Hm by (by apply Z.mod_pos_bound).
    change BSIZE with 1024 in *. Z.to_euclidean_division_equations. lia. }
  rewrite (bind_Ok _ _ _ _ _ E1). run. rewrite s32_small by lia. by exists s1.
Qed.
End reading.

(** ** Writing a file *)

Section written.
Context {Wk : Worker} (st : Z).
Implicit Types (C : gmap Z (list Z)) (x : inode).

(** From [C] and [x] to [C'] and [x'] by writing [bs] at [off]: the bytes are
    there, the other bytes of the file and the blocks of others stay. *)
Record written C x C' x' (off : Z) (bs : list Z) : Prop := {
  wr_disk : disk_ok w_sb st C';
  wr_file : file_ok st C' x';
  wr_inode : x' = set_i_addrs (i_addrs x') x;
  wr_bytes : reads_as C' x' off bs;
  wr_old i c : 0 <= i -> ~ off <= i < off + Z.of_nat (length bs) -> file_byte C x i = Some c -> file_byte C' x' i = Some c;
  wr_owned m : owned st C m -> owned st C' m;
  wr_keep m : owned st C m -> ind_of x <> Some m -> (forall bn, 0 <= bn -> file_addr C x bn <> Some m) ->
    C' !! m = C !! m /\ ind_of x' <> Some m /\ forall bn, 0 <= bn -> file_addr C' x' bn <> Some m
}.

Lemma written_grown C x C' x' off : file_ok st C x -> file_grown st C x C' x' -> written C x C' x' off [].
Proof.
  intros F G. pose proof G as [G1 G2 G3 G4 G4' G5 G6]. split; try done.
  - intros i c Hi _. by apply (file_grown_byte st).
  - intros m Hm Hi Hf. destruct (G6 m Hm Hi) as [E Hi']. split; [done|]. split; [done|].
    intros bn Hb Ha. by apply (Hf bn Hb), G4'.
Qed.

Lemma written_trans C1 x1 C2 x2 C3 x3 off bs1 bs2 : 0 <= off -> written C1 x1 C2 x2 off bs1 ->
  written C2 x2 C3 x3 (off + Z.of_nat (length bs1)) bs2 -> written C1 x1 C3 x3 off (bs1 ++ bs2).
Proof.
  intros Ho [A1 A2 A3 A4 A5 A6 A7] [B1 B2 B3 B4 B5 B6 B7]. split; [done|done| | | | |].
  - rewrite B3, A3. done.
  - apply reads_as_app. split; [|done]. intros i c Hi. apply B5; [lia| |by apply A4].
    apply lookup_lt_Some in Hi. lia.
  - intros i c Hi. rewrite length_app. intros Hn E. apply B5; [done|lia|]. apply A5; [done|lia|done].
  - intros m Hm. by apply B6, A6.
  - intros m Hm Hi Hf. destruct (A7 m Hm Hi Hf) as (E1 & Hi1 & Hf1). destruct (B7 m (A6 m Hm) Hi1 Hf1) as (E2 & Hi2 & Hf2).
    by rewrite E2.
Qed.

Lemma written_after C x C1 x1 C2 x2 off bs : 0 <= off -> file_ok st C x -> file_grown st C x C1 x1 ->
  written C1 x1 C2 x2 off bs -> written C x C2 x2 off bs.
Proof.
  intros Ho F G Wr. apply (written_trans C x C1 x1 C2 x2 off [] bs); [done|by apply written_grown|].
  cbn [length Z.of_nat]. by rewrite Z.add_0_r.
Qed.

Lemma file_addr_insert C x a d bn : ind_of x <> Some a -> file_addr (<[a := d]> C) x bn = file_addr C x bn.
Proof.
  intros Hi. unfold file_addr. destruct (bn <? NDIRECT); [done|]. destruct (bn <? MAXFILE); [|done].
  change (zlookup (i_addrs x) NDIRECT) with (ind_of x). destruct (ind_of x) as [ind|]; [|done].
  cbn [mbind option_bind]. rewrite lookup_insert_ne; [done|congruence].
Qed.

(** A block in use, other than the block of addresses of the file, changes. *)
Lemma file_ok_insert C x a d : disk_ok w_sb st C -> file_ok st C x -> owned st C a -> ind_of x <> Some a -> block_bytes d ->
  disk_ok w_sb st (<[a := d]> C) /\ file_ok st (<[a := d]> C) x /\ forall m, owned st C m -> owned st (<[a := d]> C) m.
Proof.
  intros D F Oa Hi B. pose proof (ow_map _ _ _ Oa) as Hmap.
  assert (forall m, owned st C m -> owned st (<[a := d]> C) m) as Hown by (intros m; by apply owned_insert).
  pose proof F as [F1 F2 F3 F4 F5 [F6 F6'] F7 F8].
  split; [by apply disk_ok_insert|]. split; [|done]. split; [done|done| | | | | |done].
  - intros ind Ei H0. by apply Hown, F3.
  - intros bn b Hb. rewrite file_addr_insert by done. intros E. destruct (F4 bn b Hb E). split; [by apply Hown|done].
  - intros bn bn' b Hb Hb'. rewrite !file_addr_insert by done. by apply F5.
  - split; [by apply Hown|done].
  - intros bn Hb. rewrite file_addr_insert by done. by apply F7.
Qed.

(** Part of one block. *)
Lemma written_block C x off bs a data : disk_ok w_sb st C -> file_ok st C x -> 0 <= off ->
  Z.of_nat (length bs) <= BSIZE - off `mod` BSIZE -> file_addr C x (off / BSIZE) = Some a -> C !! a = Some data ->
  written C x (<[a := write_at (Z.to_nat (off `mod` BSIZE)) bs data]> C) x off bs.
Proof.
  intros D F Ho Hl Ha Hd. assert (0 <= off `mod` BSIZE < BSIZE) as Hm by (by apply Z.mod_pos_bound).
  assert (0 <= off / BSIZE) as Hq by (by apply Z.div_pos).
  destruct (fo_data _ _ _ F _ a Hq Ha) as [Oa Hi]. pose proof (ow_range _ _ _ Oa) as Hrange.
  destruct (dk_block _ _ _ D a ltac:(lia)) as (data' & Hd' & B). rewrite Hd in Hd'. injection Hd' as <-.
  assert (Z.to_nat (off `mod` BSIZE) + length bs <= length data)%nat as Hfit by (rewrite B; change BSIZE with 1024 in *; lia).
  set (C' := <[a := _]> C).
  assert (forall bn, file_addr C' x bn = file_addr C x bn) as Hfa by (intros bn; by apply file_addr_insert).
  destruct (file_ok_insert C x a (write_at (Z.to_nat (off `mod` BSIZE)) bs data) D F Oa Hi) as (D' & F' & Hown);
    [unfold block_bytes; by rewrite length_write_at|].
  split; [done|done|by destruct x| | |done|].
  - intros i c Hi'. pose proof (lookup_lt_Some _ _ _ Hi') as Hlt. unfold file_byte.
    destruct (same_block off (Z.of_nat i) Ho ltac:(lia)) as [-> ->]. rewrite Hfa, Ha. cbn [mbind option_bind].
    unfold C'. rewrite lookup_insert_eq. cbn [mbind option_bind].
    rewrite <- Hi'. rewrite Z2Nat.inj_add, Nat2Z.id by lia.
    rewrite lookup_write_at_in by lia. f_equal. lia.
  - intros i c Hi' Hout. unfold file_byte. rewrite Hfa. destruct (file_addr C x (i / BSIZE)) as [b|] eqn:Eb; [|done].
    cbn [mbind option_bind]. unfold C'. destruct (decide (b = a)) as [->|Hne]; [|by rewrite lookup_insert_ne].
    rewrite lookup_insert_eq, Hd. cbn [mbind option_bind].
    assert (i / BSIZE = off / BSIZE) as Eq by (apply (fo_inj _ _ _ F _ _ a); [by apply Z.div_pos|done|done|done]).
    assert (0 <= i `mod` BSIZE) as Hmi by (by apply Z.mod_pos_bound).
    rewrite lookup_write_at_out; [done|done|]. pose proof (other_block off (Z.of_nat (length bs)) i Ho ltac:(lia) Hl Hout Eq). lia.
  - intros m _ Hi' Hf. split; [|split; [done|intros bn Hb; rewrite Hfa; by apply Hf]].
    apply lookup_insert_ne. intros ->. by apply (Hf _ Hq).
Qed.

(** What writei leaves: the bytes and the size, the inode on the disk, and all
    else as before. *)
Record stored C x C' x' (off : Z) (bs : list Z) : Prop := {
  so_disk : disk_ok w_sb st C';
  so_file : file_ok st C' x';
  so_fields : x' = set_i_size (Z.max (i_size x) (off + Z.of_nat (length bs))) (set_i_addrs (i_addrs x') x);
  so_bytes : reads_as C' x' off bs;
  so_old i c : 0 <= i -> ~ off <= i < off + Z.of_nat (length bs) -> file_byte C x i = Some c -> file_byte C' x' i = Some c;
  so_inode data : C !! IBLOCK (i_inum x) w_sb = Some data ->
    exists data', C' !! IBLOCK (i_inum x) w_sb = Some data' /\ dinode_at data' (i_inum x) = to_dinode x' /\
      forall i, i `mod` IPB <> i_inum x `mod` IPB -> dinode_at data' i = dinode_at data i;
  so_others m : owned st C m -> ind_of x <> Some m -> (forall bn, 0 <= bn -> file_addr C x bn <> Some m) ->
    m <> IBLOCK (i_inum x) w_sb -> C' !! m = C !! m
}.

Lemma file_ok_size C x z : file_ok st C x -> 0 <= z < 4294967296 -> file_ok st C (set_i_size z x).
Proof. intros [F1 F2 F3 F4 F5 F6 F7 [D1 D2 D3 D4 D5 D6 D7]] Hz. by split. Qed.

Lemma written_stored C x C' x' off bs data : disk_ok w_sb st C -> file_ok st C x -> 0 <= off ->
  off + Z.of_nat (length bs) < 4294967296 -> written C x C' x' off bs ->
  C' !! IBLOCK (i_inum x) w_sb = Some data ->
  let x2 := set_i_size (Z.max (i_size x) (off + Z.of_nat (length bs))) x' in
  stored C x (<[IBLOCK (i_inum x) w_sb := put_dinode (i_inum x) (to_dinode x2) data]> C') x2 off bs.
Proof.
  intros D F Ho Hov [A1 A2 A3 A4 A5 A6 A7] Hd x2. set (n := IBLOCK _ _) in *.
  destruct (A7 n (proj1 (fo_inode _ _ _ F)) (proj2 (fo_inode _ _ _ F)) (fo_apart _ _ _ F)) as (En & Hi & Hf).
  assert (file_ok st C' x2) as F2.
  { apply file_ok_size; [done|]. pose proof (dt_size _ (fo_typed _ _ _ F)). cbn in *. lia. }
  pose proof (proj1 (fo_inode _ _ _ F)) as On. pose proof (ow_range _ _ _ On) as Hr. fold n in Hr.
  destruct (dk_block _ _ _ A1 n ltac:(lia)) as (data' & Hd' & B). rewrite Hd in Hd'. injection Hd' as <-.
  destruct (put_dinode_spec (i_inum x) (to_dinode x2) data (fo_typed _ _ _ F2) B) as (P1 & P2 & P3).
  destruct (file_ok_insert C' x2 n (put_dinode (i_inum x) (to_dinode x2) data) A1 F2) as (D3 & F3 & _);
    [by apply A6|done|done|].
  assert (forall i, 0 <= i -> file_byte (<[n := put_dinode (i_inum x) (to_dinode x2) data]> C') x2 i = file_byte C' x' i) as Hfb.
  { intros i Hi'. unfold file_byte. rewrite file_addr_insert by done. change (file_addr C' x2) with (file_addr C' x').
    destruct (file_addr C' x' (i / BSIZE)) as [a|] eqn:Ea; [|done]. cbn [mbind option_bind].
    rewrite lookup_insert_ne; [done|]. intros <-. apply (Hf (i / BSIZE)); [by apply Z.div_pos|done]. }
  split; [done|done| | | | |].
  - unfold x2. rewrite A3. done.
  - intros i c Hc. rewrite Hfb by lia. by apply A4.
  - intros i c Hi' Hout E. rewrite Hfb by done. by apply A5.
  - intros data0 Hd0. change (C !! n = Some data0) in Hd0. rewrite <- En, Hd in Hd0. injection Hd0 as <-. eexists. split; [apply lookup_insert_eq|done].
  - intros m Om Hm1 Hm2 Hm3. rewrite lookup_insert_ne by done. by apply (A7 m Om Hm1 Hm2).
Qed.
End written.

(** *** The free blocks *)

Definition free_blocks (S : superblock) (C : gmap Z (list Z)) : list Z :=
  filter (fun n => used S C n = false) (seqZ 0 (sb_size S)).

Lemma elem_of_free S C n : n ∈ free_blocks S C <-> used S C n = false /\ 0 <= n < sb_size S.
Proof. unfold free_blocks. rewrite list_elem_of_filter, elem_of_seqZ. naive_solver lia. Qed.

Lemma free_some S C : (1 <= length (free_blocks S C))%nat -> exists n, 0 <= n < sb_size S /\ used S C n = false.
Proof.
  destruct (free_blocks S C) as [|n l] eqn:E; [cbn; lia|]. intros _. exists n.
  assert (n ∈ free_blocks S C) as Hn by (rewrite E; by left). apply elem_of_free in Hn. tauto.
Qed.

Section counting.
Context {Wk : Worker} (st : Z).
Implicit Types (C : gmap Z (list Z)) (Pn : list Z) (x : inode).

Lemma free_handed C n : disk_ok w_sb st C -> 0 <= n < sb_size w_sb -> used w_sb C n = false ->
  (length (free_blocks w_sb C) <= S (length (free_blocks w_sb (handed_out C n))))%nat.
Proof.
  intros D Hn Hu. destruct (handed_out_ok st C n D Hn Hu) as [_ Hused].
  assert (n ∈ free_blocks w_sb C) as Hin by (by apply elem_of_free).
  apply elem_of_Permutation in Hin as [l El]. rewrite El. cbn. apply le_n_S.
  assert (NoDup (n :: l)) as Hnd by (rewrite <- El; apply NoDup_filter, NoDup_seqZ). apply NoDup_cons in Hnd as [Hnl Hnd].
  apply submseteq_length, NoDup_submseteq; [done|]. intros m Hm.
  assert (m ∈ free_blocks w_sb C) as Hf by (rewrite El; by right). apply elem_of_free in Hf as [Hf Hr].
  apply elem_of_free. rewrite Hused by done. destruct (Z.eqb_spec m n) as [->|]; done.
Qed.

Lemma free_insert C a d : (forall i, 0 <= i < sb_size w_sb -> BBLOCK i w_sb <> a) ->
  free_blocks w_sb (<[a := d]> C) = free_blocks w_sb C.
Proof.
  intros Ha. unfold free_blocks. assert (Forall (fun n => 0 <= n < sb_size w_sb) (seqZ 0 (sb_size w_sb))) as Hf.
  { apply Forall_seqZ. intros; lia. }
  induction Hf as [|n l Hn Hf IH]; [done|]. rewrite !filter_cons, IH. by rewrite used_insert.
Qed.

(** The file has no block of addresses yet. *)
Definition need_ind x : nat := match ind_of x with Some ind => if ind =? 0 then 1 else 0 | None => 0 end.

(** What the log may yet have to hold besides the data of the file: the block
    of the bitmap and the block of addresses. *)
Definition pending Pn x : nat :=
  spent Pn (BBLOCK 0 w_sb) +
  match ind_of x with Some ind => if ind =? 0 then 1 else spent Pn ind | None => 0 end.

Lemma one_bitmap n : sb_size w_sb <= BPB -> 0 <= n < sb_size w_sb -> BBLOCK n w_sb = BBLOCK 0 w_sb.
Proof. intros Hs Hn. unfold BBLOCK. by rewrite !Z.div_small by (change BPB with 8192 in *; lia). Qed.

Lemma pending_mono Pn Pn' x : Pn ⊆ Pn' -> (pending Pn' x <= pending Pn x)%nat.
Proof.
  intros Hs. unfold pending. pose proof (spent_le Pn Pn' (BBLOCK 0 w_sb) Hs).
  destruct (ind_of x) as [ind|]; [|lia]. destruct (ind =? 0); [lia|]. pose proof (spent_le Pn Pn' ind Hs). lia.
Qed.

Lemma pin_handed_sub Pn n : Pn ⊆ pin_handed Pn n.
Proof. unfold pin_handed. etrans; apply pin_sub. Qed.
End counting.

(** *** bmap in a transaction *)

(** The transaction does not depend on the table of inodes. *)
Lemma log_room_inodes {Wk : Worker} it it' L bl k :
  log_room (Wk := with_inodes it Wk) L bl k -> log_room (Wk := with_inodes it' Wk) L bl k.
Proof. intros [[A1 A2 A3 A4 A5 A6 A7 A8] B1 B2 B3]. split; [split|..]; done. Qed.

Section writing.
Context {Wk : Worker} {K : Disk} {DS : DiskSpec} (st : Z).
Implicit Types (it : list inode) (C P : gmap Z (list Z)) (Pn : list Z) (H : list (nat * Z)) (x : inode).

(** A transaction of this process while the table of inodes is [it]. *)
Definition ftrans it (s : kstate) C Pn H P W (k : nat) : Prop := trans (Wk := with_inodes it Wk) s C Pn H P W st k.

Lemma ftrans_get it s C Pn H P W k ip x e : ftrans it s C Pn H P W k -> it !! ip = Some x ->
  get_inode ip (mkWorld s e) = Ok x (mkWorld s e).
Proof. intros (L & bl & F & _) Hx. exact (get_inode_fs (Wk := with_inodes it Wk) _ _ _ _ _ _ _ ip x e F Hx). Qed.

Lemma ftrans_addr it s C Pn H P W k ip x i v e : ftrans it s C Pn H P W k -> it !! ip = Some x ->
  zlookup (i_addrs x) i = Some v -> get_addr ip i (mkWorld s e) = Ok v (mkWorld s e).
Proof. intros (L & bl & F & _) Hx Hv. exact (get_addr_ok (Wk := with_inodes it Wk) _ _ _ _ _ _ _ ip x i v e F Hx Hv). Qed.

Lemma ftrans_upd it s C Pn H P W k ip x f e : ftrans it s C Pn H P W k -> it !! ip = Some x ->
  exists s', upd_inode ip f (mkWorld s e) = Ok tt (mkWorld s' e) /\ ftrans (<[ip := f x]> it) s' C Pn H P W k.
Proof.
  intros (L & bl & F & R & E) Hx. eexists. split.
  - apply upd_inode_ok with x. by rewrite (proj1 (fs_frame _ _ _ _ _ _ _ F)).
  - exists L, bl. split; [|split; [by apply (log_room_inodes it)|done]].
    pose proof (fsst_inode (Wk := with_inodes it Wk) s C Pn H P W L ip f F) as F'.
    assert (alter f ip it = <[ip := f x]> it) as Ea; [|change (w_inodes (Worker := with_inodes it Wk)) with it in F'; rewrite Ea in F'; exact F'].
    apply list_eq. intros i. destruct (decide (i = ip)) as [->|Hne].
    + rewrite list_lookup_alter_eq, Hx, list_lookup_insert_eq by (by eapply lookup_lt_Some). done.
    + by rewrite list_lookup_alter_ne, list_lookup_insert_ne.
Qed.

Lemma set_addr_spec it s C Pn H P W k ip x i v v' e : ftrans it s C Pn H P W k -> it !! ip = Some x ->
  zlookup (i_addrs x) i = Some v ->
  exists s', set_addr ip i v' (mkWorld s e) = Ok tt (mkWorld s' e) /\
    ftrans (<[ip := set_i_addrs (<[Z.to_nat i := v']> (i_addrs x)) x]> it) s' C Pn H P W k.
Proof.
  intros T Hx Hv. unfold set_addr. rewrite (bind_Ok _ _ _ _ _ (ftrans_addr _ _ _ _ _ _ _ _ ip x i v e T Hx Hv)).
  exact (ftrans_upd it s C Pn H P W k ip x _ e T Hx).
Qed.

(** balloc on the device of the file *)
Lemma ftrans_balloc it s C Pn H P W k e : ftrans it s C Pn H P W k -> disk_ok w_sb st C -> apart C H -> map_room Pn k ->
  (length H <= 1)%nat -> u32 w_dev = w_dev -> (1 <= length (free_blocks w_sb C))%nat ->
  exists n s', balloc w_dev (mkWorld s e) = Ok n (mkWorld s' e) /\ 0 < n < sb_size w_sb /\ used w_sb C n = false /\
    ftrans it s' (handed_out C n) (pin_handed Pn n) H P W (k - spent_handed Pn n).
Proof using DS.
  intros T D Ha Hr Hl Hd Hf.
  exact (balloc_spec (Wk := with_inodes it Wk) s C Pn H P W st k e T D Ha Hr Hl Hd (free_some _ _ Hf)).
Qed.

(** An empty slot of the addresses gets a block. *)
Lemma alloc_slot it s C Pn P W k ip x i e : ftrans it s C Pn [] P W k -> it !! ip = Some x -> i_dev x = w_dev ->
  disk_ok w_sb st C -> zlookup (i_addrs x) i = Some 0 -> map_room Pn k -> u32 w_dev = w_dev ->
  (1 <= length (free_blocks w_sb C))%nat ->
  exists n s', addr_or_alloc ip i (mkWorld s e) = Ok n (mkWorld s' e) /\ 0 < n < sb_size w_sb /\ used w_sb C n = false /\
    ftrans (<[ip := set_i_addrs (<[Z.to_nat i := n]> (i_addrs x)) x]> it) s' (handed_out C n) (pin_handed Pn n) [] P W
      (k - spent_handed Pn n).
Proof using DS.
  intros T Hx Hd D Hz Hr Hu Hf. unfold addr_or_alloc.
  rewrite (bind_Ok _ _ _ _ _ (ftrans_addr _ _ _ _ _ _ _ _ ip x i 0 e T Hx Hz)). cbn [Z.eqb].
  rewrite (bind_Ok _ _ _ _ _ (ftrans_get _ _ _ _ _ _ _ _ ip x e T Hx)), Hd.
  destruct (ftrans_balloc it s C Pn [] P W k e T D) as (n & s1 & E1 & Hn & Hfree & T1); [|done|cbn; lia|done|done|].
  { intros m Hm. by apply elem_of_nil in Hm. }
  rewrite (bind_Ok _ _ _ _ _ E1). destruct (Z.eqb_spec n 0); [lia|].
  destruct (set_addr_spec it s1 _ _ _ _ _ _ ip x i 0 n e T1 Hx Hz) as (s2 & E2 & T2). rewrite (bind_Ok _ _ _ _ _ E2).
  by exists n, s2.
Qed.

(** What bmap does for the block [bn] of the file: the block is there, and the
    room in the log and the free blocks that are left. *)
Record mapped C x Pn (k : nat) C' x' Pn' (k' : nat) (bn a : Z) : Prop := {
  mp_grown : file_grown st C x C' x';
  mp_addr : file_addr C' x' bn = Some a;
  mp_pins : Pn ⊆ Pn';
  mp_room : (k + pending Pn' x' + spent Pn' a <= k' + 1 + pending Pn x)%nat;
  mp_free : (length (free_blocks w_sb C) + need_ind x' <= length (free_blocks w_sb C') + 1 + need_ind x)%nat
}.

Context (Hdev : u32 w_dev = w_dev) (Hmap : sb_size w_sb <= BPB).

Lemma pending_map_room Pn x k : (1 + pending Pn x <= k)%nat -> map_room Pn k.
Proof using Hmap. intros Hk n Hn. rewrite one_bitmap by done. unfold pending in Hk. lia. Qed.

Lemma spent_handed_le Pn n : 0 <= n < sb_size w_sb -> (spent_handed Pn n <= spent Pn (BBLOCK 0 w_sb) + 1)%nat.
Proof using Hmap.
  intros Hn. unfold spent_handed. rewrite one_bitmap by done.
  pose proof (spent_le (pin Pn (BBLOCK 0 w_sb)) _ n ltac:(done)). lia.
Qed.

Lemma handed_pinned Pn n : 0 <= n < sb_size w_sb ->
  spent (pin_handed Pn n) (BBLOCK 0 w_sb) = 0%nat /\ spent (pin_handed Pn n) n = 0%nat.
Proof using Hmap.
  intros Hn. unfold pin_handed. rewrite one_bitmap by done. split; apply spent_pin; [right|by left].
  apply elem_of_pin. by left.
Qed.

Lemma bmap_direct it s C Pn P W k ip x bn e : ftrans it s C Pn [] P W k -> it !! ip = Some x -> disk_ok w_sb st C ->
  file_ok st C x -> 0 <= bn < NDIRECT -> file_addr C x bn = None ->
  (2 + pending Pn x <= k)%nat -> (1 + need_ind x <= length (free_blocks w_sb C))%nat ->
  exists a s' C' x' Pn' k', bmap ip bn (mkWorld s e) = Ok a (mkWorld s' e) /\
    ftrans (<[ip := x']> it) s' C' Pn' [] P W k' /\ mapped C x Pn k C' x' Pn' k' bn a.
Proof using DS Hdev Hmap.
  intros T Hx D F Hbn Hnone Hk Hf. assert (zlookup (i_addrs x) bn = Some 0) as Hz.
  { unfold file_addr in Hnone. destruct (Z.ltb_spec bn NDIRECT); [|lia].
    destruct (lookup_lt_is_Some_2 (i_addrs x) (Z.to_nat bn)) as [v Hv]; [rewrite (fo_len _ _ _ F); lia|].
    assert (zlookup (i_addrs x) bn = Some v) as Ez by (unfold zlookup; destruct (Z.leb_spec 0 bn); [done|lia]).
    rewrite Ez in Hnone |- *. cbn [mbind option_bind] in Hnone. destruct (v =? 0) eqn:E0; [|done]. apply Z.eqb_eq in E0. by subst. }
  destruct (alloc_slot it s C Pn P W k ip x bn e T Hx (fo_dev _ _ _ F) D Hz) as (n & s1 & E1 & Hn & Hu & T1);
    [apply (pending_map_room Pn x); lia|done|lia|].
  unfold bmap. destruct (Z.ltb_spec bn NDIRECT); [|lia].
  destruct (file_grown_direct st C x bn n D F Hu Hn Hbn Hnone) as [G Ea].
  do 6 eexists. split; [exact E1|]. split; [exact T1|]. destruct (handed_pinned Pn n ltac:(lia)) as [S1 S2].
  pose proof (spent_handed_le Pn n ltac:(lia)) as Hs. pose proof (free_handed st C n D ltac:(lia) Hu) as Hfr.
  set (x' := set_i_addrs _ x) in *.
  assert (ind_of x' = ind_of x) as Ei.
  { unfold ind_of, x', zlookup. cbn [i_addrs set_i_addrs]. destruct (0 <=? NDIRECT); [|done]. apply list_lookup_insert_ne. unfold NDIRECT in *. lia. }
  split; [done|done|apply pin_handed_sub| |].
  - unfold pending in *. rewrite Ei, S1, S2. destruct (ind_of x) as [ind|]; [|lia]. destruct (ind =? 0); [lia|].
    pose proof (spent_le Pn _ ind (pin_handed_sub Pn n)). lia.
  - unfold need_ind. rewrite Ei. lia.
Qed.

(** The block of addresses, allocated if need be. *)
Lemma ind_ready it s C Pn P W k ip x e : ftrans it s C Pn [] P W k -> it !! ip = Some x -> disk_ok w_sb st C ->
  file_ok st C x -> (2 + pending Pn x <= k)%nat -> (1 + need_ind x <= length (free_blocks w_sb C))%nat ->
  exists ind s' C' x' Pn' k', addr_or_alloc ip NDIRECT (mkWorld s e) = Ok ind (mkWorld s' e) /\ ind <> 0 /\
    ftrans (<[ip := x']> it) s' C' Pn' [] P W k' /\ file_grown st C x C' x' /\ ind_of x' = Some ind /\ Pn ⊆ Pn' /\
    (k + pending Pn' x' <= k' + pending Pn x)%nat /\
    (length (free_blocks w_sb C) + need_ind x' <= length (free_blocks w_sb C') + need_ind x)%nat.
Proof using DS Hdev Hmap.
  intros T Hx D F Hk Hf. destruct (lookup_lt_is_Some_2 (i_addrs x) (Z.to_nat NDIRECT)) as [ind Hv]; [rewrite (fo_len _ _ _ F); unfold NDIRECT; lia|].
  assert (ind_of x = Some ind) as Ei by (unfold ind_of, zlookup; destruct (Z.leb_spec 0 NDIRECT); [done|unfold NDIRECT in *; lia]).
  destruct (decide (ind = 0)) as [->|Hne].
  - destruct (alloc_slot it s C Pn P W k ip x NDIRECT e T Hx (fo_dev _ _ _ F) D Ei) as (n & s1 & E1 & Hn & Hu & T1);
      [apply (pending_map_room Pn x); lia|done|lia|].
    pose proof (file_grown_slot st C x n D F Hu Hn Ei) as G. set (x' := set_i_addrs _ x) in *.
    assert (ind_of x' = Some n) as Ei'.
    { unfold ind_of, x', zlookup. cbn [i_addrs set_i_addrs]. destruct (Z.leb_spec 0 NDIRECT); [|unfold NDIRECT in *; lia].
      apply list_lookup_insert_eq. rewrite (fo_len _ _ _ F). unfold NDIRECT. lia. }
    do 6 eexists. split; [exact E1|]. split; [lia|]. split; [exact T1|]. split; [done|]. split; [done|].
    destruct (handed_pinned Pn n ltac:(lia)) as [S1 S2]. pose proof (spent_handed_le Pn n ltac:(lia)) as Hs.
    pose proof (free_handed st C n D ltac:(lia) Hu) as Hfr. split; [apply pin_handed_sub|].
    unfold pending, need_ind in *. rewrite Ei, Ei' in *. cbn [Z.eqb] in *. destruct (Z.eqb_spec n 0); [lia|]. split; lia.
  - exists ind, s, C, x, Pn, k. unfold addr_or_alloc.
    rewrite (bind_Ok _ _ _ _ _ (ftrans_addr _ _ _ _ _ _ _ _ ip x NDIRECT ind e T Hx Ei)).
    destruct (Z.eqb_spec ind 0); [done|]. split; [done|]. split; [done|]. split; [by rewrite list_insert_id|].
    split; [by apply file_grown_refl|]. split; [done|]. split; [done|]. lia.
Qed.

(** The entry of the block of addresses, allocated if need be. *)
Lemma ind_entry it s C Pn P W k ip x ind bn e : ftrans it s C Pn [] P W k -> it !! ip = Some x -> disk_ok w_sb st C ->
  file_ok st C x -> NDIRECT <= bn < MAXFILE -> ind_of x = Some ind -> ind <> 0 ->
  (2 + pending Pn x <= k)%nat -> (1 <= length (free_blocks w_sb C))%nat ->
  exists a s' C' Pn' k', (
    x ← get_inode ip;
    bp ← bread (i_dev x) ind;
    data ← get_data bp;
    let a := get_u32 (4 * Z.to_nat (bn - NDIRECT)) data in
    addr ← (if a =? 0 then
              x ← get_inode ip;
              addr ← balloc (i_dev x);
              when (negb (addr =? 0)) (
                upd_data bp (write_at (4 * Z.to_nat (bn - NDIRECT)) (le_split 4 addr));;
                log_write bp);;
              mret addr
            else mret a);
    brelse bp;;
    mret addr) (mkWorld s e) = Ok a (mkWorld s' e) /\
    ftrans it s' C' Pn' [] P W k' /\ mapped C x Pn k C' x Pn' k' bn a.
Proof using DS Hdev Hmap.
  intros T Hx D F Hbn Ei Hne Hk Hf. pose proof (fo_ind _ _ _ F ind Ei Hne) as Oi.
  pose proof (dk_size _ _ _ D) as Hsz. pose proof (ow_range _ _ _ Oi) as Hri.
  destruct (dk_block _ _ _ D ind ltac:(lia)) as (data & Hd & B).
  rewrite (bind_Ok _ _ _ _ _ (ftrans_get _ _ _ _ _ _ _ _ ip x e T Hx)), (fo_dev _ _ _ F).
  destruct (trans_bread (Wk := with_inodes it Wk) s C Pn [] P W st k ind data e T Hd) as (b & s1 & E1 & T1);
    [apply not_elem_of_nil|cbn; lia|].
  rewrite (bind_Ok _ _ _ _ _ E1).
  rewrite (bind_Ok _ _ _ _ _ (trans_get_data (Wk := with_inodes it Wk) s1 _ _ _ _ _ _ _ b ind data e T1 ltac:(by left) Hd)).
  cbv zeta. set (off := (4 * Z.to_nat (bn - NDIRECT))%nat). destruct (Z.eqb_spec (get_u32 off data) 0) as [Hz|Hnz].
  - rewrite !bind_assoc, (bind_Ok _ _ _ _ _ (ftrans_get _ _ _ _ _ _ _ _ ip x e T1 Hx)), (fo_dev _ _ _ F).
    assert (apart C [(b, ind)]) as Hap.
    { intros m Hm. cbn in Hm. apply list_elem_of_singleton in Hm as ->. destruct Oi as [O1 O2 O3 O4]. done. }
    destruct (ftrans_balloc it s1 C Pn [(b, ind)] P W k e T1 D Hap) as (n & s2 & E2 & Hn & Hu & T2);
      [apply (pending_map_room Pn x); lia|done|done|lia|].
    rewrite !bind_assoc, (bind_Ok _ _ _ _ _ E2). destruct (Z.eqb_spec n 0); [lia|]. cbn [negb when].
    pose proof (spent_handed_le Pn n ltac:(lia)) as Hs. destruct (handed_pinned Pn n ltac:(lia)) as [S1 S2].
    destruct (owned_handed st C n ind D ltac:(lia) Hu Oi) as (Hni & Oi' & Ed). rewrite Hd in Ed.
    destruct (trans_upd (Wk := with_inodes it Wk) s2 _ _ _ _ _ _ _ b ind data (write_at off (le_split 4 n)) e T2) as (s3 & E3 & T3);
      [by left|done|]. rewrite !bind_assoc, (bind_Ok _ _ _ _ _ E3).
    destruct (trans_log (Wk := with_inodes it Wk) s3 _ _ _ _ _ _ _ b ind e T3) as (s4 & E4 & T4);
      [unfold pending in Hk; lia|by left|lia|apply (ow_home _ _ _ Oi)|].
    rewrite (bind_Ok _ _ _ _ _ E4). run.
    destruct (trans_brelse (Wk := with_inodes it Wk) s4 _ _ _ _ _ _ _ b ind e T4) as (s5 & E5 & T5);
      [right; apply elem_of_pin; by left|]. rewrite (bind_Ok _ _ _ _ _ E5).
    do 5 eexists. split; [done|]. split; [exact T5|].
    destruct (file_grown_entry st C x bn ind data n D F Hu Hn Hbn Ei Hne Hd Hz) as [G Ea].
    assert (Pn ⊆ pin (pin_handed Pn n) ind) as Hsub by (etrans; [apply (pin_handed_sub Pn n)|apply pin_sub]).
    split; [exact G|exact Ea|exact Hsub| |].
    + rewrite (spent_pin _ ind n) by (right; unfold pin_handed; apply elem_of_pin; by left). unfold pending in *. rewrite Ei in *.
      destruct (Z.eqb_spec ind 0); [lia|]. rewrite (spent_pin _ ind ind) by (by left).
      pose proof (spent_le Pn _ ind (pin_handed_sub Pn n)).
      pose proof (spent_le _ _ (BBLOCK 0 w_sb) (pin_sub (pin_handed Pn n) ind)). lia.
    + rewrite free_insert by apply (ow_map _ _ _ Oi). pose proof (free_handed st C n D ltac:(lia) Hu). lia.
  - run. destruct (trans_brelse (Wk := with_inodes it Wk) s1 _ _ _ _ _ _ _ b ind e T1) as (s2 & E2 & T2);
      [apply (trans_clean (Wk := with_inodes it Wk) s C Pn [] P W st k ind T); apply not_elem_of_nil|].
    rewrite (bind_Ok _ _ _ _ _ E2). do 5 eexists. split; [done|]. split; [exact T2|].
    split; [by apply file_grown_refl| |done| |lia].
    + rewrite (file_addr_indirect C x bn ind data) by done. cbv zeta. fold off. by apply Z.eqb_neq in Hnz as ->.
    + pose proof (spent_le Pn Pn (get_u32 off data) ltac:(done)). lia.
Qed.

Lemma bmap_spec it s C Pn P W k ip x bn e : ftrans it s C Pn [] P W k -> it !! ip = Some x -> disk_ok w_sb st C ->
  file_ok st C x -> 0 <= bn < MAXFILE -> (2 + pending Pn x <= k)%nat -> (1 + need_ind x <= length (free_blocks w_sb C))%nat ->
  exists a s' C' x' Pn' k', bmap ip bn (mkWorld s e) = Ok a (mkWorld s' e) /\
    ftrans (<[ip := x']> it) s' C' Pn' [] P W k' /\ mapped C x Pn k C' x' Pn' k' bn a.
Proof using DS Hdev Hmap.
  intros T Hx D F Hbn Hk Hf. destruct (decide (bn < NDIRECT)) as [Hlt|Hge].
  - destruct (file_addr C x bn) as [a|] eqn:Ea; [|apply (bmap_direct it s C Pn P W k ip x bn e); (done || lia)].
    exists a. unfold bmap, addr_or_alloc. destruct (Z.ltb_spec bn NDIRECT); [|lia].
    unfold file_addr in Ea. destruct (Z.ltb_spec bn NDIRECT); [|lia].
    destruct (zlookup (i_addrs x) bn) as [v|] eqn:Ev; [|done]. cbn [mbind option_bind] in Ea.
    destruct (v =? 0) eqn:E0; [done|]. injection Ea as ->. exists s, C, x, Pn, k.
    rewrite (bind_Ok _ _ _ _ _ (ftrans_addr _ _ _ _ _ _ _ _ ip x bn a e T Hx Ev)), E0. split; [done|].
    split; [by rewrite list_insert_id|]. split; [by apply file_grown_refl| |done| |lia].
    + unfold file_addr. destruct (Z.ltb_spec bn NDIRECT); [|lia]. rewrite Ev. cbn [mbind option_bind]. by rewrite E0.
    + pose proof (spent_le Pn Pn a ltac:(done)). lia.
  - destruct (ind_ready it s C Pn P W k ip x e T Hx D F Hk Hf) as (ind & s1 & C1 & x1 & Pn1 & k1 & E1 & Hne & T1 & G1 & Ei & Hsub & Hr & Hfr).
    assert (<[ip := x1]> it !! ip = Some x1) as Hx1 by (apply list_lookup_insert_eq; by eapply lookup_lt_Some).
    destruct (ind_entry _ s1 C1 Pn1 P W k1 ip x1 ind bn e T1 Hx1 (gr_disk _ _ _ _ _ G1) (gr_file _ _ _ _ _ G1)) as
      (a & s2 & C2 & Pn2 & k2 & E2 & T2 & [M1 M2 M3 M4 M5]); [lia|done|done|lia| |].
    { assert (need_ind x1 = 0)%nat as E0 by (unfold need_ind; rewrite Ei; by apply Z.eqb_neq in Hne as ->). lia. }
    unfold bmap. destruct (Z.ltb_spec bn NDIRECT); [lia|]. cbv zeta.
    destruct (Z.ltb_spec (bn - NDIRECT) NINDIRECT); [|unfold MAXFILE in *; lia].
    rewrite (bind_Ok _ _ _ _ _ E1). destruct (Z.eqb_spec ind 0); [done|].
    exists a, s2, C2, x1, Pn2, k2. split; [exact E2|]. split; [exact T2|].
    split; [by eapply file_grown_trans|done|by etrans|lia|lia].
Qed.

(** *** writei *)

(** The blocks of the file that [len] bytes from [off] on touch. *)
Definition touched (off : Z) (len : nat) : nat :=
  if decide (len = 0%nat) then 0 else Z.to_nat ((off `mod` BSIZE + Z.of_nat len + BSIZE - 1) / BSIZE).

Lemma touched_next off len m : 0 <= off -> (0 < m <= len)%nat ->
  (m = len \/ (off + Z.of_nat m) `mod` BSIZE = 0 /\ off `mod` BSIZE + Z.of_nat m = BSIZE) ->
  (1 + touched (off + Z.of_nat m) (len - m) <= touched off len)%nat.
Proof.
  intros Ho Hm Hc. unfold touched. destruct (decide (len = 0%nat)); [lia|].
  assert (0 <= off `mod` BSIZE < BSIZE) as Hb by (by apply Z.mod_pos_bound).
  destruct (decide (len - m = 0)%nat) as [E|Hne].
  - change BSIZE with 1024 in *. generalize dependent (off `mod` 1024). intros o. intros. Z.to_euclidean_division_equations. lia.
  - destruct Hc as [->|[-> Hc]]; [lia|]. change BSIZE with 1024 in *. generalize dependent (off `mod` 1024). intros o. intros.
    Z.to_euclidean_division_equations. lia.
Qed.

Lemma writei_loop_spec fuel it s C Pn P W k ip x off n tot bs e :
  ftrans it s C Pn [] P W k -> it !! ip = Some x -> disk_ok w_sb st C -> file_ok st C x ->
  turns fuel off (length bs) -> 0 <= off -> off + Z.of_nat (length bs) <= MAXFILE * BSIZE -> 0 <= tot ->
  tot + Z.of_nat (length bs) = n -> n < 2147483648 ->
  (1 + touched off (length bs) + pending Pn x <= k)%nat ->
  (touched off (length bs) + need_ind x <= length (free_blocks w_sb C))%nat ->
  exists s' C' x' Pn' k',
    writei_loop fuel ip (inr bs) off n tot (mkWorld s e) = Ok (n, off + Z.of_nat (length bs)) (mkWorld s' e) /\
    ftrans (<[ip := x']> it) s' C' Pn' [] P W k' /\ written st C x C' x' off bs /\
    (k <= k' + touched off (length bs) + pending Pn x)%nat.
Proof using DS Hdev Hmap.
  revert it s C Pn k x off tot bs. induction fuel as [|fuel IH]; intros it s C Pn k x off tot bs T Hx D F Ht Ho Hov Htot En Hn Hk Hf;
    [by destruct Ht; lia|].
  cbn [writei_loop]. destruct (Z.ltb_spec tot n) as [Hlt|Hge]; cbn [negb].
  2: { destruct bs; [|cbn in En; lia]. exists s, C, x, Pn, k. cbn in En |- *. rewrite Z.add_0_r in *. subst tot.
       split; [done|]. split; [by rewrite list_insert_id|]. split; [by apply written_grown, file_grown_refl|lia]. }
  destruct (chunk_ok n tot off (length bs) Htot En Hn ltac:(lia) Ho) as (m & Em & Hm & Hmb & Hmc).
  pose proof (touched_next off (length bs) m Ho Hm Hmc) as Htn. change (MAXFILE * BSIZE) with 274432 in Hov.
  destruct (bmap_spec it s C Pn P W k ip x (off / BSIZE) e T Hx D F) as (a & s1 & C1 & x1 & Pn1 & k1 & E1 & T1 & [M1 M2 M3 M4 M5]);
    [|lia|lia|].
  { change BSIZE with 1024. change MAXFILE with 268. split; [by apply Z.div_pos|]. apply Z.div_lt_upper_bound; lia. }
  pose proof M1 as [G1 G2 G3 _ _ _ _].
  rewrite (bind_Ok _ _ _ _ _ E1), (file_addr_pos C1 x1 _ a M2).
  assert (<[ip := x1]> it !! ip = Some x1) as Hx1 by (apply list_lookup_insert_eq; by eapply lookup_lt_Some).
  rewrite (bind_Ok _ _ _ _ _ (ftrans_get _ _ _ _ _ _ _ _ ip x1 e T1 Hx1)), (fo_dev _ _ _ G2).
  destruct (fo_data _ _ _ G2 (off / BSIZE) a ltac:(by apply Z.div_pos) M2) as [Oa _]. pose proof (ow_range _ _ _ Oa) as Hra.
  pose proof (dk_size _ _ _ D) as Hsz. destruct (dk_block _ _ _ G1 a ltac:(lia)) as (data & Hd & B).
  destruct (trans_bread (Wk := with_inodes _ Wk) s1 C1 Pn1 [] P W st k1 a data e T1 Hd) as (b & s2 & E2 & T2);
    [apply not_elem_of_nil|cbn; lia|].
  rewrite (bind_Ok _ _ _ _ _ E2). cbv zeta. rewrite Em, Nat2Z.id.
  pose proof T2 as (L & bl & F2 & _).
  rewrite (bind_Ok _ _ _ _ _ (either_copyin_kernel (Wk := with_inodes _ Wk) _ _ _ _ _ _ _ bs m e F2)). clear L bl F2.
  destruct (trans_upd (Wk := with_inodes _ Wk) s2 _ _ _ _ _ _ _ b a data (write_at (Z.to_nat (off `mod` BSIZE)) (take m bs)) e T2)
    as (s3 & E3 & T3); [by left|done|].
  rewrite (bind_Ok _ _ _ _ _ E3). cbn [Z.eqb].
  destruct (trans_log (Wk := with_inodes _ Wk) s3 _ _ _ _ _ _ _ b a e T3) as (s4 & E4 & T4);
    [lia|by left|lia|apply (ow_home _ _ _ Oa)|].
  rewrite (bind_Ok _ _ _ _ _ E4).
  destruct (trans_brelse (Wk := with_inodes _ Wk) s4 _ _ _ _ _ _ _ b a e T4) as (s5 & E5 & T5);
    [right; apply elem_of_pin; by left|].
  rewrite (bind_Ok _ _ _ _ _ E5), (u32_small (off + _)), (u32_small (tot + _)) by lia.
  assert (length (take m bs) = m) as Hlt' by (rewrite length_take; lia).
  pose proof (written_block st C1 x1 off (take m bs) a data G1 G2 Ho ltac:(rewrite Hlt'; lia) M2 Hd) as Wb.
  pose proof (written_after st _ _ _ _ _ _ off (take m bs) Ho F M1 Wb) as Wt.
  pose proof (pending_mono Pn1 _ x1 (pin_sub Pn1 a)) as Hpm.
  destruct (IH _ s5 _ _ _ x1 (off + Z.of_nat m) (tot + Z.of_nat m) (drop m bs) T5 Hx1 (wr_disk _ _ _ _ _ _ _ Wb) (wr_file _ _ _ _ _ _ _ Wb))
    as (s6 & C6 & x6 & Pn6 & k6 & E6 & T6 & W6 & Hk6); rewrite ?length_drop.
  - by apply turns_next.
  - lia.
  - change (MAXFILE * BSIZE) with 274432. lia.
  - lia.
  - lia.
  - done.
  - lia.
  - rewrite free_insert by apply (ow_map _ _ _ Oa). lia.
  - rewrite length_drop in *. exists s6, C6, x6, Pn6, k6. split.
    + etrans; [exact E6|]. do 2 f_equal. lia.
    + split; [by rewrite list_insert_insert_eq in T6|]. split; [|lia].
      rewrite <- (take_drop m bs) at 1. eapply written_trans; [done|exact Wt|]. by rewrite Hlt'.
Qed.

Lemma ftrans_iupdate it s C Pn P W k ip x data e : ftrans it s C Pn [] P W k -> it !! ip = Some x -> i_dev x = w_dev ->
  (1 <= k)%nat -> C !! IBLOCK (i_inum x) w_sb = Some data -> 0 <= IBLOCK (i_inum x) w_sb < 2147483648 ->
  outside st (IBLOCK (i_inum x) w_sb) ->
  exists s', iupdate ip (mkWorld s e) = Ok tt (mkWorld s' e) /\
    ftrans it s' (<[IBLOCK (i_inum x) w_sb := put_dinode (i_inum x) (to_dinode x) data]> C) (pin Pn (IBLOCK (i_inum x) w_sb))
      [] P W (k - spent Pn (IBLOCK (i_inum x) w_sb)).
Proof using DS.
  intros T Hx Hd Hk Hc Hr Ho. pose proof T as (L & bl & F & _). unfold iupdate.
  rewrite (bind_Ok _ _ _ _ _ (getd_sb (Wk := with_inodes it Wk) _ _ _ _ _ _ _ e F)). clear L bl F.
  rewrite (bind_Ok _ _ _ _ _ (ftrans_get _ _ _ _ _ _ _ _ ip x e T Hx)), Hd. change (w_sb (Worker := with_inodes it Wk)) with w_sb.
  set (n := IBLOCK _ _) in *.
  destruct (trans_bread (Wk := with_inodes it Wk) s C Pn [] P W st k n data e T Hc) as (b & s1 & E1 & T1);
    [apply not_elem_of_nil|cbn; lia|].
  rewrite (bind_Ok _ _ _ _ _ E1), (bind_Ok _ _ _ _ _ (ftrans_get _ _ _ _ _ _ _ _ ip x e T1 Hx)).
  destruct (trans_upd (Wk := with_inodes it Wk) s1 _ _ _ _ _ _ _ b n data (put_dinode (i_inum x) (to_dinode x)) e T1)
    as (s2 & E2 & T2); [by left|done|]. rewrite (bind_Ok _ _ _ _ _ E2).
  destruct (trans_log (Wk := with_inodes it Wk) s2 _ _ _ _ _ _ _ b n e T2) as (s3 & E3 & T3); [done|by left|done|done|].
  rewrite (bind_Ok _ _ _ _ _ E3).
  destruct (trans_brelse (Wk := with_inodes it Wk) s3 _ _ _ _ _ _ _ b n e T3) as (s4 & E4 & T4);
    [right; apply elem_of_pin; by left|]. by exists s4.
Qed.

Lemma writei_spec it s C Pn P W k ip x off bs e :
  ftrans it s C Pn [] P W k -> it !! ip = Some x -> disk_ok w_sb st C -> file_ok st C x ->
  0 <= off <= i_size x -> i_size x <= MAXFILE * BSIZE -> off + Z.of_nat (length bs) <= MAXFILE * BSIZE ->
  (1 + touched off (length bs) + pending Pn x <= k)%nat ->
  (touched off (length bs) + need_ind x <= length (free_blocks w_sb C))%nat ->
  exists s' C' x' Pn' k',
    writei ip (inr bs) off (Z.of_nat (length bs)) (mkWorld s e) = Ok (Z.of_nat (length bs)) (mkWorld s' e) /\
    ftrans (<[ip := x']> it) s' C' Pn' [] P W k' /\ stored st C x C' x' off bs /\
    (k <= 1 + k' + touched off (length bs) + pending Pn x)%nat.
Proof using DS Hdev Hmap.
  intros T Hx D F Ho Hsz Hov Hk Hf. change (MAXFILE * BSIZE) with 274432 in *. unfold writei. pose proof (Nat2Z.is_nonneg (length bs)) as Hn0.
  set (n := Z.of_nat (length bs)) in *.
  rewrite (bind_Ok _ _ _ _ _ (ftrans_get _ _ _ _ _ _ _ _ ip x e T Hx)), (u32_small (off + n)) by lia.
  destruct (Z.ltb_spec (i_size x) off); [lia|]. destruct (Z.ltb_spec (off + n) off); [lia|]. cbn [orb].
  change (MAXFILE * BSIZE) with 274432. destruct (Z.ltb_spec 274432 (off + n)); [lia|].
  destruct (writei_loop_spec (blocks_fuel n) it s C Pn P W k ip x off n 0 bs e T Hx D F) as
    (s1 & C1 & x1 & Pn1 & k1 & E1 & T1 & W1 & Hk1); [|lia|change (MAXFILE * BSIZE) with 274432; lia|lia|done|lia|done|done|].
  { split; [unfold blocks_fuel; lia|]. right. unfold blocks_fuel.
    assert (0 <= off `mod` BSIZE < BSIZE) as Hm by (by apply Z.mod_pos_bound).
    change BSIZE with 1024 in *. fold n. generalize dependent (off `mod` 1024). intros o ?. Z.to_euclidean_division_equations. lia. }
  rewrite (bind_Ok _ _ _ _ _ E1). fold n. pose proof (wr_inode _ _ _ _ _ _ _ W1) as Ei.
  assert (<[ip := x1]> it !! ip = Some x1) as Hx1 by (apply list_lookup_insert_eq; by eapply lookup_lt_Some).
  rewrite (bind_Ok _ _ _ _ _ (ftrans_get _ _ _ _ _ _ _ _ ip x1 e T1 Hx1)).
  assert (i_size x1 = i_size x /\ i_inum x1 = i_inum x /\ i_dev x1 = i_dev x) as (Es & En & Ed) by (by rewrite Ei).
  set (x2 := set_i_size (Z.max (i_size x) (off + n)) x1).
  assert (exists s2, when (i_size x1 <? off + n) (upd_inode ip (set_i_size (off + n))) (mkWorld s1 e) = Ok tt (mkWorld s2 e) /\
    ftrans (<[ip := x2]> it) s2 C1 Pn1 [] P W k1) as (s2 & E2 & T2).
  { destruct (Z.ltb_spec (i_size x1) (off + n)) as [Hlt|Hge]; cbn [when].
    - destruct (ftrans_upd _ s1 _ _ _ _ _ _ ip x1 (set_i_size (off + n)) e T1 Hx1) as (s2 & E2 & T2).
      rewrite list_insert_insert_eq in T2. exists s2. split; [done|].
      replace x2 with (set_i_size (off + n) x1); [done|]. unfold x2. f_equal. lia.
    - exists s1. split; [done|]. replace x2 with x1; [done|]. unfold x2. rewrite Z.max_l by lia. rewrite <- Es. by destruct x1. }
  rewrite (bind_Ok _ _ _ _ _ E2).
  assert (<[ip := x2]> it !! ip = Some x2) as Hx2 by (apply list_lookup_insert_eq; by eapply lookup_lt_Some).
  pose proof (proj1 (fo_inode _ _ _ F)) as On. pose proof (ow_range _ _ _ On) as Hr. pose proof (dk_size _ _ _ D) as Hds.
  pose proof (wr_disk _ _ _ _ _ _ _ W1) as D1.
  assert (0 <= IBLOCK (i_inum x) w_sb < sb_size w_sb) as Hr' by lia. destruct (dk_block _ _ _ D1 _ Hr') as (data & Hd & _).
  assert (i_inum x2 = i_inum x) as En2 by (by rewrite <- En).
  destruct (ftrans_iupdate _ s2 C1 Pn1 P W k1 ip x2 data e T2 Hx2) as (s3 & E3 & T3); rewrite ?En2;
    [by rewrite <- (fo_dev _ _ _ F), <- Ed|lia|done|lia|apply (ow_home _ _ _ On)|].
  rewrite (bind_Ok _ _ _ _ _ E3), s32_small by lia. rewrite En2 in T3.
  do 5 eexists. split; [done|]. split; [exact T3|]. split; [apply (written_stored st C x C1 x1 off bs data); (done || lia)|].
  pose proof (spent_le Pn1 Pn1 (IBLOCK (i_inum x) w_sb) ltac:(done)). lia.
Qed.
End writing.

(** ** What is written is read back *)

(** The blocks of a file. *)
Definition file_block (C : gmap Z (list Z)) (x : inode) (m : Z) : Prop :=
  (ind_of x = Some m /\ m <> 0) \/ exists bn, 0 <= bn /\ file_addr C x bn = Some m.

Lemma file_addr_same C C2 x y bn : (forall m, file_block C x m -> C2 !! m = C !! m) -> i_addrs y = i_addrs x ->
  file_addr C2 y bn = file_addr C x bn.
Proof.
  intros Hs Ea. unfold file_addr. rewrite Ea. destruct (_ <? NDIRECT); [done|]. destruct (_ <? MAXFILE); [|done].
  destruct (zlookup (i_addrs x) NDIRECT) as [ind|] eqn:Ei; [|done]. cbn [mbind option_bind].
  destruct (Z.eqb_spec ind 0) as [|H0]; [done|]. rewrite Hs; [done|]. by left.
Qed.

Lemma file_byte_same C C2 x y i c : (forall m, file_block C x m -> C2 !! m = C !! m) -> i_addrs y = i_addrs x -> 0 <= i ->
  file_byte C x i = Some c -> file_byte C2 y i = Some c.
Proof.
  intros Hs Ea Hi. assert (0 <= i / BSIZE) as Hq by (by apply Z.div_pos). unfold file_byte.
  rewrite (file_addr_same C C2 x y) by done.
  destruct (file_addr C x (i / BSIZE)) as [a|] eqn:E; [|done]. cbn [mbind option_bind]. rewrite Hs; [done|].
  right. by exists (i / BSIZE).
Qed.

(** C14: what writei writes, readi reads back.  In a transaction with room in
    the log for three blocks (the bitmap, the indirect block and the inode)
    besides those the bytes touch, and with as many free blocks, writei of a
    kernel buffer at an offset inside the file or at its end writes all of it:
    the file then has these bytes there and its other bytes as before, its new
    size, and its inode on the disk; the blocks of others and the other inodes
    are as they were; and the log has no more than these blocks more.  A readi
    of this range, by any process whose copy of the inode is the same and in
    any state in which the blocks of the file are the same, returns them. *)
Theorem writei_readi {Wk : Worker} {K : Disk} {DS : DiskSpec} st it s C Pn P W k ip x off bs e :
  u32 w_dev = w_dev -> sb_size w_sb <= BPB ->
  ftrans st it s C Pn [] P W k -> it !! ip = Some x -> disk_ok w_sb st C -> file_ok st C x ->
  0 <= off <= i_size x -> i_size x <= MAXFILE * BSIZE -> off + Z.of_nat (length bs) <= MAXFILE * BSIZE ->
  (3 + touched off (length bs) <= k)%nat -> (1 + touched off (length bs) <= length (free_blocks w_sb C))%nat ->
  exists s1 C1 x1 Pn1 k1,
    writei ip (inr bs) off (Z.of_nat (length bs)) (mkWorld s e) = Ok (Z.of_nat (length bs)) (mkWorld s1 e) /\
    ftrans st (<[ip := x1]> it) s1 C1 Pn1 [] P W k1 /\ stored st C x C1 x1 off bs /\
    (k <= 3 + touched off (length bs) + k1)%nat /\
    forall (Wk2 : Worker) s2 C2 Pn2 P2 W2 L2 j y dst e2,
      fsst (Wk := Wk2) s2 C2 Pn2 [] P2 W2 L2 -> (length Pn2 < NBUF)%nat ->
      (forall m, file_block C1 x1 m -> C2 !! m = C1 !! m) ->
      w_inodes (Worker := Wk2) !! j = Some y -> i_dev y = w_dev (Worker := Wk2) -> to_dinode y = to_dinode x1 ->
      exists s3, readi j false dst off (Z.of_nat (length bs)) (mkWorld s2 e2) = Ok (Z.of_nat (length bs), bs) (mkWorld s3 e2) /\
        fsst (Wk := Wk2) s3 C2 Pn2 [] P2 W2 L2.
Proof.
  intros Hdev Hmap T Hx D F Ho Hsz Hov Hk Hf.
  assert (pending Pn x <= 2)%nat as Hp.
  { unfold pending. pose proof (spent_le Pn Pn (BBLOCK 0 w_sb) ltac:(done)). destruct (ind_of x) as [ind|]; [|lia].
    pose proof (spent_le Pn Pn ind ltac:(done)). destruct (ind =? 0); lia. }
  assert (need_ind x <= 1)%nat as Hni by (unfold need_ind; destruct (ind_of x) as [ind|]; [destruct (ind =? 0)|]; lia).
  destruct (writei_spec st Hdev Hmap it s C Pn P W k ip x off bs e T Hx D F Ho Hsz Hov) as
    (s1 & C1 & x1 & Pn1 & k1 & E1 & T1 & S1 & Hk1); [lia|lia|].
  exists s1, C1, x1, Pn1, k1. split; [done|]. split; [done|]. split; [done|]. split; [lia|].
  intros Wk2 s2 C2 Pn2 P2 W2 L2 j y dst e2 F2 Hl Hsame Hy Hdy Edy.
  assert (i_size y = Z.max (i_size x) (off + Z.of_nat (length bs))) as Esz.
  { change (di_size (to_dinode y) = Z.max (i_size x) (off + Z.of_nat (length bs))). rewrite Edy, (so_fields _ _ _ _ _ _ _ S1). done. }
  assert (i_addrs y = i_addrs x1) as Ead by (exact (f_equal di_addrs Edy)).
  change (MAXFILE * BSIZE) with 274432 in *.
  apply (readi_spec (Wk := Wk2) s2 C2 Pn2 P2 W2 L2 j y dst off _ bs e2 F2 Hy Hdy Hl); [|lia|lia|lia|lia|lia|].
  { intros bn a data Hb Ha Hc. rewrite (file_addr_same C1 C2 x1 y bn Hsame Ead) in Ha.
    destruct (fo_data _ _ _ (so_file _ _ _ _ _ _ _ S1) bn a Hb Ha) as [[Hr _ _ _] _].
    destruct (dk_block _ _ _ (so_disk _ _ _ _ _ _ _ S1) a) as (data' & Hd & Bd); [lia|].
    rewrite Hsame, Hd in Hc by (right; by exists bn). by injection Hc as <-. }
  intros i c Hi. apply (file_byte_same C1 C2 x1 y); [done|done|lia|]. by apply (so_bytes _ _ _ _ _ _ _ S1).
Qed.

(** C15: balloc hands out a free block.  In a transaction with room for two
    blocks, and if a block is free, balloc returns the number of one, not 0;
    the block is now marked in the bitmap and full of zeros, no other block has
    changed its mark, and no block but these two has changed. *)
Theorem balloc_correct {Wk : Worker} {K : Disk} {DS : DiskSpec} s C Pn P W st k e :
  u32 w_dev = w_dev -> trans s C Pn [] P W st k -> (2 <= k)%nat -> disk_ok w_sb st C ->
  (exists n, 0 <= n < sb_size w_sb /\ used w_sb C n = false) ->
  exists n s' C' Pn' k', balloc w_dev (mkWorld s e) = Ok n (mkWorld s' e) /\ trans s' C' Pn' [] P W st k' /\ disk_ok w_sb st C' /\
    (k <= 2 + k')%nat /\ 0 < n < sb_size w_sb /\ used w_sb C n = false /\ C' !! n = Some (replicate (Z.to_nat BSIZE) 0) /\
    (forall j, 0 <= j < sb_size w_sb -> used w_sb C' j = (j =? n) || used w_sb C j) /\
    (forall m, m <> n -> (forall i, 0 <= i < sb_size w_sb -> BBLOCK i w_sb <> m) -> C' !! m = C !! m).
Proof.
  intros Hd T Hk D Hf. assert (forall Pn' n, spent Pn' n <= 1)%nat as Hsp by (intros Pn' n; by apply (spent_le Pn' Pn' n)).
  destruct (balloc_spec s C Pn [] P W st k e T D) as (n & s' & E & Hn & Hu & T'); [|..|exact Hf|].
  - intros m Hm. by apply elem_of_nil in Hm.
  - intros j _. pose proof (Hsp Pn (BBLOCK j w_sb)). lia.
  - cbn. lia.
  - done.
  - destruct (handed_out_ok st C n D ltac:(lia) Hu) as [D' Hused].
    exists n, s', (handed_out C n), (pin_handed Pn n), (k - spent_handed Pn n)%nat.
    split; [done|]. split; [done|]. split; [done|]. split.
    { pose proof (Hsp Pn (BBLOCK n w_sb)). pose proof (Hsp (pin Pn (BBLOCK n w_sb)) n). unfold spent_handed. lia. }
    split; [done|]. split; [done|]. split; [apply lookup_insert_eq|]. split; [done|].
    intros m Hm Hb. by apply (handed_out_lookup st); [|lia|..].
Qed.

(** ** An example: a disk of 101 blocks, the first 64 in use *)

Definition bitmap_example : list Z := replicate 8 255 ++ replicate 1016 0.
Definition fs_example : superblock := set_sb_size 101 (set_sb_bmapstart 40 sb_example).
Definition blocks_example : gmap Z (list Z) := <[40 := bitmap_example]> platter0.

Lemma blocks_example_lookup n : 0 <= n < 101 -> n <> 40 -> blocks_example !! n = Some zeros.
Proof. intros Hn Hne. unfold blocks_example. rewrite lookup_insert_ne by lia. by apply platter0_lookup. Qed.

Lemma used_example n : 0 <= n < 101 -> used fs_example blocks_example n = (n <? 64).
Proof.
  intros Hn. unfold used. assert (BBLOCK n fs_example = 40) as ->.
  { unfold BBLOCK. rewrite Z.div_small by (change BPB with 8192; lia). reflexivity. }
  unfold blocks_example. rewrite lookup_insert_eq, Z.mod_small by (change BPB with 8192; lia).
  assert (forallb (fun n => Bool.eqb (bit bitmap_example n) (n <? 64)) (seqZ 0 101) = true) as Hf by (vm_compute; reflexivity).
  rewrite forallb_forall in Hf. apply Bool.eqb_prop, Hf, list_elem_of_In, elem_of_seqZ. lia.
Qed.

Lemma blocks_example_ok : disk_ok fs_example 2 blocks_example.
Proof.
  assert (forall n, 0 <= n < 101 -> BBLOCK n fs_example = 40) as Hb.
  { intros n Hn. unfold BBLOCK. rewrite Z.div_small by (change BPB with 8192; lia). reflexivity. }
  split.
  - cbn. lia.
  - intros n Hn. change (0 <= n < 101) in Hn. destruct (decide (n = 40)) as [->|Hne].
    + exists bitmap_example. split; [apply lookup_insert_eq|reflexivity].
    + exists zeros. split; [by apply blocks_example_lookup|reflexivity].
  - intros n Hn. change (0 <= n < 101) in Hn. rewrite Hb by done. split; [cbn; lia|]. split; [right; unfold LOGSIZE, MAXOPBLOCKS; lia|].
    by rewrite used_example by lia.
  - intros n Hn Ho. change (0 <= n < 101) in Hn. rewrite used_example by done. apply Z.ltb_lt.
    unfold outside, LOGSIZE, MAXOPBLOCKS in Ho. lia.
  - intros _. by rewrite used_example by lia.
Qed.

Lemma owned_example n : 32 <= n < 64 -> n <> 40 -> owned (Wk := worker_with itable_example fs_example) 2 blocks_example n.
Proof.
  intros Hn Hne. split; cbn [w_sb worker_with].
  - change (0 < n < 101). lia.
  - rewrite used_example by lia. apply Z.ltb_lt. lia.
  - intros i Hi. change (0 <= i < 101) in Hi. unfold BBLOCK. rewrite Z.div_small by (change BPB with 8192; lia).
    change (u32 (0 + sb_bmapstart fs_example)) with 40. lia.
  - right. unfold LOGSIZE, MAXOPBLOCKS. lia.
Qed.

Lemma file_addr_example bn a : 0 <= bn -> file_addr blocks_example inode_example bn = Some a -> bn = 0 /\ a = 60.
Proof.
  intros Hb. unfold file_addr. destruct (Z.ltb_spec bn NDIRECT) as [Hlt|Hge].
  - destruct (decide (bn = 0)) as [->|Hne]; [intros E; injection E as <-; split; reflexivity|].
    unfold zlookup. destruct (Z.leb_spec 0 bn); [|lia]. change (i_addrs inode_example) with (60 :: replicate 12 0).
    replace (Z.to_nat bn) with (S (Z.to_nat (bn - 1))) by lia. change ((60 :: replicate 12 0) !! S (Z.to_nat (bn - 1))) with (replicate 12 0 !! Z.to_nat (bn - 1)).
    rewrite lookup_replicate_2 by (unfold NDIRECT in *; lia). discriminate.
  - destruct (bn <? MAXFILE); discriminate.
Qed.

Lemma file_example_ok : file_ok (Wk := worker_with itable_example fs_example) 2 blocks_example inode_example.
Proof.
  split; cbn [w_sb worker_with].
  - reflexivity.
  - reflexivity.
  - intros ind E. injection E as <-. intros H. destruct H. reflexivity.
  - intros bn a Hb E. apply file_addr_example in E as [_ ->]; [|exact Hb]. split; [apply owned_example; lia|discriminate].
  - intros bn bn' a Hb Hb' E E'. apply file_addr_example in E as [-> _]; [|exact Hb].
    apply file_addr_example in E' as [-> _]; [|exact Hb']. reflexivity.
  - change (IBLOCK (i_inum inode_example) fs_example) with 32. split; [apply owned_example; lia|discriminate].
  - intros bn Hb E. apply file_addr_example in E as [_ E]; [|exact Hb]. discriminate E.
  - split; cbn; [unfold T_FILE; lia|lia..|reflexivity|]. repeat (constructor; [lia|]). constructor.
Qed.

Lemma trans_example {K : Disk} {DS : DiskSpec} v : disk_ready v blocks_example ->
  exists s, trans (Wk := worker_with itable_example fs_example) s blocks_example [] [] blocks_example [] 2 29.
Proof.
  intros Rv. destruct (booted_with v itable_example fs_example blocks_example log_example Rv) as [s F]. exists s, log_example, [].
  split; [exact F|]. split; [|split; reflexivity].
  split; [exact (log_example_ok _ _)|reflexivity|discriminate|discriminate].
Qed.

Lemma balloc_correct_witness : exists n s s' C',
  balloc (H := ramdisk) 1 (mkWorld s []) = Ok n (mkWorld s' []) /\ 64 <= n < 101 /\ used fs_example C' n = true /\ C' !! n = Some zeros.
Proof.
  destruct (trans_example (DS := ramdisk_spec) (vdiskS kdata0) I) as [s T].
  destruct (balloc_correct (Wk := worker_with itable_example fs_example) (K := ramdisk) (DS := ramdisk_spec)
    s blocks_example [] blocks_example [] 2 29 []) as (n & s' & C' & Pn' & k' & E & T' & D' & Hk & Hn & Hu & Hz & Hus & _).
  - reflexivity.
  - exact T.
  - lia.
  - exact blocks_example_ok.
  - exists 64. split; [cbn; lia|]. exact (used_example 64 ltac:(lia)).
  - change (0 < n < 101) in Hn. exists n, s, s', C'. split; [exact E|]. split; [|split].
    + change (used fs_example blocks_example n = false) in Hu. rewrite used_example in Hu by lia. apply Z.ltb_ge in Hu. lia.
    + rewrite <- (orb_true_l (used fs_example blocks_example n)), <- (Z.eqb_refl n) at 1. apply Hus. change (0 <= n < 101). lia.
    + exact Hz.
Defined.
