(* ===== verification/DirSpec.v ===== *)
(** * Directories and path names

    What namex finds.  The file system is seen as a tree: the bytes of each
    directory, by the number of its inode; [resolve] follows a path in it.  The
    table of inodes is seen as the map of the references that are held.  The
    theorem: namex returns a reference to the inode the path leads to, or
    nothing if it leads nowhere, and keeps no other. *)

From S2P Require Import Prelude Prog State Spinlock Switch CStr Kalloc Vm Proc Sleeplock Bio Cache Log LogSpec Fs FsSpec FileData.

Implicit Types (it : list inode) (x y : inode) (R : gmap Z Z).

(** ** References *)

Definition in_use x : bool := 0 <? i_ref x.

(** The references held, by the number of the inode *)
Definition refs it : gmap Z Z := list_to_map ((fun x => (i_inum x, i_ref x)) <$> filter in_use it).

Definition add_ref (i : Z) R : gmap Z Z := <[i := default 0 (R !! i) + 1]> R.
Definition drop_ref (i : Z) R : gmap Z Z := partial_alter (fun o => n ← o; if n =? 1 then None else Some (n - 1)) i R.

Lemma drop_add_ref i j R : map_Forall (fun _ n => 0 < n) R -> drop_ref i (add_ref j (add_ref i R)) = add_ref j R.
Proof.
  intros Hp. unfold drop_ref, add_ref. apply map_eq. intros k. destruct (decide (k = i)) as [->|Hk].
  - rewrite lookup_partial_alter_eq. destruct (decide (i = j)) as [->|Hj].
    + rewrite !lookup_insert_eq. cbn. destruct (R !! j) as [n|] eqn:E; cbn; [|done]. pose proof (Hp j n E). cbn in *.
      destruct (Z.eqb_spec (n + 1 + 1) 1); [lia|]. f_equal. lia.
    + rewrite (lookup_insert_ne (<[i := _]> R)), lookup_insert_eq, lookup_insert_ne by done. cbn. destruct (R !! i) as [n|] eqn:E; cbn; [|done].
      pose proof (Hp i n E). cbn in *. destruct (Z.eqb_spec (n + 1) 1); [lia|]. f_equal. lia.
  - rewrite lookup_partial_alter_ne by done. destruct (decide (k = j)) as [->|Hj].
    + rewrite !lookup_insert_eq. by rewrite lookup_insert_ne by done.
    + by rewrite !lookup_insert_ne by done.
Qed.

Lemma drop_ref_add i R : map_Forall (fun _ n => 0 < n) R -> drop_ref i (add_ref i R) = R.
Proof.
  intros Hp. unfold drop_ref, add_ref. apply map_eq. intros k. destruct (decide (k = i)) as [->|Hk].
  - rewrite lookup_partial_alter_eq, lookup_insert_eq. cbn. destruct (R !! i) as [n|] eqn:E; cbn; [|done].
    pose proof (Hp i n E). cbn in *. destruct (Z.eqb_spec (n + 1) 1); [lia|]. f_equal. lia.
  - by rewrite lookup_partial_alter_ne, lookup_insert_ne by done.
Qed.

(** An inode is in the table once. *)
Definition once it : Prop :=
  forall k k' x x', it !! k = Some x -> it !! k' = Some x' -> in_use x -> in_use x' -> i_inum x = i_inum x' -> k = k'.

Lemma once_cons x it : once (x :: it) -> once it /\ (in_use x -> i_inum x ∉ (fun y => i_inum y) <$> filter in_use it).
Proof.
  intros H. split.
  - intros k k' y y' Hk Hk' Hu Hu' E. pose proof (H (S k) (S k') y y' Hk Hk' Hu Hu' E). lia.
  - intros Hu Hin. apply list_elem_of_fmap in Hin as (y & E & Hy). apply list_elem_of_filter in Hy as [Hy Hin].
    apply list_elem_of_lookup in Hin as [k Hk]. pose proof (H 0%nat (S k) x y eq_refl Hk Hu Hy E). lia.
Qed.

Lemma refs_keys it : ((fun x => (i_inum x, i_ref x)) <$> filter in_use it).*1 = (fun y => i_inum y) <$> filter in_use it.
Proof. induction (filter in_use it) as [|x l IH]; [done|]. cbn. by f_equal. Qed.

Lemma once_nodup it : once it -> NoDup ((fun y => i_inum y) <$> filter in_use it).
Proof.
  induction it as [|x it IH]; intros H; [apply NoDup_nil_2|]. apply once_cons in H as [H Hx]. rewrite filter_cons.
  case_decide as Hu; [|by apply IH]. cbn. apply NoDup_cons. split; [by apply Hx|by apply IH].
Qed.

Lemma refs_lookup it i n : once it -> refs it !! i = Some n <-> exists k x, it !! k = Some x /\ in_use x /\ i_inum x = i /\ i_ref x = n.
Proof.
  intros H. unfold refs. rewrite <- elem_of_list_to_map by (rewrite refs_keys; by apply once_nodup).
  rewrite list_elem_of_fmap. split.
  - intros (x & [= -> ->] & Hx). apply list_elem_of_filter in Hx as [Hu Hx]. apply list_elem_of_lookup in Hx as [k Hk]. by exists k, x.
  - intros (k & x & Hk & Hu & <- & <-). exists x. split; [done|]. apply list_elem_of_filter. split; [done|]. by eapply list_elem_of_lookup_2.
Qed.

Lemma refs_pos it : once it -> map_Forall (fun _ n => 0 < n) (refs it).
Proof. intros H i n E. apply (refs_lookup it i n H) in E as (k & x & _ & Hu & _ & <-). unfold in_use in Hu. apply Is_true_true in Hu. lia. Qed.

(** A slot is free as long as fewer inodes are in use than there are slots. *)
Lemma refs_free it : once it -> (size (refs it) < length it)%nat -> exists k x, it !! k = Some x /\ in_use x = false.
Proof.
  intros H Hs. unfold refs in Hs. rewrite map_size_list_to_map in Hs by (rewrite refs_keys; by apply once_nodup). rewrite length_fmap in Hs.
  destruct (list_find (fun x => ~ in_use x) it) as [[k x]|] eqn:E.
  - apply list_find_Some in E as (Hk & Hu & _). exists k, x. split; [done|]. by destruct (in_use x).
  - apply list_find_None in E. exfalso. assert (filter in_use it = it) as E'; [|rewrite E' in Hs; lia].
    clear H Hs. induction E as [|x l Hx E IH]; [done|]. rewrite filter_cons. case_decide; [by f_equal|tauto].
Qed.

(** One slot changes. *)
Lemma refs_insert it k x y : once it -> it !! k = Some x ->
  (in_use y -> refs it !! i_inum y = None \/ in_use x /\ i_inum x = i_inum y) ->
  once (<[k := y]> it) /\
  refs (<[k := y]> it) = (if in_use y then <[i_inum y := i_ref y]> else id) (if in_use x then delete (i_inum x) (refs it) else refs it).
Proof.
  intros H Hk Hy. pose proof (lookup_lt_Some _ _ _ Hk) as Hlt.
  assert (forall k' x', k' <> k -> it !! k' = Some x' -> in_use x' -> in_use y -> i_inum x' = i_inum y -> False) as Hno.
  { intros k' x' Hne Hk' Hu Huy E. destruct (Hy Huy) as [Hn|[Hux Ex]].
    - assert (refs it !! i_inum y = Some (i_ref x')) as Hs; [|by rewrite Hs in Hn]. apply (refs_lookup it _ _ H). by exists k', x'.
    - apply Hne. apply (H k' k x' x); try done. congruence. }
  assert (once (<[k := y]> it)) as H'.
  { intros k1 k2 x1 x2 H1 H2 U1 U2 E. apply list_lookup_insert_Some in H1 as [(-> & <- & _)|[N1 H1]]; apply list_lookup_insert_Some in H2 as [(-> & <- & _)|[N2 H2]].
    - done.
    - exfalso. by apply (Hno k2 x2).
    - exfalso. by apply (Hno k1 x1).
    - by apply (H k1 k2 x1 x2). }
  split; [done|]. apply map_eq. intros i. apply option_eq. intros n. rewrite (refs_lookup _ _ _ H').
  assert (forall i' n', (if in_use x then delete (i_inum x) (refs it) else refs it) !! i' = Some n' <->
    exists k' x', k' <> k /\ it !! k' = Some x' /\ in_use x' /\ i_inum x' = i' /\ i_ref x' = n') as Ho.
  { intros i' n'. destruct (in_use x) eqn:Ux.
    - rewrite lookup_delete_Some, (refs_lookup _ _ _ H). split.
      + intros [Hne (k' & x' & Hk' & U' & E1 & E2)]. exists k', x'. split; [|done]. intros ->. congruence.
      + intros (k' & x' & Hne & Hk' & U' & E1 & E2). split; [|by exists k', x']. intros <-. apply Hne. apply (H k' k x' x); try done. by rewrite Ux.
    - rewrite (refs_lookup _ _ _ H). split.
      + intros (k' & x' & Hk' & U' & E1 & E2). exists k', x'. split; [|done]. intros ->. rewrite Hk in Hk'. injection Hk' as <-. by rewrite Ux in U'.
      + intros (k' & x' & Hne & Hk' & U' & E1 & E2). by exists k', x'. }
  destruct (in_use y) eqn:Uy.
  - rewrite lookup_insert_Some, Ho. split.
    + intros (k' & x' & Hk' & U' & E1 & E2). apply list_lookup_insert_Some in Hk' as [(-> & <- & _)|[N' Hk']]; [by left|]. right. split.
      * intros <-. by apply (Hno k' x').
      * exists k', x'. by split.
    + intros [[<- <-]|[Hne (k' & x' & N' & Hk' & U' & E1 & E2)]].
      * exists k, y. split; [by apply list_lookup_insert_eq|]. by rewrite Uy.
      * exists k', x'. split; [by rewrite list_lookup_insert_ne by done|done].
  - unfold id. rewrite Ho. split.
    + intros (k' & x' & Hk' & U' & E1 & E2). apply list_lookup_insert_Some in Hk' as [(-> & <- & _)|[N' Hk']]; [by rewrite Uy in U'|]. by exists k', x'.
    + intros (k' & x' & N' & Hk' & U' & E1 & E2). exists k', x'. split; [by rewrite list_lookup_insert_ne by done|done].
Qed.

(** The three changes that are made: to an inode in use, of a free slot, and
    of a count that comes down to zero *)
Lemma refs_same it k x y : once it -> it !! k = Some x -> i_inum y = i_inum x -> i_ref y = i_ref x -> once (<[k := y]> it) /\ refs (<[k := y]> it) = refs it.
Proof.
  intros H Hk Ei Er. assert (in_use y = in_use x) as Eu by (unfold in_use; by rewrite Er).
  destruct (refs_insert it k x y H Hk) as [H' E]; [intros Hu; right; rewrite <- Eu; split; [done|by rewrite Ei]|]. split; [done|].
  rewrite E, Eu. destruct (in_use x) eqn:Ux; [|done]. rewrite Ei, Er, insert_delete_eq. apply insert_id.
  apply (refs_lookup it _ _ H). exists k, x. by rewrite Ux.
Qed.

Lemma refs_up it k x : once it -> it !! k = Some x -> in_use x ->
  once (<[k := set_i_ref (i_ref x + 1) x]> it) /\ refs (<[k := set_i_ref (i_ref x + 1) x]> it) = add_ref (i_inum x) (refs it).
Proof.
  intros H Hk Hu. assert (0 < i_ref x) as Hr by (unfold in_use in Hu; apply Is_true_true in Hu; lia).
  destruct (refs_insert it k x (set_i_ref (i_ref x + 1) x) H Hk) as [H' E]; [by right|]. split; [done|]. rewrite E.
  apply Is_true_true in Hu as Hu'. rewrite Hu'. assert (in_use (set_i_ref (i_ref x + 1) x) = true) as -> by (unfold in_use; cbn; lia).
  cbn [i_inum i_ref set_i_ref]. rewrite insert_delete_eq. unfold add_ref. f_equal. assert (refs it !! i_inum x = Some (i_ref x)) as ->; [|done].
  apply (refs_lookup it _ _ H). by exists k, x.
Qed.

Lemma refs_new it k x y : once it -> it !! k = Some x -> in_use x = false -> refs it !! i_inum y = None -> i_ref y = 1 ->
  once (<[k := y]> it) /\ refs (<[k := y]> it) = add_ref (i_inum y) (refs it).
Proof.
  intros H Hk Hu Hn Hr. destruct (refs_insert it k x y H Hk) as [H' E]; [by left|]. split; [done|]. rewrite E, Hu.
  assert (in_use y = true) as -> by (unfold in_use; lia). unfold add_ref. by rewrite Hn, Hr.
Qed.

Lemma refs_down it k x : once it -> it !! k = Some x -> in_use x ->
  once (<[k := set_i_ref (i_ref x - 1) x]> it) /\ refs (<[k := set_i_ref (i_ref x - 1) x]> it) = drop_ref (i_inum x) (refs it).
Proof.
  intros H Hk Hu. assert (0 < i_ref x) as Hr by (unfold in_use in Hu; apply Is_true_true in Hu; lia).
  destruct (refs_insert it k x (set_i_ref (i_ref x - 1) x) H Hk) as [H' E]; [by right|]. split; [done|]. rewrite E.
  apply Is_true_true in Hu as Hu'. rewrite Hu'. assert (refs it !! i_inum x = Some (i_ref x)) as Hl by (apply (refs_lookup it _ _ H); by exists k, x).
  apply map_eq. intros i. unfold drop_ref. destruct (decide (i = i_inum x)) as [->|Hne].
  - rewrite lookup_partial_alter_eq, Hl. cbn. destruct (in_use (set_i_ref (i_ref x - 1) x)) eqn:Un; unfold in_use in Un; cbn in Un.
    + cbn. rewrite lookup_insert_eq. destruct (Z.eqb_spec (i_ref x) 1); [lia|done].
    + unfold id. rewrite lookup_delete_eq. destruct (Z.eqb_spec (i_ref x) 1); [done|lia].
  - rewrite lookup_partial_alter_ne by done. destruct (in_use (set_i_ref (i_ref x - 1) x)); unfold id; cbn [i_inum set_i_ref].
    + by rewrite lookup_insert_ne, lookup_delete_ne by done.
    + by rewrite lookup_delete_ne by done.
Qed.

(** ** The slot iget takes *)

Fixpoint iget_slot it (k : nat) (empty : option nat) (dev inum : Z) : nat + option nat :=
  match it with
  | [] => inr empty
  | x :: it =>
    if in_use x && (i_dev x =? dev) && (i_inum x =? inum) then inl k else
    iget_slot it (S k) (match empty with Some e => Some e | None => if i_ref x =? 0 then Some k else None end) dev inum
  end.

Lemma iget_scan_ok k empty dev inum s e : (k <= length (itable (kd s)))%nat ->
  iget_scan (seq k (length (itable (kd s)) - k)) empty dev inum (mkWorld s e) =
  Ok (iget_slot (drop k (itable (kd s))) k empty dev inum) (mkWorld s e).
Proof.
  remember (length (itable (kd s)) - k)%nat as n eqn:En. revert k empty En. induction n as [|n IH]; intros k empty En Hk.
  - rewrite drop_ge by lia. done.
  - destruct (lookup_lt_is_Some_2 (itable (kd s)) k ltac:(lia)) as [x Hx]. rewrite (drop_S _ x k Hx). cbn [seq iget_scan iget_slot].
    rewrite (bind_Ok _ _ _ _ _ (get_inode_ok k x s e Hx)). unfold in_use. destruct (_ && _ && _); [done|]. apply IH; lia.
Qed.

Lemma iget_slot_hit it k empty dev inum j : iget_slot it k empty dev inum = inl j ->
  exists n x, j = (k + n)%nat /\ it !! n = Some x /\ in_use x /\ i_dev x = dev /\ i_inum x = inum.
Proof.
  revert k empty. induction it as [|x it IH]; intros k empty E; [done|]. cbn [iget_slot] in E.
  destruct (in_use x && (i_dev x =? dev) && (i_inum x =? inum)) eqn:B.
  - injection E as <-. apply andb_true_iff in B as [B B3]. apply andb_true_iff in B as [B1 B2]. exists 0%nat, x. split; [lia|]. split; [done|].
    split; [by rewrite B1|]. lia.
  - apply IH in E as (n & y & -> & Hy & R). exists (S n), y. split; [lia|done].
Qed.

Lemma iget_slot_miss it k empty dev inum o : (forall x, x ∈ it -> 0 <= i_ref x) -> iget_slot it k empty dev inum = inr o ->
  (forall n x, it !! n = Some x -> in_use x -> i_dev x = dev -> i_inum x <> inum) /\
  match empty with
  | Some _ => o = empty
  | None =>
    match o with
    | Some j => exists n x, j = (k + n)%nat /\ it !! n = Some x /\ in_use x = false
    | None => forall n x, it !! n = Some x -> in_use x
    end
  end.
Proof.
  revert k empty. induction it as [|x it IH]; intros k empty Hp E; cbn [iget_slot] in E.
  - injection E as <-. split; [done|]. by destruct empty.
  - destruct (in_use x && (i_dev x =? dev) && (i_inum x =? inum)) eqn:B; [done|]. pose proof (Hp x ltac:(by left)) as Hx.
    apply IH in E as [Hm He]; [|intros y Hy; apply Hp; by right]. split.
    + intros [|n] y Hy U Ed Ei; [|by apply (Hm n y)]. injection Hy as ->. apply Is_true_true in U. rewrite U, Ed, Ei, !Z.eqb_refl in B. done.
    + destruct empty as [em|]; [done|]. destruct (Z.eqb_spec (i_ref x) 0) as [Ez|Hz].
      * subst o. exists 0%nat, x. split; [lia|]. split; [done|]. unfold in_use. lia.
      * destruct o as [j|].
        -- destruct He as (n & y & -> & Hy & U). exists (S n), y. split; [lia|done].
        -- intros [|n] y Hy; [|by apply (He n)]. injection Hy as ->. unfold in_use. apply Is_true_true. lia.
Qed.

(** ** Names *)

(** The name in an array: its characters before the terminator, if it has one *)
Fixpoint cname (l : list Z) : list Z :=
  match l with
  | [] => []
  | c :: l => if c =? 0 then [] else c :: cname l
  end.

Lemma strncmp_pre n nm el nd : length nm = n -> length nd = n -> 0 ∉ el -> Forall is_byte el -> Forall is_byte nd ->
  (if bool_decide (n <= length el)%nat then nm = take n el else take (S (length el)) nm = el ++ [0]) ->
  exists z, strncmp nm nd n = Some z /\ (z = 0 <-> cname nd = take n el).
Proof.
  revert nm el nd. induction n as [|n IH]; intros nm el nd Hl Hd Hz Be Bd Hn.
  - apply nil_length_inv in Hd as ->. exists 0. by split.
  - destruct nm as [|a nm]; [done|]. destruct nd as [|b nd]; [done|]. apply Forall_cons in Bd as [Bb Bd]. injection Hl as Hl. injection Hd as Hd.
    unfold is_byte in Bb. cbn [strncmp cname]. destruct el as [|c el].
    + cbn in Hn. injection Hn as ->. cbn [Z.eqb negb andb]. exists (u8 0 - u8 b). split; [done|]. unfold wrap_u; change (2 ^ 8) with 256; rewrite !Z.mod_small by lia.
      destruct (Z.eqb_spec b 0) as [->|Hb]; [done|]. cbn [take]. split; [lia|done].
    + rewrite not_elem_of_cons in Hz. destruct Hz as [Hc Hz]. apply Forall_cons in Be as [Bc Be]. unfold is_byte in Bc.
      assert (a = c /\ (if bool_decide (n <= length el)%nat then nm = take n el else take (S (length el)) nm = el ++ [0])) as [-> Hn'].
      { case_bool_decide as E; case_bool_decide as E'; cbn in E; try lia; cbn in Hn; injection Hn as -> Hn; done. }
      destruct (Z.eqb_spec c 0); [congruence|]. cbn [negb andb]. destruct (Z.eqb_spec c b) as [<-|Hne].
      * destruct (Z.eqb_spec c 0); [done|]. destruct (IH nm el nd Hl Hd Hz Be Bd Hn') as (z & E & Ez). exists z. split; [done|]. rewrite Ez. cbn [take].
        split; [by intros ->|by intros [= ->]].
      * exists (u8 c - u8 b). split; [done|]. unfold wrap_u; change (2 ^ 8) with 256; rewrite !Z.mod_small by lia. split; [lia|]. destruct (b =? 0); [done|]. by intros [= ->].
Qed.

Lemma strncmp_name nm el nd : holds_name nm el -> 0 ∉ el -> Forall is_byte el -> length nd = Z.to_nat DIRSIZ -> Forall is_byte nd ->
  exists z, strncmp nm nd (Z.to_nat DIRSIZ) = Some z /\ (z = 0 <-> cname nd = take (Z.to_nat DIRSIZ) el).
Proof.
  intros [Hl Hn] Hz Be Hd Bd. apply strncmp_pre; try done. destruct (Z.leb_spec DIRSIZ (Z.of_nat (length el))).
  - by rewrite bool_decide_eq_true_2 by lia.
  - by rewrite bool_decide_eq_false_2 by lia.
Qed.

(** ** The entries of a directory *)

Definition entry_at (bs : list Z) (k : nat) : dirent := dirent_of (read_at (16 * k) 16 bs).
Definition entry_list (bs : list Z) : list dirent := entry_at bs <$> seq 0 (length bs / 16).

(** The entry has this name. *)
Definition named (el : list Z) (de : dirent) : Prop := de_inum de <> 0 /\ cname (de_name de) = take (Z.to_nat DIRSIZ) el.

#[export] Instance named_dec el de : Decision (named el de).
Proof. unfold named. apply _. Defined.

(** The first entry with the name, and its place *)
Definition dir_find (el bs : list Z) : option (nat * dirent) := list_find (named el) (entry_list bs).

Section tree.
Context {Wk : Worker} {K : Disk} {DS : DiskSpec} (C : gmap Z (list Z)).
Implicit Types (lk : option nat) (P : gmap Z (list Z)) (Pn : list Z).

(** ** The table of inodes *)

(** The inode [i] on the disk *)
Definition dnode (i : Z) : dinode := dinode_at (default [] (C !! IBLOCK i w_sb)) i.

Definition live (i : Z) : Prop :=
  0 < i < sb_ninodes w_sb /\ is_Some (C !! IBLOCK i w_sb) /\ di_type (dnode i) <> 0 /\ di_nlink (dnode i) <> 0.

(** A table of inodes that agrees with the disk; this process has locked at
    most the inode in the slot [lk], and no other has locked one. *)
Record itab it lk : Prop := {
  tb_len : length it = NINODE;
  tb_once : once it;
  tb_ref x : x ∈ it -> 0 <= i_ref x < 2147483648;
  tb_lock k x : it !! k = Some x -> if decide (lk = Some k) then sl_locked (i_lock x) = 1 /\ sl_pid (i_lock x) = w_pid else sl_locked (i_lock x) = 0;
  tb_use k x : it !! k = Some x -> in_use x ->
    i_dev x = w_dev /\ live (i_inum x) /\ (i_valid x = 0 \/ i_valid x = 1 /\ to_dinode x = dnode (i_inum x))
}.

(** A process at work with this table *)
Definition tst it s Pn P W L : Prop := fsst (Wk := with_inodes it Wk) s C Pn [] P W L.

Lemma tst_itable it s Pn P W L : tst it s Pn P W L -> itable (kd s) = it.
Proof. intros T. exact (proj1 (fs_frame (Wk := with_inodes it Wk) _ _ _ _ _ _ _ T)). Qed.

Lemma tst_inode it s Pn P W L k f x : tst it s Pn P W L -> it !! k = Some x -> tst (<[k := f x]> it) (mapd (at_inode k f) s) Pn P W L.
Proof.
  intros T Hx. rewrite <- (alter_insert f it k x Hx). exact (fsst_inode (Wk := with_inodes it Wk) s C Pn [] P W L k f T).
Qed.

(** A slot of the table changes. *)
Lemma itab_insert it lk k x y : itab it lk -> it !! k = Some x -> once (<[k := y]> it) -> i_lock y = i_lock x -> 0 <= i_ref y < 2147483648 ->
  (in_use y -> i_dev y = w_dev /\ live (i_inum y) /\ (i_valid y = 0 \/ i_valid y = 1 /\ to_dinode y = dnode (i_inum y))) ->
  itab (<[k := y]> it) lk.
Proof.
  intros [A1 A2 A3 A4 A5] Hk Ho El Hr Hu. split.
  - by rewrite length_insert.
  - done.
  - intros z Hz. apply list_elem_of_lookup in Hz as [j Hj]. apply list_lookup_insert_Some in Hj as [(-> & <- & _)|[_ Hj]]; [done|].
    apply A3. by eapply list_elem_of_lookup_2.
  - intros j z Hj. apply list_lookup_insert_Some in Hj as [(-> & <- & _)|[_ Hj]]; [|by apply A4]. rewrite El. by apply A4.
  - intros j z Hj. apply list_lookup_insert_Some in Hj as [(-> & <- & _)|[_ Hj]]; [done|by apply (A5 j z)].
Qed.

Lemma itable_lock : LItable ∈ all_locks.
Proof. apply all_locks_single. set_solver. Qed.

(** An entry in use is kept, but for its count. *)
Definition kept it it' : Prop := forall k x, it !! k = Some x -> in_use x -> exists n, 0 < n /\ it' !! k = Some (set_i_ref n x).

Lemma kept_insert it k x n : it !! k = Some x -> 0 < n -> kept it (<[k := set_i_ref n x]> it).
Proof.
  intros Hk Hn j y Hj Hu. destruct (decide (j = k)) as [->|Hne].
  - rewrite Hk in Hj. injection Hj as <-. exists n. split; [done|]. apply list_lookup_insert_eq. by eapply lookup_lt_Some.
  - exists (i_ref y). unfold in_use in Hu. apply Is_true_true in Hu. split; [lia|]. rewrite list_lookup_insert_ne by done. rewrite Hj. by destruct y.
Qed.

Lemma iget_spec it lk s Pn P W L i e : tst it s Pn P W L -> itab it lk -> live i -> default 0 (refs it !! i) < 2147483647 ->
  is_Some (refs it !! i) \/ (size (refs it) < NINODE)%nat ->
  exists k x it' s', iget w_dev i (mkWorld s e) = Ok k (mkWorld s' e) /\ tst it' s' Pn P W L /\ itab it' lk /\
    refs it' = add_ref i (refs it) /\ it' !! k = Some x /\ in_use x /\ i_inum x = i /\ kept it it'.
Proof.
  intros T A Hi Hm Hroom. pose proof (tb_once _ _ A) as Ho. pose proof (fs_calm _ _ _ _ _ _ _ T) as Hc. unfold iget.
  rewrite (bind_Ok _ _ _ _ _ (acquire_calm w_proc s e Hc LItable itable_lock)).
  pose proof (tst_itable _ _ _ _ _ _ T) as Eit.
  pose proof (iget_scan_ok 0 None w_dev i (acq LItable s) e ltac:(lia)) as Es. change (itable (kd (acq LItable s))) with (itable (kd s)) in Es.
  rewrite Eit, Nat.sub_0_r, (tb_len _ _ A), drop_0 in Es. rewrite (bind_Ok _ _ _ _ _ Es). clear Es.
  destruct (iget_slot it 0 None w_dev i) as [k|o] eqn:E.
  - apply iget_slot_hit in E as (n & x & -> & Hx & Hu & Hd & Hin). cbn [Nat.add].
    assert (itable (kd (acq LItable s)) !! n = Some x) as Hx' by (by rewrite <- Hx, <- Eit).
    rewrite (bind_Ok _ _ _ _ _ (upd_inode_ok n _ x _ e Hx')). rewrite (bind_Ok _ _ _ _ _ (release_calm w_proc s e Hc LItable _ itable_lock)).
    assert (0 < i_ref x) as Hr by (unfold in_use in Hu; apply Is_true_true in Hu; lia).
    assert (refs it !! i = Some (i_ref x)) as Hri by (apply (refs_lookup it _ _ Ho); by exists n, x). rewrite Hri in Hm. cbn in Hm.
    assert (s32 (i_ref x + 1) = i_ref x + 1) as Es by (apply s32_small; lia).
    destruct (refs_up it n x Ho Hx Hu) as [Ho' Er]. destruct (tb_use _ _ A n x Hx Hu) as (U1 & U2 & U3).
    set (y := set_i_ref (i_ref x + 1) x) in *. exists n, y, (<[n := y]> it). eexists. split; [done|]. split; [|split].
    + pose proof (tst_inode it s Pn P W L n (fun x => set_i_ref (s32 (i_ref x + 1)) x) x T Hx) as T'. cbv beta in T'. by rewrite Es in T'.
    + apply (itab_insert it lk n x y A Hx Ho'); [done|cbn; lia|done].
    + split; [by rewrite Er, Hin|]. split; [apply list_lookup_insert_eq; by eapply lookup_lt_Some|].
      split; [unfold in_use; cbn; apply Is_true_true; lia|]. split; [done|]. apply kept_insert; [done|lia].
  - apply iget_slot_miss in E as [Hmiss He]; [|intros x Hx; by apply (tb_ref _ _ A)].
    assert (refs it !! i = None) as Hri.
    { destruct (refs it !! i) as [n|] eqn:Er; [|done]. apply (refs_lookup it _ _ Ho) in Er as (k & x & Hx & Hu & Hin & _).
      destruct (Hmiss k x Hx Hu); [|done]. by apply (tb_use _ _ A k x Hx Hu). }
    destruct Hroom as [Hs|Hs]; [rewrite Hri in Hs; by destruct Hs|]. rewrite <- (tb_len _ _ A) in Hs.
    destruct (refs_free it Ho Hs) as (k0 & x0 & Hx0 & Hu0). destruct o as [k|]; [|exfalso; pose proof (He k0 x0 Hx0) as Hu; by rewrite Hu0 in Hu].
    destruct He as (n & x & -> & Hx & Hu). cbn [Nat.add].
    set (y := set_i_valid 0 (set_i_ref 1 (set_i_inum i (set_i_dev w_dev x)))).
    assert (itable (kd (acq LItable s)) !! n = Some x) as Hx' by (by rewrite <- Hx, <- Eit).
    destruct (refs_new it n x y Ho Hx Hu) as [Ho' Er]; [done|done|].
    assert (forall f s' x', itable (kd s') !! n = Some x' -> itable (kd (mapd (at_inode n f) s')) !! n = Some (f x')) as Hst.
    { intros f s' x' Hs'. cbn. by rewrite list_lookup_alter_eq, Hs'. }
    exists n, y, (<[n := y]> it), (mapd (at_inode n (fun x => set_i_valid 0 (set_i_ref 1 (set_i_inum i (set_i_dev w_dev x))))) s). split; [|split; [|split]].
    + rewrite (bind_Ok _ _ _ _ _ (upd_inode_ok n _ x _ e Hx')).
      erewrite bind_Ok by (eapply upd_inode_ok, Hst, Hx'). erewrite bind_Ok by (eapply upd_inode_ok, Hst, Hst, Hx').
      erewrite bind_Ok by (eapply upd_inode_ok, Hst, Hst, Hst, Hx'). rewrite !mapd_mapd.
      rewrite (bind_Ok _ _ _ _ _ (release_calm w_proc s e Hc LItable _ itable_lock)). run. do 2 f_equal. unfold mapd. f_equal.
      by rewrite !at_inode_at_inode.
    + exact (tst_inode it s Pn P W L n (fun x => set_i_valid 0 (set_i_ref 1 (set_i_inum i (set_i_dev w_dev x)))) x T Hx).
    + apply (itab_insert it lk n x y A Hx Ho'); [done|cbn; lia|]. intros _. split; [done|]. split; [done|by left].
    + split; [done|]. split; [apply list_lookup_insert_eq; by eapply lookup_lt_Some|]. split; [done|]. split; [done|].
      intros j z Hj Huz. exists (i_ref z). pose proof Huz as Hz. unfold in_use in Hz. apply Is_true_true in Hz. split; [lia|].
      rewrite list_lookup_insert_ne by (intros ->; rewrite Hx in Hj; injection Hj as ->; by rewrite Hu in Huz). rewrite Hj. by destruct z.
Qed.

Lemma idup_spec it lk s Pn P W L k x e : tst it s Pn P W L -> itab it lk -> it !! k = Some x -> in_use x -> i_ref x < 2147483647 ->
  exists it' s', idup k (mkWorld s e) = Ok k (mkWorld s' e) /\ tst it' s' Pn P W L /\ itab it' lk /\
    refs it' = add_ref (i_inum x) (refs it) /\ kept it it'.
Proof.
  intros T A Hx Hu Hm. pose proof (fs_calm _ _ _ _ _ _ _ T) as Hc. unfold idup.
  rewrite (bind_Ok _ _ _ _ _ (acquire_calm w_proc s e Hc LItable itable_lock)).
  assert (itable (kd (acq LItable s)) !! k = Some x) as Hx' by (rewrite <- Hx; exact (f_equal (lookup k) (tst_itable _ _ _ _ _ _ T))).
  rewrite (bind_Ok _ _ _ _ _ (upd_inode_ok k _ x _ e Hx')). rewrite (bind_Ok _ _ _ _ _ (release_calm w_proc s e Hc LItable _ itable_lock)).
  assert (0 < i_ref x) as Hr by (unfold in_use in Hu; apply Is_true_true in Hu; lia).
  assert (s32 (i_ref x + 1) = i_ref x + 1) as Es by (apply s32_small; lia).
  destruct (refs_up it k x (tb_once _ _ A) Hx Hu) as [Ho' Er]. destruct (tb_use _ _ A k x Hx Hu) as (U1 & U2 & U3).
  exists (<[k := set_i_ref (i_ref x + 1) x]> it). eexists. split; [done|]. split; [|split; [|split; [done|apply kept_insert; [done|lia]]]].
  - pose proof (tst_inode it s Pn P W L k (fun x => set_i_ref (s32 (i_ref x + 1)) x) x T Hx) as T'. cbv beta in T'. by rewrite Es in T'.
  - apply (itab_insert it lk k x _ A Hx Ho'); [done|cbn; lia|done].
Qed.

(** The inode as it is on the disk is in the table. *)
Definition cached (k : nat) (i : Z) it : Prop :=
  exists x, it !! k = Some x /\ in_use x /\ i_inum x = i /\ i_dev x = w_dev /\ i_valid x = 1 /\ to_dinode x = dnode i.

Lemma itab_lock it k x y : itab it None -> it !! k = Some x -> in_use x -> i_inum y = i_inum x -> i_ref y = i_ref x -> i_dev y = i_dev x ->
  sl_locked (i_lock y) = 1 -> sl_pid (i_lock y) = w_pid -> i_valid y = 1 -> to_dinode y = dnode (i_inum x) ->
  itab (<[k := y]> it) (Some k) /\ refs (<[k := y]> it) = refs it /\ cached k (i_inum x) (<[k := y]> it).
Proof.
  intros A Hx Hu Ei Er Ed L1 L2 Ev Et. destruct (refs_same it k x y (tb_once _ _ A) Hx Ei Er) as [Ho' Ers].
  destruct (tb_use _ _ A k x Hx Hu) as (U1 & U2 & _). assert (in_use y) as Hu' by (unfold in_use in *; by rewrite Er).
  pose proof A as [A1 A2 A3 A4 A5]. split; [|split; [done|]].
  - split; [by rewrite length_insert|done|..].
    + intros z Hz. apply list_elem_of_lookup in Hz as [j Hj]. apply list_lookup_insert_Some in Hj as [(-> & <- & _)|[_ Hj]].
      * rewrite Er. apply A3. by eapply list_elem_of_lookup_2.
      * apply A3. by eapply list_elem_of_lookup_2.
    + intros j z Hj. apply list_lookup_insert_Some in Hj as [(-> & <- & _)|[Hne Hj]]; [by rewrite decide_True by done|].
      rewrite decide_False by congruence. by apply A4 in Hj.
    + intros j z Hj. apply list_lookup_insert_Some in Hj as [(-> & <- & _)|[_ Hj]]; [|by apply (A5 j z)].
      intros _. rewrite Ed, Ei. split; [done|]. split; [done|by right].
  - exists y. split; [apply list_lookup_insert_eq; by eapply lookup_lt_Some|]. split; [done|]. split; [done|]. split; [congruence|done].
Qed.

Lemma ilock_tab it s Pn P W L k x e : tst it s Pn P W L -> itab it None -> it !! k = Some x -> in_use x -> (length Pn < NBUF)%nat ->
  exists it' s', ilock (Some k) (mkWorld s e) = Ok tt (mkWorld s' e) /\ tst it' s' Pn P W L /\ itab it' (Some k) /\
    refs it' = refs it /\ cached k (i_inum x) it'.
Proof.
  intros T A Hx Hu Hl. destruct (tb_use _ _ A k x Hx Hu) as (U1 & (_ & [data Hd] & U2 & U3) & Uv).
  assert (k < NINODE)%nat as Hk by (rewrite <- (tb_len _ _ A); by eapply lookup_lt_Some).
  pose proof (tb_lock _ _ A k x Hx) as Hlk. rewrite decide_False in Hlk by done.
  assert (0 < i_ref x) as Hr by (pose proof Hu as Hu'; unfold in_use in Hu'; apply Is_true_true in Hu'; lia).
  assert (dnode (i_inum x) = dinode_at data (i_inum x)) as En by (unfold dnode; by rewrite Hd).
  destruct Uv as [Uv|[Uv Ut]].
  - rewrite En in U2.
    destruct (ilock_spec (Wk := with_inodes it Wk) s C Pn P W L k x data e T Hx Hk ltac:(lia) Hlk Uv U1 Hd U2 Hl) as (s' & E & T').
    exists (<[k := loaded w_pid data x]> it), s'. split; [exact E|]. split; [exact T'|].
    apply (itab_lock it k x); done.
  - exists (<[k := set_i_lock (sl_take w_pid (i_lock x)) x]> it). eexists. split; [|split].
    + unfold ilock. rewrite (bind_Ok _ _ _ _ _ (get_inode_fs (Wk := with_inodes it Wk) _ _ _ _ _ _ _ k x e T Hx)).
      destruct (Z.ltb_spec (i_ref x) 1) as [?|_]; [lia|].
      assert (sl_of (kd s) (SInode k) = Some (i_lock x)) as Hsl by (cbn; by rewrite (tst_itable _ _ _ _ _ _ T), Hx).
      rewrite (bind_Ok _ _ _ _ _ (acquiresleep_ok w_proc w_pid (SInode k) (i_lock x) s e
        (fs_calm _ _ _ _ _ _ _ T) (all_locks_inode k Hk) Hsl (fs_known _ _ _ _ _ _ _ T) Hlk)).
      assert (itable (kd (mapd (at_sl (SInode k) (sl_take w_pid)) s)) !! k = Some (set_i_lock (sl_take w_pid (i_lock x)) x)) as Hx'.
      { cbn. by rewrite list_lookup_alter_eq, (tst_itable _ _ _ _ _ _ T), Hx. }
      rewrite (bind_Ok _ _ _ _ _ (get_inode_ok k _ _ e Hx')). cbn [i_valid set_i_lock]. rewrite Uv. reflexivity.
    + exact (tst_inode it s Pn P W L k (fun x => set_i_lock (sl_take w_pid (i_lock x)) x) x T Hx).
    + by apply (itab_lock it k x).
Qed.

(** A wakeup, of whatever channel *)
Lemma tst_woken it chan s Pn P W L : tst it s Pn P W L -> tst it (mapd (all_procs (wake_eff chan (Some w_proc))) s) Pn P W L.
Proof.
  intros T. assert (all_procs (wake_eff chan (Some w_proc)) (kd s) =
    beside (imap (wake_eff chan (Some w_proc)) (procs (kd s))) (vdiskS (kd s)) (virtio_regs (kd s)) (kd s)) as E by (by destruct (kd s)).
  unfold mapd. rewrite E. apply (fsst_beside (Wk := with_inodes it Wk) s C Pn [] P W L); [| |exact T].
  - apply list_eq. intros q. rewrite !list_lookup_fmap, list_lookup_imap. destruct (procs (kd s) !! q) as [pr|]; [|done]. cbn. f_equal.
    unfold wake_eff, woken. destruct (bool_decide _); [done|]. by destruct (bool_decide _ && _).
  - rewrite <- (fs_platter (Wk := with_inodes it Wk) _ _ _ _ _ _ _ T). exact (fs_disk (Wk := with_inodes it Wk) _ _ _ _ _ _ _ T).
Qed.

Lemma iunlock_spec it s Pn P W L k i e : tst it s Pn P W L -> itab it (Some k) -> cached k i it ->
  exists it' s' x, iunlock (Some k) (mkWorld s e) = Ok tt (mkWorld s' e) /\ tst it' s' Pn P W L /\ itab it' None /\ refs it' = refs it /\
    it' !! k = Some x /\ in_use x /\ i_inum x = i /\ i_valid x = 1 /\ to_dinode x = dnode i /\
    forall j y, it !! j = Some y -> exists y', it' !! j = Some y' /\ i_inum y' = i_inum y /\ i_ref y' = i_ref y.
Proof.
  intros T A (x & Hx & Hu & Hi & Hd & Hv & Ht). pose proof (tb_lock _ _ A k x Hx) as Hlk. rewrite decide_True in Hlk by done. destruct Hlk as [L1 L2].
  assert (k < NINODE)%nat as Hk by (rewrite <- (tb_len _ _ A); by eapply lookup_lt_Some).
  assert (0 < i_ref x) as Hr by (pose proof Hu as Hu'; unfold in_use in Hu'; apply Is_true_true in Hu'; lia).
  assert (sl_of (kd s) (SInode k) = Some (i_lock x)) as Hsl by (cbn; by rewrite (tst_itable _ _ _ _ _ _ T), Hx).
  set (y := set_i_lock (sl_drop (i_lock x)) x). destruct (refs_same it k x y (tb_once _ _ A) Hx eq_refl eq_refl) as [Ho' Er].
  exists (<[k := y]> it). eexists. exists y. split; [|split; [|split; [|split; [done|]]]].
  - unfold iunlock. rewrite (bind_Ok _ _ _ _ _ (holdingsleep_ok w_proc w_pid (SInode k) (i_lock x) s e
      (fs_calm _ _ _ _ _ _ _ T) (all_locks_inode k Hk) Hsl (fs_known _ _ _ _ _ _ _ T))), L1, L2, Z.eqb_refl.
    change (negb (z2b 1 && true)) with false. cbv iota.
    rewrite (bind_Ok _ _ _ _ _ (get_inode_fs (Wk := with_inodes it Wk) _ _ _ _ _ _ _ k x e T Hx)).
    destruct (Z.ltb_spec (i_ref x) 1) as [?|_]; [lia|].
    rewrite (releasesleep_ok w_proc (SInode k) (i_lock x) s e (fs_calm _ _ _ _ _ _ _ T) (all_locks_inode k Hk) Hsl (proj1 (fs_known _ _ _ _ _ _ _ T))).
    rewrite <- (mapd_mapd (all_procs _)). reflexivity.
  - apply tst_woken. exact (tst_inode it s Pn P W L k (fun x => set_i_lock (sl_drop (i_lock x)) x) x T Hx).
  - pose proof A as [A1 A2 A3 A4 A5]. split; [by rewrite length_insert|done|..].
    + intros z Hz. apply list_elem_of_lookup in Hz as [j Hj]. apply list_lookup_insert_Some in Hj as [(-> & <- & _)|[_ Hj]].
      * apply (A3 x). by eapply list_elem_of_lookup_2.
      * apply A3. by eapply list_elem_of_lookup_2.
    + intros j z Hj. rewrite decide_False by done. apply list_lookup_insert_Some in Hj as [(-> & <- & _)|[Hne Hj]]; [done|].
      apply A4 in Hj. by rewrite decide_False in Hj by congruence.
    + intros j z Hj. apply list_lookup_insert_Some in Hj as [(-> & <- & _)|[_ Hj]]; [exact (A5 j x Hx)|by apply (A5 j z)].
  - assert (<[k := y]> it !! k = Some y) as Hy by (apply list_lookup_insert_eq; by eapply lookup_lt_Some).
    split; [done|]. do 4 (split; [done|]). intros j z Hj. destruct (decide (j = k)) as [->|Hne].
    + rewrite Hx in Hj. injection Hj as <-. by exists y.
    + exists z. by rewrite list_lookup_insert_ne by done.
Qed.

(** iput gives the reference back; the inode is on the disk still. *)
Lemma iput_spec it s Pn P W L k x e : tst it s Pn P W L -> itab it None -> it !! k = Some x -> in_use x ->
  exists it' s', iput k (mkWorld s e) = Ok tt (mkWorld s' e) /\ tst it' s' Pn P W L /\ itab it' None /\
    refs it' = drop_ref (i_inum x) (refs it) /\
    forall j y, it !! j = Some y -> in_use y -> (j = k -> 1 < i_ref y) -> exists y', it' !! j = Some y' /\ in_use y' /\ i_inum y' = i_inum y.
Proof.
  intros T A Hx Hu. pose proof (fs_calm _ _ _ _ _ _ _ T) as Hc. unfold iput.
  rewrite (bind_Ok _ _ _ _ _ (acquire_calm w_proc s e Hc LItable itable_lock)).
  assert (itable (kd (acq LItable s)) !! k = Some x) as Hx' by (rewrite <- Hx; exact (f_equal (lookup k) (tst_itable _ _ _ _ _ _ T))).
  rewrite (bind_Ok _ _ _ _ _ (get_inode_ok k x _ e Hx')). destruct (tb_use _ _ A k x Hx Hu) as (U1 & U2 & U3).
  assert ((i_ref x =? 1) && z2b (i_valid x) && (i_nlink x =? 0) = false) as ->.
  { destruct U3 as [->|[_ Et]]; [by rewrite andb_false_r|]. destruct U2 as (_ & _ & _ & Hn). rewrite <- Et in Hn. cbn in Hn.
    destruct (Z.eqb_spec (i_nlink x) 0); [done|]. by rewrite andb_false_r. }
  cbn [when]. run. rewrite (bind_Ok _ _ _ _ _ (upd_inode_ok k _ x _ e Hx')). rewrite (release_calm w_proc s e Hc LItable _ itable_lock).
  pose proof (tb_ref _ _ A x ltac:(by eapply list_elem_of_lookup_2)) as Hb.
  assert (0 < i_ref x) as Hr by (pose proof Hu as Hu'; unfold in_use in Hu'; apply Is_true_true in Hu'; lia).
  assert (s32 (i_ref x - 1) = i_ref x - 1) as Es by (apply s32_small; lia).
  destruct (refs_down it k x (tb_once _ _ A) Hx Hu) as [Ho' Er]. exists (<[k := set_i_ref (i_ref x - 1) x]> it). eexists. split; [done|].
  split; [|split; [|split; [done|]]].
  - pose proof (tst_inode it s Pn P W L k (fun x => set_i_ref (s32 (i_ref x - 1)) x) x T Hx) as T'. cbv beta in T'. by rewrite Es in T'.
  - apply (itab_insert it None k x _ A Hx Ho'); [done|cbn; lia|done].
  - intros j y Hy Huy Hm. destruct (decide (j = k)) as [->|Hne].
    + rewrite Hx in Hy. injection Hy as <-. eexists. split; [apply list_lookup_insert_eq; by eapply lookup_lt_Some|].
      split; [|done]. unfold in_use. cbn. apply Is_true_true. specialize (Hm eq_refl). lia.
    + exists y. by rewrite list_lookup_insert_ne by done.
Qed.

Lemma iunlockput_spec it s Pn P W L k i e : tst it s Pn P W L -> itab it (Some k) -> cached k i it ->
  exists it' s', iunlockput k (mkWorld s e) = Ok tt (mkWorld s' e) /\ tst it' s' Pn P W L /\ itab it' None /\ refs it' = drop_ref i (refs it) /\
    forall j y, it !! j = Some y -> in_use y -> (j = k -> 1 < i_ref y) -> exists y', it' !! j = Some y' /\ in_use y' /\ i_inum y' = i_inum y.
Proof.
  intros T A Hc. destruct (iunlock_spec it s Pn P W L k i e T A Hc) as (it1 & s1 & x & E1 & T1 & A1 & R1 & Hx & Hu & Hi & _ & _ & K1).
  destruct (iput_spec it1 s1 Pn P W L k x e T1 A1 Hx Hu) as (it2 & s2 & E2 & T2 & A2 & R2 & K2).
  exists it2, s2. unfold iunlockput. rewrite (bind_Ok _ _ _ _ _ E1). split; [done|]. split; [done|]. split; [done|]. split; [by rewrite R2, R1, Hi|].
  intros j y Hy Huy Hm. destruct (K1 j y Hy) as (y1 & Hy1 & Ei & Er). destruct (K2 j y1 Hy1) as (y2 & Hy2 & Hu2 & Ei2).
  - unfold in_use in *. by rewrite Er.
  - intros ->. rewrite Er. by apply Hm.
  - exists y2. split; [done|]. split; [done|congruence].
Qed.

(** ** Looking up a name *)

Definition node (i : Z) : inode := from_dinode (dnode i) inode0.

(** The directory [i] has the bytes [bs]. *)
Record dir_ok (i : Z) (bs : list Z) : Prop := {
  dir_type : di_type (dnode i) = T_DIR;
  dir_size : di_size (dnode i) = Z.of_nat (length bs);
  dir_small : Z.of_nat (length bs) < 2147483648;
  dir_whole : (16 * (length bs / 16) = length bs)%nat;
  dir_bytes : Forall is_byte bs;
  dir_reads : reads_as C (node i) 0 bs;
  dir_block bn a data : 0 <= bn -> file_addr C (node i) bn = Some a -> C !! a = Some data -> block_bytes data
}.

Lemma reads_as_sub x off bs k n : reads_as C x off bs -> reads_as C x (off + Z.of_nat k) (read_at k n bs).
Proof.
  intros R i c Hi. unfold read_at in Hi. apply lookup_take_Some in Hi as [Hi _]. rewrite lookup_drop in Hi.
  apply R in Hi. rewrite <- Hi. f_equal. lia.
Qed.

Lemma read_dirent_spec it s Pn P W L dp i bs k msg e : tst it s Pn P W L -> cached dp i it -> dir_ok i bs -> (length Pn < NBUF)%nat ->
  (k < length bs / 16)%nat ->
  exists s', read_dirent dp (Z.of_nat k * 16) msg (mkWorld s e) = Ok (entry_at bs k) (mkWorld s' e) /\ tst it s' Pn P W L.
Proof.
  intros T (x & Hx & Hu & Hi & Hd & Hv & Ht) [D1 D2 D3 D4 D5 D6 D7] Hl Hk.
  assert (i_size x = Z.of_nat (length bs)) as Es by (rewrite <- D2, <- Ht; done).
  assert (i_addrs x = i_addrs (node i)) as Ea by (exact (f_equal di_addrs Ht)).
  assert (length (read_at (16 * k) 16 bs) = 16%nat) as Hr by (unfold read_at; rewrite length_take, length_drop; lia).
  destruct (readi_spec (Wk := with_inodes it Wk) s C Pn P W L dp x 0 (Z.of_nat k * 16) 16 (read_at (16 * k) 16 bs) e T Hx Hd Hl) as (s' & E & T').
  - intros bn a data Hb Ha. rewrite (file_addr_same C C (node i) x bn ltac:(done) Ea) in Ha. by apply (D7 bn).
  - lia.
  - lia.
  - lia.
  - lia.
  - rewrite Hr. lia.
  - intros j c Hj. apply (file_byte_same C C (node i) x); [done|done|lia|].
    replace (Z.of_nat k * 16) with (0 + Z.of_nat (16 * k)) by lia. by apply (reads_as_sub (node i) 0 bs (16 * k) 16 D6).
  - rewrite Hr in E. exists s'. split; [|exact T']. unfold read_dirent. change sizeof_dirent with 16. rewrite (bind_Ok _ _ _ _ _ E). done.
Qed.

Lemma entry_name i bs k : dir_ok i bs -> (k < length bs / 16)%nat ->
  length (de_name (entry_at bs k)) = Z.to_nat DIRSIZ /\ Forall is_byte (de_name (entry_at bs k)).
Proof.
  intros [D1 D2 D3 D4 D5 D6 D7] Hk. unfold entry_at, dirent_of. cbn [de_name]. unfold read_at. split.
  - rewrite length_take, length_drop, length_take, length_drop. change (Z.to_nat DIRSIZ) with 14%nat. lia.
  - by apply Forall_take, Forall_drop, Forall_take, Forall_drop.
Qed.

(** The loop of dirlookup, from the entry [k] on: it comes to the first entry
    with the name, whose inode it takes. *)
Lemma dir_scan it s Pn P W L dp i bs nm el k n e : tst it s Pn P W L -> cached dp i it -> dir_ok i bs -> (length Pn < NBUF)%nat ->
  holds_name nm el -> 0 ∉ el -> Forall is_byte el -> (k + n = length bs / 16)%nat ->
  exists s1, tst it s1 Pn P W L /\
  for_find ((fun i => i * sizeof_dirent) <$> seqZ (Z.of_nat k) (Z.of_nat n)) (fun off =>
    de ← read_dirent dp off "dirlookup read";
    if de_inum de =? 0 then mret None else
    c ← namecmp nm (de_name de);
    if c =? 0 then
      x ← get_inode dp;
      ip ← iget (i_dev x) (de_inum de);
      mret (Some (ip, off))
    else mret None) (mkWorld s e) =
  match list_find (named el) (entry_at bs <$> seq k n) with
  | Some (m, de) => (ip ← iget w_dev (de_inum de); mret (Some (ip, Z.of_nat (k + m) * 16))) (mkWorld s1 e)
  | None => Ok None (mkWorld s1 e)
  end.
Proof.
  intros T Hc D Hl Hn Hz Be. revert k s T. induction n as [|n IH]; intros k s T Hk.
  - exists s. split; [done|]. by rewrite seqZ_nil by lia.
  - rewrite Nat2Z.inj_succ, seqZ_cons by lia. rewrite Z.pred_succ. cbn [fmap list_fmap for_find seq list_find].
    destruct (read_dirent_spec it s Pn P W L dp i bs k "dirlookup read" e T Hc D Hl ltac:(lia)) as (s1 & E1 & T1).
    destruct (entry_name i bs k D ltac:(lia)) as [Ln Bn]. change sizeof_dirent with 16. set (de := entry_at bs k) in *.
    rewrite bind_assoc, (bind_Ok _ _ _ _ _ E1).
    destruct (IH (S k) s1 T1 ltac:(lia)) as (s2 & T2 & E2). replace (Z.of_nat (S k)) with (Z.succ (Z.of_nat k)) in E2 by lia.
    assert (forall o, match prod_map S id <$> o with Some (m, de0) => (ip ← iget w_dev (de_inum de0); mret (Some (ip, Z.of_nat (k + m) * 16))) (mkWorld s2 e) | None => Ok None (mkWorld s2 e) end =
      match o with Some (m, de0) => (ip ← iget w_dev (de_inum de0); mret (Some (ip, Z.of_nat (S k + m) * 16))) (mkWorld s2 e) | None => Ok None (mkWorld s2 e) end) as Hshift.
    { intros [[m de0]|]; [|done]. cbn. by rewrite Nat.add_succ_r. }
    destruct (Z.eqb_spec (de_inum de) 0) as [E0|H0].
    + rewrite decide_False by (by intros [? _]). exists s2. split; [done|]. rewrite Hshift. exact E2.
    + destruct (strncmp_name nm el (de_name de) Hn Hz Be Ln Bn) as (z & Ez & Hzz). 
      rewrite bind_assoc, (bind_Ok _ _ _ z (mkWorld s1 e)) by (unfold namecmp; by rewrite Ez).
      destruct (Z.eqb_spec z 0) as [Hz0|Hz0].
      * rewrite decide_True by (split; [done|by apply Hzz]). exists s1. split; [done|]. destruct Hc as (x & Hx & _ & _ & Hd & _).
        rewrite bind_assoc, (bind_Ok _ _ _ _ _ (get_inode_fs (Wk := with_inodes it Wk) _ _ _ _ _ _ _ dp x e T1 Hx)), Hd, bind_assoc, Nat.add_0_r. done.
      * rewrite decide_False by (intros [_ Hx]; by apply Hz0, Hzz). exists s2. split; [done|]. rewrite Hshift. exact E2.
Qed.

Lemma dirlookup_spec it s Pn P W L dp i bs nm el e : tst it s Pn P W L -> cached dp i it -> dir_ok i bs -> (length Pn < NBUF)%nat ->
  holds_name nm el -> 0 ∉ el -> Forall is_byte el ->
  exists s1, tst it s1 Pn P W L /\ dirlookup dp nm (mkWorld s e) =
    match dir_find el bs with
    | Some (m, de) => (ip ← iget w_dev (de_inum de); mret (Some (ip, Z.of_nat m * 16))) (mkWorld s1 e)
    | None => Ok None (mkWorld s1 e)
    end.
Proof.
  intros T Hc D Hl Hn Hz Be. destruct (dir_scan it s Pn P W L dp i bs nm el 0 (length bs / 16) e T Hc D Hl Hn Hz Be eq_refl) as (s1 & T1 & E1).
  exists s1. split; [done|]. unfold dirlookup. pose proof Hc as (x & Hx & _ & _ & _ & _ & Ht).
  rewrite (bind_Ok _ _ _ _ _ (get_inode_fs (Wk := with_inodes it Wk) _ _ _ _ _ _ _ dp x e T Hx)).
  change (i_type x) with (di_type (to_dinode x)). change (i_size x) with (di_size (to_dinode x)). rewrite Ht, (dir_type _ _ D), (dir_size _ _ D), Z.eqb_refl.
  cbn [negb]. unfold steps.
  replace ((Z.of_nat (length bs) + sizeof_dirent - 1) / sizeof_dirent) with (Z.of_nat (length bs / 16)); [exact E1|].
  pose proof (dir_whole _ _ D) as Hw. change sizeof_dirent with 16. rewrite <- Hw at 2. rewrite Nat2Z.inj_mul. symmetry.
  replace (Z.of_nat 16 * Z.of_nat (length bs / 16) + 16 - 1) with (Z.of_nat (length bs / 16) * 16 + 15) by lia.
  rewrite Z.div_add_l by lia. change (15 / 16) with 0. lia.
Qed.

(** ** Following a path *)

(** The directories of the tree *)
Record tree (dirs : gmap Z (list Z)) : Prop := {
  tr_dir i bs : dirs !! i = Some bs -> dir_ok i bs;
  tr_type i : live i -> di_type (dnode i) = T_DIR -> is_Some (dirs !! i);
  tr_entry i bs de : dirs !! i = Some bs -> de ∈ entry_list bs -> de_inum de <> 0 -> live (de_inum de)
}.
End tree.

(** The inode the names [els] lead to from [i]; with [parent], the directory
    the last name is to be looked up in. *)
Fixpoint resolve (dirs : gmap Z (list Z)) (parent : bool) (i : Z) (els : list (list Z)) : option Z :=
  match els with
  | [] => if parent then None else Some i
  | el :: els =>
    match dirs !! i with
    | None => None
    | Some bs =>
      if parent && bool_decide (els = []) then Some i else
      match dir_find el bs with
      | Some (_, de) => resolve dirs parent (de_inum de) els
      | None => None
      end
    end
  end.

Lemma elements_sub cur str el : el ∈ elements cur str -> el ⊆ cur ++ str.
Proof.
  assert (forall cur, el ∈ flush cur -> el = cur) as Hfl.
  { intros [|a cur'] Hin; cbn [flush] in Hin; [by apply elem_of_nil in Hin|by apply list_elem_of_singleton in Hin]. }
  revert cur. induction str as [|c str IH]; intros cur Hin; cbn [elements] in Hin.
  - apply Hfl in Hin as ->. by rewrite app_nil_r.
  - destruct (c =? chr "/").
    + apply elem_of_app in Hin as [Hin|Hin]; [apply Hfl in Hin as ->; set_solver|]. apply IH in Hin. set_solver.
    + apply IH in Hin. set_solver.
Qed.

Lemma add_ref_le i j R : default 0 (add_ref i R !! j) <= default 0 (R !! j) + 1.
Proof. unfold add_ref. destruct (decide (i = j)) as [->|]; [by rewrite lookup_insert_eq|]. rewrite lookup_insert_ne by done. lia. Qed.

Lemma add_ref_size i R : (size (add_ref i R) <= S (size R))%nat.
Proof. unfold add_ref. rewrite map_size_insert. destruct (R !! i); cbn; lia. Qed.

Section namex.
Context {Wk : Worker} {K : Disk} {DS : DiskSpec} (C : gmap Z (list Z)) (dirs : gmap Z (list Z)) (Tr : tree C dirs).
Context (Pn : list Z) (P : gmap Z (list Z)) (W : list (Z * list Z)) (L : logstate) (Hl : (length Pn < NBUF)%nat).

(** The references others hold: there is room for two more inodes. *)
Context (R0 : gmap Z Z) (Hpos : map_Forall (fun _ n => 0 < n) R0) (Hmax : forall i, default 0 (R0 !! i) < 2147483645) (Hroom : (S (size R0) < NINODE)%nat).

(** What namex returns for a path that leads to [o] *)
Definition found (parent : bool) (str : list Z) (o : option Z) (r : option (nat * list Z)) (it : list inode) : Prop :=
  match o with
  | None => r = None /\ refs it = R0
  | Some j => exists ip nm x, r = Some (ip, nm) /\ it !! ip = Some x /\ in_use x /\ i_inum x = j /\ refs it = add_ref j R0 /\
      (parent = true -> exists el, last (elements [] str) = Some el /\ holds_name nm el)
  end.

Lemma last_cons_ne {A} (a : A) l : l <> [] -> last (a :: l) = last l.
Proof. by destruct l. Qed.

Lemma namex_loop_spec fuel parent it s ip x str junk name e : tst C it s Pn P W L -> itab C it None -> refs it = add_ref (i_inum x) R0 ->
  it !! ip = Some x -> in_use x -> 0 ∉ str -> Forall (Forall is_byte) (elements [] str) -> length name = Z.to_nat DIRSIZ -> (length str < fuel)%nat ->
  exists r it' s', namex_loop fuel ip (str ++ 0 :: junk) parent name (mkWorld s e) = Ok r (mkWorld s' e) /\
    tst C it' s' Pn P W L /\ itab C it' None /\ found parent str (resolve dirs parent (i_inum x) (elements [] str)) r it'.
Proof using Tr Hl Hpos Hmax Hroom.
  revert it s ip x str name. induction fuel as [|fuel IH]; intros it s ip x str name T A HR Hx Hu Hz Hb Hn Hf; [lia|]. cbn [namex_loop].
  pose proof (skipelem_spec str junk name (mkWorld s e) Hz Hn) as Hs. destruct (elements [] str) as [|el els] eqn:Ee.
  { rewrite (bind_Ok _ _ _ _ _ Hs). cbn [resolve]. destruct parent.
    - destruct (iput_spec C it s Pn P W L ip x e T A Hx Hu) as (it1 & s1 & E1 & T1 & A1 & R1 & _). exists None, it1, s1.
      rewrite (bind_Ok _ _ _ _ _ E1). split; [done|]. split; [done|]. split; [done|]. cbn [found]. split; [done|]. by rewrite R1, HR, drop_ref_add.
    - exists (Some (ip, name)), it, s. split; [done|]. split; [done|]. split; [done|]. cbn [found]. exists ip, name, x. done. }
  destruct Hs as (str' & nm & Hs & Hz' & Hl' & Ee' & Hnm & Hnil). rewrite (bind_Ok _ _ _ _ _ Hs). clear Hs.
  destruct (ilock_tab C it s Pn P W L ip x e T A Hx Hu Hl) as (it1 & s1 & E1 & T1 & A1 & R1 & Hc1). rewrite (bind_Ok _ _ _ _ _ E1). clear E1.
  pose proof Hc1 as (x1 & Hx1 & _ & Hi1 & _ & _ & Ht1). cbn [resolve].
  rewrite (bind_Ok _ _ _ _ _ (get_inode_fs (Wk := with_inodes it1 Wk) _ _ _ _ _ _ _ ip x1 e T1 Hx1)).
  change (i_type x1) with (di_type (to_dinode x1)). rewrite Ht1.
  assert (exists it2 s2, iunlockput ip (mkWorld s1 e) = Ok tt (mkWorld s2 e) /\ tst C it2 s2 Pn P W L /\ itab C it2 None /\ refs it2 = R0) as Hput.
  { destruct (iunlockput_spec C it1 s1 Pn P W L ip _ e T1 A1 Hc1) as (it2 & s2 & E2 & T2 & A2 & R2 & _). exists it2, s2.
    split; [done|]. split; [done|]. split; [done|]. by rewrite R2, R1, HR, drop_ref_add. }
  destruct (tb_use C _ _ A ip x Hx Hu) as (_ & Hlive & _).
  destruct (Z.eqb_spec (di_type (dnode C (i_inum x))) T_DIR) as [Ed|Ed]; cbn [negb].
  2: { destruct (dirs !! i_inum x) as [bs|] eqn:Eb; [by destruct Ed; apply (tr_dir C _ Tr _ _ Eb)|].
       destruct Hput as (it2 & s2 & E2 & T2 & A2 & R2). rewrite (bind_Ok _ _ _ _ _ E2). by exists None, it2, s2. }
  destruct (tr_type C _ Tr _ Hlive Ed) as [bs Eb]. rewrite Eb. pose proof (tr_dir C _ Tr _ _ Eb) as D.
  apply Forall_cons in Hb as [Hbe Hbs]. assert (0 ∉ el) as Hze.
  { intros Hin. apply Hz. apply (elements_sub [] str el); [rewrite Ee; by left|done]. }
  assert (exists c, head (str' ++ 0 :: junk) = Some c /\ (c =? 0) = bool_decide (els = [])) as (c & Hh & Hc0).
  { destruct str' as [|c str'']; cbn; eexists; (split; [done|]).
    - rewrite bool_decide_eq_true_2 by (by apply Hnil). done.
    - rewrite bool_decide_eq_false_2 by (intros En; by apply Hnil in En). apply not_elem_of_cons in Hz' as [Hne _]. lia. }
  rewrite Hh. unfold the at 1. run. rewrite Hc0.
  destruct (parent && bool_decide (els = [])) eqn:Ep.
  { destruct (iunlock_spec C it1 s1 Pn P W L ip _ e T1 A1 Hc1) as (it2 & s2 & x2 & E2 & T2 & A2 & R2 & Hx2 & Hu2 & Hi2 & _). rewrite (bind_Ok _ _ _ _ _ E2).
    eexists _, it2, s2. split; [done|]. split; [done|]. split; [done|]. exists ip, nm, x2. do 4 (split; [done|]). split; [by rewrite R2, R1, HR|].
    intros _. exists el. split; [|done]. apply andb_true_iff in Ep as [_ Ep]. apply bool_decide_eq_true in Ep. by rewrite Ee, Ep. }
  destruct (dirlookup_spec C it1 s1 Pn P W L ip (i_inum x) bs nm el e T1 Hc1 D Hl Hnm Hze Hbe) as (s2 & T2 & E2).
  destruct (dir_find el bs) as [[m de]|] eqn:Ef.
  2: { rewrite (bind_Ok _ _ _ _ _ E2). destruct (iunlockput_spec C it1 s2 Pn P W L ip _ e T2 A1 Hc1) as (it3 & s3 & E3 & T3 & A3 & R3 & _).
       rewrite (bind_Ok _ _ _ _ _ E3). exists None, it3, s3. split; [done|]. split; [done|]. split; [done|]. split; [done|]. by rewrite R3, R1, HR, drop_ref_add. }
  apply list_find_Some in Ef as (Hde & [Hi0 _] & _). apply list_elem_of_lookup_2 in Hde.
  pose proof (tr_entry C _ Tr _ _ _ Eb Hde Hi0) as Hlj. set (j := de_inum de) in *.
  destruct (iget_spec C it1 (Some ip) s2 Pn P W L j e T2 A1 Hlj) as (k & x3 & it3 & s3 & E3 & T3 & A3 & R3 & Hx3 & Hu3 & Hi3 & K3).
  { rewrite R1, HR. pose proof (add_ref_le (i_inum x) j R0). specialize (Hmax j). lia. }
  { right. rewrite R1, HR. pose proof (add_ref_size (i_inum x) R0). lia. }
  rewrite (bind_Ok _ _ _ (Some (k, Z.of_nat m * 16)) (mkWorld s3 e)) by (rewrite E2; by rewrite (bind_Ok _ _ _ _ _ E3)). rewrite R1, HR in R3.
  assert (cached C ip (i_inum x) it3) as Hc3.
  { destruct Hc1 as (y & Hy & Uy & Iy & Dy & Vy & Ty). destruct (K3 ip y Hy Uy) as (n & Hn0 & Hy3). exists (set_i_ref n y). split; [done|].
    split; [unfold in_use; cbn; apply Is_true_true; lia|]. done. }
  destruct (iunlockput_spec C it3 s3 Pn P W L ip _ e T3 A3 Hc3) as (it4 & s4 & E4 & T4 & A4 & R4 & K4). rewrite (bind_Ok _ _ _ _ _ E4).
  rewrite R3, drop_add_ref in R4 by done. destruct (K4 k x3 Hx3 Hu3) as (x4 & Hx4 & Hu4 & Hi4).
  { intros ->. destruct Hc3 as (y & Hy & _ & Hiy & _). rewrite Hx3 in Hy. injection Hy as <-.
    assert (refs it3 !! j = Some (i_ref x3)) as Hr by (apply (refs_lookup it3 _ _ (tb_once C _ _ A3)); by exists ip, x3).
    rewrite R3, <- Hi3, Hiy in Hr. unfold add_ref in Hr. rewrite lookup_insert_eq in Hr. injection Hr as <-. rewrite lookup_insert_eq. cbn.
    destruct (R0 !! i_inum x) as [n|] eqn:En; cbn; [|lia]. pose proof (Hpos _ _ En). cbn in *. lia. }
  rewrite Hi3 in Hi4. destruct (IH it4 s4 k x4 str' nm T4 A4) as (r & it5 & s5 & E5 & T5 & A5 & F5); try done; [by rewrite R4, Hi4|by rewrite Ee'|by apply Hnm|lia|].
  exists r, it5, s5. split; [done|]. split; [done|]. split; [done|]. rewrite Hi4, Ee' in F5. unfold found in *.
  destruct (resolve dirs parent j els) as [j'|]; [|done]. destruct F5 as (ip' & nm' & x' & -> & F1 & F2 & F3 & F4 & F5).
  exists ip', nm', x'. do 5 (split; [done|]). intros ->. destruct (F5 eq_refl) as (el' & Hla & Hho). exists el'. split; [|done].
  rewrite Ee, last_cons_ne; [by rewrite <- Ee'|]. intros ->. by rewrite Ee' in Hla.
Qed.
End namex.

(** Where a path starts *)
Definition starts_at `{Worker} (str : list Z) (s : kstate) (it : list inode) (i : Z) : Prop :=
  if bool_decide (head str = Some (chr "/")) then i = ROOTINO
  else exists pr cwd x, procs (kd s) !! w_proc = Some pr /\ p_cwd pr = Some cwd /\ it !! cwd = Some x /\ in_use x /\ i_inum x = i.

Lemma elements_bytes str : Forall is_byte str -> Forall (Forall is_byte) (elements [] str).
Proof.
  intros Hb. apply Forall_forall. intros el Hel. apply Forall_forall. intros c Hc. rewrite Forall_forall in Hb.
  by apply Hb, (elements_sub [] str el Hel).
Qed.

Lemma namex_spec {Wk : Worker} {K : Disk} {DS : DiskSpec} C dirs it s Pn P W L parent i str junk name e :
  tst C it s Pn P W L -> itab C it None -> tree C dirs -> live C ROOTINO -> w_dev = ROOTDEV -> (length Pn < NBUF)%nat ->
  (S (size (refs it)) < NINODE)%nat -> (forall i, default 0 (refs it !! i) < 2147483645) ->
  0 ∉ str -> Forall is_byte str -> length name = Z.to_nat DIRSIZ -> starts_at str s it i ->
  exists r it' s', namex (str ++ 0 :: junk) parent name (mkWorld s e) = Ok r (mkWorld s' e) /\
    tst C it' s' Pn P W L /\ itab C it' None /\ found (refs it) parent str (resolve dirs parent i (elements [] str)) r it'.
Proof.
  intros T A Tr Hroot Hdev Hl Hroom Hmax Hz Hb Hn Hi. unfold namex. pose proof (tb_once C _ _ A) as Ho.
  assert (exists ip x it1 s1, (if default 0 (head (str ++ 0 :: junk)) =? chr "/" then iget ROOTDEV ROOTINO
      else p ← myproc; p ← nonnull p; pr ← get_proc p; cwd ← nonnull (p_cwd pr); idup cwd) (mkWorld s e) = Ok ip (mkWorld s1 e) /\
    tst C it1 s1 Pn P W L /\ itab C it1 None /\ refs it1 = add_ref i (refs it) /\ it1 !! ip = Some x /\ in_use x /\ i_inum x = i)
    as (ip & x & it1 & s1 & E1 & T1 & A1 & R1 & Hx & Hu & Hix).
  { unfold starts_at in Hi. assert ((default 0 (head (str ++ 0 :: junk)) =? chr "/") = bool_decide (head str = Some (chr "/"))) as ->.
    { destruct str as [|c str]; [done|]. cbn [app head default from_option id]. destruct (Z.eqb_spec c (chr "/")) as [->|Hne].
      - by rewrite bool_decide_eq_true_2.
      - rewrite bool_decide_eq_false_2; [done|]. by intros [= ?]. }
    destruct (bool_decide _).
    - subst i. rewrite <- Hdev. destruct (iget_spec C it None s Pn P W L ROOTINO e T A Hroot) as (k & x & it1 & s1 & E1 & T1 & A1 & R1 & Hx & Hu & Hix & _).
      + specialize (Hmax ROOTINO). lia.
      + right. lia.
      + by exists k, x, it1, s1.
    - destruct Hi as (pr & cwd & x & Hpr & Hcwd & Hx & Hu & Hix). assert (refs it !! i = Some (i_ref x)) as Hri by (apply (refs_lookup it _ _ Ho); by exists cwd, x).
      destruct (idup_spec C it None s Pn P W L cwd x e T A Hx Hu) as (it1 & s1 & E1 & T1 & A1 & R1 & K1).
      { specialize (Hmax i). rewrite Hri in Hmax. cbn in Hmax. lia. }
      destruct (K1 cwd x Hx Hu) as (n & Hn0 & Hx1). exists cwd, (set_i_ref n x), it1, s1. rewrite Hix in R1.
      pose proof (fs_calm _ _ _ _ _ _ _ T) as Hc. split.
      + rewrite (bind_Ok _ _ _ (Some w_proc) (mkWorld s e)).
        * unfold nonnull, the at 1. run. rewrite (bind_Ok _ _ _ _ _ (get_proc_ok w_proc pr s e Hpr)), Hcwd. exact E1.
        * rewrite myproc_ok; [by rewrite (calm_cur _ _ Hc)|by apply Hc|rewrite (calm_noff _ _ Hc); lia].
      + do 3 (split; [done|]). split; [done|]. split; [unfold in_use; cbn; apply Is_true_true; lia|done]. }
  rewrite (bind_Ok _ _ _ (default 0 (head (str ++ 0 :: junk))) (mkWorld s e)) by (by destruct str).
  rewrite (bind_Ok _ _ _ _ _ E1). rewrite <- Hix in R1 |- *.
  apply (namex_loop_spec C dirs Tr Pn P W L Hl (refs it) (refs_pos it Ho) Hmax Hroom _ parent it1 s1 ip x str junk name e); try done; [by apply elements_bytes|].
  rewrite length_app. cbn. lia.
Qed.

(** C9: namex follows the path.  In a file system whose directories are a
    tree of names, with a table of inodes that agrees with the disk, no inode
    locked and room for two more, namex of a terminated path returns: with a
    reference to the inode that the names of the path lead to, each looked up
    as the first entry with that name in the directory before it, from the
    root or from the current directory; or with nothing, if a name is not there
    or what it is looked up in is not a directory.  For nameiparent it is the
    directory of the last name, and the array holds this name.  In each case
    no lock and no other reference is kept, and nothing on the disk changes. *)
Theorem namex_correct {Wk : Worker} {K : Disk} {DS : DiskSpec} C dirs it s Pn P W L parent i str junk name e :
  tst C it s Pn P W L -> itab C it None -> tree C dirs -> live C ROOTINO -> w_dev = ROOTDEV -> (length Pn < NBUF)%nat ->
  (S (size (refs it)) < NINODE)%nat -> (forall i, default 0 (refs it !! i) < 2147483645) ->
  0 ∉ str -> Forall is_byte str -> length name = Z.to_nat DIRSIZ -> starts_at str s it i ->
  exists r it' s', namex (str ++ 0 :: junk) parent name (mkWorld s e) = Ok r (mkWorld s' e) /\
    tst C it' s' Pn P W L /\ itab C it' None /\ found (refs it) parent str (resolve dirs parent i (elements [] str)) r it'.
Proof. apply namex_spec. Qed.
