(* ===== verification/VirtioSpec.v ===== *)
(** * The disk driver and the device

    A block device that obeys the virtio protocol is an interface, [BlockDevice]:
    for a request in the ring that is well formed it moves the block and posts
    the completion.  The theorem: against every such device, virtio_disk_rw, with
    the interrupt handler and the scheduler running while it sleeps, transfers
    the block as the buffer cache relies on, and leaves its descriptors as it
    found them. *)

From S2P Require Import Prelude Prog State Spinlock Printf Switch Dispatch CStr Kalloc Sleeplock Sleep Bio Virtio Cache Log LogSpec Fs FsSpec FileData.

Implicit Types (s t : kstate) (d : kdata) (v : vdisk).

(** ** Steps on the driver's structure *)

Lemma vdisk_lone : lone LVdisk.
Proof. apply lone_single. set_solver. Qed.

Definition vdisk_lock : LVdisk ∈ all_locks := proj1 vdisk_lone.

Definition at_v (f : vdisk -> vdisk) d : kdata := set_vdiskS (f (vdiskS d)) d.

Lemma vdisk_at_v f d : vdiskS (at_v f d) = f (vdiskS d).
Proof. done. Qed.

Lemma at_v_at_v f g d : at_v f (at_v g d) = at_v (fun v => f (g v)) d.
Proof. done. Qed.

Lemma at_buf_at_v b f g d : at_buf b f (at_v g d) = at_v g (at_buf b f d).
Proof. done. Qed.

Lemma modv_wkd f d t e : modv f (mkWorld (wkd d t) e) = Ok tt (mkWorld (wkd (at_v f d) t) e).
Proof. done. Qed.

Lemma upd_desc_wkd i f d t e : (i < length (vd_desc (vdiskS d)))%nat ->
  upd_desc i f (mkWorld (wkd d t) e) = Ok tt (mkWorld (wkd (at_v (fun v => set_vd_desc (alter f i (vd_desc v)) v) d) t) e).
Proof.
  intros Hi. unfold upd_desc, getv. rewrite (bind_Ok _ _ _ _ _ (getd_wkd _ d t e)).
  destruct (lookup_lt_is_Some_2 _ _ Hi) as [x Hx]. rewrite Hx. unfold the. run. apply modv_wkd.
Qed.

Lemma upd_buf_wkd b f bp d t e : bufs d !! b = Some bp ->
  upd_buf b f (mkWorld (wkd d t) e) = Ok tt (mkWorld (wkd (at_buf b f d) t) e).
Proof. intros Hb. by rewrite (upd_buf_ok b f bp (wkd d t) e Hb). Qed.

Lemma get_buf_wkd b bp d t e : bufs d !! b = Some bp -> get_buf b (mkWorld (wkd d t) e) = Ok bp (mkWorld (wkd d t) e).
Proof. intros Hb. by apply get_buf_ok. Qed.

(** ** Descriptors *)

(** The driver's tables, and what they hold for the free descriptors *)
Record tables_ok v : Prop := {
  tb_desc : length (vd_desc v) = NUM;
  tb_avail : length (vd_avail_ring v) = NUM;
  tb_used : length (vd_used_ring v) = NUM;
  tb_free : length (vd_free v) = NUM;
  tb_info_b : length (vd_info_b v) = NUM;
  tb_info_status : length (vd_info_status v) = NUM;
  tb_ops : length (vd_ops v) = NUM;
  tb_flags i x : vd_free v !! i = Some x -> x = 0 \/ x = 1
}.

Definition set_free_at (i : nat) (x : Z) v : vdisk := set_vd_free (<[i := x]> (vd_free v)) v.

(** The first free descriptor *)
Definition first_free v : option nat := fst <$> list_find (fun x => x = 1) (vd_free v).

Lemma alloc_desc_ok d t e : tables_ok (vdiskS d) ->
  alloc_desc (mkWorld (wkd d t) e) =
  match first_free (vdiskS d) with
  | Some i => Ok (Some i) (mkWorld (wkd (at_v (set_free_at i 0) d) t) e)
  | None => Ok None (mkWorld (wkd d t) e)
  end.
Proof.
  intros T. unfold alloc_desc, first_free. rewrite <- (tb_free _ T). pose proof (tb_flags _ T) as Hf.
  set (body := fun i : nat => _). assert (forall i x, vd_free (vdiskS d) !! i = Some x ->
    body i (mkWorld (wkd d t) e) = if decide (x = 1) then Ok (Some i) (mkWorld (wkd (at_v (set_free_at i 0) d) t) e)
      else Ok None (mkWorld (wkd d t) e)) as Hb.
  { intros i x Hx. unfold body, getv. rewrite (bind_Ok _ _ _ _ _ (getd_wkd _ d t e)), Hx. unfold the. run.
    destruct (Hf i x Hx) as [->| ->]; [done|]. rewrite decide_True by done. change (z2b 1) with true. cbv iota. by rewrite (bind_Ok _ _ _ _ _ (modv_wkd _ d t e)). }
  clearbody body. clear T Hf. enough (forall l k, (forall i x, l !! i = Some x -> vd_free (vdiskS d) !! (k + i)%nat = Some x) ->
    for_find (seq k (length l)) body (mkWorld (wkd d t) e) =
    match list_find (fun x => x = 1) l with
    | Some (i, _) => Ok (Some (k + i)%nat) (mkWorld (wkd (at_v (set_free_at (k + i) 0) d) t) e)
    | None => Ok None (mkWorld (wkd d t) e)
    end) as H.
  { rewrite (H (vd_free (vdiskS d)) 0%nat) by done. by destruct (list_find _ _) as [[i x]|]. }
  induction l as [|x l IH]; intros k Hl; [done|]. cbn [length seq for_find list_find].
  pose proof (Hb k x ltac:(specialize (Hl 0%nat x eq_refl); by rewrite Nat.add_0_r in Hl)) as E.
  destruct (decide (x = 1)) as [->|Hne].
  - rewrite (bind_Ok _ _ _ _ _ E). run. by rewrite Nat.add_0_r.
  - rewrite (bind_Ok _ _ _ _ _ E).
    rewrite IH by (intros i y Hi; rewrite Nat.add_succ_l, <- Nat.add_succ_r; by apply Hl).
    destruct (list_find _ l) as [[i y]|]; [|done]. cbn. by rewrite Nat.add_succ_r.
Qed.

Lemma first_free_Some v i : first_free v = Some i -> vd_free v !! i = Some 1.
Proof.
  unfold first_free. intros H. apply fmap_Some in H as ([j x] & H & ->). by apply list_find_Some in H as (Hl & -> & _).
Qed.

(** How many are free *)
Definition nfree v : nat := length (filter (fun x => x = 1) (vd_free v)).

Lemma first_free_is_Some v : (0 < nfree v)%nat -> exists i, first_free v = Some i.
Proof.
  unfold nfree, first_free. intros H. destruct (list_find (fun x => x = 1) (vd_free v)) as [[i x]|] eqn:E; [by exists i|].
  apply list_find_None in E. exfalso. destruct (filter (fun x => x = 1) (vd_free v)) as [|y l] eqn:E'; [cbn in H; lia|].
  assert (y ∈ filter (fun x => x = 1) (vd_free v)) as Hy by (rewrite E'; by left).
  apply list_elem_of_filter in Hy as [-> Hin]. rewrite Forall_forall in E. by apply (E 1).
Qed.

Lemma nfree_take v i : vd_free v !! i = Some 1 -> nfree (set_free_at i 0 v) = (nfree v - 1)%nat.
Proof.
  unfold nfree, set_free_at. cbn [vd_free set_vd_free]. intros H. rewrite <- (list_insert_id _ _ _ H) at 2.
  pose proof (lookup_lt_Some _ _ _ H) as Hlt. rewrite !insert_take_drop by done. rewrite !filter_app, !filter_cons, !length_app.
  rewrite decide_False, decide_True by done. cbn [length]. lia.
Qed.

Lemma tables_ok_free i x v : x = 0 \/ x = 1 -> tables_ok v -> tables_ok (set_free_at i x v).
Proof.
  intros Hx [T1 T2 T3 T4 T5 T6 T7 T8]. split; try done; cbn [set_free_at vd_free set_vd_free].
  - by rewrite length_insert.
  - intros j y Hj. apply list_lookup_insert_Some in Hj as [(_ & -> & _)|[_ Hj]]; [done|by apply (T8 j)].
Qed.

Definition took (i0 i1 i2 : nat) v : vdisk := set_free_at i2 0 (set_free_at i1 0 (set_free_at i0 0 v)).

Lemma free_ne v i j : vd_free (set_free_at i 0 v) !! j = Some 1 -> i <> j /\ vd_free v !! j = Some 1.
Proof. cbn [set_free_at vd_free set_vd_free]. intros H. apply list_lookup_insert_Some in H as [(_ & ? & _)|[? H]]; [done|by split]. Qed.

Lemma alloc3_ok d t e : tables_ok (vdiskS d) -> (3 <= nfree (vdiskS d))%nat ->
  exists i0 i1 i2, alloc3_desc (mkWorld (wkd d t) e) = Ok (Some (i0, i1, i2)) (mkWorld (wkd (at_v (took i0 i1 i2) d) t) e) /\
    i0 <> i1 /\ i0 <> i2 /\ i1 <> i2 /\ forall i, i ∈ [i0; i1; i2] -> vd_free (vdiskS d) !! i = Some 1.
Proof.
  intros T Hn. unfold alloc3_desc. destruct (first_free_is_Some (vdiskS d) ltac:(lia)) as [i0 H0].
  pose proof (alloc_desc_ok d t e T) as E0. rewrite H0 in E0. rewrite (bind_Ok _ _ _ _ _ E0).
  apply first_free_Some in H0 as F0. set (d1 := at_v (set_free_at i0 0) d).
  assert (tables_ok (vdiskS d1)) as T1 by (by apply tables_ok_free; [left|]).
  assert (nfree (vdiskS d1) = (nfree (vdiskS d) - 1)%nat) as N1 by (by apply nfree_take).
  destruct (first_free_is_Some (vdiskS d1) ltac:(lia)) as [i1 H1].
  pose proof (alloc_desc_ok d1 t e T1) as E1. rewrite H1 in E1. rewrite (bind_Ok _ _ _ _ _ E1).
  apply first_free_Some in H1 as F1. set (d2 := at_v (set_free_at i1 0) d1).
  assert (tables_ok (vdiskS d2)) as T2 by (by apply tables_ok_free; [left|]).
  assert (nfree (vdiskS d2) = (nfree (vdiskS d1) - 1)%nat) as N2 by (by apply nfree_take).
  destruct (first_free_is_Some (vdiskS d2) ltac:(lia)) as [i2 H2].
  pose proof (alloc_desc_ok d2 t e T2) as E2. rewrite H2 in E2. rewrite (bind_Ok _ _ _ _ _ E2). run.
  apply first_free_Some in H2 as F2. apply free_ne in F1 as [N01 F1]. apply free_ne in F2 as [N12 F2]. apply free_ne in F2 as [N02 F2].
  exists i0, i1, i2. split; [done|]. split; [done|]. split; [done|]. split; [done|].
  intros i Hi. apply elem_of_cons in Hi as [->|Hi]; [done|]. apply elem_of_cons in Hi as [->|Hi]; [done|]. by apply list_elem_of_singleton in Hi as ->.
Qed.

(** ** The device *)

(** The next entry of the ring is a request to move the block [blk] from or to
    the buffer [b]: a chain of three descriptors from [h] on, with the header in
    [ops[j]] and the status in [info[k]]. *)
Record request d (h j k b : nat) (write : bool) (blk : Z) : Prop := {
  rq_new : vd_avail_idx (vdiskS d) = u16 (vd_dev_idx (vdiskS d) + 1);
  rq_ring : vd_avail_ring (vdiskS d) !! Z.to_nat (vd_dev_idx (vdiskS d) `mod` Z.of_nat NUM) = Some (Z.of_nat h);
  rq_chain : exists h1 h2 : nat,
    vd_desc (vdiskS d) !! h = Some {| d_addr := AOp j; d_len := 16; d_flags := VRING_DESC_F_NEXT; d_next := Z.of_nat h1 |} /\
    vd_desc (vdiskS d) !! h1 = Some {| d_addr := AData b; d_len := BSIZE;
      d_flags := if write then VRING_DESC_F_NEXT else VRING_DESC_F_WRITE + VRING_DESC_F_NEXT; d_next := Z.of_nat h2 |} /\
    vd_desc (vdiskS d) !! h2 = Some {| d_addr := AStatus k; d_len := 1; d_flags := VRING_DESC_F_WRITE; d_next := 0 |};
  rq_op : vd_ops (vdiskS d) !! j = Some {| op_type := if write then VIRTIO_BLK_T_OUT else VIRTIO_BLK_T_IN; op_reserved := 0;
    op_sector := blk * (BSIZE / 512) |}
}.

(** The block is moved. *)
Definition moved (b : nat) (write : bool) (blk : Z) d : kdata :=
  match bufs d !! b with
  | Some bp =>
    if write then set_dwrites ((blk, b_data bp) :: dwrites d) (set_platter (<[blk := b_data bp]> (platter d)) d)
    else at_buf b (set_b_data (default (b_data bp) (platter d !! blk))) d
  | None => d
  end.

(** The status is written, and the request put in the ring of those done. *)
Definition posted (h k : nat) v : vdisk :=
  set_vd_dev_idx (u16 (vd_dev_idx v + 1))
    (set_vd_used_ring (<[Z.to_nat (vd_dev_idx v `mod` Z.of_nat NUM) := Z.of_nat h]> (vd_used_ring v))
      (set_vd_info_status (<[k := 0]> (vd_info_status v)) v)).

(** What the protocol promises of a device that serves one request (virtio
    1.1, sections 2.6 and 5.2.6): blocks that are on the disk can be read, and
    all can be written. *)
Class BlockDevice (serve : kdata -> kdata) : Prop := serve_ok d h j k b write blk :
  request d h j k b write blk -> is_Some (bufs d !! b) -> (write = false -> is_Some (platter d !! blk)) ->
  serve d = at_v (posted h k) (moved b write blk d).

(** ** The driver fills the request *)

Definition op_for (write : bool) (sector : Z) : virtio_blk_req :=
  {| op_type := if write then VIRTIO_BLK_T_OUT else VIRTIO_BLK_T_IN; op_reserved := 0; op_sector := sector |}.

(** The descriptors of the request *)
Definition chained (b : nat) (write : bool) (sector : Z) (i0 i1 i2 : nat) v : vdisk :=
  let v := set_vd_ops (<[i0 := op_for write sector]> (vd_ops v)) v in
  let v := set_vd_desc (alter (fun _ => {| d_addr := AOp i0; d_len := 16; d_flags := VRING_DESC_F_NEXT; d_next := Z.of_nat i1 |}) i0 (vd_desc v)) v in
  let v := set_vd_desc (alter (fun _ => {| d_addr := AData b; d_len := BSIZE;
      d_flags := Z.lor (if write then 0 else VRING_DESC_F_WRITE) VRING_DESC_F_NEXT; d_next := Z.of_nat i2 |}) i1 (vd_desc v)) v in
  let v := set_vd_info_status (<[i0 := 0xff]> (vd_info_status v)) v in
  set_vd_desc (alter (fun _ => {| d_addr := AStatus i0; d_len := 1; d_flags := VRING_DESC_F_WRITE; d_next := 0 |}) i2 (vd_desc v)) v.

(** The request is in the ring. *)
Definition offered (b i0 : nat) v : vdisk :=
  let v := set_vd_info_b (<[i0 := Some b]> (vd_info_b v)) v in
  let v := set_vd_avail_ring (<[Z.to_nat (vd_avail_idx v `mod` Z.of_nat NUM) := Z.of_nat i0]> (vd_avail_ring v)) v in
  set_vd_avail_idx (u16 (vd_avail_idx v + 1)) v.

Lemma format_request_ok b write sector i0 i1 i2 d t e : length (vd_desc (vdiskS d)) = NUM ->
  (i0 < NUM)%nat -> (i1 < NUM)%nat -> (i2 < NUM)%nat ->
  format_request b write sector (i0, i1, i2) (mkWorld (wkd d t) e) = Ok tt (mkWorld (wkd (at_v (chained b write sector i0 i1 i2) d) t) e).
Proof.
  intros Hl H0 H1 H2. unfold format_request. rewrite (bind_Ok _ _ _ _ _ (modv_wkd _ d t e)).
  erewrite bind_Ok by (apply upd_desc_wkd; cbn; by rewrite Hl).
  erewrite bind_Ok by (apply upd_desc_wkd; cbn; by rewrite length_alter, Hl).
  erewrite bind_Ok by apply modv_wkd.
  rewrite upd_desc_wkd by (cbn; by rewrite !length_alter, Hl). reflexivity.
Qed.

Lemma chained_desc b write sector i0 i1 i2 v : length (vd_desc v) = NUM -> i0 <> i1 -> i0 <> i2 -> i1 <> i2 ->
  (i0 < NUM)%nat -> (i1 < NUM)%nat -> (i2 < NUM)%nat ->
  vd_desc (chained b write sector i0 i1 i2 v) !! i0 = Some {| d_addr := AOp i0; d_len := 16; d_flags := VRING_DESC_F_NEXT; d_next := Z.of_nat i1 |} /\
  vd_desc (chained b write sector i0 i1 i2 v) !! i1 = Some {| d_addr := AData b; d_len := BSIZE;
    d_flags := Z.lor (if write then 0 else VRING_DESC_F_WRITE) VRING_DESC_F_NEXT; d_next := Z.of_nat i2 |} /\
  vd_desc (chained b write sector i0 i1 i2 v) !! i2 = Some {| d_addr := AStatus i0; d_len := 1; d_flags := VRING_DESC_F_WRITE; d_next := 0 |}.
Proof.
  intros Td N01 N02 N12 H0 H1 H2. cbn. repeat first [rewrite list_lookup_alter_eq|rewrite list_lookup_alter_ne by done].
  assert (forall i, (i < NUM)%nat -> exists x, vd_desc v !! i = Some x) as Hx by (intros i Hi; apply lookup_lt_is_Some; by rewrite Td).
  destruct (Hx i0 H0) as [x0 ->]. destruct (Hx i1 H1) as [x1 ->]. by destruct (Hx i2 H2) as [x2 ->].
Qed.

(** The request is one for the device. *)
Lemma offered_request b write blk i0 i1 i2 d : tables_ok (vdiskS d) -> i0 <> i1 -> i0 <> i2 -> i1 <> i2 ->
  (i0 < NUM)%nat -> (i1 < NUM)%nat -> (i2 < NUM)%nat -> vd_avail_idx (vdiskS d) = vd_dev_idx (vdiskS d) ->
  request (at_v (fun v => offered b i0 (chained b write (blk * (BSIZE / 512)) i0 i1 i2 v)) d) i0 i0 i0 b write blk.
Proof.
  intros T N01 N02 N12 H0 H1 H2 Ei. pose proof (tb_desc _ T) as Td. split.
  - cbn. by rewrite Ei.
  - cbn. rewrite <- Ei. apply list_lookup_insert_eq. rewrite (tb_avail _ T).
    assert (0 <= vd_avail_idx (vdiskS d) `mod` 8 < 8) by (by apply Z.mod_pos_bound). change NUM with 8%nat. change (Z.of_nat 8) with 8. lia.
  - exists i1, i2. destruct (chained_desc b write (blk * (BSIZE / 512)) i0 i1 i2 (vdiskS d) Td N01 N02 N12 H0 H1 H2) as (C0 & C1 & C2).
    split; [exact C0|]. split; [|exact C2]. etransitivity; [exact C1|]. by destruct write.
  - cbn. apply list_lookup_insert_eq. by rewrite (tb_ops _ T).
Qed.

(** ** The interrupt handler *)

Definition acked d : kdata :=
  set_virtio_regs (<[VIRTIO_MMIO_INTERRUPT_ACK := u32 (Z.land (default 0 (virtio_regs d !! VIRTIO_MMIO_INTERRUPT_STATUS)) 3)]> (virtio_regs d)) d.

(** One request done: its buffer is the driver's again, and its process runs. *)
Definition handled (b : nat) (me : option nat) d : kdata :=
  at_v (fun v => set_vd_used_idx (u16 (vd_used_idx v + 1)) v)
    (all_procs (wake_eff (CBuf b) me) (at_buf b (set_b_disk 0) (acked d))).

Lemma intr_ok b h bp d t e : quiet t -> length (procs d) = NPROC ->
  vd_dev_idx (vdiskS d) = u16 (vd_used_idx (vdiskS d) + 1) -> 0 <= vd_used_idx (vdiskS d) < 65536 ->
  vd_used_ring (vdiskS d) !! Z.to_nat (vd_used_idx (vdiskS d) `mod` Z.of_nat NUM) = Some (Z.of_nat h) ->
  vd_info_status (vdiskS d) !! h = Some 0 -> vd_info_b (vdiskS d) !! h = Some (Some b) -> bufs d !! b = Some bp ->
  virtio_disk_intr (mkWorld (wkd d t) e) = Ok tt (mkWorld (wkd (handled b (cur t) d) t) e).
Proof.
  intros Q Hn Hd Hu Hr Hst Hib Hb. unfold virtio_disk_intr.
  rewrite (bind_Ok _ _ _ _ _ (acquire_quiet _ (quiet_wkd d t Q) LVdisk e vdisk_lock)), acq_wkd.
  unfold read_R, write_R. erewrite bind_Ok by (erewrite bind_Ok by apply getd_wkd; reflexivity).
  rewrite (bind_Ok _ _ _ _ _ (modd_wkd _ d _ e)). rewrite (bind_Ok _ _ _ _ _ (getd_wkd vdiskS _ _ e)).
  change (set_virtio_regs _ d) with (acked d). change (vdiskS (acked d)) with (vdiskS d).
  assert (u16 (vd_dev_idx (vdiskS d) - vd_used_idx (vdiskS d)) = 1) as ->.
  { rewrite Hd. unfold wrap_u. rewrite Zminus_mod_idemp_l. by replace (_ + 1 - _) with 1 by lia. }
  assert ((vd_used_idx (vdiskS d) =? u16 (vd_used_idx (vdiskS d) + 1)) = false) as Hne.
  { unfold wrap_u. change (2 ^ 16) with 65536. pose proof (Z.mod_bound_pos (vd_used_idx (vdiskS d) + 1) 65536).
    destruct (decide (vd_used_idx (vdiskS d) = 65535)) as [->|]; [done|]. rewrite Z.mod_small by lia. lia. }
  change (S (Z.to_nat 1)) with 2%nat. cbn [loop].
  rewrite (bind_Ok _ _ _ tt (mkWorld (wkd (handled b (cur t) d) (acq LVdisk t)) e));
    [by rewrite (release_quiet t Q LVdisk _ e vdisk_lock)|].
  rewrite (bind_Ok _ _ _ None (mkWorld (wkd (handled b (cur t) d) (acq LVdisk t)) e)).
  - rewrite (bind_Ok _ _ _ (Some tt) (mkWorld (wkd (handled b (cur t) d) (acq LVdisk t)) e)); [done|].
    unfold intr_entry. rewrite (bind_Ok _ _ _ _ _ (getd_wkd vdiskS _ _ e)). cbn [handled at_v vdiskS set_vdiskS vd_used_idx vd_dev_idx set_vd_used_idx].
    change (vdiskS (all_procs _ _)) with (vdiskS d). by rewrite Hd, Z.eqb_refl.
  - unfold intr_entry. rewrite (bind_Ok _ _ _ _ _ (getd_wkd vdiskS _ _ e)). change (vdiskS (acked d)) with (vdiskS d). rewrite Hd, Hne, Hr.
    unfold the at 1. run. rewrite Nat2Z.id, Hst. unfold the at 1. run. rewrite Hib. change (z2b 0) with false. cbv iota. unfold nonnull, the. run.
    rewrite (bind_Ok _ _ _ _ _ (upd_buf_wkd b (set_b_disk 0) bp (acked d) _ e Hb)).
    erewrite bind_Ok by (apply wakeup_quiet; [done|apply vdisk_lone|done]). erewrite bind_Ok by apply modv_wkd. done.
Qed.

(** ** The chain is freed *)

Definition freed_at (i : nat) v : vdisk := set_free_at i 1 (set_vd_desc (alter (fun _ => desc0) i (vd_desc v)) v).

Definition freed (me : option nat) (i : nat) d : kdata := all_procs (wake_eff CDiskFree me) (at_v (freed_at i) d).

Lemma free_desc_ok i d t e : quiet t -> length (procs d) = NPROC -> (i < NUM)%nat -> length (vd_desc (vdiskS d)) = NUM ->
  vd_free (vdiskS d) !! i = Some 0 ->
  free_desc i (mkWorld (wkd d (acq LVdisk t)) e) = Ok tt (mkWorld (wkd (freed (cur t) i d) (acq LVdisk t)) e).
Proof.
  intros Q Hn Hi Hl Hf. unfold free_desc. destruct (Nat.leb_spec NUM i); [lia|]. unfold getv.
  rewrite (bind_Ok _ _ _ _ _ (getd_wkd _ d _ e)), Hf. unfold the. run. change (z2b 0) with false. cbv iota.
  erewrite bind_Ok by (apply upd_desc_wkd; by rewrite Hl). erewrite bind_Ok by apply modv_wkd. rewrite wakeup_quiet; [done|done|apply vdisk_lone|done].
Qed.

(** A chain of three, as the driver makes it *)
Lemma free_chain_ok i0 i1 i2 x0 x1 x2 d t e : quiet t -> length (procs d) = NPROC -> length (vd_desc (vdiskS d)) = NUM ->
  i0 <> i1 -> i0 <> i2 -> i1 <> i2 -> (forall i, i ∈ [i0; i1; i2] -> (i < NUM)%nat /\ vd_free (vdiskS d) !! i = Some 0) ->
  vd_desc (vdiskS d) !! i0 = Some x0 -> Z.land (d_flags x0) VRING_DESC_F_NEXT = 1 -> d_next x0 = Z.of_nat i1 ->
  vd_desc (vdiskS d) !! i1 = Some x1 -> Z.land (d_flags x1) VRING_DESC_F_NEXT = 1 -> d_next x1 = Z.of_nat i2 ->
  vd_desc (vdiskS d) !! i2 = Some x2 -> Z.land (d_flags x2) VRING_DESC_F_NEXT = 0 ->
  free_chain (S NUM) i0 (mkWorld (wkd d (acq LVdisk t)) e) =
  Ok tt (mkWorld (wkd (freed (cur t) i2 (freed (cur t) i1 (freed (cur t) i0 d))) (acq LVdisk t)) e).
Proof.
  intros Q Hn Hl N01 N02 N12 Hi E0 F0 X0 E1 F1 X1 E2 F2. change (S NUM) with 9%nat.
  assert (forall i d', length (procs (freed (cur t) i d')) = length (procs d')) as Hpl by (intros i d'; cbn; by rewrite length_imap).
  assert (forall i d', length (vd_desc (vdiskS (freed (cur t) i d'))) = length (vd_desc (vdiskS d'))) as Hdl by (intros i d'; cbn; by rewrite length_alter).
  assert (forall i j d', i <> j -> vd_desc (vdiskS (freed (cur t) i d')) !! j = vd_desc (vdiskS d') !! j) as Hdo by (intros i j d' Hne; cbn; by rewrite list_lookup_alter_ne by done).
  assert (forall i j d', i <> j -> vd_free (vdiskS (freed (cur t) i d')) !! j = vd_free (vdiskS d') !! j) as Hfo by (intros i j d' Hne; cbn; by rewrite list_lookup_insert_ne by done).
  destruct (Hi i0 ltac:(set_solver)) as [L0 Z0]. destruct (Hi i1 ltac:(set_solver)) as [L1 Z1]. destruct (Hi i2 ltac:(set_solver)) as [L2 Z2].
  cbn [free_chain]. unfold getv.
  rewrite (bind_Ok _ _ _ _ _ (getd_wkd _ d _ e)), E0. unfold the at 1. run.
  rewrite (bind_Ok _ _ _ _ _ (free_desc_ok i0 d t e Q Hn L0 Hl Z0)), F0. change (negb (1 =? 0)) with true. cbv iota. rewrite X0, Nat2Z.id.
  set (d1 := freed (cur t) i0 d).
  rewrite (bind_Ok _ _ _ _ _ (getd_wkd _ d1 _ e)). unfold d1 at 1. rewrite Hdo, E1 by done. unfold the at 1. run.
  rewrite (bind_Ok _ _ _ _ _ (free_desc_ok i1 d1 t e Q ltac:(unfold d1; by rewrite Hpl) L1 ltac:(unfold d1; by rewrite Hdl) ltac:(unfold d1; by rewrite Hfo))).
  rewrite F1. change (negb (1 =? 0)) with true. cbv iota. rewrite X1, Nat2Z.id. set (d2 := freed (cur t) i1 d1).
  rewrite (bind_Ok _ _ _ _ _ (getd_wkd _ d2 _ e)). unfold d2 at 1, d1 at 1. rewrite !Hdo, E2 by done. unfold the at 1. run.
  rewrite (bind_Ok _ _ _ _ _ (free_desc_ok i2 d2 t e Q ltac:(unfold d2, d1; by rewrite !Hpl) L2 ltac:(unfold d2, d1; by rewrite !Hdl) ltac:(unfold d2, d1; by rewrite !Hfo))).
  by rewrite F2.
Qed.

(** ** The wait for the device *)

(** While the driver sleeps: [k] times its channel is woken too early, and then
    the device serves the request and its interrupt is handled. *)
Definition interrupted (serve : kdata -> kdata) : M unit := modd serve;; virtio_disk_intr.

Definition schedule (serve : kdata -> kdata) (p b k : nat) : list (kstate -> kstate) :=
  replicate k (running (away p (wakeup (CBuf b)))) ++ [running (away p (interrupted serve))].

Lemma bufs_back p chan G d : bufs (back p chan G d) = bufs (G (at_proc p (parked chan) d)).
Proof. done. Qed.

Section wait.
Context (serve : kdata -> kdata) {BD : BlockDevice serve} (p : nat) (s : kstate) (Hc : calm p s) (Hp : (p < NPROC)%nat).
Context (b h : nat) (write : bool) (blk : Z).

(** What the driver has when it starts to wait *)
Record waiting d : Prop := {
  wt_procs : length (procs d) = NPROC;
  wt_request : request d h h h b write blk;
  wt_buf : exists bp, bufs d !! b = Some bp /\ b_disk bp = 1;
  wt_disk : is_Some (platter d !! blk);
  wt_used : vd_used_idx (vdiskS d) = vd_dev_idx (vdiskS d) /\ 0 <= vd_dev_idx (vdiskS d) < 65536;
  wt_info : vd_info_b (vdiskS d) !! h = Some (Some b);
  wt_len : length (vd_used_ring (vdiskS d)) = NUM /\ (h < length (vd_info_status (vdiskS d)))%nat
}.

Lemma waiting_at_proc q f d : waiting d -> waiting (at_proc q f d).
Proof. intros [A [B1 B2 B3 B4] C D E F G]. split; try done. cbn. by rewrite length_alter. Qed.

Definition answered d : kdata := handled b None (at_v (posted h h) (moved b write blk d)).

Lemma moved_frame d : procs (moved b write blk d) = procs d /\ vdiskS (moved b write blk d) = vdiskS d /\ virtio_regs (moved b write blk d) = virtio_regs d.
Proof. unfold moved. destruct (bufs d !! b); [|done]. by destruct write. Qed.

Lemma interrupted_ok d t e : quiet t -> cur t = None -> waiting d ->
  interrupted serve (mkWorld (wkd d t) e) = Ok tt (mkWorld (wkd (answered d) t) e).
Proof using BD.
  clear Hc Hp. intros Q Ht [A B (bp & Hb & _) D [E1 E2] F [G1 G2]]. unfold interrupted. rewrite (bind_Ok _ _ _ _ _ (modd_wkd _ d t e)).
  rewrite (BD d h h h b write blk B (mk_is_Some _ _ Hb) (fun _ => D)). destruct (moved_frame d) as (M1 & M2 & M3).
  unfold answered. set (d1 := at_v (posted h h) (moved b write blk d)).
  assert (vdiskS d1 = posted h h (vdiskS d)) as V by (unfold d1; cbn; by rewrite M2).
  assert (exists bp', bufs d1 !! b = Some bp') as [bp' Hb'].
  { unfold d1, at_v, moved. cbn. rewrite Hb. destruct write; [by exists bp|]. cbn. rewrite list_lookup_alter_eq, Hb. by eexists. }
  rewrite <- Ht. apply (intr_ok b h bp'); try done.
  - unfold d1. cbn. by rewrite M1.
  - rewrite V. cbn. by rewrite E1.
  - rewrite V. cbn. by rewrite E1.
  - rewrite V. cbn. rewrite E1. apply list_lookup_insert_eq. rewrite G1.
    assert (0 <= vd_dev_idx (vdiskS d) `mod` 8 < 8) by (by apply Z.mod_pos_bound). change NUM with 8%nat. change (Z.of_nat 8) with 8. lia.
  - rewrite V. cbn. by apply list_lookup_insert_eq.
  - by rewrite V.
Qed.

Lemma answered_buf d bp : bufs d !! b = Some bp -> exists bp', bufs (answered d) !! b = Some bp' /\ b_disk bp' = 0.
Proof.
  intros Hb. assert (exists bp', bufs (moved b write blk d) !! b = Some bp') as [bp' Hb'].
  { unfold moved. rewrite Hb. destruct write; [by exists bp|]. cbn. rewrite list_lookup_alter_eq, Hb. by eexists. }
  exists (set_b_disk 0 bp'). cbn. by rewrite list_lookup_alter_eq, Hb'.
Qed.

(** A wakeup that comes too early *)
Definition early d : kdata := all_procs (wake_eff (CBuf b) None) d.

Lemma early_ok d t e : quiet t -> cur t = None -> length (procs d) = NPROC ->
  wakeup (CBuf b) (mkWorld (wkd d t) e) = Ok tt (mkWorld (wkd (early d) t) e).
Proof.
  clear Hc Hp. intros Q Ht Hn. rewrite wakeup_ok; [|apply Q|change (noff t < 2147483645); rewrite (qt_noff t Q); lia|exact Hn|].
  - change (cur (wkd d t)) with (cur t). by rewrite Ht.
  - intros q Hq _. by apply Q, all_locks_proc.
Qed.

Lemma waiting_early d : waiting d -> waiting (early d).
Proof. intros [A [B1 B2 B3 B4] C D E F G]. split; try done. cbn. by rewrite length_imap. Qed.

Lemma answered_procs ps d : answered (set_procs ps d) = set_procs (imap (wake_eff (CBuf b) None) ps) (answered d).
Proof.
  unfold answered. assert (moved b write blk (set_procs ps d) = set_procs ps (moved b write blk d)) as ->.
  { unfold moved. change (bufs (set_procs ps d)) with (bufs d). destruct (bufs d !! b); [|done]. by destruct write. }
  generalize (moved b write blk d). intros d1. done.
Qed.

(** It makes no difference. *)
Lemma back_early d : back p (CBuf b) answered (back p (CBuf b) early d) = back p (CBuf b) answered d.
Proof.
  clear Hc. assert (forall ps d, at_proc p (parked (CBuf b)) (set_procs ps d) = set_procs (alter (parked (CBuf b)) p ps) d) as E by done.
  assert (back p (CBuf b) early d = set_procs (procs (back p (CBuf b) early d)) d) as -> by done.
  unfold back at 1 3. rewrite E. change (at_proc p (parked (CBuf b)) d) with (set_procs (alter (parked (CBuf b)) p (procs d)) d).
  rewrite !answered_procs. do 3 f_equal. unfold back, early. cbn [at_proc all_procs procs set_procs].
  apply list_eq. intros q. rewrite !list_lookup_imap. destruct (decide (q = p)) as [->|Hne].
  - rewrite !list_lookup_alter_eq, list_lookup_imap, list_lookup_alter_eq. destruct (procs d !! p) as [pr|]; [|done]. cbn.
    unfold wake_eff. rewrite bool_decide_eq_false_2 by done. by rewrite !woken_parked.
  - rewrite !list_lookup_alter_ne, list_lookup_imap, list_lookup_alter_ne by done. destruct (procs d !! q) as [pr|]; [|done]. cbn.
    unfold wake_eff. rewrite bool_decide_eq_false_2 by done. by rewrite woken_woken.
Qed.

(** The sleeper is runnable then. *)
Lemma woken_runnable d d1 pr : procs d !! p = Some pr -> procs d1 = procs (early (at_proc p (parked (CBuf b)) d)) ->
  exists pr', procs d1 !! p = Some pr' /\ p_state pr' = RUNNABLE.
Proof.
  clear Hc Hp. intros Hpr ->. exists (woken (CBuf b) (parked (CBuf b) pr)). rewrite woken_parked. split; [|done].
  cbn. rewrite list_lookup_imap, list_lookup_alter_eq, Hpr. cbn. unfold wake_eff. rewrite bool_decide_eq_false_2 by done. by rewrite woken_parked.
Qed.

Lemma wait_turn G mid d e : waiting d -> (forall d1 t, quiet t -> cur t = None -> waiting d1 -> mid (mkWorld (wkd d1 t) []) = Ok tt (mkWorld (wkd (G d1) t) [])) ->
  procs (G (at_proc p (parked (CBuf b)) d)) = procs (early (at_proc p (parked (CBuf b)) d)) ->
  (bp ← get_buf b; if b_disk bp =? 1 then sleep (CBuf b) LVdisk;; mret None else mret (Some tt))
    (mkWorld (wkd d (acq LVdisk s)) (running (away p mid) :: e)) =
  Ok None (mkWorld (wkd (back p (CBuf b) G d) (acq LVdisk s)) e).
Proof using Hc Hp.
  intros W Hm Hg. pose proof (calm_quiet p s Hc) as Q. pose proof (quiet_set_cur None s Q) as Q0.
  pose proof (wt_buf d W) as (bp & Hb & Hd). destruct (lookup_lt_is_Some_2 (procs d) p) as [pr Hpr]; [by rewrite (wt_procs d W)|].
  rewrite (bind_Ok _ _ _ _ _ (get_buf_wkd b bp d _ _ Hb)), Hd. cbn [Z.eqb Pos.eqb].
  rewrite (bind_Ok _ _ _ tt (mkWorld (wkd (back p (CBuf b) G d) (acq LVdisk s)) e)); [done|].
  apply (sleep_away p s Hc Hp mid G LVdisk d (CBuf b) pr e vdisk_lone Hpr); [|by apply (woken_runnable d _ pr)].
  apply Hm; [done|apply cur_set_cur, Q|by apply waiting_at_proc].
Qed.

Lemma wait_ok k d n e : waiting d -> (k + 1 < n)%nat ->
  loop n (bp ← get_buf b; if b_disk bp =? 1 then sleep (CBuf b) LVdisk;; mret None else mret (Some tt))
    (mkWorld (wkd d (acq LVdisk s)) (schedule serve p b k ++ e)) =
  Ok tt (mkWorld (wkd (back p (CBuf b) answered d) (acq LVdisk s)) e).
Proof using BD Hc Hp.
  revert d n. induction k as [|k IH]; intros d n W Hn; (destruct n as [|n]; [lia|]); cbn [loop schedule replicate app].
  - erewrite bind_Ok by (apply (wait_turn answered); [done|intros; by apply interrupted_ok|]; unfold answered, handled; cbn; by rewrite (proj1 (moved_frame _))).
    destruct n as [|n]; [lia|]. cbn [loop]. destruct (wt_buf d W) as (bp & Hb & _).
    destruct (answered_buf (at_proc p (parked (CBuf b)) d) bp Hb) as (bp' & Hb' & Hd').
    rewrite (bind_Ok _ _ _ (Some tt) (mkWorld (wkd (back p (CBuf b) answered d) (acq LVdisk s)) e)); [done|].
    rewrite (bind_Ok _ _ _ _ _ (get_buf_wkd b bp' _ _ e ltac:(rewrite bufs_back; exact Hb'))). by rewrite Hd'.
  - erewrite bind_Ok by (apply (wait_turn early); [done|intros d1 t Q Ht W1; by apply early_ok, (wt_procs d1 W1)|done]).
    rewrite <- (back_early d). apply IH; [|lia]. by apply waiting_at_proc, waiting_at_proc, waiting_early, waiting_at_proc.
Qed.
End wait.

(** ** A request from start to end *)

(** The driver between requests *)
Record ready v : Prop := {
  rd_tables : tables_ok v;
  rd_free : (3 <= nfree v)%nat;
  rd_avail : vd_avail_idx v = vd_dev_idx v;
  rd_used : vd_used_idx v = vd_dev_idx v;
  rd_range : 0 <= vd_dev_idx v < 65536
}.

(** The variables but the processes and the driver's own *)
Definition core d : kdata := set_procs [] (set_vdiskS (vdiskS kdata0) (set_virtio_regs ∅ d)).

Lemma core_at_proc p f d : core (at_proc p f d) = core d.
Proof. done. Qed.

Lemma core_all_procs g d : core (all_procs g d) = core d.
Proof. done. Qed.

Lemma core_at_v f d : core (at_v f d) = core d.
Proof. done. Qed.

Lemma core_regs m d : core (set_virtio_regs m d) = core d.
Proof. done. Qed.

Lemma core_at_buf b f d : core (at_buf b f d) = at_buf b f (core d).
Proof. done. Qed.

Lemma core_moved b write blk d : core (moved b write blk d) = moved b write blk (core d).
Proof. unfold moved. cbn [core bufs set_procs set_vdiskS set_virtio_regs]. destruct (bufs d !! b); [|done]. by destruct write. Qed.

Lemma core_split d d' : core d = core d' -> d' = set_procs (procs d') (set_vdiskS (vdiskS d') (set_virtio_regs (virtio_regs d') d)).
Proof.
  intros E. transitivity (set_procs (procs d') (set_vdiskS (vdiskS d') (set_virtio_regs (virtio_regs d') (core d')))); [by destruct d'|].
  rewrite <- E. by destruct d.
Qed.

Definition asked (b : nat) (write : bool) (blk : Z) (i0 i1 i2 : nat) d : kdata :=
  set_virtio_regs (<[VIRTIO_MMIO_QUEUE_NOTIFY := u32 0]> (virtio_regs d))
    (at_v (fun v => offered b i0 (chained b write (blk * (BSIZE / 512)) i0 i1 i2 (took i0 i1 i2 v))) (at_buf b (set_b_disk 1) d)).

Definition released (p b i0 i1 i2 : nat) d : kdata :=
  freed (Some p) i2 (freed (Some p) i1 (freed (Some p) i0 (at_v (fun v => set_vd_info_b (<[i0 := None]> (vd_info_b v)) v) d))).

Lemma core_released p b i0 i1 i2 write blk d bp : bufs d !! b = Some bp -> b_blockno bp = blk ->
  core (released p b i0 i1 i2 (back p (CBuf b) (answered b i0 write blk) (asked b write blk i0 i1 i2 d))) = core (transfer b write d).
Proof.
  intros Hb <-. unfold released, freed, back, answered, handled, acked, asked.
  repeat first [rewrite core_at_proc|rewrite core_all_procs|rewrite core_at_v|rewrite core_regs|rewrite core_at_buf|rewrite core_moved].
  unfold moved, transfer. rewrite Hb. assert (bufs (at_buf b (set_b_disk 1) (core d)) !! b = Some (set_b_disk 1 bp)) as ->
    by (cbn; by rewrite list_lookup_alter_eq, Hb).
  destruct write.
  - change (set_dwrites ((b_blockno bp, b_data bp) :: dwrites d) (set_platter (<[b_blockno bp := b_data bp]> (platter d)) (at_buf b (set_b_disk 0) (at_buf b (set_b_disk 1) (core d)))) =
      set_dwrites ((b_blockno bp, b_data bp) :: dwrites d) (set_platter (<[b_blockno bp := b_data bp]> (platter d)) (at_buf b (set_b_disk 0) (core d)))).
    by rewrite at_buf_at_buf.
  - rewrite core_at_buf, !at_buf_at_buf. unfold at_buf. f_equal. apply list_alter_ext; [|done].
    intros x Hx. change (bufs (core d)) with (bufs d) in Hx. by assert (x = bp) as -> by congruence.
Qed.

(** The tables when the answer is there *)
Definition answered_v (b i0 : nat) v : vdisk :=
  (fun v => set_vd_info_b (<[i0 := None]> (vd_info_b v)) v) ((fun v => set_vd_used_idx (u16 (vd_used_idx v + 1)) v) (posted i0 i0 (offered b i0 v))).

Lemma vdisk_answered p b i0 i1 i2 write blk d :
  vdiskS (at_v (fun v => set_vd_info_b (<[i0 := None]> (vd_info_b v)) v) (back p (CBuf b) (answered b i0 write blk) (asked b write blk i0 i1 i2 d))) =
  answered_v b i0 (chained b write (blk * (BSIZE / 512)) i0 i1 i2 (took i0 i1 i2 (vdiskS d))).
Proof.
  assert (forall p f d, vdiskS (at_proc p f d) = vdiskS d) as E1 by done.
  assert (forall g d, vdiskS (all_procs g d) = vdiskS d) as E2 by done.
  assert (forall m d, vdiskS (set_virtio_regs m d) = vdiskS d) as E4 by done.
  assert (forall b f d, vdiskS (at_buf b f d) = vdiskS d) as E5 by done.
  unfold back, answered, handled, acked, asked.
  repeat first [rewrite E1|rewrite E2|rewrite vdisk_at_v|rewrite E4|rewrite E5|rewrite (proj1 (proj2 (moved_frame _ _ _ _)))]. done.
Qed.

(** What it leaves of the driver's tables *)
Lemma vdisk_released p b i0 i1 i2 write blk d :
  vdiskS (released p b i0 i1 i2 (back p (CBuf b) (answered b i0 write blk) (asked b write blk i0 i1 i2 d))) =
  freed_at i2 (freed_at i1 (freed_at i0 (answered_v b i0 (chained b write (blk * (BSIZE / 512)) i0 i1 i2 (took i0 i1 i2 (vdiskS d)))))).
Proof.
  assert (forall me i d, vdiskS (freed me i d) = freed_at i (vdiskS d)) as E by done.
  unfold released. by rewrite !E, vdisk_answered.
Qed.

Lemma free_restored (l : list Z) i0 i1 i2 : (forall i, i ∈ [i0; i1; i2] -> l !! i = Some 1) -> i0 <> i1 -> i0 <> i2 -> i1 <> i2 ->
  <[i2 := 1]> (<[i1 := 1]> (<[i0 := 1]> (<[i2 := 0]> (<[i1 := 0]> (<[i0 := 0]> l))))) = l.
Proof.
  intros H N01 N02 N12. apply list_eq. intros i. assert (forall j, j ∈ [i0; i1; i2] -> (j < length l)%nat) as Hl
    by (intros j Hj; exact (lookup_lt_Some _ _ _ (H j Hj))).
  destruct (decide (i = i2)) as [->|]; [rewrite list_lookup_insert_eq by (rewrite !length_insert; apply Hl; set_solver); symmetry; apply H; set_solver|].
  rewrite list_lookup_insert_ne by done.
  destruct (decide (i = i1)) as [->|]; [rewrite list_lookup_insert_eq by (rewrite !length_insert; apply Hl; set_solver); symmetry; apply H; set_solver|].
  rewrite list_lookup_insert_ne by done.
  destruct (decide (i = i0)) as [->|]; [rewrite list_lookup_insert_eq by (rewrite !length_insert; apply Hl; set_solver); symmetry; apply H; set_solver|].
  by rewrite !list_lookup_insert_ne by done.
Qed.

Lemma ready_released b i0 i1 i2 write sector v : ready v -> (forall i, i ∈ [i0; i1; i2] -> vd_free v !! i = Some 1) ->
  i0 <> i1 -> i0 <> i2 -> i1 <> i2 ->
  let v' := freed_at i2 (freed_at i1 (freed_at i0 (answered_v b i0 (chained b write sector i0 i1 i2 (took i0 i1 i2 v))))) in
  ready v' /\ vd_free v' = vd_free v.
Proof.
  intros [[T1 T2 T3 T4 T5 T6 T7 T8] R2 R3 R4 R5] H N01 N02 N12 v'.
  assert (vd_free v' = vd_free v) as Hf by (by apply free_restored).
  split; [|exact Hf]. split.
  - split; [cbn -[NUM]; repeat first [rewrite length_insert|rewrite length_alter]; done..|]. by rewrite Hf.
  - unfold nfree. by rewrite Hf.
  - cbn. by rewrite R3.
  - cbn. by rewrite R4.
  - cbn. unfold wrap_u. by apply Z.mod_pos_bound.
Qed.

(** What it does to the processes *)
Definition stirred (p b : nat) (q : nat) (pr : proc) : proc :=
  if decide (q = p) then set_p_chan CNull (set_p_state RUNNING pr) else woken CDiskFree (woken (CBuf b) pr).

Lemma procs_released p b i0 i1 i2 write blk d :
  procs (released p b i0 i1 i2 (back p (CBuf b) (answered b i0 write blk) (asked b write blk i0 i1 i2 d))) = imap (stirred p b) (procs d).
Proof.
  assert (forall f d, procs (at_v f d) = procs d) as E3 by done.
  assert (forall m d, procs (set_virtio_regs m d) = procs d) as E4 by done.
  assert (forall b f d, procs (at_buf b f d) = procs d) as E5 by done.
  assert (forall p f d, procs (at_proc p f d) = alter f p (procs d)) as E1 by done.
  assert (forall g d, procs (all_procs g d) = imap g (procs d)) as E2 by done.
  unfold released, freed, back, answered, handled, acked, asked.
  repeat first [rewrite E1|rewrite E2|rewrite E3|rewrite E4|rewrite E5|rewrite (proj1 (moved_frame _ _ _ _))].
  apply list_eq. intros q. rewrite !list_lookup_imap. destruct (decide (q = p)) as [->|Hne].
  - rewrite !list_lookup_alter_eq, list_lookup_imap, list_lookup_alter_eq. destruct (procs d !! p) as [pr|]; [|done]. cbn.
    unfold wake_eff, stirred. rewrite decide_True by done. rewrite !bool_decide_eq_true_2 by done.
    rewrite bool_decide_eq_false_2 by done. unfold woken, parked. by destruct (bool_decide _ && _), pr.
  - rewrite !list_lookup_alter_ne, list_lookup_imap, list_lookup_alter_ne by done. destruct (procs d !! q) as [pr|]; [|done]. cbn.
    unfold wake_eff, stirred. rewrite decide_False by done. rewrite !bool_decide_eq_false_2 by congruence. by rewrite !woken_woken.
Qed.

(** *** The three parts of virtio_disk_rw *)

Lemma request_vdisk d d' h j k b write blk : vdiskS d = vdiskS d' -> request d h j k b write blk -> request d' h j k b write blk.
Proof. intros E [A B C D]. split; by rewrite <- E. Qed.

Lemma vdisk_asked b write blk i0 i1 i2 d :
  vdiskS (asked b write blk i0 i1 i2 d) = offered b i0 (chained b write (blk * (BSIZE / 512)) i0 i1 i2 (took i0 i1 i2 (vdiskS d))).
Proof. done. Qed.

Lemma waiting_asked b write blk i0 i1 i2 d bp : ready (vdiskS d) -> length (procs d) = NPROC -> bufs d !! b = Some bp ->
  is_Some (platter d !! blk) -> i0 <> i1 -> i0 <> i2 -> i1 <> i2 -> (i0 < NUM)%nat -> (i1 < NUM)%nat -> (i2 < NUM)%nat ->
  waiting b i0 write blk (asked b write blk i0 i1 i2 d).
Proof.
  intros [T R2 R3 R4 R5] Hn Hb Hd N01 N02 N12 L0 L1 L2. pose proof (vdisk_asked b write blk i0 i1 i2 d) as V.
  assert (tables_ok (took i0 i1 i2 (vdiskS d))) as T' by (unfold took; repeat apply tables_ok_free; first [by left|done]).
  split; [exact Hn| | |exact Hd|rewrite V; by split|rewrite V|rewrite V].
  - apply (request_vdisk (at_v (fun v => offered b i0 (chained b write (blk * (BSIZE / 512)) i0 i1 i2 v)) (at_v (took i0 i1 i2) d))); [by rewrite V, !vdisk_at_v|exact (offered_request b write blk i0 i1 i2 (at_v (took i0 i1 i2) d) T' N01 N02 N12 L0 L1 L2 R3)].
  - exists (set_b_disk 1 bp). split; [|done]. unfold asked. cbn [bufs set_virtio_regs at_v set_vdiskS at_buf set_bufs]. by rewrite list_lookup_alter_eq, Hb.
  - cbn [offered vd_info_b set_vd_avail_idx set_vd_avail_ring set_vd_info_b]. apply list_lookup_insert_eq.
    match goal with |- (_ < length (vd_info_b ?v))%nat => change (vd_info_b v) with (vd_info_b (vdiskS d)) end. by rewrite (tb_info_b _ T).
  - cbn [offered chained vd_used_ring vd_info_status set_vd_avail_idx set_vd_avail_ring set_vd_info_b set_vd_desc set_vd_info_status set_vd_ops].
    rewrite length_insert, (tb_info_status _ T'). split; [by apply T'|done].
Qed.

Lemma ask_ok b write blk i0 i1 i2 d bp t e (k : M unit) : tables_ok (vdiskS d) -> bufs d !! b = Some bp -> (i0 < NUM)%nat -> (i1 < NUM)%nat -> (i2 < NUM)%nat ->
  (format_request b write (blk * (BSIZE / 512)) (i0, i1, i2);;
   upd_buf b (set_b_disk 1);;
   modv (fun v => set_vd_info_b (<[i0 := Some b]> (vd_info_b v)) v);;
   modv (fun v => set_vd_avail_ring (<[Z.to_nat (vd_avail_idx v `mod` Z.of_nat NUM) := Z.of_nat i0]> (vd_avail_ring v)) v);;
   modv (fun v => set_vd_avail_idx (u16 (vd_avail_idx v + 1)) v);;
   write_R VIRTIO_MMIO_QUEUE_NOTIFY 0;; k) (mkWorld (wkd (at_v (took i0 i1 i2) d) t) e) =
  k (mkWorld (wkd (asked b write blk i0 i1 i2 d) t) e).
Proof.
  intros T Hb L0 L1 L2.
  rewrite (bind_Ok _ _ _ _ _ (format_request_ok b write _ i0 i1 i2 (at_v (took i0 i1 i2) d) t e (tb_desc _ T) L0 L1 L2)).
  erewrite bind_Ok by (by apply (upd_buf_wkd b _ bp)). do 3 erewrite bind_Ok by apply modv_wkd. unfold write_R. erewrite bind_Ok by apply modd_wkd.
  rewrite at_buf_at_v, at_buf_at_v, !at_v_at_v. reflexivity.
Qed.

Lemma procs_back_answered p b i0 write blk d : length (procs (back p (CBuf b) (answered b i0 write blk) d)) = length (procs d).
Proof.
  assert (forall p f d, length (procs (at_proc p f d)) = length (procs d)) as E1 by (intros; apply length_alter).
  assert (forall g d, length (procs (all_procs g d)) = length (procs d)) as E2 by (intros; apply length_imap).
  assert (forall f d, procs (at_v f d) = procs d) as E3 by done.
  assert (forall b f d, procs (at_buf b f d) = procs d) as E4 by done.
  assert (forall d, procs (acked d) = procs d) as E5 by done.
  unfold back, answered, handled. by rewrite !E1, E3, E2, E4, E5, E3, (proj1 (moved_frame _ _ _ _)), E1.
Qed.

(** The chain is there to be freed. *)
Lemma chain_released p b write blk i0 i1 i2 d d' t e : quiet t -> cur t = Some p -> ready (vdiskS d) -> length (procs d') = NPROC ->
  i0 <> i1 -> i0 <> i2 -> i1 <> i2 -> (i0 < NUM)%nat -> (i1 < NUM)%nat -> (i2 < NUM)%nat ->
  vdiskS (at_v (fun v => set_vd_info_b (<[i0 := None]> (vd_info_b v)) v) d') =
    answered_v b i0 (chained b write (blk * (BSIZE / 512)) i0 i1 i2 (took i0 i1 i2 (vdiskS d))) ->
  (modv (fun v => set_vd_info_b (<[i0 := None]> (vd_info_b v)) v);; free_chain (S NUM) i0;; release LVdisk) (mkWorld (wkd d' (acq LVdisk t)) e) =
  Ok tt (mkWorld (wkd (released p b i0 i1 i2 d') t) e).
Proof.
  intros Q Ht [T _ _ _ _] Hn' N01 N02 N12 L0 L1 L2 V. rewrite (bind_Ok _ _ _ _ _ (modv_wkd _ d' _ e)).
  set (d1 := at_v _ d') in *. set (v := took i0 i1 i2 (vdiskS d)) in *.
  assert (length (vd_desc v) = NUM) as Hl by exact (tb_desc _ T).
  destruct (chained_desc b write (blk * (BSIZE / 512)) i0 i1 i2 v Hl N01 N02 N12 L0 L1 L2) as (C0 & C1 & C2).
  assert (vd_desc (vdiskS d1) = vd_desc (chained b write (blk * (BSIZE / 512)) i0 i1 i2 v)) as Ed by (by rewrite V).
  assert (vd_free (vdiskS d1) = vd_free v) as Ef by (by rewrite V).
  rewrite (bind_Ok _ _ _ tt (mkWorld (wkd (released p b i0 i1 i2 d') (acq LVdisk t)) e)); [by apply release_quiet, vdisk_lock|].
  unfold released. fold d1. rewrite <- Ht. rewrite <- Ed in C0, C1, C2.
  eapply free_chain_ok; [exact Q|exact Hn'| |exact N01|exact N02|exact N12| |exact C0|done|done|exact C1| |done|exact C2|done].
  - rewrite Ed. cbn [chained vd_desc set_vd_desc set_vd_info_status set_vd_ops]. by rewrite !length_alter.
  - intros i Hi. assert (i < NUM)%nat as Li by (rewrite !elem_of_cons in Hi; destruct Hi as [->|[->|[->|Hi]]]; [done..|by apply elem_of_nil in Hi]).
    split; [done|]. rewrite Ef. unfold v, took, set_free_at. cbn [vd_free set_vd_free]. pose proof (tb_free _ T) as Hfl.
    rewrite !elem_of_cons in Hi. rewrite !list_lookup_insert. rewrite !length_insert, Hfl.
    destruct Hi as [->|[->|[->|Hi]]]; [..|by apply elem_of_nil in Hi]; repeat case_decide; naive_solver.
  - by destruct write.
Qed.

(** What a call of the driver leaves behind, next to the transfer itself *)
Definition transferred (p b : nat) (write : bool) d d' : Prop :=
  d' = set_procs (imap (stirred p b) (procs d)) (set_vdiskS (vdiskS d') (set_virtio_regs (virtio_regs d') (transfer b write d))) /\
  ready (vdiskS d') /\ vd_free (vdiskS d') = vd_free (vdiskS d).

Section rw.
Context (serve : kdata -> kdata) {BD : BlockDevice serve} (p k : nat).

Lemma rw_run b bp write s e : calm p s -> (p < NPROC)%nat -> length (procs (kd s)) = NPROC -> ready (vdiskS (kd s)) ->
  bufs (kd s) !! b = Some bp -> 0 <= b_blockno bp < 2147483648 -> is_Some (platter (kd s) !! b_blockno bp) ->
  exists d', virtio_disk_rw b write (mkWorld s (schedule serve p b k ++ e)) = Ok tt (mkWorld (wkd d' s) e) /\
    transferred p b write (kd s) d'.
Proof using BD.
  intros Hc Hp Hn R Hb Hr Hd. pose proof (calm_quiet p s Hc) as Q. pose proof (rd_tables _ R) as T. set (blk := b_blockno bp) in *.
  destruct (alloc3_ok (kd s) (acq LVdisk s) (schedule serve p b k ++ e) T (rd_free _ R)) as (i0 & i1 & i2 & Ea & N01 & N02 & N12 & Hfree).
  assert (forall i, i ∈ [i0; i1; i2] -> (i < NUM)%nat) as Hlt by (intros i Hi; rewrite <- (tb_free _ T); exact (lookup_lt_Some _ _ _ (Hfree i Hi))).
  assert (i0 < NUM)%nat as L0 by (apply Hlt; set_solver). assert (i1 < NUM)%nat as L1 by (apply Hlt; set_solver). assert (i2 < NUM)%nat as L2 by (apply Hlt; set_solver).
  set (d' := back p (CBuf b) (answered b i0 write blk) (asked b write blk i0 i1 i2 (kd s))).
  exists (released p b i0 i1 i2 d'). split.
  - unfold virtio_disk_rw. rewrite (bind_Ok _ _ _ _ _ (get_buf_ok b bp s _ Hb)). fold blk.
    assert (u32 (blk * (BSIZE / 512)) = blk * (BSIZE / 512)) as ->.
    { change (BSIZE / 512) with 2. unfold wrap_u. apply Z.mod_small. lia. }
    rewrite (bind_Ok _ _ _ _ _ (acquire_quiet s Q LVdisk _ vdisk_lock)). rewrite <- (wkd_self s) at 1. rewrite acq_wkd.
    rewrite (bind_Ok _ _ _ (i0, i1, i2) (mkWorld (wkd (at_v (took i0 i1 i2) (kd s)) (acq LVdisk s)) (schedule serve p b k ++ e)))
      by (apply wait_loop_once; by rewrite (bind_Ok _ _ _ _ _ Ea)).
    cbn [fst snd]. rewrite (ask_ok b write blk i0 i1 i2 (kd s) bp _ _ _ T Hb L0 L1 L2).
    rewrite (bind_Ok _ _ _ tt (mkWorld (wkd d' (acq LVdisk s)) e)).
    + apply (chain_released p b write blk i0 i1 i2 (kd s)); try done; [exact (calm_cur p s Hc)| |apply vdisk_answered].
      unfold d'. rewrite procs_back_answered. exact Hn.
    + unfold wait_loop. cbn [env]. apply (wait_ok serve p s Hc Hp b i0 write blk k); [by apply (waiting_asked _ _ _ _ _ _ _ bp)|].
      unfold schedule. rewrite !length_app, length_replicate. cbn [length]. lia.
  - pose proof (core_released p b i0 i1 i2 write blk (kd s) bp Hb eq_refl) as Ec. fold d' in Ec.
    pose proof (vdisk_released p b i0 i1 i2 write blk (kd s)) as Ev. fold d' in Ev.
    destruct (ready_released b i0 i1 i2 write (blk * (BSIZE / 512)) (vdiskS (kd s)) R Hfree N01 N02 N12) as [Rv Fv]. rewrite <- Ev in Rv, Fv.
    split; [|by split]. symmetry in Ec. apply core_split in Ec. pose proof (procs_released p b i0 i1 i2 write blk (kd s)) as Ep. fold d' in Ep.
    by rewrite Ep in Ec.
Qed.
End rw.

(** ** A device *)

(** The descriptors of a chain of three *)
Definition chain3 v (h : nat) : option (virtq_desc * virtq_desc * virtq_desc) :=
  d0 ← vd_desc v !! h; d1 ← vd_desc v !! Z.to_nat (d_next d0); d2 ← vd_desc v !! Z.to_nat (d_next d1); Some (d0, d1, d2).

(** A device with a memory for a disk: it serves the next request of the ring,
    if there is one and it is well formed. *)
Definition memdisk d : kdata :=
  let v := vdiskS d in
  if vd_avail_idx v =? vd_dev_idx v then d else
  match vd_avail_ring v !! Z.to_nat (vd_dev_idx v `mod` Z.of_nat NUM) with
  | Some h =>
    match chain3 v (Z.to_nat h) with
    | Some ({| d_addr := AOp j |}, {| d_addr := AData b; d_flags := fl |}, {| d_addr := AStatus k |}) =>
      match vd_ops v !! j with
      | Some op =>
        let write := op_type op =? VIRTIO_BLK_T_OUT in
        if Bool.eqb write (Z.land fl VRING_DESC_F_WRITE =? 0)
        then at_v (posted (Z.to_nat h) k) (moved b write (op_sector op `div` (BSIZE / 512)) d) else d
      | None => d
      end
    | _ => d
    end
  | None => d
  end.

#[export] Instance memdisk_ok : BlockDevice memdisk.
Proof.
  intros d h j k b write blk [R1 R2 (h1 & h2 & C0 & C1 & C2) R4] _ _. unfold memdisk, chain3.
  destruct (Z.eqb_spec (vd_avail_idx (vdiskS d)) (vd_dev_idx (vdiskS d))) as [E|_].
  { exfalso. rewrite R1 in E. unfold wrap_u in E. change (2 ^ 16) with 65536 in E.
    assert (0 <= vd_dev_idx (vdiskS d) < 65536) by (rewrite <- E; by apply Z.mod_pos_bound).
    destruct (decide (vd_dev_idx (vdiskS d) = 65535)) as [E'|]; [by rewrite E' in E|]. rewrite Z.mod_small in E by lia. lia. }
  rewrite R2, !Nat2Z.id, C0. cbn [mbind option_bind d_next]. rewrite Nat2Z.id, C1. cbn [mbind option_bind d_next]. rewrite Nat2Z.id, C2. cbn [mbind option_bind d_addr d_flags].
  rewrite R4. cbn [op_type op_sector]. rewrite Z.div_mul by done. by destruct write.
Qed.

(** ** The driver behind the buffer cache *)

(** [m], with [sch] for the steps of the environment while it sleeps *)
Definition among {A} (sch : list (kstate -> kstate)) (m : M A) : M A := fun w =>
  match m (mkWorld (ks w) sch) with
  | Ok a w' => Ok a (mkWorld (ks w') (env w))
  | Panic msg => Panic msg
  | Blocked w' => Blocked (mkWorld (ks w') (env w))
  | Fault why => Fault why
  end.

(** The driver, with a device that serves each request, as the cache calls it *)
Definition virtio_served (serve : kdata -> kdata) (k : nat) : Disk := {|
  disk_rw b write := p ← gets cur; p ← nonnull p; among (schedule serve p b k) (virtio_disk_rw b write)
|}.

Definition virtio_ready v (P : gmap Z (list Z)) : Prop := ready v /\ forall n, is_Some (P !! n) -> 0 <= n < 2147483648.

Lemma stirred_pid p b ps : p_pid <$> imap (stirred p b) ps = p_pid <$> ps.
Proof.
  apply list_eq. intros q. rewrite !list_lookup_fmap, list_lookup_imap. destruct (ps !! q) as [pr|]; [|done]. cbn. f_equal.
  unfold stirred, woken. case_decide; [done|]. by repeat (destruct (bool_decide _ && _)).
Qed.

Lemma virtio_ready_transfer b bp write v v' d : bufs d !! b = Some bp -> is_Some (platter d !! b_blockno bp) ->
  ready v' -> virtio_ready v (platter d) -> virtio_ready v' (platter (transfer b write d)).
Proof.
  intros Hb Hp R [_ Hr]. split; [done|]. unfold transfer. rewrite Hb. destruct write; [|exact Hr]. cbn. intros n Hn.
  destruct (decide (b_blockno bp = n)) as [<-|]; [by apply Hr|]. rewrite lookup_insert_ne in Hn by done. by apply Hr.
Qed.

#[program]
Definition virtio_spec (serve : kdata -> kdata) {BD : BlockDevice serve} (k : nat) : DiskSpec (K := virtio_served serve k) :=
  {| disk_ready := virtio_ready |}.
Next Obligation.
  intros serve BD k p b bp write s e Hc Hn Hp R Hb Hd. pose proof R as [R1 R2].
  destruct (rw_run serve p k b bp write s [] Hc Hp Hn R1 Hb (R2 _ Hd) Hd) as (d' & E & Ed & Rv & _). rewrite app_nil_r in E.
  exists (imap (stirred p b) (procs (kd s))), (vdiskS d'), (virtio_regs d'). split; [|split].
  - cbn [disk_rw virtio_served]. rewrite (bind_Ok _ _ _ (Some p) (mkWorld s e)) by (by rewrite <- (calm_cur p s Hc)).
    unfold nonnull, the. run. unfold among. cbn [ks env]. rewrite E. cbn [ks]. do 2 f_equal. unfold wkd, mapd, beside. f_equal. exact Ed.
  - apply stirred_pid.
  - by eapply virtio_ready_transfer.
Qed.

(** ** The theorem *)


(** The driver as virtio_disk_init leaves it *)
Definition vdisk_inited : vdisk := set_vd_free (replicate NUM 1) vdisk0.

Lemma ready_inited : ready vdisk_inited.
Proof.
  split; [|change (nfree vdisk_inited) with 8%nat; lia|reflexivity|reflexivity|cbn; lia]. split; [reflexivity..|].
  intros i x Hx. apply lookup_replicate in Hx as [-> _]. by right.
Qed.

Definition reading : kstate :=
  mapd (fun d => set_vdiskS vdisk_inited (set_platter platter0 (at_buf 3 (set_b_blockno 7) d))) running0.


(** *** A file, through the driver *)

Lemma virtio_ready_example : virtio_ready vdisk_inited blocks_example.
Proof.
  split; [exact ready_inited|]. intros n [x Hx]. unfold blocks_example in Hx. apply lookup_insert_Some in Hx as [[<- _]|[_ Hx]]; [lia|].
  unfold platter0 in Hx. apply lookup_map_seqZ_Some in Hx as [H0 Hx]. apply lookup_lt_Some in Hx. rewrite length_replicate in Hx. lia.
Qed.

Lemma writei_readi_witness : exists s s1 x1 s3,
  writei (H := virtio_served memdisk 1) 0 (inr (replicate 500 7)) 600 500 (mkWorld s []) = Ok 500 (mkWorld s1 []) /\
  itable (kd s1) !! 0%nat = Some x1 /\ i_size x1 = 1100 /\
  readi (H := virtio_served memdisk 1) 0 false 0 600 500 (mkWorld s1 []) = Ok (500, replicate 500 7) (mkWorld s3 []).
Proof.
  destruct (trans_example (DS := virtio_spec memdisk 1) vdisk_inited virtio_ready_example) as [s T].
  destruct (writei_readi (Wk := worker_with itable_example fs_example) (K := virtio_served memdisk 1) (DS := virtio_spec memdisk 1)
    2 itable_example s blocks_example [] blocks_example [] 29 0 inode_example 600 (replicate 500 7) [])
    as (s1 & C1 & x1 & Pn1 & k1 & E1 & T1 & S1 & Hk & R).
  - reflexivity.
  - discriminate.
  - exact T.
  - reflexivity.
  - exact blocks_example_ok.
  - exact file_example_ok.
  - cbn. lia.
  - cbn. discriminate.
  - rewrite length_replicate. cbn. discriminate.
  - rewrite length_replicate. change (touched 600 500) with 2%nat. lia.
  - rewrite length_replicate. change (touched 600 500) with 2%nat.
    assert ([64; 65; 66] ⊆+ free_blocks fs_example blocks_example) as Hs; [|apply submseteq_length in Hs; exact Hs].
    apply NoDup_submseteq.
    + apply NoDup_ListNoDup. repeat constructor; cbn; intuition discriminate.
    + intros n Hn. apply elem_of_free. change (sb_size fs_example) with 101.
      assert (64 <= n < 67) as Hr by (rewrite !elem_of_cons, elem_of_nil in Hn; lia).
      split; [|lia]. rewrite used_example by lia. apply Z.ltb_ge. lia.
  - destruct T1 as (L & bl & F1 & [O1 O2 O3 O4] & Ep & _).
    destruct (R (with_inodes (<[0%nat := x1]> itable_example) (worker_with itable_example fs_example)) s1 C1 Pn1 blocks_example [] L
      0%nat x1 0 []) as (s3 & E3 & _).
    + exact F1.
    + rewrite Ep. unfold LOGSIZE, MAXOPBLOCKS, NBUF in *. lia.
    + intros m _. reflexivity.
    + reflexivity.
    + rewrite (so_fields _ _ _ _ _ _ _ S1). reflexivity.
    + reflexivity.
    + exists s, s1, x1, s3. rewrite length_replicate in *. split; [exact E1|]. split; [|split; [|exact E3]].
      * rewrite (proj1 (fs_frame _ _ _ _ _ _ _ F1)). reflexivity.
      * rewrite (so_fields _ _ _ _ _ _ _ S1). rewrite length_replicate. reflexivity.
Defined.
