(* ===== verification/Console.v ===== *)
(** * The console and the serial port

    kernel/uart.c (but for uartputc_sync, which [Printf] has) and
    kernel/console.c.  The line status register reads the status bits of
    [uart_lsr], with the receive bit set when bytes wait in [uart_in]. *)

From S2P Require Import Prelude Prog State Spinlock Printf Switch CStr Kalloc Vm Proc.

(** ** uart.c *)

Definition IER : Z := 1.
Definition IER_RX_ENABLE : Z := Z.shiftl 1 0.
Definition IER_TX_ENABLE : Z := Z.shiftl 1 1.
Definition FCR : Z := 2.
Definition FCR_FIFO_ENABLE : Z := Z.shiftl 1 0.
Definition FCR_FIFO_CLEAR : Z := Z.shiftl 3 1.
Definition LCR : Z := 3.
Definition LCR_EIGHT_BITS : Z := Z.shiftl 3 0.
Definition LCR_BAUD_LATCH : Z := Z.shiftl 1 7.
Definition UART_TX_BUF_SIZE : Z := 32.

Definition getu {A} (f : uart -> A) : M A := getd (fun d => f (uartS d)).
Definition modu (f : uart -> uart) : M unit := modd (fun d => set_uartS (f (uartS d)) d).

(** [WriteReg] on a control register. *)
Definition WriteReg (reg v : Z) : M unit := modu (fun u => set_uart_ctl ((reg, v) :: uart_ctl u) u).

(** [ReadReg(LSR)] *)
Definition read_LSR : M Z :=
  getu (fun u => Z.lor (uart_lsr u) (match uart_in u with [] => 0 | _ => LSR_RX_READY end)).

Definition uartinit : M unit :=
  WriteReg IER 0;;
  WriteReg LCR LCR_BAUD_LATCH;;
  WriteReg 0 3;;
  WriteReg 1 0;;
  WriteReg LCR LCR_EIGHT_BITS;;
  WriteReg FCR (Z.lor FCR_FIFO_ENABLE FCR_FIFO_CLEAR);;
  WriteReg IER (Z.lor IER_TX_ENABLE IER_RX_ENABLE);;
  initlock LUartTx "uart".

(** One turn of the loop of uartstart. *)
Definition uartstart_turn : M (option unit) :=
  u ← getd uartS;
  if uart_tx_w u =? uart_tx_r u then mret (Some tt) else
  lsr ← read_LSR;
  if Z.land lsr LSR_TX_IDLE =? 0 then mret (Some tt) else
  c ← the "uart_tx_buf" (uart_tx_buf u !! Z.to_nat (uart_tx_r u `mod` UART_TX_BUF_SIZE));
  modu (fun u => set_uart_tx_r (u64 (uart_tx_r u + 1)) u);;
  wakeup CUartTxR;;
  modd (write_THR c);;
  mret None.

(** Each turn takes one of the characters that wait. *)
Definition uartstart : M unit :=
  u ← getd uartS;
  loop (S (Z.to_nat (u64 (uart_tx_w u - uart_tx_r u)))) uartstart_turn.

Definition uartputc (c : Z) : M unit :=
  acquire LUartTx;;
  pk ← getd panicked;
  if z2b pk then hang else
  wait_loop (
    u ← getd uartS;
    if uart_tx_w u =? u64 (uart_tx_r u + UART_TX_BUF_SIZE) then sleep CUartTxR LUartTx;; mret None
    else mret (Some tt));;
  modu (fun u => set_uart_tx_buf (<[Z.to_nat (uart_tx_w u `mod` UART_TX_BUF_SIZE) := u8 c]> (uart_tx_buf u)) u);;
  modu (fun u => set_uart_tx_w (u64 (uart_tx_w u + 1)) u);;
  uartstart;;
  release LUartTx.

Definition uartgetc : M Z :=
  lsr ← read_LSR;
  if negb (Z.land lsr 1 =? 0) then
    l ← getu uart_in;
    match l with
    | c :: l => modu (set_uart_in l);; mret c
    | [] => mret 0
    end
  else mret (-1).

(** ** console.c *)

(** [C(x)] *)
Definition ctrl (x : string) : Z := chr x - chr "@".
Definition INPUT_BUF_SIZE : Z := 128.
Definition NEWLINE : Z := 10.

Definition getc {A} (f : console -> A) : M A := getd (fun d => f (consS d)).
Definition modc (f : console -> console) : M unit := modd (fun d => set_consS (f (consS d)) d).

(** [cons.buf[i % INPUT_BUF_SIZE]] *)
Definition cons_char (i : Z) (c : console) : M Z := the "cons.buf" (cons_buf c !! Z.to_nat (i `mod` INPUT_BUF_SIZE)).

(** The [i] the loop ends with; the source is a user address or kernel bytes. *)
Fixpoint consolewrite_loop (k : nat) (src : Z + list Z) (i : Z) : M Z :=
  match k with
  | O => mret i
  | S k =>
    '(r, bs) ← either_copyin src 1;
    if r =? -1 then mret i else
    c ← the "char" (head bs);
    uartputc c;;
    consolewrite_loop k (match src with inl va => inl (u64 (va + 1)) | inr bs => inr (drop 1 bs) end) (i + 1)
  end.

Definition consolewrite (src : Z + list Z) (n : Z) : M Z := consolewrite_loop (Z.to_nat n) src 0.

(** The inner loop of consoleread: [true] if the process was killed. *)
Definition console_wait : M bool :=
  wait_loop (
    c ← getd consS;
    if cons_r c =? cons_w c then
      p ← myproc;
      p ← nonnull p;
      k ← killed p;
      if z2b k then release LCons;; mret (Some true) else
      sleep CConsR LCons;;
      mret None
    else mret (Some false)).

(** The loop of consoleread, [n] times at most: [None] if it returns -1, else
    what is left of [n], with the bytes stored at a kernel [dst]. *)
Fixpoint consoleread_loop (k : nat) (user_dst : bool) (dst n target : Z) : M (option Z * list Z) :=
  match k with
  | O => mret (Some n, [])
  | S k =>
    dead ← console_wait;
    if (dead : bool) then mret (None, []) else
    cs ← getd consS;
    c ← cons_char (cons_r cs) cs;
    modc (set_cons_r (u32 (cons_r cs + 1)));;
    if c =? ctrl "D" then
      when (n <? target) (modc (fun cs => set_cons_r (u32 (cons_r cs - 1)) cs));;
      mret (Some n, [])
    else
      '(r, bs) ← either_copyout user_dst dst [c];
      if r =? -1 then mret (Some n, bs) else
      if c =? NEWLINE then mret (Some (n - 1), bs) else
      '(r, rest) ← consoleread_loop k user_dst (u64 (dst + 1)) (n - 1) target;
      mret (r, bs ++ rest)
  end.

Definition consoleread (user_dst : bool) (dst n : Z) : M (Z * list Z) :=
  let target := u32 n in
  acquire LCons;;
  '(r, bs) ← consoleread_loop (Z.to_nat n) user_dst dst n target;
  match r with
  | None => mret (-1, bs)
  | Some n => release LCons;; mret (s32 (target - n), bs)
  end.

(** Erase the last character of the line being edited. *)
Definition erase : M unit :=
  modc (fun c => set_cons_e (u32 (cons_e c - 1)) c);;
  consputc BACKSPACE.

(** One turn of the loop that kills the line. *)
Definition kill_turn : M (option unit) :=
  c ← getd consS;
  if cons_e c =? cons_w c then mret (Some tt) else
  ch ← cons_char (u32 (cons_e c - 1)) c;
  if ch =? NEWLINE then mret (Some tt) else
  erase;; mret None.

Section console.
Context `{LinkSyms, FileSys}.

Definition consoleintr (c : Z) : M unit :=
  acquire LCons;;
  (if c =? ctrl "P" then procdump
   else if c =? ctrl "U" then
     cs ← getd consS;
     loop (S (Z.to_nat (u32 (cons_e cs - cons_w cs)))) kill_turn
   else if (c =? ctrl "H") || (c =? 0x7f) then
     cs ← getd consS;
     when (negb (cons_e cs =? cons_w cs)) erase
   else
     cs ← getd consS;
     when (negb (c =? 0) && (u32 (cons_e cs - cons_r cs) <? INPUT_BUF_SIZE)) (
       let c := if c =? 13 then NEWLINE else c in
       consputc c;;
       modc (fun cs => set_cons_buf (<[Z.to_nat (cons_e cs `mod` INPUT_BUF_SIZE) := u8 c]> (cons_buf cs)) cs);;
       modc (fun cs => set_cons_e (u32 (cons_e cs + 1)) cs);;
       cs ← getd consS;
       when ((c =? NEWLINE) || (c =? ctrl "D") || (u32 (cons_e cs - cons_r cs) =? INPUT_BUF_SIZE)) (
         modc (fun cs => set_cons_w (cons_e cs) cs);;
         wakeup CConsR)));;
  release LCons.

Definition consoleinit : M unit :=
  initlock LCons "cons";;
  uartinit;;
  modd (fun d => set_devsw (<[CONSOLE := Some DevConsole]> (devsw d)) d).

(** ** uart.c: the interrupt handler *)

(** The bytes that wait now; [Some tt] when there is none. *)
Definition drain_input : M (option unit) :=
  l ← getu uart_in;
  match l with
  | [] => mret (Some tt)
  | _ => for_each l (fun _ => c ← uartgetc; consoleintr c);; mret None
  end.

(** Bytes that arrive while others are handled are handled too: after the first
    round, each further round needs a step of the environment. *)
Definition uartintr : M unit :=
  (fun w => loop (S (S (length (env w)))) drain_input w);;
  acquire LUartTx;;
  uartstart;;
  release LUartTx.
End console.
