(* ===== verification/Pipe.v ===== *)
(** * Pipes

    kernel/pipe.c (pipealloc, which calls the file layer, is in [File]).  A
    pipe is named by the page it lives in. *)

From S2P Require Import Prelude Prog State Spinlock Switch CStr Kalloc Vm.

Definition PIPESIZE : Z := 512.

Definition get_pipe (pi : Z) : M pipe := m ← getd pipes; the "pipe" (m !! pi).
Definition upd_pipe (pi : Z) (f : pipe -> pipe) : M unit :=
  _ ← get_pipe pi; modd (fun d => set_pipes (alter f pi (pipes d)) d).

(** [pi->data[pi->nwrite++ % PIPESIZE] = ch] *)
Definition pipe_push (ch : Z) (p : pipe) : pipe :=
  set_pi_nwrite (u32 (pi_nwrite p + 1)) (set_pi_data (<[Z.to_nat (pi_nwrite p `mod` PIPESIZE) := ch]> (pi_data p)) p).

Section pipe.
Context `{LinkSyms}.

(** [kfree((char * )pi)]: the page is no longer a pipe. *)
Definition pipe_free (pi : Z) : M unit :=
  modd (fun d => set_pipes (delete pi (pipes d)) d);;
  kfree pi.

Definition pipeclose (pi : Z) (writable : bool) : M unit :=
  acquire (LPipe pi);;
  (if writable then upd_pipe pi (set_pi_writeopen 0);; wakeup (CPipeRead pi)
   else upd_pipe pi (set_pi_readopen 0);; wakeup (CPipeWrite pi));;
  p ← get_pipe pi;
  if (pi_readopen p =? 0) && (pi_writeopen p =? 0) then
    release (LPipe pi);;
    pipe_free pi
  else release (LPipe pi).

(** Wait for room; [true] when there will be none: the reader has closed its
    end, or this process was killed. *)
Definition pipe_wait_room (pi : Z) (pr : nat) : M bool :=
  wait_loop (
    p ← get_pipe pi;
    dead ← (if pi_readopen p =? 0 then mret true else k ← killed pr; mret (z2b k));
    if (dead : bool) then mret (Some true) else
    p ← get_pipe pi;
    if pi_nwrite p =? u32 (pi_nread p + PIPESIZE) then
      wakeup (CPipeRead pi);;
      sleep (CPipeWrite pi) (LPipe pi);;
      mret None
    else mret (Some false)).

(** [None] when pipewrite returns -1; else the [i] the loop ends with, of the
    [k] bytes that are left. *)
Fixpoint pipewrite_loop (k : nat) (pi : Z) (pr : nat) (addr i : Z) : M (option Z) :=
  match k with
  | O => mret (Some i)
  | S k =>
    dead ← pipe_wait_room pi pr;
    if (dead : bool) then release (LPipe pi);; mret None else
    x ← get_proc pr;
    '(r, bs) ← copyin (p_pagetable x) (u64 (addr + i)) 1;
    if r =? -1 then mret (Some i) else
    ch ← the "ch" (head bs);
    upd_pipe pi (pipe_push ch);;
    pipewrite_loop k pi pr addr (i + 1)
  end.

Definition pipewrite (pi addr n : Z) : M Z :=
  pr ← myproc;
  acquire (LPipe pi);;
  pr ← nonnull pr;
  r ← pipewrite_loop (Z.to_nat n) pi pr addr 0;
  match r with
  | None => mret (-1)
  | Some i =>
    wakeup (CPipeRead pi);;
    release (LPipe pi);;
    mret i
  end.

(** Wait for data or for the last writer to close; [true] if killed. *)
Definition pipe_wait_data (pi : Z) (pr : nat) : M bool :=
  wait_loop (
    p ← get_pipe pi;
    if (pi_nread p =? pi_nwrite p) && z2b (pi_writeopen p) then
      k ← killed pr;
      if z2b k then release (LPipe pi);; mret (Some true) else
      sleep (CPipeRead pi) (LPipe pi);;
      mret None
    else mret (Some false)).

Fixpoint piperead_loop (k : nat) (pi : Z) (pr : nat) (addr i : Z) : M Z :=
  match k with
  | O => mret i
  | S k =>
    p ← get_pipe pi;
    if pi_nread p =? pi_nwrite p then mret i else
    ch ← the "pi->data" (pi_data p !! Z.to_nat (pi_nread p `mod` PIPESIZE));
    upd_pipe pi (set_pi_nread (u32 (pi_nread p + 1)));;
    x ← get_proc pr;
    r ← copyout (p_pagetable x) (u64 (addr + i)) [ch];
    if r =? -1 then mret i else
    piperead_loop k pi pr addr (i + 1)
  end.

Definition piperead (pi addr n : Z) : M Z :=
  pr ← myproc;
  acquire (LPipe pi);;
  pr ← nonnull pr;
  dead ← pipe_wait_data pi pr;
  if (dead : bool) then mret (-1) else
  i ← piperead_loop (Z.to_nat n) pi pr addr 0;
  wakeup (CPipeWrite pi);;
  release (LPipe pi);;
  mret i.
End pipe.
