(* ===== verification/PipeSpec.v ===== *)
(** * Pipes as queues

    The bytes between the two counters of a pipe are a queue.  However the
    readers and the writers of a pipe interleave, bytes leave it at the front
    and enter it at the back, and it never holds more than PIPESIZE of them. *)

From S2P Require Import Prelude Prog State Spinlock Printf Switch CStr Kalloc Vm PageTable UserMem Sleeplock Bio Pipe.

(** ** The queue *)

Definition pipe_count (p : pipe) : Z := u32 (pi_nwrite p - pi_nread p).

Definition queue (p : pipe) : list Z :=
  (fun k => default 0 (pi_data p !! Z.to_nat ((pi_nread p + k) `mod` PIPESIZE))) <$> seqZ 0 (pipe_count p).

(** The types of the fields, and the bound on the counters. *)
Record pipe_ok (p : pipe) : Prop := {
  po_data : length (pi_data p) = Z.to_nat PIPESIZE;
  po_nread : 0 <= pi_nread p < 4294967296;
  po_nwrite : 0 <= pi_nwrite p < 4294967296;
  po_count : pipe_count p <= PIPESIZE
}.

Lemma mod_pipesize x : u32 x `mod` PIPESIZE = x `mod` PIPESIZE.
Proof. unfold wrap_u, PIPESIZE. apply Z.mod_mod_divide. by exists 8388608. Qed.

Lemma nwrite_count p : pipe_ok p -> pi_nwrite p = u32 (pi_nread p + pipe_count p).
Proof.
  intros [_ Hr Hw _]. unfold pipe_count, wrap_u. rewrite Zplus_mod_idemp_r.
  replace (pi_nread p + (pi_nwrite p - pi_nread p)) with (pi_nwrite p) by lia. rewrite Z.mod_small; [done|]. exact Hw.
Qed.

Lemma length_queue p : pipe_ok p -> length (queue p) = Z.to_nat (pipe_count p).
Proof. intros _. unfold queue. by rewrite length_fmap, length_seqZ. Qed.

Lemma pipe_count_range p : 0 <= pipe_count p < 4294967296.
Proof. apply u32_range. Qed.

(** Two places of the array that are less than PIPESIZE apart. *)
Lemma slots_differ r k c : 0 <= k < c -> c < PIPESIZE -> (r + k) `mod` PIPESIZE <> (r + c) `mod` PIPESIZE.
Proof.
  unfold PIPESIZE. intros Hk Hc E. assert ((c - k) `mod` 512 = 0) as E0.
  { replace (c - k) with ((r + c) - (r + k)) by lia. rewrite Zminus_mod, <- E, Z.sub_diag. done. }
  rewrite Z.mod_small in E0 by lia. lia.
Qed.

Lemma push_queue ch p : pipe_ok p -> pi_nwrite p <> u32 (pi_nread p + PIPESIZE) ->
  pipe_ok (pipe_push ch p) /\ queue (pipe_push ch p) = queue p ++ [ch].
Proof.
  intros O Hf. pose proof O as [Hd Hr Hw Hc]. pose proof (nwrite_count p O) as Ew. pose proof (pipe_count_range p) as Hc0.
  assert (pipe_count p < PIPESIZE) as Hlt.
  { destruct (decide (pipe_count p = PIPESIZE)) as [E|]; [|lia]. rewrite E in Ew. done. }
  assert (pipe_count (pipe_push ch p) = pipe_count p + 1) as Ec.
  { unfold pipe_count at 1. cbn [pipe_push pi_nwrite pi_nread set_pi_nwrite set_pi_data]. rewrite Ew at 1. unfold wrap_u.
    rewrite Zplus_mod_idemp_l, Zminus_mod_idemp_l.
    replace (pi_nread p + pipe_count p + 1 - pi_nread p) with (pipe_count p + 1) by lia.
    apply Z.mod_small. unfold PIPESIZE in Hlt. change (2 ^ 32) with 4294967296. lia. }
  split.
  - split; [cbn; by rewrite length_insert|done|apply u32_range|rewrite Ec; lia].
  - unfold queue. rewrite Ec. rewrite seqZ_app by lia. rewrite fmap_app. f_equal.
    + apply list_fmap_ext. intros i k Hk. apply list_elem_of_lookup_2, elem_of_seqZ in Hk.
      cbn [pipe_push pi_data pi_nread set_pi_nwrite set_pi_data]. rewrite list_lookup_insert_ne; [done|].
      rewrite Ew, mod_pipesize. intros E. apply Z2Nat.inj in E; [|apply Z.mod_pos_bound; done..].
      symmetry in E. revert E. apply slots_differ; lia.
    + rewrite (seqZ_cons _ 1), seqZ_nil by lia. cbn [fmap list_fmap pipe_push pi_data pi_nread set_pi_nwrite set_pi_data].
      rewrite Z.add_0_l, Ew, mod_pipesize, list_lookup_insert_eq; [done|].
      rewrite Hd. apply Z2Nat.inj_lt; [apply Z.mod_pos_bound; done|done|apply Z.mod_pos_bound; done].
Qed.

Lemma pop_queue p : pipe_ok p -> pi_nread p <> pi_nwrite p ->
  exists ch, pi_data p !! Z.to_nat (pi_nread p `mod` PIPESIZE) = Some ch /\
    pipe_ok (set_pi_nread (u32 (pi_nread p + 1)) p) /\ queue p = ch :: queue (set_pi_nread (u32 (pi_nread p + 1)) p).
Proof.
  intros O Hne. pose proof O as [Hd Hr Hw Hc]. pose proof (nwrite_count p O) as Ew. pose proof (pipe_count_range p) as Hc0.
  assert (0 < pipe_count p) as Hpos.
  { destruct (decide (pipe_count p = 0)) as [E|]; [|lia]. rewrite E, Z.add_0_r, u32_small in Ew by lia. congruence. }
  destruct (lookup_lt_is_Some_2 (pi_data p) (Z.to_nat (pi_nread p `mod` PIPESIZE))) as [ch Hch].
  { rewrite Hd. apply Z2Nat.inj_lt; [apply Z.mod_pos_bound; done|done|apply Z.mod_pos_bound; done]. }
  assert (pipe_count (set_pi_nread (u32 (pi_nread p + 1)) p) = pipe_count p - 1) as Ec.
  { unfold pipe_count at 1. cbn [pi_nwrite pi_nread set_pi_nread]. rewrite Ew at 1. unfold wrap_u.
    rewrite Zminus_mod_idemp_l, Zminus_mod_idemp_r.
    replace (pi_nread p + pipe_count p - (pi_nread p + 1)) with (pipe_count p - 1) by lia. apply Z.mod_small.
    change (2 ^ 32) with 4294967296. lia. }
  exists ch. split; [done|]. split.
  - split; [done|apply u32_range|done|rewrite Ec; lia].
  - unfold queue. rewrite Ec. rewrite (seqZ_cons 0 (pipe_count p)) by lia. rewrite fmap_cons, Z.add_0_r, Hch.
    cbn [default from_option]. f_equal. change (Z.succ 0) with (1 + 0). rewrite <- fmap_add_seqZ, <- list_fmap_compose.
    change (Z.pred (pipe_count p)) with (pipe_count p - 1). apply list_fmap_ext. intros i k _.
    cbn [compose pi_data pi_nread set_pi_nread]. do 3 f_equal.
    rewrite <- (mod_pipesize (u32 _ + k)), <- (mod_pipesize (pi_nread p + _)). f_equal. unfold wrap_u.
    rewrite Zplus_mod_idemp_l. f_equal. lia.
Qed.

(** ** Steps of a pipe *)

(** From [q] to [q'] by bytes entering at the back and leaving at the front. *)
Definition moved (q q' : list Z) : Prop := exists k new, (k <= length (q ++ new))%nat /\ q' = drop k (q ++ new).

#[export] Instance moved_preorder : PreOrder moved.
Proof.
  split.
  - intros q. exists 0%nat, []. rewrite app_nil_r. split; [lia|done].
  - intros q1 q2 q3 (k & new & Hk & ->) (k' & new' & Hk' & ->). exists (k + k')%nat, (new ++ new').
    rewrite app_assoc, !length_app, length_drop, length_app in *. split; [lia|].
    rewrite <- drop_drop, (drop_app_le (q1 ++ new)) by (rewrite length_app; lia). done.
Qed.

Lemma moved_push q ch : moved q (q ++ [ch]).
Proof. exists 0%nat, [ch]. split; [lia|done]. Qed.

Lemma moved_pop q ch : moved (ch :: q) q.
Proof. exists 1%nat, []. rewrite app_nil_r. cbn. split; [lia|done]. Qed.

Definition pipe_step (pi : Z) (s s' : kstate) : Prop :=
  forall p, pipes (kd s) !! pi = Some p -> pipe_ok p ->
  exists p', pipes (kd s') !! pi = Some p' /\ pipe_ok p' /\ moved (queue p) (queue p').

#[export] Instance pipe_step_preorder pi : PreOrder (pipe_step pi).
Proof.
  split.
  - intros s p Hp O. by exists p.
  - intros s1 s2 s3 H12 H23 p Hp O. destruct (H12 p Hp O) as (p2 & Hp2 & O2 & M2).
    destruct (H23 p2 Hp2 O2) as (p3 & Hp3 & O3 & M3). exists p3. split; [done|]. split; [done|]. by etrans.
Qed.

Lemma pipe_step_same pi s s' : pipes (kd s') = pipes (kd s) -> pipe_step pi s s'.
Proof. intros E p Hp O. exists p. by rewrite E. Qed.

#[export] Instance pipe_step_data pi : DataRel (pipe_step pi).
Proof. intros s s' E. apply pipe_step_same. by rewrite E. Qed.

#[export] Instance pipe_step_mem pi : MemRel (pipe_step pi).
Proof. split; [apply _|by eauto with guar typeclass_instances..| |]; intros; by apply pipe_step_same. Qed.

(** ** Programs that only read *)

Definition reads {A} (m : M A) : Prop :=
  forall w, match m w with Ok _ w' => w' = w | Blocked _ => False | _ => True end.

Lemma reads_ret {A} (a : A) : reads (mret a).
Proof. by intros w. Qed.

Lemma reads_bind {A B} (m : M A) (k : A -> M B) : reads m -> (forall a, reads (k a)) -> reads (m ≫= k).
Proof.
  intros Hm Hk w. specialize (Hm w). unfold mbind, Prog_bind. destruct (m w) as [a w'| | |]; try done. subst w'. apply Hk.
Qed.

Lemma reads_read_bytes a n : reads (read_bytes a n).
Proof.
  intros w. unfold read_bytes, get_page, getd. autorewrite with run.
  destruct (mem (kd (ks w)) !! page_of a); [|done]. autorewrite with run. by destruct (_ <=? _)%nat.
Qed.

Lemma reads_walk_loop levels pt va : reads (walk_loop levels pt va false).
Proof.
  revert pt. induction levels as [|l levels IH]; intros pt; cbn [walk_loop negb]; [apply reads_ret|].
  apply reads_bind; [apply reads_bind; [apply reads_read_bytes|intros; apply reads_ret]|].
  intros v. destruct (Z.land v PTE_V =? 0); cbn [negb]; [apply reads_ret|apply IH].
Qed.

Lemma reads_walkaddr pt va : reads (walkaddr pt va).
Proof.
  unfold walkaddr, walk. destruct (MAXVA <=? va); [apply reads_ret|].
  apply reads_bind; [apply reads_bind; [apply reads_walk_loop|]; intros []; apply reads_ret|].
  intros pte. destruct (pte =? 0); [apply reads_ret|].
  apply reads_bind; [apply reads_bind; [apply reads_read_bytes|intros; apply reads_ret]|].
  intros v. repeat (destruct (_ =? 0); [apply reads_ret|]). apply reads_ret.
Qed.

Lemma reads_copyin pt va len : reads (copyin pt va len).
Proof.
  unfold copyin. generalize (S len) as fuel. intros fuel. revert va len.
  induction fuel as [|fuel IH]; intros va len; cbn [copyin_loop]; [done|].
  destruct (len =? 0)%nat; [apply reads_ret|]. apply reads_bind; [apply reads_walkaddr|]. intros pa.
  destruct (pa =? 0); [apply reads_ret|]. apply reads_bind; [apply reads_read_bytes|]. intros bs.
  apply reads_bind; [apply IH|]. intros [r rest]. apply reads_ret.
Qed.

(** ** Readers and writers *)

Section steps.
Context (pi : Z).

Lemma guar_get_pipe q : guar (pipe_step pi) (get_pipe q).
Proof. unfold get_pipe. guar_auto. Qed.

Lemma guar_upd_proc_pipe q f : guar (pipe_step pi) (upd_proc q f).
Proof. unfold upd_proc, get_proc. guar_auto. apply guar_modd; [apply _..|]. intros s. by apply pipe_step_same. Qed.

#[local] Hint Resolve guar_get_pipe guar_upd_proc_pipe : guar.

Lemma guar_get_proc_pipe q : guar (pipe_step pi) (get_proc q).
Proof. unfold get_proc. guar_auto. Qed.

Lemma guar_myproc_pipe : guar (pipe_step pi) myproc.
Proof. unfold myproc, mycpu, cpuid. guar_auto. Qed.

#[local] Hint Resolve guar_get_proc_pipe guar_myproc_pipe : guar.

Lemma guar_killed_pipe q : guar (pipe_step pi) (killed q).
Proof. unfold killed. guar_auto. Qed.

Lemma guar_sleep_pipe chan lk : guar (pipe_step pi) (sleep chan lk).
Proof. unfold sleep, sched, mycpu, cpuid, swtch, nonnull. guar_auto. Qed.

Lemma guar_wakeup_pipe chan : guar (pipe_step pi) (wakeup chan).
Proof. unfold wakeup. guar_auto. Qed.

#[local] Hint Resolve guar_killed_pipe guar_sleep_pipe guar_wakeup_pipe : guar.

Lemma guar_wait_room pr : guar (pipe_step pi) (pipe_wait_room pi pr).
Proof. unfold pipe_wait_room. guar_auto. Qed.

Lemma guar_wait_data pr : guar (pipe_step pi) (pipe_wait_data pi pr).
Proof. unfold pipe_wait_data. guar_auto. Qed.

(** [guar] in one world. *)
Definition guar_at {A} (R : kstate -> kstate -> Prop) (m : M A) (w : world kstate) : Prop :=
  match m w with
  | Ok _ w' => R (ks w) (ks w') /\ env w' `suffix_of` env w
  | Blocked w' => R (ks w) (ks w')
  | _ => True
  end.

Lemma guar_bind_post {A B} (m : M A) (k : A -> M B) (Q : A -> world kstate -> Prop) :
  guar (pipe_step pi) m -> (forall w a w', m w = Ok a w' -> Q a w') ->
  (forall a w, rely (pipe_step pi) w -> Q a w -> guar_at (pipe_step pi) (k a) w) -> guar (pipe_step pi) (m ≫= k).
Proof.
  intros Hm Hq Hk w Hw. specialize (Hm w Hw). unfold mbind, Prog_bind. destruct (m w) as [a w'| |w'|] eqn:E; try done.
  destruct Hm as [H1 He]. specialize (Hk a w' (rely_suffix _ w w' Hw He) (Hq w a w' E)). unfold guar_at in Hk.
  destruct (k a w') as [b w2| |w2|]; try done.
  - destruct Hk as [H2 ?]. split; by etrans.
  - by etrans.
Qed.

Lemma guar_at_reads {A B} (m : M A) (k : A -> M B) w : reads m ->
  (forall a, guar_at (pipe_step pi) (k a) w) -> guar_at (pipe_step pi) (m ≫= k) w.
Proof.
  intros Hm Hk. specialize (Hm w). unfold guar_at, mbind, Prog_bind in *. destruct (m w) as [a w'| | |]; try done.
  subst w'. apply Hk.
Qed.

(** A change of the pipe, then the rest. *)
Lemma guar_at_upd {B} (f : pipe -> pipe) (k : M B) w p : rely (pipe_step pi) w -> pipes (kd (ks w)) !! pi = Some p ->
  (pipe_ok p -> pipe_ok (f p) /\ moved (queue p) (queue (f p))) -> guar (pipe_step pi) k ->
  guar_at (pipe_step pi) (upd_pipe pi f;; k) w.
Proof.
  intros Hw Hp Hf Hk. destruct w as [s e]. cbn [ks] in Hp. unfold guar_at, upd_pipe, get_pipe, getd. run.
  cbn [ks]. rewrite Hp. unfold the. run. unfold modd. run. fold (mapd (fun d => set_pipes (alter f pi (pipes d)) d) s).
  assert (pipe_step pi s (mapd (fun d => set_pipes (alter f pi (pipes d)) d) s)) as Hs.
  { intros p' Hp' O. rewrite Hp in Hp'. injection Hp' as <-. exists (f p). destruct (Hf O) as [O' M'].
    split; [|done]. cbn. by rewrite lookup_alter_eq, Hp. }
  specialize (Hk (mkWorld (mapd (fun d => set_pipes (alter f pi (pipes d)) d) s) e) Hw).
  destruct (k _) as [b w2| |w2|]; try done.
  - destruct Hk. split; [by etrans|done].
  - by etrans.
Qed.

(** What pipewrite knows when it has waited for room. *)
Definition has_room (w : world kstate) : Prop :=
  exists p, pipes (kd (ks w)) !! pi = Some p /\ pi_nwrite p <> u32 (pi_nread p + PIPESIZE).

Lemma loop_last {A} n (body : M (option A)) w a w' : loop n body w = Ok a w' -> exists w1, body w1 = Ok (Some a) w'.
Proof.
  revert w. induction n as [|n IH]; intros w E; [done|]. cbn [loop] in E.
  apply bind_Ok_inv in E as ([r|] & w1 & E1 & E2); [|by eapply IH]. injection E2 as -> ->. by exists w.
Qed.

Lemma get_pipe_inv q w p w' : get_pipe q w = Ok p w' -> w' = w /\ pipes (kd (ks w)) !! q = Some p.
Proof.
  unfold get_pipe, getd. autorewrite with run. destruct (pipes (kd (ks w)) !! q) eqn:E; intros [= -> ->]. done.
Qed.

Lemma wait_room_post pr w w' : pipe_wait_room pi pr w = Ok false w' -> has_room w'.
Proof.
  intros E. apply loop_last in E as (w1 & E). apply bind_Ok_inv in E as (p & w2 & _ & E).
  apply bind_Ok_inv in E as (dead & w3 & _ & E). destruct dead; [done|].
  apply bind_Ok_inv in E as (p' & w4 & E4 & E). apply get_pipe_inv in E4 as [-> Hp].
  destruct (Z.eqb_spec (pi_nwrite p') (u32 (pi_nread p' + PIPESIZE))) as [_|Hne].
  - apply bind_Ok_inv in E as ([] & w5 & _ & E). apply bind_Ok_inv in E as ([] & w6 & _ & E). done.
  - injection E as ->. by exists p'.
Qed.

Lemma guar_pipewrite_loop k pr addr i : guar (pipe_step pi) (pipewrite_loop k pi pr addr i).
Proof.
  revert i. induction k as [|k IH]; intros i; cbn [pipewrite_loop]; [guar_auto|].
  apply (guar_bind_post _ _ (fun dead w => dead = false -> has_room w)); [apply guar_wait_room| |].
  - intros w a w' E ->. by eapply wait_room_post.
  - intros [|] w Hw Hr.
    + assert (guar (pipe_step pi) (release (LPipe pi);; mret (@None Z))) as Hg by guar_auto. exact (Hg w Hw).
    + destruct (Hr eq_refl) as (p & Hp & Hne). apply guar_at_reads; [|intros x].
      { intros w'. unfold get_proc, getd. autorewrite with run. by destruct (_ !! pr). }
      apply guar_at_reads; [apply reads_copyin|]. intros [r bs].
      destruct (r =? -1); [by split; [reflexivity|done]|].
      destruct bs as [|ch bs]; [done|]. cbn [head]. unfold the.
      change (guar_at (pipe_step pi) (upd_pipe pi (pipe_push ch);; pipewrite_loop k pi pr addr (i + 1)) w).
      apply (guar_at_upd _ _ w p); [done|done| |apply IH].
      intros O. destruct (push_queue ch p O Hne) as [O' ->]. split; [done|apply moved_push].
Qed.

Lemma guar_piperead_loop k pr addr i : guar (pipe_step pi) (piperead_loop k pi pr addr i).
Proof.
  revert i. induction k as [|k IH]; intros i; cbn [piperead_loop]; [guar_auto|].
  apply (guar_bind_post _ _ (fun p w => pipes (kd (ks w)) !! pi = Some p)); [apply guar_get_pipe| |].
  - intros w p w' E. apply get_pipe_inv in E as [-> Hp]. done.
  - intros p w Hw Hp. destruct (Z.eqb_spec (pi_nread p) (pi_nwrite p)) as [_|Hne]; [by split; [reflexivity|done]|].
    destruct (pi_data p !! Z.to_nat (pi_nread p `mod` PIPESIZE)) as [ch|] eqn:Ech; [|done]. unfold the.
    change (guar_at (pipe_step pi) (upd_pipe pi (set_pi_nread (u32 (pi_nread p + 1)));;
      x ← get_proc pr;
      r ← copyout (p_pagetable x) (u64 (addr + i)) [ch];
      if r =? -1 then mret i else piperead_loop k pi pr addr (i + 1)) w).
    apply (guar_at_upd _ _ w p); [done|done| |].
    + intros O. destruct (pop_queue p O Hne) as (ch' & _ & O' & ->). split; [done|apply moved_pop].
    + guar_auto.
Qed.

#[local] Hint Resolve guar_pipewrite_loop guar_piperead_loop guar_wait_data : guar.

Lemma guar_pipewrite addr n : guar (pipe_step pi) (pipewrite pi addr n).
Proof. unfold pipewrite, nonnull. guar_auto. Qed.

Lemma guar_piperead addr n : guar (pipe_step pi) (piperead pi addr n).
Proof. unfold piperead, nonnull. guar_auto. Qed.
End steps.

(** ** A writer that finds room *)

Definition with_pipe (pi : Z) (p : pipe) (s : kstate) : kstate :=
  mapd (fun d => set_pipes (<[pi := p]> (pipes d)) d) s.

Section writer.
Context {LS : LinkSyms} {LSO : LinkSymsOk LS} (pi : Z) (pr : nat) (x : proc) (s : kstate) (e : list (kstate -> kstate)).
Context (Hc : calm pr s) (Hf : is_free s (LPipe pi)) (Ht : length (procs (kd s)) = NPROC).
Context (Hx : procs (kd s) !! pr = Some x) (Hk : p_killed x = 0) (Hu : user_ok (mem (kd s)) (p_pagetable x)).

Let inside (p : pipe) : kstate := acq (LPipe pi) (with_pipe pi p s).

Lemma settled_inside p : settled (inside p) /\ noff (inside p) = 1 /\ forall q, (q < NPROC)%nat -> is_free (inside p) (LProc q).
Proof using Hc Ht.
  pose proof (calm_settled _ _ Hc) as Hs. unfold inside, with_pipe. rewrite acq_mapd. split; [|split].
  - apply (settled_acq (LPipe pi) s); [apply Hs|rewrite (calm_noff _ _ Hc); done].
  - change (noff (acq (LPipe pi) s) = 1). rewrite noff_acq by apply Hs. by rewrite (calm_noff _ _ Hc).
  - intros q Hq. change (is_free (acq (LPipe pi) s) (LProc q)). apply is_free_acq_ne; [done|]. apply Hc.
    apply elem_of_app. left. apply list_elem_of_fmap. exists q. split; [done|]. apply elem_of_seq. lia.
Qed.

Lemma get_pipe_inside p : get_pipe pi (mkWorld (inside p) e) = Ok p (mkWorld (inside p) e).
Proof. unfold get_pipe, getd. run. cbn. by rewrite lookup_insert_eq. Qed.

Lemma upd_pipe_inside f p : upd_pipe pi f (mkWorld (inside p) e) = Ok tt (mkWorld (inside (f p)) e).
Proof.
  unfold upd_pipe. rewrite (bind_Ok _ _ _ _ _ (get_pipe_inside p)). unfold modd. run. do 2 f_equal.
  fold (mapd (fun d => set_pipes (alter f pi (pipes d)) d) (inside p)). unfold inside, with_pipe.
  rewrite !acq_mapd, mapd_mapd. unfold mapd. f_equal. cbn. rewrite alter_insert_eq. reflexivity.
Qed.

Lemma pipe_wait_room_now p : pi_readopen p <> 0 -> pi_nwrite p <> u32 (pi_nread p + PIPESIZE) ->
  pipe_wait_room pi pr (mkWorld (inside p) e) = Ok false (mkWorld (inside p) e).
Proof using Hc Ht Hx Hk.
  intros Ho Hr. unfold pipe_wait_room. apply wait_loop_once. rewrite (bind_Ok _ _ _ _ _ (get_pipe_inside p)).
  apply Z.eqb_neq in Ho as ->. destruct (settled_inside p) as (Hs & Hn & Hfr).
  assert (pr < NPROC)%nat as Hlt by (rewrite <- Ht; by eapply lookup_lt_Some).
  rewrite bind_assoc, (bind_Ok _ _ _ _ _ (killed_ok pr x (inside p) e Hs ltac:(rewrite Hn; done) (Hfr pr Hlt) Hx)).
  run. rewrite Hk. change (z2b 0) with false. cbv iota. rewrite (bind_Ok _ _ _ _ _ (get_pipe_inside p)).
  apply Z.eqb_neq in Hr as ->. done.
Qed.

Lemma pipewrite_loop_ok addr k : forall i p, pipe_ok p -> pi_readopen p <> 0 -> pipe_count p + Z.of_nat k <= PIPESIZE ->
  0 <= addr -> 0 <= i -> addr + i + Z.of_nat k < 2 ^ 64 ->
  exists bs p', pipewrite_loop k pi pr addr i (mkWorld (inside p) e) = Ok (Some (i + Z.of_nat (length bs))) (mkWorld (inside p') e) /\
    pipe_ok p' /\ queue p' = queue p ++ bs /\ bytes_at (mem (kd s)) (p_pagetable x) (addr + i) bs /\
    (length bs = k \/ (length bs < k)%nat /\ access (mem (kd s)) (p_pagetable x) (addr + i + Z.of_nat (length bs)) = None).
Proof using LSO Hc Ht Hx Hk Hu.
  induction k as [|k IH]; intros i p O Ho Hc' Ha Hi Hai; cbn [pipewrite_loop].
  { exists [], p. rewrite app_nil_r, Z.add_0_r. split; [done|]. split; [done|]. split; [done|]. split; [done|by left]. }
  assert (pi_nwrite p <> u32 (pi_nread p + PIPESIZE)) as Hne.
  { intros E. assert (pipe_count p = PIPESIZE) as E'; [|lia]. unfold pipe_count. rewrite E. unfold wrap_u.
    rewrite Zminus_mod_idemp_l. replace (pi_nread p + PIPESIZE - pi_nread p) with PIPESIZE by lia. done. }
  rewrite (bind_Ok _ _ _ _ _ (pipe_wait_room_now p Ho Hne)).
  rewrite (bind_Ok _ _ _ _ _ (get_proc_ok pr x (inside p) e Hx)), u64_small by lia.
  destruct (copyin_loop_ok (p_pagetable x) (inside p) e Hu 2 (addr + i) 1) as (r & bs & E & Hb & Hr); [lia|lia|].
  unfold copyin. rewrite (bind_Ok _ _ _ _ _ E). destruct Hr as [[-> Hl]|(-> & Hl & Hacc)].
  - destruct bs as [|ch [|? ?]]; try done. cbn [Z.eqb head]. unfold the. run.
    rewrite (bind_Ok _ _ _ _ _ (upd_pipe_inside (pipe_push ch) p)).
    destruct (push_queue ch p O Hne) as [O' Eq].
    assert (pipe_count (pipe_push ch p) = pipe_count p + 1) as Ec.
    { apply (f_equal length) in Eq. rewrite length_app, !length_queue in Eq by done. cbn [length] in Eq.
      pose proof (pipe_count_range p). pose proof (pipe_count_range (pipe_push ch p)). lia. }
    destruct (IH (i + 1) (pipe_push ch p)) as (bs & p' & E' & O2 & Eq2 & Hb2 & Hr2); [done|done|lia|lia|lia|lia|].
    exists (ch :: bs), p'. cbn [length]. split; [rewrite E'; do 2 f_equal; lia|]. split; [done|].
    split; [by rewrite Eq2, Eq, <- app_assoc|]. split.
    + apply (bytes_at_app _ _ _ [ch]); [done|]. cbn [length]. by replace (addr + i + Z.of_nat 1) with (addr + (i + 1)) by lia.
    + destruct Hr2 as [<-|[Hlt Hn]]; [by left|right]. split; [lia|].
      by replace (addr + i + Z.of_nat (S (length bs))) with (addr + (i + 1) + Z.of_nat (length bs)) by lia.
  - destruct bs; [|cbn in Hl; lia]. cbn [Z.eqb Pos.eqb]. exists [], p. cbn [length]. rewrite app_nil_r, Z.add_0_r.
    split; [done|]. split; [done|]. split; [done|]. split; [done|]. right. split; [lia|done].
Qed.

Lemma with_pipe_id p : pipes (kd s) !! pi = Some p -> with_pipe pi p s = s.
Proof.
  intros Hp. unfold with_pipe, mapd. rewrite insert_id by done. clear. destruct s as [? ? ? ? d]. by destruct d.
Qed.

Lemma pipewrite_ok addr n p : pipes (kd s) !! pi = Some p -> pipe_ok p -> pi_readopen p <> 0 ->
  0 <= n -> pipe_count p + n <= PIPESIZE -> 0 <= addr -> addr + n < 2 ^ 64 ->
  exists bs p', pipewrite pi addr n (mkWorld s e) = Ok (Z.of_nat (length bs))
      (mkWorld (mapd (fun d => all_procs (wake_eff (CPipeRead pi) (Some pr)) (set_pipes (<[pi := p']> (pipes d)) d)) s) e) /\
    pipe_ok p' /\ queue p' = queue p ++ bs /\ bytes_at (mem (kd s)) (p_pagetable x) addr bs /\
    (Z.of_nat (length bs) = n \/ Z.of_nat (length bs) < n /\
       access (mem (kd s)) (p_pagetable x) (addr + Z.of_nat (length bs)) = None).
Proof using LSO Hc Hf Ht Hx Hk Hu.
  intros Hp O Ho Hn Hcn Ha Han. pose proof (calm_settled _ _ Hc) as Hs. pose proof (calm_noff _ _ Hc) as Hno.
  destruct (pipewrite_loop_ok addr (Z.to_nat n) 0 p O Ho) as (bs & p' & E & O' & Eq & Hb & Hr); [lia|lia|lia|lia|].
  exists bs, p'. rewrite Z.add_0_r in Hb, Hr. split; [|split; [done|]; split; [done|]; split; [done|]].
  2: { destruct Hr as [Hr|[Hr ?]]; [left; lia|right; split; [lia|done]]. }
  unfold pipewrite. rewrite (bind_Ok _ _ _ _ _ (myproc_ok s e Hs ltac:(rewrite Hno; done))), (calm_cur _ _ Hc).
  rewrite (bind_Ok _ _ _ _ _ (acquire_ok (LPipe pi) s e (proj1 Hs) (free_locked _ _ Hf))). unfold nonnull. run.
  unfold inside in E. rewrite (with_pipe_id p Hp) in E. rewrite (bind_Ok _ _ _ _ _ E).
  destruct (settled_inside p') as (Hs' & Hn' & Hfr). unfold inside in Hs', Hn', Hfr.
  rewrite (bind_Ok _ _ _ _ _ (wakeup_ok (CPipeRead pi) (acq (LPipe pi) (with_pipe pi p' s)) e Hs'
    ltac:(rewrite Hn'; done) Ht ltac:(intros q Hq _; by apply Hfr))).
  unfold with_pipe. rewrite acq_mapd, mapd_mapd.
  change (cur (mapd _ (acq (LPipe pi) s))) with (cur (acq (LPipe pi) s)). rewrite cur_acq by apply Hs.
  rewrite (calm_cur _ _ Hc).
  rewrite (bind_Ok _ _ _ _ _ (release_mapd_acq (LPipe pi) _ s e Hs ltac:(rewrite Hno; done) Hf)). run. by rewrite Z.add_0_l.
Qed.
End writer.

(** ** Theorems *)


(** A writer that finds room appends the bytes of its buffer.
    pipewrite, called with no lock held on a pipe whose reader is there and that
    has room for the [n] bytes, returns without waiting; it has appended to the
    queue the bytes at the user's address, up to the first that is not mapped,
    returned their number, and made the sleeping readers runnable; nothing else
    has changed. *)
Theorem pipewrite_appends `{LinkSyms} `{!LinkSymsOk _} pi pr x s e addr n p :
  calm pr s -> is_free s (LPipe pi) -> length (procs (kd s)) = NPROC ->
  procs (kd s) !! pr = Some x -> p_killed x = 0 -> user_ok (mem (kd s)) (p_pagetable x) ->
  pipes (kd s) !! pi = Some p -> pipe_ok p -> pi_readopen p <> 0 ->
  0 <= n -> pipe_count p + n <= PIPESIZE -> 0 <= addr -> addr + n < 2 ^ 64 ->
  exists bs p', pipewrite pi addr n (mkWorld s e) = Ok (Z.of_nat (length bs))
      (mkWorld (mapd (fun d => all_procs (wake_eff (CPipeRead pi) (Some pr)) (set_pipes (<[pi := p']> (pipes d)) d)) s) e) /\
    pipe_ok p' /\ queue p' = queue p ++ bs /\
    (forall i c, bs !! i = Some c -> access (mem (kd s)) (p_pagetable x) (addr + Z.of_nat i) = Some c) /\
    (Z.of_nat (length bs) = n \/ Z.of_nat (length bs) < n /\
       access (mem (kd s)) (p_pagetable x) (addr + Z.of_nat (length bs)) = None).
Proof. intros. by apply pipewrite_ok. Qed.

(** ** An example: a pipe whose counters are about to wrap around *)

Definition pipe_page : Z := 0x87ffb000.
Definition pipe_example : pipe :=
  {| pi_data := replicate 512 65; pi_nread := 4294967294; pi_nwrite := 1; pi_readopen := 1; pi_writeopen := 1 |}.

Lemma pipe_example_ok : pipe_ok pipe_example.
Proof. split; [reflexivity|split; [discriminate|reflexivity]|split; [discriminate|reflexivity]|discriminate]. Qed.

Definition pipe_running : kstate :=
  mapd (fun d => set_pipes {[pipe_page := pipe_example]} d) running0.


(** Process 0 with the user memory of [UserMem.t_user], and the pipe. *)
Definition writer_example : proc := set_p_pagetable t_root proc0.
Definition writer_with (m : gmap Z (list Z)) : kstate :=
  init_spin (LPipe pipe_page) "pipe" (mapd (fun d => set_mem m
    (set_procs (<[0%nat := writer_example]> (procs d)) d)) pipe_running).
Definition writer_running : kstate := writer_with (mem (kd t_user)).

Lemma writer_mem m : mem (kd (writer_with m)) = m.
Proof. reflexivity. Qed.

Lemma writer_calm m : calm 0 (writer_with m).
Proof.
  split; [exact settled_running0|reflexivity|reflexivity|]. intros lk Hlk. apply is_free_init_keep.
  exact (running0_free lk Hlk).
Qed.

Lemma pipewrite_appends_witness : exists bs p' s',
  pipewrite pipe_page 0 100 (mkWorld writer_running []) = Ok (Z.of_nat (length bs)) (mkWorld s' []) /\
  queue p' = [65; 65; 65] ++ bs.
Proof.
  destruct (pipewrite_appends (H := kernel_syms) (LinkSymsOk0 := kernel_syms_ok) pipe_page 0 writer_example writer_running []
    0 100 pipe_example) as (bs & p' & E & _ & Eq & _).
  - apply writer_calm.
  - apply is_free_init.
  - reflexivity.
  - reflexivity.
  - reflexivity.
  - unfold writer_running. rewrite writer_mem. exact t_user_ok.
  - apply lookup_singleton_eq.
  - exact pipe_example_ok.
  - discriminate.
  - discriminate.
  - discriminate.
  - discriminate.
  - reflexivity.
  - exists bs, p'. eexists. split; [exact E|exact Eq].
Defined.
