(* ===== verification/File.v ===== *)
(** * Open files

    kernel/file.c, and pipealloc of kernel/pipe.c.  A file is its index in
    ftable. *)

From S2P Require Import Prelude Prog State Spinlock Printf Switch CStr Kalloc Vm Proc Sleeplock Bio Log Fs FileData Console Pipe.

(** The four bytes of padding of a [struct stat] on the kernel stack, which
    stati leaves as they were. *)
Class StackBytes := { stat_padding : list Z }.

Definition stat_bytes `{!StackBytes} (st : stat) : list Z :=
  le_split 4 (st_dev st) ++ le_split 4 (st_ino st) ++ le_split 2 (st_type st) ++ le_split 2 (st_nlink st) ++
  stat_padding ++ le_split 8 (st_size st).

Definition get_file (f : nat) : M file := l ← getd ftable; the "file" (l !! f).
Definition upd_file (f : nat) (g : file -> file) : M unit :=
  _ ← get_file f; modd (fun d => set_ftable (alter g f (ftable d)) d).

Section file.
Context `{!Disk, !LinkSyms, !StackBytes}.

Definition fileinit : M unit := initlock LFtable "ftable".

Definition filealloc : M (option nat) :=
  acquire LFtable;;
  r ← for_find (seq 0 NFILE) (fun f =>
    x ← get_file f;
    if f_ref x =? 0 then
      upd_file f (set_f_ref 1);;
      release LFtable;;
      mret (Some f)
    else mret None);
  match r with
  | Some f => mret (Some f)
  | None => release LFtable;; mret None
  end.

Definition filedup (f : nat) : M nat :=
  acquire LFtable;;
  x ← get_file f;
  if f_ref x <? 1 then panic "filedup" else
  upd_file f (fun x => set_f_ref (s32 (f_ref x + 1)) x);;
  release LFtable;;
  mret f.

Definition is_inode_file (t : filetype) : bool := bool_decide (t = FD_INODE) || bool_decide (t = FD_DEVICE).

Definition fileclose (f : nat) : M unit :=
  acquire LFtable;;
  x ← get_file f;
  if f_ref x <? 1 then panic "fileclose" else
  upd_file f (fun x => set_f_ref (s32 (f_ref x - 1)) x);;
  ff ← get_file f;
  if 0 <? f_ref ff then release LFtable else
  upd_file f (set_f_ref 0);;
  upd_file f (set_f_type FD_NONE);;
  release LFtable;;
  if bool_decide (f_type ff = FD_PIPE) then pipeclose (f_pipe ff) (z2b (f_writable ff))
  else when (is_inode_file (f_type ff)) (
    begin_op;;
    ip ← nonnull (f_ip ff);
    iput ip;;
    end_op).

Definition filestat (f : nat) (addr : Z) : M Z :=
  p ← myproc;
  x ← get_file f;
  if is_inode_file (f_type x) then
    ilock (f_ip x);;
    ip ← nonnull (f_ip x);
    st ← stati ip;
    iunlock (f_ip x);;
    p ← nonnull p;
    pr ← get_proc p;
    r ← copyout (p_pagetable pr) addr (stat_bytes st);
    mret (if r <? 0 then -1 else 0)
  else mret (-1).

(** [devsw[major]], if the number is one of a driver's. *)
Definition device_of (major : Z) : M (option device) :=
  if (major <? 0) || (NDEV <=? major) then mret None else
  l ← getd devsw;
  the "devsw" (l !! Z.to_nat major).

Definition fileread (f : nat) (addr n : Z) : M Z :=
  x ← get_file f;
  if f_readable x =? 0 then mret (-1) else
  match f_type x with
  | FD_PIPE => piperead (f_pipe x) addr n
  | FD_DEVICE =>
    d ← device_of (f_major x);
    match d with
    | None => mret (-1)
    | Some DevConsole => '(r, _) ← consoleread true addr n; mret r
    end
  | FD_INODE =>
    ilock (f_ip x);;
    ip ← nonnull (f_ip x);
    x ← get_file f;
    '(r, _) ← readi ip true addr (f_off x) (u32 n);
    when (0 <? r) (upd_file f (fun x => set_f_off (u32 (f_off x + r)) x));;
    iunlock (Some ip);;
    mret r
  | FD_NONE => panic "fileread"
  end.

(** The bytes one transaction may write. *)
Definition FILEWRITE_MAX : Z := (MAXOPBLOCKS - 1 - 1 - 2) / 2 * BSIZE.

(** The loop of filewrite: the [i] it ends with.  A turn that does not end it
    writes [max] bytes, or all that is left. *)
Fixpoint filewrite_loop (fuel : nat) (f : nat) (addr n i : Z) : M Z :=
  if negb (i <? n) then mret i else
  match fuel with
  | O => fault "filewrite fuel"
  | S fuel =>
    let n1 := Z.min (n - i) FILEWRITE_MAX in
    begin_op;;
    x ← get_file f;
    ilock (f_ip x);;
    ip ← nonnull (f_ip x);
    x ← get_file f;
    r ← writei ip (inl (u64 (addr + i))) (f_off x) n1;
    when (0 <? r) (upd_file f (fun x => set_f_off (u32 (f_off x + r)) x));;
    iunlock (Some ip);;
    end_op;;
    if negb (r =? n1) then mret i else
    filewrite_loop fuel f addr n (i + r)
  end.

Definition filewrite (f : nat) (addr n : Z) : M Z :=
  x ← get_file f;
  if f_writable x =? 0 then mret (-1) else
  match f_type x with
  | FD_PIPE => pipewrite (f_pipe x) addr n
  | FD_DEVICE =>
    d ← device_of (f_major x);
    match d with
    | None => mret (-1)
    | Some DevConsole => consolewrite (inl addr) n
    end
  | FD_INODE =>
    i ← filewrite_loop (Z.to_nat (n / FILEWRITE_MAX) + 1) f addr n 0;
    mret (if i =? n then n else -1)
  | FD_NONE => panic "filewrite"
  end.

(** ** pipealloc *)

Definition pipe_end (readable writable pi : Z) (x : file) : file :=
  set_f_pipe pi (set_f_writable writable (set_f_readable readable (set_f_type FD_PIPE x))).

(** The label [bad]; there [pi] is always null. *)
Definition pipealloc_bad (f0 f1 : option nat) : M (option (nat * nat)) :=
  match f0 with Some f => fileclose f | None => mret tt end;;
  match f1 with Some f => fileclose f | None => mret tt end;;
  mret None.

(** The read end and the write end; [None] is -1. *)
Definition pipealloc : M (option (nat * nat)) :=
  f0 ← filealloc;
  match f0 with
  | None => pipealloc_bad None None
  | Some f0 =>
    f1 ← filealloc;
    match f1 with
    | None => pipealloc_bad (Some f0) None
    | Some f1 =>
      pi ← kalloc;
      if pi =? 0 then pipealloc_bad (Some f0) (Some f1) else
      page ← get_page pi;
      modd (fun d => set_pipes (<[pi := {| pi_data := take (Z.to_nat PIPESIZE) page; pi_nread := 0; pi_nwrite := 0;
                                           pi_readopen := 1; pi_writeopen := 1 |}]> (pipes d)) d);;
      initlock (LPipe pi) "pipe";;
      upd_file f0 (pipe_end 1 0 pi);;
      upd_file f1 (pipe_end 0 1 pi);;
      mret (Some (f0, f1))
    end
  end.
End file.

(** What filewrite hands to writei at a time fits the share of the log that
    begin_op gives to one operation, as a bound on the blocks that
    [FileData.writei_readi] accounts for. *)
Lemma filewrite_fits off len : 0 <= off -> Z.of_nat len <= FILEWRITE_MAX -> (3 + touched off len <= Z.to_nat MAXOPBLOCKS)%nat.
Proof.
  intros Ho Hl. unfold touched. destruct (decide (len = 0%nat)); [unfold MAXOPBLOCKS; lia|].
  assert (0 <= off `mod` BSIZE < BSIZE) as Hm by (by apply Z.mod_pos_bound).
  change FILEWRITE_MAX with 3072 in Hl. change BSIZE with 1024 in *. unfold MAXOPBLOCKS.
  generalize dependent (off `mod` 1024). intros o Hm. Z.to_euclidean_division_equations. lia.
Qed.
