(* ===== verification/Args.v ===== *)
(** * System call arguments, and the process system calls

    The argument fetching of kernel/syscall.c (fetchaddr to argstr) and the
    handlers of kernel/sysproc.c.  The bytes a function stores in a buffer of
    its caller are part of its result. *)

From S2P Require Import Prelude Prog State Spinlock Printf Switch CStr Kalloc Vm Proc.

(** The current process, which must exist. *)
Definition curproc : M nat := p ← myproc; nonnull p.

(** ** The trap frame (proc.h) *)

Definition TF_kernel_satp : Z := 0.
Definition TF_kernel_sp : Z := 8.
Definition TF_kernel_trap : Z := 16.
Definition TF_kernel_hartid : Z := 32.
Definition TF_a1 : Z := 120.
Definition TF_a7 : Z := 168.

(** [p->trapframe->field] and its assignment *)
Definition get_tf (p : nat) (off : Z) : M Z := pr ← get_proc p; read64 (p_trapframe pr + off).
Definition set_tf (p : nat) (off v : Z) : M unit := pr ← get_proc p; write64 (p_trapframe pr + off) v.

(** ** syscall.c: arguments *)

Definition fetchaddr (addr : Z) : M (Z * Z) :=
  p ← curproc;
  pr ← get_proc p;
  if (p_sz pr <=? addr) || (p_sz pr <? u64 (addr + 8)) then mret (-1, 0) else
  '(r, bs) ← copyin (p_pagetable pr) addr 8;
  if negb (r =? 0) then mret (-1, 0) else mret (0, le_combine bs).

Definition fetchstr (addr : Z) (max : nat) : M (Z * list Z) :=
  p ← curproc;
  pr ← get_proc p;
  '(r, bs) ← copyinstr (p_pagetable pr) addr max;
  if r <? 0 then mret (-1, bs) else
  len ← the "strlen" (strlen bs);
  mret (len, bs).

Definition argraw (n : Z) : M Z :=
  p ← curproc;
  if (0 <=? n) && (n <=? 5) then get_tf p (TF_a0 + 8 * n) else panic "argraw".

Definition argint (n : Z) : M Z := v ← argraw n; mret (s32 v).
Definition argaddr (n : Z) : M Z := argraw n.

Definition argstr (n : Z) (max : nat) : M (Z * list Z) :=
  addr ← argaddr n;
  fetchstr addr max.

(** ** sysproc.c *)

Section sysproc.
Context `{!LinkSyms, !FileSys}.

Definition sys_exit : M Z :=
  n ← argint 0;
  exit n;;
  mret 0.

Definition sys_getpid : M Z :=
  p ← curproc;
  pr ← get_proc p;
  mret (p_pid pr).

Definition sys_forkprio : M Z :=
  prio ← argint 0;
  forkprio prio.

Definition sys_fork : M Z :=
  classe ← argint 0;
  fork classe.

Definition sys_wait : M Z :=
  p ← argaddr 0;
  wait p.

Definition sys_sbrk : M Z :=
  n ← argint 0;
  p ← curproc;
  pr ← get_proc p;
  let addr := p_sz pr in
  r ← growproc n;
  if r <? 0 then mret (-1) else mret addr.

Definition sys_sleep : M Z :=
  n ← argint 0;
  let n := if n <? 0 then 0 else n in
  acquire LTicks;;
  ticks0 ← getd ticks;
  wait_loop (
    t ← getd ticks;
    if u32 (t - ticks0) <? n then
      p ← curproc;
      k ← killed p;
      if z2b k then release LTicks;; mret (Some (-1)) else
      sleep CTicks LTicks;;
      mret None
    else
      release LTicks;;
      mret (Some 0)).

Definition sys_kill : M Z :=
  pid ← argint 0;
  kill pid.

Definition sys_uptime : M Z :=
  acquire LTicks;;
  xticks ← getd ticks;
  release LTicks;;
  mret xticks.
End sysproc.
