(* ===== verification/Exec.v ===== *)
(** * exec

    kernel/exec.c and the formats of kernel/elf.h.  [argv] is the array of the
    pages that hold the argument strings. *)

From S2P Require Import Prelude Prog State Spinlock Printf Switch CStr Kalloc Vm Proc Sleeplock Bio Log Fs Args.

Definition ELF_MAGIC : Z := 0x464C457F.
Definition ELF_PROG_LOAD : Z := 1.

Definition get_u16 (off : nat) (bs : list Z) : Z := le_combine (read_at off 2 bs).
Definition get_u64 (off : nat) (bs : list Z) : Z := le_combine (read_at off 8 bs).

(** The fields of the headers that exec uses. *)
Record elfhdr := { e_magic : Z; e_entry : Z; e_phoff : Z; e_phnum : Z }.
Definition sizeof_elfhdr : Z := 64.
Definition elfhdr_of (bs : list Z) : elfhdr :=
  {| e_magic := get_u32 0 bs; e_entry := get_u64 24 bs; e_phoff := get_u64 32 bs; e_phnum := get_u16 56 bs |}.

Record proghdr := { ph_type : Z; ph_flags : Z; ph_off : Z; ph_vaddr : Z; ph_filesz : Z; ph_memsz : Z }.
Definition sizeof_proghdr : Z := 56.
Definition proghdr_of (bs : list Z) : proghdr :=
  {| ph_type := get_u32 0 bs; ph_flags := get_u32 4 bs; ph_off := get_u64 8 bs; ph_vaddr := get_u64 16 bs;
     ph_filesz := get_u64 32 bs; ph_memsz := get_u64 40 bs |}.

Definition flags2perm (flags : Z) : Z :=
  let perm := if negb (Z.land flags 1 =? 0) then PTE_X else 0 in
  if negb (Z.land flags 2 =? 0) then Z.lor perm PTE_W else perm.

Section exec.
Context `{!Disk, !LinkSyms}.

(** One turn per page of the segment. *)
Fixpoint loadseg_loop (fuel : nat) (pagetable va : Z) (ip : nat) (offset sz i : Z) : M Z :=
  if negb (i <? sz) then mret 0 else
  match fuel with
  | O => fault "loadseg fuel"
  | S fuel =>
    pa ← walkaddr pagetable (u64 (va + i));
    if pa =? 0 then panic "loadseg: address should exist" else
    let n := if u32 (sz - i) <? PGSIZE then u32 (sz - i) else PGSIZE in
    '(r, bs) ← readi ip false pa (u32 (offset + i)) n;
    write_bytes pa bs;;
    if negb (u32 r =? n) then mret (-1) else
    loadseg_loop fuel pagetable va ip offset sz (u32 (i + PGSIZE))
  end.

Definition loadseg (pagetable va : Z) (ip : nat) (offset sz : Z) : M Z :=
  loadseg_loop (Z.to_nat (sz / PGSIZE) + 1) pagetable va ip offset sz 0.

(** The loop over the program headers: whether every segment was loaded, and
    [sz] when the loop was left. *)
Fixpoint load_segments (k : nat) (pagetable : Z) (ip : nat) (off sz : Z) : M (bool * Z) :=
  match k with
  | O => mret (true, sz)
  | S k =>
    '(r, bs) ← readi ip false 0 (u32 off) sizeof_proghdr;
    if negb (r =? sizeof_proghdr) then mret (false, sz) else
    let ph := proghdr_of bs in
    let off := s32 (off + sizeof_proghdr) in
    if negb (ph_type ph =? ELF_PROG_LOAD) then load_segments k pagetable ip off sz else
    if ph_memsz ph <? ph_filesz ph then mret (false, sz) else
    if u64 (ph_vaddr ph + ph_memsz ph) <? ph_vaddr ph then mret (false, sz) else
    if negb (ph_vaddr ph `mod` PGSIZE =? 0) then mret (false, sz) else
    sz1 ← uvmalloc pagetable sz (u64 (ph_vaddr ph + ph_memsz ph)) (flags2perm (ph_flags ph));
    if sz1 =? 0 then mret (false, sz) else
    r ← loadseg pagetable (ph_vaddr ph) ip (u32 (ph_off ph)) (u32 (ph_filesz ph));
    if r <? 0 then mret (false, sz1) else
    load_segments k pagetable ip off sz1
  end.

(** The string in the page [a]. *)
Definition arg_string (a : Z) : M (list Z) :=
  page ← get_page a;
  len ← the "strlen" (strlen page);
  mret (take (Z.to_nat len + 1) page).

(** The loop that pushes the argument strings: [argc], [sp] and [ustack] when
    it ends, [None] on [goto bad]. *)
Fixpoint push_args (k : nat) (pagetable : Z) (argv : list Z) (argc : nat) (sp stackbase : Z) (ustack : list Z)
  : M (option (nat * Z * list Z)) :=
  match k with
  | O => fault "argv"
  | S k =>
    a ← the "argv" (argv !! argc);
    if a =? 0 then mret (Some (argc, sp, ustack)) else
    if (MAXARG <=? argc)%nat then mret None else
    str ← arg_string a;
    let sp := u64 (sp - Z.of_nat (length str)) in
    let sp := u64 (sp - sp `mod` 16) in
    if sp <? stackbase then mret None else
    r ← copyout pagetable sp str;
    if r <? 0 then mret None else
    push_args k pagetable argv (S argc) sp stackbase (ustack ++ [sp])
  end.

(** The string after the last slash of a null-terminated path. *)
Fixpoint last_elem (last s : list Z) : list Z :=
  match s with
  | [] => last
  | c :: s => if c =? 0 then last else last_elem (if c =? chr "/" then s else last) s
  end.

(** The label [bad]. *)
Definition exec_bad (pagetable sz : Z) (ip : option nat) : M Z :=
  when (negb (pagetable =? 0)) (proc_freepagetable pagetable sz);;
  match ip with Some ip => iunlockput ip;; end_op | None => mret tt end;;
  mret (-1).

(** From the allocation of the stack on; the program is loaded. *)
Definition exec_image (path : list Z) (argv : list Z) (elf : elfhdr) (pagetable sz : Z) : M Z :=
  p ← curproc;
  pr ← get_proc p;
  let oldsz := p_sz pr in
  let sz := PGROUNDUP sz in
  sz1 ← uvmalloc pagetable sz (u64 (sz + (USERSTACK + 1) * PGSIZE)) PTE_W;
  if sz1 =? 0 then exec_bad pagetable sz None else
  let sz := sz1 in
  uvmclear pagetable (u64 (sz - (USERSTACK + 1) * PGSIZE));;
  let stackbase := u64 (sz - USERSTACK * PGSIZE) in
  r ← push_args (S MAXARG) pagetable argv 0 sz stackbase [];
  match r with
  | None => exec_bad pagetable sz None
  | Some (argc, sp, ustack) =>
    let ustack := ustack ++ [0] in
    let sp := u64 (sp - (Z.of_nat argc + 1) * 8) in
    let sp := u64 (sp - sp `mod` 16) in
    if sp <? stackbase then exec_bad pagetable sz None else
    r ← copyout pagetable sp (mjoin (le_split 8 <$> ustack));
    if r <? 0 then exec_bad pagetable sz None else
    set_tf p TF_a1 sp;;
    pr ← get_proc p;
    name ← the "safestrcpy" (safestrcpy (p_name pr) (last_elem path path) 16);
    upd_proc p (set_p_name name);;
    let oldpagetable := p_pagetable pr in
    upd_proc p (set_p_pagetable pagetable);;
    upd_proc p (set_p_sz sz);;
    set_tf p TF_epc (e_entry elf);;
    set_tf p TF_sp sp;;
    proc_freepagetable oldpagetable oldsz;;
    mret (Z.of_nat argc)
  end.

Definition exec (path : list Z) (argv : list Z) : M Z :=
  p ← curproc;
  begin_op;;
  ip ← namei path;
  match ip with
  | None => end_op;; mret (-1)
  | Some ip =>
    ilock (Some ip);;
    '(r, bs) ← readi ip false 0 0 sizeof_elfhdr;
    if negb (r =? sizeof_elfhdr) then exec_bad 0 0 (Some ip) else
    let elf := elfhdr_of bs in
    if negb (e_magic elf =? ELF_MAGIC) then exec_bad 0 0 (Some ip) else
    pagetable ← proc_pagetable p;
    if pagetable =? 0 then exec_bad 0 0 (Some ip) else
    '(ok, sz) ← load_segments (Z.to_nat (e_phnum elf)) pagetable ip (s32 (e_phoff elf)) 0;
    if negb ok then exec_bad pagetable sz (Some ip) else
    iunlockput ip;;
    end_op;;
    exec_image path argv elf pagetable sz
  end.
End exec.
