(* ===== verification/Sysfile.v ===== *)
(** * The file system calls

    kernel/sysfile.c. *)

From S2P Require Import Prelude Prog State Spinlock Printf Switch CStr Kalloc Vm Proc Sleeplock Bio Log Fs Console Pipe File Args Exec.

(** An array of [DIRSIZ] characters, and a string constant. *)
Definition name_buf : list Z := replicate (Z.to_nat DIRSIZ) 0.
Definition lit (s : string) : list Z := bytes_of s ++ [0].

Section sysfile.
Context `{!Disk, !LinkSyms, !StackBytes}.

(** The descriptor and the file; [None] is -1. *)
Definition argfd (n : Z) : M (option (nat * nat)) :=
  fd ← argint n;
  if (fd <? 0) || (Z.of_nat NOFILE <=? fd) then mret None else
  p ← curproc;
  pr ← get_proc p;
  f ← the "ofile" (p_ofile pr !! Z.to_nat fd);
  mret (match f with Some f => Some (Z.to_nat fd, f) | None => None end).

Definition set_ofile (p fd : nat) (f : option nat) : M unit :=
  upd_proc p (fun pr => set_p_ofile (<[fd := f]> (p_ofile pr)) pr).

Definition fdalloc (f : nat) : M (option nat) :=
  p ← curproc;
  for_find (seq 0 NOFILE) (fun fd =>
    pr ← get_proc p;
    o ← the "ofile" (p_ofile pr !! fd);
    match o with
    | Some _ => mret None
    | None => set_ofile p fd (Some f);; mret (Some fd)
    end).

Definition sys_dup : M Z :=
  r ← argfd 0;
  match r with
  | None => mret (-1)
  | Some (_, f) =>
    fd ← fdalloc f;
    match fd with
    | None => mret (-1)
    | Some fd => filedup f;; mret (Z.of_nat fd)
    end
  end.

Definition sys_read : M Z :=
  p ← argaddr 1;
  n ← argint 2;
  r ← argfd 0;
  match r with
  | None => mret (-1)
  | Some (_, f) => fileread f p n
  end.

Definition sys_write : M Z :=
  p ← argaddr 1;
  n ← argint 2;
  r ← argfd 0;
  match r with
  | None => mret (-1)
  | Some (_, f) => filewrite f p n
  end.

Definition sys_close : M Z :=
  r ← argfd 0;
  match r with
  | None => mret (-1)
  | Some (fd, f) =>
    p ← curproc;
    set_ofile p fd None;;
    fileclose f;;
    mret 0
  end.

Definition sys_fstat : M Z :=
  st ← argaddr 1;
  r ← argfd 0;
  match r with
  | None => mret (-1)
  | Some (_, f) => filestat f st
  end.

(** [ip->nlink += n; iupdate(ip);] *)
Definition add_nlink (ip : nat) (n : Z) : M unit :=
  upd_inode ip (fun x => set_i_nlink (s16 (i_nlink x + n)) x);;
  iupdate ip.

(** [end_op(); return -1;] after unlocking and releasing an inode *)
Definition fail_put (ip : nat) : M Z := iunlockput ip;; end_op;; mret (-1).

(** The label [bad] of sys_link. *)
Definition link_bad (ip : nat) : M Z :=
  ilock (Some ip);;
  add_nlink ip (-1);;
  fail_put ip.

Definition sys_link : M Z :=
  '(r, old) ← argstr 0 (Z.to_nat MAXPATH);
  if r <? 0 then mret (-1) else
  '(r, new) ← argstr 1 (Z.to_nat MAXPATH);
  if r <? 0 then mret (-1) else
  begin_op;;
  ip ← namei old;
  match ip with
  | None => end_op;; mret (-1)
  | Some ip =>
    ilock (Some ip);;
    x ← get_inode ip;
    if i_type x =? T_DIR then fail_put ip else
    add_nlink ip 1;;
    iunlock (Some ip);;
    dp ← nameiparent new name_buf;
    match dp with
    | None => link_bad ip
    | Some (dp, name) =>
      ilock (Some dp);;
      y ← get_inode dp;
      x ← get_inode ip;
      bad ← (if negb (i_dev y =? i_dev x) then mret true
             else r ← dirlink dp name (i_inum x); mret (r <? 0));
      if (bad : bool) then iunlockput dp;; link_bad ip else
      iunlockput dp;;
      iput ip;;
      end_op;;
      mret 0
    end
  end.

(** Is there no entry in use after the first two? *)
Definition isdirempty (dp : nat) : M bool :=
  x ← get_inode dp;
  r ← for_find (drop 2 (steps sizeof_dirent (i_size x))) (fun off =>
    de ← read_dirent dp off "isdirempty: readi";
    mret (if de_inum de =? 0 then None else Some tt));
  mret (match r with Some _ => false | None => true end).

(** sys_unlink with [dp] and [ip] locked and the entry at [off] to be removed. *)
Definition unlink_entry (dp ip : nat) (off : Z) : M Z :=
  r ← writei dp (inr (replicate (Z.to_nat sizeof_dirent) 0)) off sizeof_dirent;
  if negb (r =? sizeof_dirent) then panic "unlink: writei" else
  x ← get_inode ip;
  when (i_type x =? T_DIR) (add_nlink dp (-1));;
  iunlockput dp;;
  add_nlink ip (-1);;
  iunlockput ip;;
  end_op;;
  mret 0.

Definition sys_unlink : M Z :=
  '(r, path) ← argstr 0 (Z.to_nat MAXPATH);
  if r <? 0 then mret (-1) else
  begin_op;;
  dp ← nameiparent path name_buf;
  match dp with
  | None => end_op;; mret (-1)
  | Some (dp, name) =>
    ilock (Some dp);;
    c ← namecmp name (lit ".");
    if c =? 0 then fail_put dp else
    c ← namecmp name (lit "..");
    if c =? 0 then fail_put dp else
    r ← dirlookup dp name;
    match r with
    | None => fail_put dp
    | Some (ip, off) =>
      ilock (Some ip);;
      x ← get_inode ip;
      if i_nlink x <? 1 then panic "unlink: nlink < 1" else
      full ← (if i_type x =? T_DIR then e ← isdirempty ip; mret (negb e) else mret false);
      if (full : bool) then iunlockput ip;; fail_put dp else
      unlink_entry dp ip off
    end
  end.

(** The label [fail] of create. *)
Definition create_fail (dp ip : nat) : M (option nat) :=
  upd_inode ip (set_i_nlink 0);;
  iupdate ip;;
  iunlockput ip;;
  iunlockput dp;;
  mret None.

(** The entries "." and ".." of a new directory; [true] on failure. *)
Definition link_dots (dp ip : nat) : M bool :=
  x ← get_inode ip;
  r ← dirlink ip (lit ".") (i_inum x);
  if r <? 0 then mret true else
  y ← get_inode dp;
  r ← dirlink ip (lit "..") (i_inum y);
  mret (r <? 0).

Definition create (path : list Z) (type major minor : Z) : M (option nat) :=
  dp ← nameiparent path name_buf;
  match dp with
  | None => mret None
  | Some (dp, name) =>
    ilock (Some dp);;
    r ← dirlookup dp name;
    match r with
    | Some (ip, _) =>
      iunlockput dp;;
      ilock (Some ip);;
      x ← get_inode ip;
      if (type =? T_FILE) && ((i_type x =? T_FILE) || (i_type x =? T_DEVICE)) then mret (Some ip) else
      iunlockput ip;;
      mret None
    | None =>
      y ← get_inode dp;
      ip ← ialloc (i_dev y) type;
      match ip with
      | None => iunlockput dp;; mret None
      | Some ip =>
        ilock (Some ip);;
        upd_inode ip (set_i_major major);;
        upd_inode ip (set_i_minor minor);;
        upd_inode ip (set_i_nlink 1);;
        iupdate ip;;
        bad ← (if type =? T_DIR then link_dots dp ip else mret false);
        if (bad : bool) then create_fail dp ip else
        x ← get_inode ip;
        r ← dirlink dp name (i_inum x);
        if r <? 0 then create_fail dp ip else
        when (type =? T_DIR) (add_nlink dp 1);;
        iunlockput dp;;
        mret (Some ip)
      end
    end
  end.

(** The inode sys_open opens, locked; [None] when it has failed. *)
Definition open_inode (path : list Z) (omode : Z) : M (option nat) :=
  if negb (Z.land omode O_CREATE =? 0) then
    ip ← create path T_FILE 0 0;
    match ip with
    | None => end_op;; mret None
    | Some ip => mret (Some ip)
    end
  else
    ip ← namei path;
    match ip with
    | None => end_op;; mret None
    | Some ip =>
      ilock (Some ip);;
      x ← get_inode ip;
      if (i_type x =? T_DIR) && negb (omode =? O_RDONLY) then fail_put ip;; mret None
      else mret (Some ip)
    end.

(** The fields of the new [struct file]. *)
Definition open_file (f ip : nat) (omode : Z) : M unit :=
  x ← get_inode ip;
  (if i_type x =? T_DEVICE then
     upd_file f (set_f_type FD_DEVICE);; upd_file f (set_f_major (i_major x))
   else
     upd_file f (set_f_type FD_INODE);; upd_file f (set_f_off 0));;
  upd_file f (set_f_ip (Some ip));;
  upd_file f (set_f_readable (b2z (Z.land omode O_WRONLY =? 0)));;
  upd_file f (set_f_writable (b2z (negb (Z.land omode O_WRONLY =? 0) || negb (Z.land omode O_RDWR =? 0)))).

Definition sys_open : M Z :=
  omode ← argint 1;
  '(n, path) ← argstr 0 (Z.to_nat MAXPATH);
  if n <? 0 then mret (-1) else
  begin_op;;
  ip ← open_inode path omode;
  match ip with
  | None => mret (-1)
  | Some ip =>
    x ← get_inode ip;
    if (i_type x =? T_DEVICE) && ((i_major x <? 0) || (NDEV <=? i_major x)) then fail_put ip else
    f ← filealloc;
    match f with
    | None => fail_put ip
    | Some f =>
      fd ← fdalloc f;
      match fd with
      | None => fileclose f;; fail_put ip
      | Some fd =>
        open_file f ip omode;;
        x ← get_inode ip;
        when (negb (Z.land omode O_TRUNC =? 0) && (i_type x =? T_FILE)) (itrunc ip);;
        iunlock (Some ip);;
        end_op;;
        mret (Z.of_nat fd)
      end
    end
  end.

Definition sys_mkdir : M Z :=
  begin_op;;
  '(r, path) ← argstr 0 (Z.to_nat MAXPATH);
  ip ← (if r <? 0 then mret None else create path T_DIR 0 0);
  match ip with
  | None => end_op;; mret (-1)
  | Some ip => iunlockput ip;; end_op;; mret 0
  end.

Definition sys_mknod : M Z :=
  begin_op;;
  major ← argint 1;
  minor ← argint 2;
  '(r, path) ← argstr 0 (Z.to_nat MAXPATH);
  ip ← (if r <? 0 then mret None else create path T_DEVICE (s16 major) (s16 minor));
  match ip with
  | None => end_op;; mret (-1)
  | Some ip => iunlockput ip;; end_op;; mret 0
  end.

Definition sys_chdir : M Z :=
  p ← curproc;
  begin_op;;
  '(r, path) ← argstr 0 (Z.to_nat MAXPATH);
  ip ← (if r <? 0 then mret None else namei path);
  match ip with
  | None => end_op;; mret (-1)
  | Some ip =>
    ilock (Some ip);;
    x ← get_inode ip;
    if negb (i_type x =? T_DIR) then fail_put ip else
    iunlock (Some ip);;
    pr ← get_proc p;
    cwd ← nonnull (p_cwd pr);
    iput cwd;;
    end_op;;
    upd_proc p (set_p_cwd (Some ip));;
    mret 0
  end.

(** The loop of sys_exec that fetches the arguments: whether it ended with a
    null pointer (and not with [goto bad]), and the pages in [argv]. *)
Fixpoint fetch_args (k : nat) (uargv i : Z) (argv : list Z) : M (bool * list Z) :=
  match k with
  | O => mret (false, argv)
  | S k =>
    '(r, uarg) ← fetchaddr (u64 (uargv + 8 * i));
    if r <? 0 then mret (false, argv) else
    if uarg =? 0 then mret (true, argv) else
    pa ← kalloc;
    if pa =? 0 then mret (false, argv) else
    '(r, bs) ← fetchstr uarg (Z.to_nat PGSIZE);
    write_bytes pa bs;;
    if r <? 0 then mret (false, argv ++ [pa]) else
    fetch_args k uargv (i + 1) (argv ++ [pa])
  end.

Definition sys_exec : M Z :=
  uargv ← argaddr 1;
  '(r, path) ← argstr 0 (Z.to_nat MAXPATH);
  if r <? 0 then mret (-1) else
  '(ok, pages) ← fetch_args MAXARG uargv 0 [];
  if negb ok then for_each pages kfree;; mret (-1) else
  ret ← exec path (pages ++ replicate (MAXARG - length pages) 0);
  for_each pages kfree;;
  mret ret.

Definition sys_pipe : M Z :=
  p ← curproc;
  fdarray ← argaddr 0;
  r ← pipealloc;
  match r with
  | None => mret (-1)
  | Some (rf, wf) =>
    let fail := fileclose rf;; fileclose wf;; mret (-1) in
    fd0 ← fdalloc rf;
    match fd0 with
    | None => fail
    | Some fd0 =>
      fd1 ← fdalloc wf;
      match fd1 with
      | None => set_ofile p fd0 None;; fail
      | Some fd1 =>
        pr ← get_proc p;
        r ← copyout (p_pagetable pr) fdarray (le_split 4 (Z.of_nat fd0));
        r ← (if r <? 0 then mret r
             else copyout (p_pagetable pr) (u64 (fdarray + 4)) (le_split 4 (Z.of_nat fd1)));
        if r <? 0 then
          set_ofile p fd0 None;;
          set_ofile p fd1 None;;
          fail
        else mret 0
      end
    end
  end.
End sysfile.
