(* ===== verification/Syscall.v ===== *)
(** * System call dispatch

    The table and the function syscall of kernel/syscall.c. *)

From S2P Require Import Prelude Prog State Spinlock Printf Switch CStr Kalloc Vm Proc Sleeplock Bio Log Fs Console Pipe File Args Exec Sysfile.

Section syscall.
Context `{!Disk, !LinkSyms, !StackBytes, !FileSys}.

(** The array, indexed by the numbers of syscall.h. *)
Definition syscalls : list (option (M Z)) :=
  [None;
   Some sys_fork; Some sys_exit; Some sys_wait; Some sys_pipe; Some sys_read; Some sys_kill; Some sys_exec;
   Some sys_fstat; Some sys_chdir; Some sys_dup; Some sys_getpid; Some sys_sbrk; Some sys_sleep; Some sys_uptime;
   Some sys_open; Some sys_write; Some sys_mknod; Some sys_unlink; Some sys_link; Some sys_mkdir; Some sys_close;
   Some sys_forkprio].

(** The handler of a number, if there is one. *)
Definition handler (num : Z) : option (M Z) :=
  if (0 <? num) && (num <? Z.of_nat (length syscalls)) then mjoin (zlookup syscalls num) else None.

Definition syscall : M unit :=
  p ← curproc;
  a7 ← get_tf p TF_a7;
  let num := s32 a7 in
  match handler num with
  | Some h =>
    r ← h;
    set_tf p TF_a0 (u64 r)
  | None =>
    pr ← get_proc p;
    printf "%d %s: unknown sys call %d
" [AInt (p_pid pr); AStr (Some (p_name pr)); AInt num];;
    set_tf p TF_a0 (u64 (-1))
  end.
End syscall.
