(* ===== verification/Trap.v ===== *)
(** * Traps

    kernel/trap.c and kernel/plic.c.  The registers of the interrupt
    controller are [plic_regs]; the jump to userret in trampoline.S, with the
    page table to switch to, ends usertrapret. *)

From S2P Require Import Prelude Prog State Spinlock Riscv Printf Switch CStr Kalloc Vm Proc Sleeplock Virtio Bio Log Fs Console Pipe File Args Exec Sysfile Syscall.

(** ** plic.c *)

Definition PLIC_SENABLE (hart : Z) : Z := PLIC + 0x2080 + hart * 0x100.
Definition PLIC_SPRIORITY (hart : Z) : Z := PLIC + 0x201000 + hart * 0x2000.
Definition PLIC_SCLAIM (hart : Z) : Z := PLIC + 0x201004 + hart * 0x2000.

Definition plic_read (a : Z) : M Z := m ← getd plic_regs; mret (default 0 (m !! a)).
Definition plic_write (a v : Z) : M unit := modd (fun d => set_plic_regs (<[a := u32 v]> (plic_regs d)) d).

Definition plicinit : M unit :=
  plic_write (PLIC + UART0_IRQ * 4) 1;;
  plic_write (PLIC + VIRTIO0_IRQ * 4) 1.

Definition plicinithart : M unit :=
  hart ← cpuid;
  plic_write (PLIC_SENABLE (Z.of_nat hart)) (Z.lor (Z.shiftl 1 UART0_IRQ) (Z.shiftl 1 VIRTIO0_IRQ));;
  plic_write (PLIC_SPRIORITY (Z.of_nat hart)) 0.

Definition plic_claim : M Z :=
  hart ← cpuid;
  irq ← plic_read (PLIC_SCLAIM (Z.of_nat hart));
  mret (s32 irq).

Definition plic_complete (irq : Z) : M unit :=
  hart ← cpuid;
  plic_write (PLIC_SCLAIM (Z.of_nat hart)) irq.

(** ** trap.c *)

Section trap.
Context `{!Disk, !LinkSyms, !StackBytes}.

Definition trapinit : M unit := initlock LTicks "time".
Definition trapinithart : M unit := w_stvec sym_kernelvec.

(** [satp], with which trampoline_userret is entered *)
Definition usertrapret_satp : M Z :=
  p ← curproc;
  intr_off;;
  w_stvec (u64 (TRAMPOLINE + (sym_uservec - sym_trampoline)));;
  satp ← read_satp;
  set_tf p TF_kernel_satp satp;;
  pr ← get_proc p;
  set_tf p TF_kernel_sp (u64 (p_kstack pr + PGSIZE));;
  set_tf p TF_kernel_trap sym_usertrap;;
  hart ← r_tp;
  set_tf p TF_kernel_hartid hart;;
  x ← read_sstatus;
  let x := Z.land x (Z.lnot SSTATUS_SPP) in
  let x := Z.lor x SSTATUS_SPIE in
  w_sstatus x;;
  epc ← get_tf p TF_epc;
  w_sepc epc;;
  pr ← get_proc p;
  mret (MAKE_SATP (p_pagetable pr)).

Definition usertrapret : M unit := _ ← usertrapret_satp; mret tt.

Definition clockintr : M unit :=
  c ← cpuid;
  when (c =? 0)%nat (
    acquire LTicks;;
    modd (fun d => set_ticks (u32 (ticks d + 1)) d);;
    wakeup CTicks;;
    release LTicks);;
  t ← read_time;
  w_stimecmp (u64 (t + 1000000)).

Section handlers.
Context `{!FileSys}.

Definition devintr : M Z :=
  scause ← read_scause;
  if scause =? 0x8000000000000009 then
    irq ← plic_claim;
    (if irq =? UART0_IRQ then uartintr
     else if irq =? VIRTIO0_IRQ then virtio_disk_intr
     else when (z2b irq) (printf "unexpected interrupt irq=%d
" [AInt irq];; mret tt));;
    when (z2b irq) (plic_complete irq);;
    mret 1
  else if scause =? 0x8000000000000005 then
    clockintr;;
    mret 2
  else mret 0.

(** The message for a trap that is neither a system call nor a device's. *)
Definition unexpected_trap (p : nat) : M unit :=
  scause ← read_scause;
  pr ← get_proc p;
  printf "usertrap(): unexpected scause 0x%lx pid=%d
" [AU64 scause; AInt (p_pid pr)];;
  sepc ← read_sepc;
  stval ← read_stval;
  printf "            sepc=0x%lx stval=0x%lx
" [AU64 sepc; AU64 stval];;
  setkilled p.

(** [if(killed(p)) exit(-1);] *)
Definition exit_if_killed (p : nat) : M unit :=
  k ← killed p;
  when (z2b k) (exit (-1)).

Definition usertrap : M unit :=
  sstatus ← read_sstatus;
  if negb (Z.land sstatus SSTATUS_SPP =? 0) then panic "usertrap: not from user mode" else
  w_stvec sym_kernelvec;;
  p ← curproc;
  sepc ← read_sepc;
  set_tf p TF_epc sepc;;
  scause ← read_scause;
  which_dev ← (if scause =? 8 then
                 exit_if_killed p;;
                 epc ← get_tf p TF_epc;
                 set_tf p TF_epc (u64 (epc + 4));;
                 intr_on;;
                 syscall;;
                 mret 0
               else
                 which_dev ← devintr;
                 when (which_dev =? 0) (unexpected_trap p);;
                 mret which_dev);
  exit_if_killed p;;
  when (which_dev =? 2) yield;;
  usertrapret.

Definition kerneltrap : M unit :=
  sepc ← read_sepc;
  sstatus ← read_sstatus;
  scause ← read_scause;
  if Z.land sstatus SSTATUS_SPP =? 0 then panic "kerneltrap: not from supervisor mode" else
  i ← intr_get;
  if negb (i =? 0) then panic "kerneltrap: interrupts enabled" else
  which_dev ← devintr;
  if which_dev =? 0 then
    sepc ← read_sepc;
    stval ← read_stval;
    printf "scause=0x%lx sepc=0x%lx stval=0x%lx
" [AU64 scause; AU64 sepc; AU64 stval];;
    panic "kerneltrap"
  else
    resched ← (if which_dev =? 2 then p ← myproc; mret (bool_decide (p ≠ None)) else mret false);
    when resched yield;;
    w_sepc sepc;;
    w_sstatus sstatus.
End handlers.
End trap.
