(* ===== verification/Main.v ===== *)
(** * The boot, and the kernel put together

    kernel/start.c and kernel/main.c, and the instances that close the
    interfaces [Disk] and [FileSys]: the disk is the virtio driver, and what
    processes use of the file system is the file system. *)

From S2P Require Import Prelude Prog State Spinlock Riscv Printf Switch Dispatch Rand Loteria Stride CStr Kalloc Vm Proc Sleeplock Virtio Bio Log Fs Console Pipe File Args Exec Sysfile Syscall Trap.

(** ** The interfaces *)

#[export] Instance virtio : Disk := {| disk_rw := virtio_disk_rw |}.

Section main.
Context `{!LinkSyms, !StackBytes}.

#[export] Instance kernel_fs : FileSys :=
  {| Proc.filedup := File.filedup; Proc.idup := Fs.idup; Proc.fileclose := File.fileclose;
     Proc.begin_op := Log.begin_op; Proc.end_op := Log.end_op; Proc.iput := Fs.iput;
     Proc.namei s := Fs.namei (lit s); Proc.fsinit := Fs.fsinit; Proc.usertrapret := Trap.usertrapret |}.

(** ** start.c *)

Definition timerinit : M unit :=
  mie ← read_mie;
  w_mie (Z.lor mie MIE_STIE);;
  e ← read_menvcfg;
  w_menvcfg (Z.lor e (Z.shiftl 1 63));;
  c ← read_mcounteren;
  w_mcounteren (Z.lor c 2);;
  t ← read_time;
  w_stimecmp (u64 (t + 1000000)).

(** Up to the mret, which enters main in supervisor mode. *)
Definition start : M unit :=
  x ← read_mstatus;
  let x := Z.land x (Z.lnot MSTATUS_MPP_MASK) in
  let x := Z.lor x MSTATUS_MPP_S in
  w_mstatus x;;
  w_mepc sym_main;;
  w_satp 0;;
  w_medeleg 0xffff;;
  w_mideleg 0xffff;;
  sie ← read_sie;
  w_sie (Z.lor (Z.lor (Z.lor sie SIE_SEIE) SIE_STIE) SIE_SSIE);;
  w_pmpaddr0 0x3fffffffffffff;;
  w_pmpcfg0 0xf;;
  timerinit;;
  id ← read_mhartid;
  w_tp id.

(** ** main.c *)

Definition main_boot : M unit :=
  consoleinit;;
  printfinit;;
  printf "
" [];;
  printf "xv6 kernel is booting
" [];;
  printf "
" [];;
  kinit;;
  kvminit;;
  kvminithart;;
  procinit;;
  trapinit;;
  trapinithart;;
  plicinit;;
  plicinithart;;
  binit;;
  iinit;;
  fileinit;;
  virtio_disk_init;;
  userinit;;
  modd (set_started 1).

Definition main_other : M unit :=
  poll (fun s => negb (started (kd s) =? 0));;
  c ← cpuid;
  printf "hart %d starting
" [AInt (Z.of_nat c)];;
  kvminithart;;
  trapinithart;;
  plicinithart.

(** main, with the first [n] rounds of the scheduler it ends in *)
Definition main (n : nat) : M unit :=
  c ← cpuid;
  (if (c =? 0)%nat then main_boot else main_other);;
  scheduler n.
End main.
