(* ===== verification/ConsoleSpec.v ===== *)
(** * The console's line discipline

    An abstract line editor, [line] with [key] and [reads], and the refinement:
    the ring of kernel/console.c holds a line, the interrupt handlers uartintr
    and consoleintr edit it, and consoleread takes lines from it. *)

From S2P Require Import Prelude Prog State Spinlock Printf Switch Dispatch CStr Kalloc Vm PageTable UserMem Proc Sleeplock Sleep Console Main.

Implicit Types (s t : kstate) (d : kdata) (c : Z).

(** ** The line editor *)

(** What can be read, and what is still being typed *)
Record line := { ready : list Z; edit : list Z }.

Definition typed_of (l : line) : list Z := ready l ++ edit l.

Definition CAPACITY : nat := 128.

Definition erases c : bool := (c =? ctrl "H") || (c =? 0x7f).
Definition as_typed c : Z := if c =? 13 then NEWLINE else c.
Definition accepted c (l : line) : bool := negb (c =? 0) && (length (typed_of l) <? CAPACITY)%nat.

(** The character ends the line, or fills the buffer. *)
Definition commits c (l : line) : bool :=
  (as_typed c =? NEWLINE) || (as_typed c =? ctrl "D") || (S (length (typed_of l)) =? CAPACITY)%nat.

Definition key c (l : line) : line :=
  if c =? ctrl "U" then {| ready := ready l; edit := [] |}
  else if erases c then {| ready := ready l; edit := removelast (edit l) |}
  else if accepted c l then
    if commits c l then {| ready := typed_of l ++ [as_typed c]; edit := [] |}
    else {| ready := ready l; edit := edit l ++ [as_typed c] |}
  else l.

(** What appears on the screen *)
Definition rubout : list Z := [8; 32; 8].

Definition echo c (l : line) : list Z :=
  if c =? ctrl "U" then concat (replicate (length (edit l)) rubout)
  else if erases c then (if decide (edit l = []) then [] else rubout)
  else if accepted c l then [as_typed c] else [].

Definition keys (cs : list Z) (l : line) : line := foldl (fun l c => key c l) l cs.

Fixpoint echoes (cs : list Z) (l : line) : list Z :=
  match cs with
  | [] => []
  | c :: cs => echo c l ++ echoes cs (key c l)
  end.

(** A key other than the one that lists the processes *)
Definition is_key c : Prop := 0 <= c < 256 /\ c <> ctrl "P".

(** Whether a key makes something readable *)
Definition makes c (l : line) : bool :=
  negb (c =? ctrl "U") && negb (erases c) && accepted c l && commits c l.

Fixpoint made (cs : list Z) (l : line) : bool :=
  match cs with
  | [] => false
  | c :: cs => makes c l || made cs (key c l)
  end.

(** *** Facts of the editor *)

Lemma key_ready c l : ready (key c l) = if makes c l then typed_of l ++ [as_typed c] else ready l.
Proof. unfold key, makes. destruct (c =? ctrl "U"), (erases c), (accepted c l), (commits c l); done. Qed.

Lemma keys_cons c cs l : keys (c :: cs) l = keys cs (key c l).
Proof. done. Qed.

Lemma made_ready cs : forall l, made cs l = true -> ready (keys cs l) <> [].
Proof.
  assert (forall cs l, ready l <> [] -> ready (keys cs l) <> []) as Hk.
  { intros ks. induction ks as [|c ks IH]; intros l H; [done|]. rewrite keys_cons. apply IH. rewrite key_ready. destruct (makes c l); [|done].
    intros E. apply app_eq_nil in E as [_ E]. done. }
  induction cs as [|c cs IH]; intros l; [done|]. cbn [made]. rewrite keys_cons. destruct (makes c l) eqn:E; [|by apply IH].
  intros _. apply Hk. rewrite key_ready, E. intros F. apply app_eq_nil in F as [_ F]. done.
Qed.

Lemma not_made cs : forall l, made cs l = false -> ready (keys cs l) = ready l.
Proof.
  induction cs as [|c cs IH]; intros l; [done|]. cbn [made]. intros [E H]%orb_false_iff. by rewrite keys_cons, (IH _ H), key_ready, E.
Qed.

(** ** The ring holds a line *)

Definition slot (i : Z) : nat := Z.to_nat (i `mod` INPUT_BUF_SIZE).

Record holds (cs : console) (l : line) : Prop := {
  hl_size : length (cons_buf cs) = CAPACITY;
  hl_r : 0 <= cons_r cs < 2 ^ 32;
  hl_w : cons_w cs = u32 (cons_r cs + Z.of_nat (length (ready l)));
  hl_e : cons_e cs = u32 (cons_r cs + Z.of_nat (length (typed_of l)));
  hl_fit : (length (typed_of l) <= CAPACITY)%nat;
  hl_bytes i x : typed_of l !! i = Some x -> cons_buf cs !! slot (cons_r cs + Z.of_nat i) = Some x;
  hl_edit : NEWLINE ∉ edit l
}.

Lemma slot_u32 i : slot (u32 i) = slot i.
Proof.
  unfold slot, wrap_u, INPUT_BUF_SIZE. f_equal.
  apply Z.mod_mod_divide. by exists 33554432.
Qed.

Lemma slot_range i : (slot i < CAPACITY)%nat.
Proof. unfold slot, CAPACITY, INPUT_BUF_SIZE. pose proof (Z.mod_pos_bound i 128). lia. Qed.

Lemma slot_inj r (i j : nat) : (i < CAPACITY)%nat -> (j < CAPACITY)%nat ->
  slot (r + Z.of_nat i) = slot (r + Z.of_nat j) -> i = j.
Proof.
  unfold slot, CAPACITY, INPUT_BUF_SIZE. intros Hi Hj E.
  pose proof (Z.mod_pos_bound (r + Z.of_nat i) 128). pose proof (Z.mod_pos_bound (r + Z.of_nat j) 128).
  assert ((r + Z.of_nat i) `mod` 128 = (r + Z.of_nat j) `mod` 128) as F by lia. clear E.
  Z.to_euclidean_division_equations. lia.
Qed.

Lemma u32_diff r a b : 0 <= a - b < 2 ^ 32 -> u32 (u32 (r + a) - u32 (r + b)) = a - b.
Proof.
  intros H. unfold wrap_u. rewrite <- Zminus_mod. replace (r + a - (r + b)) with (a - b) by lia. by apply Z.mod_small.
Qed.

Lemma u32_idem r a : u32 (u32 r + a) = u32 (r + a).
Proof. unfold wrap_u. by rewrite Zplus_mod_idemp_l. Qed.

(** *** Changes of the ring *)

Section ring.
Context (cs : console) (l : line) (H : holds cs l).

Lemma hl_ready_le : (length (ready l) <= length (typed_of l))%nat.
Proof using. unfold typed_of. rewrite length_app. lia. Qed.

Lemma edit_count : u32 (cons_e cs - cons_w cs) = Z.of_nat (length (edit l)).
Proof using H.
  pose proof (hl_fit cs l H) as Hf. rewrite (hl_e cs l H), (hl_w cs l H).
  unfold typed_of, CAPACITY in *. rewrite length_app in *. rewrite u32_diff; lia.
Qed.

Lemma total_count : u32 (cons_e cs - cons_r cs) = Z.of_nat (length (typed_of l)).
Proof using H.
  pose proof (hl_fit cs l H) as Hf. pose proof (hl_r cs l H) as Hr. rewrite (hl_e cs l H).
  unfold CAPACITY in Hf. replace (cons_r cs) with (u32 (cons_r cs + 0)) at 2 by (rewrite Z.add_0_r; by apply wrap_u_small).
  rewrite u32_diff; lia.
Qed.

Lemma same_u32 (a b : nat) : (a <= CAPACITY)%nat -> (b <= CAPACITY)%nat ->
  (u32 (cons_r cs + Z.of_nat a) =? u32 (cons_r cs + Z.of_nat b)) = (a =? b)%nat.
Proof using.
  unfold CAPACITY. intros Ha Hb. destruct (Nat.eqb_spec a b) as [->|Hne]; [apply Z.eqb_refl|]. apply Z.eqb_neq. intros E.
  unfold wrap_u in E. Z.to_euclidean_division_equations. lia.
Qed.

Lemma edit_empty : (cons_e cs =? cons_w cs) = bool_decide (edit l = []).
Proof using H.
  pose proof hl_ready_le. rewrite (hl_e cs l H), (hl_w cs l H), same_u32 by (pose proof (hl_fit cs l H); lia).
  unfold typed_of. rewrite length_app. destruct (edit l); cbn; [apply Nat.eqb_eq; lia|]. apply Nat.eqb_neq. lia.
Qed.

Lemma ready_empty : (cons_r cs =? cons_w cs) = bool_decide (ready l = []).
Proof using H.
  pose proof hl_ready_le. pose proof (hl_r cs l H). rewrite (hl_w cs l H).
  replace (cons_r cs) with (u32 (cons_r cs + Z.of_nat 0)) at 1 by (rewrite Z.add_0_r; by apply wrap_u_small).
  rewrite same_u32 by (pose proof (hl_fit cs l H); unfold CAPACITY in *; lia). by destruct (ready l).
Qed.

(** The character at the end of the line being typed *)
Lemma last_char x es : edit l = es ++ [x] -> cons_buf cs !! slot (u32 (cons_e cs - 1)) = Some x.
Proof using H.
  intros E. rewrite slot_u32. assert (typed_of l = (ready l ++ es) ++ [x]) as T by (unfold typed_of; by rewrite E, app_assoc).
  pose proof (hl_bytes cs l H (length (ready l ++ es)) x) as Hb. rewrite T, lookup_app_r, Nat.sub_diag in Hb by done.
  rewrite <- (Hb eq_refl). f_equal. rewrite (hl_e cs l H), T, length_app. cbn [length]. rewrite <- (slot_u32 (_ - 1)).
  unfold Z.sub. rewrite u32_idem, slot_u32. f_equal. lia.
Qed.

Lemma erase_holds x es : edit l = es ++ [x] ->
  holds (set_cons_e (u32 (cons_e cs - 1)) cs) {| ready := ready l; edit := es |}.
Proof using H.
  intros E. assert (typed_of l = (ready l ++ es) ++ [x]) as T by (unfold typed_of; by rewrite E, app_assoc).
  destruct H as [A B C D F G I]. rewrite T in D, F, G. rewrite length_app in D, F. cbn [length] in D, F.
  split; cbn [set_cons_e cons_buf cons_r cons_w cons_e ready edit]; try done; unfold typed_of in *; cbn [ready edit] in *.
  - rewrite D. unfold Z.sub. rewrite u32_idem. f_equal. lia.
  - lia.
  - intros i y Hi. apply G. by apply lookup_app_l_Some.
  - rewrite E in I. set_solver.
Qed.

(** A character is put at the end, and makes part of what can be read or not. *)
Lemma put_holds x (commit : bool) : (length (typed_of l) < CAPACITY)%nat -> (commit = false -> x <> NEWLINE) ->
  let cs1 := set_cons_e (u32 (cons_e cs + 1)) (set_cons_buf (<[slot (cons_e cs) := x]> (cons_buf cs)) cs) in
  holds (if commit then set_cons_w (cons_e cs1) cs1 else cs1)
    (if commit then {| ready := typed_of l ++ [x]; edit := [] |} else {| ready := ready l; edit := edit l ++ [x] |}).
Proof using H.
  intros Hn Hx cs1. destruct H as [A B C D F G I].
  assert (cons_e cs1 = u32 (cons_r cs + Z.of_nat (length (typed_of l ++ [x])))) as E1.
  { cbn. rewrite D, u32_idem, length_app. f_equal. cbn [length]. lia. }
  assert (forall i y, (typed_of l ++ [x]) !! i = Some y -> cons_buf cs1 !! slot (cons_r cs1 + Z.of_nat i) = Some y) as Hb.
  { intros i y Hi. cbn [cs1 set_cons_e set_cons_buf cons_buf cons_r]. rewrite D, slot_u32.
    apply lookup_snoc_Some in Hi as [[Hi Hy]|[-> ->]].
    - rewrite list_lookup_insert_ne; [by apply G|]. intros E. apply slot_inj in E; lia.
    - apply list_lookup_insert_eq. rewrite A. apply slot_range. }
  destruct commit; split; cbn [cs1 set_cons_w set_cons_e set_cons_buf cons_buf cons_r cons_w cons_e ready edit];
    unfold typed_of in *; cbn [ready edit] in *; rewrite ?app_nil_r, ?app_assoc; try done.
  - by rewrite length_insert.
  - rewrite length_app. cbn [length]. lia.
  - set_solver.
  - by rewrite length_insert.
  - rewrite length_app. cbn [length]. lia.
  - rewrite not_elem_of_app. split; [done|]. apply not_elem_of_cons. split; [apply not_eq_sym; by apply Hx|]. by apply not_elem_of_nil.
Qed.

(** The first character is taken. *)
Lemma take_holds x rs : ready l = x :: rs ->
  cons_buf cs !! slot (cons_r cs) = Some x /\ holds (set_cons_r (u32 (cons_r cs + 1)) cs) {| ready := rs; edit := edit l |}.
Proof using H.
  intros E. destruct H as [A B C D F G I]. unfold typed_of in *. rewrite E in *. cbn [app length] in *. split.
  - rewrite <- (Z.add_0_r (cons_r cs)). by apply (G 0%nat).
  - split; cbn [set_cons_r cons_buf cons_r cons_w cons_e ready edit]; unfold typed_of; cbn [ready edit]; try done.
    + apply wrap_u_range. lia.
    + rewrite C, u32_idem. f_equal. lia.
    + rewrite D, u32_idem. f_equal. lia.
    + lia.
    + intros i y Hi. rewrite <- slot_u32, u32_idem, slot_u32. rewrite <- (G (S i) y Hi). do 2 f_equal. lia.
Qed.
End ring.

(** ** The interrupt handler edits the line *)

(** The device takes output, and no character waits to be sent. *)
Record screen d : Prop := {
  sc_alive : panicked d = 0;
  sc_idle : (Z.land (uart_lsr (uartS d)) LSR_TX_IDLE =? 0) = false;
  sc_sent : uart_tx_w (uartS d) = uart_tx_r (uartS d);
  sc_procs : length (procs d) = NPROC
}.

Definition with_cons (cs : console) d : kdata := set_consS cs d.

Lemma cons_lone : lone LCons.
Proof. apply lone_single. set_solver. Qed.

Lemma uart_lone : lone LUartTx.
Proof. apply lone_single. set_solver. Qed.

Lemma modc_wkd f d t e : modc f (mkWorld (wkd d t) e) = Ok tt (mkWorld (wkd (with_cons (f (consS d)) d) t) e).
Proof. done. Qed.

Lemma modu_wkd f d t e : modu f (mkWorld (wkd d t) e) = Ok tt (mkWorld (wkd (set_uartS (f (uartS d)) d) t) e).
Proof. done. Qed.

Lemma screen_emit bs d : screen d -> screen (emit bs d).
Proof. by intros [A B C D]. Qed.

Lemma screen_cons cs d : screen d -> screen (with_cons cs d).
Proof. by intros [A B C D]. Qed.

Lemma screen_procs g d : screen d -> screen (all_procs g d).
Proof. intros [A B C D]. split; try done. cbn. by rewrite length_imap. Qed.

Lemma emit_with_cons bs cs d : emit bs (with_cons cs d) = with_cons cs (emit bs d).
Proof. done. Qed.

Lemma emit_emit bs bs' d : emit bs' (emit bs d) = emit (bs ++ bs') d.
Proof. pose proof (emit_app bs bs' (wkd d kstate0)) as E. apply (f_equal kd) in E. exact E. Qed.

Lemma emit_none d : emit [] d = d.
Proof. pose proof (emit_nil (wkd d kstate0)) as E. apply (f_equal kd) in E. exact E. Qed.

Section handler.
Context (t : kstate) (Q : quiet t).

(** Output, with the lock of the console *)
Lemma writes_locked {A} (m : M A) bs a d e : writes m bs a -> screen d ->
  m (mkWorld (wkd d (acq LCons t)) e) = Ok a (mkWorld (wkd (emit bs d) (acq LCons t)) e).
Proof using Q.
  intros W S. rewrite (W (wkd d (acq LCons t)) e); [done| | |].
  - apply (settled_acq LCons t); [apply Q|rewrite (qt_noff t Q); lia].
  - change (noff (acq LCons t) < 2147483646). rewrite noff_acq by apply Q. rewrite (qt_noff t Q). lia.
  - split; [apply S|]. unfold tx_idle. cbn [wkd mapd kd set_kd]. by rewrite (sc_idle d S).
Qed.

Lemma writes_rubout : writes (consputc BACKSPACE) rubout tt.
Proof using.
  clear Q. unfold consputc. rewrite Z.eqb_refl.
  apply (writes_bind _ _ [8] [32; 8] tt); [apply writes_uartputc_sync|].
  apply (writes_bind _ _ [32] [8] tt); apply writes_uartputc_sync.
Qed.

Lemma erase_ok d e : screen d ->
  erase (mkWorld (wkd d (acq LCons t)) e) =
  Ok tt (mkWorld (wkd (emit rubout (with_cons (set_cons_e (u32 (cons_e (consS d) - 1)) (consS d)) d)) (acq LCons t)) e).
Proof using Q.
  intros S. unfold erase. rewrite (bind_Ok _ _ _ _ _ (modc_wkd _ d _ e)).
  by apply writes_locked; [apply writes_rubout|apply screen_cons].
Qed.

Lemma cons_char_ok i x cs w : cons_buf cs !! slot i = Some x -> cons_char i cs w = Ok x w.
Proof using. clear Q. unfold cons_char, slot. by intros ->. Qed.

(** The line is killed. *)
Lemma kill_line_ok n d e : forall l, screen d -> holds (consS d) l -> (length (edit l) < n)%nat ->
  exists cs', holds cs' {| ready := ready l; edit := [] |} /\ loop n kill_turn (mkWorld (wkd d (acq LCons t)) e) =
    Ok tt (mkWorld (wkd (emit (concat (replicate (length (edit l)) rubout)) (with_cons cs' d)) (acq LCons t)) e).
Proof using Q.
  revert d. induction n as [|n IH]; intros d l S H Hn; [lia|]. cbn [loop].
  assert (kill_turn (mkWorld (wkd d (acq LCons t)) e) =
    if bool_decide (edit l = []) then Ok (Some tt) (mkWorld (wkd d (acq LCons t)) e)
    else (erase;; mret None) (mkWorld (wkd d (acq LCons t)) e)) as E.
  { unfold kill_turn. rewrite (bind_Ok _ _ _ _ _ (getd_wkd consS d _ e)), (edit_empty _ _ H).
    destruct (edit l) as [|x es _] eqn:El using rev_ind; [done|]. rewrite bool_decide_eq_false_2 by (by destruct es).
    rewrite (bind_Ok _ _ _ _ _ (cons_char_ok _ x _ _ (last_char _ _ H x es El))).
    destruct (Z.eqb_spec x NEWLINE) as [->|]; [|done]. destruct (hl_edit _ _ H). rewrite El. set_solver. }
  destruct (edit l) as [|x es _] eqn:El using rev_ind.
  - exists (consS d). split; [by destruct l as [? ?]; cbn in El; subst|].
    rewrite bool_decide_eq_true_2 in E by done. rewrite (bind_Ok _ _ _ _ _ E). cbn [length replicate concat]. rewrite emit_none. by destruct d.
  - rewrite bool_decide_eq_false_2, (bind_Ok _ _ _ _ _ (erase_ok d e S)) in E by (by destruct es). rewrite (bind_Ok _ _ _ _ _ E).
    rewrite length_app in Hn. cbn [length] in Hn.
    destruct (IH (emit rubout (with_cons (set_cons_e (u32 (cons_e (consS d) - 1)) (consS d)) d)) {| ready := ready l; edit := es |})
      as (cs' & H' & ->); [by apply screen_emit, screen_cons|by apply (erase_holds _ _ H x)|cbn; lia|].
    exists cs'. split; [done|]. rewrite <- emit_with_cons, emit_emit. cbn [edit]. rewrite length_app, Nat.add_comm. done.
Qed.
End handler.

(** The variables after a key *)
Definition struck (b : bool) (me : option nat) (out : list Z) (cs : console) d : kdata :=
  let d := emit out (with_cons cs d) in if b then all_procs (wake_eff CConsR me) d else d.

Lemma screen_struck b me out cs d : screen d -> screen (struck b me out cs d).
Proof. intros S. unfold struck. destruct b; [apply screen_procs|]; by apply screen_emit, screen_cons. Qed.

Lemma consS_struck b me out cs d : consS (struck b me out cs d) = cs.
Proof. by destruct b. Qed.

Lemma struck_same d me : struck false me [] (consS d) d = d.
Proof. unfold struck. rewrite emit_none. by destruct d. Qed.

Lemma as_typed_key c : is_key c -> u8 (as_typed c) = as_typed c /\ as_typed c <> BACKSPACE.
Proof.
  intros [Hc _]. unfold as_typed, NEWLINE, BACKSPACE. destruct (c =? 13); split; try done; [|lia]. by apply wrap_u_small.
Qed.

(** The characters the device has received *)
Definition fed (ks : list Z) d : kdata := set_uartS (set_uart_in ks (uartS d)) d.

Lemma fed_struck ks b me out cs d : fed ks (struck b me out cs d) = struck b me out cs (fed ks d).
Proof. by destruct b. Qed.

Lemma fed_fed ks ks' d : fed ks (fed ks' d) = fed ks d.
Proof. done. Qed.

Lemma screen_fed ks d : screen d -> screen (fed ks d).
Proof. by intros [A B C D]. Qed.

Lemma wake_eff_twice chan me d : all_procs (wake_eff chan me) (all_procs (wake_eff chan me) d) = all_procs (wake_eff chan me) d.
Proof.
  unfold all_procs. cbn [procs set_procs]. transitivity (set_procs (imap (wake_eff chan me) (imap (wake_eff chan me) (procs d))) d); [done|].
  f_equal. apply list_eq. intros q. rewrite !list_lookup_imap. destruct (procs d !! q) as [pr|]; [|done]. cbn. f_equal.
  unfold wake_eff. destruct (bool_decide _); [done|]. apply woken_woken.
Qed.

Lemma struck_struck b b' me out out' cs cs' d : struck b' me out' cs' (struck b me out cs d) = struck (b || b') me (out ++ out') cs' d.
Proof.
  assert (forall g cs d, with_cons cs (all_procs g d) = all_procs g (with_cons cs d)) as E1 by done.
  assert (forall g o d, emit o (all_procs g d) = all_procs g (emit o d)) as E2 by done.
  unfold struck. destruct b, b'; cbn [orb]; rewrite ?E1, ?E2, ?wake_eff_twice; rewrite <- !emit_with_cons, emit_emit; done.
Qed.

Section keyboard.
Context `{LinkSyms, FileSys}.
Context (t : kstate) (Q : quiet t).

(** The end of consoleintr, for a character that is accepted *)
Definition put_char c : M unit :=
  consputc c;;
  modc (fun cs => set_cons_buf (<[Z.to_nat (cons_e cs `mod` INPUT_BUF_SIZE) := u8 c]> (cons_buf cs)) cs);;
  modc (fun cs => set_cons_e (u32 (cons_e cs + 1)) cs);;
  cs ← getd consS;
  when ((c =? NEWLINE) || (c =? ctrl "D") || (u32 (cons_e cs - cons_r cs) =? INPUT_BUF_SIZE)) (
    modc (fun cs => set_cons_w (cons_e cs) cs);;
    wakeup CConsR).

(** A character is put in the line. *)
Lemma accept_ok c d l e : is_key c -> screen d -> holds (consS d) l -> (length (typed_of l) < CAPACITY)%nat ->
  exists cs', holds cs' (if commits c l then {| ready := typed_of l ++ [as_typed c]; edit := [] |}
                         else {| ready := ready l; edit := edit l ++ [as_typed c] |}) /\
    put_char (as_typed c) (mkWorld (wkd d (acq LCons t)) e) =
    Ok tt (mkWorld (wkd (struck (commits c l) (cur t) [as_typed c] cs' d) (acq LCons t)) e).
Proof using Q.
  intros Hk Sc Hh Hl. destruct (as_typed_key c Hk) as [Hu Hb]. unfold put_char.
  rewrite (bind_Ok _ _ _ _ _ (writes_locked t Q _ _ _ d e (writes_consputc _ Hb) Sc)), Hu.
  rewrite (bind_Ok _ _ _ _ _ (modc_wkd _ _ _ e)), (bind_Ok _ _ _ _ _ (modc_wkd _ _ _ e)), (bind_Ok _ _ _ _ _ (getd_wkd consS _ _ e)).
  cbn [consS with_cons set_consS emit set_uartS]. fold (slot (cons_e (consS d))).
  pose proof (put_holds _ l Hh (as_typed c) false Hl) as Hf. pose proof (put_holds _ l Hh (as_typed c) true Hl ltac:(done)) as Ht.
  cbv zeta in Ht, Hf. set (cs1 := set_cons_e _ _) in *.
  assert (u32 (cons_e cs1 - cons_r cs1) = Z.of_nat (S (length (typed_of l)))) as ->.
  { transitivity (u32 (cons_e (set_cons_w (cons_e cs1) cs1) - cons_r (set_cons_w (cons_e cs1) cs1))); [done|]. rewrite (total_count _ _ Ht). unfold typed_of. cbn [ready edit]. rewrite app_nil_r, length_app. f_equal. cbn [length]. lia. }
  assert ((Z.of_nat (S (length (typed_of l))) =? INPUT_BUF_SIZE) = (S (length (typed_of l)) =? CAPACITY)%nat) as ->.
  { unfold INPUT_BUF_SIZE, CAPACITY. destruct (Nat.eqb_spec (S (length (typed_of l))) 128); [apply Z.eqb_eq|apply Z.eqb_neq]; lia. }
  fold (commits c l). destruct (commits c l) eqn:Ec; cbn [when].
  - exists (set_cons_w (cons_e cs1) cs1). split; [exact Ht|]. rewrite (bind_Ok _ _ _ _ _ (modc_wkd _ _ _ e)).
    apply (wakeup_quiet t Q LCons); [apply cons_lone|exact (sc_procs d Sc)].
  - exists cs1. split; [|done]. apply Hf. intros _ E. unfold commits in Ec. by rewrite E in Ec.
Qed.

Lemma consoleintr_ok c d l e : is_key c -> screen d -> holds (consS d) l ->
  exists cs', holds cs' (key c l) /\
    consoleintr c (mkWorld (wkd d t) e) = Ok tt (mkWorld (wkd (struck (makes c l) (cur t) (echo c l) cs' d) t) e).
Proof using Q.
  intros Hk Sc Hh. unfold consoleintr.
  rewrite (bind_Ok _ _ _ _ _ (acquire_quiet _ (quiet_wkd d t Q) LCons e (proj1 cons_lone))), acq_wkd.
  assert (forall b out cs' (m : M unit), m (mkWorld (wkd d (acq LCons t)) e) = Ok tt (mkWorld (wkd (struck b (cur t) out cs' d) (acq LCons t)) e) ->
    (m;; release LCons) (mkWorld (wkd d (acq LCons t)) e) = Ok tt (mkWorld (wkd (struck b (cur t) out cs' d) t) e)) as Hrel.
  { intros b out cs' m E. rewrite (bind_Ok _ _ _ _ _ E). by apply release_quiet, cons_lone. }
  destruct (Z.eqb_spec c (ctrl "P")) as [|_]; [by destruct Hk|]. unfold key, echo, makes, erases.
  destruct (c =? ctrl "U") eqn:EU; cbn [negb andb].
  - destruct (kill_line_ok t Q (S (length (edit l))) d e l Sc Hh ltac:(lia)) as (cs' & H' & E). exists cs'. split; [exact H'|].
    apply Hrel. rewrite (bind_Ok _ _ _ _ _ (getd_wkd consS d _ e)), (edit_count _ _ Hh), Nat2Z.id. exact E.
  - destruct ((c =? ctrl "H") || (c =? 0x7f)) eqn:EH; cbn [negb andb].
    + assert (exists cs', holds cs' {| ready := ready l; edit := removelast (edit l) |} /\
        (cs ← getd consS; when (negb (cons_e cs =? cons_w cs)) erase) (mkWorld (wkd d (acq LCons t)) e) =
        Ok tt (mkWorld (wkd (struck false (cur t) (if decide (edit l = []) then [] else rubout) cs' d) (acq LCons t)) e)) as (cs' & H' & E);
        [|exists cs'; split; [exact H'|by apply Hrel]].
      rewrite (bind_Ok _ _ _ _ _ (getd_wkd consS d _ e)), (edit_empty _ _ Hh).
      destruct (edit l) as [|x es _] eqn:El using rev_ind.
      * exists (consS d). rewrite bool_decide_eq_true_2, decide_True by done. cbn [negb when]. rewrite struck_same.
        split; [|done]. by destruct l as [? ?]; cbn in El; subst.
      * exists (set_cons_e (u32 (cons_e (consS d) - 1)) (consS d)). rewrite removelast_last, bool_decide_eq_false_2, decide_False by (by destruct es).
        split; [by apply (erase_holds _ _ Hh x)|]. by apply erase_ok.
    + assert ((negb (c =? 0) && (u32 (cons_e (consS d) - cons_r (consS d)) <? INPUT_BUF_SIZE)) = accepted c l) as Ea.
      { rewrite (total_count _ _ Hh). unfold accepted, CAPACITY, INPUT_BUF_SIZE. f_equal.
        destruct (Nat.ltb_spec (length (typed_of l)) 128); [apply Z.ltb_lt|apply Z.ltb_ge]; lia. }
      assert (exists cs', holds cs' (if accepted c l then if commits c l then {| ready := typed_of l ++ [as_typed c]; edit := [] |}
          else {| ready := ready l; edit := edit l ++ [as_typed c] |} else l) /\
        when (accepted c l) (put_char (as_typed c)) (mkWorld (wkd d (acq LCons t)) e) =
        Ok tt (mkWorld (wkd (struck (accepted c l && commits c l) (cur t) (if accepted c l then [as_typed c] else []) cs' d) (acq LCons t)) e))
        as (cs' & H' & E).
      { destruct (accepted c l) eqn:Eac; cbn [when andb].
        - apply accept_ok; try done. unfold accepted in Eac. apply andb_true_iff in Eac as [_ Eac]. by apply Nat.ltb_lt.
        - exists (consS d). by rewrite struck_same. }
      exists cs'. split; [exact H'|]. apply Hrel. rewrite (bind_Ok _ _ _ _ _ (getd_wkd consS d _ e)), Ea. exact E.
Qed.

Lemma uartgetc_ok c ks d e : uart_in (uartS d) = c :: ks ->
  uartgetc (mkWorld (wkd d t) e) = Ok c (mkWorld (wkd (fed ks d) t) e).
Proof using.
  intros E. unfold uartgetc, read_LSR, getu. erewrite bind_Ok by apply getd_wkd. rewrite E. change LSR_RX_READY with 1.
  assert (Z.land (Z.lor (uart_lsr (uartS d)) 1) 1 = 1) as ->.
  { rewrite Z.land_comm, Z.lor_comm. apply Z.bits_inj'. intros n Hn. rewrite Z.land_spec, Z.lor_spec. destruct (Z.testbit 1 n); done. }
  cbn [Z.eqb negb]. erewrite bind_Ok by apply getd_wkd. rewrite E. by erewrite bind_Ok by apply modu_wkd.
Qed.

(** Each character that waits is handled. *)
Lemma each_key ks : forall (xs : list Z) d l e, length xs = length ks -> uart_in (uartS d) = ks -> Forall is_key ks -> screen d ->
  holds (consS d) l ->
  exists cs', holds cs' (keys ks l) /\
    for_each xs (fun _ => c ← uartgetc; consoleintr c) (mkWorld (wkd d t) e) =
    Ok tt (mkWorld (wkd (struck (made ks l) (cur t) (echoes ks l) cs' (fed [] d)) t) e).
Proof using Q.
  induction ks as [|c ks IH]; intros [|x xs] d l e Hx Hi Hk Sc Hh; try done; cbn [for_each].
  - exists (consS d). split; [done|]. cbn [made echoes]. assert (fed [] d = d) as ->; [|by rewrite struck_same].
    unfold fed. rewrite <- Hi. destruct d as []. cbn. by destruct uartS.
  - apply Forall_cons in Hk as [Hc Hk].
    destruct (consoleintr_ok c (fed ks d) l e Hc (screen_fed _ _ Sc) Hh) as (cs1 & H1 & E1).
    rewrite (bind_Ok _ _ _ tt (mkWorld (wkd (struck (makes c l) (cur t) (echo c l) cs1 (fed ks d)) t) e));
      [|by rewrite (bind_Ok _ _ _ _ _ (uartgetc_ok c ks d e Hi))].
    destruct (IH xs (struck (makes c l) (cur t) (echo c l) cs1 (fed ks d)) (key c l) e) as (cs2 & H2 & ->);
      [by injection Hx|by destruct (makes c l)|done|by apply screen_struck, screen_fed|by rewrite consS_struck|].
    exists cs2. split; [done|]. by rewrite fed_struck, struck_struck, fed_fed.
Qed.

Lemma drain_none d e : uart_in (uartS d) = [] -> drain_input (mkWorld (wkd d t) e) = Ok (Some tt) (mkWorld (wkd d t) e).
Proof using. intros E. unfold drain_input, getu. erewrite bind_Ok by apply getd_wkd. by rewrite E. Qed.

Lemma uartstart_none d t' e : uart_tx_w (uartS d) = uart_tx_r (uartS d) ->
  uartstart (mkWorld (wkd d t') e) = Ok tt (mkWorld (wkd d t') e).
Proof using.
  intros E. unfold uartstart. erewrite bind_Ok by apply getd_wkd. cbn [loop].
  rewrite (bind_Ok _ _ _ (Some tt) (mkWorld (wkd d t') e)); [done|].
  unfold uartstart_turn. erewrite bind_Ok by apply getd_wkd. by rewrite E, Z.eqb_refl.
Qed.

(** uartintr edits the line with all that has been received. *)
Lemma uartintr_ok ks d l e : uart_in (uartS d) = ks -> Forall is_key ks -> screen d -> holds (consS d) l ->
  exists cs', holds cs' (keys ks l) /\
    uartintr (mkWorld (wkd d t) e) = Ok tt (mkWorld (wkd (struck (made ks l) (cur t) (echoes ks l) cs' (fed [] d)) t) e).
Proof using Q.
  intros Hi Hk Sc Hh. unfold uartintr. destruct (each_key ks ks d l e eq_refl Hi Hk Sc Hh) as (cs' & H' & E). exists cs'. split; [exact H'|].
  set (d' := struck _ _ _ _ _) in *. assert (screen d') as Sc' by (by apply screen_struck, screen_fed).
  assert (uart_in (uartS d') = []) as Hi' by (unfold d'; by destruct (made ks l)).
  rewrite (bind_Ok _ _ _ tt (mkWorld (wkd d' t) e)).
  - rewrite (bind_Ok _ _ _ _ _ (acquire_quiet _ (quiet_wkd d' t Q) LUartTx e (proj1 uart_lone))), acq_wkd.
    rewrite (bind_Ok _ _ _ _ _ (uartstart_none d' _ e (sc_sent d' Sc'))). by apply release_quiet, uart_lone.
  - cbn [env loop]. destruct ks as [|c ks].
    + rewrite (bind_Ok _ _ _ _ _ (drain_none d e Hi)). cbn [for_each] in E. exact E.
    + rewrite (bind_Ok _ _ _ None (mkWorld (wkd d' t) e)).
      * by rewrite (bind_Ok _ _ _ _ _ (drain_none d' e Hi')).
      * unfold drain_input, getu. erewrite bind_Ok by apply getd_wkd. rewrite Hi. by rewrite (bind_Ok _ _ _ _ _ E).
Qed.
End keyboard.

(** ** A reader takes a line *)

(** Characters come in bursts.  A reader that finds nothing waits for a burst
    that makes something readable: what it finds then, the bursts to come and
    the output. *)
Definition await (kss : list (list Z)) (l : line) : option (line * list (list Z) * list Z) :=
  match ready l with
  | [] =>
    match kss with
    | ks :: kss => if made ks l then Some (keys ks l, kss, echoes ks l) else None
    | [] => None
    end
  | _ => Some (l, kss, [])
  end.

(** The characters up to the end of a line, [k] at most.  An end of file is
    kept for the next read, unless it is the first character. *)
Fixpoint reads (k : nat) (first : bool) (kss : list (list Z)) (l : line) : option (list Z * line * list (list Z) * list Z) :=
  match k with
  | O => Some ([], l, kss, [])
  | S k =>
    match await kss l with
    | None => None
    | Some (l, kss, out) =>
      match ready l with
      | [] => None
      | c :: rs =>
        let rest := {| ready := rs; edit := edit l |} in
        if c =? ctrl "D" then Some ([], if first then rest else l, kss, out)
        else if c =? NEWLINE then Some ([c], rest, kss, out)
        else match reads k false kss rest with
             | None => None
             | Some (bs, l', kss', out') => Some (c :: bs, l', kss', out ++ out')
             end
      end
    end
  end.

Lemma reads_length k : forall first kss l bs l' kss' out, reads k first kss l = Some (bs, l', kss', out) -> (length bs <= k)%nat.
Proof.
  induction k as [|k IH]; intros first kss l bs l' kss' out E; cbn [reads] in E; [by injection E as <- _ _ _|].
  destruct (await kss l) as [[[l1 kss1] o1]|]; [|done]. destruct (ready l1) as [|c rs]; [done|].
  destruct (c =? ctrl "D"); [injection E as <- _ _ _; cbn; lia|]. destruct (c =? NEWLINE); [injection E as <- _ _ _; cbn; lia|].
  destruct (reads k false _ _) as [[[[bs1 l2] kss2] o2]|] eqn:E1; [|done]. injection E as <- _ _ _. apply IH in E1. cbn. lia.
Qed.

(** The pages that the user cannot reach are as they were. *)
Definition kept (m m' : gmap Z (list Z)) (pt : Z) : Prop := forall pa, private m pt pa -> m' !! pa = m !! pa.

Lemma kept_trans m m1 m2 pt : (forall va, pmap m1 pt va = pmap m pt va) -> kept m m1 pt -> kept m1 m2 pt -> kept m m2 pt.
Proof.
  intros E K1 K2 pa Hp. rewrite K2; [by apply K1|]. intros va v Hva. rewrite E. by apply Hp.
Qed.

(** What the rest of the system does: the bursts arrive at the device, one each
    time the reader sleeps. *)
Definition burst `{LinkSyms, FileSys} (ks : list Z) : M unit := modd (fed ks);; uartintr.

Definition typist `{LinkSyms, FileSys} (p : nat) (kss : list (list Z)) : list (kstate -> kstate) :=
  (fun ks => running (away p (burst ks))) <$> kss.

(** From [d] to [d']: characters were written, sleepers on the console woken,
    the ring and RAM changed, and nothing else. *)
Record went (p : nat) (out : list Z) d d' : Prop := {
  wn_uart : uartS d' = set_uart_out (rev (u8 <$> out) ++ uart_out (uartS d)) (uartS d);
  wn_procs : procs d' = procs d \/ procs d' = imap (wake_eff CConsR (Some p)) (procs d);
  wn_rest : d' = set_procs (procs d') (set_consS (consS d') (set_uartS (uartS d') (set_mem (mem d') d)))
}.

Lemma went_refl p cs m d : went p [] d (with_cons cs (set_mem m d)).
Proof. split; [|by left|by destruct d]. cbn. by destruct (uartS d). Qed.

Lemma went_trans p out out' d1 d2 d3 : went p out d1 d2 -> went p out' d2 d3 -> went p (out ++ out') d1 d3.
Proof.
  intros [U1 P1 R1] [U2 P2 R2]. split.
  - rewrite U2, U1. cbn. by rewrite fmap_app, rev_app_distr, app_assoc.
  - destruct P1 as [P1|P1], P2 as [P2|P2]; rewrite P1 in P2; rewrite P2; [by left|by right|by right|right].
    exact (f_equal procs (wake_eff_twice CConsR (Some p) d1)).
  - rewrite R2, R1 at 1. done.
Qed.

(** The reader, while it runs *)
Record reading (p : nat) (pr : proc) (l : line) d : Prop := {
  rg_screen : screen d;
  rg_in : uart_in (uartS d) = [];
  rg_holds : holds (consS d) l;
  rg_proc : procs d !! p = Some pr
}.

Definition active (pr : proc) : Prop := p_state pr = RUNNING /\ p_chan pr = CNull /\ p_killed pr = 0.

Section reader.
Context `{L : LinkSyms} `{Lk : !LinkSymsOk L} `{FileSys}.
Context (p : nat) (s : kstate) (Hc : calm p s) (Hp : (p < NPROC)%nat) (pr : proc) (Ha : active pr).

(** When the reader is back *)
Lemma back_went b out cs ks d : procs d !! p = Some pr ->
  let d' := back p CConsR (fun d => struck b None out cs (fed [] (fed ks d))) d in
  b = true -> uart_in (uartS d) = [] -> went p out d d' /\ procs d' !! p = Some pr.
Proof using Ha.
  intros Hpr d' -> Hi. assert (procs d' = imap (wake_eff CConsR (Some p)) (procs d)) as E.
  { unfold d', back, struck. cbn [at_proc all_procs procs set_procs emit set_uartS with_cons set_consS fed].
    apply list_eq. intros q. destruct (decide (q = p)) as [->|Hne].
    - rewrite !list_lookup_alter_eq, !list_lookup_imap, list_lookup_alter_eq, Hpr. cbn. f_equal. unfold wake_eff.
      rewrite bool_decide_eq_false_2, bool_decide_eq_true_2, woken_parked by done. destruct Ha as (A & B & _).
      destruct pr; cbn in *; by subst.
    - rewrite !list_lookup_alter_ne, !list_lookup_imap, list_lookup_alter_ne by done. destruct (procs d !! q); [|done]. cbn. f_equal.
      unfold wake_eff. by rewrite !bool_decide_eq_false_2 by congruence. }
  split.
  - split; [|by right|].
    + unfold d', back, struck. cbn. rewrite <- Hi. by destruct (uartS d).
    + unfold d', back, struck. by destruct d.
  - rewrite E, list_lookup_imap, Hpr. cbn. unfold wake_eff. by rewrite bool_decide_eq_true_2.
Qed.

(** While it holds the lock of the console, the reader learns who it is and
    that it is not killed. *)
Lemma inside_ok d e : procs d !! p = Some pr ->
  myproc (mkWorld (wkd d (acq LCons s)) e) = Ok (Some p) (mkWorld (wkd d (acq LCons s)) e) /\
  killed p (mkWorld (wkd d (acq LCons s)) e) = Ok 0 (mkWorld (wkd d (acq LCons s)) e).
Proof using Hc Hp Ha.
  intros Hpr. pose proof (calm_quiet p s Hc) as Q. assert (settled (wkd d (acq LCons s))) as Hs
    by (apply (settled_acq LCons s); [apply Q|rewrite (qt_noff s Q); lia]).
  assert (noff (wkd d (acq LCons s)) < 2147483646) as Hn.
  { change (noff (acq LCons s) < 2147483646). rewrite noff_acq by apply Q. rewrite (qt_noff s Q). lia. }
  split.
  - rewrite myproc_ok by done. change (cur (wkd d (acq LCons s))) with (cur (acq LCons s)).
    by rewrite cur_acq, (calm_cur p s Hc) by apply Q.
  - destruct Ha as (_ & _ & <-). apply killed_ok; try done. change (is_free (acq LCons s) (LProc p)).
    apply is_free_acq_ne; [done|]. by apply Q, all_locks_proc.
Qed.

Lemma burst_ok t ks d l e : quiet t -> cur t = None -> Forall is_key ks -> screen d -> uart_in (uartS d) = [] -> holds (consS d) l ->
  exists cs, holds cs (keys ks l) /\
    burst ks (mkWorld (wkd d t) e) = Ok tt (mkWorld (wkd (struck (made ks l) None (echoes ks l) cs (fed [] (fed ks d))) t) e).
Proof using.
  intros Q Ht Hk Sc Hi Hh. destruct (uartintr_ok t Q ks (fed ks d) l e eq_refl Hk (screen_fed _ _ Sc) Hh) as (cs & H' & E).
  exists cs. split; [exact H'|]. unfold burst. rewrite (bind_Ok _ _ _ _ _ (modd_wkd _ d t e)). rewrite Ht in E. exact E.
Qed.

Lemma console_wait_ok kss l l1 kss1 out d e : reading p pr l d -> Forall (Forall is_key) kss -> await kss l = Some (l1, kss1, out) ->
  exists d1, console_wait (mkWorld (wkd d (acq LCons s)) (typist p kss ++ e)) = Ok false (mkWorld (wkd d1 (acq LCons s)) (typist p kss1 ++ e)) /\
    reading p pr l1 d1 /\ went p out d d1 /\ mem d1 = mem d /\ Forall (Forall is_key) kss1.
Proof using Hc Hp Ha.
  intros [Sc Hi Hh Hpr] Hk Hw. unfold await in Hw. destruct (ready l) as [|c rs] eqn:Er.
  - destruct kss as [|ks kss]; [done|]. destruct (made ks l) eqn:Em; [|done]. injection Hw as <- <- <-.
    apply Forall_cons in Hk as [Hk Hks]. pose proof (calm_quiet p s Hc) as Q.
    destruct (burst_ok (set_cur None s) ks (at_proc p (parked CConsR) d) l [] (quiet_set_cur None s Q)
      ltac:(apply cur_set_cur, Q) Hk ltac:(destruct Sc; split; try done; cbn; by rewrite length_alter) Hi Hh) as (cs & H' & Eb).
    set (G := fun d => struck (made ks l) None (echoes ks l) cs (fed [] (fed ks d))).
    destruct (back_went (made ks l) (echoes ks l) cs ks d Hpr Em Hi) as [W Hpr1]. fold G in W, Hpr1.
    exists (back p CConsR G d). destruct (inside_ok d (typist p (ks :: kss) ++ e) Hpr) as [E1 E2].
    assert (holds (consS (back p CConsR G d)) (keys ks l)) as Hh1 by (unfold back, G; change (consS (at_proc _ _ (at_proc _ _ ?d))) with (consS d); by rewrite consS_struck).
    split; [|split; [|split; [exact W|split; [|exact Hks]]]].
    + unfold console_wait, wait_loop. cbn [env typist fmap list_fmap app length loop].
      rewrite (bind_Ok _ _ _ None (mkWorld (wkd (back p CConsR G d) (acq LCons s)) (typist p kss ++ e))).
      * rewrite (bind_Ok _ _ _ (Some false) (mkWorld (wkd (back p CConsR G d) (acq LCons s)) (typist p kss ++ e))); [done|].
        erewrite bind_Ok by apply getd_wkd. rewrite (ready_empty _ _ Hh1), bool_decide_eq_false_2 by (by apply made_ready). done.
      * erewrite bind_Ok by apply getd_wkd. rewrite (ready_empty _ _ Hh), bool_decide_eq_true_2 by done.
        rewrite (bind_Ok _ _ _ _ _ E1). unfold nonnull, the. run. rewrite (bind_Ok _ _ _ _ _ E2). change (z2b 0) with false. cbv iota.
        erewrite bind_Ok; [reflexivity|].
        apply (sleep_away p s Hc Hp (burst ks) G LCons d CConsR pr _ cons_lone Hpr Eb). unfold G. rewrite Em.
        exists (woken CConsR (parked CConsR pr)). rewrite woken_parked. split; [|done].
        cbn. rewrite list_lookup_imap, list_lookup_alter_eq, Hpr. cbn. unfold wake_eff. rewrite bool_decide_eq_false_2 by done. by rewrite woken_parked.
    + split; [|unfold back, G; by rewrite Em|exact Hh1|exact Hpr1].
      destruct Sc as [A B C D]. unfold back, G. rewrite Em. split; try done. cbn. by rewrite !length_alter, length_imap, length_alter.
    + unfold back, G. by rewrite Em.
  - injection Hw as <- <- <-. exists d. split; [|split; [by split|split; [|done]]].
    + unfold console_wait. apply wait_loop_once. erewrite bind_Ok by apply getd_wkd.
      rewrite (ready_empty _ _ Hh), bool_decide_eq_false_2 by (by rewrite Er). done.
    + pose proof (went_refl p (consS d) (mem d) d) as W. by destruct d.
Qed.

(** One character to the user's memory *)
Lemma put_user dst c d e : procs d !! p = Some pr -> user_ok (mem d) (p_pagetable pr) -> 0 <= dst -> writable (mem d) (p_pagetable pr) dst ->
  exists m, either_copyout true dst [c] (mkWorld (wkd d (acq LCons s)) e) = Ok (0, []) (mkWorld (wkd (set_mem m d) (acq LCons s)) e) /\
    user_ok m (p_pagetable pr) /\ (forall va, pmap m (p_pagetable pr) va = pmap (mem d) (p_pagetable pr) va) /\
    (forall va, 0 <= va -> access m (p_pagetable pr) va = overwritten (access (mem d) (p_pagetable pr)) dst [c] va) /\
    kept (mem d) m (p_pagetable pr).
Proof using Lk Hc Hp Ha.
  intros Hpr Hu Hd0 Hw. unfold either_copyout. rewrite (bind_Ok _ _ _ _ _ (proj1 (inside_ok d e Hpr))). unfold nonnull, the. run.
  rewrite (bind_Ok _ _ _ _ _ (get_proc_ok p pr (wkd d (acq LCons s)) e Hpr)). unfold copyout.
  pose proof (proj1 Hw) as Hmax. change MAXVA with 274877906944 in Hmax.
  destruct (copyout_loop_ok (p_pagetable pr) e 2 dst [c] (wkd d (acq LCons s)) Hu ltac:(cbn; lia) ltac:(lia)) as (r & m & n & E & A & B & C & _ & D).
  assert (r = 0 /\ n = 1%nat) as [-> ->].
  { destruct D as [D|(_ & Hn & D)]; [exact D|]. exfalso. cbn in Hn. assert (n = 0)%nat as -> by lia. apply D. by rewrite Z.add_0_r. }
  exists m. rewrite (bind_Ok _ _ _ _ _ E). split; [|split; [exact A|split; [exact B|split; [exact C|]]]].
  2: { exact (copyout_loop_frame (p_pagetable pr) e 2 dst [c] (wkd d (acq LCons s)) 0 _ Hu ltac:(lia) E). }
  assert (forall d, set_mem m (set_freelist (freelist d) d) = set_mem m d) as Ef by (by intros []).
  transitivity (Ok (0, @nil Z) (mkWorld (wkd (set_mem m (set_freelist (freelist d) d)) (acq LCons s)) e)); [reflexivity|by rewrite Ef].
Qed.

Lemma writable_frame m m' pt va : (forall va, pmap m' pt va = pmap m pt va) -> writable m pt va -> writable m' pt va.
Proof using. intros E [A (v & B)]. split; [done|]. exists v. by rewrite E. Qed.

Lemma reading_set_mem m l d : reading p pr l d -> reading p pr l (set_mem m d).
Proof using. by intros [[A B C D] E F G]. Qed.

Lemma reading_with_cons cs l l' d : reading p pr l d -> holds cs l' -> reading p pr l' (with_cons cs d).
Proof using. by intros [[A B C D] E F G] I. Qed.

(** The end of file stays, unless it is the first character. *)
Lemma eof_ok (first : bool) d l e rs c : reading p pr l d -> ready l = c :: rs ->
  let d1 := with_cons (set_cons_r (u32 (cons_r (consS d) + 1)) (consS d)) d in
  exists d', when (negb first) (modc (fun cs => set_cons_r (u32 (cons_r cs - 1)) cs)) (mkWorld (wkd d1 (acq LCons s)) e) =
      Ok tt (mkWorld (wkd d' (acq LCons s)) e) /\
    reading p pr (if first then {| ready := rs; edit := edit l |} else l) d' /\ went p [] d d' /\ mem d' = mem d.
Proof using.
  clear Hc Hp Ha.
  intros R Er d1. destruct (take_holds _ _ (rg_holds _ _ _ _ R) c rs Er) as [_ Hh].
  assert (forall cs, went p [] d (with_cons cs d)) as W by (intros cs; pose proof (went_refl p cs (mem d) d) as W; by destruct d).
  destruct first; cbn [negb when].
  - exists d1. split; [done|]. split; [by apply (reading_with_cons _ l)|]. by split; [apply W|].
  - exists (with_cons (consS d) d). split.
    + rewrite modc_wkd. assert (set_cons_r (u32 (cons_r (consS d1) - 1)) (consS d1) = consS d) as ->; [|done].
      cbn. unfold Z.sub. rewrite u32_idem. replace (cons_r (consS d) + 1 + - (1)) with (cons_r (consS d)) by lia.
      rewrite wrap_u_small by (apply (hl_r _ l), R). by destruct (consS d).
    + split; [apply (reading_with_cons _ l), R; done|]. by split; [apply W|].
Qed.

(** The loop of consoleread *)
Lemma consoleread_loop_ok k : forall first dst n target kss l bs l' kss' out d e,
  reading p pr l d -> Forall (Forall is_key) kss -> n = Z.of_nat k -> (n <? target) = negb first -> n <= target ->
  user_ok (mem d) (p_pagetable pr) -> 0 <= dst -> (forall i, (i < k)%nat -> writable (mem d) (p_pagetable pr) (dst + Z.of_nat i)) ->
  reads k first kss l = Some (bs, l', kss', out) ->
  exists d', consoleread_loop k true dst n target (mkWorld (wkd d (acq LCons s)) (typist p kss ++ e)) =
      Ok (Some (n - Z.of_nat (length bs)), []) (mkWorld (wkd d' (acq LCons s)) (typist p kss' ++ e)) /\
    reading p pr l' d' /\ went p out d d' /\
    (forall va, 0 <= va -> access (mem d') (p_pagetable pr) va = overwritten (access (mem d) (p_pagetable pr)) dst bs va) /\
    kept (mem d) (mem d') (p_pagetable pr) /\ user_ok (mem d') (p_pagetable pr).
Proof using Lk Hc Hp Ha.
  induction k as [|k IH]; intros first dst n target kss l bs l' kss' out d e R Hk -> Hf Ht Hu Hd0 Hw Hr.
  { injection Hr as <- <- <- <-. exists d. cbn [consoleread_loop length]. split; [by rewrite Z.sub_0_r|]. split; [done|].
    split; [pose proof (went_refl p (consS d) (mem d) d) as W; by destruct d|]. split; [intros va _; symmetry; apply overwritten_nil|by split]. }
  cbn [reads] in Hr. destruct (await kss l) as [[[l1 kss1] o1]|] eqn:Ew; [|done].
  destruct (console_wait_ok kss l l1 kss1 o1 d e R Hk Ew) as (d1 & E1 & R1 & W1 & M1 & Hk1).
  destruct (ready l1) as [|c rs] eqn:Er; [done|]. destruct (take_holds _ _ (rg_holds _ _ _ _ R1) c rs Er) as [Ec Hh2].
  set (d2 := with_cons (set_cons_r (u32 (cons_r (consS d1) + 1)) (consS d1)) d1).
  assert (reading p pr {| ready := rs; edit := edit l1 |} d2) as R2 by (by apply (reading_with_cons _ l1)).
  assert (went p [] d1 d2) as W2 by (pose proof (went_refl p (consS d2) (mem d1) d1) as W; unfold d2; by destruct d1).
  cbn [consoleread_loop]. rewrite (bind_Ok _ _ _ _ _ E1). cbv iota. erewrite bind_Ok by apply getd_wkd.
  rewrite (bind_Ok _ _ _ _ _ (cons_char_ok _ _ _ _ Ec)). rewrite (bind_Ok _ _ _ _ _ (modc_wkd _ _ _ _)). fold d2.
  assert (mem d2 = mem d) as M2 by exact M1.
  destruct (c =? ctrl "D") eqn:EcD.
  { injection Hr as <- <- <- <-. rewrite Hf. destruct (eof_ok first d1 l1 (typist p kss1 ++ e) rs c R1 Er) as (d' & E' & R' & W' & M'). fold d2 in E'.
    exists d'. rewrite (bind_Ok _ _ _ _ _ E'). cbn [length]. split; [by rewrite Z.sub_0_r|]. split; [done|].
    split; [rewrite <- (app_nil_r o1); by apply (went_trans p _ _ d d1)|].
    unfold kept. rewrite M', M1. split; [intros va _; symmetry; apply overwritten_nil|by split]. }
  destruct (put_user dst c d2 (typist p kss1 ++ e) (rg_proc _ _ _ _ R2) ltac:(by rewrite M2) Hd0) as (m & E3 & U3 & P3 & A3 & K3).
  { rewrite M2, <- (Z.add_0_r dst). apply (Hw 0%nat). lia. }
  rewrite M2 in P3, A3, K3. rewrite (bind_Ok _ _ _ _ _ E3). change (0 =? -1) with false. cbv iota.
  assert (reading p pr {| ready := rs; edit := edit l1 |} (set_mem m d2)) as R3 by (by apply reading_set_mem).
  assert (went p o1 d (set_mem m d2)) as W3.
  { rewrite <- (app_nil_r o1). apply (went_trans p _ _ d d1 _ W1). pose proof (went_refl p (consS d2) m d1) as W. unfold d2. by destruct d1. }
  destruct (c =? NEWLINE).
  { injection Hr as <- <- <- <-. exists (set_mem m d2). split; [done|]. split; [done|]. split; [done|]. split; [exact A3|by split]. }
  destruct (reads k false kss1 {| ready := rs; edit := edit l1 |}) as [[[[bs' l3] kss3] o3]|] eqn:E4; [|done]. injection Hr as <- <- <- <-.
  assert (dst + 1 < 2 ^ 64) as Hd1. { destruct (Hw 0%nat ltac:(lia)) as [Hmax _]. change MAXVA with 274877906944 in Hmax. lia. }
  rewrite wrap_u_small by lia.
  destruct (IH false (dst + 1) (Z.of_nat (S k) - 1) target kss1 _ bs' l3 kss3 o3 (set_mem m d2) e R3 Hk1 ltac:(lia) ltac:(apply Z.ltb_lt; lia)
    ltac:(lia) U3 ltac:(lia)) as (d' & E5 & R' & W' & A' & K' & U'); [|exact E4|].
  { intros i Hi. apply (writable_frame (mem d)); [exact P3|]. replace (dst + 1 + Z.of_nat i) with (dst + Z.of_nat (S i)) by lia. apply Hw. lia. }
  exists d'. rewrite (bind_Ok _ _ _ _ _ E5). cbn [length app]. split; [apply (f_equal (fun r => Ok (Some r, @nil Z) _)); lia|]. split; [done|]. split; [by apply (went_trans p _ _ d (set_mem m d2))|].
  split; [|split; [exact (kept_trans _ _ _ _ P3 K3 K')|exact U']]. intros va Hva. rewrite A' by done. change (mem (set_mem m d2)) with m. rewrite <- (overwritten_app _ dst [c] bs').
  unfold overwritten at 1 2. destruct (_ && _); [done|]. by apply A3.
Qed.

(** A reader that finds nothing and has been killed fails. *)
Lemma consoleread_killed pr' d l dst n e : procs d !! p = Some pr' -> p_killed pr' <> 0 -> holds (consS d) l -> ready l = [] -> 0 < n ->
  consoleread true dst n (mkWorld (wkd d s) e) = Ok (-1, []) (mkWorld (wkd d s) e).
Proof using Hc Hp.
  intros Hpr Hk Hh Hr Hn. pose proof (calm_quiet p s Hc) as Q. unfold consoleread.
  rewrite (bind_Ok _ _ _ _ _ (acquire_quiet _ (quiet_wkd d s Q) LCons e (proj1 cons_lone))), acq_wkd.
  assert (settled (acq LCons s)) as Hs by (apply (settled_acq LCons s); [apply Q|rewrite (qt_noff s Q); lia]).
  assert (noff (acq LCons s) < 2147483646) as Hno by (rewrite noff_acq by apply Q; rewrite (qt_noff s Q); lia).
  destruct (Z.to_nat n) as [|k] eqn:Ek; [lia|]. cbn [consoleread_loop].
  assert (console_wait (mkWorld (wkd d (acq LCons s)) e) = Ok true (mkWorld (wkd d s) e)) as E.
  { unfold console_wait. apply wait_loop_once. erewrite bind_Ok by apply getd_wkd.
    rewrite (ready_empty _ _ Hh), bool_decide_eq_true_2 by done.
    rewrite (bind_Ok _ _ _ _ _ (myproc_ok (wkd d (acq LCons s)) e Hs Hno)).
    change (cur (wkd d (acq LCons s))) with (cur (acq LCons s)). rewrite cur_acq, (calm_cur p s Hc) by apply Q. unfold nonnull, the. run.
    rewrite (bind_Ok _ _ _ _ _ (killed_ok p pr' (wkd d (acq LCons s)) e Hs Hno ltac:(change (is_free (acq LCons s) (LProc p)); apply is_free_acq_ne; [done|]; by apply Q, all_locks_proc) Hpr)).
    unfold z2b. destruct (Z.eqb_spec (p_killed pr') 0); [done|]. cbn [negb]. by rewrite (bind_Ok _ _ _ _ _ (release_quiet s Q LCons d e (proj1 cons_lone))). }
  rewrite (bind_Ok _ _ _ (None, []) (mkWorld (wkd d s) e)); [done|]. by rewrite (bind_Ok _ _ _ _ _ E).
Qed.

(** consoleread returns what the line editor says. *)
Lemma consoleread_line dst n kss l bs l' kss' out e :
  reading p pr l (kd s) -> Forall (Forall is_key) kss -> 0 <= n < 2 ^ 31 ->
  user_ok (mem (kd s)) (p_pagetable pr) -> 0 <= dst -> (forall i, (i < Z.to_nat n)%nat -> writable (mem (kd s)) (p_pagetable pr) (dst + Z.of_nat i)) ->
  reads (Z.to_nat n) true kss l = Some (bs, l', kss', out) ->
  exists d', consoleread true dst n (mkWorld s (typist p kss ++ e)) = Ok (Z.of_nat (length bs), []) (mkWorld (wkd d' s) (typist p kss' ++ e)) /\
    reading p pr l' d' /\ went p out (kd s) d' /\
    (forall va, 0 <= va -> access (mem d') (p_pagetable pr) va = overwritten (access (mem (kd s)) (p_pagetable pr)) dst bs va) /\
    kept (mem (kd s)) (mem d') (p_pagetable pr) /\ user_ok (mem d') (p_pagetable pr).
Proof using Lk Hc Hp Ha.
  intros R Hk Hn Hu Hd Hw Hr. pose proof (calm_quiet p s Hc) as Q. unfold consoleread.
  rewrite (wrap_u_small 32) by (change (2 ^ 31) with 2147483648 in Hn; change (2 ^ 32) with 4294967296; lia).
  destruct (consoleread_loop_ok (Z.to_nat n) true dst n n kss l bs l' kss' out (kd s) e R Hk ltac:(lia) (Z.ltb_irrefl n) ltac:(lia) Hu Hd Hw Hr)
    as (d' & E & R' & W & A).
  rewrite <- acq_wkd, wkd_self in E. exists d'. rewrite (bind_Ok _ _ _ _ _ (acquire_quiet s Q LCons _ (proj1 cons_lone))).
  rewrite (bind_Ok _ _ _ _ _ E), (bind_Ok _ _ _ _ _ (release_quiet s Q LCons d' _ (proj1 cons_lone))).
  pose proof (reads_length _ _ _ _ _ _ _ _ Hr) as Hl. split; [|by split].
  replace (n - (n - Z.of_nat (length bs))) with (Z.of_nat (length bs)) by lia.
  by rewrite s32_small by (change (2 ^ 31) with 2147483648 in *; lia).
Qed.
End reader.
