(* ===== verification/ReadCall.v ===== *)
(** * A read of the console, from the system call to the keyboard

    syscall, sys_read, argfd and fileread down to consoleread, for a process
    whose trap frame holds the call; the count comes back in its a0. *)

From S2P Require Import Prelude Prog State Spinlock Printf Switch Dispatch CStr Kalloc Vm PageTable UserMem Proc Sleeplock Sleep Bio Console File Args Sysfile Syscall Main ConsoleSpec.

Implicit Types (s t : kstate) (d : kdata).

(** ** The system call *)

(** The user's memory, and apart from it the trap frame *)
Record framed `{LinkSyms} (pr : proc) (m : gmap Z (list Z)) : Prop := {
  fr_user : user_ok m (p_pagetable pr);
  fr_aligned : p_trapframe pr `mod` PGSIZE = 0;
  fr_page : page_ok m (p_trapframe pr);
  fr_private : private m (p_pagetable pr) (p_trapframe pr);
  fr_table : p_trapframe pr ∉ tables m 2 (p_pagetable pr)
}.

(** The frame holds the call [num] with its arguments. *)
Record called `{LinkSyms} (pr : proc) (m : gmap Z (list Z)) (num a0 a1 a2 : Z) : Prop := {
  cl_frame : framed pr m;
  cl_a7 : word m (p_trapframe pr + 8 * 21) = num;
  cl_a0 : word m (p_trapframe pr + 8 * 14) = a0;
  cl_a1 : word m (p_trapframe pr + 8 * 15) = a1;
  cl_a2 : word m (p_trapframe pr + 8 * 16) = a2
}.

Definition put_call (pr : proc) (num a0 a1 a2 : Z) (m : gmap Z (list Z)) : gmap Z (list Z) :=
  let tf := p_trapframe pr in
  store (tf + 8 * 16) a2 (store (tf + 8 * 15) a1 (store (tf + 8 * 14) a0 (store (tf + 8 * 21) num m))).

(** The descriptor [fd] is the console, open for reading. *)
Definition on_console (pr : proc) (fd : nat) d : Prop :=
  exists f x, p_ofile pr !! fd = Some (Some f) /\ ftable d !! f = Some x /\ f_readable x <> 0 /\ f_type x = FD_DEVICE /\
    f_major x = Z.of_nat CONSOLE /\ devsw d !! CONSOLE = Some (Some DevConsole).

Section readcall.
Context `{L : LinkSyms} `{Lk : !LinkSymsOk L} `{!Disk, !StackBytes, !FileSys}.
Context (p : nat) (s : kstate) (Hc : calm p s) (Hp : (p < NPROC)%nat) (pr : proc) (Ha : active pr).

(** The page table when the tables are as they were *)
Lemma tables_kept m m' pt : user_ok m pt -> (forall q, q ∈ tables m 2 pt -> m' !! q = m !! q) ->
  tables m' 2 pt = tables m 2 pt /\ (forall va, pmap m' pt va = pmap m pt va).
Proof using.
  clear Hc Hp Ha. intros [Ht _] Ho. rewrite Forall_forall in Ht. destruct (tables_frame m m' 2 pt) as (Et & _ & Epm); [|by split].
  intros q Hq. split; [by apply heap_aligned, Ht|by apply Ho].
Qed.

(** A register is stored in the frame: the user's memory is the same. *)
Lemma framed_store m m' i v : framed pr m -> 0 <= i < 512 -> m' = store (p_trapframe pr + 8 * i) v m ->
  framed pr m' /\ (forall va, pmap m' (p_pagetable pr) va = pmap m (p_pagetable pr) va) /\
  (forall va, 0 <= va -> access m' (p_pagetable pr) va = access m (p_pagetable pr) va).
Proof using.
  clear Hc Hp Ha. intros [U A B C D] Hi Em. assert (forall pa, pa <> p_trapframe pr -> m' !! pa = m !! pa) as Ho.
  { intros pa Hne. rewrite Em. apply store_ne. by rewrite (proj1 (entry_addr _ i A Hi)). }
  destruct (tables_kept m m' (p_pagetable pr) U) as [Et Epm]; [intros q Hq; apply Ho; by intros ->|].
  assert (forall pa, table_page m pa -> table_page m' pa) as Hpg.
  { intros pa [Hh Hok]. split; [exact Hh|]. rewrite Em. exact (page_ok_store m (p_trapframe pr) i v _ A Hi B Hok). }
  split; [|split; [exact Epm|]].
  - split; [|exact A| | |by rewrite Et].
    + destruct U as [Ht Hu]. split; [rewrite Et; exact (Forall_impl _ _ _ Ht Hpg)|]. intros va w Hva. rewrite Epm, Et. intros Hw Hus.
      destruct (Hu va w Hva Hw Hus) as (H1' & H2' & H3'). split; [exact (Hpg _ H1')|]. split; [exact H2'|]. intros va' w'. rewrite Epm. apply H3'.
    + rewrite Em. exact (page_ok_store m (p_trapframe pr) i v _ A Hi B B).
    + intros va w Hva. rewrite Epm. exact (C va w Hva).
  - intros va Hva. unfold access. destruct (Z.ltb_spec va MAXVA) as [Hm|_]; [|done]. rewrite Epm.
    destruct (pmap m (p_pagetable pr) va) as [w|] eqn:Ew; [|done]. cbn. destruct (is_user w) eqn:Eu; [|done].
    rewrite Ho; [done|]. exact (C va w (conj Hva Hm) Ew Eu).
Qed.

Lemma framed_word m i j v : framed pr m -> 0 <= i < 512 -> 0 <= j < 512 -> 0 <= v < 2 ^ 64 ->
  word (store (p_trapframe pr + 8 * i) v m) (p_trapframe pr + 8 * j) = if decide (i = j) then v else word m (p_trapframe pr + 8 * j).
Proof using.
  clear Hc Hp Ha. intros [_ A B _ _] Hi Hj Hv. exact (word_store m (p_trapframe pr) i j v A B Hi Hj Hv).
Qed.

Lemma store_page m m' a v pa : m' !! pa = m !! pa -> store a v m' !! pa = store a v m !! pa.
Proof using.
  clear Hc Hp Ha. intros E. destruct (decide (pa = page_of a)) as [->|Hne]; [|by rewrite !store_ne].
  unfold store, page_bytes. by rewrite E, !lookup_insert_eq.
Qed.

Lemma called_store m m' num a0 a1 a2 v : called pr m num a0 a1 a2 -> 0 <= v < 2 ^ 64 -> m' = store (p_trapframe pr + 8 * 14) v m ->
  called pr m' num v a1 a2 /\ (forall va, 0 <= va -> access m' (p_pagetable pr) va = access m (p_pagetable pr) va).
Proof using.
  clear Hc Hp Ha. intros [Fr E F G I] Hv Em. destruct (framed_store m m' 14 v Fr ltac:(lia) Em) as (Fr' & _ & Hacc).
  pose proof (fun j Hj => framed_word m 14 j v Fr ltac:(lia) Hj Hv) as Hw. rewrite <- Em in Hw. split; [|exact Hacc]. split; [exact Fr'|..].
  - rewrite (Hw 21) by lia. exact E.
  - by rewrite (Hw 14) by lia.
  - rewrite (Hw 15) by lia. exact G.
  - rewrite (Hw 16) by lia. exact I.
Qed.

(** The registers of a call, put in the frame *)
Lemma put_call_ok m num a0 a1 a2 : framed pr m -> 0 <= num < 2 ^ 64 -> 0 <= a0 < 2 ^ 64 -> 0 <= a1 < 2 ^ 64 -> 0 <= a2 < 2 ^ 64 ->
  called pr (put_call pr num a0 a1 a2 m) num a0 a1 a2 /\
  (forall va, pmap (put_call pr num a0 a1 a2 m) (p_pagetable pr) va = pmap m (p_pagetable pr) va).
Proof using.
  clear Hc Hp Ha. intros F0 H7 H0' H1' H2'. unfold put_call. set (tf := p_trapframe pr).
  set (m1 := store (tf + 8 * 21) num m). destruct (framed_store m m1 21 num F0 ltac:(lia) eq_refl) as (F1 & P1 & _).
  set (m2 := store (tf + 8 * 14) a0 m1). destruct (framed_store m1 m2 14 a0 F1 ltac:(lia) eq_refl) as (F2 & P2 & _).
  set (m3 := store (tf + 8 * 15) a1 m2). destruct (framed_store m2 m3 15 a1 F2 ltac:(lia) eq_refl) as (F3 & P3 & _).
  set (m4 := store (tf + 8 * 16) a2 m3). destruct (framed_store m3 m4 16 a2 F3 ltac:(lia) eq_refl) as (F4 & P4 & _).
  pose proof (fun j Hj => framed_word m 21 j num F0 ltac:(lia) Hj H7) as W1. pose proof (fun j Hj => framed_word m1 14 j a0 F1 ltac:(lia) Hj H0') as W2.
  pose proof (fun j Hj => framed_word m2 15 j a1 F2 ltac:(lia) Hj H1') as W3. pose proof (fun j Hj => framed_word m3 16 j a2 F3 ltac:(lia) Hj H2') as W4.
  fold tf in W1, W2, W3, W4. fold m1 in W1. fold m2 in W2. fold m3 in W3. fold m4 in W4. clearbody m1 m2 m3 m4.
  split; [|intros va; by rewrite P4, P3, P2, P1]. split; [exact F4|..]; fold tf.
  - rewrite (W4 21), (W3 21), (W2 21), (W1 21) by lia. done.
  - rewrite (W4 14), (W3 14), (W2 14) by lia. done.
  - rewrite (W4 15), (W3 15) by lia. done.
  - rewrite (W4 16) by lia. done.
Qed.

(** The frame stays when the user's memory is written. *)
Lemma called_kept m m' num a0 a1 a2 : called pr m num a0 a1 a2 -> kept m m' (p_pagetable pr) -> user_ok m' (p_pagetable pr) ->
  called pr m' num a0 a1 a2.
Proof using.
  clear Hc Hp Ha. intros [[U A B C D] E F G I] K U'. assert (m' !! p_trapframe pr = m !! p_trapframe pr) as Ef by (by apply K).
  destruct (tables_kept m m' (p_pagetable pr) U) as [Et Epm].
  { intros q Hq. apply K. intros va v Hva Hv Hus E'. destruct (proj2 U va v Hva Hv Hus) as (_ & Hn & _). apply Hn. by rewrite E'. }
  assert (forall i, 0 <= i < 512 -> word m' (p_trapframe pr + 8 * i) = word m (p_trapframe pr + 8 * i)) as Hw
    by (intros i Hi; exact (word_frame m m' (p_trapframe pr) i A Hi Ef)).
  split; [split; [exact U'|exact A| | |by rewrite Et]|..].
  - destruct B as (bs & Eb & Lb). exists bs. rewrite Ef. by split.
  - intros va v Hva. rewrite Epm. exact (C va v Hva).
  - rewrite (Hw 21) by lia. exact E.
  - rewrite (Hw 14) by lia. exact F.
  - rewrite (Hw 15) by lia. exact G.
  - rewrite (Hw 16) by lia. exact I.
Qed.

Lemma curproc_calm d e : curproc (mkWorld (wkd d s) e) = Ok p (mkWorld (wkd d s) e).
Proof using Hc.
  clear Hp Ha. pose proof (calm_quiet p s Hc) as Q. unfold curproc. rewrite (bind_Ok _ _ _ _ _ (myproc_ok (wkd d s) e (qt_settled s Q) ltac:(change (noff s < 2147483646); rewrite (qt_noff s Q); lia))).
  change (cur (wkd d s)) with (cur s). by rewrite (calm_cur p s Hc).
Qed.

Lemma get_tf_ok i d e num a0 a1 a2 : procs d !! p = Some pr -> called pr (mem d) num a0 a1 a2 -> 0 <= i < 512 ->
  get_tf p (8 * i) (mkWorld (wkd d s) e) = Ok (word (mem d) (p_trapframe pr + 8 * i)) (mkWorld (wkd d s) e).
Proof using.
  clear Hc Hp Ha. intros Hpr C Hi. unfold get_tf. rewrite (bind_Ok _ _ _ _ _ (get_proc_ok p pr (wkd d s) e Hpr)).
  exact (read64_word (wkd d s) e _ i (fr_aligned _ _ (cl_frame _ _ _ _ _ _ C)) Hi (fr_page _ _ (cl_frame _ _ _ _ _ _ C))).
Qed.

Lemma argraw_ok n d e num a0 a1 a2 : procs d !! p = Some pr -> called pr (mem d) num a0 a1 a2 -> 0 <= n <= 2 ->
  argraw n (mkWorld (wkd d s) e) = Ok (if n =? 0 then a0 else if n =? 1 then a1 else a2) (mkWorld (wkd d s) e).
Proof using Hc.
  clear Hp Ha. intros Hpr C Hn. unfold argraw. rewrite (bind_Ok _ _ _ _ _ (curproc_calm d e)).
  pose proof (fun i => get_tf_ok i d e num a0 a1 a2 Hpr C) as Ht. pose proof C as [_ _ C0 C1 C2].
  assert (n = 0 \/ n = 1 \/ n = 2) as [->|[->| ->]] by lia; cbv beta iota delta [Z.leb Z.compare andb Z.eqb Pos.compare Pos.compare_cont CompOpp Pos.eqb].
  - rewrite <- C0. exact (Ht 14 ltac:(lia)).
  - rewrite <- C1. exact (Ht 15 ltac:(lia)).
  - rewrite <- C2. exact (Ht 16 ltac:(lia)).
Qed.

(** sys_read on the console is consoleread. *)
Lemma sys_read_console fd dst n d e : procs d !! p = Some pr -> called pr (mem d) 5 (Z.of_nat fd) dst n -> (fd < NOFILE)%nat ->
  0 <= n < 2 ^ 31 -> on_console pr fd d ->
  sys_read (mkWorld (wkd d s) e) = ('(r, _) ← consoleread true dst n; mret r) (mkWorld (wkd d s) e).
Proof using Hc.
  clear Hp Ha. intros Hpr C Hfd Hn (f & x & Ho & Hf & Hr & Ht & Hm & Hd). unfold sys_read, argaddr, argint, argfd, argint.
  change (2 ^ 31) with 2147483648 in Hn. unfold NOFILE in Hfd.
  rewrite (bind_Ok _ _ _ _ _ (argraw_ok 1 d e _ _ _ _ Hpr C ltac:(lia))). change (1 =? 0) with false. change (1 =? 1) with true. cbv iota.
  erewrite bind_Ok by (erewrite bind_Ok by exact (argraw_ok 2 d e _ _ _ _ Hpr C ltac:(lia)); reflexivity).
  change (2 =? 0) with false. change (2 =? 1) with false. cbv iota. rewrite s32_small by lia.
  rewrite (bind_Ok _ _ _ (Some (fd, f)) (mkWorld (wkd d s) e)).
  - unfold fileread, get_file, getd. run. change (kd (wkd d s)) with d. rewrite Hf. unfold the. run. destruct (Z.eqb_spec (f_readable x) 0); [done|].
    rewrite Ht. unfold device_of, getd. rewrite Hm. change ((Z.of_nat CONSOLE <? 0) || (NDEV <=? Z.of_nat CONSOLE)) with false. cbv iota. run.
    change (kd (wkd d s)) with d. rewrite Nat2Z.id, Hd. done.
  - erewrite bind_Ok by (erewrite bind_Ok by exact (argraw_ok 0 d e _ _ _ _ Hpr C ltac:(lia)); reflexivity).
    change (0 =? 0) with true. cbv iota. rewrite s32_small by lia. destruct (Z.ltb_spec (Z.of_nat fd) 0), (Z.leb_spec (Z.of_nat NOFILE) (Z.of_nat fd)); unfold NOFILE in *; try lia.
    cbn [orb]. rewrite (bind_Ok _ _ _ _ _ (curproc_calm d e)), (bind_Ok _ _ _ _ _ (get_proc_ok p pr (wkd d s) e Hpr)), Nat2Z.id, Ho.
    done.
Qed.

(** C10: a read of the console from the system call to the keyboard and back.  A
    process calls read on a descriptor of the console; the characters arrive at
    the serial port in bursts, one each time the reader sleeps, and uartintr and
    consoleintr edit them: erase, kill, end of file, a full buffer.  syscall
    then returns, with exactly what the line editor [reads] says: the number of
    bytes in the user's a0, the bytes in the user's memory at [dst], the echo on
    the screen and the rest of the input in the ring.  The pages the user cannot
    reach, the rest of the trap frame among them, the reader's entry and the other
    data of the kernel are as they were, but for the sleepers woken. *)
Theorem read_console fd dst n kss l bs l' kss' out e :
  reading p pr l (kd s) -> Forall (Forall is_key) kss -> (fd < NOFILE)%nat -> 0 <= n < 2 ^ 31 ->
  called pr (mem (kd s)) 5 (Z.of_nat fd) dst n -> on_console pr fd (kd s) -> 0 <= dst -> (forall i, (i < Z.to_nat n)%nat -> writable (mem (kd s)) (p_pagetable pr) (dst + Z.of_nat i)) ->
  reads (Z.to_nat n) true kss l = Some (bs, l', kss', out) ->
  exists d', syscall (mkWorld s (typist p kss ++ e)) = Ok tt (mkWorld (wkd d' s) (typist p kss' ++ e)) /\
    called pr (mem d') 5 (Z.of_nat (length bs)) dst n /\ reading p pr l' d' /\ went p out (kd s) d' /\
    (forall va, 0 <= va -> access (mem d') (p_pagetable pr) va = overwritten (access (mem (kd s)) (p_pagetable pr)) dst bs va) /\
    (forall pa, private (mem (kd s)) (p_pagetable pr) pa ->
       mem d' !! pa = store (p_trapframe pr + 8 * 14) (Z.of_nat (length bs)) (mem (kd s)) !! pa).
Proof using Lk Hc Hp Ha.
  intros R Hk Hfd Hn C Hon Hd Hw Hr. pose proof (fr_user _ _ (cl_frame _ _ _ _ _ _ C)) as Hu. pose proof (rg_proc _ _ _ _ R) as Hpr.
  destruct (consoleread_line p s Hc Hp pr Ha dst n kss l bs l' kss' out e R Hk Hn Hu Hd Hw Hr) as (d1 & E & R1 & W1 & A1 & K1 & U1).
  pose proof (called_kept _ _ _ _ _ _ C K1 U1) as C1.
  pose proof (reads_length _ _ _ _ _ _ _ _ Hr) as Hl. change (2 ^ 31) with 2147483648 in Hn.
  destruct (called_store _ _ _ _ _ _ (Z.of_nat (length bs)) C1 ltac:(lia) eq_refl) as [C2 A2].
  exists (set_mem (store (p_trapframe pr + 8 * 14) (Z.of_nat (length bs)) (mem d1)) d1). split; [|split; [exact C2|split; [by apply reading_set_mem|split; [|split]]]].
  - unfold syscall. rewrite <- (wkd_self s) at 1. rewrite (bind_Ok _ _ _ _ _ (curproc_calm _ _)).
    rewrite (bind_Ok _ _ _ _ _ (get_tf_ok 21 _ _ _ _ _ _ Hpr C ltac:(lia))), (cl_a7 _ _ _ _ _ _ C).
    change (handler (s32 5)) with (Some sys_read). cbv iota beta.
    rewrite (bind_Ok _ _ _ (Z.of_nat (length bs)) (mkWorld (wkd d1 s) (typist p kss' ++ e))).
    + unfold set_tf. rewrite (bind_Ok _ _ _ _ _ (get_proc_ok p pr (wkd d1 s) _ (rg_proc _ _ _ _ R1))), wrap_u_small by lia.
      exact (write64_word (wkd d1 s) _ (p_trapframe pr) 14 _ (fr_aligned _ _ (cl_frame _ _ _ _ _ _ C1)) ltac:(lia) (fr_page _ _ (cl_frame _ _ _ _ _ _ C1))).
    + rewrite (sys_read_console fd dst n (kd s) _ Hpr C Hfd Hn Hon), wkd_self. by rewrite (bind_Ok _ _ _ _ _ E).
  - rewrite <- (app_nil_r out). apply (went_trans p _ _ _ d1); [done|]. pose proof (went_refl p (consS d1) (store (p_trapframe pr + 8 * 14) (Z.of_nat (length bs)) (mem d1)) d1) as W. by destruct d1.
  - intros va Hva. rewrite <- A1 by done. exact (A2 va Hva).
  - intros pa Hpa. exact (store_page _ _ _ _ _ (K1 pa Hpa)).
Qed.
End readcall.

(** ** A shell reads a command *)

#[local] Existing Instance kernel_syms.
#[local] Existing Instance kernel_syms_ok.
#[local] Instance pad_example : StackBytes := {| stat_padding := [0; 0; 0; 0] |}.

Definition console_file : file := set_f_major (Z.of_nat CONSOLE) (set_f_readable 1 (set_f_type FD_DEVICE file0)).

Definition reader0 : proc :=
  set_p_ofile (<[0%nat := Some 0%nat]> (p_ofile proc0)) (set_p_trapframe t_new (set_p_state RUNNING (set_p_pagetable t_root proc0))).

Definition reader_at (m : gmap Z (list Z)) : kstate :=
  mapd (fun d => set_devsw (<[CONSOLE := Some DevConsole]> (devsw d)) (set_ftable (<[0%nat := console_file]> (ftable d))
    (set_mem m (set_procs (<[0%nat := reader0]> (procs d)) d)))) running0.

(** read(0, 100, 80), as user/usys.S leaves it in the registers *)
Definition call_mem : gmap Z (list Z) := put_call reader0 5 0 100 80 (mem (kd t_user)).

Definition console_reader : kstate := reader_at call_mem.

Lemma reader_calm m : calm 0 (reader_at m).
Proof. split; [exact settled_running0|reflexivity|reflexivity|exact running0_free]. Qed.

Lemma reader_reading m : reading 0 reader0 {| ready := []; edit := [] |} (kd (reader_at m)).
Proof.
  split; [by split|done| |done]. split; try done; cbn; [lia|]. apply not_elem_of_nil.
Qed.

Lemma reader_console m : on_console reader0 0 (kd (reader_at m)).
Proof. by exists 0%nat, console_file. Qed.

Lemma reader_mem m : mem (kd (reader_at m)) = m.
Proof. reflexivity. Qed.

(** The page t_new is not the user's and not a table. *)
Lemma reader_framed : framed reader0 (mem (kd t_user)).
Proof.
  destruct t_user_facts as (l & _ & _ & Ht & _ & Hn & _). split; [exact t_user_ok|done| | |].
  - exists (junk 0). split; [exact Hn|apply length_replicate].
  - intros va v Hva Hv _. destruct (t_entry va v Hva Hv) as [_ ->]. by rewrite (proj1 t_pte_page).
  - intros Hin%Ht. by apply t_new_out.
Qed.

Lemma reader_called : called reader0 call_mem 5 (Z.of_nat 0) 100 80 /\ (forall va, pmap call_mem t_root va = pmap (mem (kd t_user)) t_root va).
Proof. apply put_call_ok; [exact reader_framed|lia..]. Qed.

Lemma t_user_writable va : 0 <= va < PGSIZE -> writable (mem (kd t_user)) t_root va.
Proof.
  intros Hva. unfold PGSIZE in Hva. split; [change MAXVA with 274877906944; lia|]. exists t_pte. split; [|done].
  destruct t_user_facts as (l & _ & _ & _ & _ & _ & Hg). rewrite Hg by (change MAXVA with 274877906944; lia). unfold with_range.
  assert (va / PGSIZE = 0) as -> by (apply Z.div_small; done). done.
Qed.

Lemma reader_room i : (i < Z.to_nat 80)%nat -> writable (mem (kd console_reader)) (p_pagetable reader0) (100 + Z.of_nat i).
Proof.
  intros Hi. unfold console_reader. rewrite reader_mem. apply (writable_frame (mem (kd t_user))); [apply reader_called|].
  apply t_user_writable. change (Z.to_nat 80) with 80%nat in Hi. unfold PGSIZE. lia.
Qed.

(** "lx", a deletion, "s" and return, and then more *)
Definition command : list (list Z) := [[108; 120; 0x7f; 115; 13]; [119; 99; 13]].

Lemma command_keys : Forall (Forall is_key) command.
Proof. repeat constructor; done. Qed.

Lemma read_console_witness :
  exists d', syscall (mkWorld console_reader (typist 0 command ++ [])) = Ok tt (mkWorld (wkd d' console_reader) (typist 0 [[119; 99; 13]] ++ [])) /\
    called reader0 (mem d') 5 (Z.of_nat (length [108; 115; 10])) 100 80 /\
    reading 0 reader0 {| ready := []; edit := [] |} d' /\ went 0 [108; 120; 8; 32; 8; 115; 10] (kd console_reader) d' /\
    (forall va, 0 <= va -> access (mem d') (p_pagetable reader0) va =
       overwritten (access (mem (kd console_reader)) (p_pagetable reader0)) 100 [108; 115; 10] va) /\
    (forall pa, private (mem (kd console_reader)) (p_pagetable reader0) pa ->
       mem d' !! pa = store (p_trapframe reader0 + 8 * 14) (Z.of_nat (length [108; 115; 10])) (mem (kd console_reader)) !! pa).
Proof.
  exact (read_console 0 console_reader (reader_calm call_mem) ltac:(unfold NPROC; lia) reader0 (conj eq_refl (conj eq_refl eq_refl)) 0 100 80 command
    {| ready := []; edit := [] |} [108; 115; 10] {| ready := []; edit := [] |} [[119; 99; 13]] [108; 120; 8; 32; 8; 115; 10] []
    (reader_reading call_mem) command_keys ltac:(unfold NOFILE; lia) ltac:(lia) (proj1 reader_called) (reader_console call_mem) ltac:(lia) reader_room eq_refl).
Defined.
