(* ===== verification/User.v ===== *)
(** * Programs of user mode

    A program of user/ computes, makes the system calls of user/user.h and
    exits: it is a tree [U] of the calls it makes, with what it does for each
    result, so that the two returns of fork are both in it.  A call that fills
    a buffer returns what it stores in it.  malloc and free, which hand out and
    take back private memory of the process ([Umalloc]), are among the calls, and
    so are the accesses to addresses a program computes: [RAW] is a system call
    by its number, an argument of which is a number or an address ([inl]) or a
    pointer to bytes the program has ([inr]), [EXEC] is exec with such pointers,
    [LOAD] and [STORE] are loads and stores, and [STACK] is the stack pointer.  The machine does not return from a
    load or store that the kernel kills the process for.

    [interp] runs a program that does not fork on a machine, the interface
    [Sys] of which says what each call does to its state: programs that read
    and write are verified against laws of that machine. *)

From S2P Require Import Prelude Prog.

(** ** Calls *)

Inductive call :=
| SYS_fork (class : Z)
| SYS_forkprio (class : Z)
| SYS_wait
| SYS_pipe
| SYS_read (fd n : Z)
| SYS_write (fd : Z) (bs : list Z)
| SYS_close (fd : Z)
| SYS_kill (pid : Z)
| SYS_exec (path : list Z) (argv : list (list Z))
| SYS_open (path : list Z) (omode : Z)
| SYS_mknod (path : list Z) (major minor : Z)
| SYS_unlink (path : list Z)
| SYS_fstat (fd : Z)
| SYS_link (old new : list Z)
| SYS_mkdir (path : list Z)
| SYS_chdir (path : list Z)
| SYS_dup (fd : Z)
| SYS_getpid
| SYS_sbrk (n : Z)
| SYS_sleep (n : Z)
| SYS_uptime
| MALLOC (n : Z)
| FREE (p : Z)
| RAW (num : Z) (args : list (Z + list Z))
| EXEC (path : Z + list Z) (argv : list (Z + list Z))
| LOAD (a : Z) (n : nat)
| STORE (a : Z) (bs : list Z)
| STACK.

(** ** Programs *)

(** [Exit] ends the process; [Crash] is what C leaves undefined or the kernel
    kills the process for. *)
Inductive U (A : Type) : Type :=
| Ret (a : A)
| Exit (status : Z)
| Crash (why : string)
| Vis (c : call) (k : Z * list Z -> U A).
Arguments Ret {A} _.
Arguments Exit {A} _.
Arguments Crash {A} _.
Arguments Vis {A} _ _.

Fixpoint u_bind {A B} (k : A -> U B) (m : U A) : U B :=
  match m with
  | Ret a => k a
  | Exit st => Exit st
  | Crash why => Crash why
  | Vis c f => Vis c (fun r => u_bind k (f r))
  end.

#[export] Instance U_ret : MRet U := @Ret.
#[export] Instance U_bind : MBind U := fun A B k m => u_bind k m.

Definition need {A} (why : string) (o : option A) : U A := match o with Some a => mret a | None => Crash why end.

(** [for(x in l) body] *)
Fixpoint u_each {B} (l : list B) (body : B -> U unit) : U unit :=
  match l with
  | [] => mret tt
  | x :: l => body x;; u_each l body
  end.

(** [for(x in l) acc = body(acc)] *)
Fixpoint u_fold {A B} (l : list B) (body : A -> B -> U A) (acc : A) : U A :=
  match l with
  | [] => mret acc
  | x :: l => acc' ← body acc x; u_fold l body acc'
  end.

Definition trap (c : call) : U (Z * list Z) := Vis c Ret.
Definition trap0 (c : call) : U Z := Vis c (fun r => Ret r.1).

Definition fork (class : Z) : U Z := trap0 (SYS_fork class).
Definition forkprio (class : Z) : U Z := trap0 (SYS_forkprio class).
Definition exit {A} (st : Z) : U A := Exit st.
(** [wait(0)] *)
Definition wait : U Z := trap0 SYS_wait.
(** The result and the two descriptors *)
Definition pipe : U (Z * list Z) := trap SYS_pipe.
Definition read (fd n : Z) : U (Z * list Z) := trap (SYS_read fd n).
Definition write (fd : Z) (bs : list Z) : U Z := trap0 (SYS_write fd bs).
Definition close (fd : Z) : U Z := trap0 (SYS_close fd).
Definition kill (pid : Z) : U Z := trap0 (SYS_kill pid).
Definition exec (path : list Z) (argv : list (list Z)) : U Z := trap0 (SYS_exec path argv).
Definition open (path : list Z) (omode : Z) : U Z := trap0 (SYS_open path omode).
Definition mknod (path : list Z) (major minor : Z) : U Z := trap0 (SYS_mknod path major minor).
Definition unlink (path : list Z) : U Z := trap0 (SYS_unlink path).
Definition fstat (fd : Z) : U (Z * list Z) := trap (SYS_fstat fd).
Definition link (old new : list Z) : U Z := trap0 (SYS_link old new).
Definition mkdir (path : list Z) : U Z := trap0 (SYS_mkdir path).
Definition chdir (path : list Z) : U Z := trap0 (SYS_chdir path).
Definition dup (fd : Z) : U Z := trap0 (SYS_dup fd).
Definition getpid : U Z := trap0 SYS_getpid.
Definition sbrk (n : Z) : U Z := trap0 (SYS_sbrk n).
Definition sleep (n : Z) : U Z := trap0 (SYS_sleep n).
Definition uptime : U Z := trap0 SYS_uptime.
Definition malloc (n : Z) : U Z := trap0 (MALLOC n).
Definition free (p : Z) : U unit := trap (FREE p);; mret tt.
Definition raw (num : Z) (args : list (Z + list Z)) : U Z := trap0 (RAW num args).
Definition exec_at (path : Z + list Z) (argv : list (Z + list Z)) : U Z := trap0 (EXEC path argv).
(** The [n] bytes at [a], as an unsigned number *)
Definition load (a : Z) (n : nat) : U Z := '(_, bs) ← trap (LOAD a n); mret (foldr (fun b v => b + 256 * v) 0 bs).
Definition store (a : Z) (bs : list Z) : U unit := trap (STORE a bs);; mret tt.
Definition r_sp : U Z := trap0 STACK.

Lemma u_ret_bind {A B} (a : A) (k : A -> U B) : mret a ≫= k = k a.
Proof. done. Qed.

Lemma need_Some {A B} why (a : A) (k : A -> U B) : need why (Some a) ≫= k = k a.
Proof. done. Qed.

(** Steps over what makes no call. *)
Create Rewrite HintDb urun.
#[export] Hint Rewrite @u_ret_bind @need_Some : urun.
Ltac urun := autorewrite with urun.

(** ** Running a program *)

Class Sys (S : Type) := sys : call -> Prog S (Z * list Z).

Section interp.
Context {S : Type} `{!Sys S}.

(** [inl]: the program exited. *)
Fixpoint interp {A} (m : U A) : Prog S (Z + A) :=
  match m with
  | Ret a => mret (inr a)
  | Exit st => mret (inl st)
  | Crash why => fault why
  | Vis c k => r ← sys c; interp (k r)
  end.

Lemma interp_bind {A B} (m : U A) (k : A -> U B) w :
  interp (m ≫= k) w = (r ← interp m; match r with inl st => mret (inl st) | inr a => interp (k a) end) w.
Proof.
  unfold mbind at 1, U_bind. revert w. induction m as [a|st|why|c f IH]; intros w; cbn [u_bind interp]; [done..|].
  rewrite bind_assoc. apply bind_ext. intros r w' _. apply IH.
Qed.

Lemma interp_Ok {A B} (m : U A) (k : A -> U B) w a w' :
  interp m w = Ok (inr a) w' -> interp (m ≫= k) w = interp (k a) w'.
Proof. intros E. rewrite interp_bind. by rewrite (bind_Ok _ _ _ _ _ E). Qed.

Lemma interp_exit {A B} (m : U A) (k : A -> U B) w st w' :
  interp m w = Ok (inl st) w' -> interp (m ≫= k) w = Ok (inl st) w'.
Proof. intros E. rewrite interp_bind. by rewrite (bind_Ok _ _ _ _ _ E). Qed.

Lemma interp_trap c w r w' : sys c w = Ok r w' -> interp (trap c) w = Ok (inr r) w'.
Proof. intros E. cbn. by rewrite (bind_Ok _ _ _ _ _ E). Qed.

Lemma interp_trap0 c w r bs w' : sys c w = Ok (r, bs) w' -> interp (trap0 c) w = Ok (inr r) w'.
Proof. intros E. cbn. by rewrite (bind_Ok _ _ _ _ _ E). Qed.
End interp.
