(* ===== verification/Ulib.v ===== *)
(** * The user library: strings and system calls

    user/ulib.c.  As in [CStr], a pointer into an array is the list of what
    follows it, and [None] a read past its end.

    The theorem: gets returns a line of its input, or as much as fits. *)

From S2P Require Import Prelude Prog CStr User.

(** The wrapper that calls main *)
Definition start (main : U unit) : U unit := main;; exit 0.

(** ** Strings *)

(** [strcpy(s, t)]: the bytes written, up to and with the terminator *)
Fixpoint strcpy_bytes (t : list Z) : option (list Z) :=
  match t with
  | [] => None
  | c :: t => if negb (c =? 0) then cons c <$> strcpy_bytes t else Some [0]
  end.

Definition strcpy (s t : list Z) : option (list Z) :=
  bs ← strcpy_bytes t;
  if (length bs <=? length s)%nat then Some (write_at 0 bs s) else None.

(** The loops of strlen and memset are those of kernel/string.c. *)
Definition strlen (s : list Z) : option Z := CStr.strlen s.
Definition memset (dst : list Z) (c : Z) (n : nat) : option (list Z) :=
  if (n <=? length dst)%nat then Some (CStr.memset c n dst) else None.

Fixpoint strcmp (p q : list Z) : option Z :=
  match p, q with
  | a :: p, b :: q => if negb (a =? 0) && (a =? b) then strcmp p q else Some (u8 a - u8 b)
  | _, _ => None
  end.

(** The index of the first [c], if the string has one. *)
Fixpoint strchr (s : list Z) (c : Z) : option (option nat) :=
  match s with
  | [] => None
  | a :: s =>
    if a =? 0 then Some None else
    if a =? c then Some (Some O) else
    option_map S <$> strchr s c
  end.

(** ['0' <= c && c <= '9'] *)
Definition is_digit (c : Z) : bool := (48 <=? c) && (c <=? 57).

Fixpoint atoi_loop (s : list Z) (n : Z) : option Z :=
  match s with
  | [] => None
  | c :: s => if is_digit c then atoi_loop s (s32 (n * 10 + c - 48)) else Some n
  end.

Definition atoi (s : list Z) : option Z := atoi_loop s 0.

(** The signed comparison of memcmp is one of [char]s, which are unsigned here. *)
Fixpoint memcmp (p1 p2 : list Z) (n : nat) {struct n} : option Z :=
  match n with
  | O => Some 0
  | S n =>
    match p1, p2 with
    | a :: p1, b :: p2 => if negb (a =? b) then Some (a - b) else memcmp p1 p2 n
    | _, _ => None
    end
  end.

(** On one array with two indices; [copy_up] and [copy_down] are the loops. *)
Definition memmove (m : list Z) (vdst vsrc n : nat) : option (list Z) :=
  if (vdst <? vsrc)%nat then copy_up m vdst vsrc n
  else copy_down m (vdst + n) (vsrc + n) n.

Definition memcpy (m : list Z) (dst src n : nat) : option (list Z) := memmove m dst src n.

(** ** Input *)

Implicit Types (buf : list Z).

(** [buf[i] = c] *)
Definition put buf (i c : Z) : U (list Z) :=
  if (0 <=? i) && (i <? Z.of_nat (length buf)) then mret (<[Z.to_nat i := c]> buf) else Crash "buf".

(** The loop of gets: the index it ends at and the buffer. *)
Fixpoint gets_loop (fuel : nat) buf (max i : Z) : U (Z * list Z) :=
  if negb (i + 1 <? max) then mret (i, buf) else
  match fuel with
  | O => Crash "gets fuel"
  | S fuel =>
    '(cc, cs) ← read 0 1;
    if cc <? 1 then mret (i, buf) else
    c ← need "read" (head cs);
    buf ← put buf i c;
    if (c =? 10) || (c =? 13) then mret (i + 1, buf) else
    gets_loop fuel buf max (i + 1)
  end.

Definition gets buf (max : Z) : U (list Z) :=
  '(i, buf) ← gets_loop (Z.to_nat max) buf max 0;
  put buf i 0.

(** The result of fstat and the structure it filled. *)
Definition stat (n : list Z) : U (Z * list Z) :=
  fd ← open n O_RDONLY;
  if fd <? 0 then mret (-1, []) else
  '(r, st) ← fstat fd;
  _ ← close fd;
  mret (r, st).

(** ** Lemmas *)

Lemma strchr_spec s cs c : is_cstring s cs -> c <> 0 ->
  exists r, strchr s c = Some r /\
    match r with
    | Some i => cs !! i = Some c /\ c ∉ take i cs
    | None => c ∉ cs
    end.
Proof.
  revert s. induction cs as [|a cs IH]; intros s (rest & -> & H0) Hc; cbn.
  - exists None. split; [done|]. apply not_elem_of_nil.
  - apply not_elem_of_cons in H0 as [Ha H0]. destruct (Z.eqb_spec a 0); [congruence|].
    destruct (Z.eqb_spec a c) as [->|Hne]; [exists (Some O); split; [done|]; split; [done|]; apply not_elem_of_nil|].
    destruct (IH (cs ++ 0 :: rest)) as (r & -> & Hr); [by exists rest|done|]. cbn. eexists. split; [done|].
    destruct r as [i|]; cbn.
    + destruct Hr as [Hi Hn]. split; [done|]. apply not_elem_of_cons. by split.
    + apply not_elem_of_cons. by split.
Qed.

Lemma umemmove_spec m dst src n : (dst + n <= length m)%nat -> (src + n <= length m)%nat ->
  memmove m dst src n = Some (write_at dst (read_at src n m) m).
Proof. intros Hd Hs. unfold memmove. destruct (Nat.ltb_spec dst src); [apply copy_up_eq; lia|apply copy_down_eq; lia]. Qed.

(** ** Reading lines *)

(** What a program sees of a file it reads and of its standard output: a read
    of [n] bytes returns some of those that are left, at least one if it can;
    a write appends. *)
Record stream_law {S} `{!Sys S} (fd : Z) (input output : S -> list Z) : Prop := {
  read_law s e n : 0 <= n -> exists k s', sys (SYS_read fd n) (mkWorld s e) = Ok (Z.of_nat k, take k (input s)) (mkWorld s' e) /\
    Z.of_nat k <= n /\ (k <= length (input s))%nat /\ (k = 0%nat -> n = 0 \/ input s = []) /\
    input s' = drop k (input s) /\ output s' = output s;
  write_law s e bs : exists s', sys (SYS_write 1 bs) (mkWorld s e) = Ok (Z.of_nat (length bs), []) (mkWorld s' e) /\
    input s' = input s /\ output s' = output s ++ bs
}.

(** The first [n] bytes, up to and with the end of the line. *)
Fixpoint take_line (n : nat) (bs : list Z) : list Z :=
  match n, bs with
  | Datatypes.S n, c :: bs => c :: if (c =? 10) || (c =? 13) then [] else take_line n bs
  | _, _ => []
  end.

Lemma length_take_line n bs : (length (take_line n bs) <= n)%nat.
Proof.
  revert bs. induction n as [|n IH]; intros [|c bs]; cbn; [lia..|]. destruct (_ || _); cbn; [lia|]. specialize (IH bs). lia.
Qed.

Section gets.
Context {S : Type} `{!Sys S} (input output : S -> list Z) (R : stream_law 0 input output).

Lemma put_ok buf i c (w : world S) : 0 <= i < Z.of_nat (length buf) -> interp (put buf i c) w = Ok (inr (write_at (Z.to_nat i) [c] buf)) w.
Proof.
  intros Hi. unfold put. destruct (Z.leb_spec 0 i), (Z.ltb_spec i (Z.of_nat (length buf))); try lia. cbn [andb].
  by rewrite write_at_insert by lia.
Qed.

Lemma gets_loop_spec fuel buf max i s e : 0 <= i < max -> max <= Z.of_nat (length buf) -> (Z.to_nat (max - i) <= fuel)%nat ->
  let l := take_line (Z.to_nat (max - 1 - i)) (input s) in
  exists s', interp (gets_loop fuel buf max i) (mkWorld s e) = Ok (inr (i + Z.of_nat (length l), write_at (Z.to_nat i) l buf)) (mkWorld s' e) /\
    input s' = drop (length l) (input s) /\ output s' = output s.
Proof using R.
  revert buf i s. induction fuel as [|fuel IH]; intros buf i s Hi Hm Hf l; [lia|]. cbn [gets_loop].
  destruct (Z.ltb_spec (i + 1) max) as [Hlt|Hge]; cbn [negb].
  2: { assert (l = []) as -> by (unfold l; by replace (Z.to_nat (max - 1 - i)) with O by lia).
       exists s. rewrite write_at_nil. cbn. by rewrite Z.add_0_r. }
  assert (exists n, Z.to_nat (max - 1 - i) = Datatypes.S n /\ Z.to_nat (max - 1 - (i + 1)) = n) as (n & En & En').
  { exists (Z.to_nat (max - 1 - (i + 1))). lia. }
  destruct (read_law _ _ _ R s e 1) as (k & s1 & E & Hk & Hl & H0 & Hin & Hout); [lia|].
  rewrite (interp_Ok (read 0 1) _ _ _ _ (interp_trap _ _ _ _ E)).
  destruct (Z.ltb_spec (Z.of_nat k) 1) as [Hz|Hpos].
  - destruct (H0 ltac:(lia)) as [?|He]; [lia|]. assert (l = []) as -> by (unfold l; by rewrite He, En).
    exists s1. rewrite write_at_nil. cbn. rewrite Z.add_0_r. split; [done|]. rewrite Hin, He. by rewrite drop_nil.
  - assert (k = 1%nat) as -> by lia. destruct (input s) as [|c bs] eqn:Es; [cbn in Hl; lia|]. cbn [take drop head] in *.
    urun. rewrite (interp_Ok _ _ _ _ _ (put_ok buf i c _ ltac:(lia))).
    assert (l = c :: if (c =? 10) || (c =? 13) then [] else take_line n bs) as El by (unfold l; by rewrite En).
    assert (length l <= Z.to_nat (max - 1 - i))%nat as Hll by apply length_take_line.
    destruct ((c =? 10) || (c =? 13)); rewrite El in *.
    + exists s1. split; [done|]. by rewrite Hin.
    + assert (length (write_at (Z.to_nat i) [c] buf) = length buf) as Hlen by (apply length_write_at; cbn; lia).
      destruct (IH (write_at (Z.to_nat i) [c] buf) (i + 1) s1) as (s2 & E2 & Hin2 & Hout2); [lia|lia|lia|].
      rewrite Hin, drop_0, En' in *. exists s2. split; [|split; [done|by etrans]]. etrans; [exact E2|].
      do 2 f_equal. f_equal; [cbn [length]; lia|]. change (c :: take_line n bs) with ([c] ++ take_line n bs).
      rewrite write_at_app by (cbn [length] in *; lia). f_equal. cbn. lia.
Qed.

(** gets reads a line of its input, or as much as fits the buffer, and
    terminates it. *)
Lemma gets_line s e buf max : 0 < max <= Z.of_nat (length buf) ->
  let l := take_line (Z.to_nat max - 1) (input s) in
  exists s', interp (gets buf max) (mkWorld s e) = Ok (inr (write_at 0 (l ++ [0]) buf)) (mkWorld s' e) /\
    input s' = drop (length l) (input s) /\ output s' = output s.
Proof using R.
  intros Hm l. unfold gets. destruct (gets_loop_spec (Z.to_nat max) buf max 0 s e) as (s1 & E & Hin & Hout); [lia..|].
  replace (Z.to_nat (max - 1 - 0)) with (Z.to_nat max - 1)%nat in * by lia. fold l in E, Hin.
  assert (length l <= Z.to_nat max - 1)%nat as Hl by apply length_take_line. change (Z.to_nat 0) with O in E.
  assert (length (write_at 0 l buf) = length buf) as Hlen by (apply length_write_at; lia).
  rewrite (interp_Ok _ _ _ _ _ E), put_ok by lia. exists s1. split; [|done]. do 2 f_equal.
  rewrite write_at_app by (cbn; lia). f_equal. lia.
Qed.
End gets.

(** ** An example *)

(** A machine with a file to read, in pieces of at most seven bytes, and an
    output. *)
Definition pipe_machine : Sys (list Z * list Z) := fun c =>
  match c with
  | SYS_read _ n =>
    k ← Prog.gets (fun s => ((Z.to_nat n `min` 7) `min` length s.1)%nat);
    bs ← Prog.gets (fun s => take k s.1);
    modify (fun s => (drop k s.1, s.2));;
    mret (Z.of_nat k, bs)
  | SYS_write _ bs => modify (fun s => (s.1, s.2 ++ bs));; mret (Z.of_nat (length bs), [])
  | _ => mret (-1, [])
  end.

#[local] Existing Instance pipe_machine.

Lemma pipe_machine_law fd : stream_law fd (fst : list Z * list Z -> list Z) snd.
Proof.
  split.
  - intros [i o] e n Hn. exists ((Z.to_nat n `min` 7) `min` length i)%nat. eexists. split; [reflexivity|]. cbn.
    split; [lia|]. split; [lia|]. split; [|done]. intros Hk. destruct i; [by right|left]. cbn in Hk. lia.
  - intros [i o] e bs. eexists. split; [reflexivity|done].
Qed.
