(* ===== verification/Uprintf.v ===== *)
(** * User output

    user/printf.c: printf to a file descriptor, a write for each character.
    As in [Printf], the arguments are a list of typed values, and a [va_arg] of
    another type is a [Fault].

    The lemmas: the numeral of any number fits the buffer of printint, and
    what the characters and conversions of a format write to the standard
    output ([emits]), for the programs that print. *)

From S2P Require Import Prelude Prog CStr User Ulib.

Definition digits : list Z := bytes_of "0123456789ABCDEF".

Definition digit (i : Z) : Z := default 0 (zlookup digits i).

(** [do { buf[i++] = digits[x % base]; } while((x /= base) != 0);] *)
Fixpoint printint_digits (fuel : nat) (x base : Z) : list Z :=
  match fuel with
  | O => []
  | S n => digit (x `mod` base) ::
           (let x := x / base in if negb (x =? 0) then printint_digits n x base else [])
  end.

(** What printint leaves in [buf], lowest digit first; a 32-bit number has at
    most 32 digits. *)
Definition printint_buf (xx base sgn : Z) : list Z :=
  let neg := negb (sgn =? 0) && (xx <? 0) in
  printint_digits 32 (u32 (if neg then - xx else xx)) base ++ (if neg then [chr "-"] else []).

Inductive parg :=
| AInt (z : Z)
| AU64 (z : Z)
| AStr (s : option (list Z)).

(** The characters of a string up to the terminator. *)
Fixpoint cstr (s : list Z) : list Z :=
  match s with
  | [] => []
  | c :: s => if c =? 0 then [] else c :: cstr s
  end.

Definition putc (fd c : Z) : U unit := _ ← write fd [u8 c]; mret tt.

(** [xx] is converted to [int]. *)
Definition printint (fd xx base sgn : Z) : U unit :=
  let buf := printint_buf (s32 xx) base sgn in
  if (16 <? length buf)%nat then Crash "printint: buf[16]" else
  u_each (rev buf) (putc fd).

Definition printptr (fd x : Z) : U unit :=
  putc fd (chr "0");;
  putc fd (chr "x");;
  u_fold (seq 0 16) (fun x _ =>
    putc fd (digit (Z.shiftr x 60));;
    mret (u64 (Z.shiftl x 4))) x;;
  mret tt.

Definition va_int (ap : list parg) : U (Z * list parg) :=
  match ap with AInt z :: ap => mret (z, ap) | _ => Crash "va_arg(ap, int)" end.
Definition va_u64 (ap : list parg) : U (Z * list parg) :=
  match ap with AU64 z :: ap => mret (z, ap) | _ => Crash "va_arg(ap, uint64)" end.
Definition va_str (ap : list parg) : U (option (list Z) * list parg) :=
  match ap with AStr s :: ap => mret (s, ap) | _ => Crash "va_arg(ap, char* )" end.

(** The loop of vprintf over the format from [fmt] on.  [state] is 0 or ['%'];
    a format that ends after [%] writes nothing for it. *)
Fixpoint vprintf (fd : Z) (fmt : list Z) (ap : list parg) : U unit :=
  match fmt with
  | [] => mret tt
  | c :: fmt1 =>
    if negb (c =? chr "%") then putc fd c;; vprintf fd fmt1 ap else
    match fmt1 with
    | [] => mret tt
    | c0 :: fmt2 =>
      let c1 := default 0 (fmt2 !! 0%nat) in
      let c2 := if negb (c1 =? 0) then default 0 (fmt2 !! 1%nat) else 0 in
      let skip1 := match fmt2 with [] => fmt2 | _ :: f => f end in
      let skip2 := match fmt2 with [] => fmt2 | _ :: f => match f with [] => f | _ :: f => f end end in
      if c0 =? chr "d" then
        '(z, ap) ← va_int ap; printint fd z 10 1;; vprintf fd fmt2 ap
      else if (c0 =? chr "l") && (c1 =? chr "d") then
        '(z, ap) ← va_u64 ap; printint fd z 10 1;; vprintf fd skip1 ap
      else if (c0 =? chr "l") && (c1 =? chr "l") && (c2 =? chr "d") then
        '(z, ap) ← va_u64 ap; printint fd z 10 1;; vprintf fd skip2 ap
      else if c0 =? chr "u" then
        '(z, ap) ← va_int ap; printint fd z 10 0;; vprintf fd fmt2 ap
      else if (c0 =? chr "l") && (c1 =? chr "u") then
        '(z, ap) ← va_u64 ap; printint fd z 10 0;; vprintf fd skip1 ap
      else if (c0 =? chr "l") && (c1 =? chr "l") && (c2 =? chr "u") then
        '(z, ap) ← va_u64 ap; printint fd z 10 0;; vprintf fd skip2 ap
      else if c0 =? chr "x" then
        '(z, ap) ← va_int ap; printint fd z 16 0;; vprintf fd fmt2 ap
      else if (c0 =? chr "l") && (c1 =? chr "x") then
        '(z, ap) ← va_u64 ap; printint fd z 16 0;; vprintf fd skip1 ap
      else if (c0 =? chr "l") && (c1 =? chr "l") && (c2 =? chr "x") then
        '(z, ap) ← va_u64 ap; printint fd z 16 0;; vprintf fd skip2 ap
      else if c0 =? chr "p" then
        '(z, ap) ← va_u64 ap; printptr fd z;; vprintf fd fmt2 ap
      else if c0 =? chr "s" then
        '(s, ap) ← va_str ap;
        u_each (cstr (default (bytes_of "(null)") s)) (putc fd);; vprintf fd fmt2 ap
      else if c0 =? chr "%" then putc fd (chr "%");; vprintf fd fmt2 ap
      else putc fd (chr "%");; putc fd c0;; vprintf fd fmt2 ap
    end
  end.

Definition fprintf (fd : Z) (fmt : string) (ap : list parg) : U unit := vprintf fd (bytes_of fmt) ap.
Definition printf (fmt : string) (ap : list parg) : U unit := vprintf 1 (bytes_of fmt) ap.

(** ** Numerals *)

Lemma length_printint_digits fuel k x base : 2 <= base -> 0 <= x < base ^ Z.of_nat k -> (0 < k)%nat ->
  (length (printint_digits fuel x base) <= k)%nat.
Proof.
  intros Hb. revert k x. induction fuel as [|fuel IH]; intros k x Hx Hk; cbn [printint_digits length]; [lia|].
  destruct (Z.eqb_spec (x / base) 0) as [|Hne]; cbn [negb length]; [lia|]. destruct k as [|[|k]]; [lia| |].
  - exfalso. apply Hne. apply Z.div_small. rewrite Z.pow_1_r in Hx. lia.
  - specialize (IH (S k) (x / base)). apply le_n_S, IH; [|lia]. split; [apply Z.div_pos; lia|].
    apply Z.div_lt_upper_bound; [lia|]. rewrite <- Z.pow_succ_r by lia. replace (Z.succ (Z.of_nat (S k))) with (Z.of_nat (S (S k))) by lia. apply Hx.
Qed.

(** A number of 32 bits fits the buffer, with its sign. *)
Lemma printint_fits x base sgn : 10 <= base -> (length (printint_buf (s32 x) base sgn) <= 11)%nat.
Proof.
  intros Hb. unfold printint_buf. rewrite length_app. set (y := if negb (sgn =? 0) && (s32 x <? 0) then _ else _).
  assert (length (printint_digits 32 (u32 y) base) <= 10)%nat as Hl.
  { apply length_printint_digits; [lia| |lia]. pose proof (u32_range y).
    assert (10 ^ Z.of_nat 10 <= base ^ Z.of_nat 10) by (apply Z.pow_le_mono_l; lia). cbn in *. lia. }
  destruct (negb (sgn =? 0) && (s32 x <? 0)); cbn [length]; lia.
Qed.

Lemma digit_byte i : 0 <= digit i < 256.
Proof.
  unfold digit. destruct (zlookup digits i) as [c|] eqn:E; cbn; [|lia].
  assert (Forall (fun c => 0 <= c < 256) digits) as H by (unfold digits; repeat (constructor; [split; [discriminate|reflexivity]|]); constructor).
  rewrite Forall_lookup in H. unfold zlookup in E. destruct (0 <=? i); [by eapply H|done].
Qed.

Lemma printint_bytes x base sgn : Forall (fun c => 0 <= c < 256) (printint_buf x base sgn).
Proof.
  unfold printint_buf. apply Forall_app. split.
  - generalize 32%nat (u32 (if negb (sgn =? 0) && (x <? 0) then - x else x)). intros n. induction n as [|n IH]; intros y; cbn; [constructor|].
    constructor; [apply digit_byte|]. destruct (negb _); [apply IH|constructor].
  - destruct (_ && _); repeat constructor; done.
Qed.

(** ** Output *)

Section emits.
Context {S : Type} `{!Sys S} (fd : Z) (input output : S -> list Z) (R : stream_law fd input output).

(** The program writes [bs] to its standard output, and returns. *)
Definition emits (m : U unit) (bs : list Z) : Prop :=
  forall s e, exists s', interp m (mkWorld s e) = Ok (inr tt) (mkWorld s' e) /\ input s' = input s /\ output s' = output s ++ bs.

Lemma emits_ret : emits (mret tt) [].
Proof. intros s e. exists s. by rewrite app_nil_r. Qed.

Lemma emits_bind m k bs cs : emits m bs -> emits (k tt) cs -> emits (m ≫= k) (bs ++ cs).
Proof.
  intros Hm Hk s e. destruct (Hm s e) as (s1 & E1 & I1 & O1). destruct (Hk s1 e) as (s2 & E2 & I2 & O2).
  exists s2. rewrite (interp_Ok _ _ _ _ _ E1), E2. split; [done|]. split; [congruence|]. by rewrite O2, O1, app_assoc.
Qed.

Lemma emits_write bs : emits (_ ← write 1 bs; mret tt) bs.
Proof using R. intros s e. destruct (write_law _ _ _ R s e bs) as (s' & E & I & O). exists s'. by rewrite (interp_Ok (write 1 bs) _ _ _ _ (interp_trap0 _ _ _ _ _ E)). Qed.

Lemma emits_putc c : 0 <= c < 256 -> emits (putc 1 c) [c].
Proof using R. intros Hc. unfold putc. replace (u8 c) with c by (symmetry; by apply Z.mod_small). apply emits_write. Qed.

Lemma emits_each bs : Forall (fun c => 0 <= c < 256) bs -> emits (u_each bs (putc 1)) bs.
Proof using R.
  induction 1 as [|c bs Hc Hbs IH]; cbn [u_each]; [apply emits_ret|]. change (c :: bs) with ([c] ++ bs). apply emits_bind; [by apply emits_putc|done].
Qed.

Lemma emits_printint x base sgn : 10 <= base -> emits (printint 1 x base sgn) (rev (printint_buf (s32 x) base sgn)).
Proof using R.
  intros Hb. unfold printint. cbv zeta. pose proof (printint_fits x base sgn Hb).
  destruct (Nat.ltb_spec 16 (length (printint_buf (s32 x) base sgn))); [lia|]. apply emits_each. apply Forall_rev, printint_bytes.
Qed.

Lemma emits_char c fmt ap bs : 0 <= c < 256 -> c <> chr "%" -> emits (vprintf 1 fmt ap) bs -> emits (vprintf 1 (c :: fmt) ap) (c :: bs).
Proof using R.
  intros Hc Hne H. cbn [vprintf]. destruct (Z.eqb_spec c (chr "%")); [done|]. cbn [negb]. change (c :: bs) with ([c] ++ bs).
  apply emits_bind; [by apply emits_putc|done].
Qed.

Lemma emits_d z fmt ap bs : emits (vprintf 1 fmt ap) bs ->
  emits (vprintf 1 (chr "%" :: chr "d" :: fmt) (AInt z :: ap)) (rev (printint_buf (s32 z) 10 1) ++ bs).
Proof using R. intros H. cbn [vprintf]. cbn -[printint vprintf]. by apply emits_bind; [apply emits_printint|]. Qed.

Lemma emits_s s fmt ap bs : Forall (fun c => 0 <= c < 256) (cstr s) -> emits (vprintf 1 fmt ap) bs ->
  emits (vprintf 1 (chr "%" :: chr "s" :: fmt) (AStr (Some s) :: ap)) (cstr s ++ bs).
Proof using R. intros Hs H. cbn -[cstr vprintf]. by apply emits_bind; [apply emits_each|]. Qed.
End emits.
