(* ===== verification/Grep.v ===== *)
(** * grep

    user/grep.c.  Patterns and lines are null-terminated strings; [None] is a
    read past the end of an array.

    The theorems: the matcher decides the language of the pattern, and grep
    writes the lines of its input that match, in order, whatever the sizes of
    the reads, as long as no line fills its buffer; a longer line ends it. *)

From S2P Require Import Prelude Prog CStr User Ulib Uprintf.

(** ** The matcher *)

(** The loop of matchstar, for the matcher [here] of the rest of the pattern. *)
Fixpoint matchstar_loop (here : list Z -> option bool) (c : Z) (text : list Z) : option bool :=
  r ← here text;
  if (r : bool) then Some true else
  match text with
  | [] => None
  | t :: text => if negb (t =? 0) && ((t =? c) || (c =? chr ".")) then matchstar_loop here c text else Some false
  end.

(** [matchhere(re, text)]; the tests of [re[0]] and [re[1]] in the order of the
    code. *)
Fixpoint matchhere (re text : list Z) {struct re} : option bool :=
  match re with
  | [] => None
  | r0 :: re1 =>
    if r0 =? 0 then Some true else
    match re1 with
    | [] => None
    | r1 :: re2 =>
      if r1 =? chr "*" then matchstar_loop (matchhere re2) r0 text else
      t ← head text;
      if (r0 =? chr "$") && (r1 =? 0) then Some (t =? 0) else
      if negb (t =? 0) && ((r0 =? chr ".") || (r0 =? t)) then matchhere re1 (tail text) else Some false
    end
  end.

Definition matchstar (c : Z) (re text : list Z) : option bool := matchstar_loop (matchhere re) c text.

(** The loop of match over the positions of the text. *)
Fixpoint match_loop (re text : list Z) {struct text} : option bool :=
  r ← matchhere re text;
  if (r : bool) then Some true else
  match text with
  | [] => None
  | t :: text => if negb (t =? 0) then match_loop re text else Some false
  end.

(** [match(re, text)] *)
Definition match_ (re text : list Z) : option bool :=
  r0 ← head re;
  if r0 =? chr "^" then matchhere (tail re) text else match_loop re text.

(** ** grep *)

Definition BUFSIZE : Z := 1024.

(** The lines of the buffer from [p] on: the buffer and the [p] it ends with. *)
Fixpoint grep_lines (fuel : nat) (pattern buf : list Z) (p : nat) : U (list Z * nat) :=
  match fuel with
  | O => Crash "grep fuel"
  | S fuel =>
    r ← need "strchr" (strchr (drop p buf) 10);
    match r with
    | None => mret (buf, p)
    | Some i =>
      let q := (p + i)%nat in
      buf ← put buf (Z.of_nat q) 0;
      m ← need "match" (match_ pattern (drop p buf));
      buf ← (if (m : bool) then
               buf ← put buf (Z.of_nat q) 10;
               _ ← write 1 (read_at p (q + 1 - p) buf);
               mret buf
             else mret buf);
      grep_lines fuel pattern buf (q + 1)
    end
  end.

(** The loop of grep, with the buffer it leaves; a turn has at most as many
    lines as the buffer bytes. *)
Fixpoint grep_loop (fuel : nat) (pattern : list Z) (fd : Z) (buf : list Z) (m : Z) : U (list Z) :=
  match fuel with
  | O => Crash "grep fuel"
  | S fuel =>
    '(n, bs) ← read fd (BUFSIZE - m - 1);
    if negb (0 <? n) then mret buf else
    let buf := write_at (Z.to_nat m) bs buf in
    let m := m + n in
    buf ← put buf m 0;
    '(buf, p) ← grep_lines (Z.to_nat BUFSIZE) pattern buf 0;
    if 0 <? m then
      let m := m - Z.of_nat p in
      buf ← need "memmove" (memmove buf 0 p (Z.to_nat m));
      grep_loop fuel pattern fd buf m
    else grep_loop fuel pattern fd buf m
  end.

(** [grep(pattern, fd)], with [buf] what the static buffer holds; [fuel]
    bounds the reads. *)
Definition grep (fuel : nat) (pattern : list Z) (fd : Z) (buf : list Z) : U (list Z) := grep_loop fuel pattern fd buf 0.

(** The files of main *)
Fixpoint grep_files (fuel : nat) (pattern : list Z) (files : list (list Z)) (buf : list Z) : U unit :=
  match files with
  | [] => mret tt
  | f :: files =>
    fd ← open f O_RDONLY;
    if fd <? 0 then printf "grep: cannot open %s
" [AStr (Some f)];; exit 1 else
    buf ← grep fuel pattern fd buf;
    _ ← close fd;
    grep_files fuel pattern files buf
  end.

(** [main] *)
Definition grep_main (fuel : nat) (argv : list (list Z)) (buf : list Z) : U unit :=
  match argv with
  | [] | [_] => fprintf 2 "usage: grep pattern [file ...]
" [];; exit 1
  | [_; pattern] => _ ← grep fuel pattern 0 buf; exit 0
  | _ :: pattern :: files => grep_files fuel pattern files buf;; exit 0
  end.

(** ** The language of a pattern *)

(** A character, or any number of it; [.] is every character. *)
Inductive item := One (c : Z) | Star (c : Z).

Definition hit (c t : Z) : bool := (c =? chr ".") || (c =? t).

(** The items of a pattern, and whether it ends with [$]. *)
Fixpoint parse_re (re : list Z) : list item * bool :=
  match re with
  | [] => ([], false)
  | c :: re1 =>
    match re1 with
    | [] => if c =? chr "$" then ([], true) else ([One c], false)
    | r1 :: re2 =>
      if r1 =? chr "*" then let '(l, eol) := parse_re re2 in (Star c :: l, eol)
      else let '(l, eol) := parse_re re1 in (One c :: l, eol)
    end
  end.

Inductive matches : list item -> list Z -> Prop :=
| matches_nil : matches [] []
| matches_one c t l u : hit c t = true -> matches l u -> matches (One c :: l) (t :: u)
| matches_star c l u v : Forall (fun t => hit c t = true) u -> matches l v -> matches (Star c :: l) (u ++ v).

(** The pattern without its [^] matches the text from its start. *)
Definition here (re text : list Z) : Prop :=
  exists u v, text = u ++ v /\ matches (parse_re re).1 u /\ ((parse_re re).2 = true -> v = []).

(** The pattern selects the line. *)
Definition selects (re text : list Z) : Prop :=
  match re with
  | r0 :: re1 => if r0 =? chr "^" then here re1 text else exists u v, text = u ++ v /\ here re v
  | [] => exists u v, text = u ++ v /\ here re v
  end.

Lemma here_nil text : here [] text.
Proof. exists [], text. split; [done|]. split; [constructor|done]. Qed.

Lemma here_eol text : here [chr "$"] text <-> text = [].
Proof.
  split.
  - intros (u & v & -> & M & H). cbn in M, H. inversion M; subst. by rewrite H.
  - intros ->. exists [], []. split; [done|]. split; [constructor|done].
Qed.

Lemma here_one c re text : head re <> Some (chr "*") -> (c = chr "$" -> re <> []) ->
  here (c :: re) text <-> exists t text', text = t :: text' /\ hit c t = true /\ here re text'.
Proof.
  intros Hs He. assert (parse_re (c :: re) = (One c :: (parse_re re).1, (parse_re re).2)) as Ep.
  { destruct re as [|r1 re2]; cbn [parse_re].
    - destruct (Z.eqb_spec c (chr "$")) as [->|]; [by destruct He|done].
    - destruct (Z.eqb_spec r1 (chr "*")) as [->|]; [done|]. by destruct (match re2 with [] => _ | _ :: _ => _ end). }
  unfold here. rewrite Ep. cbn [fst snd]. split.
  - intros (u & v & -> & M & H). inversion M; subst. do 2 eexists. split; [done|]. split; [done|]. by do 2 eexists.
  - intros (t & text' & -> & Ht & u & v & -> & M & H). exists (t :: u), v. split; [done|]. split; [by constructor|done].
Qed.

Lemma here_star c re text : here (c :: chr "*" :: re) text <->
  exists u v, text = u ++ v /\ Forall (fun t => hit c t = true) u /\ here re v.
Proof.
  assert (parse_re (c :: chr "*" :: re) = (Star c :: (parse_re re).1, (parse_re re).2)) as Ep.
  { cbn [parse_re]. rewrite Z.eqb_refl. by destruct (parse_re re). }
  unfold here. rewrite Ep. cbn [fst snd]. split.
  - intros (u & v & -> & M & H). inversion M; subst. do 2 eexists. split; [by rewrite <- app_assoc|]. split; [done|]. by do 2 eexists.
  - intros (u & v' & -> & Hu & u' & v & -> & M & H). exists (u ++ u'), v. split; [by rewrite app_assoc|]. split; [by constructor|done].
Qed.

(** ** The matcher decides it *)

(** [f] decides [Q] on strings. *)
Definition decides (f : list Z -> option bool) (Q : list Z -> Prop) : Prop :=
  forall text ts, is_cstring text ts -> exists b, f text = Some b /\ (b = true <-> Q ts).

Lemma is_cstring_cases text ts : is_cstring text ts ->
  (ts = [] /\ exists rest, text = 0 :: rest) \/ exists t text' ts', text = t :: text' /\ ts = t :: ts' /\ t <> 0 /\ is_cstring text' ts'.
Proof.
  intros (rest & -> & H). destruct ts as [|t ts]; [left; by eauto|right]. apply not_elem_of_cons in H as [Ht H].
  exists t, (ts ++ 0 :: rest), ts. do 3 (split; [done|]). by exists rest.
Qed.

Lemma matchstar_loop_spec f Q c : decides f Q ->
  decides (matchstar_loop f c) (fun ts => exists u v, ts = u ++ v /\ Forall (fun t => hit c t = true) u /\ Q v).
Proof.
  intros Hf text ts. revert text. induction ts as [|t ts IH]; intros text Ht; destruct (Hf text _ Ht) as (b & E & Hb);
    apply is_cstring_cases in Ht as [(Hn & rest & ->)|(t' & text' & ts' & -> & Hn & Ht0 & Ht')]; try done; cbn [matchstar_loop];
    rewrite E; cbn [mbind option_bind].
  - exists b. destruct b; cbn.
    + split; [done|]. split; [|done]. intros _. exists [], []. split; [done|]. split; [constructor|by apply Hb].
    + split; [done|]. split; [done|]. intros (u & v & Euv & _ & Hq). symmetry in Euv. apply app_eq_nil in Euv as [-> ->]. by apply Hb.
  - injection Hn as -> ->. destruct b.
    { exists true. split; [done|]. split; [|done]. intros _. exists [], (t' :: ts'). split; [done|]. split; [constructor|by apply Hb]. }
    destruct (Z.eqb_spec t' 0); [done|]. cbn [negb andb].
    assert ((t' =? c) || (c =? chr ".") = hit c t') as -> by (unfold hit; rewrite orb_comm, (Z.eqb_sym t' c); done).
    destruct (hit c t') eqn:Eh.
    + destruct (IH text' Ht') as (b' & -> & Hb'). exists b'. split; [done|]. rewrite Hb'. split.
      * intros (u & v & -> & Hu & Hq). exists (t' :: u), v. split; [done|]. split; [by constructor|done].
      * intros (u & v & Euv & Hu & Hq). destruct u as [|t u]; cbn in Euv.
        { subst v. apply Hb in Hq. done. }
        injection Euv as -> ->. inversion Hu; subst. by exists u, v.
    + exists false. split; [done|]. split; [done|]. intros (u & v & Euv & Hu & Hq). destruct u as [|t u]; cbn in Euv.
      { subst v. by apply Hb in Hq. }
      injection Euv as -> ->. inversion Hu; subst. congruence.
Qed.

(** A character that stands for itself. *)
Lemma one_step re rs r0 : decides (matchhere re) (here rs) -> head rs <> Some (chr "*") -> (r0 = chr "$" -> rs <> []) ->
  decides (fun text => t ← head text;
    if negb (t =? 0) && ((r0 =? chr ".") || (r0 =? t)) then matchhere re (tail text) else Some false) (here (r0 :: rs)).
Proof.
  intros Hd Hs He text ts Ht. pose proof (here_one r0 rs ts Hs He) as Ho.
  apply is_cstring_cases in Ht as [(-> & rest & ->)|(t & text' & ts' & -> & -> & Ht0 & Ht')]; cbn [head tail mbind option_bind].
  - exists false. rewrite Ho. split; [done|]. split; [done|]. by intros (? & ? & ? & _).
  - destruct (Z.eqb_spec t 0); [done|]. cbn [negb andb]. fold (hit r0 t). destruct (hit r0 t) eqn:Eh.
    + destruct (Hd text' ts' Ht') as (b & E & Hb). exists b. split; [exact E|]. rewrite Ho, Hb.
      split; [by eauto|]. by intros (? & ? & [= <- <-] & _ & ?).
    + exists false. rewrite Ho. split; [done|]. split; [done|]. intros (? & ? & [= <- <-] & ? & _). congruence.
Qed.

Lemma matchhere_decides n : forall re rs, (length rs <= n)%nat -> is_cstring re rs -> decides (matchhere re) (here rs).
Proof.
  induction n as [|n IH]; intros re rs Hn Hre text ts Ht;
    apply is_cstring_cases in Hre as [(-> & rest & ->)|(r0 & re1 & rs1 & -> & -> & Hr0 & Hre1)]; cbn [length] in Hn; try lia.
  1, 2: exists true; split; [done|]; split; [intros _; apply here_nil|done].
  cbn [matchhere]. destruct (Z.eqb_spec r0 0); [done|].
  pose proof (IH re1 rs1 ltac:(lia) Hre1) as Hd.
  apply is_cstring_cases in Hre1 as [(-> & rest & ->)|(r1 & re2 & rs2 & -> & -> & Hr1 & Hre2)].
  - change (0 =? chr "*") with false. cbv iota. change (0 =? 0) with true.
    destruct (Z.eqb_spec r0 (chr "$")) as [->|Hne]; cbn [andb].
    + apply is_cstring_cases in Ht as [(-> & rest' & ->)|(t & text' & ts' & -> & -> & Ht0 & Ht')]; cbn [head mbind option_bind].
      * exists true. by rewrite here_eol.
      * exists false. rewrite here_eol. by destruct (Z.eqb_spec t 0).
    + by apply (one_step (0 :: rest) [] r0 Hd).
  - destruct (Z.eqb_spec r1 (chr "*")) as [->|Hs].
    + destruct (matchstar_loop_spec (matchhere re2) (here rs2) r0 (IH re2 rs2 ltac:(cbn in Hn; lia) Hre2) text ts Ht) as (b & E & Hb).
      exists b. split; [exact E|]. by rewrite here_star.
    + assert ((r1 =? 0) = false) as -> by (by apply Z.eqb_neq).
      assert (head (r1 :: rs2) <> Some (chr "*")) as Hh by (intros [=]; by apply Hs).
      destruct (one_step (r1 :: re2) (r1 :: rs2) r0 Hd Hh ltac:(done) text ts Ht) as (b & E & Hb).
      exists b. split; [|exact Hb]. rewrite <- E. destruct (head text); cbn [mbind option_bind]; [|done]. by rewrite andb_false_r.
Qed.

Lemma match_loop_decides re rs : is_cstring re rs ->
  decides (match_loop re) (fun ts => exists u v, ts = u ++ v /\ here rs v).
Proof.
  intros Hre text ts. revert text. pose proof (matchhere_decides _ re rs (le_n _) Hre) as Hd.
  induction ts as [|t ts IH]; intros text Ht; destruct (Hd text _ Ht) as (b & E & Hb);
    apply is_cstring_cases in Ht as [(Hn & rest & ->)|(t' & text' & ts' & -> & Hn & Ht0 & Ht')]; try done; cbn [match_loop];
    rewrite E; cbn [mbind option_bind].
  - exists b. destruct b; cbn.
    + split; [done|]. split; [|done]. intros _. exists [], []. split; [done|by apply Hb].
    + split; [done|]. split; [done|]. intros (u & v & Euv & Hq). symmetry in Euv. apply app_eq_nil in Euv as [-> ->]. by apply Hb.
  - injection Hn as -> ->. destruct b.
    { exists true. split; [done|]. split; [|done]. intros _. exists [], (t' :: ts'). split; [done|by apply Hb]. }
    destruct (Z.eqb_spec t' 0); [done|]. cbn [negb]. destruct (IH text' Ht') as (b' & -> & Hb'). exists b'. split; [done|]. rewrite Hb'. split.
    + intros (u & v & -> & Hq). by exists (t' :: u), v.
    + intros (u & v & Euv & Hq). destruct u as [|t u]; cbn in Euv; [subst v; by apply Hb in Hq|].
      injection Euv as -> ->. by exists u, v.
Qed.

Lemma match_decides re rs : is_cstring re rs -> decides (match_ re) (selects rs).
Proof.
  intros Hre text ts Ht. pose proof Hre as Hre'. unfold match_, selects.
  apply is_cstring_cases in Hre' as [(-> & rest & ->)|(r0 & re1 & rs1 & -> & -> & Hr0 & Hre1)]; cbn [head tail mbind option_bind].
  - change (0 =? chr "^") with false. by apply match_loop_decides.
  - destruct (Z.eqb_spec r0 (chr "^")) as [->|Hne].
    + exact (matchhere_decides _ re1 rs1 (le_n _) Hre1 text ts Ht).
    + by apply match_loop_decides.
Qed.

(** ** Lines *)

(** The complete lines, without their ends, and what follows the last. *)
Fixpoint split_lines (bs : list Z) : list (list Z) * list Z :=
  match bs with
  | [] => ([], [])
  | c :: bs =>
    let '(ls, r) := split_lines bs in
    if c =? 10 then ([] :: ls, r) else
    match ls with
    | [] => ([], c :: r)
    | l :: ls => ((c :: l) :: ls, r)
    end
  end.

Lemma split_lines_none bs : 10 ∉ bs -> split_lines bs = ([], bs).
Proof.
  induction bs as [|c bs IH]; [done|]. intros H. apply not_elem_of_cons in H as [Hc H]. cbn. rewrite IH by done.
  by destruct (Z.eqb_spec c 10).
Qed.

Lemma split_lines_line l bs : 10 ∉ l -> split_lines (l ++ 10 :: bs) = (l :: (split_lines bs).1, (split_lines bs).2).
Proof.
  induction l as [|c l IH]; intros H; cbn [app split_lines].
  - by destruct (split_lines bs).
  - apply not_elem_of_cons in H as [Hc H]. rewrite IH by done. by destruct (Z.eqb_spec c 10).
Qed.

(** Induction on the lines of a list. *)
Lemma lines_ind (Q : list Z -> Prop) :
  (forall bs, 10 ∉ bs -> Q bs) -> (forall l bs, 10 ∉ l -> Q bs -> Q (l ++ 10 :: bs)) -> forall bs, Q bs.
Proof.
  intros H1 H2. enough (forall n bs, (length bs <= n)%nat -> Q bs) as H by (intros bs; by apply (H (length bs))).
  intros n. induction n as [|n IH]; intros bs Hn.
  - destruct bs; [|cbn in Hn; lia]. apply H1, not_elem_of_nil.
  - destruct (decide (10 ∈ bs)) as [Hin|]; [|by apply H1]. apply list_elem_of_split_l in Hin as (l & bs' & -> & Hl).
    apply H2; [done|]. apply IH. rewrite length_app in Hn. cbn in Hn. lia.
Qed.

Lemma split_lines_app x y :
  split_lines (x ++ y) = ((split_lines x).1 ++ (split_lines ((split_lines x).2 ++ y)).1, (split_lines ((split_lines x).2 ++ y)).2).
Proof.
  induction x as [x Hx|l x Hl IH] using lines_ind.
  - rewrite (split_lines_none x) by done. cbn. by destruct (split_lines (x ++ y)).
  - rewrite <- app_assoc. cbn [app]. rewrite !split_lines_line by done. cbn [fst snd]. by rewrite IH.
Qed.

Lemma split_lines_rest x : (10 ∉ (split_lines x).2) /\ forall c, c ∈ (split_lines x).2 -> c ∈ x.
Proof.
  induction x as [x Hx|l x Hl [IH1 IH2]] using lines_ind.
  - rewrite split_lines_none by done. done.
  - rewrite split_lines_line by done. split; [done|]. intros c Hc. apply elem_of_app. right. right. by apply IH2.
Qed.

(** ** What grep writes *)

(** The pattern, null-terminated, selects the line. *)
Definition keep (pattern l : list Z) : bool := default false (match_ pattern (l ++ [0])).

Definition picked (pattern : list Z) (ls : list (list Z)) : list Z :=
  mjoin ((fun l => l ++ [10]) <$> (filter (fun l => keep pattern l = true) ls)).

Lemma match_keep pattern rs text l : is_cstring pattern rs -> is_cstring text l ->
  match_ pattern text = Some (keep pattern l) /\ (keep pattern l = true <-> selects rs l).
Proof.
  intros Hp Ht. assert (is_cstring (l ++ [0]) l) as Hl by (destruct Ht as (r & _ & H); by exists []).
  destruct (match_decides pattern rs Hp text l Ht) as (b & -> & Hb).
  destruct (match_decides pattern rs Hp _ l Hl) as (b' & E' & Hb'). unfold keep. rewrite E'. cbn.
  split; [|done]. f_equal. apply eq_bool_prop_intro. rewrite !Is_true_true. by rewrite Hb, Hb'.
Qed.

Lemma picked_app pattern ls1 ls2 : picked pattern (ls1 ++ ls2) = picked pattern ls1 ++ picked pattern ls2.
Proof. unfold picked. by rewrite filter_app, fmap_app, join_app. Qed.

Lemma picked_cons pattern l ls : picked pattern (l :: ls) = (if keep pattern l then l ++ [10] else []) ++ picked pattern ls.
Proof.
  unfold picked. rewrite filter_cons. destruct (keep pattern l); [|done]. rewrite decide_True by done. done.
Qed.

Section spec.
Context {S : Type} `{!Sys S} (fd : Z) (input output : S -> list Z) (R : stream_law fd input output).
Context (pattern rs : list Z) (Hp : is_cstring pattern rs).

Lemma put_here a c b v (w : world S) : interp (put (a ++ c :: b) (Z.of_nat (length a)) v) w = Ok (inr (a ++ v :: b)) w.
Proof.
  unfold put. destruct (Z.leb_spec 0 (Z.of_nat (length a))); [|lia].
  destruct (Z.ltb_spec (Z.of_nat (length a)) (Z.of_nat (length (a ++ c :: b)))) as [_|Hl]; [|rewrite length_app in Hl; cbn in Hl; lia].
  cbn [andb]. rewrite Nat2Z.id. by rewrite (insert_app_r_alt _ _ _ _ (le_n _)), Nat.sub_diag.
Qed.

Lemma strchr_line l y : 10 ∉ l -> 0 ∉ l -> strchr (l ++ 10 :: y) 10 = Some (Some (length l)).
Proof.
  induction l as [|c l IH]; [done|]. rewrite !not_elem_of_cons. intros [H1 H2] [H3 H4]. cbn [app strchr].
  destruct (Z.eqb_spec c 0); [congruence|]. destruct (Z.eqb_spec c 10); [congruence|]. by rewrite IH.
Qed.

Lemma grep_lines_spec x : forall fuel pre junk s e, 0 ∉ x -> (length x < fuel)%nat ->
  exists s' pre', interp (grep_lines fuel pattern (pre ++ x ++ 0 :: junk) (length pre)) (mkWorld s e) =
      Ok (inr (pre' ++ (split_lines x).2 ++ 0 :: junk, length pre')) (mkWorld s' e) /\
    (length pre' + length (split_lines x).2 = length pre + length x)%nat /\
    input s' = input s /\ output s' = output s ++ picked pattern (split_lines x).1.
Proof using R Hp.
  induction x as [x Hx|l x Hl IH] using lines_ind; intros fuel pre junk s e H0 Hf; (destruct fuel as [|fuel]; [lia|]); cbn [grep_lines];
    rewrite drop_app_length.
  - destruct (strchr_spec (x ++ 0 :: junk) x 10) as (r & -> & Hr); [by exists junk|done|]. urun.
    destruct r as [i|]; [destruct Hr as [Hi _]; apply list_elem_of_lookup_2 in Hi; done|].
    rewrite split_lines_none by done. exists s, pre. cbn. by rewrite app_nil_r.
  - apply not_elem_of_app in H0 as [H0l H0]. apply not_elem_of_cons in H0 as [_ H0].
    rewrite length_app in Hf. cbn [length] in Hf. rewrite <- !app_assoc. cbn [app]. rewrite strchr_line by done. urun.
    rewrite (app_assoc pre l), <- length_app, (interp_Ok _ _ _ _ _ (put_here _ _ _ _ _)).
    rewrite <- app_assoc, drop_app_length.
    destruct (match_keep pattern rs (l ++ 0 :: x ++ 0 :: junk) l Hp) as [-> _]; [by exists (x ++ 0 :: junk)|]. urun.
    rewrite split_lines_line by done. cbn [fst snd]. rewrite picked_cons.
    assert (exists c s1, interp (if keep pattern l
       then put (pre ++ l ++ 0 :: x ++ 0 :: junk) (Z.of_nat (length (pre ++ l))) 10
            ≫= (fun buf => write 1 (read_at (length pre) (length (pre ++ l) + 1 - length pre) buf) ≫= (fun _ => mret buf))
       else mret (pre ++ l ++ 0 :: x ++ 0 :: junk)) (mkWorld s e) = Ok (inr (((pre ++ l) ++ [c]) ++ x ++ 0 :: junk)) (mkWorld s1 e) /\
       input s1 = input s /\ output s1 = output s ++ (if keep pattern l then l ++ [10] else [])) as (c & s1 & E1 & Hin1 & Hout1).
    { destruct (keep pattern l).
      - exists 10. rewrite app_assoc, (interp_Ok _ _ _ _ _ (put_here _ _ _ _ _)).
        assert (read_at (length pre) (length (pre ++ l) + 1 - length pre) ((pre ++ l) ++ 10 :: x ++ 0 :: junk) = l ++ [10]) as ->.
        { unfold read_at. rewrite <- app_assoc, drop_app_length. rewrite length_app.
          replace (length pre + length l + 1 - length pre)%nat with (length l + 1)%nat by lia. by rewrite take_app_add. }
        destruct (write_law _ _ _ R s e (l ++ [10])) as (s1 & E & Hi & Ho).
        rewrite (interp_Ok (write 1 (l ++ [10])) _ _ _ _ (interp_trap0 _ _ _ _ _ E)).
        exists s1. split; [|done]. by rewrite <- !app_assoc.
      - exists 0, s. rewrite app_nil_r. split; [|done]. by rewrite <- !app_assoc. }
    rewrite (interp_Ok _ _ _ _ _ E1). destruct (IH fuel ((pre ++ l) ++ [c]) junk s1 e H0 ltac:(lia)) as (s2 & pre2 & E2 & Hlen & Hin2 & Hout2).
    rewrite length_app in E2 at 1. cbn [length] in E2. rewrite E2. exists s2, pre2. split; [done|].
    rewrite !length_app in *. cbn [length] in *. split; [lia|]. split; [by etrans|]. by rewrite Hout2, Hout1, app_assoc.
Qed.

(** Every line, and what follows the last, leaves room in the buffer. *)
Definition short (bs : list Z) : Prop :=
  Forall (fun l => (length l < 1023)%nat) (split_lines bs).1 /\ (length (split_lines bs).2 < 1023)%nat.

(** The part of a line that has been read. *)
Lemma short_head x y : short (x ++ y) -> 10 ∉ x -> (length x < 1023)%nat.
Proof.
  intros [H1 H2] Hx. rewrite split_lines_app, (split_lines_none x) in H1, H2 by done. cbn in H1, H2.
  induction y as [y Hy|l y Hl _] using lines_ind.
  - rewrite split_lines_none in H2 by (rewrite not_elem_of_app; done). cbn in H2. rewrite length_app in H2. lia.
  - rewrite app_assoc, split_lines_line in H1 by (rewrite not_elem_of_app; done). inversion H1 as [|? ? Hlt]; subst.
    rewrite length_app in Hlt. lia.
Qed.

Lemma short_rest x y : short (x ++ y) -> short ((split_lines x).2 ++ y).
Proof.
  unfold short. rewrite split_lines_app. cbn [fst snd]. intros [H1 H2]. split; [|done]. by apply Forall_app in H1 as [_ H1].
Qed.

(** One turn of the loop: [bs] has been read after what was left of a line,
    [rem]; what follows the last line moves to the start of the buffer. *)
Lemma grep_turn fuel rem junk k s s1 e :
  sys (SYS_read fd (BUFSIZE - Z.of_nat (length rem) - 1)) (mkWorld s e) = Ok (Z.of_nat k, take k (input s)) (mkWorld s1 e) ->
  Z.of_nat k <= BUFSIZE - Z.of_nat (length rem) - 1 -> (0 < k <= length (input s))%nat ->
  0 ∉ rem ++ take k (input s) -> (length rem + length junk = 1024)%nat ->
  let x := rem ++ take k (input s) in
  exists junk2 s2, (length (split_lines x).2 + length junk2 = 1024)%nat /\
    interp (grep_loop (Datatypes.S fuel) pattern fd (rem ++ junk) (Z.of_nat (length rem))) (mkWorld s e) =
    interp (grep_loop fuel pattern fd ((split_lines x).2 ++ junk2) (Z.of_nat (length (split_lines x).2))) (mkWorld s2 e) /\
    input s2 = input s1 /\ output s2 = output s1 ++ picked pattern (split_lines x).1.
Proof using R Hp.
  intros E1 Hk Hkl H0 Hlen x. cbn [grep_loop].
    rewrite (interp_Ok (read _ _) _ _ _ _ (interp_trap _ _ _ _ E1)). destruct (Z.ltb_spec 0 (Z.of_nat k)); [|lia]. cbn [negb].
  unfold BUFSIZE in Hk. set (bs := take k (input s)) in *.
  assert (length bs = k) as Hbs by (unfold bs; rewrite length_take; lia).
  assert (exists c junk', write_at (Z.to_nat (Z.of_nat (length rem))) bs (rem ++ junk) = x ++ c :: junk' /\
    (length junk = k + 1 + length junk')%nat) as (c & junk' & -> & Hj).
  { rewrite Nat2Z.id. unfold write_at. rewrite take_app_length.
    assert (drop (length rem + length bs) (rem ++ junk) = drop k junk) as -> by (rewrite Hbs; by rewrite <- drop_drop, drop_app_length).
    destruct (drop k junk) as [|c junk'] eqn:Ed; apply (f_equal length) in Ed; rewrite length_drop in Ed; cbn in Ed; [lia|].
    exists c, junk'. split; [unfold x; by rewrite <- app_assoc|lia]. }
  assert (length x = length rem + k)%nat as Hlx by (unfold x; rewrite length_app; lia).
  replace (Z.of_nat (length rem) + Z.of_nat k) with (Z.of_nat (length x)) by lia.
  rewrite (interp_Ok _ _ _ _ _ (put_here _ _ _ _ _)).
  destruct (grep_lines_spec x (Z.to_nat BUFSIZE) [] junk' s1 e H0) as (s2 & pre & E2 & Hl2 & Hin2 & Hout2); [unfold BUFSIZE; lia|].
  cbn [app length] in E2, Hl2. rewrite (interp_Ok _ _ _ _ _ E2). set (r := (split_lines x).2) in *.
  destruct (Z.ltb_spec 0 (Z.of_nat (length x))) as [_|Hn]; [|lia]. cbv zeta.
  replace (Z.to_nat (Z.of_nat (length x) - Z.of_nat (length pre))) with (length r) by lia.
  assert (length (pre ++ r ++ 0 :: junk') = 1024%nat) as Hlb by (rewrite !length_app; cbn [length]; lia).
  rewrite umemmove_spec by (rewrite Hlb; lia). urun.
  assert (exists junk2, write_at 0 (read_at (length pre) (length r) (pre ++ r ++ 0 :: junk')) (pre ++ r ++ 0 :: junk') = r ++ junk2) as (junk2 & Ew).
  { unfold read_at. rewrite drop_app_length, take_app_length. unfold write_at. cbn [take app]. by eexists. }
  exists junk2, s2. split.
  { rewrite <- length_app, <- Ew, length_write_at; [done|]. rewrite length_read_at by (rewrite !length_app; cbn; lia). rewrite Hlb. lia. }
  rewrite Ew. by replace (Z.of_nat (length x) - Z.of_nat (length pre)) with (Z.of_nat (length r)) by lia.
Qed.

Lemma grep_loop_spec fuel : forall rem junk s e, 0 ∉ rem ++ input s -> 10 ∉ rem -> short (rem ++ input s) ->
  (length rem + length junk = 1024)%nat -> (length (input s) < fuel)%nat ->
  exists buf' s', interp (grep_loop fuel pattern fd (rem ++ junk) (Z.of_nat (length rem))) (mkWorld s e) = Ok (inr buf') (mkWorld s' e) /\
    input s' = [] /\ output s' = output s ++ picked pattern (split_lines (rem ++ input s)).1.
Proof using R Hp.
  induction fuel as [|fuel IH]; intros rem junk s e H0 Hrem Hs Hlen Hf; [lia|]. pose proof (short_head _ _ Hs Hrem) as Hr.
  destruct (read_law _ _ _ R s e (BUFSIZE - Z.of_nat (length rem) - 1)) as (k & s1 & E1 & Hk & Hkl & Hk0 & Hin1 & Hout1); [unfold BUFSIZE; lia|].
  destruct (decide (k = 0%nat)) as [->|Hpos].
  - cbn [grep_loop].
    rewrite (interp_Ok (read _ _) _ _ _ _ (interp_trap _ _ _ _ E1)). cbn. destruct (Hk0 eq_refl) as [Hb|He]; [unfold BUFSIZE in Hb; lia|].
    exists (rem ++ junk), s1. split; [done|]. rewrite Hin1, Hout1, He, app_nil_r, (split_lines_none rem) by done.
    split; [done|]. by rewrite app_nil_r.
  - assert (input s = take k (input s) ++ input s1) as Es by (rewrite Hin1; by rewrite take_drop).
    set (bs := take k (input s)) in *. rewrite Es, app_assoc in H0, Hs |- *. apply not_elem_of_app in H0 as [H0 H0'].
    destruct (grep_turn fuel rem junk k s s1 e E1 Hk ltac:(lia) H0 Hlen) as (junk2 & s2 & Hl2 & -> & Hin2 & Hout2). fold bs in Hl2, Hout2 |- *.
    destruct (split_lines_rest (rem ++ bs)) as [Hr1 Hr2]. set (r := (split_lines (rem ++ bs)).2) in *.
    destruct (IH r junk2 s2 e) as (buf' & s3 & -> & Hin3 & Hout3); rewrite ?Hin2; try done.
    + apply not_elem_of_app. split; [|done]. intros Hx. by apply H0, Hr2.
    + by apply short_rest.
    + rewrite Es, length_app in Hf. unfold bs in Hf. rewrite length_take in Hf. lia.
    + exists buf', s3. split; [done|]. split; [done|].
      rewrite Hout3, Hout2, Hout1, Hin2, (split_lines_app (rem ++ bs)). cbn [fst]. fold r. by rewrite picked_app, app_assoc.
Qed.

(** A line of 1023 characters or more ends grep: the buffer is full, the read
    of nothing returns 0, and what follows is not looked at. *)
Lemma grep_long_line fuel : forall rem z y junk s e, input s = z ++ y -> 0 ∉ rem ++ z -> 10 ∉ rem ++ z ->
  length (rem ++ z) = 1023%nat -> (length rem + length junk = 1024)%nat -> (length z < fuel)%nat ->
  exists buf' s', interp (grep_loop fuel pattern fd (rem ++ junk) (Z.of_nat (length rem))) (mkWorld s e) = Ok (inr buf') (mkWorld s' e) /\
    input s' = y /\ output s' = output s.
Proof using R Hp.
  induction fuel as [|fuel IH]; intros rem z y junk s e Es H0 Hnl Hl Hlen Hf; [lia|]. rewrite length_app in Hl.
  destruct (read_law _ _ _ R s e (BUFSIZE - Z.of_nat (length rem) - 1)) as (k & s1 & E1 & Hk & Hkl & Hk0 & Hin1 & Hout1); [unfold BUFSIZE; lia|].
  pose proof Hk as Hk'. unfold BUFSIZE in Hk'. destruct (decide (k = 0%nat)) as [->|Hpos].
  - cbn [grep_loop].
    rewrite (interp_Ok (read _ _) _ _ _ _ (interp_trap _ _ _ _ E1)). cbn. exists (rem ++ junk), s1. split; [done|]. split; [|done].
    rewrite Hin1, Es. destruct (Hk0 eq_refl) as [Hb|He].
    + assert (z = []) as -> by (apply nil_length_inv; unfold BUFSIZE in Hb; lia). done.
    + rewrite Es in He. by apply app_eq_nil in He as [-> ->].
  - assert (take k (input s) = take k z /\ input s1 = drop k z ++ y) as [Et Ed].
    { rewrite Hin1, Es. by rewrite take_app_le, drop_app_le by lia. }
    assert (rem ++ z = (rem ++ take k z) ++ drop k z) as Ez by (by rewrite <- app_assoc, take_drop).
    rewrite Ez in H0, Hnl. pose proof H0 as H0a. pose proof Hnl as Hna.
    apply not_elem_of_app in H0a as [H0a _]. apply not_elem_of_app in Hna as [Hna _].
    destruct (grep_turn fuel rem junk k s s1 e E1 Hk ltac:(lia)) as (junk2 & s2 & Hl2 & -> & Hin2 & Hout2); [by rewrite Et|done|].
    rewrite Et, (split_lines_none (rem ++ take k z)) in * by done. cbn [fst snd] in *.
    destruct (IH (rem ++ take k z) (drop k z) y junk2 s2 e) as (buf' & s3 & E3 & Hin3 & Hout3); try done.
    + by rewrite Hin2.
    + rewrite <- Ez, length_app. lia.
    + rewrite length_drop. lia.
    + exists buf', s3. split; [exact E3|]. split; [done|]. rewrite Hout3, Hout2, Hout1. apply app_nil_r.
Qed.
End spec.

(** C26: grep selects the lines of the pattern's language.  For an input
    without null characters whose lines, and what follows the last, have fewer
    than 1023 characters, however the reads divide it, grep reads it to the end
    and writes, in order, exactly the complete lines that the pattern selects:
    [selects] is a membership in the language of the pattern, anchored by [^]
    and [$]. *)
Theorem grep_correct {S} `{!Sys S} fd (input output : S -> list Z) fuel pattern rs buf s e :
  stream_law fd input output -> is_cstring pattern rs -> length buf = 1024%nat -> 0 ∉ input s -> short (input s) ->
  (length (input s) < fuel)%nat ->
  exists buf' s' kept, interp (grep fuel pattern fd buf) (mkWorld s e) = Ok (inr buf') (mkWorld s' e) /\ input s' = [] /\
    (forall l, 0 ∉ l -> kept l = true <-> selects rs l) /\
    output s' = output s ++ mjoin ((fun l => l ++ [10]) <$> filter (fun l => kept l = true) (split_lines (input s)).1).
Proof.
  intros R Hp Hb H0 Hs Hf. destruct (grep_loop_spec fd input output R pattern rs Hp fuel [] buf s e) as (buf' & s' & E & Hi & Ho); try done.
  { apply not_elem_of_nil. }
  exists buf', s', (keep pattern). split; [exact E|]. split; [done|]. split; [|exact Ho].
  intros l Hl. exact (proj2 (match_keep pattern rs (l ++ [0]) l Hp ltac:(by exists []))).
Qed.

#[local] Existing Instance pipe_machine.

Definition input_example : list Z := bytes_of "abc" ++ [10] ++ bytes_of "xabc" ++ [10] ++ bytes_of "a--c" ++ [10] ++ bytes_of "ac".

Lemma grep_correct_witness : exists buf' out kept,
  interp (grep 40 (bytes_of "^a.*c$" ++ [0]) 0 (replicate 1024 0)) (mkWorld (input_example, []) []) = Ok (inr buf') (mkWorld ([], out) []) /\
  (forall l, 0 ∉ l -> kept l = true <-> selects (bytes_of "^a.*c$") l) /\
  out = mjoin ((fun l => l ++ [10]) <$> filter (fun l => kept l = true) [bytes_of "abc"; bytes_of "xabc"; bytes_of "a--c"]).
Proof.
  destruct (grep_correct 0 fst snd 40 (bytes_of "^a.*c$" ++ [0]) (bytes_of "^a.*c$") (replicate 1024 0) (input_example, []) [])
    as (buf' & [i o] & kept & E & Hi & Hk & Ho).
  - apply pipe_machine_law.
  - exists []. split; [reflexivity|]. compute_done.
  - apply length_replicate.
  - compute_done.
  - split; compute_done.
  - compute_done.
  - change (i = []) in Hi. subst i. exists buf', o, kept. split; [exact E|]. split; [exact Hk|exact Ho].
Defined.
