(* ===== verification/Umalloc.v ===== *)
(** * The user-level allocator

    user/umalloc.c: the free blocks are a ring of headers in ascending order of
    address, starting at the static header [base].  The state is the memory of
    a process as the allocator sees it: the words of [base] and of the heap
    between [heap0] and the break, and the limit [htop] up to which sbrk will
    move the break.  A header is two words, [ptr] and [size]; an access outside
    of [base] and the heap is a [Fault].

    The theorems: the heap is tiled by free and used blocks, no two free ones
    in a row; malloc makes one of a free one, or fails and changes no used
    block; free makes a used one free, joined with its neighbours; and neither
    touches the contents of any other used block. *)

From stdpp Require Import sorting.
From S2P Require Import Prelude Prog.

(** ** Memory *)

(** Where the linker put [base], and where the heap starts. *)
Class HeapLayout := { base : Z; heap0 : Z }.

Record uheap := mkHeap { hmem : gmap Z Z; hfreep : Z; hbrk : Z; htop : Z }.

Definition sizeof_Header : Z := 16.

Section umalloc.
Context {HL : HeapLayout}.

Definition mapped (h : uheap) (a : Z) : bool :=
  (base <=? a) && (a <? base + sizeof_Header) || (heap0 <=? a) && (a <? hbrk h).

Definition word (h : uheap) (a : Z) : Z := default 0 (hmem h !! a).

Definition upd (a v : Z) (h : uheap) : uheap := mkHeap (<[a := v]> (hmem h)) (hfreep h) (hbrk h) (htop h).

Definition load (a : Z) : Prog uheap Z :=
  h ← gets id; if mapped h a then mret (word h a) else fault "page fault".
Definition store (a v : Z) : Prog uheap unit :=
  h ← gets id; if mapped h a then modify (upd a v) else fault "page fault".

(** [p->s.ptr] and [p->s.size] *)
Definition get_ptr (p : Z) : Prog uheap Z := load p.
Definition set_ptr (p v : Z) : Prog uheap unit := store p v.
Definition get_size (p : Z) : Prog uheap Z := load (p + 8).
Definition set_size (p v : Z) : Prog uheap unit := store (p + 8) (u32 v).
Definition get_freep : Prog uheap Z := gets hfreep.
Definition set_freep (p : Z) : Prog uheap unit := modify (fun h => mkHeap (hmem h) p (hbrk h) (htop h)).

(** [p + n], a pointer to headers *)
Definition hplus (p n : Z) : Z := p + sizeof_Header * n.

(** sbrk as the kernel does it: the argument is an [int]; memory the break
    moves over reads as 0; and it refuses to go beyond what there is. *)
Definition sbrk (n : Z) : Prog uheap Z :=
  h ← gets id;
  let n := s32 n in
  if htop h <? hbrk h + n then mret (-1) else
  let brk := if (n <? 0) && (hbrk h + n <? 0) then hbrk h else hbrk h + n in
  modify (fun h => mkHeap (filter (fun kv => kv.1 < hbrk h) (hmem h)) (hfreep h) brk (htop h));;
  mret (hbrk h).

(** A bound on the headers of the ring: twice around it, a header per unit. *)
Definition ring_fuel (h : uheap) : nat := 2 * Z.to_nat (hbrk h) + 4.

(** ** umalloc.c *)

(** The loop of free: the [p] it ends with. *)
Fixpoint free_loop (fuel : nat) (bp p : Z) : Prog uheap Z :=
  match fuel with
  | O => fault "free fuel"
  | S fuel =>
    nx ← get_ptr p;
    if (p <? bp) && (bp <? nx) then mret p else
    if (nx <=? p) && ((p <? bp) || (bp <? nx)) then mret p else
    free_loop fuel bp nx
  end.

Definition free (ap : Z) : Prog uheap unit :=
  let bp := ap - sizeof_Header in
  p ← get_freep;
  fuel ← gets ring_fuel;
  p ← free_loop fuel bp p;
  sz ← get_size bp;
  nx ← get_ptr p;
  (if hplus bp sz =? nx then
     nsz ← get_size nx;
     set_size bp (sz + nsz);;
     nnx ← get_ptr nx;
     set_ptr bp nnx
   else set_ptr bp nx);;
  psz ← get_size p;
  (if hplus p psz =? bp then
     sz ← get_size bp;
     set_size p (psz + sz);;
     nx ← get_ptr bp;
     set_ptr p nx
   else set_ptr p bp);;
  set_freep p.

(** 0 when there is no memory *)
Definition morecore (nu : Z) : Prog uheap Z :=
  let nu := if nu <? 4096 then 4096 else nu in
  p ← sbrk (u64 (nu * sizeof_Header));
  if p =? -1 then mret 0 else
  set_size p nu;;
  free (hplus p 1);;
  get_freep.

(** [p->s.size >= nunits]: the block, or its end, is taken. *)
Definition malloc_take (prevp p nunits : Z) : Prog uheap Z :=
  sz ← get_size p;
  p ← (if sz =? nunits then
         nx ← get_ptr p;
         set_ptr prevp nx;;
         mret p
       else
         set_size p (sz - nunits);;
         sz ← get_size p;
         let p := hplus p sz in
         set_size p nunits;;
         mret p);
  set_freep prevp;;
  mret (hplus p 1).

Fixpoint malloc_loop (fuel : nat) (nunits prevp p : Z) : Prog uheap Z :=
  match fuel with
  | O => fault "malloc fuel"
  | S fuel =>
    sz ← get_size p;
    if nunits <=? sz then malloc_take prevp p nunits else
    freep ← get_freep;
    if p =? freep then
      p ← morecore nunits;
      if p =? 0 then mret 0 else
      nx ← get_ptr p;
      malloc_loop fuel nunits p nx
    else
      nx ← get_ptr p;
      malloc_loop fuel nunits p nx
  end.

Definition malloc (nbytes : Z) : Prog uheap Z :=
  let nunits := u32 ((nbytes + sizeof_Header - 1) / sizeof_Header + 1) in
  prevp ← get_freep;
  prevp ← (if prevp =? 0 then
             set_ptr base base;;
             set_freep base;;
             set_size base 0;;
             mret base
           else mret prevp);
  p ← get_ptr prevp;
  fuel ← gets ring_fuel;
  malloc_loop (2 * fuel) nunits prevp p.
End umalloc.

(** ** The ring *)

Section ring.
Context {HL : HeapLayout}.
Implicit Types (h : uheap) (N : list (Z * Z)).

Lemma word_upd h a v b : word (upd a v h) b = if decide (b = a) then v else word h b.
Proof.
  unfold word, upd. cbn. destruct (decide (b = a)) as [->|]; [by rewrite lookup_insert_eq|by rewrite lookup_insert_ne].
Qed.

Lemma load_ok h e a : mapped h a = true -> load a (mkWorld h e) = Ok (word h a) (mkWorld h e).
Proof. intros H. unfold load, id. run. by rewrite H. Qed.

Lemma store_ok h e a v : mapped h a = true -> store a v (mkWorld h e) = Ok tt (mkWorld (upd a v h) e).
Proof. intros H. unfold store, id. run. by rewrite H. Qed.

Definition hd_addr N (stop : Z) : Z := match N with [] => stop | (a, _) :: _ => a end.

(** The nodes, address and size, are linked in this order, the last to [stop]. *)
Fixpoint chain h N (stop : Z) : Prop :=
  match N with
  | [] => True
  | (a, s) :: N => word h a = hd_addr N stop /\ word h (a + 8) = s /\ chain h N stop
  end.

Lemma chain_app h N1 N2 stop : chain h (N1 ++ N2) stop <-> chain h N1 (hd_addr N2 stop) /\ chain h N2 stop.
Proof.
  induction N1 as [|[a s] N1 IH]; cbn; [tauto|]. rewrite IH.
  assert (hd_addr (N1 ++ N2) stop = hd_addr N1 (hd_addr N2 stop)) as -> by (by destruct N1 as [|[]]). tauto.
Qed.

Lemma chain_same h h' N stop : (forall a s, (a, s) ∈ N -> word h' a = word h a /\ word h' (a + 8) = word h (a + 8)) ->
  chain h N stop -> chain h' N stop.
Proof.
  induction N as [|[a s] N IH]; cbn; [done|]. intros H (H1 & H2 & H3). destruct (H a s ltac:(by left)) as [-> ->].
  split; [done|]. split; [done|]. apply IH; [|done]. intros b t Hb. apply (H b t). by right.
Qed.

(** ** Tilings *)

(** The blocks of the heap in the order of their addresses: size in headers,
    and whether it is used. *)
Abbreviation tiling := (list (Z * bool)).
Implicit Types (T : tiling).

Fixpoint frees (a : Z) T : list (Z * Z) :=
  match T with
  | [] => []
  | (s, u) :: T => (if u then [] else [(a, s)]) ++ frees (a + sizeof_Header * s) T
  end.

Fixpoint useds (a : Z) T : list (Z * Z) :=
  match T with
  | [] => []
  | (s, u) :: T => (if u then [(a, s)] else []) ++ useds (a + sizeof_Header * s) T
  end.

Fixpoint tend (a : Z) T : Z :=
  match T with
  | [] => a
  | (s, _) :: T => tend (a + sizeof_Header * s) T
  end.

Definition positive T : Prop := Forall (fun t => 0 < t.1) T.

(** No two free blocks in a row. *)
Definition head_used T : bool := match T with (_, u) :: _ => u | [] => true end.
Fixpoint last_used T : bool :=
  match T with
  | [] => true
  | [(_, u)] => u
  | _ :: T => last_used T
  end.
Fixpoint coalesced T : bool :=
  match T with
  | [] => true
  | (_, u) :: T => (u || head_used T) && coalesced T
  end.

Lemma frees_app a T1 T2 : frees a (T1 ++ T2) = frees a T1 ++ frees (tend a T1) T2.
Proof. revert a. induction T1 as [|[s u] T1 IH]; intros a; cbn; [done|]. by rewrite IH, app_assoc. Qed.

Lemma useds_app a T1 T2 : useds a (T1 ++ T2) = useds a T1 ++ useds (tend a T1) T2.
Proof. revert a. induction T1 as [|[s u] T1 IH]; intros a; cbn; [done|]. by rewrite IH, app_assoc. Qed.

Lemma tend_app a T1 T2 : tend a (T1 ++ T2) = tend (tend a T1) T2.
Proof. revert a. induction T1 as [|[s u] T1 IH]; intros a; cbn; [done|]. by rewrite IH. Qed.

Lemma tend_le a T : positive T -> a <= tend a T.
Proof. revert a. induction T as [|[s u] T IH]; intros a H; cbn; [lia|]. inversion H; subst. specialize (IH (a + sizeof_Header * s) ltac:(done)). unfold sizeof_Header in *. cbn in *. lia. Qed.

Lemma coalesced_app T1 T2 : coalesced (T1 ++ T2) = coalesced T1 && coalesced T2 && (last_used T1 || head_used T2).
Proof.
  induction T1 as [|[s u] T1 IH]; cbn [app coalesced last_used]; [by rewrite andb_true_r|].
  rewrite IH. destruct T1 as [|[s' u'] T1]; cbn [app head_used coalesced last_used].
  - rewrite !orb_true_r, !andb_true_r. cbn. by rewrite andb_comm.
  - by rewrite !andb_assoc.
Qed.

(** A block lies in the heap. *)
Lemma frees_range a T p s : positive T -> (p, s) ∈ frees a T -> a <= p /\ 0 < s /\ p + sizeof_Header * s <= tend a T.
Proof.
  revert a. induction T as [|[t u] T IH]; intros a H; cbn; [by intros ?%elem_of_nil|]. inversion H as [|? ? Ht HT]; subst. cbn in Ht.
  pose proof (tend_le (a + sizeof_Header * t) T HT). rewrite elem_of_app. unfold sizeof_Header in *. intros [Hp|Hp].
  - destruct u; [by apply elem_of_nil in Hp|]. apply list_elem_of_singleton in Hp as [= -> ->]. lia.
  - specialize (IH _ HT Hp). lia.
Qed.

Lemma useds_range a T p s : positive T -> (p, s) ∈ useds a T -> a <= p /\ 0 < s /\ p + sizeof_Header * s <= tend a T.
Proof.
  revert a. induction T as [|[t u] T IH]; intros a H; cbn; [by intros ?%elem_of_nil|]. inversion H as [|? ? Ht HT]; subst. cbn in Ht.
  pose proof (tend_le (a + sizeof_Header * t) T HT). rewrite elem_of_app. unfold sizeof_Header in *. intros [Hp|Hp].
  - destruct u; [|by apply elem_of_nil in Hp]. apply list_elem_of_singleton in Hp as [= -> ->]. lia.
  - specialize (IH _ HT Hp). lia.
Qed.

Lemma frees_split a T p s : (p, s) ∈ frees a T -> exists T1 T2, T = T1 ++ (s, false) :: T2 /\ p = tend a T1.
Proof.
  revert a. induction T as [|[t u] T IH]; intros a; cbn; [by intros ?%elem_of_nil|]. rewrite elem_of_app. intros [Hp|Hp].
  - destruct u; [by apply elem_of_nil in Hp|]. apply list_elem_of_singleton in Hp as [= -> ->]. by exists [], T.
  - destruct (IH _ Hp) as (T1 & T2 & -> & ->). by exists ((t, u) :: T1), T2.
Qed.

Lemma useds_split a T p s : (p, s) ∈ useds a T -> exists T1 T2, T = T1 ++ (s, true) :: T2 /\ p = tend a T1.
Proof.
  revert a. induction T as [|[t u] T IH]; intros a; cbn; [by intros ?%elem_of_nil|]. rewrite elem_of_app. intros [Hp|Hp].
  - destruct u; [|by apply elem_of_nil in Hp]. apply list_elem_of_singleton in Hp as [= -> ->]. by exists [], T.
  - destruct (IH _ Hp) as (T1 & T2 & -> & ->). by exists ((t, u) :: T1), T2.
Qed.

(** Blocks do not overlap. *)
Lemma free_used_apart a T p s q t : positive T -> (p, s) ∈ frees a T -> (q, t) ∈ useds a T ->
  p + sizeof_Header * s <= q \/ q + sizeof_Header * t <= p.
Proof.
  intros H Hp Hq. apply frees_split in Hp as (T1 & T2 & -> & ->). apply Forall_app in H as [H1 H2]. inversion H2; subst.
  rewrite useds_app in Hq. apply elem_of_app in Hq as [Hq|Hq].
  - right. apply useds_range in Hq as (_ & _ & Hq); [exact Hq|done].
  - cbn in Hq. apply useds_range in Hq; [|done]. left. lia.
Qed.
End ring.

(** ** Well-formed heaps *)

Class HeapLayoutOk {HL : HeapLayout} : Prop := { base_pos : 0 < base; base_low : base + sizeof_Header <= heap0 }.

Section heap.
Context {HL : HeapLayout} {HO : HeapLayoutOk}.
Implicit Types (h : uheap) (N : list (Z * Z)) (T : list (Z * bool)).

Definition nodes T : list (Z * Z) := (base, 0) :: frees heap0 T.

Record heap_ok h T : Prop := {
  ho_pos : positive T;
  ho_end : tend heap0 T = hbrk h;
  ho_top : hbrk h <= htop h < 2147483648;
  ho_sep : coalesced T = true;
  ho_ring : if decide (hfreep h = 0) then T = [] else chain h (nodes T) base /\ hfreep h ∈ (nodes T).*1;
  ho_used a s : (a, s) ∈ useds heap0 T -> word h (a + 8) = s
}.

(** Headers do not overlap, and are in ascending order. *)
Definition below (x y : Z * Z) : Prop := x.1 + sizeof_Header <= y.1.

Lemma frees_sorted a T : positive T -> StronglySorted below (frees a T).
Proof.
  revert a. induction T as [|[s u] T IH]; intros a H; cbn; [constructor|]. inversion H as [|? ? Hs HT]; subst. cbn in Hs.
  destruct u; cbn; [by apply IH|]. constructor; [by apply IH|]. apply Forall_forall. intros [p t] Hp.
  apply frees_range in Hp; [|done]. unfold below, sizeof_Header in *. cbn. lia.
Qed.

Lemma nodes_sorted T : positive T -> StronglySorted below (nodes T).
Proof.
  intros H. constructor; [by apply frees_sorted|]. apply Forall_forall. intros [p t] Hp. apply frees_range in Hp; [|done].
  pose proof base_low. unfold below. cbn. lia.
Qed.

(** Every word of a node's header can be accessed. *)
Definition reach h N : Prop := forall a s, (a, s) ∈ N -> mapped h a = true /\ mapped h (a + 8) = true.

Lemma mapped_heap h a : heap0 <= a < hbrk h -> mapped h a = true.
Proof. intros H. unfold mapped. apply orb_true_intro. right. apply andb_true_intro. split; [apply Z.leb_le|apply Z.ltb_lt]; lia. Qed.

Lemma mapped_base h a : base <= a < base + sizeof_Header -> mapped h a = true.
Proof. intros H. unfold mapped. apply orb_true_intro. left. apply andb_true_intro. split; [apply Z.leb_le|apply Z.ltb_lt]; lia. Qed.

Lemma reach_nodes h T : positive T -> tend heap0 T <= hbrk h -> reach h (nodes T).
Proof.
  intros H Hb a s Ha. unfold nodes in Ha. apply elem_of_cons in Ha as [[= -> ->]|Ha].
  - split; apply mapped_base; unfold sizeof_Header; lia.
  - apply frees_range in Ha; [|done]. unfold sizeof_Header in *. split; apply mapped_heap; lia.
Qed.

Lemma get_ptr_ok h e N a s : reach h N -> (a, s) ∈ N -> get_ptr a (mkWorld h e) = Ok (word h a) (mkWorld h e).
Proof. intros R Ha. apply load_ok. by apply (R a s). Qed.

Lemma get_size_ok h e N a s : reach h N -> (a, s) ∈ N -> get_size a (mkWorld h e) = Ok (word h (a + 8)) (mkWorld h e).
Proof. intros R Ha. apply load_ok. by apply (R a s). Qed.

(** *** The search of free *)

Section search.
Context (h : uheap) (e : list (uheap -> uheap)) (bp : Z) (L1 L2 : list (Z * Z)) (p sp : Z).
Context (HC : chain h (L1 ++ (p, sp) :: L2) base) (HS : StronglySorted below (L1 ++ (p, sp) :: L2)).
Context (HR : reach h (L1 ++ (p, sp) :: L2)) (HB : hd_addr (L1 ++ (p, sp) :: L2) base = base).
Context (Hlow : p < bp) (Hhigh : Forall (fun x => bp < x.1) L2).

Lemma search_low L0 L1' fuel : L1 = L0 ++ L1' -> (length L1' < fuel)%nat ->
  free_loop fuel bp (hd_addr (L1' ++ [(p, sp)]) base) (mkWorld h e) = Ok p (mkWorld h e).
Proof using HC HS HR HB Hlow Hhigh.
  revert L0 fuel. induction L1' as [|[a s] L1' IH]; intros L0 fuel E Hf; (destruct fuel as [|fuel]; [lia|]).
  - rewrite app_nil_r in E. subst L0. cbn [app hd_addr free_loop].
    assert ((p, sp) ∈ L1 ++ (p, sp) :: L2) as Hin by (apply elem_of_app; right; by left).
    rewrite (bind_Ok _ _ _ _ _ (get_ptr_ok h e _ p sp HR Hin)).
    apply chain_app in HC as [_ HC']. cbn in HC'. destruct HC' as (-> & _ & _).
    destruct (Z.ltb_spec p bp); [|lia]. cbn [andb]. destruct L2 as [|[y sy] L2']; cbn [hd_addr].
    + assert (base <= p) as Hbp.
      { destruct L1 as [|[b sb] L1'']; cbn in HB; [lia|]. subst b. inversion HS as [|? ? _ Hall]; subst.
        rewrite Forall_forall in Hall. specialize (Hall (p, sp)). unfold below, sizeof_Header in Hall. cbn in Hall.
        assert (base + 16 <= p) by (apply Hall; apply elem_of_app; right; by left). lia. }
      destruct (Z.ltb_spec bp base); [done|]. destruct (Z.leb_spec base p); [done|lia].
    + inversion Hhigh; subst. cbn in *. destruct (Z.ltb_spec bp y); [done|lia].
  - cbn [app hd_addr free_loop].
    assert ((a, s) ∈ L1 ++ (p, sp) :: L2) as Hin by (rewrite E, <- app_assoc; apply elem_of_app; right; by left).
    rewrite (bind_Ok _ _ _ _ _ (get_ptr_ok h e _ a s HR Hin)).
    rewrite E, <- app_assoc in HC, HS. apply chain_app in HC as [_ HC']. cbn in HC'. destruct HC' as (-> & _ & _).
    apply StronglySorted_app_1_r in HS. inversion HS as [|? ? HS' Hall]; subst.
    assert (hd_addr (L1' ++ (p, sp) :: L2) base = hd_addr (L1' ++ [(p, sp)]) base) as -> by (by destruct L1' as [|[]]).
    set (nx := hd_addr _ _). assert (a < nx <= p) as Hnx.
    { unfold nx. destruct L1' as [|[b sb] L1'']; cbn [app hd_addr].
      - inversion Hall as [|? ? Hp _]; subst. unfold below, sizeof_Header in Hp. cbn in Hp. lia.
      - inversion Hall as [|? ? Hp _]; subst. inversion HS' as [|? ? _ Hall']; subst. rewrite Forall_forall in Hall'.
        specialize (Hall' (p, sp)). unfold below, sizeof_Header in Hp, Hall'. cbn in Hp, Hall'.
        assert (b + 16 <= p) by (apply Hall'; apply elem_of_app; right; by left). lia. }
    destruct (Z.ltb_spec a bp); [|lia]. cbn [andb orb]. destruct (Z.ltb_spec bp nx); [lia|]. destruct (Z.leb_spec nx a); [lia|]. cbn [andb].
    apply (IH (L0 ++ [(a, s)])); [by rewrite <- app_assoc|cbn in Hf; lia].
Qed.

Lemma search_high L0 L2' fuel : L2 = L0 ++ L2' -> (length L1 + length L2' < fuel)%nat ->
  free_loop fuel bp (hd_addr L2' base) (mkWorld h e) = Ok p (mkWorld h e).
Proof using HC HS HR HB Hlow Hhigh.
  revert L0 fuel. induction L2' as [|[a s] L2' IH]; intros L0 fuel E Hf.
  - cbn [hd_addr]. assert (base = hd_addr (L1 ++ [(p, sp)]) base) as Eb.
    { destruct L1 as [|[]]; cbn in HB |- *; congruence. }
    rewrite Eb. apply (search_low []); [done|cbn in Hf; lia].
  - destruct fuel as [|fuel]; [lia|]. cbn [hd_addr free_loop].
    assert ((a, s) ∈ L2) as Hin2 by (rewrite E; apply elem_of_app; right; by left).
    assert ((a, s) ∈ L1 ++ (p, sp) :: L2) as Hin by (apply elem_of_app; right; by right).
    rewrite (bind_Ok _ _ _ _ _ (get_ptr_ok h e _ a s HR Hin)).
    pose proof HC as HC'. change ((p, sp) :: L2) with ([(p, sp)] ++ L2) in HC'. rewrite E, !app_assoc in HC'.
    apply chain_app in HC' as [_ HC']. cbn in HC'. destruct HC' as (-> & _ & _).
    rewrite Forall_forall in Hhigh. pose proof (Hhigh _ Hin2) as Ha. cbn in Ha.
    assert (base <= bp) as Hbb.
    { destruct L1 as [|[b sb] L1'']; cbn in HB; [lia|]. subst b. inversion HS as [|? ? _ Hall]; subst.
      rewrite Forall_forall in Hall. specialize (Hall (p, sp)). unfold below, sizeof_Header in Hall. cbn in Hall.
      assert (base + 16 <= p) by (apply Hall; apply elem_of_app; right; by left). lia. }
    destruct (Z.ltb_spec a bp); [lia|]. cbn [andb orb].
    assert ((hd_addr L2' base <=? a) && (bp <? hd_addr L2' base) = false) as ->.
    { destruct L2' as [|[b sb] L2'']; cbn [hd_addr].
      - destruct (Z.ltb_spec bp base); [lia|]. apply andb_false_r.
      - assert (a < b) as Hab; [|destruct (Z.leb_spec b a); [lia|done]].
        change ((p, sp) :: L2) with ([(p, sp)] ++ L2) in HS. rewrite E, !app_assoc in HS. apply StronglySorted_app_1_r in HS.
        inversion HS as [|? ? _ Hall]; subst. inversion Hall as [|? ? Hb _]; subst. unfold below, sizeof_Header in Hb. cbn in Hb. lia. }
    apply (IH (L0 ++ [(a, s)])); [by rewrite <- app_assoc|cbn in Hf; lia].
Qed.

Lemma search_ok f fuel : f ∈ (L1 ++ (p, sp) :: L2).*1 -> (length L1 + length L2 + 1 < fuel)%nat ->
  free_loop fuel bp f (mkWorld h e) = Ok p (mkWorld h e).
Proof using HC HS HR HB Hlow Hhigh.
  intros Hf Hfuel. apply list_elem_of_fmap in Hf as ([f' s] & -> & Hf). cbn [fst]. apply elem_of_app in Hf as [Hf|Hf].
  - apply list_elem_of_split in Hf as (La & Lb & E). change f' with (hd_addr (((f', s) :: Lb) ++ [(p, sp)]) base).
    apply (search_low La); [done|]. apply (f_equal length) in E. rewrite length_app in E. lia.
  - apply elem_of_cons in Hf as [[= -> ->]|Hf].
    + change p with (hd_addr ([] ++ [(p, sp)]) base) at 1. apply (search_low L1); [by rewrite app_nil_r|cbn; lia].
    + apply list_elem_of_split in Hf as (La & Lb & E). change f' with (hd_addr ((f', s) :: Lb) base).
      apply (search_high La); [done|]. apply (f_equal length) in E. rewrite length_app in E. lia.
Qed.
End search.

(** *** The neighbours of a block *)

Lemma last_used_snoc T s u : last_used (T ++ [(s, u)]) = u.
Proof. induction T as [|t T IH]; [done|]. cbn [app]. destruct T as [|t' T]; cbn in *; [by destruct t|]. by destruct t. Qed.

Lemma left_end T1 L1 p sp : positive T1 -> (base, 0) :: frees heap0 T1 = L1 ++ [(p, sp)] ->
  (last_used T1 = true /\ p + sizeof_Header * sp <> tend heap0 T1) \/
  exists T1' , T1 = T1' ++ [(sp, false)] /\ p = tend heap0 T1' /\ L1 = (base, 0) :: frees heap0 T1'.
Proof using HO.
  intros H E. pose proof base_low as Hb. destruct T1 as [|[t u] T1' _] using rev_ind.
  - left. split; [done|]. cbn in *. change [(base, 0)] with ([] ++ [(base, 0)]) in E. apply app_inj_tail in E as [_ [= <- <-]].
    unfold sizeof_Header in *. lia.
  - apply Forall_app in H as [H1 H2]. inversion H2 as [|? ? Ht _]; subst. cbn in Ht. rewrite frees_app, tend_app in *. cbn in *.
    pose proof (tend_le heap0 T1' H1). destruct u.
    + left. rewrite last_used_snoc. split; [done|]. rewrite app_nil_r in E.
      assert ((p, sp) ∈ (base, 0) :: frees heap0 T1') as Hp by (rewrite E; apply elem_of_app; right; by left).
      unfold sizeof_Header in *. apply elem_of_cons in Hp as [[= -> ->]|Hp]; [lia|]. apply frees_range in Hp; [unfold sizeof_Header in *; lia|done].
    + right. rewrite app_comm_cons in E. apply app_inj_tail in E as [<- [= <- <-]]. by exists T1'.
Qed.

Lemma right_start b T2 : positive T2 -> heap0 <= b ->
  (head_used T2 = true /\ hd_addr (frees b T2) base <> b) \/ exists t T2', T2 = (t, false) :: T2'.
Proof using HO.
  intros H Hb. pose proof base_low as Hl. unfold sizeof_Header in Hl. destruct T2 as [|[t u] T2]; [left; cbn; split; [done|lia]|].
  destruct u; [left|by eauto]. split; [done|]. inversion H as [|? ? Ht HT]; subst. cbn in Ht |- *.
  destruct (frees (b + sizeof_Header * t) T2) as [|[a s] F] eqn:E; cbn; [lia|].
  assert ((a, s) ∈ frees (b + sizeof_Header * t) T2) as Ha by (rewrite E; by left). apply frees_range in Ha; [|done].
  unfold sizeof_Header in *. lia.
Qed.

(** *** free *)

(** The words that may change: those of the ring, and of the block. *)
Definition free_word a T (w : Z) : Prop := exists b s, (b, s) ∈ frees a T /\ b <= w < b + sizeof_Header * s.

Definition ring_word T (w : Z) : Prop := base <= w < base + sizeof_Header \/ free_word heap0 T w.

Lemma free_word_app a T1 T2 w : free_word a (T1 ++ T2) w <-> free_word a T1 w \/ free_word (tend a T1) T2 w.
Proof.
  unfold free_word. rewrite frees_app. setoid_rewrite elem_of_app. naive_solver.
Qed.

Lemma free_word_cons a s T w :
  free_word a ((s, false) :: T) w <-> a <= w < a + sizeof_Header * s \/ free_word (a + sizeof_Header * s) T w.
Proof.
  unfold free_word. cbn [frees app]. setoid_rewrite elem_of_cons. split; [|naive_solver].
  intros (b & t & [[= -> ->]|H] & Hw); naive_solver.
Qed.

Definition block_word (bp s w : Z) : Prop := bp <= w < bp + sizeof_Header * s.

Lemma set_size_ok h e a v : mapped h (a + 8) = true -> 0 <= v < 4294967296 ->
  set_size a v (mkWorld h e) = Ok tt (mkWorld (upd (a + 8) v h) e).
Proof. intros Hm Hv. unfold set_size. rewrite u32_small by done. by apply store_ok. Qed.

Lemma set_ptr_ok h e a v : mapped h a = true -> set_ptr a v (mkWorld h e) = Ok tt (mkWorld (upd a v h) e).
Proof. intros Hm. by apply store_ok. Qed.

(** The block is joined with the free block that follows, if there is one. *)
Lemma join_right h e bp s T2 : positive T2 -> heap0 <= bp -> 0 < s -> word h (bp + 8) = s ->
  tend (bp + sizeof_Header * s) T2 = hbrk h -> hbrk h < 2147483648 -> 0 <= heap0 ->
  chain h (frees (bp + sizeof_Header * s) T2) base -> coalesced T2 = true ->
  exists h' s' T2', (
    let nx := hd_addr (frees (bp + sizeof_Header * s) T2) base in
    if hplus bp s =? nx then
      nsz ← get_size nx; set_size bp (s + nsz);; nnx ← get_ptr nx; set_ptr bp nnx
    else set_ptr bp nx) (mkWorld h e) = Ok tt (mkWorld h' e) /\
    (forall w, w <> bp -> w <> bp + 8 -> word h' w = word h w) /\
    hbrk h' = hbrk h /\ htop h' = htop h /\ hfreep h' = hfreep h /\
    word h' bp = hd_addr (frees (bp + sizeof_Header * s') T2') base /\ word h' (bp + 8) = s' /\
    positive T2' /\ 0 < s' /\ tend (bp + sizeof_Header * s') T2' = hbrk h /\ head_used T2' = true /\
    coalesced T2' = true /\
    useds (bp + sizeof_Header * s') T2' = useds (bp + sizeof_Header * s) T2 /\
    s <= s' /\ chain h (frees (bp + sizeof_Header * s') T2') base /\
    (length (frees (bp + sizeof_Header * s') T2') <= length (frees (bp + sizeof_Header * s) T2))%nat /\
    (forall w, free_word bp ((s', false) :: T2') w -> free_word bp ((s, false) :: T2) w).
Proof using HO.
  intros H Hbp Hs Hw He Hlt H0 HC Hco. pose proof (tend_le (bp + sizeof_Header * s) T2 H) as Hte. rewrite He in Hte. set (b := bp + sizeof_Header * s) in *. cbv zeta. unfold hplus. fold b.
  assert (mapped h bp = true /\ mapped h (bp + 8) = true) as [Hm1 Hm2] by (unfold b, sizeof_Header in *; split; apply mapped_heap; lia).
  destruct (right_start b T2 H) as [[Hu Hne]|(t & T2' & ->)]; [unfold b, sizeof_Header; lia| |].
  - destruct (Z.eqb_spec b (hd_addr (frees b T2) base)); [congruence|]. rewrite set_ptr_ok by done.
    do 3 eexists. split; [reflexivity|]. split; [intros w Hw1 Hw2; rewrite word_upd; by rewrite decide_False|]. do 3 (split; [done|]).
    split; [rewrite word_upd; by rewrite decide_True|]. split; [rewrite word_upd, decide_False by lia; exact Hw|]. done.
  - cbn [frees app hd_addr] in *. destruct (Z.eqb_spec b b); [|done]. apply Forall_cons in H as [Ht HT]. cbn in Ht.
    cbn [chain] in HC. destruct HC as (C1 & C2 & C3). cbn [tend] in He. pose proof (tend_le (b + sizeof_Header * t) T2' HT) as Hte2. rewrite He in Hte2.
    assert (mapped h b = true /\ mapped h (b + 8) = true) as [Hm3 Hm4] by (unfold b, sizeof_Header in *; split; apply mapped_heap; lia).
    rewrite (bind_Ok _ _ _ _ _ (load_ok h e (b + 8) Hm4)), C2.
    rewrite (bind_Ok _ _ _ _ _ (set_size_ok h e bp (s + t) Hm2 ltac:(unfold b, sizeof_Header in *; lia))).
    unfold get_ptr. rewrite (bind_Ok _ _ _ _ _ (load_ok (upd _ _ h) e b Hm3)), set_ptr_ok by done.
    rewrite word_upd, decide_False by (unfold b, sizeof_Header; lia). rewrite C1.
    do 3 eexists. split; [reflexivity|]. split; [intros w Hw1 Hw2; rewrite !word_upd; by rewrite !decide_False|]. do 3 (split; [done|]).
    assert (b + sizeof_Header * t = bp + sizeof_Header * (s + t)) as Eb by (unfold b; lia). rewrite Eb in *.
    split; [rewrite word_upd; by rewrite decide_True|]. split; [rewrite !word_upd, decide_False, decide_True by lia; done|].
    cbn [coalesced orb] in Hco. apply andb_prop in Hco as [Hh Hco].
    split; [exact HT|]. split; [lia|]. split; [exact He|]. split; [exact Hh|]. split; [exact Hco|]. cbn [useds app]. rewrite Eb.
    split; [done|]. split; [lia|]. split; [exact C3|]. split; [cbn [frees app length]; lia|]. intros w Hw'. rewrite !free_word_cons in *. fold b. rewrite Eb.
    destruct Hw' as [Hw'|Hw']; [|by right; right]. destruct (Z.lt_ge_cases w b); [left; lia|right; left; lia].
Qed.

Lemma used_not_ring T a s w : positive T -> (a, s) ∈ useds heap0 T -> block_word a s w -> ~ ring_word T w.
Proof using HO.
  intros H Ha Hw. pose proof base_low. pose proof (useds_range heap0 T a s H Ha) as Hr. unfold block_word in Hw.
  intros [Hb|(b & t & Hb & Hbw)]; [lia|]. pose proof (free_used_apart heap0 T b t a s H Hb Ha). lia.
Qed.

(** The used blocks before and after one. *)
Lemma useds_around T1 s T2 a t : positive (T1 ++ (s, true) :: T2) ->
  (a, t) ∈ useds heap0 T1 ++ useds (tend heap0 T1 + sizeof_Header * s) T2 ->
  (a, t) ∈ useds heap0 (T1 ++ (s, true) :: T2) /\ 0 < t /\
  (a + sizeof_Header * t <= tend heap0 T1 \/ tend heap0 T1 + sizeof_Header * s <= a).
Proof.
  intros H Ha. apply Forall_app in H as [H1 H2]. apply Forall_cons in H2 as [_ H2]. rewrite useds_app. cbn [useds app].
  apply elem_of_app in Ha as [Ha|Ha]; apply useds_range in Ha as Hr; try done.
  - split; [apply elem_of_app; by left|]. lia.
  - split; [apply elem_of_app; right; by right|]. lia.
Qed.

Lemma length_frees a T : positive T -> sizeof_Header * Z.of_nat (length (frees a T)) <= tend a T - a.
Proof.
  revert a. induction T as [|[s u] T IH]; intros a H; cbn [frees tend length]; [unfold sizeof_Header; lia|].
  apply Forall_cons in H as [Hs H]. cbn in Hs. specialize (IH (a + sizeof_Header * s) H). rewrite length_app.
  unfold sizeof_Header in *. destruct u; cbn [length]; lia.
Qed.

Lemma ring_fuel_enough h T : positive T -> tend heap0 T = hbrk h -> 0 <= heap0 -> (length (nodes T) + 1 < ring_fuel h)%nat.
Proof.
  intros H He H0. pose proof (length_frees heap0 T H). pose proof (tend_le heap0 T H). unfold nodes, ring_fuel, sizeof_Header in *. cbn [length]. lia.
Qed.

(** The second join of free: [p] is the node before the block at the end of
    [T1], which has been joined with its right neighbour. *)
Section left.
Context (h : uheap) (e : list (uheap -> uheap)) (T1 T2 : list (Z * bool)) (s : Z) (L1 : list (Z * Z)) (p sp : Z).
Local Abbreviation bp := (tend heap0 T1).
Local Abbreviation N2 := (frees (bp + sizeof_Header * s) T2).
Context (P1 : positive T1) (Ps : 0 < s) (P2 : positive T2).
Context (He : tend (bp + sizeof_Header * s) T2 = hbrk h) (Hlt : hbrk h < 2147483648).
Context (Co1 : coalesced T1 = true) (Co2 : coalesced T2 = true) (Hu : head_used T2 = true).
Context (EL : (base, 0) :: frees heap0 T1 = L1 ++ [(p, sp)]) (C1 : chain h L1 p) (Wp : word h (p + 8) = sp).
Context (Wb : word h bp = hd_addr N2 base) (Wbs : word h (bp + 8) = s) (C2 : chain h N2 base).

Lemma left_in : (p, sp) ∈ nodes T1.
Proof using EL. unfold nodes. rewrite EL. apply elem_of_app. right. by left. Qed.

Lemma left_range : base <= p /\ p + sizeof_Header <= bp /\ 0 <= sp /\ p + sizeof_Header * sp <= bp.
Proof using HO EL P1.
  pose proof base_low. pose proof base_pos. pose proof (tend_le heap0 T1 P1). pose proof left_in as Hp.
  apply elem_of_cons in Hp as [[= Ep Es]|Hp]; [|apply frees_range in Hp; [|done]]; unfold sizeof_Header in *; lia.
Qed.

Lemma right_range : heap0 <= bp /\ bp + sizeof_Header * s <= hbrk h.
Proof using P1 P2 He. pose proof (tend_le heap0 T1 P1). pose proof (tend_le (bp + sizeof_Header * s) T2 P2). lia. Qed.

Lemma left_mapped : mapped h p = true /\ mapped h (p + 8) = true.
Proof using EL P1 P2 He Ps.
  apply (reach_nodes h T1) with (s := sp); [done| |apply left_in]. pose proof right_range. unfold sizeof_Header in *. lia.
Qed.

Lemma block_mapped : mapped h bp = true /\ mapped h (bp + 8) = true.
Proof using P1 P2 He Ps. pose proof right_range. unfold sizeof_Header in *. split; apply mapped_heap; lia. Qed.

(** The nodes before [p], and those after the block, are apart from both. *)
Lemma left_below a t : (a, t) ∈ L1 -> a + sizeof_Header <= p.
Proof using HO EL P1.
  intros Ha. assert (StronglySorted below (L1 ++ [(p, sp)])) as HS by (rewrite <- EL; by apply nodes_sorted).
  assert (below (a, t) (p, sp)) as H by (eapply StronglySorted_app_1_elem_of; [exact HS|done|by left]). exact H.
Qed.

Lemma right_above a t : (a, t) ∈ N2 -> bp + sizeof_Header <= a.
Proof using P2 Ps. intros Ha. apply frees_range in Ha; [|done]. unfold sizeof_Header in *. lia. Qed.

Lemma chains_same h' : (forall w, w <> p -> w <> p + 8 -> word h' w = word h w) -> chain h' L1 p /\ chain h' N2 base.
Proof using HO EL P1 P2 Ps C1 C2.
  intros Hw. pose proof left_range. split.
  - eapply chain_same, C1. intros a t Ha. apply left_below in Ha. unfold sizeof_Header in *. split; apply Hw; lia.
  - eapply chain_same, C2. intros a t Ha. apply right_above in Ha. unfold sizeof_Header in *. split; apply Hw; lia.
Qed.

(** What the second join ends with *)
Definition joined h' T' : Prop :=
  (forall w, w <> p -> w <> p + 8 -> word h' w = word h w) /\ hbrk h' = hbrk h /\ htop h' = htop h /\
  positive T' /\ tend heap0 T' = hbrk h /\ coalesced T' = true /\ chain h' (nodes T') base /\ p ∈ (nodes T').*1 /\
  useds heap0 T' = useds heap0 T1 ++ useds (bp + sizeof_Header * s) T2 /\
  (forall w, ring_word T' w -> ring_word (T1 ++ (s, false) :: T2) w) /\
  (length (frees heap0 T') <= length (frees heap0 T1) + 1 + length N2)%nat /\
  exists a t, (a, t) ∈ frees heap0 T' /\ s <= t.

Lemma joined_apart : last_used T1 = true -> joined (upd p bp h) (T1 ++ (s, false) :: T2).
Proof using All.
  intros Hl. assert (nodes (T1 ++ (s, false) :: T2) = L1 ++ (p, sp) :: (bp, s) :: N2) as EN.
  { unfold nodes. rewrite frees_app, app_comm_cons, EL, <- app_assoc. done. }
  assert (forall w, w <> p -> word (upd p bp h) w = word h w) as Hsame by (intros w Hw; by rewrite word_upd, decide_False).
  destruct (chains_same (upd p bp h)) as [C1' C2']; [intros; by apply Hsame|]. pose proof left_range.
  split; [intros w Hw _; by apply Hsame|]. do 2 (split; [done|]). split; [apply Forall_app; split; [done|]; by constructor|].
  split; [rewrite tend_app; exact He|]. split; [rewrite coalesced_app, Co1, Hl; cbn; by rewrite Hu, Co2|]. rewrite EN.
  split; [apply chain_app; split; [exact C1'|]|].
  { cbn [chain hd_addr]. rewrite word_upd, decide_True by done. rewrite !Hsame by (unfold sizeof_Header in *; lia). done. }
  split; [rewrite fmap_app; apply elem_of_app; right; by left|]. rewrite useds_app. do 2 (split; [done|]).
  split; [rewrite frees_app, length_app; cbn [frees app length]; lia|]. exists bp, s. split; [|lia]. rewrite frees_app. apply elem_of_app. right. by left.
Qed.

Lemma joined_merge T1' : T1 = T1' ++ [(sp, false)] -> p = tend heap0 T1' -> L1 = (base, 0) :: frees heap0 T1' ->
  joined (upd p (hd_addr N2 base) (upd (p + 8) (sp + s) h)) (T1' ++ (sp + s, false) :: T2).
Proof using All.
  intros E Ep EL1. set (h' := upd _ _ _).
  assert (bp = p + sizeof_Header * sp) as Eb by (rewrite E, tend_app, <- Ep; done).
  assert (p + sizeof_Header * (sp + s) = bp + sizeof_Header * s) as Ee by lia.
  assert (forall w, w <> p -> w <> p + 8 -> word h' w = word h w) as Hsame by (intros w ? ?; unfold h'; by rewrite !word_upd, !decide_False).
  destruct (chains_same h' Hsame) as [C1' C2']. pose proof left_range.
  rewrite E in P1, Co1. apply Forall_app in P1 as [P1' _]. rewrite coalesced_app in Co1. apply andb_prop in Co1 as [Co1' Hl].
  apply andb_prop in Co1' as [Co1' _]. cbn in Hl. rewrite orb_false_r in Hl.
  split; [exact Hsame|]. do 2 (split; [done|]).
  split; [apply Forall_app; split; [exact P1'|]; constructor; [cbn; lia|exact P2]|].
  split; [rewrite tend_app; cbn [tend]; by rewrite <- Ep, Ee|]. split; [rewrite coalesced_app, Co1', Hl; cbn; by rewrite Hu, Co2|].
  assert (nodes (T1' ++ (sp + s, false) :: T2) = L1 ++ (p, sp + s) :: N2) as EN.
  { unfold nodes. rewrite frees_app, app_comm_cons, <- EL1. cbn [frees app]. by rewrite <- Ep, Ee. }
  rewrite EN. split; [apply chain_app; split; [exact C1'|]; cbn [chain hd_addr]; unfold h'|].
  { rewrite !word_upd. rewrite decide_True by done. rewrite decide_False, decide_True by lia. done. }
  split; [rewrite fmap_app; apply elem_of_app; right; by left|]. split.
  { rewrite E, !useds_app. cbn [useds app]. rewrite tend_app, app_nil_r. cbn [tend]. by rewrite <- Ep, Ee, Eb. }
  split; [|split; [|exists p, (sp + s); split; [rewrite frees_app, <- Ep; apply elem_of_app; right; by left|lia]]].
  2: { rewrite frees_app, E, frees_app, !length_app. cbn [frees app length]. rewrite <- Ep, Ee, tend_app. cbn [tend]. rewrite <- Ep, Eb. lia. }
  intros w [Hw|Hw]; [by left|]. right. rewrite free_word_app, free_word_cons in Hw. rewrite free_word_app, free_word_cons, E.
  rewrite free_word_app, free_word_cons, tend_app. cbn [tend]. rewrite <- Ep in *. rewrite Ee, Eb in Hw.
  destruct Hw as [Hw|[Hw|Hw]]; [by left; left| |by right; right].
  destruct (Z.lt_ge_cases w bp); [left; right; left; lia|right; left; lia].
Qed.

Lemma join_left : exists h' T', (
  psz ← get_size p;
  if hplus p psz =? bp then
    sz ← get_size bp; set_size p (psz + sz);; nx ← get_ptr bp; set_ptr p nx
  else set_ptr p bp) (mkWorld h e) = Ok tt (mkWorld h' e) /\ joined h' T'.
Proof using All.
  pose proof left_range as Hr. pose proof right_range as Hr'. destruct left_mapped as [Hm1 Hm2]. destruct block_mapped as [Hm3 Hm4].
  unfold get_size. rewrite (bind_Ok _ _ _ _ _ (load_ok h e (p + 8) Hm2)), Wp. unfold hplus.
  destruct (left_end T1 L1 p sp P1 EL) as [[Hl Hne]|(T1' & E & Ep & EL1)].
  - destruct (Z.eqb_spec (p + sizeof_Header * sp) bp); [done|]. rewrite set_ptr_ok by done. do 2 eexists. split; [done|]. by apply joined_apart.
  - assert (p + sizeof_Header * sp = bp) as Eb by (rewrite E, tend_app, <- Ep; done). rewrite Eb, Z.eqb_refl.
    rewrite (bind_Ok _ _ _ _ _ (load_ok h e (bp + 8) Hm4)), Wbs.
    rewrite (bind_Ok _ _ _ _ _ (set_size_ok h e p (sp + s) Hm2 ltac:(pose proof base_pos; unfold sizeof_Header in *; lia))).
    unfold get_ptr. rewrite (bind_Ok _ _ _ _ _ (load_ok (upd _ _ h) e bp Hm3)), set_ptr_ok by done.
    rewrite word_upd, decide_False by (unfold sizeof_Header in *; lia). rewrite Wb. do 2 eexists. split; [done|]. by apply (joined_merge T1').
Qed.
End left.

Lemma node_ring_word T p s w : positive T -> (p, s) ∈ nodes T -> p <= w < p + sizeof_Header -> ring_word T w.
Proof.
  intros H Hp Hw. apply elem_of_cons in Hp as [[= -> ->]|Hp]; [by left|]. right. exists p, s. split; [done|].
  apply frees_range in Hp; [|done]. unfold sizeof_Header in *. lia.
Qed.

Lemma ring_word_sub T1 s T2 w : ring_word (T1 ++ (s, false) :: T2) w <-> ring_word (T1 ++ (s, true) :: T2) w \/ block_word (tend heap0 T1) s w.
Proof.
  unfold ring_word, block_word. rewrite !free_word_app, free_word_cons.
  assert (free_word (tend heap0 T1) ((s, true) :: T2) w <-> free_word (tend heap0 T1 + sizeof_Header * s) T2 w) as -> by done. tauto.
Qed.

(** The state after both joins is that of a heap with the block freed. *)
Lemma joined_heap_ok h h1 h2 T1 s T2 s' T2' p sp T' : let T := T1 ++ (s, true) :: T2 in let bp := tend heap0 T1 in
  heap_ok h T -> (p, sp) ∈ nodes T -> hbrk h1 = hbrk h -> htop h1 = htop h ->
  (forall w, w <> bp -> w <> bp + 8 -> word h1 w = word h w) ->
  useds (bp + sizeof_Header * s') T2' = useds (bp + sizeof_Header * s) T2 ->
  joined h1 T1 T2' s' p h2 T' -> forall h3, h3 = mkHeap (hmem h2) p (hbrk h2) (htop h2) ->
  (forall w, ~ ring_word T w -> ~ block_word bp s w -> word h3 w = word h w) /\ (p <> 0 -> heap_ok h3 T').
Proof using HO.
  intros T bp HK Hp B1 B2 Hw U (Jw & J1 & J2 & J3 & J4 & J5 & J6 & J7 & J8 & _) h3 ->. cbn [word hmem].
  assert (forall w, ~ ring_word T w -> ~ block_word bp s w -> word h2 w = word h w) as Hsame.
  { intros w H1 H2. pose proof (node_ring_word T p sp w (ho_pos _ _ HK) Hp) as Hr.
    assert (0 < s) by (pose proof (ho_pos _ _ HK) as P; apply Forall_app in P as [_ P]; by inversion P).
    assert (~ (p <= w < p + sizeof_Header)) by tauto. unfold block_word, sizeof_Header in *. rewrite Jw by lia. apply Hw; lia. }
  split; [exact Hsame|]. intros Hp0. constructor; cbn [hbrk htop hfreep]; [done|congruence|rewrite J1, J2, B1, B2; apply (ho_top _ _ HK)|done| |].
  - rewrite decide_False by done. split; [by eapply chain_same, J6|exact J7].
  - intros a t Ha. rewrite J8 in Ha; fold bp in Ha; rewrite U in Ha. destruct (useds_around T1 s T2 a t (ho_pos _ _ HK) Ha) as (Hu & Ht & Hr). fold bp in Hr.
    change (word h2 (a + 8) = t). rewrite Hsame; [by apply (ho_used _ _ HK)| |].
    + apply (used_not_ring T a t); [apply (ho_pos _ _ HK)|done|]. unfold block_word, sizeof_Header in *. lia.
    + unfold block_word, sizeof_Header in *. lia.
Qed.

(** What free does to the blocks [T1 ++ (s, true) :: T2] *)
Definition freed h T1 s T2 h' T' : Prop :=
  heap_ok h' T' /\ hfreep h' <> 0 /\ hbrk h' = hbrk h /\ htop h' = htop h /\
  useds heap0 T' = useds heap0 T1 ++ useds (tend heap0 T1 + sizeof_Header * s) T2 /\
  (forall w, ~ ring_word (T1 ++ (s, true) :: T2) w -> ~ block_word (tend heap0 T1) s w -> word h' w = word h w) /\
  (forall w, ring_word T' w -> ring_word (T1 ++ (s, true) :: T2) w \/ block_word (tend heap0 T1) s w) /\
  (length (nodes T') <= length (nodes (T1 ++ (s, true) :: T2)) + 1)%nat /\
  exists a t, (a, t) ∈ frees heap0 T' /\ s <= t.

Lemma free_spec h e T1 s T2 : heap_ok h (T1 ++ (s, true) :: T2) -> hfreep h <> 0 ->
  exists h' T', free (tend heap0 T1 + sizeof_Header) (mkWorld h e) = Ok tt (mkWorld h' e) /\ freed h T1 s T2 h' T'.
Proof using HO.
  set (T := T1 ++ (s, true) :: T2). set (bp := tend heap0 T1).
  intros HK Hfp. destruct (id HK) as [O1 O2 O3 O4 O5 O6]. rewrite decide_False in O5 by done. destruct O5 as [HC Hin].
  pose proof base_low as Hlay. pose proof base_pos as Hbase.
  assert (0 <= heap0) as H0 by (unfold sizeof_Header in *; lia).
  pose proof (nodes_sorted T O1) as HS. pose proof (reach_nodes h T O1 ltac:(lia)) as HR.
  pose proof O1 as Hpos. apply Forall_app in Hpos as [P1 P2]. apply Forall_cons in P2 as [Ps P2]. cbn in Ps.
  assert ((bp, s) ∈ useds heap0 T) as Hbu by (unfold T; rewrite useds_app; apply elem_of_app; right; by left).
  pose proof (O6 _ _ Hbu) as Hsz.
  unfold T in O2, O4. rewrite tend_app in O2. cbn [tend] in O2. fold bp in O2. rewrite coalesced_app in O4.
  apply andb_prop in O4 as [O4 _]. apply andb_prop in O4 as [Co1 Co2]. cbn in Co2.
  destruct (right_range h T1 T2 s P1 P2 O2) as [Hb1 Hb2]. fold bp in Hb1, Hb2.
  set (F2 := frees (bp + sizeof_Header * s) T2).
  destruct (exists_last (l := (base, 0) :: frees heap0 T1)) as (L1 & [p sp] & EL); [done|].
  assert (nodes T = L1 ++ (p, sp) :: F2) as EN.
  { unfold nodes, T. rewrite frees_app, app_comm_cons, EL, <- app_assoc. done. }
  destruct (left_range T1 L1 p sp P1 EL) as (Hp1 & Hp2 & Hp3 & Hp4). fold bp in Hp2, Hp4.
  assert ((p, sp) ∈ nodes T) as Hpn by (rewrite EN; apply elem_of_app; right; by left).
  unfold free. replace (bp + sizeof_Header - sizeof_Header) with bp by lia. cbv zeta. unfold get_freep. run.
  rewrite (bind_Ok _ _ _ p (mkWorld h e)).
  2: { rewrite EN in HC, HS, HR, Hin. apply (search_ok h e bp L1 F2 p sp HC HS HR); [|unfold sizeof_Header in *; lia| |done|].
       - rewrite <- EN. done.
       - apply Forall_forall. intros [a t] Ha. apply (right_above T1 T2 s Ps P2) in Ha. fold bp in Ha. cbn. unfold sizeof_Header in *. lia.
       - pose proof (ring_fuel_enough h T O1 ltac:(unfold T; by rewrite tend_app) H0) as Hf. rewrite EN, length_app in Hf. cbn [length] in Hf. lia. }
  assert (get_size bp (mkWorld h e) = Ok s (mkWorld h e)) as Eg by (unfold get_size; rewrite load_ok; [by rewrite Hsz|]; apply mapped_heap; unfold sizeof_Header in *; lia).
  rewrite (bind_Ok _ _ _ _ _ Eg).
  rewrite (bind_Ok _ _ _ _ _ (get_ptr_ok h e _ p sp HR Hpn)).
  rewrite EN in HC. apply chain_app in HC as [HC1 HC2]. cbn [chain hd_addr] in HC1, HC2. destruct HC2 as (Cp & Csp & CF). rewrite Cp.
  destruct (join_right h e bp s T2) as (h1 & s' & T2' & Er & Hw1 & B1 & B2 & B3 & W1 & W2 & P2' & Ps' & He' & Hu' & Co2' & U2 & Hle & CF' & Hlen & Hfw); try done; [lia|].
  cbv zeta in Er. fold F2 in Er. rewrite (bind_Ok _ _ _ _ _ Er).
  destruct (join_left h1 e T1 T2' s' L1 p sp) as (h2 & T' & El & J); try done; fold bp.
  - congruence.
  - lia.
  - eapply chain_same, HC1. intros a t Ha. apply (left_below T1 L1 p sp P1 EL) in Ha. unfold sizeof_Header in *. split; apply Hw1; lia.
  - rewrite Hw1 by (unfold sizeof_Header in *; lia). done.
  - eapply chain_same, CF'. intros a t Ha. apply (right_above T1 T2' s' Ps' P2') in Ha. fold bp in Ha. unfold sizeof_Header in *. split; apply Hw1; lia.
  - pose proof (bind_Ok _ (fun _ => set_freep p) _ _ _ El) as E. rewrite bind_assoc in E. fold bp in E. rewrite E. clear E.
    destruct (joined_heap_ok h h1 h2 T1 s T2 s' T2' p sp T' HK Hpn B1 B2 Hw1 U2 J _ eq_refl) as [Hsame HK'].
    destruct J as (_ & J1 & J2 & _ & _ & _ & _ & _ & J8 & J9 & J10 & a & t & Ha & Ht).
    do 2 eexists. split; [reflexivity|]. split; [apply HK'; lia|]. cbn. split; [lia|]. split; [congruence|]. split; [congruence|].
    split; [rewrite J8; fold bp; by rewrite <- U2|]. split; [exact Hsame|]. split; [|split; [|exists a, t; split; [done|lia]]].
    2: { unfold nodes. rewrite frees_app. cbn [frees app length]. rewrite length_app. fold bp in J10 |- *. fold F2 in Hlen |- *. lia. }
    intros w Hw%J9. apply ring_word_sub. destruct Hw as [Hw|Hw]; [by left|]. right. rewrite free_word_app in *.
    destruct Hw as [Hw|Hw]; [by left|]. right. by apply Hfw.
Qed.

(** *** malloc *)

(** The node before a free block is before it in memory. *)
Lemma node_before h T q sq p s : chain h (nodes T) base -> p <> base -> (q, sq) ∈ nodes T -> word h q = p -> (p, s) ∈ frees heap0 T ->
  positive T -> exists A B, nodes T = A ++ (q, sq) :: (p, s) :: B.
Proof using HO.
  intros HC Hp Hq Hw Hps HT. apply list_elem_of_split in Hq as (A & B & EN). exists A.
  assert ((p, s) ∈ nodes T) as Hpn by (by right). assert (word h (p + 8) = s) as Hs.
  { apply list_elem_of_split in Hpn as (A' & B' & EN'). rewrite EN' in HC. apply chain_app in HC as [_ HC]. cbn in HC. naive_solver. }
  rewrite EN in HC. apply chain_app in HC as [_ HC]. cbn [chain] in HC. destruct HC as (HC1 & _ & HC2).
  destruct B as [|[p' s'] B]; cbn [hd_addr] in HC1; [congruence|]. exists B. rewrite EN. cbn [chain] in HC2. destruct HC2 as (_ & HC2 & _).
  repeat f_equal; congruence.
Qed.

Lemma sorted_split A1 A2 B1 B2 (x : Z * Z) : A1 ++ x :: B1 = A2 ++ x :: B2 -> StronglySorted below (A1 ++ x :: B1) -> A1 = A2 /\ B1 = B2.
Proof.
  assert (forall A B, StronglySorted below (x :: A ++ x :: B) -> False) as Hirr.
  { intros A B H. inversion H as [|? ? _ Hall]; subst. rewrite Forall_forall in Hall. specialize (Hall x).
    unfold below, sizeof_Header in Hall. assert (x.1 + 16 <= x.1) by (apply Hall, elem_of_app; right; by left). lia. }
  revert A2. induction A1 as [|y A1 IH]; intros [|z A2] E H; cbn in E.
  - by injection E as ->.
  - injection E as <- E. rewrite E in H. by apply Hirr in H.
  - injection E as -> E. by apply Hirr in H.
  - injection E as <- E. inversion H; subst. destruct (IH A2 E) as [-> ->]; done.
Qed.

(** [p] is a block of [n] headers that was free in [T] and is used in [T']. *)
Definition took h T p n h' T' : Prop :=
  heap_ok h' T' /\ hfreep h' <> 0 /\ hbrk h' = hbrk h /\ htop h' = htop h /\
  (exists U1 U2, useds heap0 T = U1 ++ U2 /\ useds heap0 T' = U1 ++ (p, n) :: U2) /\
  (forall w, ~ ring_word T w -> word h' w = word h w).

Section take.
Context (h : uheap) (e : list (uheap -> uheap)) (T1 T2 : list (Z * bool)) (q sq sz n : Z) (A B : list (Z * Z)).
Local Abbreviation T := (T1 ++ (sz, false) :: T2).
Local Abbreviation p := (tend heap0 T1).
Context (HK : heap_ok h T) (Hfp : hfreep h <> 0) (Hn : 0 < n <= sz).
Context (EN : nodes T = A ++ (q, sq) :: (p, sz) :: B).

Lemma take_parts : chain h A q /\ word h q = p /\ word h (q + 8) = sq /\ word h p = hd_addr B base /\ word h (p + 8) = sz /\ chain h B base.
Proof using HK Hfp EN.
  pose proof (ho_ring _ _ HK) as HC. rewrite decide_False in HC by done. destruct HC as [HC _]. rewrite EN in HC.
  apply chain_app in HC as [HC1 HC2]. cbn [chain hd_addr] in HC1, HC2. destruct HC2 as (? & ? & ? & ? & ?). done.
Qed.

(** The nodes of [T] around [p] *)
Lemma take_nodes : (base, 0) :: frees heap0 T1 = A ++ [(q, sq)] /\ frees (p + sizeof_Header * sz) T2 = B.
Proof using HO HK EN.
  apply (sorted_split _ _ _ _ (p, sz)).
  - rewrite <- app_assoc. cbn [app]. rewrite <- EN. unfold nodes. by rewrite frees_app.
  - pose proof (nodes_sorted T (ho_pos _ _ HK)) as HS. unfold nodes in HS. rewrite frees_app in HS. exact HS.
Qed.

Lemma take_range : 0 < q /\ q + sizeof_Header <= p /\ heap0 <= p /\ p + sizeof_Header * sz <= hbrk h.
Proof using HO HK EN.
  pose proof (ho_pos _ _ HK) as P. apply Forall_app in P as [P1 P2]. apply Forall_cons in P2 as [_ P2].
  pose proof (left_range T1 A q sq P1 (proj1 take_nodes)). pose proof base_pos.
  pose proof (ho_end _ _ HK) as E. rewrite tend_app in E. cbn [tend] in E. pose proof (right_range h T1 T2 sz P1 P2 E). lia.
Qed.

Lemma take_apart a t : (a, t) ∈ A ++ B -> a + sizeof_Header <= q \/ p + sizeof_Header * sz <= a.
Proof using HO HK EN.
  pose proof (ho_pos _ _ HK) as P. apply Forall_app in P as [P1 P2]. apply Forall_cons in P2 as [_ P2].
  destruct take_nodes as [EA <-]. intros [Ha|Ha]%elem_of_app; [left; by apply (left_below T1 A q sq P1 EA a t)|].
  right. apply frees_range in Ha; [|done]. lia.
Qed.

Lemma take_mapped : mapped h q = true /\ mapped h (q + 8) = true /\ mapped h p = true /\ mapped h (p + 8) = true.
Proof using HO HK EN.
  pose proof (reach_nodes h T (ho_pos _ _ HK) ltac:(rewrite (ho_end _ _ HK); lia)) as HR. rewrite EN in HR.
  destruct (HR q sq) as [? ?]; [apply elem_of_app; right; by left|]. destruct (HR p sz) as [? ?]; [apply elem_of_app; right; right; by left|]. done.
Qed.

Lemma take_used_apart a t : (a, t) ∈ useds heap0 T1 ++ useds (p + sizeof_Header * sz) T2 ->
  (a, t) ∈ useds heap0 T /\ ~ ring_word T (a + 8).
Proof using HO HK.
  intros Ha. assert ((a, t) ∈ useds heap0 T) as Hu by (by rewrite useds_app). split; [done|].
  pose proof (useds_range _ _ _ _ (ho_pos _ _ HK) Hu). apply (used_not_ring T a t); [apply (ho_pos _ _ HK)|done|]. unfold block_word, sizeof_Header in *. lia.
Qed.

Lemma take_ring_word w : q <= w < q + sizeof_Header \/ p <= w < p + sizeof_Header * sz -> ring_word T w.
Proof using HO HK EN.
  intros [Hw|Hw]; [|rewrite ring_word_sub; by right]. apply (node_ring_word T q sq); [apply (ho_pos _ _ HK)| |done].
  rewrite EN. apply elem_of_app. right. by left.
Qed.

(** A heap like [h] but for the words of [q] and of the block *)
Lemma take_ok h' T' U : let p' := p + sizeof_Header * U in
  0 <= U -> U + n = sz -> positive T' -> tend heap0 T' = hbrk h -> coalesced T' = true ->
  useds heap0 T' = useds heap0 T1 ++ (p', n) :: useds (p + sizeof_Header * sz) T2 ->
  hfreep h' = q -> hbrk h' = hbrk h -> htop h' = htop h ->
  (forall w, ~ ring_word T w -> word h' w = word h w) -> word h' (p' + 8) = n ->
  chain h' (nodes T') base -> q ∈ (nodes T').*1 -> took h T p' n h' T'.
Proof using HO HK EN Hn.
  intros p' HU HUn P He Co Eu Ef B1 B2 Hw Hs HC Hin. pose proof take_range as Hr.
  split; [constructor; try done|].
  - congruence.
  - rewrite B1, B2. apply (ho_top _ _ HK).
  - rewrite decide_False by lia. rewrite Ef. done.
  - intros a t Ha. rewrite Eu in Ha. assert ((a, t) = (p', n) \/ (a, t) ∈ useds heap0 T1 ++ useds (p + sizeof_Header * sz) T2) as [[= -> ->]|Ha'].
    { apply elem_of_app in Ha as [Ha|[Ha|Ha]%elem_of_cons]; [right|by left|right]; apply elem_of_app; [by left|by right]. }
    { done. }
    apply take_used_apart in Ha' as [Hu Hnr]. rewrite Hw by done. by apply (ho_used _ _ HK).
  - split; [lia|]. do 2 (split; [done|]). split; [|exact Hw]. do 2 eexists. split; [by rewrite useds_app|exact Eu].
Qed.

Lemma took_exact : sz = n ->
  took h T p n (mkHeap (hmem (upd q (hd_addr B base) h)) q (hbrk h) (htop h)) (T1 ++ (n, true) :: T2).
Proof using All.
  intros E. pose proof take_range as Hr. destruct take_parts as (C1 & Wq & Wqs & Wp & Wps & C2). destruct take_nodes as [EA EB].
  pose proof (ho_pos _ _ HK) as P. pose proof (ho_sep _ _ HK) as Co. pose proof (ho_end _ _ HK) as Ee.
  set (h' := mkHeap _ _ _ _).
  assert (forall w, w <> q -> word h' w = word h w) as Hsame by (intros w Hw; change (word h' w) with (word (upd q (hd_addr B base) h) w); by rewrite word_upd, decide_False).
  assert (word h' q = hd_addr B base) as Hq by (change (word h' q) with (word (upd q (hd_addr B base) h) q); by rewrite word_upd, decide_True).
  assert (nodes (T1 ++ (n, true) :: T2) = A ++ (q, sq) :: B) as EN'.
  { unfold nodes. rewrite frees_app, app_comm_cons, EA. cbn [frees app]. by rewrite <- E, EB, <- app_assoc. }
  replace p with (p + sizeof_Header * 0) at 1 by lia. unfold sizeof_Header in Hr.
  apply take_ok; try done; rewrite ?Z.mul_0_r, ?Z.add_0_r.
  - apply Forall_app in P as [P1 P2]. apply Forall_cons in P2 as [_ P2]. apply Forall_app. split; [done|]. by constructor; [cbn; lia|].
  - rewrite tend_app in *. cbn [tend] in *. by rewrite <- E.
  - rewrite coalesced_app in *. cbn in *. rewrite orb_true_r, andb_true_r. apply andb_prop in Co as [Co _]. apply andb_prop in Co as [-> Co].
    apply andb_prop in Co as [_ ->]. done.
  - rewrite useds_app. cbn [useds app]. by rewrite E.
  - intros w Hw. apply Hsame. intros ->. apply Hw, take_ring_word. left. unfold sizeof_Header. lia.
  - rewrite Hsame by lia. by rewrite Wps.
  - rewrite EN'. apply chain_app. cbn [chain hd_addr]. rewrite Hq, Hsame by lia. split; [|split; [done|split; [done|]]].
    + eapply chain_same, C1. intros a t Ha. destruct (take_apart a t) as [?|?]; [apply elem_of_app; by left| |]; unfold sizeof_Header in *; split; apply Hsame; lia.
    + eapply chain_same, C2. intros a t Ha. destruct (take_apart a t) as [?|?]; [apply elem_of_app; by right| |]; unfold sizeof_Header in *; split; apply Hsame; lia.
  - rewrite EN', fmap_app. apply elem_of_app. right. by left.
Qed.

Lemma took_split : n < sz -> let p' := p + sizeof_Header * (sz - n) in
  took h T p' n (mkHeap (hmem (upd (p' + 8) n (upd (p + 8) (sz - n) h))) q (hbrk h) (htop h)) (T1 ++ (sz - n, false) :: (n, true) :: T2).
Proof using All.
  intros Hlt p'. pose proof take_range as Hr. destruct take_parts as (C1 & Wq & Wqs & Wp & Wps & C2). destruct take_nodes as [EA EB].
  pose proof (ho_pos _ _ HK) as P. pose proof (ho_sep _ _ HK) as Co. pose proof (ho_end _ _ HK) as Ee.
  set (h' := mkHeap _ _ _ _).
  assert (forall w, word h' w = word (upd (p' + 8) n (upd (p + 8) (sz - n) h)) w) as Hh' by done.
  assert (forall w, w <> p + 8 -> w <> p' + 8 -> word h' w = word h w) as Hsame by (intros w ? ?; rewrite Hh'; by rewrite !word_upd, !decide_False).
  assert (p' + sizeof_Header * n = p + sizeof_Header * sz) as Ep by (unfold p'; lia).
  assert (nodes (T1 ++ (sz - n, false) :: (n, true) :: T2) = A ++ (q, sq) :: (p, sz - n) :: B) as EN'.
  { unfold nodes. rewrite frees_app, app_comm_cons, EA. cbn [frees app]. fold p'. by rewrite Ep, EB, <- app_assoc. }
  assert (p < p') as Hp' by (unfold p', sizeof_Header; lia). unfold sizeof_Header in Hr.
  assert (p' + 16 <= p + 16 * sz) as Hp'' by (unfold p', sizeof_Header; lia).
  assert (p' < p + 16 -> False) as Hp3 by (unfold p', sizeof_Header; lia).
  apply take_ok; try done.
  - lia.
  - lia.
  - apply Forall_app in P as [P1 P2]. apply Forall_cons in P2 as [_ P2]. apply Forall_app. split; [done|].
    constructor; [cbn; lia|]. by constructor; [cbn; lia|].
  - rewrite tend_app in *. cbn [tend] in *. fold p'. by rewrite Ep.
  - rewrite coalesced_app in *. cbn in *. by destruct (coalesced T1), (head_used T2), (coalesced T2), (last_used T1).
  - rewrite useds_app. cbn [useds app]. fold p'. by rewrite Ep.
  - intros w Hw. apply Hsame; intros ->; apply Hw, take_ring_word; right; unfold sizeof_Header; lia.
  - fold p'. rewrite Hh', word_upd. by rewrite decide_True.
  - rewrite EN'. apply chain_app. cbn [chain hd_addr]. rewrite !(Hsame q), (Hsame (q + 8)), (Hsame p) by lia.
    rewrite (Hh' (p + 8)), word_upd, decide_False, word_upd, decide_True by lia.
    split; [|do 4 (split; [done|])].
    + eapply chain_same, C1. intros a t Ha. destruct (take_apart a t) as [?|?]; [apply elem_of_app; by left| |]; unfold sizeof_Header in *; split; apply Hsame; lia.
    + eapply chain_same, C2. intros a t Ha. destruct (take_apart a t) as [?|?]; [apply elem_of_app; by right| |]; unfold sizeof_Header in *; split; apply Hsame; lia.
  - rewrite EN', fmap_app. apply elem_of_app. right. by left.
Qed.

Lemma malloc_take_spec : exists p' h' T', malloc_take q p n (mkWorld h e) = Ok (p' + sizeof_Header) (mkWorld h' e) /\ took h T p' n h' T'.
Proof using All.
  pose proof take_range as Hr. destruct take_parts as (C1 & Wq & Wqs & Wp & Wps & C2). destruct take_mapped as (M1 & M2 & M3 & M4).
  pose proof (ho_top _ _ HK) as Ht. pose proof base_low. pose proof base_pos.
  unfold malloc_take, get_size. rewrite (bind_Ok _ _ _ _ _ (load_ok h e (p + 8) M4)), Wps.
  destruct (Z.eqb_spec sz n) as [E|E].
  - rewrite !bind_assoc. unfold get_ptr. rewrite (bind_Ok _ _ _ _ _ (load_ok h e p M3)), Wp.
    rewrite !bind_assoc, (bind_Ok _ _ _ _ _ (set_ptr_ok h e q _ M1)). unfold hplus. rewrite Z.mul_1_r.
    do 3 eexists. split; [reflexivity|]. by apply took_exact.
  - rewrite !bind_assoc, (bind_Ok _ _ _ _ _ (set_size_ok h e p (sz - n) M4 ltac:(unfold sizeof_Header in *; lia))).
    rewrite !bind_assoc, (bind_Ok _ _ _ _ _ (load_ok (upd _ _ h) e (p + 8) M4)), word_upd, decide_True by done. cbv zeta.
    unfold hplus. set (p' := p + sizeof_Header * (sz - n)).
    assert (mapped (upd (p + 8) (sz - n) h) (p' + 8) = true) as M5 by (apply mapped_heap; cbn; unfold p', sizeof_Header in *; lia).
    rewrite !bind_assoc, (bind_Ok _ _ _ _ _ (set_size_ok _ e p' n M5 ltac:(unfold sizeof_Header in *; lia))). rewrite Z.mul_1_r.
    do 3 eexists. split; [reflexivity|]. apply took_split. lia.
Qed.
End take.

Lemma chain_size h N stop a s : chain h N stop -> (a, s) ∈ N -> word h (a + 8) = s.
Proof.
  intros HC Ha. apply list_elem_of_split in Ha as (A & B & ->). apply chain_app in HC as [_ HC]. cbn in HC. naive_solver.
Qed.

(** The ring, started after any of its nodes. *)
Lemma rotate h T f : chain h (nodes T) base -> f ∈ (nodes T).*1 ->
  exists sf R, nodes T ≡ₚ (f, sf) :: R /\ word h f = hd_addr R f /\ chain h R f.
Proof.
  intros HC Hf. apply list_elem_of_fmap in Hf as ([f' sf] & -> & Hf). cbn [fst]. apply list_elem_of_split in Hf as (A & B & EN).
  assert (hd_addr (A ++ [(f', sf)]) base = base) as Eb by (unfold nodes in EN; destruct A as [|[]]; by injection EN as <-).
  rewrite EN in HC |- *. apply chain_app in HC as [HC1 HC2]. cbn [chain hd_addr] in HC1, HC2. destruct HC2 as (W & _ & HC2).
  assert (hd_addr A f' = base) as Ea by (destruct A as [|[]]; exact Eb).
  exists sf, (B ++ A). split; [solve_Permutation|]. split; [|apply chain_app; by rewrite Ea].
  rewrite W. by destruct B as [|[]].
Qed.

(** What malloc does when it is back where it started *)
Definition grow (fuel : nat) (n : Z) : Prog uheap Z :=
  p ← morecore n; if p =? 0 then mret 0 else nx ← get_ptr p; malloc_loop fuel n p nx.

Lemma walk h e T n R q sq f sf fuel : heap_ok h T -> hfreep h = f -> f <> 0 ->
  chain h R f -> f ∉ R.*1 -> R ⊆ nodes T -> (f, sf) ∈ nodes T -> (q, sq) ∈ nodes T -> word h q = hd_addr R f -> (length R < fuel)%nat ->
  (exists q' sq' p' s', malloc_loop fuel n q (hd_addr R f) (mkWorld h e) = malloc_take q' p' n (mkWorld h e) /\
     (q', sq') ∈ nodes T /\ word h q' = p' /\ (p', s') ∈ nodes T /\ n <= s') \/
  (exists fuel', (fuel <= fuel' + length R + 1)%nat /\ malloc_loop fuel n q (hd_addr R f) (mkWorld h e) = grow fuel' n (mkWorld h e) /\
     Forall (fun x => x.2 < n) R /\ sf < n).
Proof.
  intros HK Ef Hf0. pose proof (ho_ring _ _ HK) as HC. rewrite decide_False in HC by congruence. destruct HC as [HC _].
  pose proof (reach_nodes h T (ho_pos _ _ HK) ltac:(rewrite (ho_end _ _ HK); lia)) as HR.
  revert q sq fuel. induction R as [|[p sp] R IH]; intros q sq fuel CR Hnf Hsub Hf Hq Hw Hlt; (destruct fuel as [|fuel]; [lia|]); cbn [hd_addr malloc_loop].
  - rewrite (bind_Ok _ _ _ _ _ (get_size_ok h e _ f sf HR Hf)), (chain_size _ _ _ _ _ HC Hf).
    destruct (Z.leb_spec n sf); [left; by exists q, sq, f, sf|]. right. exists fuel. split; [cbn; lia|]. split; [|done].
    unfold get_freep. run. rewrite Ef, Z.eqb_refl. done.
  - assert ((p, sp) ∈ nodes T) as Hp by (apply Hsub; by left). cbn [chain] in CR. destruct CR as (Wp & Wps & CR).
    rewrite (bind_Ok _ _ _ _ _ (get_size_ok h e _ p sp HR Hp)), Wps.
    destruct (Z.leb_spec n sp); [left; by exists q, sq, p, sp|].
    unfold get_freep. run. rewrite Ef.
    rewrite fmap_cons, not_elem_of_cons in Hnf. cbn [fst] in Hnf. destruct Hnf as [Hpf Hnf].
    destruct (Z.eqb_spec p f); [congruence|].
    rewrite (bind_Ok _ _ _ _ _ (get_ptr_ok h e _ p sp HR Hp)), Wp. cbn [length] in Hlt.
    destruct (IH p sp fuel CR Hnf) as [(q' & sq' & p' & s' & E & H')|(fuel' & Hle & E & Hall & Hsf)]; try done; [|lia|..].
    + intros x Hx. apply Hsub. by right.
    + left. exists q', sq', p', s'. rewrite E. done.
    + right. exists fuel'. rewrite E. split; [cbn; lia|]. split; [done|]. split; [by constructor|done].
Qed.

Lemma nodes_NoDup T : positive T -> NoDup (nodes T).*1.
Proof using HO.
  intros H. apply nodes_sorted in H. induction H as [|[a s] N HS IH Hall]; [constructor|]. cbn. constructor; [|done].
  intros Ha. apply list_elem_of_fmap in Ha as ([b t] & Eb & Hb). rewrite Forall_forall in Hall. specialize (Hall _ Hb).
  unfold below, sizeof_Header in Hall. cbn in *. lia.
Qed.

(** Once around the ring: a block is taken, or none is large enough. *)
Lemma malloc_round h e T n fuel : heap_ok h T -> hfreep h <> 0 -> 0 < n -> (length (nodes T) <= fuel)%nat ->
  let m := (nx ← get_ptr (hfreep h); malloc_loop fuel n (hfreep h) nx) (mkWorld h e) in
  (exists p h' T', m = Ok (p + sizeof_Header) (mkWorld h' e) /\ took h T p n h' T') \/
  (exists fuel', (fuel <= fuel' + length (nodes T))%nat /\ m = grow fuel' n (mkWorld h e) /\ Forall (fun x => x.2 < n) (nodes T)).
Proof using HO.
  intros HK Hfp Hn Hfuel m. pose proof (ho_ring _ _ HK) as HC. rewrite decide_False in HC by done. destruct HC as [HC Hin].
  pose proof (reach_nodes h T (ho_pos _ _ HK) ltac:(rewrite (ho_end _ _ HK); lia)) as HR.
  destruct (rotate h T _ HC Hin) as (sf & R & EN & W & CR).
  assert ((hfreep h, sf) ∈ nodes T) as Hf by (rewrite EN; by left).
  assert (hfreep h ∉ R.*1) as Hnf.
  { pose proof (nodes_NoDup T (ho_pos _ _ HK)) as HN. rewrite EN in HN. cbn in HN. by inversion HN. }
  unfold m. rewrite (bind_Ok _ _ _ _ _ (get_ptr_ok h e _ _ sf HR Hf)), W. apply Permutation_length in EN as EL. cbn [length] in EL.
  destruct (walk h e T n R (hfreep h) sf (hfreep h) sf fuel) as [(q & sq & p & s & E & Hq & Hw & Hp & Hs)|(fuel' & Hle & E & Hall & Hsf)]; try done.
  - intros x Hx. rewrite EN. by right.
  - lia.
  - left. rewrite E. apply elem_of_cons in Hp as [[= -> ->]|Hp]; [lia|].
    assert (p <> base) as Hpb by (apply frees_range in Hp; [|apply (ho_pos _ _ HK)]; pose proof base_low; unfold sizeof_Header in *; lia).
    destruct (node_before h T q sq p s) as (A & B & EN'); try done; [apply (ho_pos _ _ HK)|].
    apply frees_split in Hp as (T1 & T2 & -> & ->). by apply (malloc_take_spec h e T1 T2 q sq s n A B).
  - right. exists fuel'. split; [lia|]. split; [exact E|]. rewrite EN. by constructor.
Qed.

(** *** morecore *)

(** The heap after sbrk, with its new block marked as used *)
Definition extended h (nu : Z) : uheap :=
  upd (hbrk h + 8) nu (mkHeap (filter (fun kv => kv.1 < hbrk h) (hmem h)) (hfreep h) (hbrk h + sizeof_Header * nu) (htop h)).

Lemma word_extended h nu w : w < hbrk h -> word (extended h nu) w = word h w.
Proof.
  intros Hw. unfold extended. rewrite word_upd, decide_False by lia. unfold word. cbn. f_equal.
  destruct (hmem h !! w) as [v|] eqn:E; [by apply map_lookup_filter_Some|]. apply map_lookup_filter_None. by left.
Qed.

Lemma extended_ok h T nu : heap_ok h T -> hfreep h <> 0 -> 0 < nu -> hbrk h + sizeof_Header * nu <= htop h ->
  heap_ok (extended h nu) (T ++ [(nu, true)]).
Proof using HO.
  intros [O1 O2 O3 O4 O5 O6] Hfp Hnu Hle. rewrite decide_False in O5 by done. pose proof base_low. pose proof base_pos.
  pose proof (tend_le heap0 T O1) as Hte. unfold sizeof_Header in *. assert (nodes (T ++ [(nu, true)]) = nodes T) as EN.
  { unfold nodes. rewrite frees_app. cbn. by rewrite app_nil_r. }
  constructor; cbn [hbrk htop hfreep extended upd]; unfold sizeof_Header.
  - apply Forall_app. split; [done|]. by constructor.
  - rewrite tend_app. cbn. unfold sizeof_Header. lia.
  - lia.
  - rewrite coalesced_app, O4. cbn. by rewrite orb_true_r.
  - rewrite decide_False, EN by done. split; [|tauto]. eapply chain_same, O5. intros a t Ha.
    apply elem_of_cons in Ha as [[= -> ->]|Ha]; [split; apply word_extended; lia|].
    apply frees_range in Ha; [|done]. unfold sizeof_Header in *. split; apply word_extended; lia.
  - intros a t Ha. rewrite useds_app in Ha. apply elem_of_app in Ha as [Ha|Ha].
    + pose proof (useds_range _ _ _ _ O1 Ha). unfold sizeof_Header in *. rewrite word_extended by lia. by apply O6.
    + cbn in Ha. apply list_elem_of_singleton in Ha as [= -> ->]. rewrite O2. unfold extended. rewrite word_upd. by rewrite decide_True.
Qed.

Definition units (n : Z) : Z := if n <? 4096 then 4096 else n.

Lemma sbrk_ok h e nu : heap0 <= hbrk h -> 0 < nu -> sizeof_Header * nu < 2147483648 -> hbrk h + sizeof_Header * nu <= htop h ->
  (p ← sbrk (u64 (nu * sizeof_Header)); if p =? -1 then mret 0 else set_size p nu;; free (hplus p 1);; get_freep) (mkWorld h e) =
  (free (hbrk h + sizeof_Header);; get_freep) (mkWorld (extended h nu) e).
Proof using HO.
  intros H0 Hnu Hs Hle. pose proof base_low. pose proof base_pos. unfold sizeof_Header in *. unfold sbrk, id. rewrite u64_small by lia. run.
  rewrite s32_small by lia. destruct (Z.ltb_spec (htop h) (hbrk h + nu * 16)); [lia|]. run.
  destruct (Z.ltb_spec (nu * 16) 0); [lia|]. cbn [andb]. destruct (Z.eqb_spec (hbrk h) (-1)); [lia|].
  rewrite (bind_Ok _ _ _ tt (mkWorld (extended h nu) e)); [unfold hplus, sizeof_Header; by rewrite Z.mul_1_r|].
  rewrite set_size_ok; [|apply mapped_heap; cbn; lia|lia]. unfold extended, sizeof_Header. by rewrite (Z.mul_comm 16 nu).
Qed.

(** The heap was extended: a block of [n] headers is now free. *)
Definition grown_heap h T n h' T' : Prop :=
  heap_ok h' T' /\ hfreep h' <> 0 /\ useds heap0 T' = useds heap0 T /\
  (forall w, w < hbrk h -> ~ ring_word T w -> word h' w = word h w) /\
  (forall w, ring_word T' w -> ring_word T w \/ hbrk h <= w) /\
  (length (nodes T') <= length (nodes T) + 1)%nat /\ exists a t, (a, t) ∈ frees heap0 T' /\ n <= t.

Lemma morecore_spec h e T n : heap_ok h T -> hfreep h <> 0 -> 0 < n -> sizeof_Header * n < 2147483648 ->
  if decide (hbrk h + sizeof_Header * units n <= htop h)
  then exists h' T', morecore n (mkWorld h e) = Ok (hfreep h') (mkWorld h' e) /\ grown_heap h T n h' T'
  else morecore n (mkWorld h e) = Ok 0 (mkWorld h e).
Proof using HO.
  intros HK Hfp Hn Hlt. unfold morecore. fold (units n). cbv zeta.
  assert (n <= units n /\ 0 < units n /\ sizeof_Header * units n < 2147483648) as (Hu1 & Hu2 & Hu3).
  { unfold units, sizeof_Header in *. destruct (Z.ltb_spec n 4096); lia. }
  pose proof (ho_end _ _ HK) as Ee. pose proof (tend_le heap0 T (ho_pos _ _ HK)) as Hte. rewrite Ee in Hte.
  case_decide as Hd.
  - rewrite sbrk_ok by done. pose proof (extended_ok h T (units n) HK Hfp Hu2 Hd) as HK1.
    destruct (free_spec (extended h (units n)) e T (units n) [] HK1 Hfp) as (h' & T' & E & HK' & Hfp' & _ & _ & U & Hw & Hr & Hl & a & t & Ha & Ht).
    rewrite Ee in E. rewrite (bind_Ok _ _ _ _ _ E). exists h', T'. split; [reflexivity|]. split; [done|]. split; [done|].
    assert (forall w, ring_word (T ++ [(units n, true)]) w <-> ring_word T w) as Hrw.
    { intros w. unfold ring_word, free_word. rewrite frees_app. cbn. by rewrite app_nil_r. }
    split; [by rewrite U, app_nil_r|]. unfold block_word in *. rewrite Ee in Hw, Hr. split.
    { intros w Hb Hn'. rewrite Hw; [by apply word_extended|by rewrite Hrw|lia]. }
    split; [intros w Hw'; apply Hr in Hw'; rewrite Hrw in Hw'; destruct Hw'; [by left|right; lia]|].
    split; [unfold nodes in *; rewrite frees_app in Hl; cbn in *; rewrite app_nil_r in Hl; lia|]. exists a, t. split; [done|lia].
  - pose proof base_low. pose proof base_pos. unfold sizeof_Header in *. unfold sbrk, id. rewrite u64_small by lia. run. rewrite s32_small by lia.
    destruct (Z.ltb_spec (htop h) (hbrk h + units n * 16)); [|lia]. run. done.
Qed.

(** *** malloc *)

(** malloc has returned [a]. *)
Definition malloced h T n a h' T' : Prop :=
  heap_ok h' T' /\
  (forall p s w, (p, s) ∈ useds heap0 T -> block_word p s w -> word h' w = word h w) /\
  ((a = 0 /\ useds heap0 T' = useds heap0 T /\ htop h < hbrk h + sizeof_Header * units n) \/
   exists p U1 U2, a = p + sizeof_Header /\ useds heap0 T = U1 ++ U2 /\ useds heap0 T' = U1 ++ (p, n) :: U2).

Lemma took_malloced h T p n h' T' : heap_ok h T -> took h T p n h' T' -> malloced h T n (p + sizeof_Header) h' T'.
Proof using HO.
  intros HK (HK' & _ & _ & _ & (U1 & U2 & E1 & E2) & Hw). split; [done|]. split; [|right; by exists p, U1, U2].
  intros b s w Hb Hbw. apply Hw. by apply (used_not_ring T b s w (ho_pos _ _ HK)).
Qed.

Lemma grow_spec h e T n fuel : heap_ok h T -> hfreep h <> 0 -> 0 < n -> sizeof_Header * n < 2147483648 -> (length (nodes T) < fuel)%nat ->
  exists a h' T', grow fuel n (mkWorld h e) = Ok a (mkWorld h' e) /\ malloced h T n a h' T'.
Proof using HO.
  intros HK Hfp Hn Hlt Hfuel. pose proof (morecore_spec h e T n HK Hfp Hn Hlt) as Hm. unfold grow. case_decide as Hd.
  - destruct Hm as (h1 & T1 & E & HK1 & Hfp1 & U & Hw & Hr & Hl & b & t & Hb & Ht). rewrite (bind_Ok _ _ _ _ _ E).
    destruct (Z.eqb_spec (hfreep h1) 0); [done|].
    destruct (malloc_round h1 e T1 n fuel HK1 Hfp1 Hn) as [(p & h' & T' & Em & Ht')|(fuel' & _ & _ & Hall)]; [lia| |].
    2: { rewrite Forall_forall in Hall. specialize (Hall (b, t)). cbn in Hall. assert (t < n) by (apply Hall; by right). lia. }
    rewrite Em. do 3 eexists. split; [reflexivity|]. destruct (took_malloced h1 T1 p n h' T' HK1 Ht') as (HK' & Hc & Hcase).
    split; [done|]. rewrite U in *. split.
    { intros q s w Hq Hqw. rewrite (Hc q s w Hq Hqw). pose proof (useds_range _ _ _ _ (ho_pos _ _ HK) Hq) as Hqr.
      rewrite (ho_end _ _ HK) in Hqr. unfold block_word in Hqw. apply Hw; [lia|]. by apply (used_not_ring T q s w (ho_pos _ _ HK)). }
    destruct Hcase as [(Hz & _)|Hcase]; [|by right]. exfalso. destruct Ht' as (K & _ & _ & _ & (V1 & V2 & _ & V) & _).
    assert ((p, n) ∈ useds heap0 T') as Hp by (rewrite V; apply elem_of_app; right; by left).
    pose proof (useds_range _ _ _ _ (ho_pos _ _ K) Hp). pose proof base_low. pose proof base_pos. unfold sizeof_Header in *. lia.
  - rewrite (bind_Ok _ _ _ _ _ Hm). exists 0, h, T. split; [done|]. split; [done|]. split; [done|]. left. split; [done|]. split; [done|lia].
Qed.

(** The first call makes the ring of the one node [base]. *)
Definition started h : uheap := upd (base + 8) 0 (mkHeap (hmem (upd base base h)) base (hbrk h) (htop h)).

Lemma started_ok h T : heap_ok h T -> hfreep h = 0 -> T = [] /\ heap_ok (started h) T.
Proof using HO.
  intros [O1 O2 O3 O4 O5 O6] Hz. rewrite decide_True in O5 by done. subst T. split; [done|]. pose proof base_pos.
  constructor; try done; [|by intros a s ?%elem_of_nil]. cbn [started upd hfreep]. rewrite decide_False by lia. split; [|by left].
  cbn. unfold started. rewrite !word_upd. rewrite decide_False, decide_True by lia. unfold word. cbn. by rewrite lookup_insert_eq.
Qed.

Lemma malloc_ready h e T n : heap_ok h T -> hfreep h <> 0 -> 0 < n -> sizeof_Header * n < 2147483648 ->
  exists a h' T', (p ← get_ptr (hfreep h); fuel ← gets ring_fuel; malloc_loop (2 * fuel) n (hfreep h) p) (mkWorld h e) = Ok a (mkWorld h' e) /\
    malloced h T n a h' T'.
Proof using HO.
  intros HK Hfp Hn Hlt. pose proof base_low as Hlay. pose proof base_pos as Hbase. unfold sizeof_Header in Hlay.
  pose proof (ring_fuel_enough h T (ho_pos _ _ HK) (ho_end _ _ HK) ltac:(lia)) as Hfuel.
  assert ((p ← get_ptr (hfreep h); fuel ← gets ring_fuel; malloc_loop (2 * fuel) n (hfreep h) p) (mkWorld h e) =
          (p ← get_ptr (hfreep h); malloc_loop (2 * ring_fuel h) n (hfreep h) p) (mkWorld h e)) as ->.
  { unfold get_ptr, load, id. run. by destruct (mapped h (hfreep h)). }
  destruct (malloc_round h e T n (2 * ring_fuel h) HK Hfp Hn) as [(p & h' & T' & E & Ht)|(fuel' & Hle & E & _)]; [lia| |].
  - rewrite E. do 3 eexists. split; [reflexivity|]. by apply took_malloced.
  - rewrite E. apply grow_spec; try done. lia.
Qed.

Lemma malloc_spec h e T nbytes : heap_ok h T -> 0 <= nbytes <= 2147483616 ->
  exists a h' T', malloc nbytes (mkWorld h e) = Ok a (mkWorld h' e) /\ malloced h T ((nbytes + 15) / 16 + 1) a h' T'.
Proof using HO.
  intros HK Hb. set (n := (nbytes + 15) / 16 + 1). pose proof base_low as Hlay. pose proof base_pos as Hbase.
  assert (0 < n /\ sizeof_Header * n < 2147483648) as [Hn Hlt].
  { unfold n, sizeof_Header. pose proof (Z.div_lt_upper_bound (nbytes + 15) 16 134217727). pose proof (Z.div_pos (nbytes + 15) 16). lia. }
  unfold malloc, get_freep. replace (nbytes + sizeof_Header - 1) with (nbytes + 15) by (unfold sizeof_Header; lia).
  unfold sizeof_Header at 1. fold n. rewrite u32_small by (unfold sizeof_Header in *; lia). cbv zeta. run.
  destruct (Z.eqb_spec (hfreep h) 0) as [Hz|Hz].
  - destruct (started_ok h T HK Hz) as [-> HK1].
    rewrite !bind_assoc, (bind_Ok _ _ _ _ _ (set_ptr_ok h e base base ltac:(apply mapped_base; unfold sizeof_Header; lia))). unfold set_freep. run.
    rewrite (bind_Ok _ _ _ tt (mkWorld (started h) e)); [|apply set_size_ok; [apply mapped_base; unfold sizeof_Header; lia|lia]]. run.
    destruct (malloc_ready (started h) e [] n HK1 ltac:(cbn; lia) Hn Hlt) as (a & h' & T' & E & HK' & Hw & Hcase).
    exists a, h', T'. split; [exact E|]. split; [done|]. split; [by intros p s w ?%elem_of_nil|]. exact Hcase.
  - run. by apply malloc_ready.
Qed.

(** ** The theorems *)

Lemma useds_apart a T U1 U2 p n b t : positive T -> useds a T = U1 ++ (p, n) :: U2 -> (b, t) ∈ U1 ++ U2 ->
  b + sizeof_Header * t <= p \/ p + sizeof_Header * n <= b.
Proof.
  revert a U1. induction T as [|[s u] T IH]; intros a U1 H E Hb; cbn [useds] in E; [by destruct U1|].
  apply Forall_cons in H as [Hs H]. cbn in Hs. destruct u; cbn [app] in E; [|by apply (IH _ U1 H E)].
  destruct U1 as [|x U1]; cbn in E, Hb.
  - injection E as -> -> E. rewrite <- E in Hb. apply useds_range in Hb; [|done]. lia.
  - injection E as <- E. apply elem_of_cons in Hb as [[= -> ->]|Hb]; [|by apply (IH _ U1 H E)]. left.
    assert ((p, n) ∈ useds (a + sizeof_Header * s) T) as Hp by (rewrite E; apply elem_of_app; right; by left).
    apply useds_range in Hp; [|done]. lia.
Qed.

(** C18: malloc returns, for every size up to 2^31 - 32 and every well-formed
    heap.  Either it returns a pointer to a block of at least [nbytes] bytes
    in the heap, which overlaps no block in use and is from now on in use
    itself; or it returns 0, the blocks in use are as before, and the kernel
    had not the memory that it asked for.  In both cases the heap is
    well-formed again, and the contents of the blocks that were in use are
    untouched. *)
Theorem malloc_correct h e T nbytes : heap_ok h T -> 0 <= nbytes <= 2147483616 ->
  exists a h' T', malloc nbytes (mkWorld h e) = Ok a (mkWorld h' e) /\ heap_ok h' T' /\
    (forall p s w, (p, s) ∈ useds heap0 T -> p <= w < p + sizeof_Header * s -> word h' w = word h w) /\
    if decide (a = 0)
    then useds heap0 T' = useds heap0 T /\ htop h < hbrk h + Z.max (sizeof_Header * 4096) (nbytes + 2 * sizeof_Header)
    else exists p n, a = p + sizeof_Header /\ a + nbytes <= p + sizeof_Header * n /\
      heap0 <= p /\ p + sizeof_Header * n <= hbrk h' /\ useds heap0 T' ≡ₚ (p, n) :: useds heap0 T /\
      forall q s, (q, s) ∈ useds heap0 T -> q + sizeof_Header * s <= p \/ p + sizeof_Header * n <= q.
Proof using HO.
  intros HK Hb. destruct (malloc_spec h e T nbytes HK Hb) as (a & h' & T' & E & HK' & Hw & Hcase). exists a, h', T'.
  split; [done|]. split; [done|]. split; [done|]. pose proof base_low as Hlay. pose proof base_pos.
  pose proof (Z.mul_div_le (nbytes + 15) 16 ltac:(lia)). pose proof (Z.mul_succ_div_gt (nbytes + 15) 16 ltac:(lia)).
  destruct Hcase as [(-> & U & Hm)|(p & U1 & U2 & -> & U & U')].
  - rewrite decide_True by done. split; [done|]. unfold units, sizeof_Header in *. destruct (Z.ltb_spec ((nbytes + 15) / 16 + 1) 4096); lia.
  - set (n := (nbytes + 15) / 16 + 1) in *. assert ((p, n) ∈ useds heap0 T') as Hp by (rewrite U'; apply elem_of_app; right; by left).
    pose proof (useds_range _ _ _ _ (ho_pos _ _ HK') Hp) as Hr. rewrite (ho_end _ _ HK') in Hr.
    rewrite decide_False by (unfold sizeof_Header in *; lia). exists p, n. split; [done|]. split; [unfold n, sizeof_Header in *; lia|].
    do 2 (split; [tauto|]). rewrite U, U'. split; [solve_Permutation|]. intros q s Hq. by apply (useds_apart heap0 T' U1 U2 p n q s (ho_pos _ _ HK') U').
Qed.

(** C24: free returns for a block in use of a well-formed heap.  The heap is
    well-formed again, without two free blocks in a row; the blocks in use are
    the others, and their contents are untouched. *)
Theorem free_correct h e T p s : heap_ok h T -> (p, s) ∈ useds heap0 T ->
  exists h' T', free (p + sizeof_Header) (mkWorld h e) = Ok tt (mkWorld h' e) /\ heap_ok h' T' /\
    hbrk h' = hbrk h /\ useds heap0 T ≡ₚ (p, s) :: useds heap0 T' /\
    (forall q t w, (q, t) ∈ useds heap0 T' -> q <= w < q + sizeof_Header * t -> word h' w = word h w).
Proof using HO.
  intros HK Hp. assert (hfreep h <> 0) as Hfp.
  { intros Hz. pose proof (ho_ring _ _ HK) as HR. rewrite decide_True in HR by done. subst T. by apply elem_of_nil in Hp. }
  apply useds_split in Hp as (T1 & T2 & -> & ->).
  destruct (free_spec h e T1 s T2 HK Hfp) as (h' & T' & E & HK' & _ & B1 & _ & U & Hw & _). exists h', T'.
  split; [done|]. split; [done|]. split; [done|]. split; [rewrite U, useds_app; cbn [useds app]; solve_Permutation|].
  intros q t w Hq Hqw. rewrite U in Hq. destruct (useds_around T1 s T2 q t (ho_pos _ _ HK) Hq) as (Hu & Ht & Hr).
  apply Hw; [by apply (used_not_ring _ q t w (ho_pos _ _ HK))|]. unfold block_word. lia.
Qed.

(** A request of 2^31 - 16 bytes, in a heap that has not been used: the
    argument of sbrk is negative, so that sbrk does not extend the heap, but
    does not fail either. *)
Lemma malloc_huge h e : hfreep h = 0 -> hbrk h = heap0 -> hbrk h <= htop h < 2147483648 ->
  malloc 2147483632 (mkWorld h e) = Fault "page fault".
Proof using HO.
  intros Hz Hb Ht. pose proof base_low as Hlay. pose proof base_pos as Hbase. unfold sizeof_Header in Hlay.
  unfold malloc, get_freep. change (u32 _) with 134217728. cbv zeta. run. rewrite Hz, Z.eqb_refl.
  rewrite !bind_assoc, (bind_Ok _ _ _ _ _ (set_ptr_ok h e base base ltac:(apply mapped_base; unfold sizeof_Header; lia))). unfold set_freep. run.
  rewrite (bind_Ok _ _ _ tt (mkWorld (started h) e)); [|apply set_size_ok; [apply mapped_base; unfold sizeof_Header; lia|lia]]. run.
  assert (forall a, base <= a < base + 16 -> mapped (started h) a = true) as Hm by (intros; by apply mapped_base).
  assert (word (started h) base = base /\ word (started h) (base + 8) = 0) as [W1 W2].
  { unfold started. rewrite !word_upd, decide_False, decide_True by lia. split; [|done]. unfold word. cbn. by rewrite lookup_insert_eq. }
  unfold get_ptr. rewrite (bind_Ok _ _ _ _ _ (load_ok (started h) e base ltac:(apply Hm; lia))), W1. run.
  assert (exists fuel, 2 * ring_fuel (started h) = S fuel)%nat as [fuel ->] by (exists (2 * ring_fuel (started h) - 1)%nat; unfold ring_fuel; lia).
  cbn [malloc_loop]. unfold get_size. rewrite (bind_Ok _ _ _ _ _ (load_ok (started h) e (base + 8) ltac:(apply Hm; lia))), W2.
  change (134217728 <=? 0) with false. unfold get_freep. run. cbn [started upd hfreep]. rewrite Z.eqb_refl.
  unfold morecore. change (134217728 <? 4096) with false. cbv zeta. unfold sbrk, id. run. change (s32 _) with (-2147483648).
  cbn [started upd htop hbrk]. destruct (Z.ltb_spec (htop h) (hbrk h + -2147483648)); [lia|]. run.
  destruct (Z.ltb_spec (hbrk h + -2147483648) 0); [|lia]. change ((-2147483648 <? 0) && true) with true. cbv iota. destruct (Z.eqb_spec (hbrk h) (-1)); [lia|].
  unfold set_size, store, id. run. unfold mapped. cbn [hbrk]. change (sizeof_Header) with 16.
  destruct (Z.ltb_spec (hbrk h + 8) (base + 16)); [lia|]. rewrite andb_false_r.
  destruct (Z.ltb_spec (hbrk h + 8) (hbrk h)); [lia|]. rewrite andb_false_r. done.
Qed.
End heap.

(** ** Examples *)

#[local] Instance layout_example : HeapLayout := { base := 4096; heap0 := 8192 }.
#[local] Instance layout_example_ok : HeapLayoutOk.
Proof. split; cbv; done. Qed.

Definition heap_example : uheap := mkHeap ∅ 0 8192 1000000.

Lemma malloc_correct_witness : exists a h', malloc 100 (mkWorld heap_example []) = Ok a (mkWorld h' []) /\ a <> 0.
Proof.
  destruct (malloc_correct heap_example [] [] 100) as (a & h' & T' & E & _ & _ & H).
  - constructor; try done; [constructor|]. by intros a s ?%elem_of_nil.
  - done.
  - exists a, h'. split; [exact E|]. case_decide; [|done]. destruct H as [_ H]. cbv in H. done.
Defined.

(** After a first malloc, of 100 bytes *)
Definition used_example : uheap :=
  mkHeap (<[4096 := 8192]> (<[4104 := 0]> (<[8192 := 4096]> (<[8200 := 4088]> (<[73608 := 8]> ∅))))) 4096 73728 1000000.

Lemma free_correct_witness : exists h', free 73616 (mkWorld used_example []) = Ok tt (mkWorld h' []).
Proof.
  destruct (free_correct used_example [] [(4088, false); (8, true)] 73600 8) as (h' & T' & E & _).
  - constructor; try done.
    + repeat constructor.
    + cbn. split; [done|]. by left.
    + intros a s Ha. cbn in Ha. apply list_elem_of_singleton in Ha as [= -> ->]. done.
  - by left.
  - exists h'. exact E.
Defined.
