(* ===== verification/Sh.v ===== *)
(** * The shell

    user/sh.c.  The line is an array [buf], pointers into it are indices; a
    command is a tree whose words are the first index and the index after the
    last of a piece of the line.  The structures that the constructors fill are
    values: each is in a block of its own from malloc, which crashes the shell
    when it returns 0.  The recursive parser has [fuel].

    [ShParse] is about the parser, [ShRun] about what a command runs. *)

From S2P Require Import Prelude Prog CStr User Ulib Uprintf.

Definition MAXARGS : nat := 10.

(** [argv] and [eargv] in one list, without the null that ends it *)
Inductive cmd :=
| EXEC (argv : list (nat * nat))
| REDIR (c : cmd) (file efile : nat) (mode fd : Z)
| PIPE (left right : cmd)
| LIST (left right : cmd)
| BACK (c : cmd).

(** The string at an index of the line *)
Definition str (buf : list Z) (q : nat) : list Z := cstr (drop q buf).

Definition panic {A} (s : string) : U A :=
  fprintf 2 "%s
" [AStr (Some (bytes_of s))];; exit 1.

Definition fork1 : U Z :=
  pid ← fork 1;
  if pid =? -1 then panic "fork" else mret pid.

(** ** Constructors *)

(** [malloc(n); memset(p, 0, n)] *)
Definition new (n : Z) : U unit := p ← malloc n; if p =? 0 then Crash "memset" else mret tt.

Definition execcmd : U cmd := new 168;; mret (EXEC []).
Definition redircmd (subcmd : cmd) (file efile : nat) (mode fd : Z) : U cmd := new 40;; mret (REDIR subcmd file efile mode fd).
Definition pipecmd (left right : cmd) : U cmd := new 24;; mret (PIPE left right).
Definition listcmd (left right : cmd) : U cmd := new 24;; mret (LIST left right).
Definition backcmd (subcmd : cmd) : U cmd := new 16;; mret (BACK subcmd).

(** ** Tokens *)

(** [" \t\r\n\v"] *)
Definition whitespace : list Z := [32; 9; 13; 10; 11].
Definition symbols : list Z := bytes_of "<|>&;()".

(** [strchr(set, c)], as a truth value *)
Definition among (set : list Z) (c : Z) : bool :=
  match strchr (set ++ [0]) c with Some (Some _) => true | _ => false end.

Definition in_word (c : Z) : bool := negb (among whitespace c) && negb (among symbols c).

Section parser.
Context (buf : list Z) (es : nat).

(** [while(s < es && test(c)) s++], with [n] the distance to [es] *)
Fixpoint skip_loop (test : Z -> bool) (n s : nat) : U nat :=
  match n with
  | O => mret s
  | S n => c ← need "*s" (buf !! s); if (test c : bool) then skip_loop test n (S s) else mret s
  end.
Definition skip (test : Z -> bool) (s : nat) : U nat := skip_loop test (es - s) s.

(** The token, where it starts and ends, and where the next starts *)
Definition gettoken (ps : nat) : U (Z * nat * nat * nat) :=
  s ← skip (among whitespace) ps;
  let q := s in
  c ← need "*s" (buf !! s);
  '(ret, s) ← (if c =? 0 then mret (c, s)
    else if (c =? chr "|") || (c =? chr "(") || (c =? chr ")") || (c =? chr ";") || (c =? chr "&") || (c =? chr "<") then
      mret (c, S s)
    else if c =? chr ">" then
      c' ← need "*s" (buf !! S s);
      if c' =? chr ">" then mret (chr "+", S (S s)) else mret (c, S s)
    else
      s ← skip in_word s;
      mret (chr "a", s));
  let eq := s in
  s ← skip (among whitespace) s;
  mret (ret, q, eq, s).

Definition peek (ps : nat) (toks : list Z) : U (bool * nat) :=
  s ← skip (among whitespace) ps;
  c ← need "*s" (buf !! s);
  mret (negb (c =? 0) && among toks c, s).

(** ** The parser: the command and where it ends *)

(** The loop of parseredirs *)
Fixpoint parseredirs (n : nat) (ret : cmd) (ps : nat) : U (cmd * nat) :=
  match n with
  | O => Crash "parseredirs fuel"
  | S n =>
    '(more, ps) ← peek ps (bytes_of "<>");
    if negb more then mret (ret, ps) else
    '(tok, _, _, ps) ← gettoken ps;
    '(tok2, q, eq, ps) ← gettoken ps;
    if negb (tok2 =? chr "a") then panic "missing file for redirection" else
    ret ← (if tok =? chr "<" then redircmd ret q eq O_RDONLY 0
           else if tok =? chr ">" then redircmd ret q eq (Z.lor (Z.lor O_WRONLY O_CREATE) O_TRUNC) 1
           else if tok =? chr "+" then redircmd ret q eq (Z.lor O_WRONLY O_CREATE) 1
           else mret ret);
    parseredirs n ret ps
  end.

(** [cmd->argv[argc] = q; cmd->eargv[argc] = eq], where [cmd] is the structure
    of the words inside of the redirections of [ret] *)
Fixpoint set_arg (ret : cmd) (q eq : nat) : cmd :=
  match ret with
  | EXEC argv => EXEC (argv ++ [(q, eq)])
  | REDIR c file efile mode fd => REDIR (set_arg c q eq) file efile mode fd
  | _ => ret
  end.

(** The loop of parseexec, with [n] arguments left of [MAXARGS] *)
Fixpoint parseargs (n : nat) (ret : cmd) (ps : nat) : U (cmd * nat) :=
  match n with
  | O => Crash "argv"
  | S n =>
    '(stop, ps) ← peek ps (bytes_of "|)&;");
    if (stop : bool) then mret (ret, ps) else
    '(tok, q, eq, ps) ← gettoken ps;
    if tok =? 0 then mret (ret, ps) else
    if negb (tok =? chr "a") then panic "syntax" else
    let ret := set_arg ret q eq in
    if (n =? 0)%nat then panic "too many args" else
    '(ret, ps) ← parseredirs (S es) ret ps;
    parseargs n ret ps
  end.

(** The loop of parseline *)
Fixpoint parseback (n : nat) (ret : cmd) (ps : nat) : U (cmd * nat) :=
  match n with
  | O => Crash "parseline fuel"
  | S n =>
    '(more, ps) ← peek ps (bytes_of "&");
    if negb more then mret (ret, ps) else
    '(_, _, _, ps) ← gettoken ps;
    ret ← backcmd ret;
    parseback n ret ps
  end.

Fixpoint parseline (fuel ps : nat) : U (cmd * nat) :=
  match fuel with
  | O => Crash "parse fuel"
  | S fuel =>
    '(ret, ps) ← parsepipe fuel ps;
    '(ret, ps) ← parseback (S es) ret ps;
    '(more, ps) ← peek ps (bytes_of ";");
    if negb more then mret (ret, ps) else
    '(_, _, _, ps) ← gettoken ps;
    '(rest, ps) ← parseline fuel ps;
    ret ← listcmd ret rest;
    mret (ret, ps)
  end
with parsepipe (fuel ps : nat) : U (cmd * nat) :=
  match fuel with
  | O => Crash "parse fuel"
  | S fuel =>
    '(ret, ps) ← parseexec fuel ps;
    '(more, ps) ← peek ps (bytes_of "|");
    if negb more then mret (ret, ps) else
    '(_, _, _, ps) ← gettoken ps;
    '(rest, ps) ← parsepipe fuel ps;
    ret ← pipecmd ret rest;
    mret (ret, ps)
  end
with parseexec (fuel ps : nat) : U (cmd * nat) :=
  match fuel with
  | O => Crash "parse fuel"
  | S fuel =>
    '(block, ps) ← peek ps (bytes_of "(");
    if (block : bool) then parseblock fuel ps else
    ret ← execcmd;
    '(ret, ps) ← parseredirs (S es) ret ps;
    parseargs MAXARGS ret ps
  end
with parseblock (fuel ps : nat) : U (cmd * nat) :=
  match fuel with
  | O => Crash "parse fuel"
  | S fuel =>
    '(block, ps) ← peek ps (bytes_of "(");
    if negb block then panic "parseblock" else
    '(_, _, _, ps) ← gettoken ps;
    '(ret, ps) ← parseline fuel ps;
    '(closed, ps) ← peek ps (bytes_of ")");
    if negb closed then panic "syntax - missing )" else
    '(_, _, _, ps) ← gettoken ps;
    parseredirs (S es) ret ps
  end.
End parser.

(** NUL-terminate the words of a command. *)
Fixpoint nulterminate (cmd : cmd) (buf : list Z) : U (list Z) :=
  match cmd with
  | EXEC argv => u_fold argv (fun buf a => put buf (Z.of_nat a.2) 0) buf
  | REDIR c _ efile _ _ => buf ← nulterminate c buf; put buf (Z.of_nat efile) 0
  | PIPE lcmd rcmd | LIST lcmd rcmd => buf ← nulterminate lcmd buf; nulterminate rcmd buf
  | BACK c => nulterminate c buf
  end.

(** The command, and the line its words are strings of *)
Definition parsecmd (buf : list Z) : U (cmd * list Z) :=
  n ← need "strlen" (strlen buf);
  let es := Z.to_nat n in
  '(cmd, s) ← parseline buf es (4 * es + 4) 0;
  '(_, s) ← peek buf es s [];
  (if negb (s =? es)%nat then
     fprintf 2 "leftovers: %s
" [AStr (Some (drop s buf))];;
     panic "syntax"
   else mret tt);;
  buf ← nulterminate cmd buf;
  mret (cmd, buf).

(** ** Running commands *)

(** Never returns. *)
Fixpoint runcmd (buf : list Z) (cmd : cmd) : U unit :=
  match cmd with
  | EXEC argv =>
    match argv with
    | [] => exit 1
    | a :: _ =>
      exec (str buf a.1) ((fun a => str buf a.1) <$> argv);;
      fprintf 2 "exec %s failed
" [AStr (Some (str buf a.1))];;
      exit 0
    end
  | REDIR c file _ mode fd =>
    close fd;;
    r ← open (str buf file) mode;
    (if r <? 0 then
       fprintf 2 "open %s failed
" [AStr (Some (str buf file))];;
       exit 1
     else mret tt);;
    runcmd buf c;;
    exit 0
  | LIST lcmd rcmd =>
    pid ← fork1;
    (if pid =? 0 then runcmd buf lcmd else mret tt);;
    wait;;
    runcmd buf rcmd;;
    exit 0
  | PIPE lcmd rcmd =>
    '(r, p) ← pipe;
    if r <? 0 then panic "pipe" else
    p0 ← need "p[0]" (p !! 0%nat);
    p1 ← need "p[1]" (p !! 1%nat);
    pid ← fork1;
    (if pid =? 0 then close 1;; dup p1;; close p0;; close p1;; runcmd buf lcmd else mret tt);;
    pid ← fork1;
    (if pid =? 0 then close 0;; dup p0;; close p0;; close p1;; runcmd buf rcmd else mret tt);;
    close p0;;
    close p1;;
    wait;;
    wait;;
    exit 0
  | BACK c =>
    pid ← fork1;
    (if pid =? 0 then runcmd buf c else mret tt);;
    exit 0
  end.

Definition getcmd (buf : list Z) (nbuf : Z) : U (Z * list Z) :=
  write 2 (bytes_of "$ ");;
  buf ← need "memset" (memset buf 0 (Z.to_nat nbuf));
  buf ← gets buf nbuf;
  c ← need "buf[0]" (buf !! 0%nat);
  mret (if c =? 0 then -1 else 0, buf).

(** [while((fd = open("console", O_RDWR)) >= 0)] *)
Fixpoint open_console (fuel : nat) : U unit :=
  match fuel with
  | O => Crash "console fuel"
  | S fuel =>
    fd ← open (bytes_of "console") O_RDWR;
    if negb (0 <=? fd) then mret tt else
    if 3 <=? fd then close fd;; mret tt else
    open_console fuel
  end.

(** The loop of main over the commands *)
Fixpoint sh_loop (fuel : nat) (buf : list Z) : U unit :=
  match fuel with
  | O => Crash "sh fuel"
  | S fuel =>
    '(r, buf) ← getcmd buf 100;
    if negb (0 <=? r) then mret tt else
    c0 ← need "buf" (buf !! 0%nat);
    c1 ← need "buf" (buf !! 1%nat);
    c2 ← need "buf" (buf !! 2%nat);
    if (c0 =? chr "c") && (c1 =? chr "d") && (c2 =? chr " ") then
      n ← need "strlen" (strlen buf);
      buf ← put buf (n - 1) 0;
      r ← chdir (str buf 3);
      (if r <? 0 then fprintf 2 "cannot cd %s
" [AStr (Some (str buf 3))] else mret tt);;
      sh_loop fuel buf
    else
      pid ← fork1;
      (if pid =? 0 then '(cmd, buf') ← parsecmd buf; runcmd buf' cmd else mret tt);;
      wait;;
      sh_loop fuel buf
  end.

Definition sh_main (fuel : nat) (buf : list Z) : U unit :=
  open_console fuel;;
  sh_loop fuel buf;;
  exit 0.
