(* ===== verification/ShParse.v ===== *)
(** * What the shell parses

    The grammar of the shell's command lines, over the tokens of a reference
    lexer, and the commands they stand for; the parser of [Sh] returns the
    command of every line of the grammar, however it is spaced, and its words
    are strings of the line after nulterminate. *)

From S2P Require Import Prelude Prog CStr User Ulib Uprintf Sh.

(** ** Tokens *)

Inductive token :=
| TWord (w : list Z)
| TSym (c : Z).

Fixpoint lex (cs : list Z) : list token :=
  match cs with
  | [] => []
  | c :: cs1 =>
    if among whitespace c then lex cs1 else
    if c =? chr ">" then
      match cs1 with
      | c' :: cs2 => if c' =? chr ">" then TSym (chr "+") :: lex cs2 else TSym c :: lex cs1
      | [] => [TSym c]
      end
    else if among symbols c then TSym c :: lex cs1 else
    match cs1 with
    | [] => [TWord [c]]
    | c' :: _ =>
      match lex cs1 with
      | TWord w :: ts => if in_word c' then TWord (c :: w) :: ts else TWord [c] :: TWord w :: ts
      | ts => TWord [c] :: ts
      end
    end
  end.

(** The lexer skips white space. *)
Fixpoint drop_while (p : Z -> bool) (cs : list Z) : list Z :=
  match cs with
  | [] => []
  | c :: cs' => if p c then drop_while p cs' else cs
  end.

Fixpoint take_while (p : Z -> bool) (cs : list Z) : list Z :=
  match cs with
  | [] => []
  | c :: cs' => if p c then c :: take_while p cs' else []
  end.

Lemma take_drop_while p cs : take_while p cs ++ drop_while p cs = cs.
Proof. induction cs as [|c cs IH]; cbn; [done|]. destruct (p c); cbn; [by rewrite IH|done]. Qed.

Lemma drop_while_drop p cs : drop_while p cs = drop (length (take_while p cs)) cs.
Proof. induction cs as [|c cs IH]; cbn; [done|]. by destruct (p c). Qed.

Lemma drop_while_head p cs : match drop_while p cs with [] => True | c :: _ => p c = false end.
Proof. induction cs as [|c cs IH]; cbn; [done|]. destruct (p c) eqn:E; [exact IH|done]. Qed.

Lemma lex_white cs : lex (drop_while (among whitespace) cs) = lex cs.
Proof.
  induction cs as [|c cs IH]; [done|]. cbn [drop_while]. destruct (among whitespace c) eqn:E; [|done]. cbn [lex]. by rewrite E.
Qed.

Lemma lex_word cs : match cs with [] => False | c :: _ => in_word c = true end ->
  lex cs = TWord (take_while in_word cs) :: lex (drop_while in_word cs).
Proof.
  induction cs as [|c cs IH]; [done|]. intros Hc. unfold in_word in Hc. apply andb_prop in Hc as [H1 H2].
  apply negb_true_iff in H1, H2. cbn [lex take_while drop_while]. rewrite H1, H2.
  assert (in_word c = true) as -> by (unfold in_word; by rewrite H1, H2).
  destruct (Z.eqb_spec c (chr ">")) as [->|_]; [done|]. destruct cs as [|c' cs]; [done|].
  destruct (in_word c') eqn:E.
  - by rewrite (IH eq_refl).
  - cbn [take_while drop_while]. rewrite E. by destruct (lex (c' :: cs)) as [|[] ts].
Qed.

Lemma in_word_white c : in_word c = true -> among whitespace c = false.
Proof. unfold in_word. intros H. apply andb_prop in H as [H _]. by apply negb_true_iff in H. Qed.

Lemma length_lex cs : (length (lex cs) <= length cs)%nat.
Proof.
  enough (forall n cs, (length cs <= n)%nat -> (length (lex cs) <= length cs)%nat) as H by (by apply (H (length cs))).
  clear cs. intros n. induction n as [|n IH]; intros [|c cs] Hn; cbn [length] in Hn; [cbn; lia|lia|cbn; lia|].
  assert (length (lex cs) <= length cs)%nat as Hl by (apply IH; lia). cbn [lex length].
  destruct (among whitespace c); [lia|]. destruct (c =? chr ">").
  - destruct cs as [|c' cs]; [cbn; lia|]. destruct (c' =? chr ">"); cbn [length] in *; [specialize (IH cs); lia|lia].
  - destruct (among symbols c); [cbn [length]; lia|]. destruct cs as [|c' cs]; [cbn; lia|].
    destruct (lex (c' :: cs)) as [|[w|x] ts]; cbn [length] in *; [lia| |lia]. destruct (in_word c'); cbn [length]; lia.
Qed.

Lemma lex_sym cs c : TSym c ∈ lex cs -> among symbols c = true \/ c = chr "+".
Proof.
  enough (forall n cs, (length cs <= n)%nat -> TSym c ∈ lex cs -> among symbols c = true \/ c = chr "+") as H by (by apply (H (length cs))).
  clear cs. intros n. induction n as [|n IH]; intros [|x cs] Hn; cbn [length] in Hn; [by intros ?%elem_of_nil|lia|by intros ?%elem_of_nil|].
  assert (TSym c ∈ lex cs -> among symbols c = true \/ c = chr "+") as IH' by (apply IH; lia). cbn [lex].
  destruct (among whitespace x); [done|]. destruct (Z.eqb_spec x (chr ">")) as [->|].
  - destruct cs as [|c' cs]; [intros [= ->]%list_elem_of_singleton; by left|]. destruct (c' =? chr ">"); intros [[= ->]|H]%elem_of_cons; try (by left); try (by right); [|by apply IH'].
    apply (IH cs); [cbn in Hn; lia|done].
  - destruct (among symbols x) eqn:Ex; [intros [[= ->]|H]%elem_of_cons; [by left|by apply IH']|].
    destruct cs as [|c' cs]; [by intros [= ]%list_elem_of_singleton|].
    destruct (lex (c' :: cs)) as [|[w|y] ts]; [by intros [= ]%list_elem_of_singleton| |].
    + destruct (in_word c'); intros [[= ]|H]%elem_of_cons; apply IH'; [by right|done].
    + intros [[= ]|H]%elem_of_cons. by apply IH'.
Qed.

Lemma among_existsb set c : 0 ∉ set -> among set c = existsb (fun x => x =? c) set.
Proof.
  unfold among. induction set as [|x set IH]; intros H; cbn [app strchr existsb]; [done|].
  apply not_elem_of_cons in H as [Hx H]. specialize (IH H). destruct (Z.eqb_spec x 0); [congruence|]. destruct (x =? c); [done|].
  destruct (strchr (set ++ [0]) c) as [[i|]|]; exact IH.
Qed.

(** A character that is one of the symbols, and what gettoken calls it. *)
Lemma among_symbols c : among symbols c =
  (c =? chr "|") || (c =? chr "(") || (c =? chr ")") || (c =? chr ";") || (c =? chr "&") || (c =? chr "<") || (c =? chr ">").
Proof.
  rewrite among_existsb by compute_done. change symbols with [60; 124; 62; 38; 59; 40; 41]. cbn [existsb]. rewrite !(Z.eqb_sym _ c).
  change (chr "|") with 124. change (chr "(") with 40. change (chr ")") with 41. change (chr ";") with 59. change (chr "&") with 38.
  change (chr "<") with 60. change (chr ">") with 62.
  by destruct (c =? 60), (c =? 124), (c =? 62), (c =? 38), (c =? 59), (c =? 40), (c =? 41).
Qed.

Section tokens.
Context (cs junk : list Z) (H0 : 0 ∉ cs).
Local Abbreviation buf := (cs ++ 0 :: junk).
Local Abbreviation es := (length cs).
Local Abbreviation at_ i := (lex (drop i cs)).

Lemma line_lookup s c : cs !! s = Some c -> buf !! s = Some c /\ c <> 0 /\ (s < es)%nat.
Proof using H0.
  intros E. split; [by apply lookup_app_l_Some|]. split; [intros ->; apply H0; by eapply list_elem_of_lookup_2|by eapply lookup_lt_Some].
Qed.

Lemma line_end : buf !! es = Some 0.
Proof. by rewrite lookup_app_r, Nat.sub_diag by lia. Qed.

Lemma drop_cons s c ds : drop s cs = c :: ds -> cs !! s = Some c /\ drop (S s) cs = ds.
Proof.
  intros E. split.
  - by rewrite <- (Nat.add_0_r s), <- lookup_drop, E.
  - rewrite <- Nat.add_1_r, <- drop_drop, E. done.
Qed.

Lemma skip_loop_spec test n s : (n = es - s)%nat -> (s <= es)%nat ->
  skip_loop buf test n s = mret (s + length (take_while test (drop s cs)))%nat.
Proof using H0.
  revert s. induction n as [|n IH]; intros s Hn Hs; cbn [skip_loop].
  - rewrite drop_ge by lia. cbn. by rewrite Nat.add_0_r.
  - destruct (drop s cs) as [|c ds] eqn:E; [apply (f_equal length) in E; rewrite length_drop in E; cbn in E; lia|].
    apply drop_cons in E as [Ec Ed]. destruct (line_lookup s c Ec) as (-> & _ & _). urun. cbn [take_while].
    destruct (test c); [|by rewrite Nat.add_0_r]. rewrite IH, Ed by lia. cbn [length]. f_equal. lia.
Qed.

Lemma skip_spec test s : (s <= es)%nat -> exists s', skip buf es test s = mret s' /\ (s <= s' <= es)%nat /\
  drop s' cs = drop_while test (drop s cs) /\ take (s' - s) (drop s cs) = take_while test (drop s cs).
Proof using H0.
  intros Hs. exists (s + length (take_while test (drop s cs)))%nat. split; [by apply skip_loop_spec|].
  pose proof (f_equal length (take_drop_while test (drop s cs))) as Hl. rewrite length_app, length_drop in Hl. split; [lia|].
  rewrite <- drop_drop. split; [by rewrite drop_while_drop|]. replace (_ - s)%nat with (length (take_while test (drop s cs))) by lia.
  rewrite <- (take_drop_while test (drop s cs)) at 2. by rewrite take_app_length.
Qed.

(** Where a word is in the line *)
Definition word_at (q eq : nat) (w : list Z) : Prop :=
  (q < eq <= es)%nat /\ take (eq - q) (drop q cs) = w /\ Forall (fun c => in_word c = true) w /\
  match cs !! eq with Some c => in_word c = false | None => True end.

(** The next token has its first character among [toks]. *)
Definition starts (toks : list Z) (ts : list token) : bool :=
  match ts with
  | TSym c :: _ => among toks (if c =? chr "+" then chr ">" else c)
  | _ => false
  end.

Lemma peek_spec i toks : (i <= es)%nat -> (forall c, in_word c = true -> among toks c = false) ->
  exists i', peek buf es i toks = mret (starts toks (at_ i), i') /\ (i <= i' <= es)%nat /\ at_ i' = at_ i.
Proof using H0.
  intros Hi Ht. destruct (skip_spec (among whitespace) i Hi) as (s & E & Hs & Ed & _). unfold peek. rewrite E. urun. exists s.
  rewrite Ed, lex_white. split; [|done]. rewrite <- (lex_white (drop i cs)), <- Ed.
  pose proof (drop_while_head (among whitespace) (drop i cs)) as Hh. rewrite <- Ed in Hh.
  destruct (drop s cs) as [|c ds] eqn:Es.
  { assert (s = es) as -> by (apply (f_equal length) in Es; rewrite length_drop in Es; cbn in Es; lia). rewrite line_end. by urun. }
  apply drop_cons in Es as [Ec Ed']. destruct (line_lookup s c Ec) as (-> & Hc & _). urun.
  destruct (Z.eqb_spec c 0); [done|]. cbn [negb andb]. f_equal. f_equal.
  destruct (in_word c) eqn:Ew; [rewrite lex_word by done; by rewrite Ht|]. unfold in_word in Ew. rewrite Hh in Ew. cbn [negb andb] in Ew.
  apply negb_false_iff in Ew. cbn [lex]. rewrite Hh.
  destruct (Z.eqb_spec c (chr ">")) as [->|Hne].
  - destruct ds as [|c' ds']; [done|]. by destruct (c' =? chr ">").
  - rewrite Ew. cbn [starts]. destruct (Z.eqb_spec c (chr "+")) as [->|]; [done|done].
Qed.

Lemma gettoken_spec i : (i <= es)%nat ->
  exists ret q eq i', gettoken buf es i = mret (ret, q, eq, i') /\ (i <= i' <= es)%nat /\
    match at_ i with
    | [] => ret = 0 /\ at_ i' = []
    | TWord w :: ts => ret = chr "a" /\ word_at q eq w /\ at_ i' = ts
    | TSym c :: ts => ret = c /\ at_ i' = ts
    end.
Proof using H0.
  intros Hi. destruct (skip_spec (among whitespace) i Hi) as (s & E & Hs & Ed & _). unfold gettoken. rewrite E. urun. cbv zeta.
  rewrite <- (lex_white (drop i cs)), <- Ed. pose proof (drop_while_head (among whitespace) (drop i cs)) as Hh. rewrite <- Ed in Hh.
  assert (forall (r : Z) (q s' : nat), (i <= s' <= es)%nat -> exists i', skip buf es (among whitespace) s' ≫= (fun s => mret (r, q, s', s)) = mret (r, q, s', i') /\
            (i <= i' <= es)%nat /\ at_ i' = at_ s') as Hend.
  { intros r q s' Hs'. destruct (skip_spec (among whitespace) s') as (i' & E' & Hi' & Ed' & _); [lia|]. exists i'. rewrite E'. urun.
    split; [done|]. split; [lia|]. by rewrite Ed', lex_white. }
  destruct (drop s cs) as [|c ds] eqn:Es.
  { assert (s = es) as -> by (apply (f_equal length) in Es; rewrite length_drop in Es; cbn in Es; lia). rewrite line_end. urun. change (0 =? 0) with true. cbv iota. urun.
    destruct (Hend 0 es es) as (i' & -> & Hi' & El); [lia|]. exists 0, es, es, i'. split; [done|]. split; [done|]. cbn. by rewrite El, drop_all. }
  apply drop_cons in Es as Es'. destruct Es' as [Ec Ed']. destruct (line_lookup s c Ec) as (-> & Hc & Hlt). urun.
  destruct (Z.eqb_spec c 0); [done|]. pose proof (among_symbols c) as Hsym.
  match goal with |- context [if ?b then mret (c, S s) else _] => destruct b eqn:E6 end.
  { cbn [lex]. rewrite Hh, Hsym. assert ((c =? chr ">") = false) as -> by (destruct (Z.eqb_spec c (chr ">")) as [->|]; [by vm_compute in E6|done]). cbn [orb]. urun.
    destruct (Hend c s (S s)) as (i' & -> & Hi' & El); [lia|]. exists c, s, (S s), i'. by rewrite El, Ed'. }
  destruct (Z.eqb_spec c (chr ">")) as [->|Hgt].
  { cbn [lex]. rewrite Hh. destruct ds as [|c' ds'].
    - assert (S s = es) as Hes by (apply (f_equal length) in Ed'; rewrite length_drop in Ed'; cbn in Ed'; lia).
      rewrite Hes, line_end. urun. change (0 =? chr ">") with false. cbv iota. urun.
      destruct (Hend (chr ">") s es) as (i' & -> & Hi' & El); [lia|]. exists (chr ">"), s, es, i'. by rewrite El, drop_all.
    - apply drop_cons in Ed' as Ed2. destruct Ed2 as [Ec' Ed2]. destruct (line_lookup (S s) c' Ec') as (-> & _ & Hlt'). urun.
      destruct (Z.eqb_spec c' (chr ">")) as [->|]; urun.
      + destruct (Hend (chr "+") s (S (S s))) as (i' & -> & Hi' & El); [lia|]. do 4 eexists. split; [done|]. split; [done|]. by rewrite El, Ed2.
      + destruct (Hend (chr ">") s (S s)) as (i' & -> & Hi' & El); [lia|]. do 4 eexists. split; [done|]. split; [done|]. by rewrite El, Ed'. }
  cbn [orb] in Hsym. destruct (skip_spec in_word s) as (s' & -> & Hs' & Ed2 & Et); [lia|]. urun.
  assert (in_word c = true) as Hw by (unfold in_word; by rewrite Hh, Hsym). rewrite Es in Et, Ed2.
  destruct (Hend (chr "a") s s') as (i' & -> & Hi' & El); [lia|]. exists (chr "a"), s, s', i'. split; [done|]. split; [done|].
  rewrite lex_word by done. split; [done|]. rewrite <- Ed2. split; [|done].
  assert (Forall (fun c => in_word c = true) (take_while in_word (c :: ds))) as Hall.
  { generalize (c :: ds). intros l. induction l as [|x l IH]; cbn; [constructor|]. destruct (in_word x) eqn:Ex; by constructor. }
  split; [|split; [by rewrite Es|split; [done|]]]. 
  - split; [|lia]. apply (f_equal length) in Et. rewrite length_take in Et. cbn [take_while length] in Et. rewrite Hw in Et. cbn [length] in Et. lia.
  - pose proof (drop_while_head in_word (c :: ds)) as Hh'. rewrite <- Ed2 in Hh'.
    destruct (cs !! s') as [x|] eqn:Ex; [|done]. apply drop_S in Ex. by rewrite Ex in Hh'.
Qed.
End tokens.

(** ** The grammar *)

(** [<], [>] or [>>], which is the token [+] *)
Record redir := mkRedir { r_op : Z; r_file : list Z }.

Inductive line :=
| LEnd (p : pipeline) (amps : nat)
| LSeq (p : pipeline) (amps : nat) (l : line)
with pipeline :=
| PEnd (x : element)
| PSeq (x : element) (p : pipeline)
with element :=
| Words (rs : list redir) (args : list (list Z * list redir))
| Block (l : line) (rs : list redir).

Scheme line_mind := Induction for line Sort Prop
  with pipe_mind := Induction for pipeline Sort Prop
  with elem_mind := Induction for element Sort Prop.

Definition print_redirs (rs : list redir) : list token := mjoin ((fun r => [TSym (r_op r); TWord (r_file r)]) <$> rs).
Definition print_args (args : list (list Z * list redir)) : list token :=
  mjoin ((fun a => TWord a.1 :: print_redirs a.2) <$> args).

Fixpoint print_line (l : line) : list token :=
  match l with
  | LEnd p amps => print_pipe p ++ replicate amps (TSym (chr "&"))
  | LSeq p amps l => print_pipe p ++ replicate amps (TSym (chr "&")) ++ TSym (chr ";") :: print_line l
  end
with print_pipe (p : pipeline) : list token :=
  match p with
  | PEnd x => print_elem x
  | PSeq x p => print_elem x ++ TSym (chr "|") :: print_pipe p
  end
with print_elem (x : element) : list token :=
  match x with
  | Words rs args => print_redirs rs ++ print_args args
  | Block l rs => TSym (chr "(") :: print_line l ++ TSym (chr ")") :: print_redirs rs
  end.

Definition redirs_ok (rs : list redir) : Prop := Forall (fun r => r_op r ∈ [chr "<"; chr ">"; chr "+"]) rs.

(** Fewer than [MAXARGS] words in a simple command *)
Fixpoint line_ok (l : line) : Prop :=
  match l with LEnd p _ => pipe_ok p | LSeq p _ l => pipe_ok p /\ line_ok l end
with pipe_ok (p : pipeline) : Prop :=
  match p with PEnd x => elem_ok x | PSeq x p => elem_ok x /\ pipe_ok p end
with elem_ok (x : element) : Prop :=
  match x with
  | Words rs args => redirs_ok rs /\ Forall (fun a => redirs_ok a.2) args /\ (length args < MAXARGS)%nat
  | Block l rs => line_ok l /\ redirs_ok rs
  end.

(** ** Commands *)

Inductive command :=
| Exec (argv : list (list Z))
| Redirect (c : command) (file : list Z) (mode fd : Z)
| Pipe (l r : command)
| Seq (l r : command)
| Back (c : command).

Definition redirect (c : command) (r : redir) : command :=
  if r_op r =? chr "<" then Redirect c (r_file r) O_RDONLY 0
  else if r_op r =? chr ">" then Redirect c (r_file r) (Z.lor (Z.lor O_WRONLY O_CREATE) O_TRUNC) 1
  else Redirect c (r_file r) (Z.lor O_WRONLY O_CREATE) 1.

Fixpoint line_cmd (l : line) : command :=
  match l with
  | LEnd p amps => Nat.iter amps Back (pipe_cmd p)
  | LSeq p amps l => Seq (Nat.iter amps Back (pipe_cmd p)) (line_cmd l)
  end
with pipe_cmd (p : pipeline) : command :=
  match p with
  | PEnd x => elem_cmd x
  | PSeq x p => Pipe (elem_cmd x) (pipe_cmd p)
  end
with elem_cmd (x : element) : command :=
  match x with
  | Words rs args => foldl redirect (Exec args.*1) (rs ++ mjoin args.*2)
  | Block l rs => foldl redirect (line_cmd l) rs
  end.

(** The parsed command stands for the command, its words pieces of the line. *)
Fixpoint denotes (cs : list Z) (c : cmd) (d : command) : Prop :=
  match c, d with
  | EXEC argv, Exec ws => Forall2 (fun a w => word_at cs a.1 a.2 w) argv ws
  | REDIR c file efile mode fd, Redirect d w mode' fd' => denotes cs c d /\ word_at cs file efile w /\ mode = mode' /\ fd = fd'
  | PIPE l r, Pipe l' r' | LIST l r, Seq l' r' => denotes cs l l' /\ denotes cs r r'
  | BACK c, Back d => denotes cs c d
  | _, _ => False
  end.

Lemma set_arg_denotes cs ret q eq w ws rs : denotes cs ret (foldl redirect (Exec ws) rs) -> word_at cs q eq w ->
  denotes cs (set_arg ret q eq) (foldl redirect (Exec (ws ++ [w])) rs).
Proof.
  intros H Hw. revert ret H. induction rs as [|r rs IH] using rev_ind; intros ret H.
  - destruct ret; cbn in H |- *; try done. apply Forall2_app; [done|]. by constructor.
  - rewrite foldl_app in *. cbn [foldl] in *. unfold redirect in *.
    destruct (r_op r =? chr "<"); [|destruct (r_op r =? chr ">")]; (destruct ret; cbn in H |- *; try done; destruct H as (H & H'); split; [by apply IH|done]).
Qed.

(** ** The parser *)

(** What may follow a part of a line *)
Definition follow (set : list Z) (ts : list token) : Prop :=
  match ts with
  | [] => True
  | TSym c :: _ => c ∈ set
  | TWord _ :: _ => False
  end.

Lemma follow_sub set set' ts : set ⊆ set' -> follow set ts -> follow set' ts.
Proof. destruct ts as [|[w|c] ts]; cbn; auto. Qed.

Lemma follow_starts set toks ts : follow set ts -> Forall (fun c => among toks (if c =? chr "+" then chr ">" else c) = false) set -> starts toks ts = false.
Proof. destruct ts as [|[w|c] ts]; cbn; [done..|]. intros Hc H. rewrite Forall_forall in H. by apply H. Qed.

Lemma word_not_sym toks c : forallb (among symbols) toks = true -> in_word c = true -> among toks c = false.
Proof.
  intros H Hc. assert (0 ∉ toks) as H0.
  { intros Hin. rewrite forallb_forall in H. specialize (H 0). apply list_elem_of_In, H in Hin. by vm_compute in Hin. }
  rewrite among_existsb by done. apply not_true_is_false. rewrite existsb_exists. intros (x & Hx & E). apply Z.eqb_eq in E as ->.
  rewrite forallb_forall in H. apply H in Hx. unfold in_word in Hc. rewrite Hx, andb_false_r in Hc. done.
Qed.

Section parse.
Context {S : Type} `{!Sys S}.

(** malloc finds memory. *)
Definition malloc_law : Prop :=
  forall n s e, exists a bs s', sys (MALLOC n) (mkWorld s e) = Ok (a, bs) (mkWorld s' e) /\ a <> 0.
Context (M : malloc_law).

Definition yields {A} (m : U A) (Q : A -> Prop) : Prop :=
  forall s e, exists a s', interp m (mkWorld s e) = Ok (inr a) (mkWorld s' e) /\ Q a.

Lemma yields_ret {A} (a : A) (Q : A -> Prop) : Q a -> yields (mret a) Q.
Proof. intros H s e. by exists a, s. Qed.

Lemma yields_bind {A B} (m : U A) (k : A -> U B) Q Q' : yields m Q -> (forall a, Q a -> yields (k a) Q') -> yields (m ≫= k) Q'.
Proof.
  intros Hm Hk s e. destruct (Hm s e) as (a & s1 & E & HQ). destruct (Hk a HQ s1 e) as (b & s2 & E2 & HQ').
  exists b, s2. by rewrite (interp_Ok _ _ _ _ _ E).
Qed.

Lemma yields_mono {A} (m : U A) (Q Q' : A -> Prop) : yields m Q -> (forall a, Q a -> Q' a) -> yields m Q'.
Proof. intros Hm HQ s e. destruct (Hm s e) as (a & s' & E & H). exists a, s'. auto. Qed.

Lemma yields_new n : yields (new n) (fun _ => True).
Proof using M.
  intros s e. destruct (M n s e) as (a & bs & s' & E & Ha). exists tt, s'. split; [|done]. unfold new.
  rewrite (interp_Ok (malloc n) _ _ _ _ (interp_trap0 _ _ _ _ _ E)). by destruct (Z.eqb_spec a 0).
Qed.

Lemma yields_node n (c : cmd) : yields (new n;; mret c) (fun x => x = c).
Proof using M. eapply yields_bind; [apply yields_new|]. intros _ _. by apply yields_ret. Qed.

Context (cs junk : list Z) (H0 : 0 ∉ cs).
Local Abbreviation buf := (cs ++ 0 :: junk).
Local Abbreviation es := (length cs).
Local Abbreviation at_ i := (lex (drop i cs)).

(** The parser returns at a place before the tokens [rest], with a command for [d]. *)
Definition parses (m : U (cmd * nat)) (d : command) (rest : list token) : Prop :=
  yields m (fun r => denotes cs r.1 d /\ (r.2 <= es)%nat /\ at_ r.2 = rest).

Lemma parses_bind {B} m (k : cmd * nat -> U B) d rest Q : parses m d rest ->
  (forall c i, denotes cs c d -> (i <= es)%nat -> at_ i = rest -> yields (k (c, i)) Q) -> yields (m ≫= k) Q.
Proof. intros Hm Hk. eapply yields_bind; [exact Hm|]. intros [c i] (H1 & H2 & H3). by apply Hk. Qed.

Lemma peek_at {B} i toks (k : bool * nat -> U B) Q : (i <= es)%nat -> forallb (among symbols) toks = true ->
  (forall i', (i' <= es)%nat -> at_ i' = at_ i -> yields (k (starts toks (at_ i), i')) Q) -> yields (peek buf es i toks ≫= k) Q.
Proof using H0.
  intros Hi Ht Hk. destruct (peek_spec cs junk H0 i toks Hi) as (i' & -> & Hi' & E); [intros c; by apply word_not_sym|].
  urun. apply Hk; [lia|done].
Qed.

Lemma token_sym {B} i c ts (k : Z * nat * nat * nat -> U B) Q : (i <= es)%nat -> at_ i = TSym c :: ts ->
  (forall q eq i', (i' <= es)%nat -> at_ i' = ts -> yields (k (c, q, eq, i')) Q) -> yields (gettoken buf es i ≫= k) Q.
Proof using H0.
  intros Hi E Hk. destruct (gettoken_spec cs junk H0 i Hi) as (ret & q & eq & i' & -> & Hi' & Ht). rewrite E in Ht. destruct Ht as [-> Ht].
  urun. apply Hk; [lia|done].
Qed.

Lemma token_word {B} i w ts (k : Z * nat * nat * nat -> U B) Q : (i <= es)%nat -> at_ i = TWord w :: ts ->
  (forall q eq i', (i' <= es)%nat -> word_at cs q eq w -> at_ i' = ts -> yields (k (chr "a", q, eq, i')) Q) -> yields (gettoken buf es i ≫= k) Q.
Proof using H0.
  intros Hi E Hk. destruct (gettoken_spec cs junk H0 i Hi) as (ret & q & eq & i' & -> & Hi' & Ht). rewrite E in Ht. destruct Ht as (-> & Hw & Ht).
  urun. apply Hk; [lia|done|done].
Qed.

Lemma token_end {B} i (k : Z * nat * nat * nat -> U B) Q : (i <= es)%nat -> at_ i = [] ->
  (forall q eq i', (i' <= es)%nat -> at_ i' = [] -> yields (k (0, q, eq, i')) Q) -> yields (gettoken buf es i ≫= k) Q.
Proof using H0.
  intros Hi E Hk. destruct (gettoken_spec cs junk H0 i Hi) as (ret & q & eq & i' & -> & Hi' & Ht). rewrite E in Ht. destruct Ht as (-> & Ht).
  urun. apply Hk; [lia|done].
Qed.

Lemma parseredirs_parses n ret d i rs rest : redirs_ok rs -> denotes cs ret d -> (i <= es)%nat -> at_ i = print_redirs rs ++ rest ->
  follow (bytes_of "|)&;") rest \/ (exists w ts, rest = TWord w :: ts) -> (length rs < n)%nat ->
  parses (parseredirs buf es n ret i) (foldl redirect d rs) rest.
Proof using M H0.
  revert n ret d i. induction rs as [|[op file] rs IH]; intros n ret d i Hok Hd Hi E Hf Hn; (destruct n as [|n]; [lia|]); cbn [parseredirs].
  - apply peek_at; [done|done|]. intros i' Hi' E'. cbn [print_redirs] in E. cbn in E.
    assert (starts (bytes_of "<>") (at_ i) = false) as ->.
    { rewrite E. destruct Hf as [Hf|(w & ts & ->)]; [|done]. eapply follow_starts; [exact Hf|]. compute_done. }
    cbn [negb]. apply yields_ret. cbn. by rewrite E'.
  - apply Forall_cons in Hok as [Hop Hok]. cbn [r_op] in Hop. change (at_ i = TSym op :: TWord file :: print_redirs rs ++ rest) in E. apply peek_at; [done|done|]. intros i' Hi' E'. rewrite E.
    assert (starts (bytes_of "<>") (TSym op :: TWord file :: print_redirs rs ++ rest) = true) as ->.
    { repeat (apply elem_of_cons in Hop as [->|Hop]; [done|]). by apply elem_of_nil in Hop. }
    cbn [negb]. rewrite E in E'. eapply token_sym; [done|exact E'|]. intros _ _ i2 Hi2 E2. eapply token_word; [done|exact E2|].
    intros q eq i3 Hi3 Hw E3. change (chr "a" =? chr "a") with true. cbn [negb].
    assert (forall mode fd, yields (redircmd ret q eq mode fd) (fun c => c = REDIR ret q eq mode fd)) as Hr.
    { intros mode fd. apply yields_node. }
    eapply (yields_bind _ _ (fun c => denotes cs c (redirect d (mkRedir op file)))).
    { unfold redirect. cbn [r_op r_file]. destruct (op =? chr "<") eqn:E1; [|destruct (op =? chr ">") eqn:E1'; [|destruct (op =? chr "+") eqn:E1'']].
      1-3: eapply yields_mono; [apply Hr|]; by intros c ->.
      repeat (apply elem_of_cons in Hop as [->|Hop]; [done|]). by apply elem_of_nil in Hop. }
    intros c Hc. cbn [foldl]. apply IH; try done. cbn in Hn. lia.
Qed.

Lemma redirs_short i rs ts : at_ i = print_redirs rs ++ ts -> (length rs <= es)%nat.
Proof.
  intros E. pose proof (length_lex (drop i cs)) as Hl. rewrite E, length_app, length_drop in Hl.
  assert (length rs <= length (print_redirs rs))%nat; [|lia]. clear. induction rs as [|r rs IH]; [done|].
  change (print_redirs (r :: rs)) with (TSym (r_op r) :: TWord (r_file r) :: print_redirs rs). cbn [length]. lia.
Qed.

Lemma parseargs_parses n ret ws rs0 i args rest : Forall (fun a => redirs_ok a.2) args ->
  denotes cs ret (foldl redirect (Exec ws) rs0) -> (i <= es)%nat -> at_ i = print_args args ++ rest ->
  follow (bytes_of "|)&;") rest -> (length args < n)%nat ->
  parses (parseargs buf es n ret i) (foldl redirect (Exec (ws ++ args.*1)) (rs0 ++ mjoin args.*2)) rest.
Proof using M H0.
  revert n ret ws rs0 i. induction args as [|[w rs] args IH]; intros n ret ws rs0 i Hok Hd Hi E Hf Hn; (destruct n as [|n]; [lia|]); cbn [parseargs].
  - change (at_ i = rest) in E. cbn [fmap list_fmap mjoin list_join]. rewrite !app_nil_r. apply peek_at; [done|done|]. intros i' Hi' E'. rewrite E in *.
    destruct rest as [|[w|c] ts]; [|done|].
    + cbn [starts]. eapply token_end; [done|exact E'|]. intros q eq i2 Hi2 E2. change (0 =? 0) with true. by apply yields_ret.
    + cbn [follow] in Hf. assert (starts (bytes_of "|)&;") (TSym c :: ts) = true) as ->; [|by apply yields_ret].
      repeat (apply elem_of_cons in Hf as [->|Hf]; [done|]). by apply elem_of_nil in Hf.
  - apply Forall_cons in Hok as [Hrs Hok]. cbn [snd] in Hrs.
    assert (at_ i = TWord w :: print_redirs rs ++ print_args args ++ rest) as E1 by (rewrite E; cbn; by rewrite <- app_assoc).
    apply peek_at; [done|done|]. intros i' Hi' E'. rewrite E1 in E' |- *. cbn [starts]. eapply token_word; [done|exact E'|].
    intros q eq i2 Hi2 Hw E2. change (chr "a" =? 0) with false. change (chr "a" =? chr "a") with true. cbn [negb]. cbv zeta.
    cbn [length] in Hn. destruct (Nat.eqb_spec n 0); [lia|].
    eapply parses_bind.
    { apply (parseredirs_parses _ _ (foldl redirect (Exec (ws ++ [w])) rs0) i2 rs (print_args args ++ rest)); try done.
      - by apply set_arg_denotes.
      - destruct args as [|[w' rs'] args']; [by left|right]. by do 2 eexists.
      - pose proof (redirs_short i2 rs _ E2). lia. }
    intros c i3 Hc Hi3 E3. rewrite <- foldl_app in Hc. cbn [fmap list_fmap fst snd]. cbn. rewrite app_assoc, (cons_middle w), app_assoc.
    apply IH; try done. lia.
Qed.

Lemma parseback_parses n ret d i amps rest : denotes cs ret d -> (i <= es)%nat -> at_ i = replicate amps (TSym (chr "&")) ++ rest ->
  starts (bytes_of "&") rest = false -> (amps < n)%nat -> parses (parseback buf es n ret i) (Nat.iter amps Back d) rest.
Proof using M H0.
  revert n ret d i. induction amps as [|amps IH]; intros n ret d i Hd Hi E Hf Hn; (destruct n as [|n]; [lia|]); cbn [parseback].
  - apply peek_at; [done|done|]. intros i' Hi' E'. cbn in E. rewrite E in *. rewrite Hf. by apply yields_ret.
  - cbn [replicate app] in E. apply peek_at; [done|done|]. intros i' Hi' E'. rewrite E in *. change (starts _ _) with true. cbn [negb].
    eapply token_sym; [done|exact E'|]. intros q eq i2 Hi2 E2. eapply (yields_bind _ _ (fun c => denotes cs c (Back d))).
    { unfold backcmd. eapply yields_bind; [apply yields_new|]. intros _ _. by apply yields_ret. }
    intros c Hc. rewrite Nat.iter_succ_r. apply IH; try done. lia.
Qed.

Lemma length_amps i amps rest : at_ i = replicate amps (TSym (chr "&")) ++ rest -> (amps < Datatypes.S es)%nat.
Proof.
  intros E. pose proof (length_lex (drop i cs)) as Hl. rewrite E, length_app, length_replicate, length_drop in Hl. lia.
Qed.

(** The parser on a line of the grammar, by induction on the line. *)
Definition line_parses (l : line) : Prop := forall fuel i rest, line_ok l -> (i <= es)%nat -> at_ i = print_line l ++ rest ->
  follow (bytes_of ")") rest -> (4 * length (print_line l) + 4 <= fuel)%nat -> parses (parseline buf es fuel i) (line_cmd l) rest.
Definition pipe_parses (p : pipeline) : Prop := forall fuel i rest, pipe_ok p -> (i <= es)%nat -> at_ i = print_pipe p ++ rest ->
  follow (bytes_of ")&;") rest -> (4 * length (print_pipe p) + 3 <= fuel)%nat -> parses (parsepipe buf es fuel i) (pipe_cmd p) rest.
Definition elem_parses (x : element) : Prop := forall fuel i rest, elem_ok x -> (i <= es)%nat -> at_ i = print_elem x ++ rest ->
  follow (bytes_of "|)&;") rest -> (4 * length (print_elem x) + 2 <= fuel)%nat -> parses (parseexec buf es fuel i) (elem_cmd x) rest.

Lemma parse_words rs args : elem_parses (Words rs args).
Proof using M H0.
  intros fuel i rest (Hrs & Hargs & Hlen) Hi E Hf Hn. destruct fuel as [|fuel]; [lia|]. cbn [parseexec print_elem] in *. rewrite <- app_assoc in E.
  apply peek_at; [done|done|]. intros i' Hi' E'. rewrite E in E' |- *.
  assert (starts (bytes_of "(") (print_redirs rs ++ print_args args ++ rest) = false) as ->.
  { destruct rs as [|[op f] rs].
    - destruct args as [|[w rs'] args]; [|done]. eapply follow_starts; [exact Hf|]. compute_done.
    - apply Forall_cons in Hrs as [Hop _]. cbn [r_op] in Hop. repeat (apply elem_of_cons in Hop as [->|Hop]; [done|]). by apply elem_of_nil in Hop. }
  eapply (yields_bind _ _ (fun c => denotes cs c (Exec []))).
  { unfold execcmd. eapply yields_bind; [apply yields_new|]. intros _ _. apply yields_ret; constructor. }
  intros c Hc. eapply parses_bind.
  { apply (parseredirs_parses _ _ (Exec []) i' rs (print_args args ++ rest)); try done.
    - destruct args as [|[w rs'] args]; [by left|right]. by do 2 eexists.
    - pose proof (redirs_short i' rs _ E'). lia. }
  intros c' i2 Hc' Hi2 E2. apply (parseargs_parses MAXARGS c' [] rs); done.
Qed.

Lemma parse_block l rs : line_parses l -> elem_parses (Block l rs).
Proof using M H0.
  intros IH fuel i rest (Hl & Hrs) Hi E Hf Hn. destruct fuel as [|[|fuel]]; [lia|lia|]. cbn [parseexec parseblock print_elem] in *.
  cbn [length] in Hn. rewrite length_app in Hn. cbn [length] in Hn. cbn [app] in E. rewrite <- app_assoc in E. cbn [app] in E.
  apply peek_at; [done|done|]. intros i1 Hi1 E1. rewrite E in E1 |- *. change (starts _ _) with true. cbv iota.
  apply peek_at; [done|done|]. intros i2 Hi2 E2. rewrite E1 in E2 |- *. change (starts _ _) with true. cbn [negb].
  eapply token_sym; [done|exact E2|]. intros _ _ i3 Hi3 E3. eapply parses_bind.
  { apply (IH fuel i3 (TSym (chr ")") :: print_redirs rs ++ rest)); try done; [by left|lia]. }
  intros c i4 Hc Hi4 E4. apply peek_at; [done|done|]. intros i5 Hi5 E5. rewrite E4 in E5 |- *. change (starts _ _) with true. cbn [negb].
  eapply token_sym; [done|exact E5|]. intros _ _ i6 Hi6 E6. apply parseredirs_parses; try done; [by left|].
  pose proof (redirs_short i6 rs _ E6). lia.
Qed.

Lemma parse_pend x : elem_parses x -> pipe_parses (PEnd x).
Proof using M H0.
  intros IH fuel i rest Hx Hi E Hf Hn. destruct fuel as [|fuel]; [lia|]. cbn [parsepipe print_pipe pipe_ok pipe_cmd] in *. eapply parses_bind.
  { apply (IH fuel i rest); try done; [|lia]. eapply follow_sub; [|exact Hf]. intros c Hc. by right. }
  intros c i1 Hc Hi1 E1. apply peek_at; [done|done|]. intros i2 Hi2 E2. rewrite E1 in E2 |- *.
  rewrite (follow_starts (bytes_of ")&;")) by (done || compute_done). cbn [negb]. by apply yields_ret.
Qed.

Lemma parse_pseq x p : elem_parses x -> pipe_parses p -> pipe_parses (PSeq x p).
Proof using M H0.
  intros IHx IHp fuel i rest (Hx & Hp) Hi E Hf Hn. destruct fuel as [|fuel]; [lia|]. cbn [parsepipe print_pipe pipe_cmd] in *.
  rewrite length_app in Hn. cbn [length] in Hn. rewrite <- app_assoc in E. cbn [app] in E. eapply parses_bind.
  { apply (IHx fuel i (TSym (chr "|") :: print_pipe p ++ rest)); try done; [by left|lia]. }
  intros c i1 Hc Hi1 E1. apply peek_at; [done|done|]. intros i2 Hi2 E2. rewrite E1 in E2 |- *. change (starts _ _) with true. cbn [negb].
  eapply token_sym; [done|exact E2|]. intros _ _ i3 Hi3 E3. eapply parses_bind; [apply (IHp fuel i3 rest); try done; lia|].
  intros c' i4 Hc' Hi4 E4. eapply yields_bind; [apply yields_node|]. intros _ ->. by apply yields_ret.
Qed.

Lemma parse_lend p amps : pipe_parses p -> line_parses (LEnd p amps).
Proof using M H0.
  intros IH fuel i rest Hp Hi E Hf Hn. destruct fuel as [|fuel]; [lia|]. cbn [parseline print_line line_ok line_cmd] in *.
  rewrite length_app in Hn. rewrite <- app_assoc in E. eapply parses_bind.
  { apply (IH fuel i (replicate amps (TSym (chr "&")) ++ rest)); try done; [|lia].
    destruct amps; [|by right; left]. eapply follow_sub; [|exact Hf]. intros c Hc. apply list_elem_of_singleton in Hc as ->. by left. }
  intros c i1 Hc Hi1 E1. eapply parses_bind; [eapply parseback_parses; try done|].
  { eapply follow_starts; [exact Hf|]. compute_done. } { by eapply length_amps. }
  intros c' i2 Hc' Hi2 E2. apply peek_at; [done|done|]. intros i3 Hi3 E3. rewrite E2 in E3 |- *.
  rewrite (follow_starts (bytes_of ")")) by (done || compute_done). cbn [negb]. by apply yields_ret.
Qed.

Lemma parse_lseq p amps l : pipe_parses p -> line_parses l -> line_parses (LSeq p amps l).
Proof using M H0.
  intros IHp IHl fuel i rest (Hp & Hl) Hi E Hf Hn. destruct fuel as [|fuel]; [lia|]. cbn [parseline print_line line_cmd] in *.
  rewrite !length_app in Hn. cbn [length] in Hn. rewrite <- !app_assoc in E. cbn [app] in E. eapply parses_bind.
  { apply (IHp fuel i (replicate amps (TSym (chr "&")) ++ TSym (chr ";") :: print_line l ++ rest)); try done; [|lia].
    destruct amps; [by right; right; left|by right; left]. }
  intros c i1 Hc Hi1 E1. eapply parses_bind; [eapply parseback_parses; try done; by eapply length_amps|].
  intros c' i2 Hc' Hi2 E2. apply peek_at; [done|done|]. intros i3 Hi3 E3. rewrite E2 in E3 |- *. change (starts _ _) with true. cbn [negb].
  eapply token_sym; [done|exact E3|]. intros _ _ i4 Hi4 E4. eapply parses_bind; [apply (IHl fuel i4 rest); try done; lia|].
  intros c2 i5 Hc2 Hi5 E5. eapply yields_bind; [apply yields_node|]. intros _ ->. by apply yields_ret.
Qed.

Lemma parseline_parses l : line_parses l.
Proof using M H0.
  revert l. apply (line_mind line_parses pipe_parses elem_parses); eauto using parse_lend, parse_lseq, parse_pend, parse_pseq, parse_words, parse_block.
Qed.
End parse.

(** ** The words as strings *)

(** What the command says, its words read as strings from the line. *)
Fixpoint strings (b : list Z) (c : cmd) : command :=
  match c with
  | EXEC argv => Exec ((fun a => str b a.1) <$> argv)
  | REDIR c file _ mode fd => Redirect (strings b c) (str b file) mode fd
  | PIPE l r => Pipe (strings b l) (strings b r)
  | LIST l r => Seq (strings b l) (strings b r)
  | BACK c => Back (strings b c)
  end.

Section nulterminate.
Context (cs junk : list Z) (H0 : 0 ∉ cs).
Local Abbreviation buf := (cs ++ 0 :: junk).
Local Abbreviation es := (length cs).

(** The line with some of the characters between the words set to 0 *)
Definition cut (b : list Z) : Prop :=
  length b = length buf /\ forall i c, cs !! i = Some c -> in_word c = true -> b !! i = Some c.

Lemma cut_put b q eq w : cut b -> word_at cs q eq w -> put b (Z.of_nat eq) 0 = mret (<[eq := 0]> b) /\ cut (<[eq := 0]> b) /\ (eq < length b)%nat.
Proof.
  intros [Hl Hb] ((Hq & He) & _ & _ & Hend). rewrite length_app in Hl. cbn [length] in Hl. split; [|split].
  - unfold put. destruct (Z.leb_spec 0 (Z.of_nat eq)), (Z.ltb_spec (Z.of_nat eq) (Z.of_nat (length b))); try lia. cbn [andb]. by rewrite Nat2Z.id.
  - split; [by rewrite length_insert, length_app|]. intros i c Hi Hc. rewrite list_lookup_insert_ne; [by apply Hb|].
    intros ->. rewrite Hi in Hend. congruence.
  - lia.
Qed.

Lemma cut_str b q eq w : cut b -> word_at cs q eq w -> b !! eq = Some 0 -> str b q = w.
Proof using H0.
  intros [Hl Hb] ((Hq & He) & Ew & Hw & Hend) Hz. unfold str.
  assert (drop q b = w ++ 0 :: drop (S eq) b) as ->.
  { rewrite <- (drop_S b 0 eq Hz). assert (take (eq - q) (drop q b) = w) as Et.
    { apply list_eq. intros i. rewrite <- Ew. destruct (decide (i < eq - q)%nat) as [Hi|Hi].
      - rewrite !lookup_take_lt, !lookup_drop by done. destruct (cs !! (q + i)%nat) as [c|] eqn:Ec; [|apply lookup_ge_None_1 in Ec; lia].
        apply Hb; [done|]. rewrite Forall_lookup in Hw. apply (Hw i). rewrite <- Ew, lookup_take_lt, lookup_drop by done. done.
      - rewrite !lookup_take_ge by lia. done. }
    rewrite <- Et, <- (take_drop (eq - q) (drop q b)) at 1. f_equal. rewrite drop_drop. f_equal. lia. }
  assert (0 ∉ w) as Hw0.
  { intros Hin. rewrite <- Ew in Hin. apply list_elem_of_lookup in Hin as (i & Hi). apply lookup_take_Some in Hi as [Hi _].
    rewrite lookup_drop in Hi. apply H0. by eapply list_elem_of_lookup_2. }
  clear - Hw0. induction w as [|c w IH]; [done|]. apply not_elem_of_cons in Hw0 as [Hc Hw0]. cbn [app cstr].
  destruct (Z.eqb_spec c 0); [congruence|]. by rewrite IH.
Qed.

Lemma nulterminate_strings c d b : denotes cs c d -> cut b ->
  exists b', nulterminate c b = mret b' /\ cut b' /\ (forall i, b !! i = Some 0 -> b' !! i = Some 0) /\
    forall b2, cut b2 -> (forall i, b' !! i = Some 0 -> b2 !! i = Some 0) -> strings b2 c = d.
Proof using H0.
  revert d b. induction c as [argv|c IH file efile mode fd|l IHl r IHr|l IHl r IHr|c IH]; intros d b Hd Hb; (destruct d as [ws|d w mode' fd'|l' r'|l' r'|d]; try done); cbn [denotes nulterminate] in *.
  - revert b Hb. induction Hd as [|[q eq] w argv ws Hw Hd IH]; intros b Hb; cbn [u_fold fst snd] in *; [by exists b|].
    destruct (cut_put b q eq w Hb Hw) as (-> & Hb1 & Hlt). urun. destruct (IH _ Hb1) as (b' & -> & Hb' & Hz & Hs). exists b'.
    split; [done|]. split; [done|]. split.
    { intros i Hi. apply Hz. destruct (decide (i = eq)) as [->|]; [by apply list_lookup_insert_eq|by rewrite list_lookup_insert_ne]. }
    intros b2 Hb2 Hz2. specialize (Hs b2 Hb2 Hz2). cbn in Hs |- *. injection Hs as ->. f_equal. f_equal.
    apply (cut_str b2 q eq w); try done. apply Hz2, Hz. by apply list_lookup_insert_eq.
  - destruct Hd as (Hd & Hw & -> & ->). destruct (IH d b Hd Hb) as (b1 & -> & Hb1 & Hz1 & Hs1). urun.
    destruct (cut_put b1 file efile w Hb1 Hw) as (-> & Hb2 & Hlt). eexists. split; [done|]. split; [done|].
    assert (forall i, b1 !! i = Some 0 -> <[efile:=0]> b1 !! i = Some 0) as Hz.
    { intros i Hi. destruct (decide (i = efile)) as [->|]; [by apply list_lookup_insert_eq|by rewrite list_lookup_insert_ne]. }
    split; [auto|]. intros b2 Hb2' Hz2. cbn. rewrite (Hs1 b2 Hb2') by auto. f_equal.
    apply (cut_str b2 file efile w); try done. apply Hz2. by apply list_lookup_insert_eq.
  - destruct Hd as [Hl Hr]. destruct (IHl l' b Hl Hb) as (b1 & -> & Hb1 & Hz1 & Hs1). urun.
    destruct (IHr r' b1 Hr Hb1) as (b2 & -> & Hb2 & Hz2 & Hs2). exists b2. split; [done|]. split; [done|]. split; [auto|].
    intros b3 Hb3 Hz3. cbn. rewrite (Hs1 b3), (Hs2 b3); auto.
  - destruct Hd as [Hl Hr]. destruct (IHl l' b Hl Hb) as (b1 & -> & Hb1 & Hz1 & Hs1). urun.
    destruct (IHr r' b1 Hr Hb1) as (b2 & -> & Hb2 & Hz2 & Hs2). exists b2. split; [done|]. split; [done|]. split; [auto|].
    intros b3 Hb3 Hz3. cbn. rewrite (Hs1 b3), (Hs2 b3); auto.
  - destruct (IH d b Hd Hb) as (b1 & -> & Hb1 & Hz1 & Hs1). exists b1. split; [done|]. split; [done|]. split; [done|].
    intros b2 Hb2 Hz2. cbn. by rewrite (Hs1 b2).
Qed.
End nulterminate.

Lemma lex_nil cs : lex cs = [] -> drop_while (among whitespace) cs = [].
Proof.
  intros E. rewrite <- lex_white in E. pose proof (drop_while_head (among whitespace) cs) as Hh.
  destruct (drop_while (among whitespace) cs) as [|c ds]; [done|]. cbn [lex] in E. rewrite Hh in E.
  destruct (c =? chr ">"); [destruct ds as [|c' ds]; [done|by destruct (c' =? chr ">")]|]. destruct (among symbols c); [done|].
  destruct ds as [|c' ds]; [done|]. destruct (lex (c' :: ds)) as [|[w|x] ts]; try done. by destruct (in_word c').
Qed.

Lemma peek_end cs junk i : 0 ∉ cs -> (i <= length cs)%nat -> lex (drop i cs) = [] ->
  peek (cs ++ 0 :: junk) (length cs) i [] = mret (false, length cs).
Proof.
  intros H0 Hi E. destruct (skip_spec cs junk H0 (among whitespace) i Hi) as (s & Es & Hs & Ed & _). unfold peek. rewrite Es. urun.
  rewrite (lex_nil _ E) in Ed. apply (f_equal length) in Ed. rewrite length_drop in Ed. cbn in Ed. replace s with (length cs) by lia.
  rewrite line_end. by urun.
Qed.

(** ** Lines that are not of the grammar *)

Section total.
Context {S : Type} `{!Sys S}.

(** Every call returns. *)
Definition sys_total : Prop := forall c s e, exists r s', sys c (mkWorld s e) = Ok r (mkWorld s' e).
Context (M : malloc_law) (R : sys_total).

(** The program returns a result, or exits with status 1. *)
Definition ends {A} (m : U A) (Q : A -> Prop) : Prop :=
  forall s e, exists r s', interp m (mkWorld s e) = Ok r (mkWorld s' e) /\ match r with inl st => st = 1 | inr a => Q a end.

Lemma ends_ret {A} (a : A) (Q : A -> Prop) : Q a -> ends (mret a) Q.
Proof. intros H s e. by exists (inr a), s. Qed.

Lemma ends_exit {A} (Q : A -> Prop) : ends (exit 1) Q.
Proof. intros s e. by exists (inl 1), s. Qed.

Lemma ends_bind {A B} (m : U A) (k : A -> U B) Q Q' : ends m Q -> (forall a, Q a -> ends (k a) Q') -> ends (m ≫= k) Q'.
Proof.
  intros Hm Hk s e. destruct (Hm s e) as ([st|a] & s1 & E & HQ).
  - exists (inl st), s1. by rewrite (interp_exit _ _ _ _ _ E).
  - destruct (Hk a HQ s1 e) as (b & s2 & E2 & HQ'). exists b, s2. by rewrite (interp_Ok _ _ _ _ _ E).
Qed.

Lemma ends_yields {A} (m : U A) Q : yields m Q -> ends m Q.
Proof. intros H s e. destruct (H s e) as (a & s' & E & HQ). by exists (inr a), s'. Qed.

Lemma ends_putc c : ends (putc 2 c) (fun _ => True).
Proof using R.
  intros s e. destruct (R (SYS_write 2 [u8 c]) s e) as ([r x] & s' & E). exists (inr tt), s'. split; [|done]. unfold putc.
  by rewrite (interp_Ok (write 2 [u8 c]) _ _ _ _ (interp_trap0 _ _ _ _ _ E)).
Qed.

Lemma ends_each bs : ends (u_each bs (putc 2)) (fun _ => True).
Proof using R. induction bs as [|c bs IH]; cbn [u_each]; [by apply ends_ret|]. eapply ends_bind; [apply ends_putc|]. by intros _ _. Qed.

Lemma ends_lit c fmt ap : (c =? chr "%") = false -> ends (vprintf 2 fmt ap) (fun _ => True) -> ends (vprintf 2 (c :: fmt) ap) (fun _ => True).
Proof using R. intros Hc H. cbn [vprintf]. rewrite Hc. cbn [negb]. eapply ends_bind; [apply ends_putc|]. by intros _ _. Qed.

Lemma ends_str s fmt ap : ends (vprintf 2 fmt ap) (fun _ => True) -> ends (vprintf 2 (chr "%" :: chr "s" :: fmt) (AStr (Some s) :: ap)) (fun _ => True).
Proof using R.
  intros H. change (ends (u_each (cstr s) (putc 2);; vprintf 2 fmt ap) (fun _ => True)). eapply ends_bind; [apply ends_each|]. by intros _ _.
Qed.

Lemma ends_panic {A} msg (Q : A -> Prop) : ends (panic msg) Q.
Proof using R.
  unfold panic. eapply ends_bind; [|intros _ _; apply ends_exit]. apply (ends_str _ [10] []). apply (ends_lit 10 []); [done|]. by apply ends_ret.
Qed.

Context (cs junk : list Z) (H0 : 0 ∉ cs).
Local Abbreviation buf := (cs ++ 0 :: junk).
Local Abbreviation es := (length cs).
Local Abbreviation at_ i := (lex (drop i cs)).

Lemma ends_peek {B} i toks (k : bool * nat -> U B) Q : (i <= es)%nat -> forallb (among symbols) toks = true ->
  (forall i', (i' <= es)%nat -> at_ i' = at_ i -> ends (k (starts toks (at_ i), i')) Q) -> ends (peek buf es i toks ≫= k) Q.
Proof using H0.
  intros Hi Ht Hk. destruct (peek_spec cs junk H0 i toks Hi) as (i' & -> & Hi' & E); [intros c; by apply word_not_sym|].
  urun. apply Hk; [lia|done].
Qed.

Lemma ends_token {B} i (k : Z * nat * nat * nat -> U B) Q : (i <= es)%nat ->
  (forall ret q eq i', (i' <= es)%nat ->
     match at_ i with
     | [] => ret = 0 /\ at_ i' = []
     | TWord w :: ts => ret = chr "a" /\ word_at cs q eq w /\ at_ i' = ts
     | TSym c :: ts => ret = c /\ at_ i' = ts
     end -> ends (k (ret, q, eq, i')) Q) -> ends (gettoken buf es i ≫= k) Q.
Proof using H0. intros Hi Hk. destruct (gettoken_spec cs junk H0 i Hi) as (ret & q & eq & i' & -> & Hi' & Ht). urun. apply Hk; [lia|done]. Qed.

(** A token that peek has seen *)
Lemma starts_sym toks ts : starts toks ts = true -> 0 ∉ toks -> exists c ts', ts = TSym c :: ts' /\ (if c =? chr "+" then chr ">" else c) ∈ toks.
Proof.
  destruct ts as [|[w|c] ts']; cbn; try done. intros H Hz. exists c, ts'. split; [done|]. rewrite among_existsb in H by done.
  apply existsb_exists in H as (x & Hx & E). apply Z.eqb_eq in E as <-. by apply list_elem_of_In.
Qed.

Lemma parseredirs_ends n ret d i : denotes cs ret d -> (i <= es)%nat -> (length (at_ i) < n)%nat ->
  ends (parseredirs buf es n ret i) (fun r => (r.2 <= es)%nat /\ exists rs, redirs_ok rs /\ at_ i = print_redirs rs ++ at_ r.2 /\
    denotes cs r.1 (foldl redirect d rs)).
Proof using M R H0.
  revert ret d i. induction n as [|n IH]; intros ret d i Hd Hi Hn; [lia|]. cbn [parseredirs].
  apply ends_peek; [done|done|]. intros i1 Hi1 E1. destruct (starts (bytes_of "<>") (at_ i)) eqn:Est; cbn [negb].
  2: { apply ends_ret. cbn. split; [done|]. exists []. split; [constructor|]. by rewrite E1. }
  apply starts_sym in Est as (op & ts & E & Hop); [|compute_done]. rewrite E in E1, Hn.
  apply ends_token; [done|]. intros ret1 q1 eq1 i2 Hi2 Ht. rewrite E1 in Ht. destruct Ht as [-> E2].
  apply ends_token; [done|]. intros ret2 q eq i3 Hi3 Ht.
  assert (op ∈ [chr "<"; chr ">"; chr "+"]) as Hop'.
  { destruct (Z.eqb_spec op (chr "+")) as [->|]; [by right; right; left|]. apply elem_of_cons in Hop as [->|Hop]; [by left|].
    apply list_elem_of_singleton in Hop as ->. by right; left. }
  destruct (negb (ret2 =? chr "a")) eqn:Ea; [apply ends_panic|]. apply negb_false_iff, Z.eqb_eq in Ea as ->.
  rewrite E2 in Ht. destruct ts as [|[w|c] ts]; [by destruct Ht as [Ht%eq_sym _]| |].
  2: { destruct Ht as [<- _]. destruct (lex_sym (drop i2 cs) (chr "a")) as [Hx|Hx]; [rewrite E2; by left|by vm_compute in Hx..]. }
  destruct Ht as (_ & Hw & E3). eapply (ends_bind _ _ (fun c => denotes cs c (redirect d (mkRedir op w)))).
  { apply ends_yields. unfold redirect. cbn [r_op r_file].
    destruct (op =? chr "<") eqn:F1; [|destruct (op =? chr ">") eqn:F2; [|destruct (op =? chr "+") eqn:F3]].
    1-3: eapply yields_mono; [by apply yields_node|]; by intros c ->.
    repeat (apply elem_of_cons in Hop' as [->|Hop']; [done|]). by apply elem_of_nil in Hop'. }
  intros c Hc. cbn [length] in Hn.
  intros s e. destruct (IH c _ i3 Hc Hi3 ltac:(rewrite E3; lia) s e) as ([st|[c' i4]] & s' & Ei & Hr); [by exists (inl st), s'|].
  exists (inr (c', i4)), s'. split; [exact Ei|]. destruct Hr as (Hi4 & rs & Hrs & E4 & Hd'). split; [done|].
  exists (mkRedir op w :: rs). split; [by constructor|]. cbn [snd fst] in *. rewrite E. split; [|exact Hd'].
  cbn. by rewrite <- E3, E4.
Qed.

Lemma ends_mono {A} (m : U A) (Q Q' : A -> Prop) : ends m Q -> (forall a, Q a -> Q' a) -> ends m Q'.
Proof. intros Hm HQ s e. destruct (Hm s e) as (r & s' & E & H). exists r, s'. split; [done|]. destruct r; auto. Qed.

Lemma parseargs_ends n ret ws rs0 i : denotes cs ret (foldl redirect (Exec ws) rs0) -> (i <= es)%nat -> (0 < n)%nat ->
  ends (parseargs buf es n ret i) (fun r => (r.2 <= es)%nat /\ exists args, Forall (fun a => redirs_ok a.2) args /\ (length args < n)%nat /\
    at_ i = print_args args ++ at_ r.2 /\ denotes cs r.1 (foldl redirect (Exec (ws ++ args.*1)) (rs0 ++ mjoin args.*2))).
Proof using M R H0.
  revert ret ws rs0 i. induction n as [|n IH]; intros ret ws rs0 i Hd Hi Hn; [lia|]. cbn [parseargs].
  assert (forall j, (j <= es)%nat -> at_ j = at_ i -> ends (mret (ret, j)) (fun r => (r.2 <= es)%nat /\ exists args,
    Forall (fun a => redirs_ok a.2) args /\ (length args < Datatypes.S n)%nat /\
    at_ i = print_args args ++ at_ r.2 /\ denotes cs r.1 (foldl redirect (Exec (ws ++ args.*1)) (rs0 ++ mjoin args.*2)))) as Hstop.
  { intros j Hj E. apply ends_ret. cbn [fst snd]. split; [done|]. exists []. split; [constructor|]. split; [cbn; lia|]. split; [by rewrite E|].
    cbn [fmap list_fmap mjoin list_join]. by rewrite !app_nil_r. }
  apply ends_peek; [done|done|]. intros i1 Hi1 E1. destruct (starts (bytes_of "|)&;") (at_ i)) eqn:Est; [by apply Hstop|].
  apply ends_token; [done|]. intros tok q eq i2 Hi2 Ht. rewrite E1 in Ht.
  destruct (at_ i) as [|[w|c] ts] eqn:E.
  - destruct Ht as [-> E2]. change (0 =? 0) with true. by apply Hstop.
  - destruct Ht as (-> & Hw & E2). change (chr "a" =? 0) with false. change (chr "a" =? chr "a") with true. cbn [negb]. cbv zeta.
    destruct (Nat.eqb_spec n 0); [apply ends_panic|].
    eapply ends_bind; [apply (parseredirs_ends _ _ _ i2 (set_arg_denotes cs ret q eq w ws rs0 Hd Hw) Hi2)|].
    { pose proof (length_lex (drop i2 cs)) as Hl. rewrite length_drop in Hl. lia. }
    intros [c i3] (Hi3 & rs & Hrs & E3 & Hc). cbn [fst snd] in *. rewrite <- foldl_app in Hc.
    eapply ends_mono; [apply (IH c (ws ++ [w]) (rs0 ++ rs) i3 Hc Hi3); lia|]. intros [c' i4] (Hi4 & args & Ha & Hl & E4 & Hc'). cbn [fst snd] in *.
    split; [done|]. exists ((w, rs) :: args). split; [by constructor|]. split; [cbn; lia|]. split.
    + rewrite <- E2, E3, E4. cbn. by rewrite <- app_assoc.
    + cbn. by rewrite app_assoc, (cons_middle w), app_assoc.
  - destruct Ht as [-> E2]. destruct (lex_sym (drop i cs) c) as [Hc|Hc]; [rewrite E; by left| |].
    + assert ((c =? 0) = false) as -> by (destruct (Z.eqb_spec c 0) as [->|]; [by vm_compute in Hc|done]).
      assert ((c =? chr "a") = false) as -> by (destruct (Z.eqb_spec c (chr "a")) as [->|]; [by vm_compute in Hc|done]). apply ends_panic.
    + subst c. apply ends_panic.
Qed.

Lemma parseback_ends n ret d i : denotes cs ret d -> (i <= es)%nat -> (length (at_ i) < n)%nat ->
  ends (parseback buf es n ret i) (fun r => (r.2 <= es)%nat /\ exists amps, at_ i = replicate amps (TSym (chr "&")) ++ at_ r.2 /\
    denotes cs r.1 (Nat.iter amps Back d)).
Proof using M R H0.
  revert ret d i. induction n as [|n IH]; intros ret d i Hd Hi Hn; [lia|]. cbn [parseback].
  apply ends_peek; [done|done|]. intros i1 Hi1 E1. destruct (starts (bytes_of "&") (at_ i)) eqn:Est; cbn [negb].
  2: { apply ends_ret. cbn [fst snd]. split; [done|]. exists 0%nat. by rewrite E1. }
  apply starts_sym in Est as (c & ts & E & Hc); [|compute_done]. apply list_elem_of_singleton in Hc.
  assert (c = chr "&") as -> by (destruct (c =? chr "+"); [by vm_compute in Hc|exact Hc]). rewrite E in E1, Hn.
  apply ends_token; [done|]. intros ret1 q1 eq1 i2 Hi2 Ht. rewrite E1 in Ht. destruct Ht as [_ E2].
  eapply ends_bind; [apply ends_yields, yields_node; done|]. intros _ ->. cbn [length] in Hn.
  eapply ends_mono; [apply (IH (BACK ret) (Back d) i2); [done|done|rewrite E2; lia]|]. intros [c i3] (Hi3 & amps & E3 & Hc'). cbn [fst snd] in *.
  split; [done|]. exists (Datatypes.S amps). split; [by rewrite E; cbn; rewrite <- E2, E3|]. by rewrite Nat.iter_succ_r.
Qed.

Definition elem_at i (r : cmd * nat) : Prop :=
  (r.2 <= es)%nat /\ exists x, elem_ok x /\ at_ i = print_elem x ++ at_ r.2 /\ denotes cs r.1 (elem_cmd x).
Definition pipe_at i (r : cmd * nat) : Prop :=
  (r.2 <= es)%nat /\ exists p, pipe_ok p /\ at_ i = print_pipe p ++ at_ r.2 /\ denotes cs r.1 (pipe_cmd p).
Definition line_at i (r : cmd * nat) : Prop :=
  (r.2 <= es)%nat /\ exists l, line_ok l /\ at_ i = print_line l ++ at_ r.2 /\ denotes cs r.1 (line_cmd l).

(** A symbol that is there: [peek], then [gettoken] *)
Lemma ends_symbol {B} i c (k : Z * nat * nat * nat -> U B) Q ts : (i <= es)%nat -> at_ i = TSym c :: ts ->
  (forall ret q eq i', (i' <= es)%nat -> at_ i' = ts -> ends (k (ret, q, eq, i')) Q) -> ends (gettoken buf es i ≫= k) Q.
Proof using H0. intros Hi E Hk. apply ends_token; [done|]. intros ret q eq i' Hi' Ht. rewrite E in Ht. destruct Ht as [_ E']. by apply Hk. Qed.

Lemma starts_one c ts : c <> chr "+" -> c <> chr ">" -> c <> 0 -> starts [c] ts = true -> exists ts', ts = TSym c :: ts'.
Proof.
  intros H1 H2 H3 H. apply starts_sym in H as (c' & ts' & -> & Hc); [|intros Hin; by apply list_elem_of_singleton in Hin].
  apply list_elem_of_singleton in Hc. destruct (Z.eqb_spec c' (chr "+")); [congruence|]. subst c'. by exists ts'.
Qed.

Lemma parseexec_ends fuel i : (forall i, (i <= es)%nat -> (4 * length (at_ i) + 4 <= fuel)%nat -> ends (parseline buf es fuel i) (line_at i)) ->
  (i <= es)%nat -> (4 * length (at_ i) <= fuel)%nat -> ends (parseexec buf es (2 + fuel) i) (elem_at i).
Proof using M R H0.
  intros IH Hi Hf. cbn [plus parseexec parseblock]. apply ends_peek; [done|done|]. intros i1 Hi1 E1. destruct (starts (bytes_of "(") (at_ i)) eqn:Est.
  - apply (starts_one (chr "(")) in Est as (ts & E); [|done..]. rewrite E in E1, Hf. cbn [length] in Hf.
    apply ends_peek; [done|done|]. intros i2 Hi2 E2. rewrite E1 in E2 |- *. change (starts _ _) with true. cbn [negb].
    eapply ends_symbol; [done|exact E2|]. intros _ _ _ i3 Hi3 E3. eapply ends_bind; [apply IH; [done|rewrite E3; lia]|].
    intros [c i4] (Hi4 & l & Hl & E4 & Hc). cbn [fst snd] in *. apply ends_peek; [done|done|]. intros i5 Hi5 E5.
    destruct (starts (bytes_of ")") (at_ i4)) eqn:Ec; cbn [negb]; [|apply ends_panic]. apply (starts_one (chr ")")) in Ec as (ts' & Ec); [|done..].
    rewrite Ec in E5. eapply ends_symbol; [done|exact E5|]. intros _ _ _ i6 Hi6 E6.
    eapply ends_mono; [apply (parseredirs_ends _ _ _ i6 Hc Hi6)|].
    { pose proof (length_lex (drop i6 cs)) as Hx. rewrite length_drop in Hx. lia. }
    intros [c' i7] (Hi7 & rs & Hrs & E7 & Hc'). cbn [fst snd] in *. split; [done|]. exists (Block l rs). split; [done|]. split; [|done].
    cbn [print_elem fst snd app]. rewrite <- app_assoc. cbn [app]. by rewrite E, <- E7, E6, <- Ec, <- E4, E3.
  - eapply ends_bind; [apply ends_yields, yields_node; done|]. intros _ ->.
    eapply ends_bind; [apply (parseredirs_ends _ _ (Exec []) i1); [constructor|done|]|].
    { pose proof (length_lex (drop i1 cs)) as Hx. rewrite length_drop in Hx. lia. }
    intros [c i2] (Hi2 & rs & Hrs & E2 & Hc). cbn [fst snd] in *.
    eapply ends_mono; [apply (parseargs_ends MAXARGS c [] rs i2 Hc Hi2); unfold MAXARGS; lia|].
    intros [c' i3] (Hi3 & args & Ha & Hl & E3 & Hc'). cbn [fst snd] in *. split; [done|]. exists (Words rs args). split; [done|]. split; [|done].
    cbn [print_elem fst snd]. by rewrite <- app_assoc, <- E3, <- E2, E1.
Qed.

Lemma parse_ends fuel i : (i <= es)%nat ->
  ((4 * length (at_ i) + 3 <= fuel)%nat -> ends (parsepipe buf es fuel i) (pipe_at i)) /\
  ((4 * length (at_ i) + 4 <= fuel)%nat -> ends (parseline buf es fuel i) (line_at i)).
Proof using M R H0.
  revert i. induction fuel as [fuel IH] using lt_wf_ind. intros i Hi. split; intros Hf.
  - destruct fuel as [|fuel]; [lia|]. cbn [parsepipe]. eapply ends_bind.
    { assert (fuel = 2 + (fuel - 2))%nat as -> by lia. apply parseexec_ends; [|done|lia]. intros j Hj Hfj. apply (IH (fuel - 2)%nat); [lia|done|lia]. }
    intros [c i1] (Hi1 & x & Hx & E1 & Hc). cbn [fst snd] in *. apply ends_peek; [done|done|]. intros i2 Hi2 E2.
    destruct (starts (bytes_of "|") (at_ i1)) eqn:Est; cbn [negb].
    2: { apply ends_ret. split; [done|]. exists (PEnd x). cbn [fst snd]. by rewrite E2. }
    apply (starts_one (chr "|")) in Est as (ts & E); [|done..]. rewrite E in E2. eapply ends_symbol; [done|exact E2|]. intros _ _ _ i3 Hi3 E3.
    assert (length (at_ i3) < length (at_ i))%nat as Hlt by (rewrite E1, E, length_app, E3; cbn [length]; lia).
    eapply ends_bind; [apply (IH fuel ltac:(lia) i3 Hi3); lia|]. intros [c2 i4] (Hi4 & p & Hp & E4 & Hc2). cbn [fst snd] in *.
    eapply ends_bind; [apply ends_yields, yields_node; done|]. intros _ ->. apply ends_ret. split; [done|]. exists (PSeq x p). split; [done|]. split; [|done].
    cbn [print_pipe fst snd]. rewrite <- app_assoc. cbn [app]. by rewrite <- E4, E3, <- E.
  - destruct fuel as [|fuel]; [lia|]. cbn [parseline]. eapply ends_bind; [apply (IH fuel ltac:(lia) i Hi); lia|].
    intros [c i1] (Hi1 & p & Hp & E1 & Hc). cbn [fst snd] in *. eapply ends_bind; [apply (parseback_ends _ _ _ i1 Hc Hi1)|].
    { pose proof (length_lex (drop i1 cs)) as Hx. rewrite length_drop in Hx. lia. }
    intros [c2 i2] (Hi2 & amps & E2 & Hc2). cbn [fst snd] in *. apply ends_peek; [done|done|]. intros i3 Hi3 E3.
    destruct (starts (bytes_of ";") (at_ i2)) eqn:Est; cbn [negb].
    2: { apply ends_ret. split; [done|]. exists (LEnd p amps). cbn [fst snd print_line]. by rewrite E3, <- app_assoc, <- E2. }
    apply (starts_one (chr ";")) in Est as (ts & E); [|done..]. rewrite E in E3. eapply ends_symbol; [done|exact E3|]. intros _ _ _ i4 Hi4 E4.
    assert (length (at_ i4) < length (at_ i))%nat as Hlt by (rewrite E1, E2, E, !length_app, E4; cbn [length]; lia).
    eapply ends_bind; [apply (IH fuel ltac:(lia) i4 Hi4); lia|]. intros [c3 i5] (Hi5 & l & Hl & E5 & Hc3). cbn [fst snd] in *.
    eapply ends_bind; [apply ends_yields, yields_node; done|]. intros _ ->. apply ends_ret. split; [done|]. exists (LSeq p amps l). split; [done|]. split; [|done].
    cbn [print_line fst snd]. rewrite <- !app_assoc. cbn [app]. by rewrite <- E5, E4, <- E, <- E2.
Qed.
End total.

#[local] Instance machine_example : Sys unit := fun c => mret (1, []).



Lemma parsecmd_parses {S} `{!Sys S} cs junk l s e :
  malloc_law -> 0 ∉ cs -> line_ok l -> lex cs = print_line l ->
  exists c b s', interp (parsecmd (cs ++ 0 :: junk)) (mkWorld s e) = Ok (inr (c, b)) (mkWorld s' e) /\ strings b c = line_cmd l.
Proof.
  intros M H0 Hl E. unfold parsecmd, strlen. rewrite (strlen_cstring _ cs) by (by exists junk). urun. cbv zeta. rewrite Nat2Z.id.
  pose proof (length_lex cs) as Hlen. rewrite E in Hlen.
  destruct (parseline_parses M cs junk H0 l (4 * length cs + 4)%nat 0%nat [] Hl ltac:(lia) ltac:(by rewrite app_nil_r) I ltac:(lia) s e)
    as ([c i] & s1 & E1 & Hd & Hi & Ei). cbn [fst snd] in *.
  rewrite (interp_Ok _ _ _ _ _ E1). rewrite (peek_end cs junk i H0 Hi Ei). urun. rewrite Nat.eqb_refl. cbn [negb]. urun.
  assert (cut cs junk (cs ++ 0 :: junk)) as Hcut by (split; [done|]; intros j x Hj _; by apply lookup_app_l_Some).
  destruct (nulterminate_strings cs junk H0 c (line_cmd l) _ Hd Hcut) as (b & -> & Hb & _ & Hs). urun.
  exists c, b, s1. split; [done|]. by apply Hs.
Qed.

(** C17: the shell parses the lines of its grammar.  For a line of the
    grammar, with at most nine words in a simple command, and every string
    that is it in any spacing, parsecmd returns, without an error, the command
    that the line stands for: read as null-terminated strings of the buffer
    that nulterminate has cut, its words and file names are the words and file
    names of the line. *)
Theorem parsecmd_correct {S} `{!Sys S} cs junk l s e :
  malloc_law -> 0 ∉ cs -> line_ok l -> lex cs = print_line l ->
  exists c b s', interp (parsecmd (cs ++ 0 :: junk)) (mkWorld s e) = Ok (inr (c, b)) (mkWorld s' e) /\ strings b c = line_cmd l.
Proof. apply parsecmd_parses. Qed.

(** "( a b < c ; d ) >> e | f &" *)
Definition line_example : line :=
  LEnd (PSeq (Block (LSeq (PEnd (Words [] [(bytes_of "a", []); (bytes_of "b", [mkRedir (chr "<") (bytes_of "c")])])) 0
                          (LEnd (PEnd (Words [] [(bytes_of "d", [])])) 0)) [mkRedir (chr "+") (bytes_of "e")])
             (PEnd (Words [] [(bytes_of "f", [])]))) 1.

Lemma parsecmd_correct_witness : exists c b, interp (parsecmd (bytes_of "(a b<c; d)>> e|  f&" ++ 0 :: [])) (mkWorld tt []) = Ok (inr (c, b)) (mkWorld tt []) /\
  strings b c = Back (Pipe (Redirect (Seq (Redirect (Exec [bytes_of "a"; bytes_of "b"]) (bytes_of "c") 0 0) (Exec [bytes_of "d"])) (bytes_of "e") 513 1)
                           (Exec [bytes_of "f"])).
Proof.
  destruct (parsecmd_correct (bytes_of "(a b<c; d)>> e|  f&") [] line_example tt []) as (c & b & [] & E & Hs).
  - intros n [] e. by exists 1, [], tt.
  - compute_done.
  - cbn. unfold redirs_ok. repeat split; compute_done.
  - reflexivity.
  - exists c, b. split; [exact E|]. exact Hs.
Defined.
