(* ===== verification/ShRun.v ===== *)
(** * What the shell runs

    [plan] is what a program of user mode does with processes and descriptors,
    as a tree: it follows the calls of the program, with a table of open
    descriptors of each process, as the kernel keeps it (the lowest free number
    is allocated, fork copies the table), and branches at fork.  Whether a fork,
    an open or an exec succeeds is a parameter.

    [meaning] says directly what a command runs: which programs, with which
    descriptors, and what waits for what.  The theorems: runcmd does what its
    command means; and so does what the shell's child does with a line. *)

From S2P Require Import Prelude Prog CStr User Ulib Uprintf Sh ShParse.

(** ** Processes *)

(** What a descriptor stands for; a pipe is named after the place in the tree
    at which it was made, and [Inherited] is what the shell was started with. *)
Inductive object :=
| Opened (path : list Z) (mode : Z)
| PipeRead (at_ : list bool)
| PipeWrite (at_ : list bool)
| Inherited (n : nat).

Abbreviation fds := (gmap Z object).

(** The free ones of the [NOFILE] descriptors *)
Definition free_fds (F : fds) : list Z := filter (fun i => F !! i = None) (seqZ 0 (Z.of_nat NOFILE)).

Definition lowest_free (F : fds) : option Z := head (free_fds F).

Inductive tree :=
| TExit (status : Z)
| TCrash
| TReturn
| TExec (path : list Z) (argv : list (list Z)) (F : fds)
| TFork (child parent : tree)
| TWait (F : fds) (rest : tree)
| TWrite (o : option object) (bs : list Z) (rest : tree).

Section plan.
(** Which calls succeed; the pid of the child. *)
Context (forks : list bool -> bool) (opens : list Z -> Z -> bool) (execs : list Z -> list (list Z) -> bool) (pid : Z).

Fixpoint plan {A} (m : U A) (F : fds) (at_ : list bool) : tree :=
  match m with
  | Ret _ => TReturn
  | Exit st => TExit st
  | Crash _ => TCrash
  | Vis c k =>
    match c with
    | SYS_fork _ =>
      if forks at_ then TFork (plan (k (0, [])) F (false :: at_)) (plan (k (pid, [])) F (true :: at_))
      else plan (k (-1, [])) F at_
    | SYS_exec path argv => if execs path argv then TExec path argv F else plan (k (-1, [])) F at_
    | SYS_open path mode =>
      match lowest_free F with
      | Some fd => if opens path mode then plan (k (fd, [])) (<[fd := Opened path mode]> F) at_ else plan (k (-1, [])) F at_
      | None => plan (k (-1, [])) F at_
      end
    | SYS_close fd => match F !! fd with Some _ => plan (k (0, [])) (delete fd F) at_ | None => plan (k (-1, [])) F at_ end
    | SYS_dup fd =>
      match F !! fd, lowest_free F with
      | Some o, Some fd' => plan (k (fd', [])) (<[fd' := o]> F) at_
      | _, _ => plan (k (-1, [])) F at_
      end
    | SYS_pipe =>
      match lowest_free F with
      | Some fd0 =>
        match lowest_free (<[fd0 := PipeRead at_]> F) with
        | Some fd1 => plan (k (0, [fd0; fd1])) (<[fd1 := PipeWrite at_]> (<[fd0 := PipeRead at_]> F)) at_
        | None => plan (k (-1, [])) F at_
        end
      | None => plan (k (-1, [])) F at_
      end
    | SYS_wait => TWait F (plan (k (pid, [])) F at_)
    | SYS_write fd bs => TWrite (F !! fd) bs (plan (k (Z.of_nat (length bs), [])) F at_)
    | MALLOC _ => plan (k (1, [])) F at_
    | _ => plan (k (-1, [])) F at_
    end
  end.

(** ** Commands *)

(** A message on descriptor 2, a character at a time *)
Definition says (F : fds) (msg : list Z) (rest : tree) : tree := foldr (fun c t => TWrite (F !! 2) [u8 c] t) rest msg.

(** A process is started, or the shell gives up. *)
Definition spawn (F : fds) (at_ : list bool) (child parent : tree) : tree :=
  if forks at_ then TFork child parent else says F (bytes_of "fork" ++ [10]) (TExit 1).

Fixpoint meaning (d : command) (F : fds) (at_ : list bool) : tree :=
  match d with
  | Exec [] => TExit 1
  | Exec (w :: ws) =>
    if execs w (w :: ws) then TExec w (w :: ws) F
    else says F (bytes_of "exec " ++ w ++ bytes_of " failed" ++ [10]) (TExit 0)
  | Redirect d file mode fd =>
    if opens file mode then meaning d (<[fd := Opened file mode]> F) at_
    else says F (bytes_of "open " ++ file ++ bytes_of " failed" ++ [10]) (TExit 1)
  | Seq l r => spawn F at_ (meaning l F (false :: at_)) (TWait F (meaning r F (true :: at_)))
  | Pipe l r =>
    if (2 <=? length (free_fds F))%nat then
      spawn F at_ (meaning l (<[1 := PipeWrite at_]> F) (false :: at_))
        (spawn F (true :: at_) (meaning r (<[0 := PipeRead at_]> F) (false :: true :: at_))
           (TWait F (TWait F (TExit 0))))
    else says F (bytes_of "pipe" ++ [10]) (TExit 1)
  | Back d => spawn F at_ (meaning d F (false :: at_)) (TExit 0)
  end.

(** ** Descriptors *)

(** The descriptors 0, 1 and 2 are open. *)
Definition std (F : fds) : Prop := is_Some (F !! 0) /\ is_Some (F !! 1) /\ is_Some (F !! 2).

Lemma std_insert F fd o : std F -> std (<[fd := o]> F).
Proof. intros (H0 & H1 & H2). unfold std. rewrite !lookup_insert_is_Some'. auto. Qed.

Lemma free_close F fd : std F -> fd = 0 \/ fd = 1 -> lowest_free (delete fd F) = Some fd.
Proof.
  intros ((x & H0) & _ & _) Hfd. unfold lowest_free, free_fds. change (seqZ 0 (Z.of_nat NOFILE)) with (0 :: 1 :: seqZ 2 14). destruct Hfd as [->| ->].
  - rewrite filter_cons_True; [done|]. apply lookup_delete_eq.
  - rewrite filter_cons_False by (by rewrite lookup_delete_ne, H0). rewrite filter_cons_True; [done|]. apply lookup_delete_eq.
Qed.

Lemma files_insert (F : fds) (a : Z) (o : object) (l rest : list Z) : NoDup l -> filter (fun i => F !! i = None) l = a :: rest ->
  filter (fun i => <[a := o]> F !! i = None) l = rest.
Proof.
  induction 1 as [|x l Hx Hl IH]; [done|]. rewrite !filter_cons. case_decide as Hd.
  - intros [= -> <-]. rewrite decide_False by (by rewrite lookup_insert_eq). apply list_filter_ext. intros i Hi.
    by rewrite lookup_insert_ne by congruence.
  - intros E. rewrite decide_False; [by apply IH|]. destruct (decide (a = x)) as [->|]; [by rewrite lookup_insert_eq|by rewrite lookup_insert_ne].
Qed.

Lemma free_two F : std F -> (2 <= length (free_fds F))%nat -> exists a b, lowest_free F = Some a /\
  (forall o, lowest_free (<[a := o]> F) = Some b) /\ F !! a = None /\ F !! b = None /\ a <> b.
Proof.
  intros HF Hl. assert (NoDup (seqZ 0 (Z.of_nat NOFILE))) as Hnd by apply NoDup_seqZ. assert (forall i, i ∈ free_fds F -> F !! i = None) as Hn.
  { intros i Hi. by apply list_elem_of_filter in Hi as [Hi _]. }
  unfold lowest_free. pose proof (NoDup_filter (fun i => F !! i = None) _ Hnd) as Hnd'. change (filter _ _) with (free_fds F) in Hnd'.
  destruct (free_fds F) as [|a [|b rest]] eqn:E; cbn in Hl; [lia|lia|]. exists a, b. split; [done|]. split.
  { intros o. unfold free_fds. by rewrite (files_insert F a o _ _ Hnd E). }
  split; [apply Hn; by left|]. split; [apply Hn; right; by left|]. intros ->. apply NoDup_cons in Hnd' as [Hnd' _]. apply Hnd'. by left.
Qed.

(** ** Messages *)

Lemma plan_assoc {A B C} (m : U A) (f : A -> U B) (k : B -> U C) F at_ :
  plan ((m ≫= f) ≫= k) F at_ = plan (m ≫= (fun a => f a ≫= k)) F at_.
Proof.
  unfold mbind, U_bind. revert F at_. induction m as [a|st|why|c g IH]; intros F at_; cbn [u_bind]; try done.
  cbn [plan]. destruct c; try (by rewrite IH); repeat (case_match; try (by rewrite ?IH)).
Qed.

(** The program prints [msg] on descriptor 2 and goes on. *)
Definition prints (m : U unit) (msg : list Z) : Prop :=
  forall A (k : unit -> U A) F at_, plan (m ≫= k) F at_ = says F msg (plan (k tt) F at_).

Lemma says_app F a b t : says F (a ++ b) t = says F a (says F b t).
Proof. apply foldr_app. Qed.

Lemma prints_bind m f a b : prints m a -> prints (f tt) b -> prints (m ≫= f) (a ++ b).
Proof. intros Hm Hf A k F at_. by rewrite plan_assoc, Hm, Hf, says_app. Qed.

Lemma prints_ret : prints (mret tt) [].
Proof. done. Qed.

Lemma prints_putc c : prints (putc 2 c) [c].
Proof. done. Qed.

Lemma prints_each bs : prints (u_each bs (putc 2)) bs.
Proof. induction bs as [|c bs IH]; cbn [u_each]; [apply prints_ret|]. change (c :: bs) with ([c] ++ bs). by apply prints_bind. Qed.

Lemma prints_lit c fmt ap msg : (c =? chr "%") = false -> prints (vprintf 2 fmt ap) msg -> prints (vprintf 2 (c :: fmt) ap) (c :: msg).
Proof. intros Hc H. cbn [vprintf]. rewrite Hc. cbn [negb]. change (c :: msg) with ([c] ++ msg). by apply prints_bind. Qed.

Lemma prints_lits pre fmt ap msg : forallb (fun c => negb (c =? chr "%")) pre = true -> prints (vprintf 2 fmt ap) msg ->
  prints (vprintf 2 (pre ++ fmt) ap) (pre ++ msg).
Proof.
  induction pre as [|c pre IH]; [done|]. cbn. intros [Hc Hp]%andb_prop H. apply prints_lit; [by apply negb_true_iff in Hc|auto].
Qed.

Lemma prints_str s fmt ap msg : prints (vprintf 2 fmt ap) msg ->
  prints (vprintf 2 (chr "%" :: chr "s" :: fmt) (AStr (Some s) :: ap)) (cstr s ++ msg).
Proof.
  intros H. change (vprintf 2 (chr "%" :: chr "s" :: fmt) (AStr (Some s) :: ap)) with (u_each (cstr s) (putc 2);; vprintf 2 fmt ap).
  apply prints_bind; [apply prints_each|done].
Qed.

(** "...%s...\n" *)
Lemma prints_message pre s post : forallb (fun c => negb (c =? chr "%")) pre = true -> forallb (fun c => negb (c =? chr "%")) post = true ->
  prints (vprintf 2 (pre ++ chr "%" :: chr "s" :: post) [AStr (Some s)]) (pre ++ cstr s ++ post).
Proof.
  intros H1 H2. apply prints_lits; [done|]. apply prints_str. rewrite <- (app_nil_r post). by apply prints_lits.
Qed.

Lemma cstr_cstr s : cstr (cstr s) = cstr s.
Proof. induction s as [|c s IH]; [done|]. cbn. destruct (c =? 0) eqn:E; cbn; [done|]. by rewrite E, IH. Qed.

Lemma plan_panic {A B} msg (k : A -> U B) F at_ : cstr (bytes_of msg) = bytes_of msg ->
  plan (panic msg ≫= k) F at_ = says F (bytes_of msg ++ [10]) (TExit 1).
Proof.
  intros E. unfold panic. rewrite plan_assoc. unfold fprintf. rewrite (prints_message [] (bytes_of msg) [10] eq_refl eq_refl). cbn [app]. by rewrite E.
Qed.

Context (Hpid : 0 < pid).

Lemma plan_fork1 {A} (k : Z -> U A) F at_ :
  plan (fork1 ≫= k) F at_ = spawn F at_ (plan (k 0) F (false :: at_)) (plan (k pid) F (true :: at_)).
Proof using Hpid.
  unfold fork1. rewrite plan_assoc. unfold spawn. cbn [fork trap0 mbind U_bind u_bind plan]. destruct (forks at_).
  - cbn [fst]. change (0 =? -1) with false. destruct (Z.eqb_spec pid (-1)); [lia|]. done.
  - cbn [fst]. change (-1 =? -1) with true. cbv iota. by apply (plan_panic "fork").
Qed.

(** ** runcmd *)

(** The redirections are of the standard input and output. *)
Fixpoint std_redirs (d : command) : Prop :=
  match d with
  | Exec _ => True
  | Redirect d _ _ fd => (fd = 0 \/ fd = 1) /\ std_redirs d
  | Pipe l r | Seq l r => std_redirs l /\ std_redirs r
  | Back d => std_redirs d
  end.

(** The descriptors of the left side of a pipe; and those of the right side. *)
Lemma left_fds F a b r w : std F -> F !! a = None -> F !! b = None -> a <> b ->
  delete b (delete a (<[1 := w]> (delete 1 (<[b := w]> (<[a := r]> F))))) = <[1 := w]> (F : fds).
Proof.
  intros (_ & (x & H1) & _) Ha Hb Hab. apply map_eq. intros i.
  destruct (decide (i = 1)) as [->|]; [|destruct (decide (i = a)) as [->|]; [|destruct (decide (i = b)) as [->|]]]; simplify_map_eq; done.
Qed.

Lemma right_fds F a b r w : std F -> F !! a = None -> F !! b = None -> a <> b ->
  delete b (delete a (<[0 := r]> (delete 0 (<[b := w]> (<[a := r]> F))))) = <[0 := r]> (F : fds).
Proof.
  intros ((x & H1) & _) Ha Hb Hab. apply map_eq. intros i.
  destruct (decide (i = 0)) as [->|]; [|destruct (decide (i = a)) as [->|]; [|destruct (decide (i = b)) as [->|]]]; simplify_map_eq; done.
Qed.

Lemma parent_fds F a b r w : F !! a = None -> F !! b = None -> a <> b -> delete b (delete a (<[b := w]> (<[a := r]> F))) = (F : fds).
Proof.
  intros Ha Hb Hab. apply map_eq. intros i.
  destruct (decide (i = a)) as [->|]; [|destruct (decide (i = b)) as [->|]]; simplify_map_eq; done.
Qed.

Lemma plan_close {A} fd (k : Z -> U A) F at_ : is_Some (F !! fd) -> plan (close fd ≫= k) F at_ = plan (k 0) (delete fd F) at_.
Proof. intros (o & E). cbn. by rewrite E. Qed.

Lemma plan_dup {A} fd o fd' (k : Z -> U A) F at_ : F !! fd = Some o -> lowest_free F = Some fd' ->
  plan (dup fd ≫= k) F at_ = plan (k fd') (<[fd' := o]> F) at_.
Proof. intros E E'. cbn. by rewrite E, E'. Qed.

Lemma plan_exec {A} w ws (k : Z -> U A) F at_ :
  plan (exec w ws ≫= k) F at_ = if execs w ws then TExec w ws F else plan (k (-1)) F at_.
Proof. done. Qed.

Lemma plan_open {A} path mode fd (k : Z -> U A) F at_ : lowest_free F = Some fd ->
  plan (open path mode ≫= k) F at_ = if opens path mode then plan (k fd) (<[fd := Opened path mode]> F) at_ else plan (k (-1)) F at_.
Proof. intros E. cbn. by rewrite E. Qed.

Lemma plan_wait {A} (k : Z -> U A) F at_ : plan (wait ≫= k) F at_ = TWait F (plan (k pid) F at_).
Proof. done. Qed.

(** Descriptor 2 is the same, and so are the messages on it. *)
Lemma says_same F F' msg t : F !! 2 = F' !! 2 -> says F msg t = says F' msg t.
Proof. intros E. unfold says. by rewrite E. Qed.

Lemma spawn_same F F' at_ c p : F !! 2 = F' !! 2 -> spawn F at_ c p = spawn F' at_ c p.
Proof. intros E. unfold spawn. by rewrite (says_same F F' _ _ E). Qed.

(** The command never returns: it does what it means, whatever would come next. *)
Definition runs (b : list Z) (c : cmd) : Prop := forall A (k : unit -> U A) F at_, std F -> std_redirs (strings b c) ->
  plan (runcmd b c ≫= k) F at_ = meaning (strings b c) F at_.

Lemma runs_exec b argv : runs b (EXEC argv).
Proof.
  intros A k F at_ HF _. destruct argv as [|[q eq] argv]; [done|]. cbn [runcmd strings fst]. rewrite plan_assoc, plan_exec. cbn [meaning fmap list_fmap fst].
  destruct (execs _ _); [done|]. rewrite plan_assoc. unfold fprintf.
  rewrite (prints_message (bytes_of "exec ") (str b q) (bytes_of " failed" ++ [10]) eq_refl eq_refl). unfold str at 1. by rewrite cstr_cstr.
Qed.

Lemma runs_redir b c file efile mode fd : runs b c -> runs b (REDIR c file efile mode fd).
Proof.
  intros IH A k F at_ HF (Hfd & Hd). cbn [runcmd strings meaning]. pose proof HF as (H0 & H1 & H2).
  rewrite plan_assoc, plan_close by (destruct Hfd as [-> | ->]; done). rewrite plan_assoc, (plan_open _ _ fd) by (by apply free_close).
  rewrite insert_delete_eq. destruct (opens (str b file) mode).
  - destruct (Z.ltb_spec fd 0); [lia|]. rewrite plan_assoc. urun. rewrite plan_assoc. apply IH; [|done]. apply std_insert. done.
  - change (-1 <? 0) with true. cbv iota. rewrite !plan_assoc. unfold fprintf.
    rewrite (prints_message (bytes_of "open ") (str b file) (bytes_of " failed" ++ [10]) eq_refl eq_refl). unfold str at 1. rewrite cstr_cstr.
    apply says_same. rewrite lookup_delete_ne; [done|lia].
Qed.

Lemma runs_list b l r : runs b l -> runs b r -> runs b (LIST l r).
Proof using Hpid.
  intros IHl IHr A k F at_ HF (Hl & Hr). cbn [runcmd strings meaning]. rewrite plan_assoc, plan_fork1. f_equal.
  - change (0 =? 0) with true. cbv iota. rewrite plan_assoc. by apply IHl.
  - destruct (Z.eqb_spec pid 0); [lia|]. rewrite plan_assoc. urun. rewrite plan_assoc, plan_wait. f_equal. rewrite plan_assoc. by apply IHr.
Qed.

Lemma runs_back b c : runs b c -> runs b (BACK c).
Proof using Hpid.
  intros IH A k F at_ HF Hd. cbn [runcmd strings meaning]. rewrite plan_assoc, plan_fork1. f_equal.
  - change (0 =? 0) with true. cbv iota. rewrite plan_assoc. by apply IH.
  - destruct (Z.eqb_spec pid 0); [lia|]. done.
Qed.

Lemma plan_pipe_full {A} (k : Z * list Z -> U A) F at_ : (length (free_fds F) < 2)%nat -> plan (pipe ≫= k) F at_ = plan (k (-1, [])) F at_.
Proof.
  intros Hl. cbn. unfold lowest_free. destruct (free_fds F) as [|a [|b rest]] eqn:E; [done| |cbn in Hl; lia]. cbn [head].
  unfold free_fds in *. by rewrite (files_insert F a _ _ _ (NoDup_seqZ _ _) E).
Qed.

Lemma plan_pipe {A} (k : Z * list Z -> U A) F at_ a b : lowest_free F = Some a -> (forall o, lowest_free (<[a := o]> F) = Some b) ->
  plan (pipe ≫= k) F at_ = plan (k (0, [a; b])) (<[b := PipeWrite at_]> (<[a := PipeRead at_]> F)) at_.
Proof. intros Ea Eb. cbn. by rewrite Ea, Eb. Qed.

Lemma runs_pipe b l r : runs b l -> runs b r -> runs b (PIPE l r).
Proof using Hpid.
  intros IHl IHr A k F at_ HF (Hl & Hr). cbn [runcmd strings meaning]. rewrite plan_assoc. pose proof HF as (F0 & F1 & F2).
  destruct (Nat.leb_spec 2 (length (free_fds F))) as [H2|Hlt].
  2: { rewrite plan_pipe_full by lia. change (-1 <? 0) with true. cbv iota. by apply (plan_panic "pipe"). }
  destruct (free_two F HF H2) as (x & y & Ex & Ey & Fx & Fy & Hxy). rewrite (plan_pipe _ _ _ x y Ex Ey).
  change (0 <? 0) with false. cbv iota. cbn [lookup list_lookup]. urun. set (F' := <[y := _]> _).
  assert (x <> 0 /\ x <> 1 /\ x <> 2 /\ y <> 0 /\ y <> 1 /\ y <> 2) as (X0 & X1 & X2 & Y0 & Y1 & Y2).
  { destruct F0 as (? & F0), F1 as (? & F1), F2 as (? & F2). repeat split; intros ->; congruence. }
  assert (std F') as HF' by (by do 2 apply std_insert). assert (F' !! 2 = F !! 2) as E2 by (unfold F'; by simplify_map_eq).
  assert (F' !! x = Some (PipeRead at_)) as Ex' by (unfold F'; by simplify_map_eq). assert (F' !! y = Some (PipeWrite at_)) as Ey' by (unfold F'; by simplify_map_eq).
  rewrite plan_assoc, plan_fork1, (spawn_same F' F _ _ _ E2). f_equal.
  - change (0 =? 0) with true. cbv iota. rewrite !plan_assoc, plan_close by apply HF'. rewrite !plan_assoc.
    rewrite (plan_dup y (PipeWrite at_) 1); [|by rewrite lookup_delete_ne|apply free_close; [done|by right]].
    rewrite !plan_assoc, plan_close by (rewrite lookup_insert_ne, lookup_delete_ne, Ex' by done; done).
    rewrite !plan_assoc, plan_close by (rewrite lookup_delete_ne, lookup_insert_ne, lookup_delete_ne, Ey' by done; done).
    unfold F'. rewrite left_fds by done. apply IHl; [by apply std_insert|done].
  - destruct (Z.eqb_spec pid 0); [lia|]. rewrite plan_assoc. urun. rewrite plan_assoc, plan_fork1, (spawn_same F' F _ _ _ E2). f_equal.
    + change (0 =? 0) with true. cbv iota. rewrite !plan_assoc, plan_close by apply HF'. rewrite !plan_assoc.
      rewrite (plan_dup x (PipeRead at_) 0); [|by rewrite lookup_delete_ne|apply free_close; [done|by left]].
      rewrite !plan_assoc, plan_close by (rewrite lookup_insert_ne, lookup_delete_ne, Ex' by done; done).
      rewrite !plan_assoc, plan_close by (rewrite lookup_delete_ne, lookup_insert_ne, lookup_delete_ne, Ey' by done; done).
      unfold F'. rewrite right_fds by done. apply IHr; [by apply std_insert|done].
    + destruct (Z.eqb_spec pid 0); [lia|]. rewrite plan_assoc. urun. rewrite plan_assoc, plan_close by done.
      rewrite plan_assoc, plan_close by (by rewrite lookup_delete_ne, Ey'). unfold F'. rewrite parent_fds by done. done.
Qed.

Lemma runcmd_runs b c : runs b c.
Proof using Hpid. induction c; eauto using runs_exec, runs_redir, runs_pipe, runs_list, runs_back. Qed.

Lemma plan_ret_r {A} (m : U A) F at_ : plan (m ≫= mret) F at_ = plan m F at_.
Proof.
  unfold mbind, U_bind. revert F at_. induction m as [a|st|why|c g IH]; intros F at_; cbn [u_bind]; try done.
  cbn [plan]. destruct c; try (by rewrite IH); repeat (case_match; try (by rewrite ?IH)).
Qed.
End plan.

(** ** Lines *)

Lemma redirect_std d rs : std_redirs d -> std_redirs (foldl redirect d rs).
Proof.
  revert d. induction rs as [|r rs IH]; intros d Hd; [done|]. cbn [foldl]. apply IH. unfold redirect.
  destruct (r_op r =? chr "<"); [|destruct (r_op r =? chr ">")]; cbn; auto.
Qed.

Lemma back_std n d : std_redirs d -> std_redirs (Nat.iter n Back d).
Proof. intros H. by induction n. Qed.

Lemma line_std l : std_redirs (line_cmd l).
Proof.
  revert l. apply (line_mind (fun l => std_redirs (line_cmd l)) (fun p => std_redirs (pipe_cmd p)) (fun x => std_redirs (elem_cmd x)));
    intros; cbn; auto using redirect_std, back_std.
  by apply redirect_std.
Qed.

(** A machine that has memory, and does nothing else: the program that returns
    on it makes no other call. *)
#[local] Instance only_malloc : Sys unit := fun c =>
  match c with
  | MALLOC _ => mret (1, [])
  | _ => fault "call"
  end.

Lemma plan_interp forks opens execs pid {A B} (m : U A) (k : A -> U B) a w w' F at_ : interp m w = Ok (inr a) w' ->
  plan forks opens execs pid (m ≫= k) F at_ = plan forks opens execs pid (k a) F at_.
Proof.
  unfold mbind at 1, U_bind. revert w. induction m as [a'|st|why|c g IH]; intros w E; cbn [interp] in E; try done; [cbv in E; by injection E as -> _|].
  unfold sys, only_malloc in E. destruct c; try discriminate E. cbn [u_bind plan]. exact (IH (1, []) w E).
Qed.

(** C16: what a command line runs.  For every line of the grammar, the child
    that the shell starts for it parses and runs exactly what the line means:
    the programs of a pipeline are started with the ends of a new pipe as
    their input and output and with no other descriptor of it, and the shell
    has closed both ends when it waits for them; redirections replace the
    descriptor they name; the right side of a semicolon starts after a wait;
    and what fails is reported on descriptor 2. *)
Theorem shell_line forks opens execs pid cs junk l F at_ :
  0 < pid -> 0 ∉ cs -> line_ok l -> lex cs = print_line l -> std F ->
  plan forks opens execs pid ('(cmd, b) ← parsecmd (cs ++ 0 :: junk); runcmd b cmd) F at_ =
  meaning forks opens execs (line_cmd l) F at_.
Proof.
  intros Hpid H0 Hl E HF.
  destruct (parsecmd_parses (S := unit) cs junk l tt []) as (c & b & s' & Ei & Es); try done.
  { intros n [] e. by exists 1, [], tt. }
  rewrite (plan_interp _ _ _ _ _ _ _ _ _ _ _ Ei). rewrite <- (plan_ret_r forks opens execs pid), <- Es.
  apply runcmd_runs; [done|done|]. rewrite Es. apply line_std.
Qed.

Definition fds_example : fds := <[0 := Inherited 0]> (<[1 := Inherited 1]> (<[2 := Inherited 2]> ∅)).

Lemma shell_line_witness :
  plan (fun _ => true) (fun _ _ => true) (fun _ _ => true) 7
    ('(cmd, b) ← parsecmd (bytes_of "(a b<c; d)>> e|  f&" ++ 0 :: []); runcmd b cmd) fds_example [] =
  meaning (fun _ => true) (fun _ _ => true) (fun _ _ => true) (line_cmd line_example) fds_example [].
Proof.
  apply (shell_line (fun _ => true) (fun _ _ => true) (fun _ _ => true) 7 (bytes_of "(a b<c; d)>> e|  f&") [] line_example fds_example []).
  - done.
  - compute_done.
  - cbn. unfold redirs_ok. repeat split; compute_done.
  - reflexivity.
  - repeat split; by eexists.
Defined.
