(* ===== verification/Programs.v ===== *)
(** * The smaller programs

    user/cat.c, echo.c, wc.c, kill.c, ln.c, mkdir.c, rm.c, ls.c, init.c,
    zombie.c, forktest.c, stressfs.c, testP.c and testS.c.  [argv] is the list
    of the argument strings, each with its terminator; [fuel] bounds the loops
    that the input, or the rest of the machine, ends.

    The theorems: cat copies its input, echo writes its arguments, and wc
    counts the lines, words and characters of its input. *)

From S2P Require Import Prelude Prog CStr User Ulib Uprintf.

(** ** cat.c *)

(** [cat(fd)]; what is read is written from [buf]. *)
Fixpoint cat (fuel : nat) (fd : Z) : U unit :=
  match fuel with
  | O => Crash "cat fuel"
  | S fuel =>
    '(n, bs) ← read fd 512;
    if 0 <? n then
      r ← write 1 bs;
      if negb (r =? n) then fprintf 2 "cat: write error
" [];; exit 1 else
      cat fuel fd
    else if n <? 0 then fprintf 2 "cat: read error
" [];; exit 1 else mret tt
  end.

Definition cat_main (fuel : nat) (argv : list (list Z)) : U unit :=
  match argv with
  | [] | [_] => cat fuel 0;; exit 0
  | _ :: files =>
    u_each files (fun f =>
      fd ← open f O_RDONLY;
      if fd <? 0 then fprintf 2 "cat: cannot open %s
" [AStr (Some f)];; exit 1 else
      cat fuel fd;;
      close fd;;
      mret tt);;
    exit 0
  end.

(** ** echo.c *)

Fixpoint echo_args (args : list (list Z)) : U unit :=
  match args with
  | [] => mret tt
  | a :: args =>
    n ← need "strlen" (strlen a);
    write 1 (take (Z.to_nat n) a);;
    write 1 (match args with _ :: _ => [32] | [] => [10] end);;
    echo_args args
  end.

Definition echo_main (argv : list (list Z)) : U unit := echo_args (tail argv);; exit 0.

(** ** wc.c *)

Record counts := mkCounts { wc_l : Z; wc_w : Z; wc_c : Z; wc_inword : bool }.

(** [" \r\t\n\v"] *)
Definition wc_white (c : Z) : bool :=
  match strchr ([32; 13; 9; 10; 11] ++ [0]) c with Some (Some _) => true | _ => false end.

(** The body of the inner loop *)
Definition wc_char (x : counts) (c : Z) : counts :=
  let l := if c =? 10 then wc_l x + 1 else wc_l x in
  if wc_white c then mkCounts l (wc_w x) (wc_c x + 1) false
  else if negb (wc_inword x) then mkCounts l (wc_w x + 1) (wc_c x + 1) true
  else mkCounts l (wc_w x) (wc_c x + 1) true.

Fixpoint wc_loop (fuel : nat) (fd : Z) (x : counts) : U counts :=
  match fuel with
  | O => Crash "wc fuel"
  | S fuel =>
    '(n, bs) ← read fd 512;
    if 0 <? n then wc_loop fuel fd (foldl wc_char x bs)
    else if n <? 0 then printf "wc: read error
" [];; exit 1 else mret x
  end.

Definition wc (fuel : nat) (fd : Z) (name : list Z) : U unit :=
  x ← wc_loop fuel fd (mkCounts 0 0 0 false);
  printf "%d %d %d %s
" [AInt (wc_l x); AInt (wc_w x); AInt (wc_c x); AStr (Some name)].

Definition wc_main (fuel : nat) (argv : list (list Z)) : U unit :=
  match argv with
  | [] | [_] => wc fuel 0 [0];; exit 0
  | _ :: files =>
    u_each files (fun f =>
      fd ← open f O_RDONLY;
      if fd <? 0 then printf "wc: cannot open %s
" [AStr (Some f)];; exit 1 else
      wc fuel fd f;;
      close fd;;
      mret tt);;
    exit 0
  end.

(** ** kill.c *)

Definition kill_main (argv : list (list Z)) : U unit :=
  if (length argv <? 2)%nat then fprintf 2 "usage: kill pid...
" [];; exit 1 else
  u_each (tail argv) (fun a => pid ← need "atoi" (atoi a); kill pid;; mret tt);;
  exit 0.

(** ** ln.c *)

Definition ln_main (argv : list (list Z)) : U unit :=
  match argv with
  | [_; old; new] =>
    r ← link old new;
    (if r <? 0 then fprintf 2 "link %s %s: failed
" [AStr (Some old); AStr (Some new)] else mret tt);;
    exit 0
  | _ => fprintf 2 "Usage: ln old new
" [];; exit 1
  end.

(** ** mkdir.c and rm.c *)

(** The loop over the arguments, left at the first failure *)
Fixpoint until_fails (act : list Z -> U Z) (msg : string) (args : list (list Z)) : U unit :=
  match args with
  | [] => mret tt
  | a :: args =>
    r ← act a;
    if r <? 0 then fprintf 2 msg [AStr (Some a)] else until_fails act msg args
  end.

Definition mkdir_main (argv : list (list Z)) : U unit :=
  if (length argv <? 2)%nat then fprintf 2 "Usage: mkdir files...
" [];; exit 1 else
  until_fails mkdir "mkdir: %s failed to create
" (tail argv);;
  exit 0.

Definition rm_main (argv : list (list Z)) : U unit :=
  if (length argv <? 2)%nat then fprintf 2 "Usage: rm files...
" [];; exit 1 else
  until_fails unlink "rm: %s failed to delete
" (tail argv);;
  exit 0.

(** ** ls.c *)

(** The number in [n] bytes from [i] on, lowest first *)
Definition field (bs : list Z) (i n : nat) : Z := foldr (fun b v => b + 256 * v) 0 (read_at i n bs).

(** [for(p = path + strlen(path); p >= path && *p != '/'; p--); p++] *)
Fixpoint after_slash (path : list Z) (n : nat) : nat :=
  if default 0 (path !! n) =? chr "/" then S n else
  match n with
  | O => O
  | S n => after_slash path n
  end.

(** The name, blank-padded in the static buffer if it is short *)
Definition fmtname (path : list Z) : U (list Z) :=
  n ← need "strlen" (strlen path);
  let p := drop (after_slash path (Z.to_nat n)) path in
  n ← need "strlen" (strlen p);
  let n := Z.to_nat n in
  if DIRSIZ <=? Z.of_nat n then mret p else
  let buf := replicate (Z.to_nat DIRSIZ + 1) 0 in
  let buf := write_at 0 (take n p) buf in
  mret (write_at n (replicate (Z.to_nat DIRSIZ - n) 32) buf).

(** [printf("%s %d %d %d\n", fmtname(path), st.type, st.ino, (int) st.size)] *)
Definition ls_entry (path st : list Z) : U unit :=
  name ← fmtname path;
  printf "%s %d %d %d
" [AStr (Some name); AInt (s16 (field st 8 2)); AInt (field st 4 4); AInt (field st 16 8)].

(** The loop over the entries of a directory; [p] is where the name goes. *)
Fixpoint ls_dir (fuel : nat) (fd : Z) (buf : list Z) (p : nat) : U unit :=
  match fuel with
  | O => Crash "ls fuel"
  | S fuel =>
    '(n, de) ← read fd 16;
    if negb (n =? 16) then mret tt else
    if field de 0 2 =? 0 then ls_dir fuel fd buf p else
    let buf := write_at p (read_at 2 (Z.to_nat DIRSIZ) de) buf in
    buf ← put buf (Z.of_nat p + DIRSIZ) 0;
    '(r, st) ← stat buf;
    (if r <? 0 then printf "ls: cannot stat %s
" [AStr (Some buf)] else ls_entry buf st);;
    ls_dir fuel fd buf p
  end.

(** [junk]: what is in the local buffer *)
Definition ls (fuel : nat) (junk : list Z) (path : list Z) : U unit :=
  fd ← open path O_RDONLY;
  if fd <? 0 then fprintf 2 "ls: cannot open %s
" [AStr (Some path)] else
  '(r, st) ← fstat fd;
  if r <? 0 then fprintf 2 "ls: cannot stat %s
" [AStr (Some path)];; close fd;; mret tt else
  let type := s16 (field st 8 2) in
  (if (type =? T_DEVICE) || (type =? T_FILE) then ls_entry path st
   else if type =? T_DIR then
     n ← need "strlen" (strlen path);
     if 512 <? n + 1 + DIRSIZ + 1 then printf "ls: path too long
" [] else
     buf ← need "strcpy" (strcpy junk path);
     n ← need "strlen" (strlen buf);
     buf ← put buf n (chr "/");
     ls_dir fuel fd buf (Z.to_nat n + 1)
   else mret tt);;
  close fd;;
  mret tt.

Definition ls_main (fuel : nat) (junk : list Z) (argv : list (list Z)) : U unit :=
  match argv with
  | [] | [_] => ls fuel junk (bytes_of "." ++ [0]);; exit 0
  | _ :: args => u_each args (ls fuel junk);; exit 0
  end.

(** ** init.c *)

(** [for(;;) wpid = wait(0)] *)
Fixpoint init_wait (fuel : nat) (pid : Z) : U unit :=
  match fuel with
  | O => Crash "init fuel"
  | S fuel =>
    wpid ← wait;
    if wpid =? pid then mret tt
    else if wpid <? 0 then printf "init: wait returned an error
" [];; exit 1
    else init_wait fuel pid
  end.

Fixpoint init_loop (fuel : nat) : U unit :=
  match fuel with
  | O => Crash "init fuel"
  | S fuel =>
    printf "init: starting sh
" [];;
    pid ← fork 1;
    (if pid <? 0 then printf "init: fork failed
" [];; exit 1 else mret tt);;
    (if pid =? 0 then
       exec (bytes_of "sh" ++ [0]) [bytes_of "sh" ++ [0]];;
       printf "init: exec sh failed
" [];;
       exit 1
     else mret tt);;
    init_wait fuel pid;;
    init_loop fuel
  end.

Definition init_main (fuel : nat) : U unit :=
  r ← open (bytes_of "console" ++ [0]) O_RDWR;
  (if r <? 0 then
     mknod (bytes_of "console" ++ [0]) (Z.of_nat CONSOLE) 0;;
     open (bytes_of "console" ++ [0]) O_RDWR;;
     mret tt
   else mret tt);;
  dup 0;;
  dup 0;;
  init_loop fuel.

(** ** zombie.c *)

Definition zombie_main : U unit :=
  pid ← fork 1;
  (if 0 <? pid then sleep 5;; mret tt else mret tt);;
  exit 0.

(** ** forktest.c *)

Definition print (s : string) : U unit := write 1 (bytes_of s);; mret tt.

(** [for(n = 0; n < N; n++)]: the number of forks, with [togo] of [N] to go *)
Fixpoint forktest_forks (togo : nat) (n : Z) : U Z :=
  match togo with
  | O => mret n
  | S togo =>
    pid ← fork 1;
    if pid <? 0 then mret n else
    if pid =? 0 then exit 0 else
    forktest_forks togo (n + 1)
  end.

(** [for(; n > 0; n--)] *)
Fixpoint forktest_waits (n : nat) : U unit :=
  match n with
  | O => mret tt
  | S n =>
    r ← wait;
    if r <? 0 then print "wait stopped early
";; exit 1 else
    forktest_waits n
  end.

Definition forktest (N : nat) : U unit :=
  print "fork test
";;
  n ← forktest_forks N 0;
  (if n =? Z.of_nat N then print "fork claimed to work N times!
";; exit 1 else mret tt);;
  forktest_waits (Z.to_nat n);;
  r ← wait;
  (if negb (r =? -1) then print "wait got too many
";; exit 1 else mret tt);;
  print "fork test OK
".

Definition forktest_main : U unit := forktest 1000;; exit 0.

(** ** stressfs.c *)

(** [for(i = 0; i < 4; i++) if(fork(1) > 0) break;] *)
Fixpoint stressfs_forks (togo : nat) (i : Z) : U Z :=
  match togo with
  | O => mret i
  | S togo =>
    pid ← fork 1;
    if 0 <? pid then mret i else stressfs_forks togo (i + 1)
  end.

Definition stressfs_main : U unit :=
  printf "stressfs starting
" [];;
  let data := replicate 512 (chr "a") in
  i ← stressfs_forks 4 0;
  printf "write %d
" [AInt i];;
  let path := bytes_of "stressfs" ++ [chr "0" + i; 0] in
  fd ← open path (Z.lor O_CREATE O_RDWR);
  u_each (seq 0 20) (fun _ => write fd data;; mret tt);;
  close fd;;
  printf "read
" [];;
  fd ← open path O_RDONLY;
  u_each (seq 0 20) (fun _ => read fd 512;; mret tt);;
  close fd;;
  wait;;
  exit 0.

(** ** testP.c and testS.c *)

Definition N_CLASSES : nat := 4.
Definition N_SUBS : nat := 4.

(** The loop that wastes time has no effect. *)
Definition waste_time (prioridade : Z) : U unit :=
  sleep 5;;
  pid ← getpid;
  printf "start pid=%d (classe=%d)
" [AInt pid; AInt prioridade];;
  pid ← getpid;
  printf "stop pid=%d (classe=%d)
" [AInt pid; AInt prioridade].

(** [child]: the pids *)
Definition testP_main (child : list Z) : U unit :=
  child ← u_fold (seq 0 N_CLASSES) (fun child n =>
    let classe := Z.of_nat n in
    u_fold (seq 0 N_SUBS) (fun child m =>
      pid ← forkprio classe;
      if pid =? 0 then waste_time classe;; exit 0
      else put child (Z.of_nat (n * N_SUBS + m)) pid) child) child;
  u_each (seq 0 (N_CLASSES * N_SUBS)) (fun _ =>
    pid ← wait;
    printf "child pid = %d finished!

" [AInt pid]);;
  exit 0.

Definition testS_main : U unit :=
  u_each (seq 0 3) (fun i =>
    pid ← forkprio (Z.of_nat i);
    if pid =? 0 then
      u_each (seq 0 3) (fun _ =>
        pid ← getpid;
        printf "
stop pid=%d (id=%d)

" [AInt pid; AInt (Z.of_nat i)];;
        sleep 1;;
        mret tt);;
      exit 0
    else mret tt);;
  u_each (seq 0 3) (fun _ => wait;; mret tt);;
  exit 0.

(** ** Theorems *)

Section spec.
Context {S : Type} `{!Sys S} (fd : Z) (input output : S -> list Z) (R : stream_law fd input output).

Lemma cat_spec fuel s e : (length (input s) < fuel)%nat ->
  exists s', interp (cat fuel fd) (mkWorld s e) = Ok (inr tt) (mkWorld s' e) /\ input s' = [] /\ output s' = output s ++ input s.
Proof using R.
  revert s. induction fuel as [|fuel IH]; intros s Hf; [lia|]. cbn [cat].
  destruct (read_law _ _ _ R s e 512) as (k & s1 & E & Hk & Hl & H0 & Hin & Hout); [lia|].
  rewrite (interp_Ok (read fd 512) _ _ _ _ (interp_trap _ _ _ _ E)). destruct (Z.ltb_spec 0 (Z.of_nat k)) as [Hpos|Hz].
  - destruct (write_law _ _ _ R s1 e (take k (input s))) as (s2 & E2 & Hin2 & Hout2).
    rewrite (interp_Ok (write 1 _) _ _ _ _ (interp_trap0 _ _ _ _ _ E2)).
    rewrite length_take, Nat.min_l, Z.eqb_refl by lia. cbn [negb].
    destruct (IH s2) as (s3 & E3 & Hin3 & Hout3); [rewrite Hin2, Hin, length_drop; lia|]. exists s3. split; [exact E3|]. split; [done|].
    rewrite Hout3, Hout2, Hout, Hin2, Hin, <- app_assoc. by rewrite take_drop.
  - destruct (Z.ltb_spec (Z.of_nat k) 0); [lia|]. assert (input s = []) as Ei by (destruct (H0 ltac:(lia)); [lia|done]).
    exists s1. split; [done|]. rewrite Hin, Hout, Ei. by rewrite drop_nil, app_nil_r.
Qed.

(** A word starts at [i]. *)
Definition starts_word (cs : list Z) (i : nat) : bool :=
  match cs !! i with
  | Some c => negb (wc_white c) && match i with O => true | Datatypes.S j => match cs !! j with Some d => wc_white d | None => true end end
  | None => false
  end.

Definition counted (cs : list Z) : counts :=
  mkCounts (Z.of_nat (length (filter (fun c => c = 10) cs)))
           (Z.of_nat (length (filter (fun i => starts_word cs i = true) (seq 0 (length cs)))))
           (Z.of_nat (length cs))
           match last cs with Some c => negb (wc_white c) | None => false end.

Lemma counted_snoc cs c : counted (cs ++ [c]) = wc_char (counted cs) c.
Proof.
  unfold counted. rewrite filter_app, !length_app, last_snoc, seq_app, filter_app, length_app. cbn [length seq plus].
  assert (filter (fun i => starts_word (cs ++ [c]) i = true) (seq 0 (length cs)) = filter (fun i => starts_word cs i = true) (seq 0 (length cs))) as ->.
  { apply list_filter_ext. intros i Hi. apply elem_of_seq in Hi. unfold starts_word. rewrite lookup_app_l by lia.
    destruct i as [|j]; [done|]. by rewrite lookup_app_l by lia. }
  assert (starts_word (cs ++ [c]) (length cs) = negb (wc_white c) && negb match last cs with Some c => negb (wc_white c) | None => false end) as Es.
  { unfold starts_word. rewrite lookup_app_r, Nat.sub_diag by lia. cbn [lookup list_lookup]. destruct cs as [|d cs _] using rev_ind; [done|].
    rewrite length_app, last_snoc. cbn [length]. rewrite Nat.add_1_r, lookup_app_l, lookup_app_r, Nat.sub_diag by (rewrite ?length_app; cbn; lia).
    cbn. by rewrite negb_involutive. }
  unfold wc_char. cbn [wc_l wc_w wc_c wc_inword]. rewrite (filter_cons _ c []), (filter_cons _ (length cs) []), Es.
  destruct (match last cs with Some c => negb (wc_white c) | None => false end), (Z.eqb_spec c 10), (wc_white c); cbn [negb andb];
    repeat (case_decide; try congruence); f_equal; cbn; lia.
Qed.

Lemma wc_loop_spec fuel s e cs : (length (input s) < fuel)%nat ->
  exists s', interp (wc_loop fuel fd (counted cs)) (mkWorld s e) = Ok (inr (counted (cs ++ input s))) (mkWorld s' e) /\
    input s' = [] /\ output s' = output s.
Proof using R.
  assert (forall bs cs, foldl wc_char (counted cs) bs = counted (cs ++ bs)) as Hfold.
  { intros bs. induction bs as [|b bs IH]; intros ds; [by rewrite app_nil_r|]. cbn [foldl]. by rewrite <- counted_snoc, IH, <- app_assoc. }
  revert s cs. induction fuel as [|fuel IH]; intros s cs Hf; [lia|]. cbn [wc_loop].
  destruct (read_law _ _ _ R s e 512) as (k & s1 & E & Hk & Hl & H0 & Hin & Hout); [lia|].
  rewrite (interp_Ok (read fd 512) _ _ _ _ (interp_trap _ _ _ _ E)). destruct (Z.ltb_spec 0 (Z.of_nat k)) as [Hpos|Hz].
  - rewrite Hfold. destruct (IH s1 (cs ++ take k (input s))) as (s2 & E2 & Hin2 & Hout2); [rewrite Hin, length_drop; lia|].
    exists s2. split; [|split; [done|congruence]]. rewrite E2, Hin, <- app_assoc. by rewrite take_drop.
  - destruct (Z.ltb_spec (Z.of_nat k) 0); [lia|]. assert (input s = []) as Ei by (destruct (H0 ltac:(lia)); [lia|done]).
    exists s1. split; [by rewrite Ei, app_nil_r|]. by rewrite Hin, Ei, drop_nil.
Qed.

(** The arguments, with a space between and a newline after them *)
Fixpoint echoed (strs : list (list Z)) : list Z :=
  match strs with
  | [] => []
  | [a] => a ++ [10]
  | a :: strs => a ++ [32] ++ echoed strs
  end.

Lemma echo_spec args strs : Forall2 is_cstring args strs -> emits input output (echo_args args) (echoed strs).
Proof using R.
  induction 1 as [|a str args strs Ha Hs IH]; cbn [echo_args]; [apply emits_ret|].
  assert (forall bs (m : U unit) os, emits input output m os -> emits input output (write 1 bs;; m) (bs ++ os)) as Hw.
  { intros bs m os Hm. assert (emits input output ((write 1 bs;; mret tt);; m) (bs ++ os)) as Hb; [|exact Hb].
    apply emits_bind; [apply (emits_write fd input output R)|done]. }
  unfold strlen. rewrite (strlen_cstring _ _ Ha). urun. rewrite Nat2Z.id. destruct Ha as (rest & -> & _). rewrite take_app_length.
  inversion Hs as [|? ? ? ? Ha2 Hs2]; subst; cbn [echoed].
  - rewrite <- (app_nil_r [10]). do 2 apply Hw. exact IH.
  - apply Hw. apply (Hw [32]). exact IH.
Qed.
End spec.

(** The decimal numeral that printint writes *)
Definition numeral (n : nat) : list Z := rev (printint_buf (Z.of_nat n) 10 1).

(** Wc counts.  However the reads divide the input, wc reads it to its
    end and prints the number of newlines, the number of places where a word
    starts (a character that is not white space, at the start or after white
    space), and the number of characters, followed by the name. *)
Theorem wc_correct {S} `{!Sys S} fd (input output : S -> list Z) fuel name nm s e :
  stream_law fd input output -> is_cstring name nm -> Forall (fun c => 0 <= c < 256) nm ->
  (length (input s) < fuel)%nat -> Z.of_nat (length (input s)) < 2147483648 ->
  exists s', interp (wc fuel fd name) (mkWorld s e) = Ok (inr tt) (mkWorld s' e) /\ input s' = [] /\
    output s' = output s ++
      numeral (length (filter (fun c => c = 10) (input s))) ++ [32] ++
      numeral (length (filter (fun i => starts_word (input s) i = true) (seq 0 (length (input s))))) ++ [32] ++
      numeral (length (input s)) ++ [32] ++ nm ++ [10].
Proof.
  intros R Hname Hnm Hf Hlen. destruct (wc_loop_spec fd input output R fuel s e [] Hf) as (s1 & E1 & Hin1 & Hout1).
  unfold wc. change (mkCounts 0 0 0 false) with (counted []). rewrite (interp_Ok _ _ _ _ _ E1). cbn [app counted wc_l wc_w wc_c].
  set (cs := input s) in *. assert (cstr name = nm) as Ec.
  { destruct Hname as (rest & -> & H0). clear - H0. induction nm as [|c nm IH]; [done|]. apply not_elem_of_cons in H0 as [Hc H0]. cbn [app cstr].
    destruct (Z.eqb_spec c 0); [congruence|]. by rewrite IH. }
  assert (forall n, (n <= length cs)%nat -> numeral n = rev (printint_buf (s32 (Z.of_nat n)) 10 1)) as Hs
    by (intros n Hn; rewrite s32_small by lia; done).
  set (nl := length (filter (fun c => c = 10) cs)). set (nw := length (filter (fun i => starts_word cs i = true) (seq 0 (length cs)))).
  assert (nl <= length cs)%nat as Hl by apply length_filter. assert (nw <= length cs)%nat as Hw by (etrans; [apply length_filter|by rewrite length_seq]).
  assert (emits input output (printf "%d %d %d %s
" [AInt (Z.of_nat nl); AInt (Z.of_nat nw); AInt (Z.of_nat (length cs)); AStr (Some name)])
    (numeral nl ++ [32] ++ numeral nw ++ [32] ++ numeral (length cs) ++ [32] ++ nm ++ [10])) as Hp.
  { rewrite !Hs, <- Ec by lia. unfold printf.
    apply (emits_d fd input output R _ (bytes_of " %d %d %s" ++ [10])). apply (emits_char fd input output R); [done..|].
    apply (emits_d fd input output R _ (bytes_of " %d %s" ++ [10])). apply (emits_char fd input output R); [done..|].
    apply (emits_d fd input output R _ (bytes_of " %s" ++ [10])). apply (emits_char fd input output R); [done..|].
    apply (emits_s fd input output R _ [10]); [by rewrite Ec|]. apply (emits_char fd input output R); [done..|]. apply emits_ret. }
  destruct (Hp s1 e) as (s2 & E2 & Hin2 & Hout2). exists s2. split; [exact E2|]. split; [congruence|]. by rewrite Hout2, Hout1.
Qed.

#[local] Existing Instance pipe_machine.

Lemma wc_correct_witness :
  interp (wc 40 0 (bytes_of "f" ++ [0])) (mkWorld (bytes_of "two words" ++ [10] ++ bytes_of "one", []) []) =
  Ok (inr tt) (mkWorld ([], bytes_of "1 3 13 f" ++ [10]) []).
Proof.
  destruct (wc_correct 0 fst snd 40 (bytes_of "f" ++ [0]) (bytes_of "f") (bytes_of "two words" ++ [10] ++ bytes_of "one", []) [])
    as ([i o] & E & Hi & Ho).
  - apply pipe_machine_law.
  - exists []. split; [reflexivity|compute_done].
  - repeat constructor; done.
  - compute_done.
  - done.
  - cbn [fst snd] in Hi, Ho. subst i o. exact E.
Defined.
