(* ===== verification/Grind.v ===== *)
(** * grind

    user/grind.c: random system calls in parallel for ever.  [fuel] bounds the
    loops that only a failure ends; [seed] is rand_next.

    The lemmas: the generator is that of Park and Miller, in 31 bits, and every
    number it makes is a seed again. *)

From S2P Require Import Prelude Prog CStr User Ulib Uprintf Programs.

(** ** The generator *)

(** The number and the new [*ctx]; [ctx] is below 2^64, so that nothing wraps. *)
Definition do_rand (ctx : Z) : Z * Z :=
  let x := ctx `mod` 2147483646 + 1 in
  let hi := x `quot` 127773 in
  let lo := x `rem` 127773 in
  let x := 16807 * lo - 2836 * hi in
  let x := if x <? 0 then x + 2147483647 else x in
  let x := x - 1 in
  (s32 x, u64 x).

Definition rand (rand_next : Z) : Z * Z := do_rand rand_next.

(** ** go *)

Definition path (s : string) : list Z := bytes_of s ++ [0].
Definition O_NEW : Z := Z.lor O_CREATE O_RDWR.

(** [printf(msg); exit(st);] *)
Definition fail {A} (msg : string) (st : Z) : U A := printf msg [];; exit st.
Definition fail2 {A} (msg : string) (st : Z) : U A := fprintf 2 msg [];; exit st.

(** [close(open(p, O_CREATE|O_RDWR))] *)
Definition touch_file (p : string) : U unit := fd ← open (path p) O_NEW; close fd;; mret tt.

(** [pid = fork(1)], with what the child does before it exits *)
Definition fork_child (child : U unit) : U Z :=
  pid ← fork 1;
  if pid =? 0 then child;; exit 0
  else if pid <? 0 then fail "grind: fork failed
" 1
  else mret pid.

(** [wait(&st)] *)
Definition wait_status (st : option Z) : U (option Z) :=
  '(_, bs) ← trap SYS_wait;
  mret (match bs with [] => st | _ => Some (s32 (le_combine bs)) end).

(** The case 21 *)
Definition go_create : U unit :=
  unlink (path "c");;
  fd1 ← open (path "c") O_NEW;
  (if fd1 <? 0 then fail "grind: create c failed
" 1 else mret tt);;
  r ← write fd1 (bytes_of "x");
  (if negb (r =? 1) then fail "grind: write c failed
" 1 else mret tt);;
  '(r, st) ← fstat fd1;
  (if negb (r =? 0) then fail "grind: fstat failed
" 1 else mret tt);;
  (if negb (field st 16 8 =? 1) then printf "grind: fstat reports wrong size %d
" [AInt (s32 (field st 16 8))];; exit 1 else mret tt);;
  (if 200 <? field st 4 4 then printf "grind: fstat reports crazy i-number %d
" [AInt (field st 4 4)];; exit 1 else mret tt);;
  close fd1;;
  unlink (path "c");;
  mret tt.

Definition quote : string := String (Ascii.ascii_of_nat 34) EmptyString.

(** What a read of one byte leaves at [buf+i] *)
Definition read1 (fd : Z) (buf : list Z) (i : nat) : U (list Z) :=
  '(_, bs) ← read fd 1;
  mret (write_at i bs buf).

(** The descriptors that pipe stores *)
Definition pipe_fds (fails : U (Z * Z)) : U (Z * Z) :=
  '(r, fds) ← pipe;
  if r <? 0 then fails else
  fd0 ← need "fds[0]" (fds !! 0%nat);
  fd1 ← need "fds[1]" (fds !! 1%nat);
  mret (fd0, fd1).

(** The case 22: echo hi | cat *)
Definition go_pipeline : U unit :=
  '(aa0, aa1) ← pipe_fds (fail2 "grind: pipe failed
" 1);
  '(bb0, bb1) ← pipe_fds (fail2 "grind: pipe failed
" 1);
  pid1 ← fork 1;
  (if pid1 =? 0 then
     close bb0;; close bb1;; close aa0;; close 1;;
     r ← dup aa1;
     (if negb (r =? 1) then fail2 "grind: dup failed
" 1 else mret tt);;
     close aa1;;
     exec (path "grindir/../echo") [path "echo"; path "hi"];;
     fail2 "grind: echo: not found
" 2
   else if pid1 <? 0 then fail2 "grind: fork failed
" 3
   else mret tt);;
  pid2 ← fork 1;
  (if pid2 =? 0 then
     close aa1;; close bb0;; close 0;;
     r ← dup aa0;
     (if negb (r =? 0) then fail2 "grind: dup failed
" 4 else mret tt);;
     close aa0;; close 1;;
     r ← dup bb1;
     (if negb (r =? 1) then fail2 "grind: dup failed
" 5 else mret tt);;
     close bb1;;
     exec (path "/cat") [path "cat"];;
     fail2 "grind: cat: not found
" 6
   else if pid2 <? 0 then fail2 "grind: fork failed
" 7
   else mret tt);;
  close aa0;; close aa1;; close bb1;;
  buf ← read1 bb0 [0; 0; 0; 0] 0;
  buf ← read1 bb0 buf 1;
  buf ← read1 bb0 buf 2;
  close bb0;;
  st1 ← wait_status None;
  st2 ← wait_status None;
  st1 ← need "st1" st1;
  st2 ← need "st2" st2;
  c ← need "strcmp" (strcmp buf (path "hi
"));
  if negb (st1 =? 0) || negb (st2 =? 0) || negb (c =? 0) then
    printf (String.append "grind: exec pipeline failed %d %d " (String.append quote (String.append "%s" (String.append quote "
")))) [AInt st1; AInt st2; AStr (Some buf)];;
    exit 1
  else mret tt.

(** The cases 1 to 12: the files; the new [fd] and [buf] *)
Definition go_files (what fd : Z) (buf : list Z) : U (Z * list Z) :=
  if what =? 1 then touch_file "grindir/../a";; mret (fd, buf)
  else if what =? 2 then touch_file "grindir/../grindir/../b";; mret (fd, buf)
  else if what =? 3 then unlink (path "grindir/../a");; mret (fd, buf)
  else if what =? 4 then
    r ← chdir (path "grindir");
    (if negb (r =? 0) then fail "grind: chdir grindir failed
" 1 else mret tt);;
    unlink (path "../b");;
    chdir (path "/");;
    mret (fd, buf)
  else if what =? 5 then close fd;; fd ← open (path "/grindir/../a") O_NEW; mret (fd, buf)
  else if what =? 6 then close fd;; fd ← open (path "/./grindir/./../b") O_NEW; mret (fd, buf)
  else if what =? 7 then write fd buf;; mret (fd, buf)
  else if what =? 8 then '(_, bs) ← read fd 999; mret (fd, write_at 0 bs buf)
  else if what =? 9 then
    mkdir (path "grindir/../a");; touch_file "a/../a/./a";; unlink (path "a/a");; mret (fd, buf)
  else if what =? 10 then
    mkdir (path "/../b");; touch_file "grindir/../b/b";; unlink (path "b/b");; mret (fd, buf)
  else if what =? 11 then
    unlink (path "b");; link (path "../grindir/./../a") (path "../b");; mret (fd, buf)
  else if what =? 12 then
    unlink (path "../grindir/../a");; link (path ".././b") (path "/grindir/../a");; mret (fd, buf)
  else mret (fd, buf).

(** The cases 13 to 20: processes, memory and pipes *)
Definition go_forks (what break0 : Z) : U unit :=
  if what =? 13 then fork_child (mret tt);; wait;; mret tt
  else if what =? 14 then fork_child (fork 1;; fork 1;; mret tt);; wait;; mret tt
  else if what =? 15 then sbrk 6011;; mret tt
  else if what =? 16 then
    top ← sbrk 0;
    if u64 break0 <? u64 top then
      top ← sbrk 0;
      sbrk (s32 (- (top - break0)));;
      mret tt
    else mret tt
  else if what =? 17 then
    pid ← fork_child (touch_file "a");
    r ← chdir (path "../grindir/..");
    (if negb (r =? 0) then fail "grind: chdir failed
" 1 else mret tt);;
    kill pid;;
    wait;;
    mret tt
  else if what =? 18 then fork_child (pid ← getpid; kill pid;; mret tt);; wait;; mret tt
  else if what =? 19 then
    '(fd0, fd1) ← pipe_fds (fail "grind: pipe failed
" 1);
    fork_child (
      fork 1;; fork 1;;
      r ← write fd1 (bytes_of "x");
      (if negb (r =? 1) then printf "grind: pipe write failed
" [] else mret tt);;
      '(r, _) ← read fd0 1;
      if negb (r =? 1) then printf "grind: pipe read failed
" [] else mret tt);;
    close fd0;;
    close fd1;;
    wait;;
    mret tt
  else if what =? 20 then
    fork_child (
      unlink (path "a");; mkdir (path "a");; chdir (path "a");; unlink (path "../a");;
      open (path "x") O_NEW;; unlink (path "x");; mret tt);;
    wait;;
    mret tt
  else mret tt.

(** The loop of go *)
Fixpoint go_loop (fuel : nat) (which_child break0 iters fd : Z) (buf : list Z) (seed : Z) : U unit :=
  match fuel with
  | O => Crash "grind fuel"
  | S fuel =>
    let iters := u64 (iters + 1) in
    (if iters `mod` 500 =? 0 then write 1 (bytes_of (if negb (which_child =? 0) then "B" else "A"));; mret tt else mret tt);;
    let '(x, seed) := rand seed in
    let what := x `rem` 23 in
    '(fd, buf) ← go_files what fd buf;
    go_forks what break0;;
    (if what =? 21 then go_create else mret tt);;
    (if what =? 22 then go_pipeline else mret tt);;
    go_loop fuel which_child break0 iters fd buf seed
  end.

Definition go (fuel : nat) (which_child seed : Z) : U unit :=
  break0 ← sbrk 0;
  mkdir (path "grindir");;
  r ← chdir (path "grindir");
  (if negb (r =? 0) then fail "grind: chdir grindir failed
" 1 else mret tt);;
  chdir (path "/");;
  go_loop fuel which_child break0 0 (-1) (replicate 999 0) seed.

(** ** iter and main *)

Definition iter (fuel : nat) (seed : Z) : U unit :=
  unlink (path "a");;
  unlink (path "b");;
  pid1 ← fork 1;
  (if pid1 <? 0 then fail "grind: fork failed
" 1 else mret tt);;
  (if pid1 =? 0 then go fuel 0 (Z.lxor seed 31);; exit 0 else mret tt);;
  pid2 ← fork 1;
  (if pid2 <? 0 then fail "grind: fork failed
" 1 else mret tt);;
  (if pid2 =? 0 then go fuel 1 (Z.lxor seed 7177);; exit 0 else mret tt);;
  st1 ← wait_status (Some (-1));
  (if negb (default (-1) st1 =? 0) then kill pid1;; kill pid2;; mret tt else mret tt);;
  wait_status (Some (-1));;
  exit 0.

Fixpoint grind_loop (fuel : nat) (seed : Z) : U unit :=
  match fuel with
  | O => Crash "grind fuel"
  | S fuel =>
    pid ← fork 1;
    (if pid =? 0 then iter fuel seed;; exit 0 else mret tt);;
    (if 0 <? pid then wait;; mret tt else mret tt);;
    sleep 20;;
    grind_loop fuel (u64 (seed + 1))
  end.

Definition grind_main (fuel : nat) : U unit := grind_loop fuel 1.

(** ** Lemmas *)

(** The generator of Park and Miller, on the numbers below 2^31 - 2 *)
Definition park_miller (x : Z) : Z := (16807 * (x + 1)) `mod` 2147483647 - 1.

(** The method of Schrage computes the product modulo 2^31 - 1 without a number
    of more than 31 bits, and the new seed is the number made. *)
Lemma do_rand_park_miller ctx : 0 <= ctx ->
  do_rand ctx = (park_miller (ctx `mod` 2147483646), park_miller (ctx `mod` 2147483646)) /\
  0 <= park_miller (ctx `mod` 2147483646) < 2147483646.
Proof.
  intros Hc. pose proof (Z.mod_pos_bound ctx 2147483646 ltac:(done)) as Hx. unfold do_rand, park_miller.
  set (x := ctx `mod` 2147483646 + 1). assert (1 <= x <= 2147483646) as Hr by lia. clearbody x. clear Hc Hx.
  rewrite Z.quot_div_nonneg, Z.rem_mod_nonneg by lia.
  pose proof (Z.div_mod x 127773 ltac:(done)) as Hdm. pose proof (Z.mod_pos_bound x 127773 ltac:(done)) as Hm.
  set (hi := x / 127773) in *. set (lo := x `mod` 127773) in *. clearbody hi lo.
  set (y := if 16807 * lo - 2836 * hi <? 0 then 16807 * lo - 2836 * hi + 2147483647 else 16807 * lo - 2836 * hi).
  assert (16807 * x = 2147483647 * hi + (16807 * lo - 2836 * hi)) as E by lia.
  assert ((16807 * x) `mod` 2147483647 = y /\ 1 <= y < 2147483647) as [-> Hy].
  { assert (16807 * lo - 2836 * hi <> 0) as Hn0.
    { intros E0. rewrite E0, Z.add_0_r in E. assert (Z.gcd 16807 2147483647 = 1) as G by reflexivity.
      assert ((2147483647 | x)) as [k Hk] by (apply (Z.gauss _ 16807); [exists hi; lia|by rewrite Z.gcd_comm]). nia. }
    unfold y. destruct (Z.ltb_spec (16807 * lo - 2836 * hi) 0) as [Hn|Hn].
    - split; [symmetry; apply (Z.mod_unique _ _ (hi - 1)); lia|lia].
    - split; [symmetry; apply (Z.mod_unique _ _ hi); lia|lia]. }
  unfold wrap_s, wrap_u. change (2 ^ (32 - 1)) with 2147483648. rewrite !Z.mod_small by lia. split; [f_equal; lia|lia].
Qed.
