(* ===== verification/Usertests.v ===== *)
(** * usertests: pointers and files

    user/usertests.c, the tests of the copies between the user and the kernel
    and those of the file system; [UsertestsProc] has the tests of processes and
    memory, [UsertestsDrive] the slow tests and the driver.

    A test takes its name and exits or returns.  The driver runs each in a
    process of its own, so that the global [buf] is zero when a test starts.
    [fuel] bounds the loops that only a result of a call ends. *)

From S2P Require Import Prelude Prog CStr User Ulib Uprintf Programs Grind.

(** ** What the tests share *)

(** [sizeof(buf)] *)
Definition BUFSZ : Z := (10 + 2) * 1024.
Definition buf0 : list Z := replicate (Z.to_nat BUFSZ) 0.

Definition ln (s : string) : string := String.append s (String (Ascii.ascii_of_nat 10) EmptyString).
Definition str (s : list Z) : parg := AStr (Some s).

Definition on (b : bool) (m : U unit) : U unit := if b then m else mret tt.

(** [if(b){ printf(...); exit(1); }] *)
Definition bad (b : bool) (fmt : string) (ap : list parg) : U unit := on b (printf fmt ap;; exit 1).

Definition sbrk_ptr (n : Z) : U Z := r ← sbrk n; mret (u64 r).

(** [wait(&st)] *)
Definition wait_for (st : option Z) : U (Z * option Z) :=
  '(r, bs) ← trap SYS_wait;
  mret (r, match bs with [] => st | _ => Some (s32 (le_combine bs)) end).

(** [wait(&xstatus)], and what [xstatus] is then *)
Definition wait_xstatus : U Z := '(_, st) ← wait_for None; need "xstatus" st.

Definition O_CW : Z := Z.lor O_CREATE O_WRONLY.
Definition O_CWT : Z := Z.lor O_CW O_TRUNC.

(** System calls by their number, with addresses *)
Definition at_pipe (a : Z) : U Z := raw 4 [inl a].
Definition at_read (fd a n : Z) : U Z := raw 5 [inl fd; inl a; inl n].
Definition at_open (a mode : Z) : U Z := raw 15 [inl a; inl mode].
Definition at_write (fd a n : Z) : U Z := raw 16 [inl fd; inl a; inl n].
Definition at_unlink (a : Z) : U Z := raw 18 [inl a].
Definition at_link (a b : Z + list Z) : U Z := raw 19 [a; b].

(** The string at an address *)
Fixpoint load_str (fuel : nat) (a : Z) : U (list Z) :=
  match fuel with
  | O => Crash "string"
  | S fuel =>
    c ← load a 1;
    if c =? 0 then mret [0] else
    cs ← load_str fuel (u64 (a + 1));
    mret (c :: cs)
  end.

Definition wild : list Z := [0x80000000; 0x3fffffe000; 0x3ffffff000; 0x4000000000; 0xffffffffffffffff].

(** [int fds[2]; if(pipe(fds) < 0)] or [!= 0] *)
Definition pipe_or (ok : Z -> bool) (fmt : string) (ap : list parg) : U (Z * Z) :=
  '(r, fds) ← pipe;
  bad (negb (ok r)) fmt ap;;
  fd0 ← need "fds[0]" (fds !! 0%nat);
  fd1 ← need "fds[1]" (fds !! 1%nat);
  mret (fd0, fd1).

Definition nonneg (r : Z) : bool := negb (r <? 0).

(** ** Ridiculous pointers *)

Definition copyin (s : list Z) : U unit :=
  u_each wild (fun addr =>
    fd ← open (path "copyin1") O_CW;
    bad (fd <? 0) (ln "open(copyin1) failed") [];;
    n ← at_write fd addr 8192;
    bad (nonneg n) (ln "write(fd, %p, 8192) returned %d, not -1") [AU64 addr; AInt n];;
    close fd;;
    unlink (path "copyin1");;
    n ← at_write 1 addr 8192;
    bad (0 <? n) (ln "write(1, %p, 8192) returned %d, not -1 or 0") [AU64 addr; AInt n];;
    '(fd0, fd1) ← pipe_or nonneg (ln "pipe() failed") [];
    n ← at_write fd1 addr 8192;
    bad (0 <? n) (ln "write(pipe, %p, 8192) returned %d, not -1 or 0") [AU64 addr; AInt n];;
    close fd0;;
    close fd1;;
    mret tt).

Definition copyout (s : list Z) : U unit :=
  u_each (0 :: wild) (fun addr =>
    fd ← open (path "README") 0;
    bad (fd <? 0) (ln "open(README) failed") [];;
    n ← at_read fd addr 8192;
    bad (0 <? n) (ln "read(fd, %p, 8192) returned %d, not -1 or 0") [AU64 addr; AInt n];;
    close fd;;
    '(fd0, fd1) ← pipe_or nonneg (ln "pipe() failed") [];
    n ← write fd1 (bytes_of "x");
    bad (negb (n =? 1)) (ln "pipe write failed") [];;
    n ← at_read fd0 addr 8192;
    bad (0 <? n) (ln "read(pipe, %p, 8192) returned %d, not -1 or 0") [AU64 addr; AInt n];;
    close fd0;;
    close fd1;;
    mret tt).

Definition copyinstr1 (s : list Z) : U unit :=
  u_each wild (fun addr =>
    fd ← at_open addr O_CW;
    bad (nonneg fd) (ln "open(%p) returned %d, not -1") [AU64 addr; AInt fd]).

Definition copyinstr2 (s : list Z) : U unit :=
  let b := replicate 128 (chr "x") ++ [0] in
  ret ← unlink b;
  bad (negb (ret =? -1)) (ln "unlink(%s) returned %d, not -1") [str b; AInt ret];;
  fd ← open b O_CW;
  bad (negb (fd =? -1)) (ln "open(%s) returned %d, not -1") [str b; AInt fd];;
  ret ← link b b;
  bad (negb (ret =? -1)) (ln "link(%s, %s) returned %d, not -1") [str b; str b; AInt ret];;
  ret ← exec b [path "xx"];
  bad (negb (ret =? -1)) (ln "exec(%s) returned %d, not -1") [str b; AInt fd];;
  pid ← fork 1;
  bad (pid <? 0) (ln "fork failed") [];;
  on (pid =? 0) (
    let big := replicate 4096 (chr "x") ++ [0] in
    ret ← exec (path "echo") [big; big; big];
    bad (negb (ret =? -1)) (ln "exec(echo, BIG) returned %d, not -1") [AInt fd];;
    exit 747);;
  '(_, st) ← wait_for (Some 0);
  bad (negb (default 0 st =? 747)) (ln "exec(echo, BIG) succeeded, should have failed") [].

(** The calls of copyinstr3 that are given [b], the last byte of memory *)
Definition refuse_at (b : Z) (c : U Z) (fmt : string) (n : nat) (shown : Z -> Z) : U unit :=
  ret ← c;
  on (negb (ret =? -1)) (
    bs ← load_str 4096 b;
    printf fmt (replicate n (str bs) ++ [AInt (shown ret)]);;
    exit 1).

Definition copyinstr3 (s : list Z) : U unit :=
  sbrk 8192;;
  top ← sbrk_ptr 0;
  on (negb (top `mod` 4096 =? 0)) (sbrk (4096 - top `mod` 4096);; mret tt);;
  top ← sbrk_ptr 0;
  bad (negb (top `mod` 4096 =? 0)) (ln "oops") [];;
  let b := u64 (top - 1) in
  store b (bytes_of "x");;
  refuse_at b (at_unlink b) (ln "unlink(%s) returned %d, not -1") 1 (fun r => r);;
  fd ← at_open b O_CW;
  refuse_at b (mret fd) (ln "open(%s) returned %d, not -1") 1 (fun r => r);;
  refuse_at b (at_link (inl b) (inl b)) (ln "link(%s, %s) returned %d, not -1") 2 (fun r => r);;
  refuse_at b (exec_at (inl b) [inr (path "xx")]) (ln "exec(%s) returned %d, not -1") 1 (fun _ => fd).

Definition rwsbrk : U unit :=
  a ← sbrk_ptr 8192;
  bad (a =? 0xffffffffffffffff) (ln "sbrk(rwsbrk) failed") [];;
  r ← sbrk_ptr (-8192);
  bad (r =? 0xffffffffffffffff) (ln "sbrk(rwsbrk) shrink failed") [];;
  fd ← open (path "rwsbrk") O_CW;
  bad (fd <? 0) (ln "open(rwsbrk) failed") [];;
  n ← at_write fd (u64 (a + 4096)) 1024;
  bad (nonneg n) (ln "write(fd, %p, 1024) returned %d, not -1") [AU64 (u64 (a + 4096)); AInt n];;
  close fd;;
  unlink (path "rwsbrk");;
  fd ← open (path "README") O_RDONLY;
  bad (fd <? 0) (ln "open(rwsbrk) failed") [];;
  n ← at_read fd (u64 (a + 4096)) 10;
  bad (nonneg n) (ln "read(fd, %p, 10) returned %d, not -1") [AU64 (u64 (a + 4096)); AInt n];;
  close fd;;
  exit 0.

(** ** Truncation *)

Definition truncate1 (s : list Z) : U unit :=
  unlink (path "truncfile");;
  fd1 ← open (path "truncfile") O_CWT;
  write fd1 (bytes_of "abcd");;
  close fd1;;
  fd2 ← open (path "truncfile") O_RDONLY;
  '(n, _) ← read fd2 32;
  bad (negb (n =? 4)) (ln "%s: read %d bytes, wanted 4") [str s; AInt n];;
  fd1 ← open (path "truncfile") (Z.lor O_WRONLY O_TRUNC);
  fd3 ← open (path "truncfile") O_RDONLY;
  '(n, _) ← read fd3 32;
  on (negb (n =? 0)) (
    printf (ln "aaa fd3=%d") [AInt fd3];;
    printf (ln "%s: read %d bytes, wanted 0") [str s; AInt n];;
    exit 1);;
  '(n, _) ← read fd2 32;
  on (negb (n =? 0)) (
    printf (ln "bbb fd2=%d") [AInt fd2];;
    printf (ln "%s: read %d bytes, wanted 0") [str s; AInt n];;
    exit 1);;
  write fd1 (bytes_of "abcdef");;
  '(n, _) ← read fd3 32;
  bad (negb (n =? 6)) (ln "%s: read %d bytes, wanted 6") [str s; AInt n];;
  '(n, _) ← read fd2 32;
  bad (negb (n =? 2)) (ln "%s: read %d bytes, wanted 2") [str s; AInt n];;
  unlink (path "truncfile");;
  close fd1;;
  close fd2;;
  close fd3;;
  mret tt.

Definition truncate2 (s : list Z) : U unit :=
  unlink (path "truncfile");;
  fd1 ← open (path "truncfile") O_CWT;
  write fd1 (bytes_of "abcd");;
  fd2 ← open (path "truncfile") (Z.lor O_TRUNC O_WRONLY);
  n ← write fd1 (bytes_of "x");
  bad (negb (n =? -1)) (ln "%s: write returned %d, expected -1") [str s; AInt n];;
  unlink (path "truncfile");;
  close fd1;;
  close fd2;;
  mret tt.

Definition truncate3 (s : list Z) : U unit :=
  fd ← open (path "truncfile") O_CWT;
  close fd;;
  pid ← fork 1;
  bad (pid <? 0) (ln "%s: fork failed") [str s];;
  on (pid =? 0) (
    u_each (seq 0 100) (fun _ =>
      fd ← open (path "truncfile") O_WRONLY;
      bad (fd <? 0) (ln "%s: open failed") [str s];;
      n ← write fd (bytes_of "1234567890");
      bad (negb (n =? 10)) (ln "%s: write got %d, expected 10") [str s; AInt n];;
      close fd;;
      fd ← open (path "truncfile") O_RDONLY;
      read fd 32;;
      close fd;;
      mret tt);;
    exit 0);;
  u_each (seq 0 150) (fun _ =>
    fd ← open (path "truncfile") O_CWT;
    bad (fd <? 0) (ln "%s: open failed") [str s];;
    n ← write fd (bytes_of "xxx");
    bad (negb (n =? 3)) (ln "%s: write got %d, expected 3") [str s; AInt n];;
    close fd;;
    mret tt);;
  '(_, st) ← wait_for None;
  unlink (path "truncfile");;
  xstatus ← need "xstatus" st;
  exit xstatus.

(** ** References to inodes *)

Definition iputtest (s : list Z) : U unit :=
  r ← mkdir (path "iputdir");
  bad (r <? 0) (ln "%s: mkdir failed") [str s];;
  r ← chdir (path "iputdir");
  bad (r <? 0) (ln "%s: chdir iputdir failed") [str s];;
  r ← unlink (path "../iputdir");
  bad (r <? 0) (ln "%s: unlink ../iputdir failed") [str s];;
  r ← chdir (path "/");
  bad (r <? 0) (ln "%s: chdir / failed") [str s].

Definition exitiputtest (s : list Z) : U unit :=
  pid ← fork 1;
  bad (pid <? 0) (ln "%s: fork failed") [str s];;
  on (pid =? 0) (
    r ← mkdir (path "iputdir");
    bad (r <? 0) (ln "%s: mkdir failed") [str s];;
    r ← chdir (path "iputdir");
    bad (r <? 0) (ln "%s: child chdir failed") [str s];;
    r ← unlink (path "../iputdir");
    bad (r <? 0) (ln "%s: unlink ../iputdir failed") [str s];;
    exit 0);;
  xstatus ← wait_xstatus;
  exit xstatus.

Definition openiputtest (s : list Z) : U unit :=
  r ← mkdir (path "oidir");
  bad (r <? 0) (ln "%s: mkdir oidir failed") [str s];;
  pid ← fork 1;
  bad (pid <? 0) (ln "%s: fork failed") [str s];;
  on (pid =? 0) (
    fd ← open (path "oidir") O_RDWR;
    bad (nonneg fd) (ln "%s: open directory for write succeeded") [str s];;
    exit 0);;
  sleep 1;;
  r ← unlink (path "oidir");
  bad (negb (r =? 0)) (ln "%s: unlink failed") [str s];;
  xstatus ← wait_xstatus;
  exit xstatus.

(** ** Simple file system tests *)

Definition opentest (s : list Z) : U unit :=
  fd ← open (path "echo") 0;
  bad (fd <? 0) (ln "%s: open echo failed!") [str s];;
  close fd;;
  fd ← open (path "doesnotexist") 0;
  bad (nonneg fd) (ln "%s: open doesnotexist succeeded!") [str s].

Definition writetest (s : list Z) : U unit :=
  fd ← open (path "small") O_NEW;
  bad (fd <? 0) (ln "%s: error: creat small failed!") [str s];;
  u_each (seq 0 100) (fun i =>
    r ← write fd (bytes_of "aaaaaaaaaa");
    bad (negb (r =? 10)) (ln "%s: error: write aa %d new file failed") [str s; AInt (Z.of_nat i)];;
    r ← write fd (bytes_of "bbbbbbbbbb");
    bad (negb (r =? 10)) (ln "%s: error: write bb %d new file failed") [str s; AInt (Z.of_nat i)]);;
  close fd;;
  fd ← open (path "small") O_RDONLY;
  bad (fd <? 0) (ln "%s: error: open small failed!") [str s];;
  '(i, _) ← read fd 2000;
  bad (negb (i =? 2000)) (ln "%s: read failed") [str s];;
  close fd;;
  r ← unlink (path "small");
  bad (r <? 0) (ln "%s: unlink small failed") [str s].

(** [MAXFILE] *)
Definition MAXBLOCKS : nat := 12 + 256.

(** The loop that reads the file back *)
Fixpoint writebig_read (fuel : nat) (s : list Z) (fd : Z) (buf : list Z) (n : Z) : U unit :=
  match fuel with
  | O => Crash "writebig fuel"
  | S fuel =>
    '(i, bs) ← read fd 1024;
    let buf := write_at 0 bs buf in
    if i =? 0 then bad (negb (n =? Z.of_nat MAXBLOCKS)) "%s: read only %d blocks from big" [str s; AInt n]
    else
      bad (negb (i =? 1024)) (ln "%s: read failed %d") [str s; AInt i];;
      let x := s32 (field buf 0 4) in
      bad (negb (x =? n)) (ln "%s: read content of block %d is %d") [str s; AInt n; AInt x];;
      writebig_read fuel s fd buf (n + 1)
  end.

Definition writebig (fuel : nat) (s : list Z) : U unit :=
  fd ← open (path "big") O_NEW;
  bad (fd <? 0) (ln "%s: error: creat big failed!") [str s];;
  buf ← u_fold (seq 0 MAXBLOCKS) (fun buf i =>
    let buf := write_at 0 (le_split 4 (Z.of_nat i)) buf in
    r ← write fd (take 1024 buf);
    bad (negb (r =? 1024)) (ln "%s: error: write big file failed i=%d") [str s; AInt (Z.of_nat i)];;
    mret buf) buf0;
  close fd;;
  fd ← open (path "big") O_RDONLY;
  bad (fd <? 0) (ln "%s: error: open big failed!") [str s];;
  writebig_read fuel s fd buf 0;;
  close fd;;
  r ← unlink (path "big");
  bad (r <? 0) (ln "%s: unlink big failed") [str s].

(** A name of two characters *)
Definition name2 (c : string) (i : nat) : list Z := [chr c; u8 (chr "0" + Z.of_nat i); 0].

Definition createtest (s : list Z) : U unit :=
  u_each (seq 0 52) (fun i => fd ← open (name2 "a" i) O_NEW; close fd;; mret tt);;
  u_each (seq 0 52) (fun i => unlink (name2 "a" i);; mret tt).

Definition dirtest (s : list Z) : U unit :=
  r ← mkdir (path "dir0");
  bad (r <? 0) (ln "%s: mkdir failed") [str s];;
  r ← chdir (path "dir0");
  bad (r <? 0) (ln "%s: chdir dir0 failed") [str s];;
  r ← chdir (path "..");
  bad (r <? 0) (ln "%s: chdir .. failed") [str s];;
  r ← unlink (path "dir0");
  bad (r <? 0) (ln "%s: unlink dir0 failed") [str s].

Definition exectest (s : list Z) : U unit :=
  unlink (path "echo-ok");;
  pid ← fork 1;
  bad (pid <? 0) (ln "%s: fork failed") [str s];;
  on (pid =? 0) (
    close 1;;
    fd ← open (path "echo-ok") O_CW;
    bad (fd <? 0) (ln "%s: create failed") [str s];;
    bad (negb (fd =? 1)) (ln "%s: wrong fd") [str s];;
    r ← exec (path "echo") [path "echo"; path "OK"];
    bad (r <? 0) (ln "%s: exec echo failed") [str s]);;
  '(r, st) ← wait_for None;
  on (negb (r =? pid)) (printf (ln "%s: wait failed!") [str s]);;
  xstatus ← need "xstatus" st;
  on (negb (xstatus =? 0)) (exit xstatus);;
  fd ← open (path "echo-ok") O_RDONLY;
  bad (fd <? 0) (ln "%s: open failed") [str s];;
  '(r, buf) ← read fd 2;
  bad (negb (r =? 2)) (ln "%s: read failed") [str s];;
  unlink (path "echo-ok");;
  b0 ← need "buf[0]" (buf !! 0%nat);
  b1 ← need "buf[1]" (buf !! 1%nat);
  if (b0 =? chr "O") && (b1 =? chr "K") then exit 0
  else printf (ln "%s: wrong output") [str s];; exit 1.

(** ** More file system tests *)

(** [while((n = read(fd, buf, sz)) > 0) body]: [body] is given [n] and [buf]. *)
Fixpoint read_all {A} (fuel : nat) (fd sz : Z) (body : A -> Z -> list Z -> U A) (acc : A) (buf : list Z) : U A :=
  match fuel with
  | O => Crash "read fuel"
  | S fuel =>
    '(n, bs) ← read fd sz;
    let buf := write_at 0 bs buf in
    if 0 <? n then acc ← body acc n buf; read_all fuel fd sz body acc buf else mret acc
  end.

Definition count (c : Z) (l : list Z) : Z := Z.of_nat (length (filter (fun x => x = c) l)).

Definition sharedfd (fuel : nat) (s : list Z) : U unit :=
  unlink (path "sharedfd");;
  fd ← open (path "sharedfd") O_NEW;
  bad (fd <? 0) "%s: cannot open sharedfd for writing" [str s];;
  pid ← fork 1;
  let buf := replicate 10 (if pid =? 0 then chr "c" else chr "p") in
  u_each (seq 0 1000) (fun _ =>
    r ← write fd buf;
    bad (negb (r =? 10)) (ln "%s: write sharedfd failed") [str s]);;
  (if pid =? 0 then exit 0 else
   xstatus ← wait_xstatus;
   on (negb (xstatus =? 0)) (exit xstatus));;
  close fd;;
  fd ← open (path "sharedfd") 0;
  bad (fd <? 0) (ln "%s: cannot open sharedfd for reading") [str s];;
  '(nc, np) ← read_all fuel fd 10 (fun '(nc, np) _ buf =>
    mret (nc + count (chr "c") buf, np + count (chr "p") buf)) (0, 0) buf;
  close fd;;
  unlink (path "sharedfd");;
  if (nc =? 10000) && (np =? 10000) then exit 0
  else printf (ln "%s: nc/np test fails") [str s];; exit 1.

(** [names[pi]] *)
Definition fname (pi : nat) : list Z := name2 "f" pi.

Definition fourfiles (fuel : nat) (s : list Z) : U unit :=
  u_each (seq 0 4) (fun pi =>
    unlink (fname pi);;
    pid ← fork 1;
    bad (pid <? 0) (ln "%s: fork12 failed") [str s];;
    on (pid =? 0) (
      fd ← open (fname pi) O_NEW;
      bad (fd <? 0) (ln "%s: create failed") [str s];;
      u_each (seq 0 12) (fun _ =>
        n ← write fd (replicate 500 (chr "0" + Z.of_nat pi));
        bad (negb (n =? 500)) (ln "write failed %d") [AInt n]);;
      exit 0));;
  u_fold (seq 0 4) (fun st _ =>
    '(_, st) ← wait_for st;
    xstatus ← need "xstatus" st;
    on (negb (xstatus =? 0)) (exit xstatus);;
    mret st) None;;
  u_each (seq 0 4) (fun i =>
    fd ← open (fname i) 0;
    total ← read_all fuel fd BUFSZ (fun total n buf =>
      bad (negb (forallb (fun c => c =? chr "0" + Z.of_nat i) (take (Z.to_nat n) buf))) (ln "%s: wrong char") [str s];;
      mret (s32 (total + n))) 0 buf0;
    close fd;;
    bad (negb (total =? 6000)) (ln "wrong length %d") [AInt total];;
    unlink (fname i);;
    mret tt).

(** [name[0] = 'p' + pi; name[1] = '0' + i;] *)
Definition pname (pi i : nat) : list Z := [chr "p" + Z.of_nat pi; chr "0" + Z.of_nat i; 0].

Definition createdelete (s : list Z) : U unit :=
  u_each (seq 0 4) (fun pi =>
    pid ← fork 1;
    bad (pid <? 0) (ln "%s: fork13 failed") [str s];;
    on (pid =? 0) (
      u_each (seq 0 20) (fun i =>
        fd ← open (pname pi i) O_NEW;
        bad (fd <? 0) (ln "%s: create failed") [str s];;
        close fd;;
        on ((0 <? i)%nat && (i mod 2 =? 0)%nat) (
          r ← unlink (pname pi (i / 2));
          bad (r <? 0) (ln "%s: unlink failed") [str s]));;
      exit 0));;
  u_fold (seq 0 4) (fun st _ =>
    '(_, st) ← wait_for st;
    xstatus ← need "xstatus" st;
    on (negb (xstatus =? 0)) (exit 1);;
    mret st) None;;
  u_each (seq 0 20) (fun i =>
    u_each (seq 0 4) (fun pi =>
      fd ← open (pname pi i) 0;
      (if ((i =? 0)%nat || (10 <=? i)%nat) && (fd <? 0) then
         printf (ln "%s: oops createdelete %s didn't exist") [str s; str (pname pi i)];; exit 1
       else if ((1 <=? i)%nat && (i <? 10)%nat) && nonneg fd then
         printf (ln "%s: oops createdelete %s did exist") [str s; str (pname pi i)];; exit 1
       else mret tt);;
      on (nonneg fd) (close fd;; mret tt)));;
  u_each (seq 0 20) (fun i =>
    u_each (seq 0 4) (fun pi => unlink (pname pi i);; mret tt)).

Definition unlinkread (s : list Z) : U unit :=
  fd ← open (path "unlinkread") O_NEW;
  bad (fd <? 0) (ln "%s: create unlinkread failed") [str s];;
  write fd (bytes_of "hello");;
  close fd;;
  fd ← open (path "unlinkread") O_RDWR;
  bad (fd <? 0) (ln "%s: open unlinkread failed") [str s];;
  r ← unlink (path "unlinkread");
  bad (negb (r =? 0)) (ln "%s: unlink unlinkread failed") [str s];;
  fd1 ← open (path "unlinkread") O_NEW;
  write fd1 (bytes_of "yyy");;
  close fd1;;
  '(r, bs) ← read fd BUFSZ;
  let buf := write_at 0 bs buf0 in
  bad (negb (r =? 5)) "%s: unlinkread read failed" [str s];;
  bad (negb (default 0 (buf !! 0%nat) =? chr "h")) (ln "%s: unlinkread wrong data") [str s];;
  r ← write fd (take 10 buf);
  bad (negb (r =? 10)) (ln "%s: unlinkread write failed") [str s];;
  close fd;;
  unlink (path "unlinkread");;
  mret tt.

Definition linktest (s : list Z) : U unit :=
  unlink (path "lf1");;
  unlink (path "lf2");;
  fd ← open (path "lf1") O_NEW;
  bad (fd <? 0) (ln "%s: create lf1 failed") [str s];;
  r ← write fd (bytes_of "hello");
  bad (negb (r =? 5)) (ln "%s: write lf1 failed") [str s];;
  close fd;;
  r ← link (path "lf1") (path "lf2");
  bad (r <? 0) (ln "%s: link lf1 lf2 failed") [str s];;
  unlink (path "lf1");;
  r ← open (path "lf1") 0;
  bad (nonneg r) (ln "%s: unlinked lf1 but it is still there!") [str s];;
  fd ← open (path "lf2") 0;
  bad (fd <? 0) (ln "%s: open lf2 failed") [str s];;
  '(r, _) ← read fd BUFSZ;
  bad (negb (r =? 5)) (ln "%s: read lf2 failed") [str s];;
  close fd;;
  r ← link (path "lf2") (path "lf2");
  bad (nonneg r) (ln "%s: link lf2 lf2 succeeded! oops") [str s];;
  unlink (path "lf2");;
  r ← link (path "lf2") (path "lf1");
  bad (nonneg r) (ln "%s: link non-existent succeeded! oops") [str s];;
  r ← link (path ".") (path "lf1");
  bad (nonneg r) (ln "%s: link . lf1 succeeded! oops") [str s].

(** The files made, by a child or its parent *)
Definition concreate_make : U unit :=
  u_each (seq 0 40) (fun i =>
    let file := name2 "C" i in
    unlink file;;
    pid ← fork 1;
    (if (negb (pid =? 0) && (i mod 3 =? 1)%nat) || ((pid =? 0) && (i mod 5 =? 1)%nat) then link (path "C0") file;; mret tt
     else
       fd ← open file O_NEW;
       bad (fd <? 0) (ln "concreate create %s failed") [str file];;
       close fd;; mret tt);;
    if pid =? 0 then exit 0 else
    xstatus ← wait_xstatus;
    on (negb (xstatus =? 0)) (exit 1)).

(** [while(read(fd, &de, sizeof(de)) > 0)]: the number of names found, with
    [fa] the marks *)
Fixpoint concreate_list (fuel : nat) (s : list Z) (fd : Z) (de : list Z) (fa : list bool) (n : Z) : U Z :=
  match fuel with
  | O => Crash "concreate fuel"
  | S fuel =>
    '(r, bs) ← read fd 16;
    let de := write_at 0 bs de in
    if 0 <? r then
      if field de 0 2 =? 0 then concreate_list fuel s fd de fa n else
      c0 ← need "de.name[0]" (de !! 2%nat);
      c1 ← need "de.name[1]" (de !! 3%nat);
      c2 ← need "de.name[2]" (de !! 4%nat);
      if (c0 =? chr "C") && (c2 =? 0) then
        let i := c1 - chr "0" in
        bad ((i <? 0) || (40 <=? i)) (ln "%s: concreate weird file %s") [str s; str (drop 2 de)];;
        bad (default false (fa !! Z.to_nat i)) (ln "%s: concreate duplicate file %s") [str s; str (drop 2 de)];;
        concreate_list fuel s fd de (<[Z.to_nat i := true]> fa) (n + 1)
      else concreate_list fuel s fd de fa n
    else mret n
  end.

Definition concreate (fuel : nat) (s : list Z) : U unit :=
  concreate_make;;
  fd ← open (path ".") 0;
  n ← concreate_list fuel s fd [] (replicate 40 false) 0;
  close fd;;
  bad (negb (n =? 40)) (ln "%s: concreate not enough files in directory listing") [str s];;
  u_each (seq 0 40) (fun i =>
    let file := name2 "C" i in
    pid ← fork 1;
    bad (pid <? 0) (ln "%s: fork14 failed") [str s];;
    (if ((i mod 3 =? 0)%nat && (pid =? 0)) || ((i mod 3 =? 1)%nat && negb (pid =? 0)) then
       u_each (seq 0 6) (fun _ => fd ← open file 0; close fd;; mret tt)
     else u_each (seq 0 6) (fun _ => unlink file;; mret tt));;
    if pid =? 0 then exit 0 else wait;; mret tt).

Definition linkunlink (s : list Z) : U unit :=
  unlink (path "x");;
  pid ← fork 1;
  bad (pid <? 0) (ln "%s: fork15 failed") [str s];;
  u_fold (seq 0 100) (fun x _ =>
    let x := u32 (x * 1103515245 + 12345) in
    (if x `mod` 3 =? 0 then fd ← open (path "x") O_NEW; close fd;; mret tt
     else if x `mod` 3 =? 1 then link (path "cat") (path "x");; mret tt
     else unlink (path "x");; mret tt);;
    mret x) (if pid =? 0 then 97 else 1);;
  if pid =? 0 then exit 0 else wait;; mret tt.

(** ** Directories *)

(** [if(act(p) ok){ printf(...); exit(1); }] *)
Definition must (r : U Z) (b : Z -> bool) (s : list Z) (msg : string) : U unit :=
  r ← r;
  bad (b r) (ln (String.append "%s: " msg)) [str s].

Definition zero (r : Z) : bool := r =? 0.
Definition nonzero (r : Z) : bool := negb (r =? 0).
Definition negative (r : Z) : bool := r <? 0.

(** The files and links that subdir makes, to the change of directory *)
Definition subdir_make (s : list Z) : U unit :=
  unlink (path "ff");;
  must (mkdir (path "dd")) nonzero s "mkdir dd failed";;
  fd ← open (path "dd/ff") O_NEW;
  bad (fd <? 0) (ln "%s: create dd/ff failed") [str s];;
  write fd (bytes_of "ff");;
  close fd;;
  must (unlink (path "dd")) nonneg s "unlink dd (non-empty dir) succeeded!";;
  must (mkdir (path "/dd/dd")) nonzero s "subdir mkdir dd/dd failed";;
  fd ← open (path "dd/dd/ff") O_NEW;
  bad (fd <? 0) (ln "%s: create dd/dd/ff failed") [str s];;
  write fd (bytes_of "FF");;
  close fd;;
  fd ← open (path "dd/dd/../ff") 0;
  bad (fd <? 0) (ln "%s: open dd/dd/../ff failed") [str s];;
  '(cc, bs) ← read fd BUFSZ;
  bad (negb (cc =? 2) || negb (default 0 (write_at 0 bs buf0 !! 0%nat) =? chr "f")) (ln "%s: dd/dd/../ff wrong content") [str s];;
  close fd;;
  must (link (path "dd/dd/ff") (path "dd/dd/ffff")) nonzero s "link dd/dd/ff dd/dd/ffff failed";;
  must (unlink (path "dd/dd/ff")) nonzero s "unlink dd/dd/ff failed";;
  must (open (path "dd/dd/ff") O_RDONLY) nonneg s "open (unlinked) dd/dd/ff succeeded";;
  must (chdir (path "dd")) nonzero s "chdir dd failed";;
  must (chdir (path "dd/../../dd")) nonzero s "chdir dd/../../dd failed";;
  must (chdir (path "dd/../../../dd")) nonzero s "chdir dd/../../../dd failed";;
  must (chdir (path "./..")) nonzero s "chdir ./.. failed".

(** What must fail then *)
Definition subdir_refused (s : list Z) : U unit :=
  must (open (path "dd/dd/ff") O_RDONLY) nonneg s "open (unlinked) dd/dd/ff succeeded!";;
  must (open (path "dd/ff/ff") O_NEW) nonneg s "create dd/ff/ff succeeded!";;
  must (open (path "dd/xx/ff") O_NEW) nonneg s "create dd/xx/ff succeeded!";;
  must (open (path "dd") O_CREATE) nonneg s "create dd succeeded!";;
  must (open (path "dd") O_RDWR) nonneg s "open dd rdwr succeeded!";;
  must (open (path "dd") O_WRONLY) nonneg s "open dd wronly succeeded!";;
  must (link (path "dd/ff/ff") (path "dd/dd/xx")) zero s "link dd/ff/ff dd/dd/xx succeeded!";;
  must (link (path "dd/xx/ff") (path "dd/dd/xx")) zero s "link dd/xx/ff dd/dd/xx succeeded!";;
  must (link (path "dd/ff") (path "dd/dd/ffff")) zero s "link dd/ff dd/dd/ffff succeeded!";;
  must (mkdir (path "dd/ff/ff")) zero s "mkdir dd/ff/ff succeeded!";;
  must (mkdir (path "dd/xx/ff")) zero s "mkdir dd/xx/ff succeeded!";;
  must (mkdir (path "dd/dd/ffff")) zero s "mkdir dd/dd/ffff succeeded!";;
  must (unlink (path "dd/xx/ff")) zero s "unlink dd/xx/ff succeeded!";;
  must (unlink (path "dd/ff/ff")) zero s "unlink dd/ff/ff succeeded!";;
  must (chdir (path "dd/ff")) zero s "chdir dd/ff succeeded!";;
  must (chdir (path "dd/xx")) zero s "chdir dd/xx succeeded!".

Definition subdir (s : list Z) : U unit :=
  subdir_make s;;
  fd ← open (path "dd/dd/ffff") 0;
  bad (fd <? 0) (ln "%s: open dd/dd/ffff failed") [str s];;
  '(r, _) ← read fd BUFSZ;
  bad (negb (r =? 2)) (ln "%s: read dd/dd/ffff wrong len") [str s];;
  close fd;;
  subdir_refused s;;
  must (unlink (path "dd/dd/ffff")) nonzero s "unlink dd/dd/ff failed";;
  must (unlink (path "dd/ff")) nonzero s "unlink dd/ff failed";;
  must (unlink (path "dd")) zero s "unlink non-empty dd succeeded!";;
  must (unlink (path "dd/dd")) negative s "unlink dd/dd failed";;
  must (unlink (path "dd")) negative s "unlink dd failed".

(** [for(sz = 499; sz < (MAXOPBLOCKS+2)*BSIZE; sz += 471)] *)
Definition bigwrite_sizes : list Z := filter (fun sz => sz < BUFSZ) ((fun k => 499 + 471 * Z.of_nat k) <$> seq 0 (Z.to_nat BUFSZ)).

Definition bigwrite (s : list Z) : U unit :=
  unlink (path "bigwrite");;
  u_each bigwrite_sizes (fun sz =>
    fd ← open (path "bigwrite") O_NEW;
    bad (fd <? 0) (ln "%s: cannot create bigwrite") [str s];;
    u_each (seq 0 2) (fun _ =>
      cc ← write fd (take (Z.to_nat sz) buf0);
      bad (negb (cc =? sz)) (ln "%s: write(%d) ret %d") [str s; AInt sz; AInt cc]);;
    close fd;;
    unlink (path "bigwrite");;
    mret tt).

(** The loop of bigfile that reads: the total *)
Fixpoint bigfile_read (fuel : nat) (s : list Z) (fd : Z) (buf : list Z) (i total : Z) : U Z :=
  match fuel with
  | O => Crash "bigfile fuel"
  | S fuel =>
    '(cc, bs) ← read fd 300;
    let buf := write_at 0 bs buf in
    bad (cc <? 0) (ln "%s: read bigfile failed") [str s];;
    if cc =? 0 then mret total else
    bad (negb (cc =? 300)) (ln "%s: short read bigfile") [str s];;
    bad (negb (default 0 (buf !! 0%nat) =? i / 2) || negb (default 0 (buf !! 299%nat) =? i / 2)) (ln "%s: read bigfile wrong data") [str s];;
    bigfile_read fuel s fd buf (i + 1) (total + cc)
  end.

Definition bigfile (fuel : nat) (s : list Z) : U unit :=
  unlink (path "bigfile.dat");;
  fd ← open (path "bigfile.dat") O_NEW;
  bad (fd <? 0) "%s: cannot create bigfile" [str s];;
  buf ← u_fold (seq 0 20) (fun buf i =>
    let buf := write_at 0 (replicate 600 (Z.of_nat i)) buf in
    r ← write fd (take 600 buf);
    bad (negb (r =? 600)) (ln "%s: write bigfile failed") [str s];;
    mret buf) buf0;
  close fd;;
  fd ← open (path "bigfile.dat") 0;
  bad (fd <? 0) (ln "%s: cannot open bigfile") [str s];;
  total ← bigfile_read fuel s fd buf 0 0;
  close fd;;
  bad (negb (total =? 12000)) (ln "%s: read bigfile wrong total") [str s];;
  unlink (path "bigfile.dat");;
  mret tt.

Definition fourteen (s : list Z) : U unit :=
  must (mkdir (path "12345678901234")) nonzero s "mkdir 12345678901234 failed";;
  must (mkdir (path "12345678901234/123456789012345")) nonzero s "mkdir 12345678901234/123456789012345 failed";;
  fd ← open (path "123456789012345/123456789012345/123456789012345") O_CREATE;
  bad (fd <? 0) (ln "%s: create 123456789012345/123456789012345/123456789012345 failed") [str s];;
  close fd;;
  fd ← open (path "12345678901234/12345678901234/12345678901234") 0;
  bad (fd <? 0) (ln "%s: open 12345678901234/12345678901234/12345678901234 failed") [str s];;
  close fd;;
  must (mkdir (path "12345678901234/12345678901234")) zero s "mkdir 12345678901234/12345678901234 succeeded!";;
  must (mkdir (path "123456789012345/12345678901234")) zero s "mkdir 12345678901234/123456789012345 succeeded!";;
  unlink (path "123456789012345/12345678901234");;
  unlink (path "12345678901234/12345678901234");;
  unlink (path "12345678901234/12345678901234/12345678901234");;
  unlink (path "123456789012345/123456789012345/123456789012345");;
  unlink (path "12345678901234/123456789012345");;
  unlink (path "12345678901234");;
  mret tt.

Definition rmdot (s : list Z) : U unit :=
  must (mkdir (path "dots")) nonzero s "mkdir dots failed";;
  must (chdir (path "dots")) nonzero s "chdir dots failed";;
  must (unlink (path ".")) zero s "rm . worked!";;
  must (unlink (path "..")) zero s "rm .. worked!";;
  must (chdir (path "/")) nonzero s "chdir / failed";;
  must (unlink (path "dots/.")) zero s "unlink dots/. worked!";;
  must (unlink (path "dots/..")) zero s "unlink dots/.. worked!";;
  must (unlink (path "dots")) nonzero s "unlink dots failed!".

Definition dirfile (s : list Z) : U unit :=
  fd ← open (path "dirfile") O_CREATE;
  bad (fd <? 0) (ln "%s: create dirfile failed") [str s];;
  close fd;;
  must (chdir (path "dirfile")) zero s "chdir dirfile succeeded!";;
  must (open (path "dirfile/xx") 0) nonneg s "create dirfile/xx succeeded!";;
  must (open (path "dirfile/xx") O_CREATE) nonneg s "create dirfile/xx succeeded!";;
  must (mkdir (path "dirfile/xx")) zero s "mkdir dirfile/xx succeeded!";;
  must (unlink (path "dirfile/xx")) zero s "unlink dirfile/xx succeeded!";;
  must (link (path "README") (path "dirfile/xx")) zero s "link to dirfile/xx succeeded!";;
  must (unlink (path "dirfile")) nonzero s "unlink dirfile failed!";;
  must (open (path ".") O_RDWR) nonneg s "open . for writing succeeded!";;
  fd ← open (path ".") 0;
  must (write fd (bytes_of "x")) (fun r => 0 <? r) s "write . succeeded!";;
  close fd;;
  mret tt.

(** The empty path *)
Definition no_path : list Z := [0].

Definition iref (s : list Z) : U unit :=
  u_each (seq 0 51) (fun _ =>
    must (mkdir (path "irefd")) nonzero s "mkdir irefd failed";;
    must (chdir (path "irefd")) nonzero s "chdir irefd failed";;
    mkdir no_path;;
    link (path "README") no_path;;
    fd ← open no_path O_CREATE;
    on (nonneg fd) (close fd;; mret tt);;
    fd ← open (path "xx") O_CREATE;
    on (nonneg fd) (close fd;; mret tt);;
    unlink (path "xx");;
    mret tt);;
  u_each (seq 0 51) (fun _ =>
    chdir (path "..");;
    unlink (path "irefd");;
    mret tt);;
  chdir (path "/");;
  mret tt.
