(* ===== verification/UsertestsProc.v ===== *)
(** * usertests: processes and memory

    user/usertests.c, the tests of pipes, fork, wait and kill, those of sbrk, and
    those that touch memory a process does not have.  [fuel] as in [Usertests]. *)

From S2P Require Import Prelude Prog CStr User Ulib Uprintf Programs Grind Usertests.

(** ** Pipes and processes *)

(** [for(;;);]: the process does nothing until it is killed. *)
Definition spin : U unit := Crash "for(;;)".

(** What [seq++] stores, from [k] on *)
Definition numbers (k n : nat) : list Z := (fun i => u8 (Z.of_nat i)) <$> seq k n.

(** The parent's loop: [None] if it gives up, else the total *)
Fixpoint pipe1_read (fuel : nat) (s : list Z) (fd : Z) (buf : list Z) (cc : Z) (sq : nat) (total : Z) : U (option Z) :=
  match fuel with
  | O => Crash "pipe1 fuel"
  | S fuel =>
    '(n, bs) ← read fd cc;
    let buf := write_at 0 bs buf in
    if 0 <? n then
      if negb (bool_decide (take (Z.to_nat n) buf = numbers sq (Z.to_nat n))) then
        printf (ln "%s: pipe1 oops 2") [str s];; mret None
      else
        let cc := s32 (cc * 2) in
        pipe1_read fuel s fd buf (if BUFSZ <? cc then BUFSZ else cc) (sq + Z.to_nat n)%nat (total + n)
    else mret (Some total)
  end.

Definition pipe1 (fuel : nat) (s : list Z) : U unit :=
  '(fd0, fd1) ← pipe_or zero (ln "%s: pipe() failed") [str s];
  pid ← fork 1;
  if pid =? 0 then
    close fd0;;
    u_each (seq 0 5) (fun n =>
      r ← write fd1 (numbers (n * 1033) 1033);
      bad (negb (r =? 1033)) (ln "%s: pipe1 oops 1") [str s]);;
    exit 0
  else if 0 <? pid then
    close fd1;;
    r ← pipe1_read fuel s fd0 buf0 1 0 0;
    match r with
    | None => mret tt
    | Some total =>
      bad (negb (total =? 5165)) (ln "%s: pipe1 oops 3 total %d") [str s; AInt total];;
      close fd0;;
      xstatus ← wait_xstatus;
      exit xstatus
    end
  else printf (ln "%s: fork(1) failed") [str s];; exit 1.

(** [while(1) getpid();] *)
Fixpoint getpid_loop (fuel : nat) : U unit :=
  match fuel with
  | O => spin
  | S fuel => getpid;; getpid_loop fuel
  end.

Definition killstatus (fuel : nat) (s : list Z) : U unit :=
  u_fold (seq 0 100) (fun xst _ =>
    pid1 ← fork 1;
    bad (pid1 <? 0) (ln "%s: fork2 failed") [str s];;
    on (pid1 =? 0) (getpid_loop fuel;; exit 0);;
    sleep 1;;
    kill pid1;;
    '(_, xst) ← wait_for xst;
    x ← need "xst" xst;
    bad (negb (x =? -1)) (ln "%s: status should be -1") [str s];;
    mret xst) None;;
  exit 0.

Definition preempt (s : list Z) : U unit :=
  pid1 ← fork 1;
  bad (pid1 <? 0) "%s: fork3 failed" [str s];;
  on (pid1 =? 0) spin;;
  pid2 ← fork 1;
  bad (pid2 <? 0) (ln "%s: fork4 failed") [str s];;
  on (pid2 =? 0) spin;;
  '(_, pfds) ← pipe;
  pid3 ← fork 1;
  bad (pid3 <? 0) (ln "%s: fork5 failed") [str s];;
  pfd0 ← need "pfds[0]" (pfds !! 0%nat);
  pfd1 ← need "pfds[1]" (pfds !! 1%nat);
  on (pid3 =? 0) (
    close pfd0;;
    r ← write pfd1 (bytes_of "x");
    on (negb (r =? 1)) (printf "%s: preempt write error" [str s]);;
    close pfd1;;
    spin);;
  close pfd1;;
  '(r, _) ← read pfd0 BUFSZ;
  if negb (r =? 1) then printf "%s: preempt read error" [str s] else
  close pfd0;;
  printf "kill... " [];;
  kill pid1;;
  kill pid2;;
  kill pid3;;
  printf "wait... " [];;
  wait;;
  wait;;
  wait;;
  mret tt.

Definition exitwait (s : list Z) : U unit :=
  u_each (seq 0 100) (fun i =>
    pid ← fork 1;
    bad (pid <? 0) (ln "%s: fork 5failed") [str s];;
    if negb (pid =? 0) then
      '(r, st) ← wait_for None;
      bad (negb (r =? pid)) (ln "%s: wait wrong pid") [str s];;
      xstate ← need "xstate" st;
      bad (negb (Z.of_nat i =? xstate)) (ln "%s: wait wrong exit status") [str s]
    else exit (Z.of_nat i)).

Definition reparent (s : list Z) : U unit :=
  master_pid ← getpid;
  u_each (seq 0 200) (fun _ =>
    pid ← fork 1;
    bad (pid <? 0) (ln "%s: fork6 failed") [str s];;
    if negb (pid =? 0) then
      r ← wait;
      bad (negb (r =? pid)) (ln "%s: wait wrong pid") [str s]
    else
      pid2 ← fork 1;
      on (pid2 <? 0) (kill master_pid;; exit 1);;
      exit 0);;
  exit 0.

Definition twochildren (s : list Z) : U unit :=
  u_each (seq 0 1000) (fun _ =>
    pid1 ← fork 1;
    bad (pid1 <? 0) (ln "%s: fork7 failed") [str s];;
    if pid1 =? 0 then exit 0 else
    pid2 ← fork 1;
    bad (pid2 <? 0) (ln "%s: fork8 failed") [str s];;
    if pid2 =? 0 then exit 0 else
    wait;;
    wait;;
    mret tt).

Definition forkfork (s : list Z) : U unit :=
  u_each (seq 0 2) (fun _ =>
    pid ← fork 1;
    bad (pid <? 0) "%s: fork9 failed" [str s];;
    on (pid =? 0) (
      u_each (seq 0 200) (fun _ =>
        pid1 ← fork 1;
        on (pid1 <? 0) (exit 1);;
        on (pid1 =? 0) (exit 0);;
        wait;;
        mret tt);;
      exit 0));;
  u_fold (seq 0 2) (fun st _ =>
    '(_, st) ← wait_for st;
    xstatus ← need "xstatus" st;
    bad (negb (xstatus =? 0)) "%s: fork in child failed" [str s];;
    mret st) None;;
  mret tt.

(** The child's loop *)
Fixpoint forks_until_stopped (fuel : nat) : U unit :=
  match fuel with
  | O => spin
  | S fuel =>
    fd ← open (path "stopforking") 0;
    on (nonneg fd) (exit 0);;
    r ← fork 1;
    on (r <? 0) (fd ← open (path "stopforking") O_NEW; close fd;; mret tt);;
    forks_until_stopped fuel
  end.

Definition forkforkfork (fuel : nat) (s : list Z) : U unit :=
  unlink (path "stopforking");;
  pid ← fork 1;
  bad (pid <? 0) "%s: fork10 failed" [str s];;
  on (pid =? 0) (forks_until_stopped fuel;; exit 0);;
  sleep 20;;
  fd ← open (path "stopforking") O_NEW;
  close fd;;
  wait;;
  sleep 10;;
  mret tt.

Definition reparent2 (s : list Z) : U unit :=
  u_each (seq 0 800) (fun _ =>
    pid1 ← fork 1;
    bad (pid1 <? 0) (ln "fork11 failed") [];;
    on (pid1 =? 0) (fork 1;; fork 1;; exit 0);;
    wait;;
    mret tt);;
  exit 0.

(** [while((m2 = malloc(10001)) != 0)]: the list of blocks *)
Fixpoint mem_take (fuel : nat) (m1 : Z) : U Z :=
  match fuel with
  | O => Crash "mem fuel"
  | S fuel =>
    m2 ← malloc 10001;
    if m2 =? 0 then mret m1 else
    store m2 (le_split 8 m1);;
    mem_take fuel m2
  end.

(** [while(m1)] *)
Fixpoint mem_give (fuel : nat) (m1 : Z) : U unit :=
  match fuel with
  | O => Crash "mem fuel"
  | S fuel =>
    if m1 =? 0 then mret tt else
    m2 ← load m1 8;
    free m1;;
    mem_give fuel m2
  end.

Definition mem (fuel : nat) (s : list Z) : U unit :=
  pid ← fork 1;
  if pid =? 0 then
    m1 ← mem_take fuel 0;
    mem_give fuel m1;;
    m1 ← malloc 20480;
    bad (m1 =? 0) (ln "%s: couldn't allocate mem?!!") [str s];;
    free m1;;
    exit 0
  else
    xstatus ← wait_xstatus;
    on (xstatus =? -1) (exit 0);;
    exit xstatus.

(** [for(n = 0; n < N; n++)] *)
Definition forktest (s : list Z) : U unit :=
  n ← forktest_forks 1000 0;
  bad (n =? 0) (ln "%s: no fork at all!") [str s];;
  bad (n =? 1000) (ln "%s: fork claimed to work 1000 times!") [str s];;
  u_each (seq 0 (Z.to_nat n)) (fun _ =>
    r ← wait;
    bad (r <? 0) (ln "%s: wait stopped early") [str s]);;
  r ← wait;
  bad (negb (r =? -1)) (ln "%s: wait got too many") [str s].

(** ** Memory *)

Definition NO_MEMORY : Z := 0xffffffffffffffff.

(** [for(p = a; p < b; p += step)] *)
Definition steps (a b step : Z) : list Z := (fun k => a + step * Z.of_nat k) <$> seq 0 (Z.to_nat ((b - a + step - 1) / step)).

Definition sbrkbasic (s : list Z) : U unit :=
  let TOOMUCH := 1024 * 1024 * 1024 in
  pid ← fork 1;
  bad (pid <? 0) (ln "fork failed in sbrkbasic") [];;
  on (pid =? 0) (
    a ← sbrk_ptr TOOMUCH;
    on (a =? NO_MEMORY) (exit 0);;
    u_each (steps a (a + TOOMUCH) 4096) (fun b => store b [99]);;
    exit 1);;
  '(_, st) ← wait_for None;
  xstatus ← need "xstatus" st;
  bad (xstatus =? 1) (ln "%s: too much memory allocated!") [str s];;
  a ← sbrk_ptr 0;
  a ← u_fold (seq 0 5000) (fun a i =>
    b ← sbrk_ptr 1;
    bad (negb (b =? a)) (ln "%s: sbrk test failed %d %p %p") [str s; AInt (Z.of_nat i); AU64 a; AU64 b];;
    store b [1];;
    mret (u64 (b + 1))) a;
  pid ← fork 1;
  bad (pid <? 0) (ln "%s: sbrk test fork failed") [str s];;
  sbrk 1;;
  c ← sbrk_ptr 1;
  bad (negb (c =? u64 (a + 1))) (ln "%s: sbrk test failed post-fork") [str s];;
  on (pid =? 0) (exit 0);;
  '(_, st) ← wait_for st;
  xstatus ← need "xstatus" st;
  exit xstatus.

Definition BIG : Z := 100 * 1024 * 1024.

Definition sbrkmuch (s : list Z) : U unit :=
  oldbrk ← sbrk_ptr 0;
  a ← sbrk_ptr 0;
  p ← sbrk_ptr (s32 (BIG - a));
  bad (negb (p =? a)) (ln "%s: sbrk test failed to grow big address space; enough phys mem?") [str s];;
  eee ← sbrk_ptr 0;
  u_each (steps a eee 4096) (fun pp => store pp [1]);;
  store (BIG - 1) [99];;
  a ← sbrk_ptr 0;
  c ← sbrk_ptr (-4096);
  bad (c =? NO_MEMORY) (ln "%s: sbrk could not deallocate") [str s];;
  c ← sbrk_ptr 0;
  bad (negb (c =? u64 (a - 4096))) (ln "%s: sbrk deallocation produced wrong address, a %p c %p") [str s; AU64 a; AU64 c];;
  a ← sbrk_ptr 0;
  c ← sbrk_ptr 4096;
  wrong ← (if negb (c =? a) then mret true else top ← sbrk_ptr 0; mret (negb (top =? u64 (a + 4096))));
  bad wrong (ln "%s: sbrk re-allocation failed, a %p c %p") [str s; AU64 a; AU64 c];;
  x ← load (BIG - 1) 1;
  bad (x =? 99) (ln "%s: sbrk de-allocation didn't really deallocate") [str s];;
  a ← sbrk_ptr 0;
  top ← sbrk_ptr 0;
  c ← sbrk_ptr (s32 (- (top - oldbrk)));
  bad (negb (c =? a)) (ln "%s: sbrk downsize failed, a %p c %p") [str s; AU64 a; AU64 c].

(** ** Forbidden addresses *)

Definition kernmem (s : list Z) : U unit :=
  u_each (steps 0x80000000 (0x80000000 + 2000000) 50000) (fun a =>
    pid ← fork 1;
    bad (pid <? 0) (ln "%s: fork17 failed") [str s];;
    on (pid =? 0) (
      x ← load a 1;
      printf (ln "%s: oops could read %p = %x") [str s; AU64 a; AInt x];;
      exit 1);;
    xstatus ← wait_xstatus;
    on (negb (xstatus =? -1)) (exit 1)).

(** [for(a = MAXVA; a != 0; a <<= 1)] *)
Definition MAXVAplus (s : list Z) : U unit :=
  u_each (seq 38 26) (fun k =>
    let a := Z.shiftl 1 (Z.of_nat k) in
    pid ← fork 1;
    bad (pid <? 0) (ln "%s: fork 18failed") [str s];;
    on (pid =? 0) (
      store a [99];;
      printf (ln "%s: oops wrote %p") [str s; AU64 a];;
      exit 1);;
    xstatus ← wait_xstatus;
    on (negb (xstatus =? -1)) (exit 1)).

(** [for(;;) sleep(1000);] *)
Fixpoint doze (fuel : nat) : U unit :=
  match fuel with
  | O => spin
  | S fuel => sleep 1000;; doze fuel
  end.

Definition sbrkfail (fuel : nat) (s : list Z) : U unit :=
  '(fd0, fd1) ← pipe_or zero (ln "%s: pipe() failed") [str s];
  pids ← u_fold (seq 0 10) (fun pids _ =>
    pid ← fork 1;
    on (pid =? 0) (
      top ← sbrk_ptr 0;
      sbrk (s32 (BIG - top));;
      write fd1 (bytes_of "x");;
      doze fuel);;
    on (negb (pid =? -1)) (read fd0 1;; mret tt);;
    mret (pids ++ [pid])) [];
  c ← sbrk_ptr 4096;
  u_each pids (fun pid => on (negb (pid =? -1)) (kill pid;; wait;; mret tt));;
  bad (c =? NO_MEMORY) (ln "%s: failed sbrk leaked memory") [str s];;
  pid ← fork 1;
  bad (pid <? 0) (ln "%s: fork19 failed") [str s];;
  on (pid =? 0) (
    a ← sbrk_ptr 0;
    sbrk (10 * BIG);;
    n ← u_fold (steps 0 (10 * BIG) 4096) (fun n i => x ← load (u64 (a + i)) 1; mret (s32 (n + x))) 0;
    printf (ln "%s: allocate a lot of memory succeeded %d") [str s; AInt n];;
    exit 1);;
  xstatus ← wait_xstatus;
  on (negb (xstatus =? -1) && negb (xstatus =? 2)) (exit 1).

Definition sbrkarg (s : list Z) : U unit :=
  a ← sbrk_ptr 4096;
  fd ← open (path "sbrk") O_CW;
  unlink (path "sbrk");;
  bad (fd <? 0) (ln "%s: open sbrk failed") [str s];;
  n ← at_write fd a 4096;
  bad (n <? 0) (ln "%s: write sbrk failed") [str s];;
  close fd;;
  a ← sbrk_ptr 4096;
  r ← at_pipe a;
  bad (negb (r =? 0)) (ln "%s: pipe() failed") [str s].

Definition validatetest (s : list Z) : U unit :=
  u_each (steps 0 (1100 * 1024 + 1) 4096) (fun p =>
    r ← at_link (inr (path "nosuchfile")) (inl p);
    bad (negb (r =? -1)) (ln "%s: link should not succeed") [str s]).

(** [char uninit[10000];] *)
Definition uninit : list Z := replicate (Z.to_nat 10000) 0.

Definition bsstest (s : list Z) : U unit :=
  bad (existsb (fun c => negb (c =? 0)) uninit) (ln "%s: bss test failed") [str s].

Definition bigargtest (s : list Z) : U unit :=
  unlink (path "bigarg-ok");;
  pid ← fork 1;
  (if pid =? 0 then
     exec (path "echo") (replicate 31 (replicate 399 (chr " ") ++ [0]));;
     fd ← open (path "bigarg-ok") O_CREATE;
     close fd;;
     exit 0
   else bad (pid <? 0) (ln "%s: bigargtest: fork failed") [str s]);;
  xstatus ← wait_xstatus;
  on (negb (xstatus =? 0)) (exit xstatus);;
  fd ← open (path "bigarg-ok") 0;
  bad (fd <? 0) (ln "%s: bigarg test failed!") [str s];;
  close fd;;
  mret tt.

(** [name], for the file [nfiles] of fsfull *)
Definition full_name (nfiles : nat) : list Z :=
  [chr "f"; u8 (chr "0" + Z.of_nat (nfiles / 1000)); u8 (chr "0" + Z.of_nat (nfiles mod 1000 / 100));
   u8 (chr "0" + Z.of_nat (nfiles mod 100 / 10)); u8 (chr "0" + Z.of_nat (nfiles mod 10)); 0].

(** [while(1)]: the bytes written to the file *)
Fixpoint fill_file (fuel : nat) (fd total : Z) : U Z :=
  match fuel with
  | O => Crash "fsfull fuel"
  | S fuel =>
    cc ← write fd (take 1024 buf0);
    if cc <? 1024 then mret total else fill_file fuel fd (s32 (total + cc))
  end.

(** The first loop of fsfull: the last [nfiles] *)
Fixpoint fsfull_fill (fuel : nat) (nfiles : nat) : U nat :=
  match fuel with
  | O => Crash "fsfull fuel"
  | S fuel' =>
    let name := full_name nfiles in
    printf (ln "writing %s") [str name];;
    fd ← open name O_NEW;
    if fd <? 0 then printf (ln "open %s failed") [str name];; mret nfiles else
    total ← fill_file fuel fd 0;
    printf (ln "wrote %d bytes") [AInt total];;
    close fd;;
    if total =? 0 then mret nfiles else fsfull_fill fuel' (S nfiles)
  end.

Definition fsfull (fuel : nat) : U unit :=
  printf (ln "fsfull test") [];;
  nfiles ← fsfull_fill fuel 0;
  u_each (rev (seq 0 (S nfiles))) (fun n => unlink (full_name n);; mret tt);;
  printf (ln "fsfull test finished") [].

Definition argptest (s : list Z) : U unit :=
  fd ← open (path "init") O_RDONLY;
  bad (fd <? 0) (ln "%s: open failed") [str s];;
  top ← sbrk_ptr 0;
  at_read fd (u64 (top - 1)) (-1);;
  close fd;;
  mret tt.

Definition stacktest (s : list Z) : U unit :=
  pid ← fork 1;
  (if pid =? 0 then
     sp ← r_sp;
     x ← load (u64 (sp - 4096)) 1;
     printf (ln "%s: stacktest: read below stack %d") [str s; AInt x];;
     exit 1
   else bad (pid <? 0) (ln "%s: fork11111 failed") [str s]);;
  xstatus ← wait_xstatus;
  if xstatus =? -1 then exit 0 else exit xstatus.

Definition nowrite (s : list Z) : U unit :=
  u_fold (0 :: wild) (fun st addr =>
    pid ← fork 1;
    (if pid =? 0 then
       store addr (le_split 4 10);;
       printf (ln "%s: write to %p did not fail!") [str s; AU64 addr];;
       exit 0
     else bad (pid <? 0) (ln "%s: fork19 failed") [str s]);;
    '(_, st) ← wait_for st;
    xstatus ← need "xstatus" st;
    on (xstatus =? 0) (exit 1);;
    mret st) None;;
  exit 0.

Definition pgbug (s : list Z) : U unit :=
  let big := 0xeaeb0b5b00002f5e in
  exec_at (inl big) [];;
  at_pipe big;;
  exit 0.

(** A child of sbrkbugs, and the wait for it *)
Definition sbrkbug (msg : string) (child : U unit) : U unit :=
  pid ← fork 1;
  bad (pid <? 0) (ln msg) [];;
  on (pid =? 0) (child;; exit 0);;
  wait;;
  mret tt.

Definition sbrkbugs (s : list Z) : U unit :=
  sbrkbug "fork20 failed" (r ← sbrk_ptr 0; let sz := s32 r in sbrk (s32 (- sz));; mret tt);;
  sbrkbug "fork21 failed" (r ← sbrk_ptr 0; let sz := s32 r in sbrk (s32 (- (sz - 3500)));; mret tt);;
  sbrkbug "fork22 failed" (r ← sbrk_ptr 0; sbrk (s32 (10 * 4096 + 2048 - r));; sbrk (-10);; mret tt);;
  exit 0.

Definition sbrklast (s : list Z) : U unit :=
  top ← sbrk_ptr 0;
  on (negb (top `mod` 4096 =? 0)) (sbrk (4096 - top `mod` 4096);; mret tt);;
  sbrk 4096;;
  sbrk 10;;
  sbrk (-20);;
  top ← sbrk_ptr 0;
  let p := u64 (top - 64) in
  store p (bytes_of "x");;
  store (u64 (p + 1)) [0];;
  fd ← at_open p O_NEW;
  at_write fd p 1;;
  close fd;;
  fd ← at_open p O_RDWR;
  store p [0];;
  at_read fd p 1;;
  c ← load p 1;
  on (negb (c =? chr "x")) (exit 1).

Definition sbrk8000 (s : list Z) : U unit :=
  sbrk (s32 0x80000004);;
  top ← sbrk_ptr 0;
  c ← load (u64 (top - 1)) 1;
  store (u64 (top - 1)) [u8 (c + 1)].

Definition badarg (s : list Z) : U unit :=
  u_each (seq 0 (Z.to_nat 50000)) (fun _ => exec_at (inr (path "echo")) [inl 0xffffffff];; mret tt);;
  exit 0.
