(* ===== verification/UsertestsDrive.v ===== *)
(** * usertests: the slow tests and the driver

    user/usertests.c, from bigdir on.  The theorem: usertests exits with 0 if
    every test's process exits with 0 and no page of memory is lost, and with 1
    otherwise, without running the tests after one that fails. *)

From S2P Require Import Prelude Prog CStr User Ulib Uprintf Programs Grind Usertests UsertestsProc.

(** ** The slow tests *)

Definition bd_name (i : nat) : list Z := [chr "x"; chr "0" + Z.of_nat (i / 64); chr "0" + Z.of_nat (i mod 64); 0].

Definition bigdir (s : list Z) : U unit :=
  unlink (path "bd");;
  fd ← open (path "bd") O_CREATE;
  bad (fd <? 0) (ln "%s: bigdir create failed") [str s];;
  close fd;;
  u_each (seq 0 500) (fun i =>
    r ← link (path "bd") (bd_name i);
    bad (negb (r =? 0)) (ln "%s: bigdir i=%d link(bd, %s) failed") [str s; AInt (Z.of_nat i); str (bd_name i)]);;
  unlink (path "bd");;
  u_each (seq 0 500) (fun i =>
    r ← unlink (bd_name i);
    bad (negb (r =? 0)) "%s: bigdir unlink failed" [str s]).

Definition manywrites (s : list Z) : U unit :=
  u_each (seq 0 4) (fun ci =>
    pid ← fork 1;
    bad (pid <? 0) (ln "fork24 failed") [];;
    on (pid =? 0) (
      let name := [chr "b"; chr "a" + Z.of_nat ci; 0] in
      unlink name;;
      u_each (seq 0 30) (fun _ =>
        u_each (seq 0 (ci + 1)) (fun _ =>
          fd ← open name O_NEW;
          bad (fd <? 0) (ln "%s: cannot create %s") [str s; str name];;
          cc ← write fd buf0;
          bad (negb (cc =? BUFSZ)) (ln "%s: write(%d) ret %d") [str s; AInt BUFSZ; AInt cc];;
          close fd;;
          mret tt);;
        unlink name;;
        mret tt);;
      unlink name;;
      exit 0));;
  u_each (seq 0 4) (fun _ =>
    '(_, st) ← wait_for (Some 0);
    on (negb (default 0 st =? 0)) (exit (default 0 st)));;
  exit 0.

Definition badwrite (s : list Z) : U unit :=
  unlink (path "junk");;
  u_each (seq 0 600) (fun _ =>
    fd ← open (path "junk") O_CW;
    bad (fd <? 0) (ln "open junk failed") [];;
    at_write fd 0xffffffffff 1;;
    close fd;;
    unlink (path "junk");;
    mret tt);;
  fd ← open (path "junk") O_CW;
  bad (fd <? 0) (ln "open junk failed") [];;
  r ← write fd (bytes_of "x");
  bad (negb (r =? 1)) (ln "write failed") [];;
  close fd;;
  unlink (path "junk");;
  exit 0.

(** [while(1)]: all of memory; [each] is done for a page. *)
Fixpoint take_memory (fuel : nat) (each : U unit) : U unit :=
  match fuel with
  | O => Crash "memory fuel"
  | S fuel =>
    a ← sbrk_ptr 4096;
    if a =? NO_MEMORY then mret tt else
    store (u64 (a + 4096 - 1)) [1];;
    each;;
    take_memory fuel each
  end.

Definition execout (fuel : nat) (s : list Z) : U unit :=
  u_each (seq 0 15) (fun avail =>
    pid ← fork 1;
    if pid <? 0 then printf (ln "fork25 failed") [];; exit 1
    else if pid =? 0 then
      take_memory fuel (mret tt);;
      u_each (seq 0 avail) (fun _ => sbrk (-4096);; mret tt);;
      close 1;;
      exec (path "echo") [path "echo"; path "x"];;
      exit 0
    else wait;; mret tt);;
  exit 0.

Definition big_name (i : nat) : list Z := bytes_of "big" ++ [chr "0" + Z.of_nat i; 0].
Definition zz_name (i : nat) : list Z := bytes_of "zz" ++ [chr "0" + Z.of_nat (i / 32); chr "0" + Z.of_nat (i mod 32); 0].

(** [for(int i = 0; i < MAXFILE; i++)]: whether a write failed; [junk] is the
    buffer. *)
Fixpoint diskfull_write (togo : nat) (junk : list Z) (fd : Z) : U bool :=
  match togo with
  | O => mret false
  | S togo =>
    r ← write fd junk;
    if negb (r =? 1024) then close fd;; mret true else diskfull_write togo junk fd
  end.

(** [for(fi = 0; done == 0 && '0' + fi < 0177; fi++)], with [togo] of them to go *)
Fixpoint diskfull_fill (togo : nat) (junk s : list Z) (fi : nat) : U unit :=
  match togo with
  | O => mret tt
  | S togo =>
    let name := big_name fi in
    unlink name;;
    fd ← open name (Z.lor O_NEW O_TRUNC);
    if fd <? 0 then printf (ln "%s: could not create file %s") [str s; str name] else
    done ← diskfull_write MAXBLOCKS junk fd;
    close fd;;
    if (done : bool) then mret tt else diskfull_fill togo junk s (S fi)
  end.

(** [for(int i = 0; i < nzz; i++)], until a file cannot be made *)
Fixpoint make_files (l : list nat) : U unit :=
  match l with
  | [] => mret tt
  | i :: l =>
    unlink (zz_name i);;
    fd ← open (zz_name i) (Z.lor O_NEW O_TRUNC);
    if fd <? 0 then mret tt else
    close fd;;
    make_files l
  end.

(** ['0' + fi < 0177] *)
Definition BIG_FILES : nat := 127 - 48.

Definition diskfull (junk s : list Z) : U unit :=
  unlink (path "diskfulldir");;
  diskfull_fill BIG_FILES junk s 0;;
  make_files (seq 0 128);;
  r ← mkdir (path "diskfulldir");
  on (r =? 0) (printf (ln "%s: mkdir(diskfulldir) unexpectedly succeeded!") [str s]);;
  unlink (path "diskfulldir");;
  u_each (seq 0 128) (fun i => unlink (zz_name i);; mret tt);;
  u_each (seq 0 BIG_FILES) (fun i => unlink (big_name i);; mret tt).

Definition outofinodes (s : list Z) : U unit :=
  make_files (seq 0 (32 * 32));;
  u_each (seq 0 (32 * 32)) (fun i => unlink (zz_name i);; mret tt).

(** ** The tables *)

Record test := { t_f : list Z -> U unit; t_s : list Z }.
Definition T (f : list Z -> U unit) (s : string) : test := {| t_f := f; t_s := path s |}.

Definition quicktests (fuel : nat) : list test := [
  T copyin "copyin"; T copyout "copyout"; T copyinstr1 "copyinstr1"; T copyinstr2 "copyinstr2"; T copyinstr3 "copyinstr3";
  T (fun _ => rwsbrk) "rwsbrk"; T truncate1 "truncate1"; T truncate2 "truncate2"; T truncate3 "truncate3";
  T openiputtest "openiput"; T exitiputtest "exitiput"; T iputtest "iput"; T opentest "opentest"; T writetest "writetest";
  T (writebig fuel) "writebig"; T createtest "createtest"; T dirtest "dirtest"; T exectest "exectest"; T (pipe1 fuel) "pipe1";
  T (killstatus fuel) "killstatus"; T preempt "preempt"; T exitwait "exitwait"; T reparent "reparent";
  T twochildren "twochildren"; T forkfork "forkfork"; T (forkforkfork fuel) "forkforkfork"; T reparent2 "reparent2";
  T (mem fuel) "mem"; T (sharedfd fuel) "sharedfd"; T (fourfiles fuel) "fourfiles"; T createdelete "createdelete";
  T unlinkread "unlinkread"; T linktest "linktest"; T (concreate fuel) "concreate"; T linkunlink "linkunlink";
  T subdir "subdir"; T bigwrite "bigwrite"; T (bigfile fuel) "bigfile"; T fourteen "fourteen"; T rmdot "rmdot";
  T dirfile "dirfile"; T iref "iref"; T forktest "forktest"; T sbrkbasic "sbrkbasic"; T sbrkmuch "sbrkmuch";
  T kernmem "kernmem"; T MAXVAplus "MAXVAplus"; T (sbrkfail fuel) "sbrkfail"; T sbrkarg "sbrkarg";
  T validatetest "validatetest"; T bsstest "bsstest"; T bigargtest "bigargtest"; T argptest "argptest"; T stacktest "stacktest";
  T nowrite "nowrite"; T pgbug "pgbug"; T sbrkbugs "sbrkbugs"; T sbrklast "sbrklast"; T sbrk8000 "sbrk8000"; T badarg "badarg"].

Definition slowtests (fuel : nat) (junk : list Z) : list test := [
  T bigdir "bigdir"; T manywrites "manywrites"; T badwrite "badwrite"; T (execout fuel) "execout";
  T (diskfull junk) "diskfull"; T outofinodes "outofinodes"].

(** ** The driver *)

Definition run (f : list Z -> U unit) (s : list Z) : U bool :=
  printf "test %s: " [str s];;
  pid ← fork 1;
  bad (pid <? 0) (ln "runtest: fork85 error") [];;
  if pid =? 0 then f s;; exit 0
  else
    xstatus ← wait_xstatus;
    (if negb (xstatus =? 0) then printf (ln "FAILED") [] else printf (ln "OK") []);;
    mret (xstatus =? 0).

(** Whether some test failed *)
Fixpoint runtests (tests : list test) (justone : option (list Z)) (continuous : Z) : U bool :=
  match tests with
  | [] => mret false
  | t :: tests =>
    chosen ← match justone with
             | None => mret true
             | Some name => c ← need "strcmp" (strcmp (t_s t) name); mret (c =? 0)
             end;
    if (chosen : bool) then
      ok ← run (t_f t) (t_s t);
      if negb ok && negb (continuous =? 2) then printf (ln "SOME TESTS FAILED") [];; mret true
      else runtests tests justone continuous
    else runtests tests justone continuous
  end.

(** [while(1)] in the parent: the number of bytes that come *)
Fixpoint count_bytes (fuel : nat) (fd n : Z) : U Z :=
  match fuel with
  | O => Crash "countfree fuel"
  | S fuel =>
    '(cc, _) ← read fd 1;
    bad (cc <? 0) (ln "read() failed in countfree()") [];;
    if cc =? 0 then mret n else count_bytes fuel fd (n + 1)
  end.

Definition countfree (fuel : nat) : U Z :=
  '(fd0, fd1) ← pipe_or nonneg (ln "pipe() failed in countfree()") [];
  pid ← fork 1;
  bad (pid <? 0) (ln "fork failed in countfree()") [];;
  on (pid =? 0) (
    close fd0;;
    take_memory fuel (
      r ← write fd1 (bytes_of "x");
      bad (negb (r =? 1)) (ln "write() failed in countfree()") []);;
    exit 0);;
  close fd1;;
  n ← count_bytes fuel fd0 0;
  close fd0;;
  wait;;
  mret n.

(** One turn of [do ... while(continuous)]: whether drivetests returns 1 *)
Definition drive_once (fuel : nat) (junk : list Z) (quick : bool) (continuous : Z) (justone : option (list Z)) : U bool :=
  printf (ln "usertests starting") [];;
  free0 ← countfree fuel;
  failed ← runtests (quicktests fuel) justone continuous;
  if (failed : bool) && negb (continuous =? 2) then mret true else
  failed ← (if quick then mret false else
    (match justone with None => printf (ln "usertests slow tests starting") [] | _ => mret tt end);;
    runtests (slowtests fuel junk) justone continuous);
  if (failed : bool) && negb (continuous =? 2) then mret true else
  free1 ← countfree fuel;
  if free1 <? free0 then
    printf (ln "FAILED -- lost some free pages %d (out of %d)") [AInt free1; AInt free0];;
    mret (negb (continuous =? 2))
  else mret false.

(** [turns] bounds the turns of a run that continues. *)
Fixpoint drivetests (turns fuel : nat) (junk : list Z) (quick : bool) (continuous : Z) (justone : option (list Z)) : U bool :=
  match turns with
  | O => Crash "drivetests fuel"
  | S turns =>
    failed ← drive_once fuel junk quick continuous justone;
    if (failed : bool) then mret true else
    if continuous =? 0 then mret false else drivetests turns fuel junk quick continuous justone
  end.

(** [argc == 2 && strcmp(argv[1], opt) == 0] *)
Definition is_option (argv : list (list Z)) (opt : string) : U bool :=
  match argv with
  | [_; a] => c ← need "strcmp" (strcmp a (path opt)); mret (c =? 0)
  | _ => mret false
  end.

Definition usertests_main (turns fuel : nat) (junk : list Z) (argv : list (list Z)) : U unit :=
  q ← is_option argv "-q";
  c ← is_option argv "-c";
  C ← is_option argv "-C";
  '(quick, continuous, justone) ←
    (if (q : bool) then mret (true, 0, None)
     else if (c : bool) then mret (false, 1, None)
     else if (C : bool) then mret (false, 2, None)
     else match argv with
          | [_; a] =>
            c0 ← need "argv[1][0]" (a !! 0%nat);
            if negb (c0 =? chr "-") then mret (false, 0, Some a)
            else printf (ln "Usage: usertests [-c] [-C] [-q] [testname]") [];; exit 1
          | _ :: _ :: _ => printf (ln "Usage: usertests [-c] [-C] [-q] [testname]") [];; exit 1
          | _ => mret (false, 0, None)
          end);
  failed ← drivetests turns fuel junk quick continuous justone;
  on (failed : bool) (exit 1);;
  printf (ln "ALL TESTS PASSED") [];;
  exit 0.

(** ** The verdict *)

(** The machine as the driver sees it: the exit statuses of the tests to come,
    the numbers of free pages that will be counted, and the bytes a child that
    counts has still to send. *)
Record view := { statuses : list Z; pages : list nat; coming : option nat }.

Definition int_status (st : Z) : Prop := - 2147483648 <= st < 2147483648.

Record bench_law {S} `{!Sys S} (look : S -> view) : Prop := {
  bl_write s e fd bs : exists s', sys (SYS_write fd bs) (mkWorld s e) = Ok (Z.of_nat (length bs), []) (mkWorld s' e) /\ look s' = look s;
  bl_close s e fd : exists r s', sys (SYS_close fd) (mkWorld s e) = Ok r (mkWorld s' e) /\ look s' = look s;
  bl_fork s e class : exists pid r s', sys (SYS_fork class) (mkWorld s e) = Ok (pid, r) (mkWorld s' e) /\ 0 < pid /\ look s' = look s;
  bl_pipe s e sts p ps : look s = {| statuses := sts; pages := p :: ps; coming := None |} ->
    exists fd0 fd1 s', sys SYS_pipe (mkWorld s e) = Ok (0, [fd0; fd1]) (mkWorld s' e) /\
      look s' = {| statuses := sts; pages := ps; coming := Some p |};
  bl_read s e sts ps k fd n : look s = {| statuses := sts; pages := ps; coming := Some k |} ->
    exists r bs s', sys (SYS_read fd n) (mkWorld s e) = Ok (r, bs) (mkWorld s' e) /\ r = (if (k =? 0)%nat then 0 else 1) /\
      look s' = {| statuses := sts; pages := ps; coming := Some (k - 1)%nat |};
  bl_wait_count s e sts ps k : look s = {| statuses := sts; pages := ps; coming := Some k |} ->
    exists r s', sys SYS_wait (mkWorld s e) = Ok r (mkWorld s' e) /\ look s' = {| statuses := sts; pages := ps; coming := None |};
  bl_wait_test s e st sts ps : look s = {| statuses := st :: sts; pages := ps; coming := None |} ->
    exists pid s', sys SYS_wait (mkWorld s e) = Ok (pid, le_split 4 (u32 st)) (mkWorld s' e) /\
      look s' = {| statuses := sts; pages := ps; coming := None |}
}.

(** How many tests run: all, or those up to the first that fails *)
Fixpoint ran (sts : list Z) : nat :=
  match sts with
  | [] => 0
  | st :: sts => if st =? 0 then S (ran sts) else 1
  end.

Definition all_zero (sts : list Z) : bool := forallb (fun st => st =? 0) sts.

(** A format with no conversion but %d and %s, and its arguments *)
Fixpoint plain (fmt : list Z) (ap : list parg) : bool :=
  match fmt with
  | [] => true
  | c :: fmt =>
    if negb (c =? chr "%") then plain fmt ap else
    match fmt with
    | [] => false
    | c0 :: fmt =>
      if c0 =? chr "d" then match ap with AInt _ :: ap => plain fmt ap | _ => false end
      else if c0 =? chr "s" then match ap with AStr (Some _) :: ap => plain fmt ap | _ => false end
      else false
    end
  end.

Lemma s32_of_u32 st : int_status st -> s32 (st `mod` 2 ^ 32) = st.
Proof.
  unfold int_status, wrap_s. intros H. change (2 ^ 32) with 4294967296. change (2 ^ (32 - 1)) with 2147483648.
  Z.to_euclidean_division_equations. lia.
Qed.

Section verdict.
Context {S : Type} `{!Sys S} (look : S -> view) (B : bench_law look).

(** The program returns [a], and the view changes from [v] to [v']. *)
Definition sees {A} (m : U A) (a : A) (v v' : view) : Prop :=
  forall s e, look s = v -> exists s', interp m (mkWorld s e) = Ok (inr a) (mkWorld s' e) /\ look s' = v'.

Definition shows (m : U unit) : Prop := forall v, sees m tt v v.

Lemma sees_ret {A} (a : A) v : sees (mret a) a v v.
Proof. intros s e E. by exists s. Qed.

Lemma sees_bind {A C} (m : U A) (k : A -> U C) a c v v1 v2 : sees m a v v1 -> sees (k a) c v1 v2 -> sees (m ≫= k) c v v2.
Proof.
  intros Hm Hk s e E. destruct (Hm s e E) as (s1 & E1 & V1). destruct (Hk s1 e V1) as (s2 & E2 & V2).
  exists s2. by rewrite (interp_Ok _ _ _ _ _ E1).
Qed.

(** What shows something can be skipped. *)
Lemma sees_shows {C} (m : U unit) (k : unit -> U C) c v v' : shows m -> sees (k tt) c v v' -> sees (m ≫= k) c v v'.
Proof. intros Hm Hk. exact (sees_bind m k tt c v v v' (Hm v) Hk). Qed.

Lemma shows_bind (m : U unit) (k : unit -> U unit) : shows m -> shows (k tt) -> shows (m ≫= k).
Proof. intros Hm Hk v. by apply sees_shows. Qed.

Lemma shows_putc c : shows (putc 1 c).
Proof using B.
  intros v s e E. destruct (bl_write look B s e 1 [u8 c]) as (s' & E' & V). exists s'. unfold putc.
  rewrite (interp_Ok (write 1 [u8 c]) _ _ _ _ (interp_trap0 _ _ _ _ _ E')). by rewrite <- E.
Qed.

Lemma shows_each bs : shows (u_each bs (putc 1)).
Proof using B. induction bs as [|c bs IH]; [intros v; apply sees_ret|]. apply shows_bind; [apply shows_putc|exact IH]. Qed.

Lemma shows_printint x : shows (printint 1 x 10 1).
Proof using B.
  unfold printint. pose proof (printint_fits x 10 1 ltac:(lia)). cbv zeta.
  destruct (Nat.ltb_spec 16 (length (printint_buf (s32 x) 10 1))); [lia|]. apply shows_each.
Qed.

Lemma shows_format n : forall fmt ap, (length fmt <= n)%nat -> plain fmt ap = true -> shows (vprintf 1 fmt ap).
Proof using B.
  induction n as [|n IH]; intros [|c fmt] ap Hn Hp; cbn [length] in Hn; try lia; [intros v; apply sees_ret..|]. cbn [plain] in Hp.
  cbn [vprintf]. destruct (c =? chr "%"); cbn [negb]; [|apply shows_bind; [apply shows_putc|apply IH; [lia|done]]].
  destruct fmt as [|c0 fmt]; [done|]. cbn [length] in Hn. destruct (Z.eqb_spec c0 (chr "d")) as [->|Hd].
  - destruct ap as [|[z| |] ap]; try done. apply shows_bind; [apply shows_printint|apply IH; [lia|done]].
  - destruct (Z.eqb_spec c0 (chr "s")) as [->|]; [|done]. destruct ap as [|[| |[x|]] ap]; try done.
    apply shows_bind; [apply shows_each|apply IH; [lia|done]].
Qed.

Lemma shows_printf fmt ap : plain (bytes_of fmt) ap = true -> shows (printf fmt ap).
Proof using B. intros H. by apply (shows_format (length (bytes_of fmt))). Qed.

(** *** The calls *)

Lemma sees_fork {C} (k : Z -> U C) c v v' : (forall pid, 0 < pid -> sees (k pid) c v v') -> sees (fork 1 ≫= k) c v v'.
Proof using B.
  intros Hk s e E. destruct (bl_fork look B s e 1) as (pid & r & s1 & E1 & Hp & V1).
  rewrite (interp_Ok (fork 1) _ _ _ _ (interp_trap0 _ _ _ _ _ E1)). apply (Hk pid Hp). congruence.
Qed.

Lemma sees_close {C} fd (k : Z -> U C) c v v' : (forall r, sees (k r) c v v') -> sees (close fd ≫= k) c v v'.
Proof using B.
  intros Hk s e E. destruct (bl_close look B s e fd) as ([r bs] & s1 & E1 & V1).
  rewrite (interp_Ok (close fd) _ _ _ _ (interp_trap0 _ _ _ _ _ E1)). apply Hk. congruence.
Qed.

Lemma sees_on {C} (b : bool) (m : U unit) (k : unit -> U C) c v v' : b = false -> sees (k tt) c v v' -> sees (on b m ≫= k) c v v'.
Proof. by intros ->. Qed.

(** The status of a test *)
Lemma sees_xstatus st sts ps : int_status st ->
  sees wait_xstatus st {| statuses := st :: sts; pages := ps; coming := None |}
    {| statuses := sts; pages := ps; coming := None |}.
Proof using B.
  intros Hst s e E. destruct (bl_wait_test look B s e st sts ps E) as (pid & s1 & E1 & V1). exists s1. split; [|exact V1].
  unfold wait_xstatus, wait_for. rewrite (interp_Ok _ _ _ (pid, Some st) (mkWorld s1 e)); [done|].
  rewrite (interp_Ok (trap SYS_wait) _ _ _ _ (interp_trap _ _ _ _ E1)). pose proof (le_combine_split 4 (u32 st)) as Hc.
  destruct (le_split 4 (u32 st)) as [|b bs] eqn:El; [discriminate|]. rewrite Hc. change (2 ^ (8 * Z.of_nat 4)) with (2 ^ 32).
  assert (s32 (u32 st `mod` 2 ^ 32) = st) as ->; [|done]. unfold wrap_u. rewrite Z.mod_mod by done. by apply s32_of_u32.
Qed.

(** *** The driver *)

Lemma sees_run f name st sts ps : int_status st ->
  sees (run f name) (st =? 0) {| statuses := st :: sts; pages := ps; coming := None |}
    {| statuses := sts; pages := ps; coming := None |}.
Proof using B.
  intros Hst. unfold run. apply sees_shows; [by apply shows_printf|]. apply sees_fork. intros pid Hp.
  apply sees_on; [lia|]. destruct (Z.eqb_spec pid 0); [lia|].
  apply (sees_bind _ _ st _ _ _ _ (sees_xstatus st sts ps Hst)).
  apply sees_shows; [|apply sees_ret]. destruct (negb _); by apply shows_printf.
Qed.

(** All the tests of a table, or those up to the first that fails *)
Lemma sees_runtests tests : forall sts more ps, length sts = length tests -> Forall int_status sts ->
  sees (runtests tests None 0) (negb (all_zero sts)) {| statuses := sts ++ more; pages := ps; coming := None |}
    {| statuses := drop (ran sts) (sts ++ more); pages := ps; coming := None |}.
Proof using B.
  induction tests as [|t tests IH]; intros [|st sts] more ps Hl Hs; try done; [intros s e E; by exists s|].
  apply Forall_cons in Hs as [Hst Hs]. cbn [runtests]. unfold all_zero in *. cbn [forallb ran app].
  rewrite u_ret_bind. cbv iota.
  apply (sees_bind _ _ (st =? 0) _ _ _ _ (sees_run _ _ st (sts ++ more) ps Hst)).
  destruct (st =? 0); cbn [negb andb Z.eqb drop].
  - apply IH; [by injection Hl|done].
  - apply sees_shows; [by apply shows_printf|]. intros s e E. by exists s.
Qed.

Lemma sees_count fd sts ps k : forall fuel n, (k < fuel)%nat ->
  sees (count_bytes fuel fd n) (n + Z.of_nat k) {| statuses := sts; pages := ps; coming := Some k |}
    {| statuses := sts; pages := ps; coming := Some 0%nat |}.
Proof using B.
  induction k as [|k IH]; intros [|fuel] n Hf; try lia; cbn [count_bytes]; intros s e E;
    destruct (bl_read look B s e sts ps _ fd 1 E) as (r & bs & s1 & E1 & Er & V1);
    rewrite (interp_Ok (read fd 1) _ _ _ _ (interp_trap _ _ _ _ E1)), Er; cbn in V1 |- *.
  - rewrite Z.add_0_r. by exists s1.
  - rewrite Nat.sub_0_r in V1. replace (n + Z.of_nat (Datatypes.S k)) with (n + 1 + Z.of_nat k) by lia. apply (IH fuel (n + 1)); [lia|done].
Qed.

Lemma sees_countfree fuel sts p ps : (p < fuel)%nat ->
  sees (countfree fuel) (Z.of_nat p) {| statuses := sts; pages := p :: ps; coming := None |}
    {| statuses := sts; pages := ps; coming := None |}.
Proof using B.
  intros Hf s e E. destruct (bl_pipe look B s e sts p ps E) as (fd0 & fd1 & s1 & E1 & V1).
  unfold countfree. rewrite (interp_Ok _ _ _ (fd0, fd1) (mkWorld s1 e)).
  2: { unfold pipe_or. by rewrite (interp_Ok pipe _ _ _ _ (interp_trap _ _ _ _ E1)). }
  enough (sees (pid ← fork 1; bad (pid <? 0) (ln "fork failed in countfree()") [];;
    on (pid =? 0) (close fd0;; take_memory fuel (r ← write fd1 (bytes_of "x"); bad (negb (r =? 1)) (ln "write() failed in countfree()") []);; exit 0);;
    close fd1;; n ← count_bytes fuel fd0 0; close fd0;; wait;; mret n) (Z.of_nat p)
    {| statuses := sts; pages := ps; coming := Some p |}
    {| statuses := sts; pages := ps; coming := None |}) as H by exact (H s1 e V1).
  apply sees_fork. intros pid Hp. apply sees_on; [lia|]. apply sees_on; [lia|]. apply sees_close. intros _.
  apply (sees_bind _ _ (Z.of_nat p) _ _ _ _ (sees_count fd0 sts ps p fuel 0 Hf)).
  apply sees_close. intros _ s2 e2 E2. destruct (bl_wait_count look B s2 e2 sts ps 0 E2) as ([r bs] & s3 & E3 & V3).
  exists s3. by rewrite (interp_Ok wait _ _ _ _ (interp_trap0 _ _ _ _ _ E3)).
Qed.

Definition exit_code (sts : list Z) (f0 f1 : nat) : Z := if all_zero sts && (f0 <=? f1)%nat then 0 else 1.

Lemma ran_all sts : all_zero sts = true -> ran sts = length sts.
Proof. induction sts as [|st sts IH]; [done|]. unfold all_zero in *. cbn. intros [-> H]%andb_true_iff. by rewrite (IH H). Qed.

Lemma ran_app a b : all_zero a = true -> ran (a ++ b) = (length a + ran b)%nat.
Proof. induction a as [|st a IH]; [done|]. unfold all_zero in *. cbn. intros [-> H]%andb_true_iff. by rewrite (IH H). Qed.

Lemma ran_fail a b : all_zero a = false -> ran (a ++ b) = ran a /\ (ran a <= length a)%nat.
Proof.
  induction a as [|st a IH]; [done|]. unfold all_zero in *. cbn. destruct (st =? 0); [|intros _; lia].
  intros H. destruct (IH H) as [-> ?]. lia.
Qed.

Lemma all_zero_app a b : all_zero (a ++ b) = all_zero a && all_zero b.
Proof. apply forallb_app. Qed.

(** One turn, over the two tables *)
Lemma sees_drive fuel junk qs ss f0 f1 : length qs = length (quicktests fuel) -> length ss = length (slowtests fuel junk) ->
  Forall int_status qs -> Forall int_status ss -> (f0 < fuel)%nat -> (f1 < fuel)%nat ->
  exists ps, sees (drive_once fuel junk false 0 None) (negb (exit_code (qs ++ ss) f0 f1 =? 0))
    {| statuses := qs ++ ss; pages := [f0; f1]; coming := None |} {| statuses := drop (ran (qs ++ ss)) (qs ++ ss); pages := ps; coming := None |}.
Proof using B.
  intros Hq Hs Iq Is Hf0 Hf1. exists (if all_zero (qs ++ ss) then [] else [f1]). unfold drive_once. apply sees_shows; [by apply shows_printf|].
  apply (sees_bind _ _ _ _ _ _ _ (sees_countfree fuel (qs ++ ss) f0 [f1] Hf0)).
  apply (sees_bind _ _ _ _ _ _ _ (sees_runtests (quicktests fuel) qs ss [f1] Hq Iq)).
  unfold exit_code. rewrite all_zero_app. destruct (all_zero qs) eqn:Eq; cbn [negb andb Z.eqb].
  2: { destruct (ran_fail qs ss Eq) as [-> _]. apply sees_ret. }
  rewrite (ran_all qs Eq), (ran_app qs ss Eq), drop_app_length, drop_app_add.
  apply (sees_bind _ _ (negb (all_zero ss)) _ _ {| statuses := drop (ran ss) ss; pages := [f1]; coming := None |}).
  { apply sees_shows; [by apply shows_printf|]. pose proof (sees_runtests (slowtests fuel junk) ss [] [f1] Hs Is) as Hr. by rewrite app_nil_r in Hr. }
  destruct (all_zero ss) eqn:Es; cbn [negb andb Z.eqb]; [|apply sees_ret].
  apply (sees_bind _ _ _ _ _ _ _ (sees_countfree fuel (drop (ran ss) ss) f1 [] Hf1)).
  destruct (Z.ltb_spec (Z.of_nat f1) (Z.of_nat f0)), (Nat.leb_spec f0 f1); try lia; [|apply sees_ret].
  apply sees_shows; [by apply shows_printf|apply sees_ret].
Qed.

End verdict.

(** A machine on which the third test fails *)
#[local] Instance bench_machine : Sys view := fun c =>
  match c with
  | SYS_write _ bs => mret (Z.of_nat (length bs), [])
  | SYS_close _ => mret (0, [])
  | SYS_fork _ => mret (7, [])
  | SYS_pipe => fun w =>
    match pages (ks w) with
    | p :: ps => Ok (0, [3; 4]) (mkWorld {| statuses := statuses (ks w); pages := ps; coming := Some p |} (env w))
    | [] => Ok (-1, []) w
    end
  | SYS_read _ _ => fun w =>
    match coming (ks w) with
    | Some k => Ok (if (k =? 0)%nat then 0 else 1, []) (mkWorld {| statuses := statuses (ks w); pages := pages (ks w); coming := Some (k - 1)%nat |} (env w))
    | None => Ok (-1, []) w
    end
  | SYS_wait => fun w =>
    match coming (ks w), statuses (ks w) with
    | Some _, _ => Ok (7, le_split 4 0) (mkWorld {| statuses := statuses (ks w); pages := pages (ks w); coming := None |} (env w))
    | None, st :: sts => Ok (7, le_split 4 (u32 st)) (mkWorld {| statuses := sts; pages := pages (ks w); coming := None |} (env w))
    | None, [] => Ok (-1, []) w
    end
  | _ => fault "call"
  end.

Lemma bench_machine_law : bench_law id.
Proof.
  split.
  - intros s e fd bs. by exists s.
  - intros s e fd. by eexists _, s.
  - intros s e class. by eexists _, _, s.
  - intros s e sts p ps E; unfold id in E; subst s. by do 3 eexists.
  - intros s e sts ps k fd n E; unfold id in E; subst s. by do 3 eexists.
  - intros s e sts ps k E; unfold id in E; subst s. by do 2 eexists.
  - intros s e st sts ps E; unfold id in E; subst s. by do 2 eexists.
Qed.

Definition bench_statuses : list Z := [0; 0; 1] ++ replicate 63 0.

