(* ===== verification/Mkfs.v ===== *)
(** * mkfs

    mkfs/mkfs.c, the host program that writes the first disk image, with the
    formats of the kernel ([Fs]).  The image is a map from sectors to blocks;
    the file system of the host gives, for each argument, the pieces that its
    reads return.  [Panic] is the end of the program by die or a failed assert;
    what it prints is left out.  The host is taken to be little-endian, like
    the target.

    [MkfsSpec] and [MkfsImage] have the theorem about the image. *)

From S2P Require Import Prelude Prog State CStr Fs.

Definition NINODES : Z := 200.

(** The layout: boot block, super block, log, inodes, bitmap, data *)
Definition nbitmap : Z := FSSIZE / BPB + 1.
Definition ninodeblocks : Z := NINODES / IPB + 1.
Definition nlog : Z := LOGSIZE.
Definition nmeta : Z := 2 + nlog + ninodeblocks + nbitmap.
Definition nblocks : Z := FSSIZE - nmeta.

(** Byte order of the target *)
Definition xshort (x : Z) : Z := le_combine (u8 <$> [x; Z.shiftr x 8]).
Definition xint (x : Z) : Z := le_combine (u8 <$> [x; Z.shiftr x 8; Z.shiftr x 16; Z.shiftr x 24]).

(** The super block that main fills *)
Definition sb : superblock :=
  {| sb_magic := FSMAGIC; sb_size := xint FSSIZE; sb_nblocks := xint nblocks; sb_ninodes := xint NINODES;
     sb_nlog := xint nlog; sb_logstart := xint 2; sb_inodestart := xint (2 + nlog);
     sb_bmapstart := xint (2 + nlog + ninodeblocks) |}.

Definition superblock_bytes (s : superblock) : list Z :=
  mjoin (le_split 4 <$> [sb_magic s; sb_size s; sb_nblocks s; sb_ninodes s; sb_nlog s; sb_logstart s; sb_inodestart s; sb_bmapstart s]).

(** The image and the static variables *)
Record mkfs := mkMkfs { img : gmap Z (list Z); freeinode : Z; freeblock : Z }.

Abbreviation K := (Prog mkfs).

Definition zeroes : list Z := replicate (Z.to_nat BSIZE) 0.

(** The sector at the offset that lseek is given, [sec * BSIZE] as a uint *)
Definition sector (sec : Z) : Z := u32 (sec * BSIZE) / BSIZE.

(** Past the end of the image only the sector written appears here; main
    writes every sector once, and later only sectors that it has read. *)
Definition wsect (sec : Z) (buf : list Z) : K unit :=
  modify (fun s => mkMkfs (<[sector sec := buf]> (img s)) (freeinode s) (freeblock s)).

(** A read past the end of the image fails. *)
Definition rsect (sec : Z) : K (list Z) :=
  s ← gets id;
  match img s !! sector sec with Some buf => mret buf | None => panic "read" end.

(** [freeblock++] *)
Definition next_block : K Z :=
  b ← gets freeblock;
  modify (fun s => mkMkfs (img s) (freeinode s) (u32 (freeblock s + 1)));;
  mret b.

Definition winode (inum : Z) (ip : dinode) : K unit :=
  let bn := IBLOCK inum sb in
  buf ← rsect bn;
  wsect bn (put_dinode inum ip buf).

Definition rinode (inum : Z) : K dinode :=
  let bn := IBLOCK inum sb in
  buf ← rsect bn;
  mret (dinode_at buf inum).

Definition ialloc (type : Z) : K Z :=
  inum ← gets freeinode;
  modify (fun s => mkMkfs (img s) (u32 (freeinode s + 1)) (freeblock s));;
  let din := {| dinode0 with di_type := xshort type; di_nlink := xshort 1; di_size := xint 0 |} in
  winode inum din;;
  mret inum.

(** [for(i = 0; i < used; i++) buf[i/8] = buf[i/8] | (0x1 << (i%8));] *)
Definition bitmap (used : Z) : list Z := foldl (fun buf i => set_bit i buf) zeroes (seqZ 0 used).

Definition balloc (used : Z) : K unit :=
  if negb (used <? BPB) then panic "assert" else
  wsect (sb_bmapstart sb) (bitmap used).

Definition set_addr (i a : Z) (din : dinode) : dinode := {| din with di_addrs := <[Z.to_nat i := a]> (di_addrs din) |}.

(** [if(xint(din.addrs[i]) == 0) din.addrs[i] = xint(freeblock++);]: the entry and the inode *)
Definition fill_addr (i : Z) (din : dinode) : K (dinode * Z) :=
  a ← the "din.addrs" (zlookup (di_addrs din) i);
  if xint a =? 0 then
    b ← next_block;
    mret (set_addr i (xint b) din, xint (xint b))
  else mret (din, xint a).

(** The block of the file that holds its block [fbn] *)
Definition iappend_block (fbn : Z) (din : dinode) : K (dinode * Z) :=
  if fbn <? NDIRECT then fill_addr fbn din
  else
    '(din, ind) ← fill_addr NDIRECT din;
    indirect ← rsect ind;
    let i := (4 * Z.to_nat (fbn - NDIRECT))%nat in
    if get_u32 i indirect =? 0 then
      b ← next_block;
      let indirect := write_at i (le_split 4 (xint b)) indirect in
      wsect ind indirect;;
      mret (din, xint (get_u32 i indirect))
    else mret (din, xint (get_u32 i indirect)).

(** The loop of iappend, with the bytes [p] to go; [off] is under
    [MAXFILE * BSIZE] where the code adds to it. *)
Fixpoint iappend_loop (fuel : nat) (din : dinode) (off : Z) (p : list Z) : K (dinode * Z) :=
  match fuel with
  | O => fault "iappend fuel"
  | S fuel =>
    if negb (0 <? Z.of_nat (length p)) then mret (din, off) else
    let fbn := off / BSIZE in
    if negb (fbn <? MAXFILE) then panic "assert" else
    '(din, x) ← iappend_block fbn din;
    let n1 := Z.min (Z.of_nat (length p)) ((fbn + 1) * BSIZE - off) in
    buf ← rsect x;
    wsect x (write_at (Z.to_nat (off - fbn * BSIZE)) (take (Z.to_nat n1) p) buf);;
    iappend_loop fuel din (off + n1) (drop (Z.to_nat n1) p)
  end.

(** A turn writes at least one byte. *)
Definition iappend (inum : Z) (p : list Z) : K unit :=
  din ← rinode inum;
  '(din, off) ← iappend_loop (S (length p)) din (xint (di_size din)) p;
  winode inum {| din with di_size := xint off |}.

(** ** main *)

(** A directory entry, its name padded with zeros *)
Definition entry (inum : Z) (name : list Z) : list Z :=
  dirent_bytes {| de_inum := xshort inum; de_name := take (Z.to_nat DIRSIZ) (name ++ replicate (Z.to_nat DIRSIZ) 0) |}.

(** The name in the image of the file [argv[i]], the characters of a string *)
Definition shortname (argv : list Z) : list Z :=
  if decide (take 5 argv = bytes_of "user/") then drop 5 argv else argv.

Definition strip (s : list Z) : list Z :=
  match s with c :: s' => if c =? chr "_" then s' else s | [] => [] end.

(** [while((cc = read(fd, buf, sizeof(buf))) > 0) iappend(inum, buf, cc);]: the
    reads return the [pieces], and then 0. *)
Fixpoint copy_file (inum : Z) (pieces : list (list Z)) : K unit :=
  match pieces with
  | [] => mret tt
  | p :: pieces =>
    if negb (0 <? Z.of_nat (length p)) then mret tt else
    iappend inum p;;
    copy_file inum pieces
  end.

(** A turn of the loop over the files; [None] is a file that cannot be opened. *)
Definition add_file (rootino : Z) (f : list Z * option (list (list Z))) : K unit :=
  let s := shortname f.1 in
  if decide (chr "/" ∈ s) then panic "assert" else
  match f.2 with
  | None => panic "open"
  | Some pieces =>
    let s := strip s in
    if negb (Z.of_nat (length s) <=? DIRSIZ) then panic "assert" else
    inum ← ialloc T_FILE;
    iappend rootino (entry inum s);;
    copy_file inum pieces
  end.

(** [image] is whether [argv[1]] can be opened, [None] when there is no such
    argument; [files] are the other arguments. *)
Definition mkfs_main (image : option bool) (files : list (list Z * option (list (list Z)))) : K unit :=
  match image with
  | None => panic "Usage: mkfs fs.img files..."
  | Some false => panic "argv[1]"
  | Some true =>
  for_each (seqZ 0 FSSIZE) (fun i => wsect i zeroes);;
  wsect 1 (write_at 0 (superblock_bytes sb) zeroes);;
  rootino ← ialloc T_DIR;
  if negb (rootino =? ROOTINO) then panic "assert" else
  iappend rootino (entry rootino (bytes_of "."));;
  iappend rootino (entry rootino (bytes_of ".."));;
  for_each files (add_file rootino);;
  din ← rinode rootino;
  let off := (xint (di_size din) / BSIZE + 1) * BSIZE in
  winode rootino {| din with di_size := xint off |};;
  used ← gets freeblock;
  balloc used
  end.

(** What the program starts with *)
Definition mkfs0 : mkfs := mkMkfs ∅ 1 nmeta.
