(* ===== verification/MkfsSpec.v ===== *)
(** * The files of an image

    What the operations of [Mkfs] do to the image: every block handed out is
    of one file, and the files have the bytes appended to them.  [MkfsImage]
    has main and the theorem about the whole image. *)

From S2P Require Import Prelude Prog State CStr Log LogSpec Fs FsSpec FileData Mkfs.

Implicit Types (C : gmap Z (list Z)) (D : gmap Z dinode) (d : dinode) (f : list Z).

(** ** Integers *)

Lemma xint_id x : 0 <= x < 4294967296 -> xint x = x.
Proof.
  intros Hx. rewrite <- (u32_split x Hx) at 2. unfold xint. rewrite !Z.shiftr_div_pow2 by lia. cbn [fmap list_fmap le_split].
  unfold wrap_u. change (2 ^ 8) with 256. change (2 ^ 16) with (256 * 256). change (2 ^ 24) with (256 * 256 * 256).
  by rewrite <- !Z.div_div by lia.
Qed.

Lemma xshort_id x : 0 <= x < 65536 -> xshort x = x.
Proof.
  intros Hx. etrans; [|exact (le_combine_split_small 2 x Hx)]. unfold xshort. rewrite Z.shiftr_div_pow2 by lia. reflexivity.
Qed.

Lemma sector_id n : 0 <= n < FSSIZE -> sector n = n.
Proof. intros Hn. unfold sector. unfold FSSIZE in Hn. change BSIZE with 1024. rewrite u32_small by lia. apply Z.div_mul. done. Qed.

Lemma wsect_ok n data C fi fb e : 0 <= n < FSSIZE ->
  wsect n data (mkWorld (mkMkfs C fi fb) e) = Ok tt (mkWorld (mkMkfs (<[n := data]> C) fi fb) e).
Proof. intros Hn. unfold wsect. run. by rewrite sector_id. Qed.

Lemma rsect_ok n data C fi fb e : 0 <= n < FSSIZE -> C !! n = Some data ->
  rsect n (mkWorld (mkMkfs C fi fb) e) = Ok data (mkWorld (mkMkfs C fi fb) e).
Proof. intros Hn Hd. unfold rsect. run. by rewrite sector_id, (Hd : img (id (mkMkfs C fi fb)) !! n = _). Qed.

Lemma next_block_ok C fi fb e : 0 <= fb < FSSIZE ->
  next_block (mkWorld (mkMkfs C fi fb) e) = Ok fb (mkWorld (mkMkfs C fi (fb + 1)) e).
Proof. intros Hn. unfold FSSIZE in Hn. unfold next_block. run. cbn. by rewrite u32_small by lia. Qed.

(** ** The blocks of a file *)

Definition addr d (i : Z) : Z := default 0 (zlookup (di_addrs d) i).

(** The number of block [k] of the file, and for -1 that of its block of
    addresses; 0 where there is none. *)
Definition slot C d (k : Z) : Z :=
  if k <? 0 then addr d NDIRECT
  else if k <? NDIRECT then addr d k
  else if addr d NDIRECT =? 0 then 0
  else match C !! addr d NDIRECT with Some data => get_u32 (4 * Z.to_nat (k - NDIRECT)) data | None => 0 end.

Definition valid (k : Z) : Prop := -1 <= k < MAXFILE.

(** Every block of a file is one of those handed out, and of one file only;
    the others are empty. *)
Record alloc_inv C D (fb : Z) : Prop := {
  ai_typed i d : D !! i = Some d -> dinode_typed d;
  ai_range i d k : D !! i = Some d -> valid k -> slot C d k <> 0 -> nmeta <= slot C d k < fb;
  ai_inj i j d d' k l : D !! i = Some d -> D !! j = Some d' -> valid k -> valid l ->
    slot C d k <> 0 -> slot C d k = slot C d' l -> i = j /\ k = l;
  ai_fb : nmeta <= fb <= FSSIZE;
  ai_block n : 0 <= n < FSSIZE -> exists data, C !! n = Some data /\ block_bytes data;
  ai_zero n : fb <= n < FSSIZE -> C !! n = Some zeroes
}.

(** A block of the file, or one not handed out yet *)
Definition own C d (fb n : Z) : Prop := fb <= n \/ exists k, valid k /\ slot C d k = n /\ n <> 0.

(** Only blocks of this kind change. *)
Definition touch C d fb C' : Prop := forall n, C' !! n <> C !! n -> own C d fb n.

Lemma touch_keep C d fb C' n : touch C d fb C' -> ~ own C d fb n -> C' !! n = C !! n.
Proof. intros T Hn. destruct (decide (C' !! n = C !! n)); [done|]. by destruct Hn; apply T. Qed.

Lemma own_other C D fb i d j e k : alloc_inv C D fb -> D !! i = Some d -> D !! j = Some e -> i <> j -> valid k ->
  slot C e k <> 0 -> ~ own C d fb (slot C e k).
Proof.
  intros I Hi Hj Hne Hk H0 [H|(l & Hl & E & _)].
  - pose proof (ai_range _ _ _ I j e k Hj Hk H0). lia.
  - apply Hne. by apply (ai_inj _ _ _ I i j d e l k Hi Hj Hl Hk); rewrite E.
Qed.

Lemma own_meta C D fb i d n : alloc_inv C D fb -> D !! i = Some d -> n < nmeta -> ~ own C d fb n.
Proof.
  intros I Hi Hn [H|(l & Hl & E & H0)]; [pose proof (ai_fb _ _ _ I); lia|].
  pose proof (ai_range _ _ _ I i d l Hi Hl ltac:(congruence)). lia.
Qed.

Lemma valid_ind : valid (-1).
Proof. done. Qed.

(** The slots depend on the block of addresses only. *)
Lemma slot_ext C C' d k : (slot C d (-1) <> 0 -> C' !! slot C d (-1) = C !! slot C d (-1)) -> slot C' d k = slot C d k.
Proof.
  intros H. change (slot C d (-1)) with (addr d NDIRECT) in H. unfold slot. destruct (k <? 0); [done|]. destruct (k <? NDIRECT); [done|].
  destruct (Z.eqb_spec (addr d NDIRECT) 0); [done|]. by rewrite H.
Qed.

Lemma slot_other C D fb i d j e k C' : alloc_inv C D fb -> D !! i = Some d -> D !! j = Some e -> i <> j ->
  touch C d fb C' -> slot C' e k = slot C e k.
Proof.
  intros I Hi Hj Hne T. apply slot_ext. intros H0. apply (touch_keep _ _ _ _ _ T).
  by apply (own_other C D fb i d j e (-1)).
Qed.

(** The next block goes to the slot [k0] of file [i]. *)
Lemma alloc_grant C C' D i d d' k0 fb : alloc_inv C D fb -> D !! i = Some d -> fb < FSSIZE -> dinode_typed d' -> valid k0 ->
  slot C d k0 = 0 -> slot C' d' k0 = fb -> (forall k, valid k -> k <> k0 -> slot C' d' k = slot C d k) ->
  touch C d fb C' -> (forall n, fb < n < FSSIZE -> C' !! n = C !! n) ->
  (forall n, 0 <= n < FSSIZE -> exists data, C' !! n = Some data /\ block_bytes data) ->
  alloc_inv C' (<[i := d']> D) (fb + 1).
Proof.
  intros I Hi Hfb Ht Hk0 H0 Hnew Hold T Hz Hb. pose proof (ai_fb _ _ _ I) as Hf. change nmeta with 46 in *.
  assert (forall j e k, <[i := d']> D !! j = Some e -> valid k -> slot C' e k <> 0 ->
    j = i /\ k = k0 /\ slot C' e k = fb \/ exists e0, D !! j = Some e0 /\ slot C' e k = slot C e0 k /\ ~ (j = i /\ k = k0)) as Hs.
  { intros j e k Hj Hk Hn. destruct (decide (i = j)) as [<-|Hne].
    - rewrite lookup_insert_eq in Hj. injection Hj as <-. destruct (decide (k = k0)) as [->|Hkk]; [by left|right].
      exists d. split; [done|]. split; [by apply Hold|tauto].
    - rewrite lookup_insert_ne in Hj by done. right. exists e. split; [done|].
      split; [by apply (slot_other C D fb i d j e)|intros [-> _]; done]. }
  split.
  - intros j e Hj. apply lookup_insert_Some in Hj as [[<- <-]|[_ Hj]]; [done|]. by apply (ai_typed _ _ _ I j).
  - intros j e k Hj Hk Hn. change nmeta with 46. destruct (Hs j e k Hj Hk Hn) as [(_ & _ & ->)|(e0 & Hj0 & E & _)]; [lia|].
    rewrite E in *. pose proof (ai_range _ _ _ I j e0 k Hj0 Hk Hn) as R. change nmeta with 46 in R. lia.
  - intros j j' e e' k l Hj Hj' Hk Hl Hn E.
    destruct (Hs j e k Hj Hk Hn) as [(-> & -> & E1)|(e0 & Hj0 & E1 & N1)];
      destruct (Hs j' e' l Hj' Hl ltac:(congruence)) as [(-> & -> & E2)|(e0' & Hj0' & E2 & N2)]; [done| | |].
    + pose proof (ai_range _ _ _ I j' e0' l Hj0' Hl ltac:(congruence)). lia.
    + pose proof (ai_range _ _ _ I j e0 k Hj0 Hk ltac:(congruence)). lia.
    + apply (ai_inj _ _ _ I j j' e0 e0' k l Hj0 Hj0' Hk Hl); congruence.
  - change nmeta with 46. lia.
  - done.
  - intros n Hn. rewrite Hz by lia. apply (ai_zero _ _ _ I). lia.
Qed.

(** ** A file given more blocks *)

Record grown C D (fb i : Z) d C' d' (fb' : Z) : Prop := {
  gw_inv : alloc_inv C' (<[i := d']> D) fb';
  gw_le : fb <= fb';
  gw_touch : touch C d fb C';
  gw_dinode : d' = {| d with di_addrs := di_addrs d' |};
  gw_old k : valid k -> slot C d k <> 0 -> slot C' d' k = slot C d k;
  gw_new k : valid k -> slot C d k = 0 -> slot C' d' k <> 0 -> fb <= slot C' d' k;
  gw_data k : 0 <= k < MAXFILE -> slot C d k <> 0 -> C' !! slot C d k = C !! slot C d k;
  gw_zero k : 0 <= k < MAXFILE -> slot C d k = 0 -> slot C' d' k <> 0 -> C' !! slot C' d' k = Some zeroes
}.

Lemma valid_data k : 0 <= k < MAXFILE -> valid k.
Proof. unfold valid. lia. Qed.
#[local] Hint Resolve valid_data valid_ind : core.

Lemma grown_same C D fb i d : alloc_inv C D fb -> D !! i = Some d -> grown C D fb i d C d fb.
Proof. intros I Hi. split; try done; [by rewrite insert_id|by intros n []|by destruct d]. Qed.

Lemma grown_then C D fb i d C1 d1 fb1 C2 d2 fb2 : D !! i = Some d ->
  grown C D fb i d C1 d1 fb1 -> grown C1 (<[i := d1]> D) fb1 i d1 C2 d2 fb2 -> grown C D fb i d C2 d2 fb2.
Proof.
  intros Hi A B. split.
  - rewrite <- (insert_insert_eq D i d2 d1). apply B.
  - pose proof (gw_le _ _ _ _ _ _ _ _ A). pose proof (gw_le _ _ _ _ _ _ _ _ B). lia.
  - intros n Hn. destruct (decide (C1 !! n = C !! n)) as [E|E]; [|by apply (gw_touch _ _ _ _ _ _ _ _ A)].
    destruct (gw_touch _ _ _ _ _ _ _ _ B n) as [H|(k & Hk & <- & H0)]; [congruence| |].
    + left. pose proof (gw_le _ _ _ _ _ _ _ _ A). lia.
    + destruct (decide (slot C d k = 0)) as [Hz|Hz].
      * left. by apply (gw_new _ _ _ _ _ _ _ _ A).
      * right. exists k. by rewrite <- (gw_old _ _ _ _ _ _ _ _ A) by done.
  - rewrite (gw_dinode _ _ _ _ _ _ _ _ B), (gw_dinode _ _ _ _ _ _ _ _ A). done.
  - intros k Hk H0. rewrite <- (gw_old _ _ _ _ _ _ _ _ A) in * by done. by apply (gw_old _ _ _ _ _ _ _ _ B).
  - intros k Hk H0 H2. destruct (decide (slot C1 d1 k = 0)) as [H1|H1].
    + pose proof (gw_le _ _ _ _ _ _ _ _ A). pose proof (gw_new _ _ _ _ _ _ _ _ B k Hk H1 H2). lia.
    + rewrite (gw_old _ _ _ _ _ _ _ _ B) by done. by apply (gw_new _ _ _ _ _ _ _ _ A).
  - intros k Hk H0. pose proof (gw_old _ _ _ _ _ _ _ _ A k ltac:(auto) H0) as E.
    rewrite <- (gw_data _ _ _ _ _ _ _ _ A k Hk H0), <- E. apply (gw_data _ _ _ _ _ _ _ _ B); [done|congruence].
  - intros k Hk H0 H2. destruct (decide (slot C1 d1 k = 0)) as [H1|H1]; [by apply (gw_zero _ _ _ _ _ _ _ _ B)|].
    rewrite (gw_old _ _ _ _ _ _ _ _ B), (gw_data _ _ _ _ _ _ _ _ B) by auto. by apply (gw_zero _ _ _ _ _ _ _ _ A).
Qed.

(** One more block, in the slot [k0] *)
Lemma grown_grant C C' D i d d' k0 fb : alloc_inv C D fb -> D !! i = Some d -> fb < FSSIZE -> dinode_typed d' -> valid k0 ->
  d' = {| d with di_addrs := di_addrs d' |} ->
  slot C d k0 = 0 -> slot C' d' k0 = fb -> (forall k, valid k -> k <> k0 -> slot C' d' k = slot C d k) ->
  (forall n, n <> slot C d (-1) \/ n = 0 -> C' !! n = C !! n) ->
  (forall n, 0 <= n < FSSIZE -> exists data, C' !! n = Some data /\ block_bytes data) ->
  grown C D fb i d C' d' (fb + 1).
Proof.
  intros I Hi Hfb Ht Hk0 Hd H0 Hnew Hold Hc Hb. pose proof (ai_fb _ _ _ I) as Hf. change nmeta with 46 in Hf.
  assert (forall n, fb <= n -> n <> slot C d (-1)) as Hind.
  { intros n Hn ->. pose proof (ai_range _ _ _ I i d (-1) Hi valid_ind ltac:(lia)). lia. }
  assert (touch C d fb C') as T.
  { intros n Hn. right. exists (-1). split; [done|]. destruct (decide (n = slot C d (-1))) as [->|]; [|by destruct Hn; apply Hc; left].
    split; [done|]. intros E. apply Hn, Hc. by right. }
  split.
  - apply (alloc_grant C C' D i d d' k0); [done..|intros n Hn; apply Hc; left; apply Hind; lia|done].
  - lia.
  - done.
  - done.
  - intros k Hk Hn. apply Hold; [done|congruence].
  - intros k Hk Hn Hn'. destruct (decide (k = k0)) as [->|]; [lia|]. rewrite Hold in Hn' by done. done.
  - intros k Hk Hn. apply Hc. left. intros E. apply (ai_inj _ _ _ I i i d d k (-1) Hi Hi) in E; [lia|auto..].
  - intros k Hk Hn Hn'. destruct (decide (k = k0)) as [->|]; [|by rewrite Hold in Hn' by auto].
    rewrite Hnew, Hc by (left; apply Hind; lia). apply (ai_zero _ _ _ I). lia.
Qed.

Lemma addr_Some d j : dinode_typed d -> 0 <= j <= NDIRECT -> zlookup (di_addrs d) j = Some (addr d j) /\ 0 <= addr d j < 4294967296.
Proof.
  intros T Hj. unfold addr. destruct (lookup_lt_is_Some_2 (di_addrs d) (Z.to_nat j)) as [a Ha].
  { rewrite (dt_len d T). unfold NDIRECT in *. lia. }
  assert (zlookup (di_addrs d) j = Some a) as -> by (apply zlookup_Some; split; [lia|done]).
  split; [done|]. apply (Forall_lookup_1 _ _ _ _ (dt_addrs d T) Ha).
Qed.

Lemma addr_set idx a d j : dinode_typed d -> 0 <= idx <= NDIRECT -> 0 <= j -> addr (set_addr idx a d) j = if decide (j = idx) then a else addr d j.
Proof.
  intros T Hi Hj. unfold addr, set_addr. cbn [di_addrs]. unfold zlookup. destruct (Z.leb_spec 0 j); [|lia].
  destruct (decide (j = idx)) as [->|Hne].
  - rewrite list_lookup_insert_eq; [done|]. rewrite (dt_len d T). unfold NDIRECT in *. lia.
  - rewrite list_lookup_insert_ne by lia. done.
Qed.

Lemma set_addr_typed idx a d : dinode_typed d -> 0 <= a < 4294967296 -> dinode_typed (set_addr idx a d).
Proof.
  intros [T1 T2 T3 T4 T5 T6 T7] Ha. split; cbn; try done; [by rewrite length_insert|]. by apply Forall_insert.
Qed.

(** The slot of an entry of the inode *)
Definition key (idx : Z) : Z := if idx =? NDIRECT then -1 else idx.

Lemma slot_key C d idx : 0 <= idx <= NDIRECT -> slot C d (key idx) = addr d idx /\ valid (key idx).
Proof.
  intros Hi. unfold slot, key, valid. change MAXFILE with 268. change NDIRECT with 12 in *. destruct (Z.eqb_spec idx 12) as [->|]; [done|].
  destruct (Z.ltb_spec idx 0); [lia|]. destruct (Z.ltb_spec idx 12); [|lia]. split; [done|lia].
Qed.

Lemma fill_addr_ok C D fb i d idx fi e : alloc_inv C D fb -> D !! i = Some d -> 0 <= idx <= NDIRECT ->
  let fb' := fb + (if slot C d (key idx) =? 0 then 1 else 0) in fb' <= FSSIZE ->
  exists d', fill_addr idx d (mkWorld (mkMkfs C fi fb) e) = Ok (d', slot C d' (key idx)) (mkWorld (mkMkfs C fi fb') e) /\
    grown C D fb i d C d' fb' /\ slot C d' (key idx) <> 0 /\ forall k, valid k -> k <> key idx -> slot C d' k = slot C d k.
Proof.
  intros I Hi Hx. pose proof (ai_typed _ _ _ I i d Hi) as T. pose proof (ai_fb _ _ _ I) as Hf. unfold FSSIZE in Hf. change nmeta with 46 in Hf.
  destruct (slot_key C d idx Hx) as [Hs Hv]. destruct (addr_Some d idx T Hx) as [Hl Ha]. rewrite Hs. unfold fill_addr. rewrite Hl. run.
  rewrite xint_id by done. destruct (Z.eqb_spec (addr d idx) 0) as [E|E]; cbv zeta; intros Hfb.
  - rewrite (bind_Ok _ _ _ _ _ (next_block_ok C fi fb e ltac:(lia))). rewrite !xint_id by lia. run.
    assert (slot C (set_addr idx fb d) (key idx) = fb) as Hnew.
    { rewrite (proj1 (slot_key _ _ idx Hx)), addr_set by (done || lia). by rewrite decide_True. }
    assert (forall k, valid k -> k <> key idx -> slot C (set_addr idx fb d) k = slot C d k) as Hold.
    { intros k Hk Hne. unfold slot, key, valid in *. change NDIRECT with 12 in *. rewrite !addr_set by (done || change NDIRECT with 12; lia).
      destruct (Z.ltb_spec k 0) as [Hk0|Hk0].
      { destruct (Z.eqb_spec idx 12); [lia|]. by rewrite decide_False by lia. }
      rewrite addr_set by (done || change NDIRECT with 12; lia).
      destruct (Z.ltb_spec k 12); [rewrite decide_False; [done|]; destruct (Z.eqb_spec idx 12); lia|].
      destruct (decide (12 = idx)) as [<-|]; [|done]. rewrite E. cbn [Z.eqb]. destruct (Z.eqb_spec fb 0); [done|].
      rewrite (ai_zero _ _ _ I) by lia. apply get_u32_zeros. }
    exists (set_addr idx fb d). rewrite Hnew. split; [done|]. split; [|split; [lia|done]].
    apply (grown_grant C C D i d _ (key idx)); try done; [lia|apply set_addr_typed; [done|lia]|by rewrite Hs|apply I].
  - rewrite Z.add_0_r in *. exists d. rewrite Hs. split; [done|]. split; [by apply grown_same|done].
Qed.

(** An entry of the block of addresses *)
Lemma put_entry k l a data : NDIRECT <= k < MAXFILE -> NDIRECT <= l < MAXFILE -> 0 <= a < 4294967296 -> block_bytes data ->
  let data' := write_at (4 * Z.to_nat (k - NDIRECT)) (le_split 4 a) data in
  block_bytes data' /\
  get_u32 (4 * Z.to_nat (l - NDIRECT)) data' = if decide (l = k) then a else get_u32 (4 * Z.to_nat (l - NDIRECT)) data.
Proof.
  intros Hk Hl Ha B. cbv zeta. unfold block_bytes in *. change (Z.to_nat BSIZE) with 1024%nat in *. change MAXFILE with 268 in *. change NDIRECT with 12 in *.
  assert (length (le_split 4 a) = 4%nat) as H4 by apply length_le_split.
  split; [rewrite length_write_at; [done|lia]|]. unfold get_u32. destruct (decide (l = k)) as [->|Hne].
  - rewrite <- H4 at 2. rewrite read_write_same by lia. by apply u32_split.
  - rewrite read_write_other; [done|lia|lia|lia].
Qed.

Lemma slot_entry C d k data : NDIRECT <= k < MAXFILE -> slot C d (-1) <> 0 -> C !! slot C d (-1) = Some data ->
  slot C d k = get_u32 (4 * Z.to_nat (k - NDIRECT)) data.
Proof.
  intros Hk H0 Hd. change (slot C d (-1)) with (addr d NDIRECT) in *. unfold slot. change NDIRECT with 12 in *.
  destruct (Z.ltb_spec k 0); [lia|]. destruct (Z.ltb_spec k 12); [lia|]. destruct (Z.eqb_spec (addr d 12) 0); [done|]. by rewrite Hd.
Qed.

Lemma slot_indep C C' d k : k < NDIRECT -> slot C' d k = slot C d k.
Proof. intros Hk. unfold slot. destruct (k <? 0); [done|]. by destruct (Z.ltb_spec k NDIRECT); [|lia]. Qed.

Lemma grown_entry C D fb i d k0 data : alloc_inv C D fb -> D !! i = Some d -> fb < FSSIZE -> NDIRECT <= k0 < MAXFILE ->
  slot C d (-1) <> 0 -> C !! slot C d (-1) = Some data -> slot C d k0 = 0 ->
  let C' := <[slot C d (-1) := write_at (4 * Z.to_nat (k0 - NDIRECT)) (le_split 4 fb) data]> C in
  grown C D fb i d C' d (fb + 1) /\ slot C' d k0 = fb /\ forall k, valid k -> k <> k0 -> slot C' d k = slot C d k.
Proof.
  intros I Hi Hfb Hk0 H0 Hd Hz C'. pose proof (ai_fb _ _ _ I) as Hf. unfold FSSIZE in *. change nmeta with 46 in Hf.
  pose proof (ai_range _ _ _ I i d (-1) Hi valid_ind H0) as Hr. change nmeta with 46 in Hr.
  assert (block_bytes data) as B by (destruct (ai_block _ _ _ I (slot C d (-1))) as (? & E & ?); [unfold FSSIZE; lia|congruence]).
  assert (forall k, NDIRECT <= k < MAXFILE -> slot C' d k = if decide (k = k0) then fb else slot C d k) as Hs.
  { intros k Hk. rewrite (slot_entry C d k data) by done. rewrite (slot_entry C' d k (write_at (4 * Z.to_nat (k0 - NDIRECT)) (le_split 4 fb) data)).
    - by apply put_entry; [| |lia|].
    - done.
    - done.
    - rewrite (slot_indep C C') by done. apply lookup_insert_eq. }
  assert (forall k, valid k -> k <> k0 -> slot C' d k = slot C d k) as Hold.
  { intros k Hk Hne. destruct (decide (k < NDIRECT)); [by apply slot_indep|]. rewrite Hs by (unfold valid in Hk; lia). by rewrite decide_False. }
  assert (slot C' d k0 = fb) as Hnew by (rewrite Hs by done; by rewrite decide_True).
  split; [|done]. apply (grown_grant C C' D i d d k0); try done.
  - by apply (ai_typed _ _ _ I i).
  - apply valid_data. change NDIRECT with 12 in Hk0. lia.
  - by destruct d.
  - intros n Hn. apply lookup_insert_ne. lia.
  - intros n Hn. unfold C'. destruct (decide (n = slot C d (-1))) as [->|].
    + rewrite lookup_insert_eq. eexists. split; [done|]. by apply (put_entry k0 k0); [| |lia|].
    + rewrite lookup_insert_ne by done. by apply (ai_block _ _ _ I).
Qed.

(** The blocks that a turn of iappend takes *)
Definition cost C d (fbn : Z) : Z :=
  (if slot C d fbn =? 0 then 1 else 0) + (if (NDIRECT <=? fbn) && (slot C d (-1) =? 0) then 1 else 0).

Lemma iappend_block_ok C D fb i d fbn fi e : alloc_inv C D fb -> D !! i = Some d -> 0 <= fbn < MAXFILE -> fb + cost C d fbn <= FSSIZE ->
  exists C' d', iappend_block fbn d (mkWorld (mkMkfs C fi fb) e) = Ok (d', slot C' d' fbn) (mkWorld (mkMkfs C' fi (fb + cost C d fbn)) e) /\
    grown C D fb i d C' d' (fb + cost C d fbn) /\ slot C' d' fbn <> 0 /\ (NDIRECT <= fbn -> slot C' d' (-1) <> 0) /\
    forall k, valid k -> k <> fbn -> (k = -1 -> fbn < NDIRECT) -> slot C' d' k = slot C d k.
Proof.
  intros I Hi Hb. pose proof (ai_fb _ _ _ I) as Hf. unfold iappend_block, cost. destruct (Z.ltb_spec fbn NDIRECT) as [Hn|Hn].
  - destruct (Z.leb_spec NDIRECT fbn); [lia|]. cbn [andb]. rewrite Z.add_0_r. intros Hfb.
    assert (key fbn = fbn) as Ek by (unfold key; by destruct (Z.eqb_spec fbn NDIRECT); [lia|]).
    destruct (fill_addr_ok C D fb i d fbn fi e I Hi ltac:(lia)) as (d' & E & G & H0 & Hs); [by rewrite Ek|]. rewrite Ek in *.
    exists C, d'. split; [done|]. split; [done|]. split; [done|]. split; [lia|]. intros k Hk Hne _. by apply Hs.
  - destruct (Z.leb_spec NDIRECT fbn); [|lia]. cbn [andb]. intros Hfb. set (c := if slot C d (-1) =? 0 then 1 else 0) in *.
    assert (NDIRECT <= fbn < MAXFILE) as Hnn by lia.
    assert (0 <= (if slot C d fbn =? 0 then 1 else 0)) as Hc0 by (by destruct (slot C d fbn =? 0)).
    destruct (fill_addr_ok C D fb i d NDIRECT fi e I Hi ltac:(done)) as (d1 & E & G & H0 & Hs).
    { change (key NDIRECT) with (-1). fold c. lia. }
    change (key NDIRECT) with (-1) in *. fold c in E, G. clearbody c. rewrite (bind_Ok _ _ _ _ _ E). pose proof (gw_inv _ _ _ _ _ _ _ _ G) as I1.
    assert (<[i := d1]> D !! i = Some d1) as Hi1 by apply lookup_insert_eq.
    pose proof (ai_range _ _ _ I1 i d1 (-1) Hi1 valid_ind H0) as Hr. pose proof (ai_fb _ _ _ I1) as Hf1. change nmeta with 46 in *.
    destruct (ai_block _ _ _ I1 (slot C d1 (-1)) ltac:(lia)) as (data & Hd & B). unfold FSSIZE in *.
    rewrite (bind_Ok _ _ _ _ _ (rsect_ok (slot C d1 (-1)) data C fi _ e ltac:(unfold FSSIZE; lia) Hd)).
    rewrite <- (slot_entry C d1 fbn data) by done. rewrite (Hs fbn) by (auto || lia).
    destruct (Z.eqb_spec (slot C d fbn) 0) as [Ez|Ez].
    + rewrite (bind_Ok _ _ _ _ _ (next_block_ok C fi (fb + c) e ltac:(unfold FSSIZE; lia))).
      rewrite (xint_id (fb + c)) by lia. rewrite (bind_Ok _ _ _ _ _ (wsect_ok (slot C d1 (-1)) _ C fi _ e ltac:(unfold FSSIZE; lia))). run.
      destruct (grown_entry C (<[i := d1]> D) (fb + c) i d1 fbn data I1 Hi1) as (G1 & Hk & Hs1); [unfold FSSIZE; lia|done..|by rewrite Hs by (auto || lia)|].
      eexists _, d1. rewrite Hk. replace (fb + (1 + c)) with (fb + c + 1) by lia. split.
      { rewrite (proj2 (put_entry fbn fbn (fb + c) data ltac:(done) ltac:(done) ltac:(lia) B)), decide_True by done. by rewrite xint_id by lia. }
      split; [by apply (grown_then C D fb i d C d1 (fb + c))|]. split; [lia|]. split.
      * intros _. rewrite Hs1 by (auto || lia). done.
      * intros k Hv Hne Hk1. rewrite Hs1 by done. apply Hs; [done|]. lia.
    + exists C, d1. rewrite (Hs fbn) by (auto || lia). rewrite Z.add_0_l. run. split.
      { rewrite xint_id; [done|]. pose proof (ai_range _ _ _ I i d fbn Hi ltac:(auto) Ez) as R. change nmeta with 46 in R. lia. }
      split; [done|]. split; [done|]. split; [done|]. intros k Hv Hne Hk1. apply Hs; [done|]. lia.
Qed.

(** ** The contents of a file *)

(** The file of the inode [d] has the bytes [f], and zeros up to the end of its last block. *)
Record file_inv C d f : Prop := {
  fi_slot k : 0 <= k < MAXFILE -> slot C d k <> 0 <-> k * BSIZE < Z.of_nat (length f);
  fi_ind : slot C d (-1) <> 0 <-> NDIRECT * BSIZE < Z.of_nat (length f);
  fi_data k : 0 <= k < MAXFILE -> k * BSIZE < Z.of_nat (length f) -> exists data, C !! slot C d k = Some data /\ block_bytes data /\
    forall r, (r < Z.to_nat BSIZE)%nat -> data !! r = Some (default 0 (f !! (Z.to_nat (k * BSIZE) + r)%nat));
  fi_len : Z.of_nat (length f) <= MAXFILE * BSIZE
}.

(** The blocks of a file of [len] bytes *)
Definition need (len : Z) : Z := (len + BSIZE - 1) / BSIZE + (if NDIRECT * BSIZE <? len then 1 else 0).

Lemma cost_need C d f n : file_inv C d f -> 0 < n <= BSIZE - Z.of_nat (length f) `mod` BSIZE -> Z.of_nat (length f) / BSIZE < MAXFILE ->
  cost C d (Z.of_nat (length f) / BSIZE) = need (Z.of_nat (length f) + n) - need (Z.of_nat (length f)).
Proof.
  intros F Hn Hm. set (len := Z.of_nat (length f)) in *. assert (0 <= len) as H0 by (unfold len; lia).
  assert (0 <= len / BSIZE) as Hq by (apply Z.div_pos; done). unfold cost, need.
  pose proof (fi_slot _ _ _ F _ (conj Hq Hm)) as F1. pose proof (fi_ind _ _ _ F) as F2. fold len in F1, F2. clearbody len. clear F.
  change BSIZE with 1024 in *. change NDIRECT with 12 in *.
  generalize dependent (slot C d (len / 1024)). generalize dependent (slot C d (-1)). intros b F2 a F1.
  destruct (Z.eqb_spec a 0); destruct (Z.eqb_spec b 0); destruct (Z.leb_spec 12 (len / 1024)); cbn [andb];
    destruct (Z.ltb_spec (12 * 1024) (len + n)); destruct (Z.ltb_spec (12 * 1024) len); Z.to_euclidean_division_equations; lia.
Qed.

Lemma file_inv_other C D fb i d j e f C' : alloc_inv C D fb -> D !! i = Some d -> D !! j = Some e -> i <> j ->
  touch C d fb C' -> file_inv C e f -> file_inv C' e f.
Proof.
  intros I Hi Hj Hne T [F1 F2 F3 F4]. assert (forall k, slot C' e k = slot C e k) as Hs.
  { intros k. by apply (slot_other C D fb i d j e). }
  split.
  - intros k. rewrite Hs. apply F1.
  - by rewrite Hs.
  - intros k Hk Hl. destruct (F3 k Hk Hl) as (data & Hd & H). exists data. rewrite Hs. split; [|done]. rewrite <- Hd.
    apply (touch_keep _ _ _ _ _ T). apply (own_other C D fb i d j e k I Hi Hj Hne); [auto|]. by apply F1.
  - done.
Qed.

(** Writing a block of data *)
Lemma alloc_write C D fb i d k data : alloc_inv C D fb -> D !! i = Some d -> 0 <= k < MAXFILE -> slot C d k <> 0 -> block_bytes data ->
  let C' := <[slot C d k := data]> C in
  alloc_inv C' D fb /\ forall j e l, D !! j = Some e -> slot C' e l = slot C e l.
Proof.
  intros I Hi Hk H0 B C'. assert (forall j e l, D !! j = Some e -> slot C' e l = slot C e l) as Hs.
  { intros j e l Hj. apply slot_ext. intros Hn. unfold C'. rewrite lookup_insert_ne; [done|]. intros E.
    destruct (ai_inj _ _ _ I i j d e k (-1) Hi Hj ltac:(auto) ltac:(auto) H0 E). lia. }
  split; [|done]. pose proof (ai_range _ _ _ I i d k Hi ltac:(auto) H0) as Hr. destruct I as [I1 I2 I3 I4 I5 I6]. split.
  - done.
  - intros j e l Hj Hl. rewrite (Hs j e l Hj). by apply (I2 j).
  - intros j j' e e' l l' Hj Hj' Hl Hl'. rewrite (Hs j e l Hj), (Hs j' e' l' Hj'). by apply I3.
  - done.
  - intros n Hn. unfold C'. destruct (decide (n = slot C d k)) as [->|]; [rewrite lookup_insert_eq; eauto|].
    rewrite lookup_insert_ne by done. by apply I5.
  - intros n Hn. unfold C'. rewrite lookup_insert_ne by lia. by apply I6.
Qed.

(** The block of the end of the file, with the bytes [p] added *)
Lemma appended_block f p data q r : let B := Z.to_nat BSIZE in (q * B <= length f)%nat -> (length f + length p <= q * B + B)%nat ->
  length data = B -> (r < B)%nat -> (forall r, (r < B)%nat -> data !! r = Some (default 0 (f !! (q * B + r)%nat))) ->
  write_at (length f - q * B) p data !! r = Some (default 0 ((f ++ p) !! (q * B + r)%nat)).
Proof.
  intros B H1 H2 Hl Hr Hd. destruct (decide (length f - q * B <= r < length f - q * B + length p)%nat) as [Hi|Hi].
  - rewrite lookup_write_at_in, lookup_app_r by lia. replace (q * B + r - length f)%nat with (r - (length f - q * B))%nat by lia.
    destruct (lookup_lt_is_Some_2 p (r - (length f - q * B))) as [c Hc]; [lia|]. by rewrite Hc.
  - rewrite lookup_write_at_out, Hd by lia. do 2 f_equal. destruct (decide (q * B + r < length f)%nat).
    + by rewrite lookup_app_l by lia.
    + rewrite !lookup_ge_None_2; [done| |]; rewrite ?length_app; lia.
Qed.

(** What appending to the file [i] does to the rest *)
Lemma grown_append C D fb i d f p C' d' fb' data : alloc_inv C D fb -> D !! i = Some d -> file_inv C d f ->
  let fbn := Z.of_nat (length f) / BSIZE in
  fbn < MAXFILE -> (0 < length p)%nat -> Z.of_nat (length p) <= BSIZE - Z.of_nat (length f) `mod` BSIZE ->
  grown C D fb i d C' d' fb' -> slot C' d' fbn <> 0 -> (NDIRECT <= fbn -> slot C' d' (-1) <> 0) ->
  (forall k, valid k -> k <> fbn -> (k = -1 -> fbn < NDIRECT) -> slot C' d' k = slot C d k) -> C' !! slot C' d' fbn = Some data ->
  let C2 := <[slot C' d' fbn := write_at (Z.to_nat (Z.of_nat (length f) - fbn * BSIZE)) p data]> C' in
  alloc_inv C2 (<[i := d']> D) fb' /\ file_inv C2 d' (f ++ p) /\ touch C d fb C2.
Proof.
  intros I Hi F fbn Hm Hp Hlen G H0 Hind Hs Hd. cbv zeta. pose proof (gw_inv _ _ _ _ _ _ _ _ G) as I'.
  assert (0 <= fbn) as Hb0 by (apply Z.div_pos; [lia|done]). assert (0 <= fbn < MAXFILE) as Hb by lia.
  assert (<[i := d']> D !! i = Some d') as Hi' by apply lookup_insert_eq.
  pose proof (Z.div_mod (Z.of_nat (length f)) BSIZE ltac:(done)) as Hdm. pose proof (Z.mod_pos_bound (Z.of_nat (length f)) BSIZE ltac:(done)) as Hmb.
  fold fbn in Hdm. assert (block_bytes data /\ forall r, (r < Z.to_nat BSIZE)%nat -> data !! r = Some (default 0 (f !! (Z.to_nat fbn * Z.to_nat BSIZE + r)%nat))) as [B Hold].
  { rewrite <- Z2Nat.inj_mul by done. destruct (decide (slot C d fbn = 0)) as [Ez|Ez].
    - rewrite (gw_zero _ _ _ _ _ _ _ _ G fbn Hb Ez H0) in Hd. injection Hd as <-. split; [done|]. intros r Hr. unfold zeroes.
      rewrite lookup_replicate_2 by done. rewrite lookup_ge_None_2; [done|]. pose proof (fi_slot _ _ _ F fbn Hb). lia.
    - rewrite (gw_old _ _ _ _ _ _ _ _ G) in Hd by auto. rewrite (gw_data _ _ _ _ _ _ _ _ G) in Hd by done.
      destruct (fi_data _ _ _ F fbn Hb) as (data' & Hd' & Hr); [by apply (fi_slot _ _ _ F fbn Hb)|]. assert (data' = data) as -> by congruence. done. }
  assert (0 <= fbn * BSIZE) as Hpos by (by apply Z.mul_nonneg_nonneg).
  replace (Z.to_nat (Z.of_nat (length f) - fbn * BSIZE)) with (length f - Z.to_nat fbn * Z.to_nat BSIZE)%nat by (rewrite <- Z2Nat.inj_mul by done; lia).
  set (nd := write_at (length f - Z.to_nat fbn * Z.to_nat BSIZE) p data). set (C2 := <[slot C' d' fbn := nd]> C').
  assert (block_bytes nd) as Bn.
  { unfold block_bytes, nd in *. rewrite length_write_at; [done|]. rewrite B. rewrite <- Z2Nat.inj_mul by done. lia. }
  destruct (alloc_write C' _ fb' i d' fbn nd I' Hi' Hb H0 Bn) as [I2 Hs2]. fold C2 in I2, Hs2. specialize (fun l => Hs2 i d' l Hi') as Hs2.
  split; [exact I2|]. split; [split|].
  - intros k Hk. rewrite Hs2, length_app. destruct (decide (k = fbn)) as [->|Hne]; [split; [lia|done]|].
    rewrite Hs by (auto || lia). rewrite (fi_slot _ _ _ F k Hk). change BSIZE with 1024 in *. lia.
  - rewrite Hs2, length_app. destruct (decide (fbn < NDIRECT)) as [Hn|Hn].
    + rewrite Hs by (auto || lia). rewrite (fi_ind _ _ _ F). change BSIZE with 1024 in *. lia.
    + pose proof (Hind ltac:(lia)). split; [|done]. change BSIZE with 1024 in *. lia.
  - intros k Hk. rewrite Hs2, length_app. intros Hl. unfold C2. destruct (decide (k = fbn)) as [->|Hne].
    + exists nd. rewrite lookup_insert_eq. split; [done|]. split; [done|]. intros r Hr. unfold nd. rewrite Z2Nat.inj_mul by done.
      apply appended_block; try done; rewrite <- !Z2Nat.inj_mul by done; lia.
    + assert (k * BSIZE < Z.of_nat (length f)) as Hl' by (change BSIZE with 1024 in *; lia).
      destruct (fi_data _ _ _ F k Hk Hl') as (dk & Hdk & Bk & Hr). exists dk.
      rewrite lookup_insert_ne by (intros E; by destruct (ai_inj _ _ _ I' i i d' d' fbn k Hi' Hi' ltac:(auto) ltac:(auto) H0 E)).
      rewrite Hs, (gw_data _ _ _ _ _ _ _ _ G) by (auto || lia || by apply (fi_slot _ _ _ F k Hk)). split; [done|]. split; [done|].
      intros r Hrr. rewrite Hr by done. rewrite lookup_app_l; [done|]. change BSIZE with 1024 in *. lia.
  - rewrite length_app. change BSIZE with 1024 in *. change MAXFILE with 268 in *. lia.
  - intros n Hn. destruct (decide (n = slot C' d' fbn)) as [->|Hne].
    + destruct (decide (slot C d fbn = 0)) as [Ez|Ez]; [left; by apply (gw_new _ _ _ _ _ _ _ _ G); auto|right].
      exists fbn. rewrite (gw_old _ _ _ _ _ _ _ _ G) by auto. auto.
    + apply (gw_touch _ _ _ _ _ _ _ _ G). unfold C2 in Hn. by rewrite lookup_insert_ne in Hn by done.
Qed.

(** What appending to the file [i] leaves as it is *)
Definition spares (i : Z) D C C' : Prop :=
  (forall n, n < nmeta -> C' !! n = C !! n) /\
  forall j e f, j <> i -> D !! j = Some e -> file_inv C e f -> file_inv C' e f.

Lemma touch_spares C D fb i d C' : alloc_inv C D fb -> D !! i = Some d -> touch C d fb C' -> spares i D C C'.
Proof.
  intros I Hi T. split.
  - intros n Hn. apply (touch_keep _ _ _ _ _ T). by apply (own_meta C D fb i d).
  - intros j e f Hne Hj. by apply (file_inv_other C D fb i d j e).
Qed.

Lemma need_mono a b : 0 <= a <= b -> need a <= need b.
Proof.
  intros H. unfold need. change BSIZE with 1024. change NDIRECT with 12.
  destruct (Z.ltb_spec (12 * 1024) a); destruct (Z.ltb_spec (12 * 1024) b); Z.to_euclidean_division_equations; lia.
Qed.

(** ** iappend *)

Lemma iappend_loop_ok i fi e fuel : forall C D fb d f p, alloc_inv C D fb -> D !! i = Some d -> file_inv C d f -> (length p < fuel)%nat ->
  let len := Z.of_nat (length f) in let fb' := fb + (need (len + Z.of_nat (length p)) - need len) in
  len + Z.of_nat (length p) <= MAXFILE * BSIZE -> fb' <= FSSIZE ->
  exists C' d', iappend_loop fuel d len p (mkWorld (mkMkfs C fi fb) e) = Ok (d', len + Z.of_nat (length p)) (mkWorld (mkMkfs C' fi fb') e) /\
    alloc_inv C' (<[i := d']> D) fb' /\ file_inv C' d' (f ++ p) /\ spares i D C C' /\ d' = {| d with di_addrs := di_addrs d' |}.
Proof.
  induction fuel as [|fuel IH]; intros C D fb d f p I Hi F Hfu len fb' Hmax Hfb; [lia|]. cbn [iappend_loop].
  destruct (Z.ltb_spec 0 (Z.of_nat (length p))) as [Hp|Hp]; cbn [negb].
  2: { assert (p = []) as -> by (destruct p; [done|cbn in Hp; lia]). exists C, d. unfold fb'. cbn [length].
    rewrite !Z.add_0_r, Z.sub_diag, Z.add_0_r, app_nil_r, insert_id by done. split; [done|]. do 3 (split; [done|]). by destruct d. }
  set (fbn := len / BSIZE). set (n1 := Z.min (Z.of_nat (length p)) ((fbn + 1) * BSIZE - len)).
  pose proof (Z.div_mod len BSIZE ltac:(done)) as Hdm. pose proof (Z.mod_pos_bound len BSIZE ltac:(done)) as Hmb. fold fbn in Hdm.
  assert (0 <= len) as Hl0 by (unfold len; lia). assert (0 <= fbn) as Hb0 by (apply Z.div_pos; done).
  assert (0 < n1 <= BSIZE - len `mod` BSIZE /\ n1 <= Z.of_nat (length p)) as [Hn1 Hn2] by (unfold n1; lia).
  assert (fbn < MAXFILE) as Hbm by (change BSIZE with 1024 in *; change MAXFILE with 268 in *; lia).
  clearbody n1. destruct (Z.ltb_spec fbn MAXFILE); [|lia]. cbn [negb].
  pose proof (cost_need C d f n1 F Hn1 Hbm) as Hc. fold len fbn in Hc.
  pose proof (need_mono (len + n1) (len + Z.of_nat (length p)) ltac:(lia)) as Hmono.
  destruct (iappend_block_ok C D fb i d fbn fi e I Hi ltac:(lia)) as (C1 & d1 & E & G & H0 & Hind & Hs); [lia|].
  rewrite (bind_Ok _ _ _ _ _ E). pose proof (gw_inv _ _ _ _ _ _ _ _ G) as I1.
  assert (<[i := d1]> D !! i = Some d1) as Hi1 by apply lookup_insert_eq.
  pose proof (ai_range _ _ _ I1 i d1 fbn Hi1 ltac:(auto) H0) as Hr. pose proof (ai_fb _ _ _ I1) as Hf1. change nmeta with 46 in Hr.
  destruct (ai_block _ _ _ I1 (slot C1 d1 fbn) ltac:(lia)) as (data & Hd & B).
  rewrite (bind_Ok _ _ _ _ _ (rsect_ok (slot C1 d1 fbn) data C1 fi _ e ltac:(lia) Hd)).
  rewrite (bind_Ok _ _ _ _ _ (wsect_ok (slot C1 d1 fbn) _ C1 fi _ e ltac:(lia))).
  assert (length (take (Z.to_nat n1) p) = Z.to_nat n1) as Hlt by (rewrite length_take; lia).
  destruct (grown_append C D fb i d f (take (Z.to_nat n1) p) C1 d1 (fb + cost C d fbn) data I Hi F Hbm) as (I2 & F2 & T2); [rewrite Hlt; lia|rewrite Hlt; fold len; lia|done..|].
  fold len fbn in I2, F2, T2. set (C2 := <[slot C1 d1 fbn := _]> C1) in *.
  destruct (IH C2 (<[i := d1]> D) (fb + cost C d fbn) d1 (f ++ take (Z.to_nat n1) p) (drop (Z.to_nat n1) p)) as (C3 & d3 & E3 & I3 & F3 & S3 & Hd3); try done.
  { rewrite length_drop. lia. } { rewrite length_app, length_drop, Hlt. lia. } { rewrite length_app, length_drop, Hlt.
    replace (Z.of_nat (length f + Z.to_nat n1)) with (len + n1) by lia. replace (len + n1 + Z.of_nat (length p - Z.to_nat n1)) with (len + Z.of_nat (length p)) by lia. lia. }
  rewrite length_app, length_drop, Hlt in E3, I3. replace (Z.of_nat (length f + Z.to_nat n1)) with (len + n1) in E3, I3 by lia.
  replace (len + n1 + Z.of_nat (length p - Z.to_nat n1)) with (len + Z.of_nat (length p)) in E3, I3 by lia.
  replace (fb + cost C d fbn + (need (len + Z.of_nat (length p)) - need (len + n1))) with fb' in E3, I3 by lia.
  exists C3, d3. split; [exact E3|]. rewrite insert_insert_eq in I3. split; [done|]. rewrite <- app_assoc, take_drop in F3. split; [done|]. split.
  - destruct (touch_spares _ _ _ _ _ _ I Hi T2) as [S1 S2]. destruct S3 as [S3 S4]. split.
    + intros n Hn. by rewrite S3, S1.
    + intros j x g Hne Hj Hg. apply (S4 j); [done|by rewrite lookup_insert_ne|]. by apply (S2 j).
  - rewrite Hd3, (gw_dinode _ _ _ _ _ _ _ _ G). done.
Qed.

Lemma slot_addrs C d d' k : di_addrs d' = di_addrs d -> slot C d' k = slot C d k.
Proof. intros E. unfold slot, addr. by rewrite E. Qed.

Lemma file_inv_addrs C d d' f : di_addrs d' = di_addrs d -> file_inv C d f -> file_inv C d' f.
Proof.
  intros E [F1 F2 F3 F4]. split; [|by rewrite (slot_addrs C d d')| |done]; intros k Hk; rewrite (slot_addrs C d d' k E); auto.
Qed.

(** The fields of an inode other than its addresses have no part in this. *)
Lemma alloc_addrs C D fb i d d' : alloc_inv C (<[i := d]> D) fb -> di_addrs d' = di_addrs d -> dinode_typed d' -> alloc_inv C (<[i := d']> D) fb.
Proof.
  intros [I1 I2 I3 I4 I5 I6] E T.
  assert (forall j e, <[i := d']> D !! j = Some e -> exists e0, <[i := d]> D !! j = Some e0 /\ forall k, slot C e k = slot C e0 k) as Hs.
  { intros j e Hj. destruct (decide (i = j)) as [<-|Hne].
    - rewrite lookup_insert_eq in *. injection Hj as <-. exists d. split; [done|]. intros k. by apply slot_addrs.
    - rewrite lookup_insert_ne in * by done. by exists e. }
  split; [| | |done|done|done].
  - intros j e Hj. destruct (decide (i = j)) as [<-|Hne].
    + rewrite lookup_insert_eq in Hj. by injection Hj as <-.
    + rewrite lookup_insert_ne in Hj by done. apply (I1 j). by rewrite lookup_insert_ne.
  - intros j e k Hj Hk. destruct (Hs j e Hj) as (e0 & Hj0 & Es). rewrite Es. by apply (I2 j).
  - intros j j' e e' k l Hj Hj' Hk Hl. destruct (Hs j e Hj) as (e0 & Hj0 & Es). destruct (Hs j' e' Hj') as (e0' & Hj0' & Es').
    rewrite Es, Es'. by apply I3.
Qed.

(** A new inode has no blocks. *)
Lemma slot_new C d k : di_addrs d = di_addrs dinode0 -> slot C d k = 0.
Proof.
  intros E. rewrite (slot_addrs C dinode0 d k E). unfold slot. destruct (k <? 0); [done|]. destruct (k <? NDIRECT); [|done].
  unfold addr, zlookup. destruct (0 <=? k); [|done]. destruct (di_addrs dinode0 !! Z.to_nat k) as [a|] eqn:Ha; [|done].
  by apply lookup_replicate in Ha as [-> _].
Qed.

Lemma alloc_new C D fb i d : alloc_inv C D fb -> dinode_typed d -> di_addrs d = di_addrs dinode0 -> alloc_inv C (<[i := d]> D) fb.
Proof.
  intros [I1 I2 I3 I4 I5 I6] T E. assert (forall k, slot C d k = 0) as Hz by (intros k; by apply slot_new).
  assert (forall j e k, <[i := d]> D !! j = Some e -> slot C e k <> 0 -> D !! j = Some e) as Hs.
  { intros j e k Hj Hn. apply lookup_insert_Some in Hj as [[_ <-]|[_ Hj]]; [|done]. by rewrite Hz in Hn. }
  split; [| | |done|done|done].
  - intros j e Hj. apply lookup_insert_Some in Hj as [[_ <-]|[_ Hj]]; [done|]. by apply (I1 j).
  - intros j e k Hj Hk Hn. apply (I2 j); [|done|done]. by apply (Hs j e k).
  - intros j j' e e' k l Hj Hj' Hk Hl Hn E'. apply (I3 j j' e e'); try done; [by apply (Hs j e k)|]. apply (Hs j' e' l); [done|congruence].
Qed.

Lemma file_inv_new C d : di_addrs d = di_addrs dinode0 -> file_inv C d [].
Proof.
  intros E. split; [| | |done].
  - intros k Hk. rewrite slot_new by done. cbn [length]. change BSIZE with 1024. lia.
  - by rewrite slot_new.
  - intros k Hk. cbn [length]. change BSIZE with 1024. lia.
Qed.

(** The blocks before the data are no part of a file. *)
Lemma meta_write C D fb n data : alloc_inv C D fb -> 0 <= n < nmeta -> block_bytes data ->
  let C' := <[n := data]> C in
  alloc_inv C' D fb /\ forall i d f, D !! i = Some d -> file_inv C d f -> file_inv C' d f.
Proof.
  intros [I1 I2 I3 I4 I5 I6] Hn B C'.
  assert (forall m, nmeta <= m -> C' !! m = C !! m) as Hm by (intros m Hm; apply lookup_insert_ne; lia).
  assert (forall i d k, D !! i = Some d -> slot C' d k = slot C d k) as Hs.
  { intros i d k Hi. apply slot_ext. intros H0. apply Hm. apply (I2 i d (-1)); auto. }
  split.
  - split; [done| | |done| |].
    + intros i d k Hi Hk. rewrite (Hs i d k Hi). by apply (I2 i).
    + intros i j d d' k l Hi Hj Hk Hl. rewrite (Hs i d k Hi), (Hs j d' l Hj). by apply I3.
    + intros m Hmm. unfold C'. destruct (decide (m = n)) as [->|]; [rewrite lookup_insert_eq; eauto|]. rewrite lookup_insert_ne by done. by apply I5.
    + intros m Hmm. rewrite Hm by lia. by apply I6.
  - intros i d f Hi [F1 F2 F3 F4]. split; [|by rewrite (Hs i)| |done]; intros k Hk; rewrite (Hs i) by done; [by apply F1|].
    intros Hl. rewrite Hm; [by apply F3|]. apply (I2 i d k Hi); [auto|by apply F1].
Qed.

(** ** The inodes in the image *)

(** The inodes that fit in the blocks of inodes *)
Definition inode_room : Z := ninodeblocks * IPB.

Definition inodes C D : Prop := forall i, 0 <= i < inode_room -> exists data,
  C !! IBLOCK i sb = Some data /\ block_bytes data /\ dinode_at data i = default dinode0 (D !! i).

Lemma IBLOCK_range i : 0 <= i < inode_room -> IBLOCK i sb = i / IPB + 32 /\ 32 <= IBLOCK i sb < 45.
Proof.
  intros Hi. change inode_room with 208 in Hi. unfold IBLOCK. change IPB with 16. change (sb_inodestart sb) with 32.
  assert (0 <= i / 16 < 13) by (Z.to_euclidean_division_equations; lia). rewrite u32_small by lia. lia.
Qed.

Lemma rinode_ok C D i fi fb e : inodes C D -> 0 <= i < inode_room ->
  rinode i (mkWorld (mkMkfs C fi fb) e) = Ok (default dinode0 (D !! i)) (mkWorld (mkMkfs C fi fb) e).
Proof.
  intros H Hi. destruct (H i Hi) as (data & Hd & B & <-). destruct (IBLOCK_range i Hi) as [_ Hr]. unfold rinode.
  rewrite (bind_Ok _ _ _ _ _ (rsect_ok (IBLOCK i sb) data C fi fb e ltac:(unfold FSSIZE; lia) Hd)). by run.
Qed.

Lemma winode_ok C D i d fi fb e : inodes C D -> 0 <= i < inode_room -> dinode_typed d -> exists data,
  winode i d (mkWorld (mkMkfs C fi fb) e) = Ok tt (mkWorld (mkMkfs (<[IBLOCK i sb := data]> C) fi fb) e) /\
  block_bytes data /\ inodes (<[IBLOCK i sb := data]> C) (<[i := d]> D).
Proof.
  intros H Hi T. destruct (H i Hi) as (data & Hd & B & _). destruct (IBLOCK_range i Hi) as [Ei Hr]. unfold winode.
  destruct (put_dinode_spec i d data T B) as (B' & P1 & P2). exists (put_dinode i d data).
  rewrite (bind_Ok _ _ _ _ _ (rsect_ok (IBLOCK i sb) data C fi fb e ltac:(unfold FSSIZE; lia) Hd)), wsect_ok by (unfold FSSIZE; lia).
  split; [done|]. split; [done|]. intros j Hj. destruct (decide (j = i)) as [->|Hne].
  { exists (put_dinode i d data). by rewrite !lookup_insert_eq. }
  rewrite (lookup_insert_ne D) by done. destruct (H j Hj) as (dj & Hdj & Bj & Ej). destruct (IBLOCK_range j Hj) as [Eb _].
  destruct (decide (IBLOCK j sb = IBLOCK i sb)) as [E|E].
  - rewrite E in *. rewrite Hd in Hdj. injection Hdj as ->. exists (put_dinode i d dj). rewrite lookup_insert_eq.
    split; [done|]. split; [done|]. rewrite <- Ej. apply P2. intros Em. apply Hne.
    rewrite (Z.div_mod i IPB), (Z.div_mod j IPB) by done. f_equal; [|done]. f_equal. lia.
  - exists dj. by rewrite lookup_insert_ne.
Qed.

Lemma inodes_keep C C' D : inodes C D -> (forall n, n < nmeta -> C' !! n = C !! n) -> inodes C' D.
Proof. intros H Hc i Hi. rewrite Hc; [by apply H|]. destruct (IBLOCK_range i Hi). change nmeta with 46. lia. Qed.

(** The inode of a file of type [t] with the bytes [f] *)
Definition header (t : Z) f (ad : list Z) : dinode :=
  {| di_type := t; di_major := 0; di_minor := 0; di_nlink := 1; di_size := Z.of_nat (length f); di_addrs := ad |}.

Lemma header_typed t f d : 0 <= t < 4 -> Z.of_nat (length f) <= MAXFILE * BSIZE -> dinode_typed d -> dinode_typed (header t f (di_addrs d)).
Proof. intros Ht Hf [T1 T2 T3 T4 T5 T6 T7]. change (MAXFILE * BSIZE) with 274432 in Hf. split; cbn; try done; lia. Qed.

(** ** The image while main runs *)

(** The blocks that are not of inodes, nor of files *)
Definition fixed (n : Z) : list Z := if n =? 1 then write_at 0 (superblock_bytes sb) zeroes else zeroes.

(** The files [F], by their inodes: the types and the bytes *)
Record image C (fb fi : Z) D (F : gmap Z (Z * list Z)) : Prop := {
  ig_alloc : alloc_inv C D fb;
  ig_file i t f : F !! i = Some (t, f) -> exists d, D !! i = Some d /\ file_inv C d f /\ d = header t f (di_addrs d) /\ 0 <= t < 4;
  ig_dom i : F !! i = None -> D !! i = None;
  ig_range i : is_Some (F !! i) -> 1 <= i < fi;
  ig_next : 1 <= fi <= NINODES;
  ig_inodes : inodes C D;
  ig_fixed n : 0 <= n < nmeta -> ~ 32 <= n < 45 -> C !! n = Some (fixed n)
}.

(** The image without the file [i] *)
Record image_but (i : Z) C (fi : Z) D (F : gmap Z (Z * list Z)) : Prop := {
  ib_file j t f : j <> i -> F !! j = Some (t, f) -> exists d, D !! j = Some d /\ file_inv C d f /\ d = header t f (di_addrs d) /\ 0 <= t < 4;
  ib_dom j : F !! j = None -> D !! j = None;
  ib_range j : is_Some (F !! j) -> 1 <= j < fi;
  ib_next : 1 <= fi <= NINODES;
  ib_inodes : inodes C D;
  ib_fixed n : 0 <= n < nmeta -> ~ 32 <= n < 45 -> C !! n = Some (fixed n)
}.

Lemma image_without i C fb fi D F : image C fb fi D F -> image_but i C fi D F.
Proof. intros [G1 G2 G3 G4 G5 G6 G7]. split; auto. Qed.

Lemma image_spared i C fi D F C' : image_but i C fi D F -> spares i D C C' -> image_but i C' fi D F.
Proof.
  intros [G2 G3 G4 G5 G6 G7] [S1 S2]. split; [|done|done|done|by apply (inodes_keep C)|].
  - intros j t f Hne Hj. destruct (G2 j t f Hne Hj) as (d & Hd & Hf & H). exists d. split; [done|]. split; [by apply (S2 j)|done].
  - intros n Hn Hn'. rewrite S1 by lia. by apply G7.
Qed.

(** The inode of the file [i] is written. *)
Lemma image_winode C fb fi D F i t f d e : image_but i C fi D F -> 1 <= i < fi -> 0 <= t < 4 ->
  alloc_inv C (<[i := d]> D) fb -> file_inv C d f ->
  exists C' D', winode i (header t f (di_addrs d)) (mkWorld (mkMkfs C fi fb) e) = Ok tt (mkWorld (mkMkfs C' fi fb) e) /\
    image C' fb fi D' (<[i := (t, f)]> F).
Proof.
  intros [G2 G3 G4 G5 G6 G7] Hi Ht I Hf. pose proof (ai_typed _ _ _ I i d (lookup_insert_eq _ _ _)) as T.
  pose proof (header_typed t f d Ht (fi_len _ _ _ Hf) T) as T'.
  assert (0 <= i < inode_room) as Hr by (change inode_room with 208; unfold NINODES in *; lia). destruct (IBLOCK_range i Hr) as [_ Hb].
  destruct (winode_ok C D i _ fi fb e G6 Hr T') as (data & E & B & N).
  pose proof (alloc_addrs C D fb i d (header t f (di_addrs d)) I eq_refl T') as I'.
  destruct (meta_write C _ fb (IBLOCK i sb) data I') as [I2 F2]; [change nmeta with 46; lia|done|].
  eexists _, _. split; [exact E|]. split; [done| | | |done|done|].
  - intros j t' f' Hj. apply lookup_insert_Some in Hj as [[<- [= <- <-]]|[Hne Hj]].
    + eexists. split; [apply lookup_insert_eq|]. split; [|done]. apply (F2 i); [apply lookup_insert_eq|]. by apply (file_inv_addrs C d).
    + destruct (G2 j t' f' ltac:(done) Hj) as (d' & Hd & Hf' & H). exists d'. rewrite lookup_insert_ne by done. split; [done|]. split; [|done].
      apply (F2 j); [by rewrite lookup_insert_ne|done].
  - intros j Hj. apply lookup_insert_None in Hj as [Hj Hne]. rewrite lookup_insert_ne by done. by apply G3.
  - intros j [x Hj]. apply lookup_insert_Some in Hj as [[<- _]|[_ Hj]]; [done|]. apply G4. by exists x.
  - intros n Hn Hn'. rewrite lookup_insert_ne by lia. by apply G7.
Qed.

Lemma dinode0_typed : dinode_typed dinode0.
Proof. split; cbn; try done. by apply (bool_decide_unpack _). Qed.

Lemma ialloc_ok C fb fi D F t e : image C fb fi D F -> fi < NINODES -> 0 <= t < 4 ->
  exists C' D', ialloc t (mkWorld (mkMkfs C fi fb) e) = Ok fi (mkWorld (mkMkfs C' (fi + 1) fb) e) /\
    image C' fb (fi + 1) D' (<[fi := (t, [])]> F).
Proof.
  intros G Hfi Ht. pose proof (ig_next _ _ _ _ _ G) as Hn. unfold NINODES in *. unfold ialloc. run. cbn [freeinode img freeblock].
  rewrite u32_small by lia. rewrite (xshort_id t) by lia.
  change {| di_type := t; di_major := di_major dinode0; di_minor := di_minor dinode0; di_nlink := xshort 1; di_size := xint 0;
    di_addrs := di_addrs dinode0 |} with (header t [] (di_addrs dinode0)).
  destruct (image_winode C fb (fi + 1) D F fi t [] dinode0 e) as (C' & D' & E & G').
  - destruct (image_without fi _ _ _ _ _ G) as [G2 G3 G4 G5 G6 G7]. split; try done; [|unfold NINODES; lia]. intros i Hi. pose proof (G4 i Hi). lia.
  - lia.
  - done.
  - apply alloc_new; [apply G|apply dinode0_typed|done].
  - by apply file_inv_new.
  - exists C', D'. rewrite (bind_Ok _ _ _ _ _ E). run. done.
Qed.

Lemma iappend_ok C fb fi D F i t f p e : image C fb fi D F -> F !! i = Some (t, f) ->
  let len := Z.of_nat (length f) in let fb' := fb + (need (len + Z.of_nat (length p)) - need len) in
  len + Z.of_nat (length p) <= MAXFILE * BSIZE -> fb' <= FSSIZE ->
  exists C' D', iappend i p (mkWorld (mkMkfs C fi fb) e) = Ok tt (mkWorld (mkMkfs C' fi fb') e) /\ image C' fb' fi D' (<[i := (t, f ++ p)]> F).
Proof.
  intros G Hi len fb' Hmax Hfb. pose proof (ig_range _ _ _ _ _ G i ltac:(by eexists)) as Hr. pose proof (ig_next _ _ _ _ _ G) as Hn.
  destruct (ig_file _ _ _ _ _ G i t f Hi) as (d & Hd & Hf & Eh & Ht). unfold iappend.
  assert (0 <= i < inode_room) as Hir by (change inode_room with 208; unfold NINODES in *; lia).
  rewrite (bind_Ok _ _ _ _ _ (rinode_ok C D i fi fb e (ig_inodes _ _ _ _ _ G) Hir)).
  rewrite Hd. change (default dinode0 (Some d)) with d. assert (len + Z.of_nat (length p) <= 274432) as Hmax' by done.
  assert (xint (di_size d) = len) as -> by (rewrite Eh; cbn [di_size header]; apply xint_id; fold len; lia).
  destruct (iappend_loop_ok i fi e (S (length p)) C D fb d f p (ig_alloc _ _ _ _ _ G) Hd Hf ltac:(lia) Hmax Hfb) as (C1 & d1 & E & I1 & F1 & S1 & Hd1).
  fold len fb' in E, I1. rewrite (bind_Ok _ _ _ _ _ E). rewrite xint_id by lia.
  assert ({| di_type := di_type d1; di_major := di_major d1; di_minor := di_minor d1; di_nlink := di_nlink d1;
    di_size := len + Z.of_nat (length p); di_addrs := di_addrs d1 |} = header t (f ++ p) (di_addrs d1)) as ->.
  { rewrite Hd1, Eh. unfold header. cbn. f_equal. rewrite length_app. lia. }
  apply (image_winode C1 fb' fi D F i t (f ++ p) d1 e); [|done..]. by apply (image_spared i C), S1; apply (image_without i C fb).
Qed.
