(* ===== verification/MkfsImage.v ===== *)
(** * The image that mkfs writes

    For files that fit, mkfs ends with an image in which the kernel's file
    system finds them: the super block, an empty log, the inodes, the contents
    and the bitmap are those that the theorems of [FileData] and [LogSpec]
    start with. *)

From S2P Require Import Prelude Prog State CStr Cache Log LogSpec Fs FsSpec FileData Mkfs MkfsSpec.

Implicit Types (C : gmap Z (list Z)) (D : gmap Z dinode) (d : dinode) (f : list Z) (F : gmap Z (Z * list Z)).

(** ** The loops of main *)

Lemma length_entry i name : length (entry i name) = 16%nat.
Proof. unfold entry, dirent_bytes. cbn [de_inum de_name]. rewrite length_app, length_le_split, length_take, length_app, length_replicate. change (Z.to_nat DIRSIZ) with 14%nat. lia. Qed.

(** The blocks that [p] takes at the end of [f] *)
Definition size f : Z := Z.of_nat (length f).
Definition extra f (p : list Z) : Z := need (size (f ++ p)) - need (size f).

Lemma extra_nonneg f p : 0 <= extra f p.
Proof. unfold extra, size. rewrite length_app. pose proof (need_mono (Z.of_nat (length f)) (Z.of_nat (length f + length p)) ltac:(lia)). lia. Qed.

Lemma extra_app f p q : extra f (p ++ q) = extra f p + extra (f ++ p) q.
Proof. unfold extra. rewrite app_assoc. lia. Qed.

Lemma append_ok C fb fi D F i t f p e : image C fb fi D F -> F !! i = Some (t, f) -> size (f ++ p) <= MAXFILE * BSIZE -> fb + extra f p <= FSSIZE ->
  exists C' D', iappend i p (mkWorld (mkMkfs C fi fb) e) = Ok tt (mkWorld (mkMkfs C' fi (fb + extra f p)) e) /\
    image C' (fb + extra f p) fi D' (<[i := (t, f ++ p)]> F).
Proof.
  unfold extra, size. rewrite length_app, Nat2Z.inj_add. intros G Hi Hm Hfb. by apply (iappend_ok C fb fi D F i t f p e).
Qed.

Lemma copy_file_ok i t e pieces : Forall (fun p => p <> []) pieces -> forall C fb fi D F f, image C fb fi D F -> F !! i = Some (t, f) ->
  size (f ++ mjoin pieces) <= MAXFILE * BSIZE -> fb + extra f (mjoin pieces) <= FSSIZE ->
  exists C' D', copy_file i pieces (mkWorld (mkMkfs C fi fb) e) = Ok tt (mkWorld (mkMkfs C' fi (fb + extra f (mjoin pieces))) e) /\
    image C' (fb + extra f (mjoin pieces)) fi D' (<[i := (t, f ++ mjoin pieces)]> F).
Proof.
  induction 1 as [|p pieces Hp Hps IH]; intros C fb fi D F f G Hi Hmax Hfb; cbn [copy_file].
  { exists C, D. unfold extra. cbn [mjoin list_join]. rewrite app_nil_r, Z.sub_diag, Z.add_0_r, insert_id by done. done. }
  assert (0 < length p)%nat as Hlp by (destruct p; [done|cbn; lia]). destruct (Z.ltb_spec 0 (Z.of_nat (length p))); [|lia]. cbn [negb].
  change (mjoin (p :: pieces)) with (p ++ mjoin pieces) in *. rewrite extra_app in *. rewrite app_assoc in *.
  pose proof (extra_nonneg (f ++ p) (mjoin pieces)).
  destruct (append_ok C fb fi D F i t f p e G Hi) as (C1 & D1 & E & G1); [unfold size in *; rewrite !length_app in *; lia|lia|].
  rewrite (bind_Ok _ _ _ _ _ E).
  destruct (IH C1 (fb + extra f p) fi D1 _ (f ++ p) G1 (lookup_insert_eq _ _ _)) as (C2 & D2 & E2 & G2); [done|lia|].
  exists C2, D2. rewrite insert_insert_eq in G2. by rewrite Z.add_assoc.
Qed.

(** An argument of main, and the name and the contents of the file *)
Record argument (a : list Z * option (list (list Z))) (x : list Z * list Z) : Prop := {
  ar_pieces : exists pieces, a.2 = Some pieces /\ Forall (fun p => p <> []) pieces /\ mjoin pieces = x.2;
  ar_plain : chr "/" ∉ shortname a.1;
  ar_name : strip (shortname a.1) = x.1;
  ar_short : size x.1 <= DIRSIZ;
  ar_size : size x.2 <= MAXFILE * BSIZE
}.

(** The entries of the files, whose inodes are numbered from [i] *)
Fixpoint listing (i : Z) (files : list (list Z * list Z)) : list Z :=
  match files with
  | [] => []
  | (name, _) :: files => entry i name ++ listing (i + 1) files
  end.

(** The blocks of the files *)
Fixpoint data_blocks (files : list (list Z * list Z)) : Z :=
  match files with
  | [] => 0
  | (_, f) :: files => need (size f) + data_blocks files
  end.

Lemma size_listing i files : size (listing i files) = 16 * Z.of_nat (length files).
Proof.
  revert i. induction files as [|[name f] files IH]; intros i; [done|]. specialize (IH (i + 1)). unfold size in *. cbn [listing length].
  rewrite length_app, length_entry. lia.
Qed.

(** The entry of the file [k] *)
Lemma listing_entry i files k name f : files !! k = Some (name, f) -> read_at (16 * k) 16 (listing i files) = entry (i + Z.of_nat k) name.
Proof.
  revert i k. induction files as [|[n g] files IH]; intros i k Hk; [done|]. cbn [listing]. destruct k as [|k].
  - injection Hk as -> ->. rewrite Z.add_0_r. by apply read_at_here, length_entry.
  - rewrite (read_at_skip _ _ 16) by (apply length_entry || lia). replace (16 * S k - 16)%nat with (16 * k)%nat by lia.
    replace (i + Z.of_nat (S k)) with (i + 1 + Z.of_nat k) by lia. by apply IH.
Qed.

Lemma dirent_entry i name : 0 <= i < 65536 ->
  dirent_of (entry i name) = {| de_inum := i; de_name := take (Z.to_nat DIRSIZ) (name ++ replicate (Z.to_nat DIRSIZ) 0) |}.
Proof.
  intros Hi. unfold entry, dirent_of, dirent_bytes. cbn [de_inum de_name]. rewrite xshort_id by done. f_equal.
  - rewrite read_at_here by apply length_le_split. by apply (le_combine_split_small 2).
  - rewrite (read_at_skip _ _ 2) by (apply length_le_split || lia). unfold read_at. cbn [Nat.sub]. rewrite drop_0. by rewrite take_take, Nat.min_id.
Qed.

Lemma need_nonneg a : 0 <= a -> 0 <= need a.
Proof. intros Ha. exact (need_mono 0 a (conj (Z.le_refl 0) Ha)). Qed.

Lemma data_blocks_nonneg files : 0 <= data_blocks files.
Proof.
  induction files as [|[name f] files IH]; [done|]. cbn [data_blocks]. pose proof (need_nonneg (size f) ltac:(unfold size; lia)). lia.
Qed.

Lemma add_file_ok C fb fi D F r a x e : image C fb fi D F -> F !! ROOTINO = Some (T_DIR, r) -> argument a x -> ROOTINO < fi < NINODES ->
  size r <= 16 * fi -> let fb' := fb + extra r (entry fi x.1) + need (size x.2) in fb' <= FSSIZE ->
  exists C' D', add_file ROOTINO a (mkWorld (mkMkfs C fi fb) e) = Ok tt (mkWorld (mkMkfs C' (fi + 1) fb') e) /\
    image C' fb' (fi + 1) D' (<[fi := (T_FILE, x.2)]> (<[ROOTINO := (T_DIR, r ++ entry fi x.1)]> F)).
Proof.
  intros G Hr [(pieces & Ep & Hp & Ej) A2 A3 A4 A5] Hfi Hsz fb' Hfb. unfold add_file. rewrite decide_False by done. rewrite Ep, A3.
  destruct (Z.leb_spec (Z.of_nat (length x.1)) DIRSIZ); [|unfold size in *; lia]. cbn [negb].
  destruct (ialloc_ok C fb fi D F T_FILE e G ltac:(lia) ltac:(done)) as (C1 & D1 & E1 & G1). rewrite (bind_Ok _ _ _ _ _ E1).
  pose proof (need_nonneg (size x.2) ltac:(unfold size; lia)) as Hn.
  destruct (append_ok C1 fb (fi + 1) D1 _ ROOTINO T_DIR r (entry fi x.1) e G1) as (C2 & D2 & E2 & G2).
  { rewrite lookup_insert_ne by lia. done. }
  { unfold size, NINODES in *. rewrite length_app, length_entry. change (MAXFILE * BSIZE) with 274432. lia. }
  { lia. }
  rewrite (bind_Ok _ _ _ _ _ E2). rewrite insert_insert_ne in G2 by lia.
  assert (need (size x.2) = extra [] (mjoin pieces)) as En by (rewrite Ej; unfold extra; cbn [app]; change (need (size [])) with 0; lia).
  destruct (copy_file_ok fi T_FILE e pieces Hp C2 _ (fi + 1) D2 _ [] G2 (lookup_insert_eq _ _ _)) as (C3 & D3 & E3 & G3).
  { by rewrite Ej. } { rewrite <- En. lia. }
  rewrite <- En in E3, G3. cbn [app] in G3. rewrite Ej, insert_insert_eq in G3. by exists C3, D3.
Qed.

Lemma add_files_ok e args files : Forall2 argument args files -> forall C fb fi D F r, image C fb fi D F -> F !! ROOTINO = Some (T_DIR, r) ->
  ROOTINO < fi -> fi + Z.of_nat (length files) <= NINODES -> size r <= 16 * fi ->
  let fb' := fb + extra r (listing fi files) + data_blocks files in fb' <= FSSIZE ->
  exists C' D' F', for_each args (add_file ROOTINO) (mkWorld (mkMkfs C fi fb) e) =
      Ok tt (mkWorld (mkMkfs C' (fi + Z.of_nat (length files)) fb') e) /\
    image C' fb' (fi + Z.of_nat (length files)) D' F' /\ F' !! ROOTINO = Some (T_DIR, r ++ listing fi files) /\
    (forall j, j <> ROOTINO -> j < fi -> F' !! j = F !! j) /\
    forall k x, files !! k = Some x -> F' !! (fi + Z.of_nat k) = Some (T_FILE, x.2).
Proof.
  induction 1 as [|a [name f] args files Ha Hs IH]; intros C fb fi D F r G Hr Hfi Hmax Hsz fb' Hfb; cbn [for_each].
  { exists C, D, F. unfold fb', extra. cbn [listing data_blocks length]. rewrite app_nil_r, Z.sub_diag, !Z.add_0_r. done. }
  cbn [listing data_blocks length] in *.
  assert (fb' = fb + (extra r (entry fi name) + extra (r ++ entry fi name) (listing (fi + 1) files)) + (need (size f) + data_blocks files)) as Efb.
  { unfold fb'. by rewrite extra_app. }
  clearbody fb'.
  pose proof (extra_nonneg (r ++ entry fi name) (listing (fi + 1) files)) as H1. pose proof (data_blocks_nonneg files) as H2.
  destruct (add_file_ok C fb fi D F r a (name, f) e G Hr Ha) as (C1 & D1 & E1 & G1); [lia|done|cbn [fst snd]; lia|]. cbn [fst snd] in *.
  rewrite (bind_Ok _ _ _ _ _ E1).
  destruct (IH C1 _ (fi + 1) D1 _ (r ++ entry fi name) G1) as (C2 & D2 & F2 & E2 & G2 & R1 & R2 & R3).
  { rewrite lookup_insert_ne by lia. apply lookup_insert_eq. } { lia. } { lia. }
  { unfold size in *. rewrite length_app, length_entry. lia. } { lia. }
  replace (fb + extra r (entry fi name) + need (size f) + extra (r ++ entry fi name) (listing (fi + 1) files) + data_blocks files) with fb' in * by lia.
  replace (fi + 1 + Z.of_nat (length files)) with (fi + Z.of_nat (S (length files))) in * by lia.
  exists C2, D2, F2. split; [exact E2|]. split; [done|]. split; [by rewrite app_assoc|]. split.
  - intros j Hj Hlt. rewrite R2 by lia. rewrite !lookup_insert_ne by lia. done.
  - intros [|k] x Hk.
    + injection Hk as <-. rewrite Z.add_0_r, R2 by lia. apply lookup_insert_eq.
    + replace (fi + Z.of_nat (S k)) with (fi + 1 + Z.of_nat k) by lia. by apply R3.
Qed.

(** ** The empty image *)

Lemma zero_sectors l C e : Forall (fun n => 0 <= n < FSSIZE) l -> exists C',
  for_each l (fun i => wsect i zeroes) (mkWorld (mkMkfs C 1 nmeta) e) = Ok tt (mkWorld (mkMkfs C' 1 nmeta) e) /\
  forall n, n ∈ l \/ C !! n = Some zeroes -> C' !! n = Some zeroes.
Proof.
  intros Hl. revert C. induction Hl as [|n l Hn Hl IH]; intros C; cbn [for_each].
  { exists C. split; [done|]. intros n [H|H]; [by apply elem_of_nil in H|done]. }
  rewrite (bind_Ok _ _ _ _ _ (wsect_ok n zeroes C 1 nmeta e Hn)). destruct (IH (<[n := zeroes]> C)) as (C' & E & H). exists C'. split; [done|].
  intros m [Hm|Hm]; [apply elem_of_cons in Hm as [->|Hm]|]; apply H.
  - right. apply lookup_insert_eq.
  - by left.
  - right. destruct (decide (m = n)) as [->|]; [apply lookup_insert_eq|]. by rewrite lookup_insert_ne.
Qed.

Lemma zero_dinode i : dinode_at zeroes i = dinode0.
Proof.
  unfold dinode_at, zeroes. pose proof (dinode_off_le i) as Ho. unfold read_at.
  rewrite drop_replicate, take_replicate, Nat.min_l by lia. reflexivity.
Qed.

Lemma image_empty C : (forall n, 0 <= n < FSSIZE -> C !! n = Some zeroes) -> image (<[1 := fixed 1]> C) nmeta 1 ∅ ∅.
Proof.
  intros HC. assert (forall n, 0 <= n < FSSIZE -> n <> 1 -> <[1 := fixed 1]> C !! n = Some zeroes) as Hz.
  { intros n Hn H1. rewrite lookup_insert_ne by done. by apply HC. }
  split; [split|..].
  - intros i d H. by rewrite lookup_empty in H.
  - intros i d k H. by rewrite lookup_empty in H.
  - intros i j d d' k l H. by rewrite lookup_empty in H.
  - done.
  - intros n Hn. destruct (decide (n = 1)) as [->|]; [|rewrite Hz by done; by exists zeroes].
    rewrite lookup_insert_eq. exists (fixed 1). done.
  - intros n Hn. change nmeta with 46 in Hn. apply Hz; lia.
  - intros i t f H. by rewrite lookup_empty in H.
  - done.
  - intros i [x H]. by rewrite lookup_empty in H.
  - done.
  - intros i Hi. exists zeroes. destruct (IBLOCK_range i Hi) as [_ Hr]. rewrite Hz by (unfold FSSIZE; lia). rewrite lookup_empty.
    split; [done|]. split; [done|apply zero_dinode].
  - intros n Hn _. change nmeta with 46 in Hn. unfold fixed. destruct (Z.eqb_spec n 1) as [->|]; [apply lookup_insert_eq|]. apply Hz; unfold FSSIZE; lia.
Qed.

(** ** The bitmap *)

Lemma bitmap_bits (n : nat) : (n <= Z.to_nat BPB)%nat -> block_bytes (bitmap (Z.of_nat n)) /\
  forall b, 0 <= b < BPB -> bit (bitmap (Z.of_nat n)) b = (b <? Z.of_nat n).
Proof.
  unfold bitmap. induction n as [|n IH]; intros Hn.
  { change (seqZ 0 (Z.of_nat 0)) with (@nil Z). cbn [foldl]. split; [done|]. intros b Hb. unfold bit, zeroes.
    destruct (Z.ltb_spec b (Z.of_nat 0)); [lia|]. rewrite lookup_replicate_2; [apply Z.bits_0|].
    pose proof (bit_index b Hb). lia. }
  destruct (IH ltac:(lia)) as [B Hb]. rewrite seqZ_S, Nat2Z.inj_succ, foldl_app. cbn [foldl]. rewrite Z.add_0_l.
  assert (0 <= Z.of_nat n < BPB) as Hr by lia. destruct (set_bit_spec _ (Z.of_nat n) B Hr) as (B' & S1 & S2). split; [done|].
  intros b Hbb. destruct (decide (b = Z.of_nat n)) as [->|Hne].
  - rewrite S1. destruct (Z.ltb_spec (Z.of_nat n) (Z.succ (Z.of_nat n))); [done|lia].
  - rewrite S2 by done. rewrite Hb by done. destruct (Z.ltb_spec b (Z.of_nat n)); destruct (Z.ltb_spec b (Z.succ (Z.of_nat n))); (done || lia).
Qed.

(** ** main *)

(** The size in the inode: that of the root directory is a number of blocks. *)
Definition disk_size (i : Z) f : Z := if i =? ROOTINO then (size f / BSIZE + 1) * BSIZE else size f.

Definition sized (z : Z) d : dinode := {| d with di_size := z |}.

(** The entries of the root directory *)
Definition root_bytes (files : list (list Z * list Z)) : list Z :=
  (entry ROOTINO (bytes_of ".") ++ entry ROOTINO (bytes_of "..")) ++ listing 2 files.

Record finished C (fb fi : Z) D F : Prop := {
  fn_alloc : alloc_inv C D fb;
  fn_inodes : inodes C D;
  fn_file i t f : F !! i = Some (t, f) -> exists d, D !! i = Some d /\ file_inv C d f /\
    d = sized (disk_size i f) (header t f (di_addrs d));
  fn_dom i : F !! i = None -> D !! i = None;
  fn_range i : is_Some (F !! i) -> 1 <= i < fi;
  fn_fixed n : 0 <= n < 32 -> C !! n = Some (fixed n);
  fn_bitmap : C !! 45 = Some (bitmap fb)
}.

(** The end of main *)
Lemma finish_ok C fb fi D F r e : image C fb fi D F -> F !! ROOTINO = Some (T_DIR, r) -> size r <= 16 * NINODES ->
  exists C' D', (din ← rinode ROOTINO;
     let off := (xint (di_size din) / BSIZE + 1) * BSIZE in
     winode ROOTINO {| din with di_size := xint off |};;
     used ← gets freeblock;
     balloc used) (mkWorld (mkMkfs C fi fb) e) = Ok tt (mkWorld (mkMkfs C' fi fb) e) /\ finished C' fb fi D' F.
Proof.
  intros G Hr Hsz. destruct G as [G1 G2 G3 G4 G5 G6 G7]. destruct (G2 _ _ _ Hr) as (d & Hd & Hf & Eh & Ht).
  assert (0 <= ROOTINO < inode_room) as Hi by done. pose proof (ai_fb _ _ _ G1) as Hfb. unfold FSSIZE in Hfb. change nmeta with 46 in *.
  rewrite (bind_Ok _ _ _ _ _ (rinode_ok C D ROOTINO fi fb e G6 Hi)), Hd. change (default dinode0 (Some d)) with d. cbv zeta.
  assert (di_size d = size r) as Es by (rewrite Eh; done). unfold NINODES in Hsz. rewrite Es, (xint_id (size r)) by (unfold size in *; lia).
  assert (0 <= (size r / BSIZE + 1) * BSIZE < 8192) as Hoff.
  { change BSIZE with 1024. assert (0 <= size r) by (unfold size; lia). Z.to_euclidean_division_equations. lia. }
  rewrite xint_id by lia. set (d' := {| di_type := di_type d |}).
  assert (dinode_typed d') as T by (destruct (ai_typed _ _ _ G1 _ _ Hd) as [T1 T2 T3 T4 T5 T6 T7]; split; cbn; try done; lia).
  destruct (winode_ok C D ROOTINO d' fi fb e G6 Hi T) as (data & E & B & N). rewrite (bind_Ok _ _ _ _ _ E). run.
  unfold balloc. change BPB with 8192. destruct (Z.ltb_spec (freeblock {| img := <[IBLOCK ROOTINO sb:=data]> C; freeinode := fi; freeblock := fb |}) 8192); [|cbn in *; lia].
  cbn [negb freeblock]. change (sb_bmapstart sb) with 45. change (IBLOCK ROOTINO sb) with 32 in *. rewrite wsect_ok by done.
  assert (alloc_inv C (<[ROOTINO := d']> D) fb) as I1 by (apply (alloc_addrs C D fb ROOTINO d); [by rewrite insert_id|done|done]).
  destruct (meta_write C _ fb 32 data I1 ltac:(done) B) as [I2 F2].
  assert (block_bytes (bitmap fb)) as Bb.
  { rewrite <- (Z2Nat.id fb) by lia. apply bitmap_bits. change BPB with 8192. lia. }
  destruct (meta_write _ _ fb 45 (bitmap fb) I2 ltac:(done) Bb) as [I3 F3].
  eexists _, _. split; [done|]. split; [exact I3| | | |done| |].
  - intros i Hii. destruct (IBLOCK_range i Hii). rewrite lookup_insert_ne by lia. by apply N.
  - intros i t f HF. destruct (G2 i t f HF) as (di & Hdi & Hfi & Ehi & _). unfold disk_size. destruct (Z.eqb_spec i ROOTINO) as [->|Hne].
    + rewrite Hr in HF. injection HF as <- <-. rewrite Hd in Hdi. injection Hdi as <-. exists d'. rewrite lookup_insert_eq. split; [done|]. split.
      * apply (F3 ROOTINO); [apply lookup_insert_eq|]. apply (F2 ROOTINO); [apply lookup_insert_eq|]. by apply (file_inv_addrs C d).
      * unfold d'. rewrite Eh. done.
    + exists di. rewrite lookup_insert_ne by done. split; [done|]. split; [|done].
      apply (F3 i); [by rewrite lookup_insert_ne|]. apply (F2 i); [by rewrite lookup_insert_ne|done].
  - intros i HF. rewrite lookup_insert_ne; [by apply G3|]. intros <-. congruence.
  - intros n Hn. rewrite !lookup_insert_ne by lia. apply G7; lia.
  - apply lookup_insert_eq.
Qed.

Lemma mkfs_main_ok args files e : Forall2 argument args files -> 2 + Z.of_nat (length files) <= NINODES ->
  let fb := nmeta + need (size (root_bytes files)) + data_blocks files in fb <= FSSIZE ->
  exists C D F, mkfs_main (Some true) args (mkWorld mkfs0 e) = Ok tt (mkWorld (mkMkfs C (2 + Z.of_nat (length files)) fb) e) /\
    finished C fb (2 + Z.of_nat (length files)) D F /\ F !! ROOTINO = Some (T_DIR, root_bytes files) /\
    forall k x, files !! k = Some x -> F !! (2 + Z.of_nat k) = Some (T_FILE, x.2).
Proof.
  intros Ha Hn fb Hfb. unfold mkfs_main, mkfs0.
  destruct (zero_sectors (seqZ 0 FSSIZE) ∅ e) as (C0 & E0 & HC0); [apply Forall_seqZ; intros; lia|]. rewrite (bind_Ok _ _ _ _ _ E0).
  rewrite (bind_Ok _ _ _ _ _ (wsect_ok 1 (write_at 0 (superblock_bytes sb) zeroes) C0 1 nmeta e ltac:(done))).
  change (write_at 0 (superblock_bytes sb) zeroes) with (fixed 1).
  assert (image (<[1 := fixed 1]> C0) nmeta 1 ∅ ∅) as G0.
  { apply image_empty. intros n Hn0. apply HC0. left. apply elem_of_seqZ. lia. }
  destruct (ialloc_ok (<[1 := fixed 1]> C0) nmeta 1 ∅ ∅ T_DIR e G0 ltac:(done) ltac:(done)) as (C1 & D1 & E1 & G1). rewrite (bind_Ok _ _ _ _ _ E1).
  change (negb (1 =? ROOTINO)) with false. cbv iota. change (1 + 1) with 2 in *. change 1 with ROOTINO in G1 |- *.
  set (e1 := entry ROOTINO (bytes_of ".")). set (e2 := entry ROOTINO (bytes_of "..")).
  assert (extra [] e1 = 1) as X1 by (unfold extra, size, e1; by rewrite length_app, length_entry).
  assert (extra e1 e2 = 0) as X2 by (unfold extra, size, e1, e2; by rewrite length_app, !length_entry).
  assert (extra (e1 ++ e2) (listing 2 files) = need (size (root_bytes files)) - 1) as X3 by done.
  assert (size (root_bytes files) = 32 + 16 * Z.of_nat (length files)) as Hsr.
  { unfold root_bytes. fold e1 e2. unfold size. rewrite length_app. pose proof (size_listing 2 files) as Hs. unfold size in Hs.
    change (length (e1 ++ e2)) with 32%nat. lia. }
  pose proof (data_blocks_nonneg files) as Hdb. pose proof (extra_nonneg (e1 ++ e2) (listing 2 files)) as Hx.
  destruct (append_ok C1 nmeta 2 D1 _ ROOTINO T_DIR [] e1 e G1 (lookup_insert_eq _ _ _)) as (C2 & D2 & E2 & G2); [done|done|].
  rewrite (bind_Ok _ _ _ _ _ E2). rewrite insert_insert_eq in G2. cbn [app] in G2.
  destruct (append_ok C2 _ 2 D2 _ ROOTINO T_DIR e1 e2 e G2 (lookup_insert_eq _ _ _)) as (C3 & D3 & E3 & G3); [done|done|].
  rewrite (bind_Ok _ _ _ _ _ E3). rewrite insert_insert_eq in G3. rewrite X1, X2, Z.add_0_r in *.
  destruct (add_files_ok e args files Ha C3 (nmeta + 1) 2 D3 _ (e1 ++ e2) G3 (lookup_insert_eq _ _ _)) as (C4 & D4 & F4 & E4 & G4 & R1 & _ & R3).
  { done. } { done. } { done. } { unfold fb in Hfb. lia. }
  rewrite (bind_Ok _ _ _ _ _ E4).
  replace (nmeta + 1 + extra (e1 ++ e2) (listing 2 files) + data_blocks files) with fb in * by (unfold fb; lia).
  destruct (finish_ok C4 fb _ D4 F4 _ e G4 R1) as (C5 & D5 & E5 & G5).
  { change ((e1 ++ e2) ++ listing 2 files) with (root_bytes files). lia. }
  exists C5, D5, F4. split; [exact E5|]. split; [exact G5|]. split; [exact R1|exact R3].
Qed.

(** ** What the kernel finds *)

(** The inode [i], as ilock reads it *)
Definition stored C (i : Z) : inode :=
  from_dinode (dinode_at (default [] (C !! IBLOCK i sb)) i) {| inode0 with i_dev := ROOTDEV; i_inum := i |}.

Lemma stored_inode C D i d : inodes C D -> 0 <= i < inode_room -> D !! i = Some d ->
  stored C i = from_dinode d {| inode0 with i_dev := ROOTDEV; i_inum := i |}.
Proof. intros N Hi Hd. destruct (N i Hi) as (data & Hl & _ & E). unfold stored. rewrite Hl. cbn [default from_option id]. by rewrite E, Hd. Qed.

Lemma file_addr_slot C d x bn : dinode_typed d -> i_addrs x = di_addrs d -> 0 <= bn ->
  file_addr C x bn = if decide (bn < MAXFILE /\ slot C d bn <> 0) then Some (slot C d bn) else None.
Proof.
  intros T Ex Hb. unfold file_addr, slot. rewrite Ex. destruct (addr_Some d NDIRECT T ltac:(done)) as [-> _].
  destruct (Z.ltb_spec bn 0); [lia|]. destruct (Z.ltb_spec bn NDIRECT) as [Hn|Hn].
  - destruct (addr_Some d bn T ltac:(lia)) as [-> _]. cbn [mbind option_bind]. assert (bn < MAXFILE) by (change NDIRECT with 12 in *; change MAXFILE with 268; lia).
    destruct (Z.eqb_spec (addr d bn) 0); [by rewrite decide_False by tauto|by rewrite decide_True by tauto].
  - destruct (Z.ltb_spec bn MAXFILE); [|by rewrite decide_False by lia]. cbn [mbind option_bind].
    destruct (Z.eqb_spec (addr d NDIRECT) 0); [by rewrite decide_False by tauto|].
    destruct (C !! addr d NDIRECT) as [data|]; [|by rewrite decide_False by tauto]. cbn [mbind option_bind].
    destruct (Z.eqb_spec (get_u32 (4 * Z.to_nat (bn - NDIRECT)) data) 0); [by rewrite decide_False by tauto|by rewrite decide_True by tauto].
Qed.

(** The contents up to the end of the last block *)
Definition pad f : list Z := f ++ replicate (Z.to_nat ((- size f) `mod` BSIZE)) 0.

Section view.
Context C (fb fi : Z) D F (W : finished C fb fi D F).

Lemma view_used n : 0 <= n < FSSIZE -> used sb C n = (n <? fb).
Proof using W.
  intros Hn. unfold FSSIZE in Hn. pose proof (ai_fb _ _ _ (fn_alloc _ _ _ _ _ W)) as Hf. change nmeta with 46 in Hf. unfold FSSIZE in Hf.
  assert (n / BPB = 0 /\ n `mod` BPB = n) as [Eq Em] by (change BPB with 8192; split; [apply Z.div_small|apply Z.mod_small]; lia).
  unfold used, BBLOCK. rewrite Eq, Em. change (u32 (0 + sb_bmapstart sb)) with 45. rewrite (fn_bitmap _ _ _ _ _ W).
  rewrite <- (Z2Nat.id fb) by lia. apply bitmap_bits; change BPB with 8192; lia.
Qed.

Lemma view_BBLOCK n : 0 <= n < FSSIZE -> BBLOCK n sb = 45.
Proof. intros Hn. unfold FSSIZE in Hn. unfold BBLOCK. change BPB with 8192. by rewrite Z.div_small by lia. Qed.

Lemma view_disk : disk_ok sb (sb_logstart sb) C.
Proof using W.
  pose proof (ai_fb _ _ _ (fn_alloc _ _ _ _ _ W)) as Hf. change nmeta with 46 in Hf. change (sb_size sb) with FSSIZE. change (sb_logstart sb) with 2.
  split; change (sb_size sb) with FSSIZE in *.
  - done.
  - apply (fn_alloc _ _ _ _ _ W).
  - intros n Hn. rewrite view_BBLOCK, view_used by done. split; [done|]. split; [by right|]. destruct (Z.ltb_spec 45 fb); [done|lia].
  - intros n Hn Ho. rewrite view_used by done. destruct (Z.ltb_spec n fb); [done|]. destruct Ho. right. change LOGSIZE with 30. lia.
  - intros _. rewrite view_used by done. destruct (Z.ltb_spec 0 fb); [done|lia].
Qed.

Lemma view_owned it n : 32 <= n < fb -> n <> 45 -> owned (Wk := worker_with it sb) (sb_logstart sb) C n.
Proof using W.
  intros Hn H45. pose proof (ai_fb _ _ _ (fn_alloc _ _ _ _ _ W)) as Hf. unfold FSSIZE in Hf.
  split; cbn [w_sb worker_with]; change (sb_size sb) with 2000.
  - lia.
  - rewrite view_used by (unfold FSSIZE; lia). destruct (Z.ltb_spec n fb); [done|lia].
  - intros i Hi. by rewrite view_BBLOCK.
  - right. change (sb_logstart sb) with 2. change LOGSIZE with 30. lia.
Qed.

Lemma view_file it i t f : F !! i = Some (t, f) -> i < NINODES -> exists d, D !! i = Some d /\ file_inv C d f /\
  stored C i = from_dinode (sized (disk_size i f) (header t f (di_addrs d))) {| inode0 with i_dev := ROOTDEV; i_inum := i |} /\
  file_ok (Wk := worker_with it sb) (sb_logstart sb) C (stored C i).
Proof using W.
  intros HF Hlt. destruct (fn_file _ _ _ _ _ W i t f HF) as (d & Hd & Hf & Eh). pose proof (fn_range _ _ _ _ _ W i ltac:(by eexists)) as Hr.
  assert (0 <= i < inode_room) as Hi by (change inode_room with 208; unfold NINODES in *; lia).
  pose proof (fn_alloc _ _ _ _ _ W) as I. pose proof (ai_typed _ _ _ I i d Hd) as T. pose proof (ai_fb _ _ _ I) as Hfb. change nmeta with 46 in Hfb.
  rewrite (stored_inode C D i d (fn_inodes _ _ _ _ _ W) Hi Hd). exists d. split; [done|]. split; [done|]. rewrite <- Eh. split; [done|].
  destruct (IBLOCK_range i Hi) as [_ Hb]. set (x := from_dinode d _).
  assert (forall bn a, 0 <= bn -> file_addr C x bn = Some a -> 0 <= bn < MAXFILE /\ slot C d bn <> 0 /\ a = slot C d bn /\ 46 <= a < fb) as Ha.
  { intros bn a H0 E. rewrite (file_addr_slot C d) in E by done. destruct (decide _) as [[H1 H2]|]; [|done]. injection E as <-.
    split; [lia|]. split; [done|]. split; [done|]. apply (ai_range _ _ _ I i d bn Hd); [apply valid_data; lia|done]. }
  assert (zlookup (i_addrs x) NDIRECT = Some (slot C d (-1))) as Eind by (destruct (addr_Some d NDIRECT T ltac:(done)); done).
  assert (slot C d (-1) <> 0 -> 46 <= slot C d (-1) < fb) as Hind by (apply (ai_range _ _ _ I i d (-1) Hd); done).
  split; cbn [w_sb w_dev worker_with].
  - apply T.
  - done.
  - intros ind E H0. rewrite Eind in E. injection E as <-. apply view_owned; specialize (Hind H0); lia.
  - intros bn a H0 E. destruct (Ha bn a H0 E) as (H1 & H2 & -> & H3). split; [apply view_owned; lia|]. rewrite Eind. intros [= E'].
    destruct (ai_inj _ _ _ I i i d d bn (-1) Hd Hd (valid_data _ H1) valid_ind H2 (eq_sym E')). lia.
  - intros bn bn' a H0 H0' E E'. destruct (Ha bn a H0 E) as (H1 & H2 & E1 & _). destruct (Ha bn' a H0' E') as (H1' & _ & E2 & _).
    apply (ai_inj _ _ _ I i i d d bn bn' Hd Hd (valid_data _ H1) (valid_data _ H1') H2). congruence.
  - change (i_inum x) with i. split; [apply view_owned; lia|]. rewrite Eind. intros [= E]. specialize (Hind ltac:(lia)). lia.
  - intros bn H0 E. change (i_inum x) with i in E. destruct (Ha bn _ H0 E) as (_ & _ & _ & H3). lia.
  - assert (to_dinode x = d) as -> by (by destruct d). done.
Qed.

Lemma view_reads i t f d x : F !! i = Some (t, f) -> D !! i = Some d -> file_inv C d f -> i_addrs x = di_addrs d -> reads_as C x 0 (pad f).
Proof using W.
  intros HF Hd Hf Hx j c Hj. rewrite Z.add_0_l. pose proof (ai_typed _ _ _ (fn_alloc _ _ _ _ _ W) i d Hd) as T.
  assert ((j < length (pad f))%nat) as Hlt by (by apply lookup_lt_Some in Hj). unfold pad in Hlt. rewrite length_app, length_replicate in Hlt.
  pose proof (Z.div_mod (Z.of_nat j) BSIZE ltac:(done)) as Hdm. pose proof (Z.mod_pos_bound (Z.of_nat j) BSIZE ltac:(done)) as Hmb.
  pose proof (Z.mod_pos_bound (- size f) BSIZE ltac:(done)) as Hpb. pose proof (fi_len _ _ _ Hf) as Hmax.
  set (q := Z.of_nat j / BSIZE) in *. assert (0 <= q) as Hq by (apply Z.div_pos; [lia|done]).
  assert (q * BSIZE < size f) as Hqf.
  { unfold size in *. change BSIZE with 1024 in *. clear Hj. Z.to_euclidean_division_equations. lia. }
  assert (q < MAXFILE) as Hqm by (unfold size in Hqf; change BSIZE with 1024 in *; change MAXFILE with 268 in *; lia).
  destruct (fi_data _ _ _ Hf q ltac:(lia) Hqf) as (data & Hl & _ & Hr). unfold file_byte. fold q.
  rewrite (file_addr_slot C d) by done. rewrite decide_True by (split; [done|by apply (fi_slot _ _ _ Hf q); [lia|]]).
  cbn [mbind option_bind]. rewrite Hl. cbn [mbind option_bind]. rewrite Hr by lia. f_equal.
  replace (Z.to_nat (q * BSIZE) + Z.to_nat (Z.of_nat j `mod` BSIZE))%nat with j by (change BSIZE with 1024 in *; lia).
  unfold pad in Hj. apply lookup_app_Some in Hj as [Hj|[Hge Hj]]; [by rewrite Hj|].
  apply lookup_replicate in Hj as [-> _]. by rewrite lookup_ge_None_2.
Qed.

(** No block is of two files. *)
Lemma view_apart i j k l a : 0 < i < NINODES -> 0 < j < NINODES -> 0 <= k -> 0 <= l ->
  file_addr C (stored C i) k = Some a -> file_addr C (stored C j) l = Some a -> i = j.
Proof using W.
  intros Hi Hj Hk Hl Ei Ej. pose proof (fn_alloc _ _ _ _ _ W) as I.
  assert (forall i k a, 0 < i < NINODES -> 0 <= k -> file_addr C (stored C i) k = Some a ->
    exists d, D !! i = Some d /\ valid k /\ slot C d k <> 0 /\ slot C d k = a) as Hs.
  { clear i j k l a Hi Hj Hk Hl Ei Ej. intros i k a Hi Hk E. destruct (fn_inodes _ _ _ _ _ W i) as (data & Hd & _ & Ed).
    { change inode_room with 208. unfold NINODES in Hi. lia. }
    destruct (D !! i) as [d|] eqn:HD.
    - rewrite (file_addr_slot C d) in E; [|by apply (ai_typed _ _ _ I i)| |done].
      + destruct (decide _) as [[H1 H2]|]; [|done]. exists d. split; [done|]. split; [apply valid_data; lia|]. split; [done|congruence].
      + unfold stored. rewrite Hd. cbn [default from_option id]. by rewrite Ed.
    - rewrite (file_addr_slot C dinode0), slot_new in E; [|done|apply dinode0_typed| |done].
      + rewrite decide_False in E by tauto. done.
      + unfold stored. rewrite Hd. cbn [default from_option id]. by rewrite Ed. }
  destruct (Hs i k a Hi Hk Ei) as (d & Hd & Vk & H0 & E). destruct (Hs j l a Hj Hl Ej) as (d' & Hd' & Vl & _ & E').
  apply (ai_inj _ _ _ I i j d d' k l Hd Hd' Vk Vl H0). congruence.
Qed.
End view.

(** The file [i], of type [t] and [sz] bytes, has the bytes [f]. *)
Record on_disk C (i t sz : Z) f : Prop := {
  od_ok it : file_ok (Wk := worker_with it sb) (sb_logstart sb) C (stored C i);
  od_type : i_type (stored C i) = t;
  od_nlink : i_nlink (stored C i) = 1;
  od_size : i_size (stored C i) = sz;
  od_data : reads_as C (stored C i) 0 f
}.

(** The image of a file system with the files [files], numbered from 2, whose
    first [fb] blocks are in use *)
Record formatted C (fb : Z) (files : list (list Z * list Z)) : Prop := {
  fm_sb : superblock_of <$> C !! 1 = Some sb;
  fm_log : stands_for (sb_logstart sb) C C;
  fm_disk : disk_ok sb (sb_logstart sb) C;
  fm_used n : 0 <= n < sb_size sb -> used sb C n = (n <? fb);
  fm_root : on_disk C ROOTINO T_DIR ((size (root_bytes files) / BSIZE + 1) * BSIZE) (pad (root_bytes files));
  fm_entry k name f : files !! k = Some (name, f) -> dirent_of (read_at (16 * (2 + k)) 16 (root_bytes files)) =
    {| de_inum := 2 + Z.of_nat k; de_name := take (Z.to_nat DIRSIZ) (name ++ replicate (Z.to_nat DIRSIZ) 0) |};
  fm_file k name f : files !! k = Some (name, f) -> on_disk C (2 + Z.of_nat k) T_FILE (size f) f;
  fm_free i : 2 + Z.of_nat (length files) <= i < sb_ninodes sb -> i_type (stored C i) = 0;
  fm_apart i j k l a : 0 < i < sb_ninodes sb -> 0 < j < sb_ninodes sb -> 0 <= k -> 0 <= l ->
    file_addr C (stored C i) k = Some a -> file_addr C (stored C j) l = Some a -> i = j
}.

Lemma empty_log C : C !! 2 = Some zeroes -> stands_for 2 C C.
Proof.
  intros H. exists [], [], zeroes. split; [|done]. split; try done.
  - change (Z.to_nat LOGSIZE) with 30%nat. cbn. lia.
  - apply NoDup_nil_2.
  - intros b Hb. by apply elem_of_nil in Hb.
Qed.

Lemma finished_formatted C fb D F files : finished C fb (2 + Z.of_nat (length files)) D F -> 2 + Z.of_nat (length files) <= NINODES ->
  F !! ROOTINO = Some (T_DIR, root_bytes files) -> (forall k x, files !! k = Some x -> F !! (2 + Z.of_nat k) = Some (T_FILE, x.2)) ->
  formatted C fb files.
Proof.
  intros W Hn Hr Hf. split.
  - rewrite (fn_fixed _ _ _ _ _ W 1) by done. vm_compute. reflexivity.
  - apply empty_log. by rewrite (fn_fixed _ _ _ _ _ W 2).
  - by apply (view_disk C fb (2 + Z.of_nat (length files)) D F).
  - by apply (view_used C fb (2 + Z.of_nat (length files)) D F).
  - destruct (view_file C fb _ D F W [] ROOTINO _ _ Hr ltac:(done)) as (d & Hd & Hi & Es & _). split; [|rewrite Es; done..|].
    + intros it. by destruct (view_file C fb _ D F W it ROOTINO _ _ Hr ltac:(done)) as (? & ? & ? & ? & ?).
    + apply (view_reads C fb _ D F W ROOTINO T_DIR _ d); [done..|by rewrite Es].
  - intros k name f Hk. unfold root_bytes. rewrite (read_at_skip _ _ 32) by (rewrite ?length_app, ?length_entry; lia).
    replace (16 * (2 + k) - 32)%nat with (16 * k)%nat by lia. rewrite (listing_entry _ _ _ _ _ Hk). apply dirent_entry.
    apply lookup_lt_Some in Hk. unfold NINODES in Hn. lia.
  - intros k name f Hk. apply Hf in Hk as HF. cbn [snd] in HF. assert (2 + Z.of_nat k < NINODES) as Hlt.
    { apply lookup_lt_Some in Hk. lia. }
    destruct (view_file C fb _ D F W [] _ _ _ HF Hlt) as (d & Hd & Hi & Es & _).
    assert (disk_size (2 + Z.of_nat k) f = size f) as Esz by (unfold disk_size; destruct (Z.eqb_spec (2 + Z.of_nat k) ROOTINO); [unfold ROOTINO in *; lia|done]).
    rewrite Esz in Es. split; [|rewrite Es; done..|].
    + intros it. by destruct (view_file C fb _ D F W it _ _ _ HF Hlt) as (? & ? & ? & ? & ?).
    + assert (reads_as C (stored C (2 + Z.of_nat k)) 0 (pad f)) as R by (apply (view_reads C fb _ D F W (2 + Z.of_nat k) T_FILE f d); [done..|by rewrite Es]).
      by apply reads_as_app in R as [R _].
  - intros i Hi. change (sb_ninodes sb) with 200 in Hi. destruct (fn_inodes _ _ _ _ _ W i) as (data & Hd & _ & Ed); [change inode_room with 208; lia|].
    unfold stored. rewrite Hd. cbn [default from_option id]. rewrite Ed, (fn_dom _ _ _ _ _ W i); [done|].
    destruct (F !! i) eqn:E; [|done]. pose proof (fn_range _ _ _ _ _ W i ltac:(by eexists)). lia.
  - apply (view_apart C fb _ D F W).
Qed.

(** C28: mkfs, given files that can be read, with plain names of at most
    DIRSIZ characters, no longer than a file can be, and that have room
    together, returns with an image that has the super block, a log with
    nothing to install, and exactly the first blocks marked in the bitmap; the
    root directory holds the entries of the files, and each file, its name
    without the directory and the underscore, the bytes that were read.  The
    inodes satisfy what the kernel's readi and writei need, the others are
    free, and no block is of two files. *)
Theorem mkfs_correct args files e : Forall2 argument args files -> 2 + Z.of_nat (length files) <= NINODES ->
  let fb := nmeta + need (size (root_bytes files)) + data_blocks files in fb <= FSSIZE ->
  exists s, mkfs_main (Some true) args (mkWorld mkfs0 e) = Ok tt (mkWorld s e) /\ freeblock s = fb /\ formatted (img s) fb files.
Proof.
  intros Ha Hn fb Hfb. destruct (mkfs_main_ok args files e Ha Hn Hfb) as (C & D & F & E & W & Hr & Hf).
  eexists. split; [exact E|]. split; [done|]. by apply (finished_formatted C fb D F).
Qed.

(** Two files, one in two pieces *)
Lemma mkfs_correct_witness : exists s,
  mkfs_main (Some true) [(bytes_of "user/_cat", Some [[1; 2]; [3]]); (bytes_of "README", Some [])] (mkWorld mkfs0 []) = Ok tt (mkWorld s []) /\
  freeblock s = 48 /\ formatted (img s) 48 [(bytes_of "cat", [1; 2; 3]); (bytes_of "README", [])].
Proof.
  apply (mkfs_correct _ [(bytes_of "cat", [1; 2; 3]); (bytes_of "README", [])] []).
  - repeat constructor; try (by apply (bool_decide_unpack _)); try done.
    + exists [[1; 2]; [3]]. split; [reflexivity|]. split; [repeat constructor; discriminate|reflexivity].
    + exists []. split; [reflexivity|]. split; [constructor|reflexivity].
  - done.
  - by apply (bool_decide_unpack _).
Defined.
