(* ===== verification/BootSpec.v ===== *)
(** * From mkfs to the kernel

    mkfs writes the image of a file system, and the kernel boots on it: fsinit
    finds the super block and an empty log, and the name of each file leads
    through the root directory to an inode that has its bytes.  The parts that
    work together here are mkfs, the log, the buffer cache, the inodes, the
    directories and, in the example, the disk driver. *)

From S2P Require Import Prelude Prog State Spinlock Switch CStr Kalloc Sleeplock Virtio Bio Cache Log LogSpec Fs FsSpec FileData DirSpec VirtioSpec Mkfs MkfsSpec MkfsImage.

Implicit Types (C : gmap Z (list Z)) (files : list (list Z * list Z)) (f name : list Z).

(** ** The entries of the root directory *)

Lemma entry_list_app bs1 bs2 : (16 * (length bs1 / 16) = length bs1)%nat -> entry_list (bs1 ++ bs2) = entry_list bs1 ++ entry_list bs2.
Proof.
  intros H1. unfold entry_list. rewrite length_app. set (q := (length bs1 / 16)%nat) in *.
  replace ((length bs1 + length bs2) / 16)%nat with (q + length bs2 / 16)%nat
    by (rewrite <- H1, Nat.mul_comm, Nat.div_add_l by lia; done).
  clearbody q. rewrite seq_app, fmap_app. f_equal; [|rewrite Nat.add_0_l].
  - apply list_fmap_ext. intros i k Hk. apply lookup_seq in Hk as [-> Hk]. unfold entry_at, read_at. f_equal.
    rewrite drop_app_le, take_app_le by (rewrite ?length_drop; lia). done.
  - assert (forall n, seq q n = Nat.add q <$> seq 0 n) as -> by (intros n; by rewrite fmap_add_seq, Nat.add_0_r). rewrite <- list_fmap_compose. apply list_fmap_ext. intros i k Hk. unfold compose, entry_at, read_at. f_equal.
    rewrite drop_app_ge by lia. do 2 f_equal. lia.
Qed.

Definition entry_of (i : Z) name : dirent := {| de_inum := i; de_name := take (Z.to_nat DIRSIZ) (name ++ replicate (Z.to_nat DIRSIZ) 0) |}.

Lemma entry_list_entry i name : 0 <= i < 65536 -> entry_list (entry i name) = [entry_of i name].
Proof.
  intros Hi. unfold entry_list. rewrite length_entry. change (16 / 16)%nat with 1%nat. cbn [seq fmap list_fmap]. f_equal.
  unfold entry_at, read_at. rewrite Nat.mul_0_r, drop_0, take_ge by (by rewrite length_entry). by apply dirent_entry.
Qed.

Fixpoint entries (i : Z) files : list dirent :=
  match files with
  | [] => []
  | (name, _) :: files => entry_of i name :: entries (i + 1) files
  end.

Lemma entry_list_listing i files : 0 <= i -> i + Z.of_nat (length files) <= 65536 -> entry_list (listing i files) = entries i files.
Proof.
  revert i. induction files as [|[name f] files IH]; intros i H0 Hi; [done|]. cbn [listing entries length] in *.
  rewrite entry_list_app by (by rewrite length_entry). rewrite entry_list_entry, IH by lia. done.
Qed.

Lemma entry_list_zeros n de : de ∈ entry_list (replicate n 0) -> de_inum de = 0.
Proof.
  unfold entry_list. intros H. apply list_elem_of_fmap in H as (k & -> & Hk). unfold entry_at, dirent_of, read_at. cbn [de_inum].
  rewrite drop_replicate, take_replicate, drop_replicate, take_replicate. set (m := (_ `min` _)%nat). assert (m <= 2)%nat as Hm by lia. clearbody m.
  destruct m as [|[|[|m]]]; [done..|lia].
Qed.

Lemma root_entries files : 2 + Z.of_nat (length files) <= NINODES ->
  exists zs, entry_list (pad (root_bytes files)) = [entry_of ROOTINO (bytes_of "."); entry_of ROOTINO (bytes_of "..")] ++ entries 2 files ++ zs /\
    forall de, de ∈ zs -> de_inum de = 0.
Proof.
  intros Hn. unfold NINODES in Hn. unfold pad, root_bytes. pose proof (size_listing 2 files) as Hl. unfold size in Hl. eexists. split.
  - rewrite entry_list_app, entry_list_app, entry_list_app, !entry_list_entry, entry_list_listing.
    + rewrite <- !app_assoc. done.
    + lia.
    + lia.
    + done.
    + done.
    + by rewrite length_entry.
    + by rewrite length_app, !length_entry.
    + rewrite !length_app, !length_entry. replace (length (listing 2 files)) with (length files * 16)%nat by lia.
      replace (16 + 16 + length files * 16)%nat with ((2 + length files) * 16)%nat by lia. rewrite Nat.div_mul by lia. lia.
  - intros de Hde. by apply entry_list_zeros in Hde.
Qed.

(** ** Looking a name up in it *)

Lemma cname_pad name n : 0 ∉ name -> (length name <= n)%nat -> cname (take n (name ++ replicate n 0)) = name.
Proof.
  revert n. induction name as [|c name IH]; intros n Hz Hl.
  - destruct n; [done|]. rewrite app_nil_l, take_replicate, Nat.min_id. done.
  - destruct n as [|n]; [cbn in Hl; lia|]. apply not_elem_of_cons in Hz as [Hc Hz]. cbn [app take cname].
    destruct (Z.eqb_spec c 0); [congruence|]. f_equal. rewrite <- (IH n Hz) at 2 by (cbn in Hl; lia). f_equal.
    rewrite !take_app. f_equal. rewrite !take_replicate. f_equal. cbn in Hl. lia.
Qed.

(** A name as mkfs makes them, that a path can have *)
Record plain name : Prop := {
  pl_some : name <> [];
  pl_chars : (0 ∉ name) /\ chr "/" ∉ name;
  pl_bytes : Forall is_byte name;
  pl_short : (length name <= Z.to_nat DIRSIZ)%nat
}.

Lemma named_entry i name el : plain name -> plain el -> 0 < i -> named el (entry_of i name) <-> name = el.
Proof.
  intros [_ [A1 _] _ A3] [_ [_ _] _ B3] Hi. unfold named, entry_of. cbn [de_inum de_name]. rewrite cname_pad by done.
  rewrite (take_ge el) by done. split; [by intros [_ ->]|]. intros ->. split; [lia|done].
Qed.

Definition has_name name (x : list Z * list Z) : Prop := x.1 = name.
#[export] Instance has_name_dec name x : Decision (has_name name x).
Proof. unfold has_name. apply _. Defined.

Lemma find_entries i files name zs : 0 < i -> plain name -> Forall (fun x => plain x.1) files -> (forall de, de ∈ zs -> de_inum de = 0) ->
  list_find (named name) (entries i files ++ zs) =
  (fun '(k, _) => (k, entry_of (i + Z.of_nat k) name)) <$> list_find (has_name name) files.
Proof.
  intros Hi Hn Hf Hz. revert i Hi. induction Hf as [|[n f] files Hp Hf IH]; intros i Hi; cbn [entries app list_find].
  - apply list_find_None, Forall_forall. intros de Hde [Hd _]. by apply Hd, Hz.
  - cbn [fst] in Hp. destruct (decide (named name (entry_of i n))) as [Hd|Hd].
    + apply (named_entry i n name Hp Hn Hi) in Hd as ->. rewrite decide_True by done. cbn. by rewrite Z.add_0_r.
    + rewrite decide_False by (intros Hx; apply Hd; by apply (named_entry i n name Hp Hn Hi)). rewrite IH by lia.
      destruct (list_find (has_name name) files) as [[k x]|]; [|done]. cbn. do 3 f_equal. lia.
Qed.

Definition dotted name : Prop := name = bytes_of "." \/ name = bytes_of "..".

Lemma plain_dot : plain (bytes_of ".") /\ plain (bytes_of "..").
Proof. split; split; try done; try (by apply (bool_decide_unpack _)); repeat constructor; done. Qed.

Lemma dir_find_root files name : 2 + Z.of_nat (length files) <= NINODES -> plain name -> ~ dotted name -> Forall (fun x => plain x.1) files ->
  dir_find name (pad (root_bytes files)) = (fun '(k, _) => ((2 + k)%nat, entry_of (2 + Z.of_nat k) name)) <$> list_find (has_name name) files.
Proof.
  intros Hl Hn Hd Hf. destruct (root_entries files Hl) as (zs & E & Hz). unfold dir_find. rewrite E. destruct plain_dot as [P1 P2].
  cbn [app list_find]. rewrite !decide_False.
  - rewrite find_entries by done. by destruct (list_find (has_name name) files) as [[k x]|].
  - intros Hx. apply named_entry in Hx; [|done..]. by apply Hd; right.
  - intros Hx. apply named_entry in Hx; [|done..]. by apply Hd; left.
Qed.

(** ** The tree on the disk *)

Lemma entry_bytes i name : Forall is_byte name -> Forall is_byte (entry i name).
Proof.
  intros Hb. unfold entry, dirent_bytes. cbn [de_inum de_name]. apply Forall_app. split; [apply le_split_bytes|].
  apply Forall_take, Forall_app. split; [done|]. apply Forall_replicate. done.
Qed.

Lemma root_is_bytes files : Forall (fun x => plain x.1) files -> Forall is_byte (pad (root_bytes files)).
Proof.
  intros Hf. unfold pad, root_bytes. rewrite !Forall_app. destruct plain_dot as [P1 P2].
  split; [split; [split; apply entry_bytes; [apply P1|apply P2]|]|by apply Forall_replicate].
  generalize 2. induction Hf as [|[n f] files Hp Hf IH]; intros i; cbn [listing]; [done|]. apply Forall_app. split; [apply entry_bytes, Hp|apply IH].
Qed.

(** The root directory ends in the middle of a block: then its size, that mkfs
    rounds up to one block more than are full, is that of its blocks. *)
Definition root_fits files : Prop := size (root_bytes files) `mod` BSIZE <> 0.

Lemma length_pad_root files : root_fits files ->
  Z.of_nat (length (pad (root_bytes files))) = (size (root_bytes files) / BSIZE + 1) * BSIZE.
Proof.
  unfold root_fits. intros H. unfold pad. rewrite length_app, length_replicate. unfold size in *. change BSIZE with 1024 in *.
  set (n := Z.of_nat (length (root_bytes files))) in *. rewrite Nat2Z.inj_add. fold n. clearbody n.
  pose proof (Z.mod_pos_bound (- n) 1024 ltac:(lia)). rewrite Z2Nat.id by lia. rewrite Z.mod_opp_l_nz by lia.
  pose proof (Z.div_mod n 1024 ltac:(lia)). lia.
Qed.

Section image.
Context {Wk : Worker} (Hsb : w_sb = sb) (C : gmap Z (list Z)) (fb : Z) (files : list (list Z * list Z)) (Fm : formatted C fb files).
Context (Hn : 2 + Z.of_nat (length files) <= NINODES) (Hp : Forall (fun x => plain x.1) files) (Hr : root_fits files).

Lemma dnode_stored i : dnode C i = to_dinode (stored C i).
Proof using Hsb. unfold dnode, stored. rewrite Hsb. by destruct (dinode_at _ i). Qed.

Lemma on_disk_live i t sz f : on_disk C i t sz f -> t <> 0 -> 0 < i < sb_ninodes sb -> live C i.
Proof using Hsb Fm.
  intros [O1 O2 O3 O4 O5] Ht Hi. split; [by rewrite Hsb|]. destruct (fo_inode _ _ _ (O1 [])) as [[Ho _ _ _] _].
  assert (0 < IBLOCK i sb < sb_size sb) as Ho' by exact Ho. clear Ho. split; [|rewrite dnode_stored; split; [cbn in *; congruence|cbn in *; congruence]].
  rewrite Hsb. destruct (dk_block _ _ _ (fm_disk _ _ _ Fm) (IBLOCK i sb)) as (data & Hd & _); [lia|by exists data].
Qed.

Lemma file_live k x : files !! k = Some x -> live C (2 + Z.of_nat k).
Proof using Hsb Fm Hn.
  intros Hk. destruct x as [name f]. apply (on_disk_live _ T_FILE (size f) f); [by apply (fm_file _ _ _ Fm k name)|done|].
  apply lookup_lt_Some in Hk. change (sb_ninodes sb) with NINODES. unfold NINODES in *. lia.
Qed.

Lemma root_live : live C ROOTINO.
Proof using Hsb Fm. by apply (on_disk_live _ T_DIR _ _ (fm_root _ _ _ Fm)). Qed.

Lemma entries_live i l de : de ∈ entries i l -> exists k, (k < length l)%nat /\ de_inum de = i + Z.of_nat k.
Proof.
  revert i. induction l as [|[n f] l IH]; intros i Hde; cbn [entries] in Hde; [by apply elem_of_nil in Hde|].
  apply elem_of_cons in Hde as [->|Hde]; [exists 0%nat; cbn; split; lia|]. apply IH in Hde as (k & Hk & E). exists (S k). cbn. split; lia.
Qed.

Lemma root_dir : dir_ok C ROOTINO (pad (root_bytes files)).
Proof using Hsb Fm Hn Hp Hr.
  destruct (fm_root _ _ _ Fm) as [O1 O2 O3 O4 O5]. pose proof (length_pad_root files Hr) as Hl. pose proof (dnode_stored ROOTINO) as Ed.
  assert (size (root_bytes files) <= 3200) as Hs.
  { unfold root_bytes, size. rewrite !length_app, !length_entry. pose proof (size_listing 2 files) as H2. unfold size, NINODES in *. lia. }
  assert (size (root_bytes files) / BSIZE <= 3) as Hq by (change BSIZE with 1024; apply Z.lt_succ_r, Z.div_lt_upper_bound; lia).
  assert (i_addrs (node C ROOTINO) = i_addrs (stored C ROOTINO)) as Ea by exact (f_equal di_addrs Ed).
  split.
  - rewrite Ed. exact O2.
  - rewrite Ed, Hl. exact O4.
  - rewrite Hl. change BSIZE with 1024 in *. lia.
  - apply Nat2Z.inj. rewrite Nat2Z.inj_mul, Nat2Z.inj_div, Hl. change BSIZE with 1024. change (Z.of_nat 16) with 16.
    replace ((size (root_bytes files) / 1024 + 1) * 1024) with ((size (root_bytes files) / 1024 + 1) * 64 * 16) by lia. rewrite Z.div_mul by lia. lia.
  - by apply root_is_bytes.
  - intros i c Hi. apply (file_byte_same C C (stored C ROOTINO)); [done|done|lia|]. by apply O5.
  - intros bn a data Hb Ha Hd. rewrite (file_addr_same C C (stored C ROOTINO) _ bn ltac:(done) Ea) in Ha.
    destruct (fo_data _ _ _ (O1 []) bn a Hb Ha) as [[Ho _ _ _] _]. assert (0 < a < sb_size sb) as Ho' by exact Ho.
    destruct (dk_block _ _ _ (fm_disk _ _ _ Fm) a) as (data' & Hd' & B); [lia|]. by rewrite Hd in Hd'; injection Hd' as ->.
Qed.

Lemma image_tree : tree C {[ROOTINO := pad (root_bytes files)]}.
Proof using Hsb Fm Hn Hp Hr.
  split.
  - intros i bs Hi. apply lookup_singleton_Some in Hi as [<- <-]. exact root_dir.
  - intros i (Hi & _ & Ht & _) Hd. destruct (decide (i = ROOTINO)) as [->|Hne]; [rewrite lookup_singleton_eq; by eexists|]. exfalso.
    rewrite dnode_stored in Hd, Ht. rewrite Hsb in Hi. unfold ROOTINO in Hne. destruct (decide (i < 2 + Z.of_nat (length files))).
    + destruct (lookup_lt_is_Some_2 files (Z.to_nat (i - 2))) as [[name f] Hk]; [lia|].
      pose proof (od_type _ _ _ _ _ (fm_file _ _ _ Fm _ _ _ Hk)) as Ot. rewrite Z2Nat.id in Ot by lia. replace (2 + (i - 2)) with i in Ot by lia.
      assert (i_type (stored C i) = T_DIR) as Hd' by exact Hd. by rewrite Ot in Hd'.
    + apply Ht. exact (fm_free _ _ _ Fm i ltac:(lia)).
  - intros i bs de Hi Hde H0. apply lookup_singleton_Some in Hi as [<- <-]. destruct (root_entries files Hn) as (zs & E & Hz). rewrite E in Hde.
    rewrite !elem_of_app, !elem_of_cons in Hde. destruct Hde as [[->|[->|Hx]]|[Hde|Hde]].
    + exact root_live.
    + exact root_live.
    + by apply elem_of_nil in Hx.
    + apply entries_live in Hde as (k & Hk & ->). destruct (lookup_lt_is_Some_2 files k Hk) as [x Hx]. by apply (file_live k x).
    + by apply Hz in Hde.
Qed.
End image.

(** ** The kernel on it *)

Definition with_sb (S : superblock) (Wk : Worker) : Worker :=
  {| w_proc := w_proc; w_pid := w_pid; w_dev := w_dev; w_inodes := w_inodes; w_sb := S |}.

Lemma fsst_sb {Wk : Worker} {K : Disk} {DS : DiskSpec} S s C Pn H P W L : fsst s C Pn H P W L ->
  fsst (Wk := with_sb S Wk) (mapd (set_sb S) s) C Pn H P W L.
Proof.
  intros [Fc Fk Fa FP FW FL FR FD]. split; [by apply calm_mapd|exact Fk| |exact FP|exact FW|exact FL| |exact FD].
  - destruct Fa as [A1 A2 A3 A4 A5 A6 A7 A8]. split; [exact A1|..|exact A8]; try done.
    intros b bp Hb Hl. destruct (A2 b bp Hb Hl) as [B1 B2 B3 B4]. by split.
  - cbn. destruct FR as [-> _]. done.
Qed.

Lemma fsinit_spec {Wk : Worker} {K : Disk} {DS : DiskSpec} s P W L data h e :
  fsst s P [] [] P W L -> length (lh_block L) = Z.to_nat LOGSIZE -> w_dev = ROOTDEV -> P !! 1 = Some data ->
  sb_magic (superblock_of data) = FSMAGIC -> 0 <= sb_logstart (superblock_of data) < 2147483000 ->
  logged (sb_logstart (superblock_of data)) P [] [] h -> head_bytes [] h = h ->
  exists s' L', fsinit ROOTDEV (mkWorld s e) = Ok tt (mkWorld s' e) /\
    fsst (Wk := with_sb (superblock_of data) Wk) s' P [] [] P ((sb_logstart (superblock_of data), h) :: W) L'.
Proof.
  intros F Hl Hd Hp Hm Hs Hlog Hh. unfold fsinit, readsb. rewrite !bind_assoc. replace (u32 ROOTDEV) with w_dev by (by rewrite Hd).
  destruct (bread_spec s P [] [] P W L 1 data e F Hp) as (b & s1 & E1 & F1); [apply not_elem_of_nil|right; unfold NBUF; cbn; lia|].
  rewrite (bind_Ok _ _ _ _ _ E1), bind_assoc, (bind_Ok _ _ _ _ _ (get_data_spec _ _ _ _ _ _ _ b 1 data e F1 ltac:(by left) Hp)).
  destruct (brelse_spec s1 P [] _ [] P W L b 1 e F1) as (s2 & E2 & F2); [done|by left|].
  rewrite bind_assoc, (bind_Ok _ _ _ _ _ E2). run. set (S := superblock_of data) in *.
  rewrite (bind_Ok _ _ _ tt (mkWorld (mapd (set_sb S) s2) e)) by done. rewrite Hm. change (negb (FSMAGIC =? FSMAGIC)) with false. cbv iota.
  assert (s32 (sb_logstart S) = sb_logstart S) as Es by (apply s32_small; lia).
  destruct (initlog_fsst (Wk := with_sb S Wk) (mapd (set_sb S) s2) P W L ROOTDEV S [] [] h e (fsst_sb S _ _ _ _ _ _ _ F2) Hl) as (s3 & L3 & E3 & F3);
    [exact (eq_sym Hd)|by rewrite Es|by rewrite Es|]. rewrite Es in F3. unfold recovery_writes in F3. change (home_writes [] []) with (@nil (Z * list Z)) in F3.
  rewrite Hh in F3. cbn [app apply_writes foldl] in F3. rewrite (insert_id P _ h) in F3 by apply (ld_head _ _ _ _ _ Hlog).
  exists s3, L3. split; [exact E3|exact F3].
Qed.

(** A table of inodes with nothing in it *)
Definition empty_table (it : list inode) : Prop := length it = NINODE /\ Forall (fun x => i_ref x = 0 /\ sl_locked (i_lock x) = 0) it.

Lemma empty_refs it : empty_table it -> refs it = ∅.
Proof.
  intros [_ H]. unfold refs. replace (filter in_use it) with (@nil inode); [done|]. symmetry.
  induction H as [|x it [Hx _] H IH]; [done|]. rewrite filter_cons, decide_False; [exact IH|]. unfold in_use. rewrite Hx. intros [].
Qed.

Lemma empty_itab {Wk : Worker} C it : empty_table it -> itab C it None.
Proof.
  intros [Hl H]. rewrite Forall_forall in H. assert (forall k x, it !! k = Some x -> i_ref x = 0 /\ sl_locked (i_lock x) = 0) as Hx.
  { intros k x Hk. apply H. by eapply list_elem_of_lookup_2. }
  assert (forall k x, it !! k = Some x -> ~ in_use x) as Hu by (intros k x Hk; unfold in_use; rewrite (proj1 (Hx k x Hk)); intros []).
  split; [done|..].
  - intros k k' x x' Hk _ Hux. by apply Hu in Hk.
  - intros x Hin. destruct (H x Hin) as [-> _]. lia.
  - intros k x Hk. rewrite decide_False by done. by apply (Hx k).
  - intros k x Hk Hux. by apply Hu in Hk.
Qed.

Lemma elements_plain cur name : chr "/" ∉ name -> elements cur name = flush (cur ++ name).
Proof.
  revert cur. induction name as [|c name IH]; intros cur Hn; [by rewrite app_nil_r|]. apply not_elem_of_cons in Hn as [Hc Hn]. cbn [elements].
  destruct (Z.eqb_spec c (chr "/")); [congruence|]. rewrite IH by done. by rewrite <- app_assoc.
Qed.

(** The path of a file in the root directory *)
Definition path_of name : list Z := (chr "/" :: name) ++ [0].

Lemma path_elements name : plain name -> elements [] (chr "/" :: name) = [name].
Proof. intros [A1 [_ A2] _ _]. cbn [elements]. rewrite Z.eqb_refl. cbn [flush app]. rewrite elements_plain by done. by destruct name. Qed.

Section open.
Context {Wk : Worker} {K : Disk} {DS : DiskSpec} (Hsb : w_sb = sb) (Hdev : w_dev = ROOTDEV).
Context (C : gmap Z (list Z)) (fb : Z) (files : list (list Z * list Z)) (Fm : formatted C fb files).
Context (Hn : 2 + Z.of_nat (length files) <= NINODES) (Hp : Forall (fun x => plain x.1) files) (Hr : root_fits files).
Context (it : list inode) (Hit : empty_table it) (s : kstate) (P : gmap Z (list Z)) (W : list (Z * list Z)) (L : logstate) (T : tst C it s [] P W L).

(** What namei makes of the path of a file *)
Lemma namei_root name e : plain name -> ~ dotted name ->
  exists r it' s', namei (path_of name) (mkWorld s e) = Ok (fst <$> r) (mkWorld s' e) /\ tst C it' s' [] P W L /\ itab C it' None /\
    found ∅ false (chr "/" :: name) ((fun '(k, _) => 2 + Z.of_nat k) <$> list_find (has_name name) files) r it'.
Proof using All.
  intros Hpl Hd. pose proof Hpl as [_ [Hz _] Hb _].
  destruct (namex_spec C {[ROOTINO := pad (root_bytes files)]} it s [] P W L false ROOTINO (chr "/" :: name) [] (replicate (Z.to_nat DIRSIZ) 0) e)
    as (r & it' & s' & E & T' & A' & F'); try done.
  - by apply empty_itab.
  - by apply (image_tree Hsb C fb).
  - by apply (root_live Hsb C fb files).
  - unfold NBUF. cbn. lia.
  - rewrite (empty_refs it Hit). rewrite map_size_empty. unfold NINODE. lia.
  - intros i. rewrite (empty_refs it Hit), lookup_empty. cbn. lia.
  - apply not_elem_of_cons. by split.
  - by constructor.
  - exists r, it', s'. split; [unfold namei, path_of; by rewrite (bind_Ok _ _ _ _ _ E)|]. split; [done|]. split; [done|].
    rewrite (empty_refs it Hit), (path_elements name Hpl) in F'. cbn [resolve] in F'. rewrite lookup_singleton_eq in F'. cbn [andb] in F'.
    rewrite (dir_find_root files name Hn Hpl Hd Hp) in F'. by destruct (list_find (has_name name) files) as [[k x]|].
Qed.

(** A file is found, locked and read. *)
Lemma open_file k name f dst e : plain name -> ~ dotted name -> size f < 2147483648 -> list_find (has_name name) files = Some (k, (name, f)) ->
  exists ip s1 s2 s3, namei (path_of name) (mkWorld s e) = Ok (Some ip) (mkWorld s1 e) /\ ilock (Some ip) (mkWorld s1 e) = Ok tt (mkWorld s2 e) /\
    readi ip false dst 0 (size f) (mkWorld s2 e) = Ok (size f, f) (mkWorld s3 e).
Proof using All.
  intros Hpl Hd Hsz Hf. destruct (namei_root name e Hpl Hd) as (r & it1 & s1 & E1 & T1 & A1 & F1). rewrite Hf in F1.
  destruct F1 as (ip & nm & x & -> & Hx & Hu & Hi & _). pose proof Hf as Hf'. apply list_find_Some in Hf' as (Hk & _ & _).
  destruct (ilock_tab C it1 s1 [] P W L ip x e T1 A1 Hx Hu ltac:(unfold NBUF; cbn; lia)) as (it2 & s2 & E2 & T2 & A2 & _ & (y & Hy & _ & _ & Hdy & _ & Hty)).
  rewrite Hi in Hty. rewrite (dnode_stored Hsb) in Hty. destruct (fm_file _ _ _ Fm k name f Hk) as [O1 O2 O3 O4 O5]. set (i := 2 + Z.of_nat k) in *.
  assert (i_addrs y = i_addrs (stored C i)) as Ea by exact (f_equal di_addrs Hty).
  assert (i_size y = size f) as Es by (etransitivity; [exact (f_equal di_size Hty)|exact O4]).
  destruct (readi_spec (Wk := with_inodes it2 Wk) s2 C [] P W L ip y dst 0 (size f) f e T2 Hy Hdy) as (s3 & E3 & _).
  - unfold NBUF. cbn. lia.
  - intros bn a data Hbn Ha Hda. rewrite (file_addr_same C C (stored C i) y bn ltac:(done) Ea) in Ha.
    destruct (fo_data _ _ _ (O1 []) bn a Hbn Ha) as [[Ho _ _ _] _]. assert (0 < a < sb_size sb) as Ho' by exact Ho.
    destruct (dk_block _ _ _ (fm_disk _ _ _ Fm) a) as (data' & Hd' & B); [lia|]. by rewrite Hda in Hd'; injection Hd' as ->.
  - rewrite Es. unfold size. lia.
  - by rewrite Es.
  - unfold size. lia.
  - lia.
  - rewrite Es. unfold size. lia.
  - intros j c Hj. apply (file_byte_same C C (stored C i)); [done|done|lia|]. by apply O5.
  - exists ip, s1, s2, s3. split; [exact E1|]. split; [exact E2|exact E3].
Qed.

Lemma open_missing name e : plain name -> ~ dotted name -> list_find (has_name name) files = None ->
  exists s1, namei (path_of name) (mkWorld s e) = Ok None (mkWorld s1 e).
Proof using All.
  intros Hpl Hd Hf. destruct (namei_root name e Hpl Hd) as (r & it1 & s1 & E1 & _ & _ & F1). rewrite Hf in F1. destruct F1 as [-> _]. by exists s1.
Qed.
End open.

(** ** From the files to the kernel *)

(** A machine that has booted on the platter [P], as far as forkret: nothing is
    in the cache, nor in the table of inodes. *)
Definition fresh {Wk : Worker} {K : Disk} {DS : DiskSpec} (s : kstate) (P : gmap Z (list Z)) : Prop :=
  exists W L, fsst s P [] [] P W L /\ length (lh_block L) = Z.to_nat LOGSIZE /\ w_dev = ROOTDEV /\ empty_table w_inodes.

Lemma image_logged C : C !! 2 = Some zeroes -> logged 2 C [] [] zeroes.
Proof.
  intros H. split; try done.
  - change (Z.to_nat LOGSIZE) with 30%nat. cbn. lia.
  - apply NoDup_nil_2.
  - intros b Hb. by apply elem_of_nil in Hb.
Qed.

Lemma fresh_fsinit {Wk : Worker} {K : Disk} {DS : DiskSpec} s C fb D F fi e : finished C fb fi D F -> fresh s C ->
  exists s' W L, fsinit ROOTDEV (mkWorld s e) = Ok tt (mkWorld s' e) /\ fsst (Wk := with_sb sb Wk) s' C [] [] C W L.
Proof.
  intros Fn (W & L & F0 & Hl & Hd & _). pose proof (fn_fixed _ _ _ _ _ Fn 1 ltac:(lia)) as H1. pose proof (fn_fixed _ _ _ _ _ Fn 2 ltac:(lia)) as H2.
  assert (superblock_of (fixed 1) = sb) as Es by (vm_compute; reflexivity). change (fixed 2) with zeroes in H2.
  destruct (fsinit_spec s C W L (fixed 1) zeroes e F0 Hl Hd H1) as (s' & L' & E & F1).
  - by rewrite Es.
  - rewrite Es. change (sb_logstart sb) with 2. lia.
  - rewrite Es. by apply image_logged.
  - vm_compute. reflexivity.
  - rewrite Es in F1. eexists s', _, L'. split; [exact E|exact F1].
Qed.

Lemma argument_sizes args files : Forall2 argument args files -> forall k x, files !! k = Some x -> size x.2 < 2147483648.
Proof.
  intros H k x Hk. destruct (Forall2_lookup_r _ _ _ _ _ H Hk) as (a & _ & [_ _ _ _ Hs]). change (MAXFILE * BSIZE) with 274432 in Hs. lia.
Qed.

(** C1: What mkfs writes the kernel reads.  Give mkfs files that it can read,
    with plain names of at most DIRSIZ characters, no longer than a file can be
    and with room together, so many that the root directory does not end with
    a block.  It returns; and when a kernel boots on the image, with any disk
    that does what the buffer cache relies on, fsinit returns, with the super
    block and nothing to recover; then namei of "/name" returns for the name of
    a file, the inode can be locked, and readi of the whole of it gives the
    bytes of the first file of this name; for a name that no file has, namei
    returns the null pointer. *)
Theorem mkfs_kernel args files e0 : Forall2 argument args files -> Forall (fun x => plain x.1) files ->
  2 + Z.of_nat (length files) <= NINODES -> root_fits files ->
  nmeta + need (size (root_bytes files)) + data_blocks files <= FSSIZE ->
  exists m, mkfs_main (Some true) args (mkWorld mkfs0 e0) = Ok tt (mkWorld m e0) /\
  forall (Wk : Worker) (K : Disk) (DS : DiskSpec) s e, fresh s (img m) ->
  exists s1, fsinit ROOTDEV (mkWorld s e) = Ok tt (mkWorld s1 e) /\
  forall name, plain name -> ~ dotted name ->
  match list_find (has_name name) files with
  | Some (_, (_, f)) => forall dst, exists ip s2 s3 s4, namei (path_of name) (mkWorld s1 e) = Ok (Some ip) (mkWorld s2 e) /\
      ilock (Some ip) (mkWorld s2 e) = Ok tt (mkWorld s3 e) /\ readi ip false dst 0 (size f) (mkWorld s3 e) = Ok (size f, f) (mkWorld s4 e)
  | None => exists s2, namei (path_of name) (mkWorld s1 e) = Ok None (mkWorld s2 e)
  end.
Proof.
  intros Ha Hp Hn Hr Hfb. destruct (mkfs_main_ok args files e0 Ha Hn Hfb) as (C & D & F & E & Fn & HR & HF).
  pose proof (finished_formatted C _ D F files Fn Hn HR HF) as Fm. eexists. split; [exact E|]. intros Wk K DS s e Hs. cbn [img] in Hs.
  destruct (fresh_fsinit s C _ D F _ e Fn Hs) as (s1 & W & L & E1 & T1). exists s1. split; [exact E1|]. destruct Hs as (_ & _ & _ & _ & Hd & Ht).
  assert (tst (Wk := with_sb sb Wk) C w_inodes s1 [] C W L) as T2 by exact T1. intros name Hpl Hdot.
  destruct (list_find (has_name name) files) as [[k [name' f]]|] eqn:Ef.
  - intros dst. pose proof Ef as Ef'. apply list_find_Some in Ef' as (Hk & Hname & _). unfold has_name in Hname. cbn in Hname. subst name'.
    pose proof (argument_sizes _ _ Ha _ _ Hk) as Hsz. exact (open_file (Wk := with_sb sb Wk) eq_refl Hd C _ files Fm Hn Hp Hr w_inodes Ht s1 C W L T2 k name f dst e Hpl Hdot Hsz Ef).
  - exact (open_missing (Wk := with_sb sb Wk) eq_refl Hd C _ files Fm Hn Hp Hr w_inodes Ht s1 C W L T2 name e Hpl Hdot Ef).
Qed.

(** *** An example: two files, and the disk driver with a memory for a disk *)

(** The sectors of the image are among those that lseek can reach. *)
Definition in_image (s : mkfs) : Prop := forall n, is_Some (img s !! n) -> 0 <= n < 4194304.

Section in_image.
Let R := keeps in_image.

Lemma wsect_in sec buf : guar R (wsect sec buf).
Proof.
  apply guar_modify. intros s H n [x Hx]. cbn in Hx. apply lookup_insert_Some in Hx as [[<- _]|[_ Hx]]; [|apply H; by exists x].
  unfold sector, wrap_u. change BSIZE with 1024. change (2 ^ 32) with 4294967296.
  pose proof (Z.mod_pos_bound (sec * 1024) 4294967296 ltac:(lia)). split; [apply Z.div_pos; lia|apply Z.div_lt_upper_bound; lia].
Qed.

Lemma rsect_in sec : guar R (rsect sec).
Proof. unfold rsect. guar_auto. Qed.

Lemma next_block_in : guar R next_block.
Proof. unfold next_block. guar_auto. apply guar_modify. intros s H. exact H. Qed.
#[local] Hint Resolve wsect_in rsect_in next_block_in : guar.

Lemma winode_in i d : guar R (winode i d).
Proof. unfold winode. guar_auto. Qed.

Lemma rinode_in i : guar R (rinode i).
Proof. unfold rinode. guar_auto. Qed.
#[local] Hint Resolve winode_in rinode_in : guar.

Lemma fill_addr_in i d : guar R (fill_addr i d).
Proof. unfold fill_addr. guar_auto. Qed.
#[local] Hint Resolve fill_addr_in : guar.

Lemma iappend_block_in i d : guar R (iappend_block i d).
Proof. unfold iappend_block. guar_auto. Qed.
#[local] Hint Resolve iappend_block_in : guar.

Lemma iappend_loop_in fuel d off p : guar R (iappend_loop fuel d off p).
Proof. revert d off p. induction fuel as [|fuel IH]; intros d off p; cbn [iappend_loop]; guar_auto. Qed.
#[local] Hint Resolve iappend_loop_in : guar.

Lemma iappend_in i p : guar R (iappend i p).
Proof. unfold iappend. guar_auto. Qed.
#[local] Hint Resolve iappend_in : guar.

Lemma copy_file_in i pieces : guar R (copy_file i pieces).
Proof. induction pieces as [|p pieces IH]; cbn [copy_file]; guar_auto. Qed.
#[local] Hint Resolve copy_file_in : guar.

Lemma ialloc_in t : guar R (Mkfs.ialloc t).
Proof. unfold Mkfs.ialloc. guar_auto. Qed.
#[local] Hint Resolve ialloc_in : guar.

Lemma add_file_in r x : guar R (add_file r x).
Proof. unfold add_file. guar_auto. Qed.
#[local] Hint Resolve add_file_in : guar.

Lemma mkfs_main_in o args : guar R (mkfs_main o args).
Proof. unfold mkfs_main, Mkfs.balloc. guar_auto. Qed.
End in_image.

Lemma mkfs_in_image o args m : mkfs_main o args (mkWorld mkfs0 []) = Ok tt (mkWorld m []) -> in_image m.
Proof.
  intros E. pose proof (mkfs_main_in o args (mkWorld mkfs0 []) ltac:(by constructor)) as H. rewrite E in H. destruct H as [H _].
  apply H. intros n [x Hx]. cbn in Hx. by rewrite lookup_empty in Hx.
Qed.

Definition cat : list Z := bytes_of "cat".

Lemma plain_example : Forall (fun x => plain x.1) [(cat, [1; 2; 3]); (bytes_of "README", [])].
Proof. repeat constructor; try done; try (by apply (bool_decide_unpack _)); cbn; lia. Qed.

Lemma empty_example : empty_table (replicate NINODE inode0).
Proof. split; [apply length_replicate|]. by apply Forall_replicate. Qed.

Lemma mkfs_kernel_witness : exists m s ip s1 s2 s3 s4,
  mkfs_main (Some true) [(bytes_of "user/_cat", Some [[1; 2]; [3]]); (bytes_of "README", Some [])] (mkWorld mkfs0 []) = Ok tt (mkWorld m []) /\
  platter (kd s) = img m /\
  fsinit (H := virtio_served memdisk 1) ROOTDEV (mkWorld s []) = Ok tt (mkWorld s1 []) /\
  namei (H := virtio_served memdisk 1) (path_of cat) (mkWorld s1 []) = Ok (Some ip) (mkWorld s2 []) /\
  ilock (H := virtio_served memdisk 1) (Some ip) (mkWorld s2 []) = Ok tt (mkWorld s3 []) /\
  readi (H := virtio_served memdisk 1) ip false 0 0 3 (mkWorld s3 []) = Ok (3, [1; 2; 3]) (mkWorld s4 []).
Proof.
  destruct (mkfs_kernel [(bytes_of "user/_cat", Some [[1; 2]; [3]]); (bytes_of "README", Some [])] [(cat, [1; 2; 3]); (bytes_of "README", [])] [])
    as (m & E & H).
  - repeat constructor; try (by apply (bool_decide_unpack _)); try done.
    + exists [[1; 2]; [3]]. split; [reflexivity|]. split; [repeat constructor; discriminate|reflexivity].
    + exists []. split; [reflexivity|]. split; [constructor|reflexivity].
  - exact plain_example.
  - done.
  - unfold root_fits. discriminate.
  - by apply (bool_decide_unpack _).
  - assert (virtio_ready vdisk_inited (img m)) as V.
    { split; [exact ready_inited|]. intros n Hn. pose proof (mkfs_in_image _ _ _ E n Hn). lia. }
    destruct (booted_with (DS := virtio_spec memdisk 1) vdisk_inited (replicate NINODE inode0) superblock0 (img m) log0 V) as [s F].
    destruct (H (worker_with (replicate NINODE inode0) superblock0) (virtio_served memdisk 1) (virtio_spec memdisk 1) s []) as (s1 & E1 & H1).
    { exists [], log0. split; [exact F|]. split; [reflexivity|]. split; [reflexivity|]. exact empty_example. }
    assert (plain cat) as Hp by (by apply (proj1 (Forall_cons _ _ _) plain_example)).
    destruct (H1 cat Hp ltac:(by intros [H0|H0]) 0) as (ip & s2 & s3 & s4 & E2 & E3 & E4).
    exists m, s, ip, s1, s2, s3, s4. split; [exact E|]. split; [exact (fs_platter _ _ _ _ _ _ _ F)|]. split; [exact E1|]. split; [exact E2|]. split; [exact E3|exact E4].
Defined.

(** nameiparent, on the same machine *)
Lemma resolve_parent_root bs name : plain name -> resolve {[ROOTINO := bs]} true ROOTINO (elements [] (chr "/" :: name)) = Some ROOTINO.
Proof. intros Hp. rewrite (path_elements name Hp). cbn [resolve]. by rewrite lookup_singleton_eq. Qed.

Lemma namex_correct_witness : exists s ip nm s',
  namex (H := virtio_served memdisk 1) (path_of cat) true (replicate 14 0) (mkWorld s []) = Ok (Some (ip, nm)) (mkWorld s' []) /\ holds_name nm cat.
Proof.
  pose (files := [(cat, [1; 2; 3]); (bytes_of "README", @nil Z)]).
  destruct (mkfs_main_ok [(bytes_of "user/_cat", Some [[1; 2]; [3]]); (bytes_of "README", Some [])] files []) as (C & D & F & E & Fn & HR & HF).
  - repeat constructor; try (by apply (bool_decide_unpack _)); try done.
    + exists [[1; 2]; [3]]. split; [reflexivity|]. split; [repeat constructor; discriminate|reflexivity].
    + exists []. split; [reflexivity|]. split; [constructor|reflexivity].
  - done.
  - by apply (bool_decide_unpack _).
  - pose proof (finished_formatted C _ D F files Fn ltac:(done) HR HF) as Fm.
    assert (virtio_ready vdisk_inited C) as V.
    { split; [exact ready_inited|]. intros n Hn. pose proof (mkfs_in_image _ _ _ E n Hn). lia. }
    destruct (booted_with (DS := virtio_spec memdisk 1) vdisk_inited (replicate NINODE inode0) sb C log0 V) as [s T].
    pose (Wk := worker_with (replicate NINODE inode0) sb). pose proof (empty_refs _ empty_example) as Er.
    destruct (namex_correct (Wk := Wk) (DS := virtio_spec memdisk 1) C {[ROOTINO := pad (root_bytes files)]} (replicate NINODE inode0) s
      [] C [] log0 true ROOTINO (chr "/" :: cat) [] (replicate 14 0) []) as (r & it' & s' & E1 & _ & _ & F1).
    + exact T.
    + exact (empty_itab C _ empty_example).
    + exact (image_tree eq_refl C _ files Fm ltac:(done) plain_example ltac:(done)).
    + exact (root_live eq_refl C _ files Fm).
    + reflexivity.
    + unfold NBUF. cbn. lia.
    + rewrite Er, map_size_empty. unfold NINODE. lia.
    + intros i. rewrite Er, lookup_empty. cbn. lia.
    + by apply (bool_decide_unpack _).
    + repeat constructor; done.
    + reflexivity.
    + reflexivity.
    + assert (plain cat) as Hp by (by apply (proj1 (Forall_cons _ _ _) plain_example)).
      rewrite (resolve_parent_root _ cat Hp) in F1. destruct F1 as (ip & nm & x & -> & _ & _ & _ & _ & H). destruct (H eq_refl) as (el & He & Hh). rewrite (path_elements cat Hp) in He. injection He as <-.
      exists s, ip, nm, s'. split; [exact E1|exact Hh].
Defined.
